(* ===== verification/_CoqProject ===== *)
-Q . S2P
Prelude.v
MMap.v
Host.v
MemoryBanks.v
VMemory.v
Paging.v
ForkIsolation.v
MakeCow.v
PageSetup.v
Fork.v
MainMemory.v
Cpu.v
Threads.v
Fds.v
FdCalls.v
GuestCopy.v
GuestStores.v
Merge.v
PageMap.v
MemCalls.v
Rsp.v
RspServer.v
Elf.v
Identity.v
Env.v
CpuTables.v
Smp.v
Snapshot.v
Boot.v
IoCalls.v
IoSafety.v
Remote.v
VcpuRun.v
VcpuSafety.v
Reset.v
