(* ===== verification/Prelude.v ===== *)
(** * TinyKVM: a verification development

    TinyKVM (lib/tinykvm) runs Linux programs inside KVM virtual machines.  A [Machine] loads an
    ELF program into guest memory, runs it on a vCPU, answers its system calls, and can be made
    the master of forks: machines that share its memory and get private pages only where they
    write.  This library translates the C++ code into executable definitions and proves what the
    parts promise to one another.

    ** Method

    - A 64-bit integer is a [Z] with its wrap-around written out ([add64], [sub64], ... below);
      a narrower one is reduced where the code converts it.  An [address_t&] or a [uint64_t*] is
      a host address; the memory behind it is a map of 64-bit words (Host).
    - Code that changes state or throws is a function in the monad [M S A := S -> result A * S].
      A C++ exception is a value of [exn] and leaves the state it was thrown in.  What C++ leaves
      undefined (a dangling pointer, a read outside of a buffer, a failed assertion) is the
      exception [Undefined]; a theorem that excludes it shows that the code cannot do it.
    - [wp m Q X s] says that a run of [m] from [s] returns with [Q] or throws with [X]; both
      outcomes are always covered.
    - The host (Linux, KVM) is not part of the program: its calls are fields of type classes
      ([HostOS], [HostFds], [HostFiles], [HostCalls], ...), their documented behaviour the laws of a
      second class ([HostLaws], ...), and every such class has a concrete instance on which the
      theorems are run.

    ** Files, and the code they model

    - Prelude: words, the monad, loops, weakest preconditions, generic lemmas.
    - MMap: mmap_cache.hpp, memory_maps.cpp.  The allocator of guest address space.
    - Host: the host's memory words, mappings and KVM slots; page_streaming.cpp.
    - MemoryBanks: memory_bank.hpp, memory_bank.cpp.  Pages for copy-on-write memory.
    - VMemory: memory.hpp, memory.cpp, virtual_mem.hpp.  The memory of a machine.
    - MainMemory: the allocation of main memory, with its file-backed form, and its release
      (memory.cpp).
    - Paging: the page walks of amd64/paging.cpp, with every copy-on-write branch.
    - ForkIsolation: the invariant of a fork's page tables, and its preservation.
    - MakeCow: foreach_page and its clients (amd64/paging.cpp).
    - PageSetup: setup_amd64_paging (amd64/paging.cpp).
    - Merge: the merging of page tables into 2MB pages (amd64/paging.cpp), and the processor's
      translation with its rights.
    - PageMap: no code of its own; what the tables of PageSetup map.
    - Fork: the memory side of the fork constructor and of resets (machine.cpp, vcpu.cpp).
    - Reset: the whole fork constructor and [reset_to] another machine (machine.cpp): memory,
      page tables, registers, threads, signals, descriptors and the address allocator.
    - Cpu: registers, little-endian integers, the interface [GuestMemory].
    - Threads: linux/threads.hpp, threads.cpp, signals.hpp, signals.cpp and their system calls.
    - Fds: linux/fds.hpp, fds.cpp.  Virtual file descriptors.
    - FdCalls, MemCalls, IoCalls: the handlers of linux/system_calls.cpp for descriptors, for
      memory, and for input, output and files; IoSafety: what the latter ask of the host.
    - GuestCopy: machine_utils.cpp.  Copies between host and guest, page by page.
    - Rsp, RspServer: rsp_client.hpp, rsp_client.cpp.  The GDB stub and its listening socket.
    - Elf: machine_elf.cpp, util/elf.hpp.  Loading, relocation and symbols.
    - Identity: copies on a machine whose memory is mapped one to one.
    - Env: machine_env.cpp and the stack operations of machine.cpp and machine_inline.hpp.
    - Snapshot: machine_state.cpp.  Saving and loading the state of a machine.
    - Boot: the constructor that takes a binary, [reset_to(binary)], the destructor and [init]
      (machine.cpp): the parts above, one after the other.
    - CpuTables: amd64/gdt.cpp, idt.cpp, tss.cpp, usercode.cpp and the set-up of a vCPU
      (vcpu.cpp).  The tables in guest memory and the registers that refer to them.
    - VcpuRun: vcpu_run.cpp.  Running a vCPU: the timer, exits, page faults, exceptions.
    - Remote: remote.cpp.  Calls of one machine into another.
    - Smp: smp.cpp, util/threadpool.h.  Calls on several vCPUs, as interleaved threads.
    - GuestStores, VcpuSafety: no code of their own; what the processor's walk of the page
      tables lets a guest store to, and what running a fork keeps.

    How they meet: [vMemory] (VMemory) owns its banks (MemoryBanks), and the walks of Paging
    allocate from them; Fork and GuestCopy use the walks; [Machine] of MemCalls puts memory, the
    address allocator and the program break together and implements [GuestMemory], against which
    the handlers of Threads, FdCalls and IoCalls are written.  Boot runs all of this in the order of the
    constructor.  Remote has a world of machines with one host heap, and VcpuRun runs the vCPU of one of them: its page faults go to the walks of
    Paging, its resumption of a remote to Remote, its system calls to a table of handlers.

    ** What the theorems show (claim ids in the doc comments)

    - C1-C3: allocations of guest addresses, with and without huge pages, are aligned, end below
      the bump pointer, and never overlap one that is still in use, through any sequence of calls;
      unmapping takes exactly its range from the used list (and, a bug, the tail of a range around
      it).
    - C4, C5: banks hand out fresh pages and give everything back on a reset.
    - C6: main memory is mapped in full or refused, and given back by its owner; the host may put
      the arena of huge pages elsewhere, which leaves a hole.
    - C7-C9: whatever a fork does with its pages, and its guest through the page tables, on its
      vCPU and with any exits, the memory of the master keeps every word.  The handlers of exits
      are arbitrary programs over the library's functions; stores of the guest's kernel, for which
      CR0.WP is clear, are the exception.
    - C10-C13: the setup of a machine's page tables (without remappings) maps memory to itself and
      keeps user mode out of the kernel area; preparing a master freezes such tables below the
      boundary of shared memory; the constructor then makes a fork that shares the master's
      memory, with no page in use but those [setup_cow_mode] takes, satisfies the invariant behind
      C7 and copies the rest.
    - C14-C16: no sequence of thread, futex and signal calls, also after exceptions, follows a
      dangling pointer; yielding is fair; clone does what it says until its [int] counter ends.
    - C17-C22: translating descriptors terminates; the machine closes exactly what it owns,
      across every descriptor call and reset; a reset rebuilds exactly what is recorded, each
      socket as what it was.
    - C23, C24: copying in chunks of pages is the byte-wise reading of guest memory.
    - C25: a new machine is ready: what each part assumes is what the earlier ones left (memory,
      program, tables, page tables, registers).
    - C26: merging page tables into 2MB pages changes no translation.
    - C27: a guest's mappings stay apart from one another and from the program break.
    - C28, C29: packets of the debug protocol round-trip through a decoder that expands
      run-lengths, and the bounds of its buffers.
    - C30, C31: loading a file whose header sums do not wrap either throws or places its segments; the relocation
      loop follows its format.
    - C32, C33: the start-up stack and the registers of a call follow the System V ABI.
    - C34: loading a saved snapshot restores the machine; a failed save leaves no loadable one.
    - C35, C36: the handlers for input, output and files ask the host only for what the embedder
      granted, and stay inside their arrays and registers; the exceptions are shown.
    - C37: the tables and registers a vCPU starts with fit one another.
    - C38: a call into a remote machine opens a window in the page tables and closes it again.
    - C39: calls on several vCPUs never touch deleted memory, in any interleaving.
    - C40: resetting a used fork to its master gives the machine a new fork would be, but for
      addresses and signal handlers; when it throws, the other machines are as they were.

    ** Bounds and fuel

    Loops that are not structural take fuel.  Where a theorem says that code returns, the fuel
    in the definition is enough by construction: page loops get the length of the range (each
    step takes at least one byte), the walk over the tables gets the depth 4, the translation of
    nested epoll instances the number of entries, relocation bitmaps 63 bits.  [OutOfFuel] is an
    outcome like the others, so the theorems about results exclude it.  Running a guest need not
    end: [VcpuRun.run] takes one unit of fuel per exit, and C9 holds for every number.

    ** Not modelled

    Guest code is an arbitrary action: stores where the page tables allow it (GuestStores, which
    has the walk but not the accessed and dirty bits) and any exit.  KVM's ioctls are parameters
    that may fail.  Not modelled: the instructions of the assembled handlers, the vDSO image, the
    [vmcall] wrappers, printing and profiling; the example programs, benchmarks and tests, which
    are clients of the library. *)
From stdpp Require Import base tactics list numbers strings gmap.
From Stdlib Require Import ZArith Lia Bool.

Local Open Scope Z_scope.

(** ** Machine words *)

Abbreviation W64 := 18446744073709551616.
Definition wrap64 (z : Z) : Z := z mod W64.
Definition u64 (z : Z) : Prop := 0 <= z < W64.
(** The largest [int].  Going beyond it is undefined. *)
Definition INT_MAX : Z := 2 ^ 31 - 1.

Declare Scope u64_scope.
Delimit Scope u64_scope with u64.
Definition add64 (a b : Z) : Z := wrap64 (a + b).
Definition sub64 (a b : Z) : Z := wrap64 (a - b).
Definition mul64 (a b : Z) : Z := wrap64 (a * b).
Definition shl64 (a n : Z) : Z := wrap64 (Z.shiftl a n).
Definition not64 (a : Z) : Z := W64 - 1 - a.
Notation "a ⊕ b" := (add64 a b) (at level 50, left associativity) : u64_scope.
Notation "a ⊖ b" := (sub64 a b) (at level 50, left associativity) : u64_scope.
Notation "a .& b" := (Z.land a b) (at level 45, left associativity) : u64_scope.
Notation "a .| b" := (Z.lor a b) (at level 51, left associativity) : u64_scope.
Notation "a .>> b" := (Z.shiftr a b) (at level 44, left associativity) : u64_scope.
Notation "a .<< b" := (shl64 a b) (at level 44, left associativity) : u64_scope.
Global Open Scope u64_scope.

(** ** C++ exceptions and the state-and-exception monad *)

Inductive exn :=
| MachineException (msg : string) (data : Z)
| MachineTimeoutException (msg : string) (data : Z)
| MemoryException (msg : string) (addr size : Z) (oom : bool)
| RuntimeError (msg : string)
| OutOfRange
| Undefined (what : string)     (* a failed assertion or a dangling pointer *)
| OutOfFuel.

(** Neither undefined behaviour nor a loop of the model that ran out of fuel. *)
Definition defined_exn (e : exn) : Prop := match e with Undefined _ | OutOfFuel => False | _ => True end.

Inductive result (A : Type) := Ok (a : A) | Err (e : exn).
Arguments Ok {A} a.
Arguments Err {A} e.

Definition M (S A : Type) : Type := S -> result A * S.

Section monad.
Context {S : Type}.
Definition ret {A} (a : A) : M S A := fun s => (Ok a, s).
Definition throw {A} (e : exn) : M S A := fun s => (Err e, s).
Definition bind {A B} (m : M S A) (k : A -> M S B) : M S B :=
  fun s => match m s with (Ok a, s') => k a s' | (Err e, s') => (Err e, s') end.
Definition get : M S S := fun s => (Ok s, s).
Definition gets {A} (f : S -> A) : M S A := fun s => (Ok (f s), s).
Definition put (s : S) : M S unit := fun _ => (Ok tt, s).
Definition modify (f : S -> S) : M S unit := fun s => (Ok tt, f s).
Definition lift {A} (r : result A) : M S A := fun s => (r, s).
Definition catch {A} (m : M S A) (h : exn -> M S A) : M S A :=
  fun s => match m s with (Ok a, s') => (Ok a, s') | (Err e, s') => h e s' end.
(** [catch (...)]; an undefined behaviour is not an exception. *)
Definition try_catch {A} (m h : M S A) : M S A :=
  catch m (fun e => match e with Undefined _ | OutOfFuel => throw e | _ => h end).
Definition when (b : bool) (m : M S unit) : M S unit := if b then m else ret tt.
End monad.

Declare Scope monad_scope.
Delimit Scope monad_scope with monad.
Notation "'let!' x := c 'in' k" := (bind c (fun x => k))
  (at level 10, x pattern, c at level 100, k at level 200,
   format "'let!'  x  :=  c  'in' '//' k") : monad_scope.
Notation "c ;;; k" := (bind c (fun _ => k))
  (at level 199, right associativity, format "c ;;; '//' k") : monad_scope.
Global Open Scope monad_scope.

(** A counted loop: [for_range n lo body] runs [body lo], ..., [body (lo+n-1)]. *)
Fixpoint for_range {S} (n : nat) (lo : Z) (body : Z -> M S unit) : M S unit :=
  match n with
  | O => ret tt
  | Datatypes.S n' => body lo ;;; for_range n' (lo + 1) body
  end.

(** Range-for over a vector. *)
Fixpoint for_each {S A} (l : list A) (body : A -> M S unit) : M S unit :=
  match l with
  | [] => ret tt
  | x :: l' => body x ;;; for_each l' body
  end.

(** ** Weakest preconditions: [Q] after a normal return, [X] after an exception *)

Definition wp {S A} (m : M S A) (Q : A -> S -> Prop) (X : exn -> S -> Prop) (s : S) : Prop :=
  match m s with (Ok a, s') => Q a s' | (Err e, s') => X e s' end.

Section wp_rules.
Context {S : Type}.
Implicit Types (s : S) (X : exn -> S -> Prop).

Lemma wp_ret {A} (a : A) Q X s : Q a s -> wp (ret a) Q X s.
Proof. done. Qed.
Lemma wp_throw {A} e (Q : A -> S -> Prop) X s : X e s -> wp (throw e) Q X s.
Proof. done. Qed.
Lemma wp_get Q X s : Q s s -> wp get Q X s.
Proof. done. Qed.
Lemma wp_gets {A} (f : S -> A) Q X s : Q (f s) s -> wp (gets f) Q X s.
Proof. done. Qed.
Lemma wp_put s' Q X s : Q tt s' -> wp (put s') Q X s.
Proof. done. Qed.
Lemma wp_modify f Q X s : Q tt (f s) -> wp (modify f) Q X s.
Proof. done. Qed.
Lemma wp_lift {A} (r : result A) Q X s :
  match r with Ok a => Q a s | Err e => X e s end -> wp (lift r) Q X s.
Proof. by destruct r. Qed.

Lemma wp_mono {A} (m : M S A) Q Q' X X' s :
  wp m Q X s -> (forall a s', Q a s' -> Q' a s') -> (forall e s', X e s' -> X' e s') ->
  wp m Q' X' s.
Proof. unfold wp. destruct (m s) as [[] ?]; eauto. Qed.

Lemma wp_bind {A B} (m : M S A) (k : A -> M S B) Q X s :
  wp m (fun a s' => wp (k a) Q X s') X s -> wp (bind m k) Q X s.
Proof. unfold wp, bind. destruct (m s) as [[] ?]; eauto. Qed.

Lemma wp_bind_inv {A B} (m : M S A) (k : A -> M S B) Q X s :
  wp (bind m k) Q X s -> wp m (fun a s' => wp (k a) Q X s') X s.
Proof. unfold wp, bind. destruct (m s) as [[] ?]; eauto. Qed.

Lemma wp_both {A} (m : M S A) Q1 X1 Q2 X2 s : wp m Q1 X1 s -> wp m Q2 X2 s ->
  wp m (fun a s' => Q1 a s' /\ Q2 a s') (fun e s' => X1 e s' /\ X2 e s') s.
Proof. unfold wp. by destruct (m s) as [[] ?]. Qed.
Lemma wp_catch {A} (m : M S A) h Q X s :
  wp m Q (fun e s' => wp (h e) Q X s') s -> wp (catch m h) Q X s.
Proof. unfold wp, catch. destruct (m s) as [[] ?]; eauto. Qed.

Lemma wp_when b m (Q : unit -> S -> Prop) X s :
  (b = true -> wp m Q X s) -> (b = false -> Q tt s) -> wp (when b m) Q X s.
Proof. destruct b; unfold when; eauto using wp_ret. Qed.

Lemma wp_if {A} (b : bool) (m1 m2 : M S A) Q X s :
  (b = true -> wp m1 Q X s) -> (b = false -> wp m2 Q X s) ->
  wp (if b then m1 else m2) Q X s.
Proof. destruct b; eauto. Qed.

(** Consequence of a run: the outcome satisfies what [wp] promises. *)
Lemma wp_run {A} (m : M S A) Q X s r s' :
  wp m Q X s -> m s = (r, s') -> match r with Ok a => Q a s' | Err e => X e s' end.
Proof. unfold wp. intros H E. rewrite E in H. by destruct r. Qed.

(** A run whose outcome is known. *)
Lemma run_pair {A} (m : M S A) s a : fst (m s) = Ok a -> m s = (Ok a, snd (m s)).
Proof. by destruct (m s) as [r t]; simpl; intros ->. Qed.

(** Loop rule with an invariant indexed by the loop counter. *)
Lemma wp_for_range (I : Z -> S -> Prop) n lo body (Q : unit -> S -> Prop) X s :
  I lo s ->
  (forall i t, lo <= i < lo + Z.of_nat n -> I i t ->
     wp (body i) (fun _ t' => I (i + 1) t') X t) ->
  (forall t, I (lo + Z.of_nat n) t -> Q tt t) ->
  wp (for_range n lo body) Q X s.
Proof.
  revert lo s. induction n as [|n IH]; intros lo s H0 Hstep Hend; simpl.
  - apply wp_ret, Hend. by replace (lo + Z.of_nat 0) with lo by lia.
  - apply wp_bind. eapply wp_mono; [apply Hstep; [lia|done]| |done].
    intros [] t Ht. apply IH; [done| |].
    + intros i t' Hi. apply Hstep. lia.
    + intros t' Ht'. apply Hend. by replace (lo + Z.of_nat (Datatypes.S n))
        with (lo + 1 + Z.of_nat n) by lia.
Qed.

Lemma wp_for_each {A} (I : list A -> S -> Prop) (l : list A) body (Q : unit -> S -> Prop) X s :
  I [] s ->
  (forall done x rest t, l = done ++ x :: rest -> I done t ->
     wp (body x) (fun _ t' => I (done ++ [x]) t') X t) ->
  (forall t, I l t -> Q tt t) ->
  wp (for_each l body) Q X s.
Proof.
  intros H0 Hstep Hend.
  assert (forall rest done t, l = done ++ rest -> I done t ->
    wp (for_each rest body) Q X t) as Hgen; [|by apply (Hgen l [])].
  induction rest as [|x rest IH]; intros dn t E Hd; simpl.
  - apply wp_ret, Hend. rewrite E, app_nil_r. done.
  - apply wp_bind. eapply wp_mono; [by eapply Hstep| |done].
    intros [] t' Ht'. eapply IH; [|done]. by rewrite E, <- app_assoc.
Qed.
End wp_rules.

(** [wp_step] applies the rule of the head construct of a monadic program. *)
Ltac wp_step :=
  lazymatch goal with
  | |- wp (bind _ _) _ _ _ => apply wp_bind
  | |- wp (ret _) _ _ _ => apply wp_ret
  | |- wp (throw _) _ _ _ => apply wp_throw
  | |- wp get _ _ _ => apply wp_get
  | |- wp (gets _) _ _ _ => apply wp_gets
  | |- wp (put _) _ _ _ => apply wp_put
  | |- wp (modify _) _ _ _ => apply wp_modify
  | |- wp (lift _) _ _ _ => apply wp_lift
  | |- wp (if _ then _ else _) _ _ _ => apply wp_if; intros ?
  | |- wp (when _ _) _ _ _ => apply wp_when; intros ?
  | |- wp (match ?x with _ => _ end) _ _ _ => let E := fresh "E" in destruct x eqn:E
  end.
(** [wp_pures] stops at branches. *)
Ltac wp_pure :=
  lazymatch goal with
  | |- wp (if _ then _ else _) _ _ _ => fail
  | |- wp (when _ _) _ _ _ => fail
  | |- wp (match _ with _ => _ end) _ _ _ => fail
  | |- _ => wp_step; cbn beta iota
  end.
Ltac wp_pures := repeat wp_pure.
Ltac wp_steps := repeat (wp_step; cbn beta iota).

(** ** Arithmetic of 64-bit words *)

Create HintDb word discriminated.

Section words.
Implicit Types (x y : Z).

Lemma wrap64_small x : u64 x -> wrap64 x = x.
Proof. intros. by apply Z.mod_small. Qed.
Lemma wrap64_u64 x : u64 (wrap64 x).
Proof. by apply Z.mod_pos_bound. Qed.
Lemma add64_small x y : u64 (x + y) -> x ⊕ y = x + y.
Proof. apply wrap64_small. Qed.
Lemma sub64_small x y : u64 (x - y) -> x ⊖ y = x - y.
Proof. apply wrap64_small. Qed.
Lemma mul64_small x y : u64 (x * y) -> mul64 x y = x * y.
Proof. apply wrap64_small. Qed.
Lemma not64_u64 x : u64 x -> u64 (not64 x).
Proof. unfold u64, not64. lia. Qed.

Lemma testbit_high x n : u64 x -> 64 <= n -> Z.testbit x n = false.
Proof.
  intros [H1 H2] Hn. destruct (decide (x = 0)) as [->|]; [apply Z.bits_0|].
  apply Z.bits_above_log2; [lia|]. apply Z.log2_lt_pow2; [lia|].
  eapply Z.lt_le_trans; [exact H2|]. change W64 with (2 ^ 64).
  apply Z.pow_le_mono_r; lia.
Qed.

Lemma testbit_not64 x n : u64 x -> 0 <= n < 64 ->
  Z.testbit (not64 x) n = negb (Z.testbit x n).
Proof.
  intros Hx Hn.
  assert (not64 x = Z.land (Z.lnot x) (Z.ones 64)) as ->.
  { rewrite Z.land_ones by lia. unfold not64, Z.lnot. change (2 ^ 64) with W64.
    apply (Z.mod_unique _ _ (-1)); unfold u64 in Hx; lia. }
  rewrite Z.land_spec, Z.lnot_spec, Z.ones_spec_low by lia. apply andb_true_r.
Qed.

(** Clearing the low [k] bits by masking rounds down to a multiple of [2^k]. *)
Lemma land_not_ones x k : u64 x -> 0 <= k <= 64 ->
  x .& not64 (2 ^ k - 1) = x / 2 ^ k * 2 ^ k.
Proof.
  intros Hx Hk.
  assert (u64 (2 ^ k - 1)).
  { unfold u64. assert (2 ^ k <= 2 ^ 64) by (apply Z.pow_le_mono_r; lia).
    assert (0 < 2 ^ k) by lia. change (2 ^ 64) with W64 in *. lia. }
  rewrite <- Z.shiftl_mul_pow2, <- Z.shiftr_div_pow2, <- Z.ldiff_ones_r by lia.
  apply Z.bits_inj'. intros n Hn.
  rewrite Z.land_spec, Z.ldiff_spec.
  destruct (decide (n < 64)).
  - rewrite testbit_not64 by (done || lia). by rewrite Z.ones_equiv, <- Z.sub_1_r.
  - by rewrite (testbit_high x) by (done || lia).
Qed.

Lemma land_high_mask x k w : 0 <= x < 2 ^ w -> 0 <= k <= w ->
  x .& (2 ^ w - 2 ^ k) = x / 2 ^ k * 2 ^ k.
Proof.
  intros Hx Hk.
  assert (2 ^ w - 2 ^ k = Z.shiftl (Z.ones (w - k)) k) as ->.
  { rewrite Z.shiftl_mul_pow2, Z.ones_equiv by lia.
    replace w with (w - k + k) at 1 by lia. rewrite Z.pow_add_r by lia. lia. }
  rewrite <- Z.shiftl_mul_pow2, <- Z.shiftr_div_pow2 by lia.
  replace x with (Z.lor (Z.shiftl (Z.shiftr x k) k) (Z.land x (Z.ones k))) at 1.
  - rewrite Z.land_lor_distr_l, <- Z.shiftl_land, (Z.land_ones (Z.shiftr x k)) by lia.
    rewrite (Z.mod_small (Z.shiftr x k)).
    + assert (Z.land (Z.land x (Z.ones k)) (Z.shiftl (Z.ones (w - k)) k) = 0) as ->.
      { apply Z.bits_inj'. intros n Hn. rewrite !Z.land_spec, Z.bits_0. destruct (decide (n < k)).
        - by rewrite (Z.shiftl_spec_low _ _ n), andb_false_r by lia.
        - by rewrite (Z.ones_spec_high k), andb_false_r by lia. }
      apply Z.lor_0_r.
    + rewrite Z.shiftr_div_pow2 by lia. split; [apply Z.div_pos; lia|].
      apply Z.div_lt_upper_bound; [lia|]. rewrite <- Z.pow_add_r by lia.
      replace (k + (w - k)) with w by lia. lia.
  - rewrite <- Z.ldiff_ones_r by lia. apply Z.lor_ldiff_and.
Qed.

Lemma land_ones_mod x k : 0 <= k -> x .& (2 ^ k - 1) = x mod 2 ^ k.
Proof. intros. rewrite <- Z.land_ones, Z.ones_equiv, Z.sub_1_r by done. done. Qed.

Lemma land_u64_l x y : u64 x -> 0 <= y -> u64 (x .& y).
Proof.
  intros [H1 H2] Hy. split; [by apply Z.land_nonneg; left|].
  eapply Z.le_lt_trans; [|exact H2]. apply Z.ldiff_le; [done|].
  apply Z.bits_inj'. intros n Hn. rewrite Z.ldiff_spec, !Z.land_spec, Z.bits_0.
  by destruct (Z.testbit y n), (Z.testbit x n).
Qed.
End words.

(** [lia] with divisions and remainders by constants. *)
Ltac dlia := Z.to_euclidean_division_equations; lia.
