(* ===== verification/MMap.v ===== *)
(** * The guest mmap allocator

    [MMapCache] (lib/tinykvm/mmap_cache.hpp) and the [Machine::mmap_*] operations
    (lib/tinykvm/memory_maps.cpp): a bump pointer [m_mm] with a list of free
    ranges and a list of used ranges below it.  All sums are 64-bit sums. *)
From S2P Require Import Prelude.
From stdpp Require Import base tactics list numbers strings relations.
From Stdlib Require Import ZArith Lia Bool.
Local Open Scope Z_scope.

Definition PageSize : Z := 4096.
Definition PageMask : Z := PageSize - 1.
Definition HugeMask : Z := 0x1FFFFF.
Definition MMAP_COLLISION_TRESHOLD : Z := Z.shiftl 512 20.

(** [(bytes + mask) & ~mask] *)
Definition round_up (bytes mask : Z) : Z := (bytes ⊕ mask) .& not64 mask.

Module MMapCache.

(** ** Data: [struct MMapCache] *)

Record Range := mkRange { addr : Z; size : Z }.

Definition range_empty (r : Range) : bool := size r =? 0.

Definition overlaps (r : Range) (mem memsize : Z) : bool :=
  (addr r <? mem ⊕ memsize) && (mem <? addr r ⊕ size r).

Definition equals (r : Range) (mem memsize : Z) : bool :=
  (addr r =? mem) && (addr r ⊕ size r =? mem ⊕ memsize).

Record MMapCache := mkCache {
  m_free_ranges : list Range;
  m_used_ranges : list Range;
  m_mm : Z;
  m_track_used_ranges : bool;
  m_max_tracked_ranges : Z }.

Definition empty_cache : MMapCache := mkCache [] [] 0 true 4096.

Definition set_free (c : MMapCache) l :=
  mkCache l (m_used_ranges c) (m_mm c) (m_track_used_ranges c) (m_max_tracked_ranges c).
Definition set_used (c : MMapCache) l :=
  mkCache (m_free_ranges c) l (m_mm c) (m_track_used_ranges c) (m_max_tracked_ranges c).
Definition set_current (c : MMapCache) z :=
  mkCache (m_free_ranges c) (m_used_ranges c) z (m_track_used_ranges c) (m_max_tracked_ranges c).

(** ** [MMapCache] operations *)

(** The loop of [MMapCache::find]: first fit, splitting or erasing the range found. *)
Fixpoint find_first (sz : Z) (l : list Range) : option (Range * list Range) :=
  match l with
  | [] => None
  | r :: rest =>
      if sz <=? size r then
        let res := mkRange (addr r) sz in
        if sz <? size r
        then Some (res, mkRange (addr r ⊕ sz) (size r ⊖ sz) :: rest)
        else Some (res, rest)
      else
        match find_first sz rest with
        | Some (res, rest') => Some (res, r :: rest')
        | None => None
        end
  end.

Definition find (sz : Z) : M MMapCache Range :=
  let! c := get in
  match find_first sz (m_free_ranges c) with
  | Some (r, l) => put (set_free c l) ;;; ret r
  | None => ret (mkRange 0 0)
  end.

Definition find_collision (ranges : list Range) (r : Range) : option Range :=
  List.find (fun line => overlaps line (addr r) (size r)) ranges.

Definition collides (ranges : list Range) (r : Range) : bool :=
  match find_collision ranges r with Some _ => true | None => false end.

(** The merge loop of [insert_free]: extends the first range adjacent to the new one. *)
Fixpoint merge_free (a sz : Z) (l : list Range) : option (list Range) :=
  match l with
  | [] => None
  | r :: rest =>
      if addr r ⊕ size r =? a then Some (mkRange (addr r) (size r ⊕ sz) :: rest)
      else if addr r =? a ⊕ sz then Some (mkRange a (size r ⊕ sz) :: rest)
      else match merge_free a sz rest with
           | Some rest' => Some (r :: rest')
           | None => None
           end
  end.

Definition insert_free (a sz : Z) : M MMapCache unit :=
  let! c := get in
  if m_mm c <? a ⊕ sz then throw (MemoryException "MMapCache: Invalid free range" a sz false)
  else if collides (m_free_ranges c) (mkRange a sz) then
    throw (MemoryException "MMapCache: Collision detected inserting free range" a sz false)
  else match merge_free a sz (m_free_ranges c) with
       | Some l => put (set_free c l)
       | None =>
           if m_max_tracked_ranges c <=? Z.of_nat (length (m_free_ranges c))
           then throw (MemoryException "MMapCache: Too many free ranges" a sz false)
           else put (set_free c (m_free_ranges c ++ [mkRange a sz]))
       end.

(** [back()] of a vector. *)
Definition insert_used (a sz : Z) : M MMapCache unit :=
  let! c := get in
  let push :=
    if m_max_tracked_ranges c <=? Z.of_nat (length (m_used_ranges c))
    then throw (MemoryException "MMapCache: Too many used ranges" a sz false)
    else put (set_used c (m_used_ranges c ++ [mkRange a sz])) in
  match last (m_used_ranges c) with
  | Some b =>
      if addr b ⊕ size b =? a
      then put (set_used c (removelast (m_used_ranges c) ++ [mkRange (addr b) (size b ⊕ sz)]))
      else push
  | None => push
  end.

(** The loop of [MMapCache::remove]. *)
Fixpoint remove_loop (a sz : Z) (l : list Range) : list Range :=
  match l with
  | [] => []
  | r :: rest =>
      if overlaps r a sz then
        if (a <=? addr r) && (addr r ⊕ size r <=? a ⊕ sz) then remove_loop a sz rest
        else if a <? addr r then
          mkRange (a ⊕ sz) (size r ⊖ ((a ⊕ sz) ⊖ addr r)) :: remove_loop a sz rest
        else
          if a ⊖ addr r =? 0 then remove_loop a sz rest
          else mkRange (addr r) (a ⊖ addr r) :: remove_loop a sz rest
      else r :: remove_loop a sz rest
  end.

(** [MMapCache::remove] on one of the two vectors; the vector is updated in place
    before the check that throws. *)
Definition remove (get_l : MMapCache -> list Range) (set_l : MMapCache -> list Range -> MMapCache)
    (a sz : Z) : M MMapCache unit :=
  let! c := get in
  let l := remove_loop a sz (get_l c) in
  put (set_l c l) ;;;
  if collides l (mkRange a sz)
  then throw (MemoryException "MMapCache: Failed to remove range" a sz false)
  else ret tt.

Definition remove_free := remove m_free_ranges set_free.
Definition remove_used := remove m_used_ranges set_used.

(** ** Ranges as sets of addresses *)

Definition in_range (x : Z) (r : Range) : Prop := addr r <= x < addr r + size r.
Definition covers (l : list Range) (x : Z) : Prop := Exists (in_range x) l.
Definition apart (r1 r2 : Range) : Prop :=
  addr r1 + size r1 <= addr r2 \/ addr r2 + size r2 <= addr r1.
(** A nonempty range lying in [[lo, hi)]. *)
Definition within_bounds (lo hi : Z) (r : Range) : Prop :=
  lo <= addr r /\ 0 < size r /\ addr r + size r <= hi.

Fixpoint pairwise_apart (l : list Range) : Prop :=
  match l with
  | [] => True
  | r :: rest => Forall (apart r) rest /\ pairwise_apart rest
  end.

#[global] Instance apart_dec r1 r2 : Decision (apart r1 r2).
Proof. unfold apart. apply _. Defined.
#[global] Instance within_bounds_dec lo hi r : Decision (within_bounds lo hi r).
Proof. unfold within_bounds. apply _. Defined.

Lemma apart_sym r1 r2 : apart r1 r2 <-> apart r2 r1.
Proof. unfold apart. tauto. Qed.

Lemma or_regroup (A B C D : Prop) : (A <-> B \/ C) -> A \/ D <-> B \/ C \/ D.
Proof. tauto. Qed.

Section ranges.
Context (lo hi : Z) (Hlo : 0 <= lo) (Hhi : hi < W64).
Local Abbreviation wf := (within_bounds lo hi).

Ltac ranges := unfold within_bounds, apart, in_range, u64 in *; simpl in *.


Lemma overlaps_spec r q : wf r -> within_bounds 0 hi q ->
  overlaps r (addr q) (size q) = true <-> addr r < addr q + size q /\ addr q < addr r + size r.
Proof.
  intros Hr Hq. unfold overlaps. ranges.
  rewrite !add64_small by (unfold u64; lia). rewrite andb_true_iff. lia.
Qed.

Lemma not_overlaps_apart r q : wf r -> within_bounds 0 hi q ->
  overlaps r (addr q) (size q) = false <-> apart r q.
Proof.
  intros Hr Hq. rewrite <- not_true_iff_false, overlaps_spec by done. ranges. lia.
Qed.

Lemma collides_false l q : Forall wf l -> within_bounds 0 hi q ->
  collides l q = false <-> Forall (apart q) l.
Proof.
  intros Hl Hq. unfold collides, find_collision.
  induction Hl as [|r l Hr Hl IH]; simpl; [split; intros _; [constructor|done]|].
  destruct (overlaps r (addr q) (size q)) eqn:E.
  - split; [done|]. intros H. apply Forall_cons in H as [H _].
    apply apart_sym, not_overlaps_apart in H; [congruence|done..].
  - rewrite Forall_cons, IH. apply not_overlaps_apart in E; [|done..].
    rewrite apart_sym. tauto.
Qed.

(** *** first fit *)
Lemma find_first_Some sz l res l' : 0 < sz -> Forall wf l ->
  find_first sz l = Some (res, l') ->
  size res = sz /\ wf res /\ Forall wf l' /\
  Exists (fun r => addr res = addr r /\ sz <= size r) l.
Proof.
  intros Hsz Hl. revert l'. induction Hl as [|r l Hr Hl IH]; intros l' E; simpl in E; [done|].
  destruct (Z.leb_spec sz (size r)).
  - assert (wf (mkRange (addr r) sz)) by (ranges; lia).
    destruct (Z.ltb_spec sz (size r)); simplify_eq.
    + split_and!; try done; [|by left].
      constructor; [|done]. ranges.
      rewrite add64_small, sub64_small by (unfold u64; lia). lia.
    + split_and!; try done. by left.
  - destruct (find_first sz l) as [[res0 l0]|]; simplify_eq.
    destruct (IH l0) as (?&?&?&?); [done|]. split_and!; try done; [by constructor|by right].
Qed.

Lemma find_first_None sz l : find_first sz l = None -> Forall (fun r => size r < sz) l.
Proof.
  induction l as [|r l IH]; simpl; intros E; [done|].
  destruct (Z.leb_spec sz (size r)); [by destruct (sz <? size r)|].
  destruct (find_first sz l) as [[]|]; [done|]. constructor; auto.
Qed.

Lemma find_first_apart_other sz l res l' q : 0 < sz -> Forall wf l ->
  find_first sz l = Some (res, l') -> Forall (apart q) l ->
  apart q res /\ Forall (apart q) l'.
Proof.
  intros Hsz Hl. revert l'. induction Hl as [|r l Hr Hl IH]; intros l' E Hq; simpl in E; [done|].
  apply Forall_cons in Hq as [Hqr Hql].
  destruct (Z.leb_spec sz (size r)).
  - destruct (Z.ltb_spec sz (size r)); simplify_eq; (split; [ranges; lia|]); [|done].
    constructor; [|done]. ranges. rewrite add64_small, sub64_small by (unfold u64; lia). lia.
  - destruct (find_first sz l) as [[res0 l0]|]; simplify_eq.
    destruct (IH l0) as [??]; [done..|]. split; [done|by constructor].
Qed.

Lemma find_first_apart sz l res l' : 0 < sz -> Forall wf l -> pairwise_apart l ->
  find_first sz l = Some (res, l') -> pairwise_apart l' /\ Forall (apart res) l'.
Proof.
  intros Hsz Hl. revert l'. induction Hl as [|r l Hr Hl IH]; intros l' Hp E; simpl in E; [done|].
  destruct Hp as [Hrl Hpl].
  destruct (Z.leb_spec sz (size r)).
  - assert (Forall (apart (mkRange (addr r) sz)) l).
    { eapply Forall_impl; [exact Hrl|]. intros x. ranges. lia. }
    destruct (Z.ltb_spec sz (size r)); simplify_eq; [|done].
    assert (addr r ⊕ sz = addr r + sz) as -> by (apply add64_small; ranges; lia).
    assert (size r ⊖ sz = size r - sz) as -> by (apply sub64_small; ranges; lia).
    split; [split; [|done]|constructor; [ranges; lia|done]].
    eapply Forall_impl; [exact Hrl|]. intros x. ranges. lia.
  - destruct (find_first sz l) as [[res0 l0]|] eqn:E0; simplify_eq.
    destruct (IH l0) as [??]; [done..|].
    destruct (find_first_apart_other sz l res l0 r) as [??]; [done..|].
    split; [by split|]. constructor; [by apply apart_sym|done].
Qed.

Lemma find_first_covers sz l res l' x : 0 < sz -> Forall wf l ->
  find_first sz l = Some (res, l') -> covers l x <-> in_range x res \/ covers l' x.
Proof.
  intros Hsz Hl. revert l'. unfold covers.
  induction Hl as [|r l Hr Hl IH]; intros l' E; simpl in E; [done|].
  destruct (Z.leb_spec sz (size r)).
  - destruct (Z.ltb_spec sz (size r)); simplify_eq; rewrite !Exists_cons.
    + assert (addr r ⊕ sz = addr r + sz) as -> by (apply add64_small; ranges; lia).
      assert (size r ⊖ sz = size r - sz) as -> by (apply sub64_small; ranges; lia).
      unfold in_range; ranges; simpl.
      assert (addr r <= x < addr r + size r <->
        addr r <= x < addr r + sz \/ addr r + sz <= x < addr r + sz + (size r - sz)) by lia.
      tauto.
    + assert (sz = size r) as -> by lia. unfold in_range; simpl. tauto.
  - destruct (find_first sz l) as [[res0 l0]|]; simplify_eq.
    rewrite !Exists_cons, (IH l0) by done. tauto.
Qed.

(** *** merging a freed range *)
Lemma merge_free_Some a sz l l' : Forall wf l -> wf (mkRange a sz) ->
  merge_free a sz l = Some l' ->
  Forall wf l' /\
  (forall x, covers l' x <-> in_range x (mkRange a sz) \/ covers l x) /\
  (forall q, 0 < size q -> apart q (mkRange a sz) -> Forall (apart q) l -> Forall (apart q) l').
Proof.
  intros Hl Hq. revert l'. unfold covers.
  induction Hl as [|r l Hr Hl IH]; intros l' E; simpl in E; [done|].
  rewrite (add64_small (addr r)), (add64_small a) in E by (ranges; lia).
  destruct (Z.eqb_spec (addr r + size r) a) as [<-|]; [|destruct (Z.eqb_spec (addr r) (a + sz)) as [Hadj|]].
  1,2: simplify_eq; rewrite ?(add64_small (size r)) by (ranges; lia); split_and!;
    [constructor; [ranges; lia|done]
    |intros x; rewrite !Exists_cons; apply or_regroup; ranges; lia
    |intros q Hq0 Hqa [Hqr Hql]%Forall_cons; constructor; [ranges; lia|done]].
  destruct (merge_free a sz l) as [l0|]; simplify_eq.
  destruct (IH l0) as (?&Hc&?); [done|]. split_and!.
  - by constructor.
  - intros x. rewrite !Exists_cons, Hc. tauto.
  - intros q ?? [??]%Forall_cons. constructor; auto.
Qed.

Lemma merge_free_apart a sz l l' : Forall wf l -> wf (mkRange a sz) ->
  Forall (apart (mkRange a sz)) l -> pairwise_apart l ->
  merge_free a sz l = Some l' -> pairwise_apart l'.
Proof.
  intros Hl Hq. revert l'.
  induction Hl as [|r l Hr Hl IH]; intros l' Ha Hp E; simpl in E; [done|].
  destruct Hp as [Hrl Hpl]. apply Forall_cons in Ha as [Hqr Hql].
  rewrite (add64_small (addr r)), (add64_small a) in E by (ranges; lia).
  destruct (Z.eqb_spec (addr r + size r) a) as [<-|]; [|destruct (Z.eqb_spec (addr r) (a + sz)) as [Hadj|]].
  1,2: simplify_eq; rewrite ?(add64_small (size r)) by (ranges; lia); split; [|done];
    rewrite Forall_forall in *; intros x Hx; specialize (Hl x Hx); specialize (Hrl x Hx);
    specialize (Hql x Hx); ranges; lia.
  destruct (merge_free a sz l) as [l0|] eqn:E0; simplify_eq.
  split; [|by apply IH].
  apply (merge_free_Some a sz l l0) in E0 as (_&_&H); [|done..].
  apply H; [ranges; lia|by apply apart_sym|done].
Qed.

Lemma merge_free_length a sz l l' : merge_free a sz l = Some l' -> length l' = length l.
Proof.
  revert l'. induction l as [|r l IH]; intros l' E; simpl in E; [done|].
  repeat case_match; simplify_eq/=; f_equal; auto.
Qed.

(** *** removing a range *)
(** One step of the loop: what is kept of a range [r] when [q] is removed. *)
Definition trim (a sz : Z) (r : Range) : option Range :=
  if (a <? addr r + size r) && (addr r <? a + sz) then
    if (a <=? addr r) && (addr r + size r <=? a + sz) then None
    else if a <? addr r then Some (mkRange (a + sz) (addr r + size r - (a + sz)))
    else if a =? addr r then None
    else Some (mkRange (addr r) (a - addr r))
  else Some r.

Lemma remove_loop_trim a sz l : Forall wf l -> wf (mkRange a sz) ->
  remove_loop a sz l = omap (trim a sz) l.
Proof.
  intros Hl Hq. induction Hl as [|r l Hr Hl IH]; simpl; [done|]. rewrite IH. unfold trim.
  assert (overlaps r a sz = (a <? addr r + size r) && (addr r <? a + sz)) as ->.
  { unfold overlaps. rewrite !add64_small by (ranges; lia). apply andb_comm. }
  destruct (Z.ltb_spec a (addr r + size r)), (Z.ltb_spec (addr r) (a + sz)); simpl; try done.
  rewrite !add64_small by (ranges; lia).
  destruct (Z.leb_spec a (addr r)), (Z.leb_spec (addr r + size r) (a + sz)); simpl; try done.
  all: destruct (Z.ltb_spec a (addr r)); try lia.
  all: rewrite ?(sub64_small a), ?(sub64_small (a + sz)), ?(sub64_small (size r)) by (ranges; lia).
  all: destruct (Z.eqb_spec a (addr r)), (Z.eqb_spec (a - addr r) 0); try lia; try done.
  do 2 f_equal. lia.
Qed.

(** What is kept is a nonempty part of [r] that misses [q]. *)
Lemma trim_Some a sz r r' : wf r -> wf (mkRange a sz) -> trim a sz r = Some r' ->
  wf r' /\ addr r <= addr r' /\ addr r' + size r' <= addr r + size r /\
  apart (mkRange a sz) r'.
Proof. intros Hr Hq. unfold trim. repeat case_match; intros; simplify_eq; ranges; lia. Qed.

(** Nothing outside [q] is lost, unless [r] starts at or below [q] and ends above
    it: then only the part below [q] is kept, and nothing at all when [r] and [q]
    start at the same address. *)
Lemma trim_keeps a sz r x : wf r -> wf (mkRange a sz) ->
  in_range x r -> ~ in_range x (mkRange a sz) -> ~ (addr r <= a /\ a + sz <= x) ->
  exists r', trim a sz r = Some r' /\ in_range x r'.
Proof.
  intros Hr Hq. unfold trim. repeat case_match; intros; ranges; try lia; eexists; (split; [done|]); simpl; lia.
Qed.

Lemma Forall_omap {A B} (f : A -> option B) (P : A -> Prop) (Q : B -> Prop) l :
  Forall P l -> (forall x y, P x -> f x = Some y -> Q y) -> Forall Q (omap f l).
Proof. intros Hl H. induction Hl; simpl; [done|]. case_match; [constructor; eauto|done]. Qed.

Lemma remove_loop_wf a sz l : Forall wf l -> wf (mkRange a sz) ->
  Forall wf (remove_loop a sz l) /\ Forall (apart (mkRange a sz)) (remove_loop a sz l).
Proof.
  intros Hl Hq. rewrite remove_loop_trim by done.
  split; eapply Forall_omap; try done; intros x y Hx E; by eapply trim_Some in E as (?&?&?&?).
Qed.

Lemma remove_loop_apart_other a sz l q : Forall wf l -> wf (mkRange a sz) ->
  Forall (apart q) l -> Forall (apart q) (remove_loop a sz l).
Proof.
  intros Hl Hq Ha. rewrite remove_loop_trim by done.
  eapply (Forall_omap _ (fun r => wf r /\ apart q r)); [by apply Forall_and|].
  intros x y [Hx Hqx] E. eapply trim_Some in E as (?&?&?&?); [ranges; lia|done..].
Qed.

Lemma remove_loop_pairwise a sz l : Forall wf l -> wf (mkRange a sz) ->
  pairwise_apart l -> pairwise_apart (remove_loop a sz l).
Proof.
  intros Hl Hq. induction Hl as [|r l Hr Hl IH]; [done|]. intros [Hrl Hpl].
  pose proof (remove_loop_apart_other a sz l r Hl Hq Hrl) as Ho.
  pose proof (proj1 (remove_loop_wf a sz l Hl Hq)) as Hw.
  specialize (IH Hpl). rewrite (remove_loop_trim a sz (r :: l)) by (done || by constructor).
  rewrite (remove_loop_trim a sz l) in * by done. simpl.
  destruct (trim a sz r) as [r'|] eqn:E; [|done].
  eapply trim_Some in E as (?&?&?&?); [|done..]. split; [|done].
  rewrite Forall_forall in *. intros y Hy. specialize (Ho y Hy). specialize (Hw y Hy). ranges. lia.
Qed.

Lemma remove_loop_covers a sz l x : Forall wf l -> wf (mkRange a sz) ->
  covers (remove_loop a sz l) x -> covers l x /\ ~ in_range x (mkRange a sz).
Proof.
  intros Hl Hq. rewrite remove_loop_trim by done. unfold covers. rewrite !Exists_exists.
  intros (r' & Hin & Hx). apply list_elem_of_omap in Hin as (r & Hr & E).
  rewrite Forall_forall in Hl. eapply trim_Some in E as (?&?&?&?); [|by apply Hl|done].
  split; [exists r; split; [done|]|]; ranges; lia.
Qed.

Lemma remove_loop_covers_keeps a sz l x : Forall wf l -> wf (mkRange a sz) ->
  covers l x -> ~ in_range x (mkRange a sz) ->
  Forall (fun r => ~ (addr r <= a /\ in_range x r /\ a + sz <= x)) l ->
  covers (remove_loop a sz l) x.
Proof.
  intros Hl Hq. rewrite remove_loop_trim by done. unfold covers. rewrite !Exists_exists.
  intros (r & Hin & Hx) Hnq Hs. rewrite Forall_forall in Hl, Hs.
  destruct (trim_keeps a sz r x) as (r' & E & Hx'); try done.
  - by apply Hl.
  - specialize (Hs r Hin). tauto.
  - exists r'. split; [|done]. apply list_elem_of_omap. by exists r.
Qed.

(** *** appending to the used ranges *)
Lemma pairwise_apart_app l q :
  pairwise_apart (l ++ [q]) <-> pairwise_apart l /\ Forall (apart q) l.
Proof.
  induction l as [|r l IH]; simpl; [split; intros; split; constructor|].
  rewrite Forall_app, Forall_singleton, IH, Forall_cons, (apart_sym q r). tauto.
Qed.

Definition push_used (l : list Range) (q : Range) : list Range :=
  match last l with
  | Some b => if addr b + size b =? addr q
              then removelast l ++ [mkRange (addr b) (size b + size q)]
              else l ++ [q]
  | None => l ++ [q]
  end.

Lemma push_used_spec l q : Forall wf l -> wf q -> pairwise_apart l -> Forall (apart q) l ->
  Forall wf (push_used l q) /\ pairwise_apart (push_used l q) /\
  (forall x, covers (push_used l q) x <-> in_range x q \/ covers l x) /\
  (forall p, 0 < size p -> apart p q -> Forall (apart p) l -> Forall (apart p) (push_used l q)).
Proof.
  intros Hl Hq Hp Ha. unfold push_used, covers.
  assert (Hpush : Forall wf (l ++ [q]) /\ pairwise_apart (l ++ [q]) /\
    (forall x, Exists (in_range x) (l ++ [q]) <-> in_range x q \/ Exists (in_range x) l) /\
    (forall p, 0 < size p -> apart p q -> Forall (apart p) l -> Forall (apart p) (l ++ [q]))).
  { split_and!; [by apply Forall_app; split; [|constructor]|by apply pairwise_apart_app| |].
    - intros x. rewrite Exists_app, Exists_cons, Exists_nil. tauto.
    - intros p _ ??. apply Forall_app. split; [done|by constructor]. }
  destruct (last l) as [b|] eqn:E; [|done].
  destruct (Z.eqb_spec (addr b + size b) (addr q)) as [Hadj|]; [|done].
  apply last_Some in E as [l0 ->]. rewrite removelast_last.
  rewrite Forall_app, Forall_singleton in Hl. destruct Hl as [Hl0 Hb].
  rewrite Forall_app, Forall_singleton in Ha. destruct Ha as [Ha0 Hab].
  apply pairwise_apart_app in Hp as [Hp0 Hpb]. split_and!.
  - rewrite Forall_app, Forall_singleton. split; [done|ranges; lia].
  - apply pairwise_apart_app. split; [done|]. rewrite Forall_forall in *. intros r Hr.
    specialize (Hl0 r Hr). specialize (Ha0 r Hr). specialize (Hpb r Hr). ranges. lia.
  - intros x. rewrite !Exists_app, !Exists_cons, !Exists_nil.
    assert (in_range x (mkRange (addr b) (size b + size q)) <-> in_range x q \/ in_range x b)
      by (ranges; lia). tauto.
  - intros p ?? [? Hpb1]%Forall_app. rewrite Forall_singleton in Hpb1.
    rewrite Forall_app, Forall_singleton. split; [done|ranges; lia].
Qed.

Lemma insert_used_run a sz c : Forall wf (m_used_ranges c) -> wf (mkRange a sz) ->
  insert_used a sz c = (Ok tt, set_used c (push_used (m_used_ranges c) (mkRange a sz))) \/
  insert_used a sz c = (Err (MemoryException "MMapCache: Too many used ranges" a sz false), c).
Proof.
  intros Hl Hq. unfold insert_used, push_used, bind, get, put, throw. simpl.
  destruct (last (m_used_ranges c)) as [b|] eqn:E.
  - apply last_Some in E as [l0 El]. rewrite El in *.
    rewrite Forall_app, Forall_singleton in Hl. destruct Hl as [_ Hb].
    rewrite (add64_small (addr b)) by (ranges; lia).
    destruct (Z.eqb_spec (addr b + size b) a) as [<-|].
    + rewrite (add64_small (size b)) by (ranges; lia). by left.
    + destruct (m_max_tracked_ranges c <=? _); auto.
  - destruct (m_max_tracked_ranges c <=? _); auto.
Qed.
Lemma remove_run get_l set_l a sz c : Forall wf (get_l c) -> wf (mkRange a sz) ->
  remove get_l set_l a sz c = (Ok tt, set_l c (remove_loop a sz (get_l c))).
Proof.
  intros Hl Hq. unfold remove, bind, get, put, ret, throw. simpl.
  destruct (remove_loop_wf a sz (get_l c)) as [Hw Ha]; [done..|].
  apply collides_false in Ha as ->; try done. ranges. lia.
Qed.

Lemma remove_loop_aligned a sz l n : Forall wf l -> wf (mkRange a sz) ->
  (a + sz) mod n = 0 -> Forall (fun r => addr r mod n = 0) l ->
  Forall (fun r => addr r mod n = 0) (remove_loop a sz l).
Proof.
  intros Hl Hq Ha Hn. rewrite remove_loop_trim by done.
  eapply Forall_omap; [exact Hn|]. intros x y Hx. unfold trim. repeat case_match; intros; by simplify_eq.
Qed.

Definition insert_free_error (a sz : Z) (e : exn) : Prop :=
  e = MemoryException "MMapCache: Collision detected inserting free range" a sz false \/
  e = MemoryException "MMapCache: Too many free ranges" a sz false.

Lemma insert_free_run a sz c : Forall wf (m_free_ranges c) -> wf (mkRange a sz) ->
  m_mm c = hi -> pairwise_apart (m_free_ranges c) ->
  (exists l, insert_free a sz c = (Ok tt, set_free c l) /\
     Forall wf l /\ pairwise_apart l /\
     (forall x, covers l x <-> in_range x (mkRange a sz) \/ covers (m_free_ranges c) x) /\
     (forall p, 0 < size p -> apart p (mkRange a sz) -> Forall (apart p) (m_free_ranges c) -> Forall (apart p) l) /\
     (forall n, a mod n = 0 -> Forall (fun r => addr r mod n = 0) (m_free_ranges c) ->
        Forall (fun r => addr r mod n = 0) l)) \/
  (exists e, insert_free a sz c = (Err e, c) /\ insert_free_error a sz e).
Proof.
  intros Hl Hq Hc Hp. unfold insert_free, insert_free_error, bind, get, put, throw. simpl.
  rewrite add64_small by (ranges; lia). rewrite Hc.
  replace (hi <? a + sz) with false by (ranges; lia).
  destruct (collides _ _) eqn:Ec; [right; eauto|].
  apply collides_false in Ec; [|done|ranges; lia].
  destruct (merge_free a sz (m_free_ranges c)) as [l|] eqn:Em.
  - left. exists l. edestruct merge_free_Some as (?&?&?); [exact Hl|exact Hq|exact Em|].
    split_and!; try done; [by apply (merge_free_apart a sz (m_free_ranges c))|].
    intros n Ha Hn. clear -Em Ha Hn. revert l Em. induction Hn as [|r l0 Hr Hn IH]; intros l Em; simpl in Em; [done|].
    repeat case_match; simplify_eq/=; constructor; auto.
  - destruct (m_max_tracked_ranges c <=? _); [right; eauto|]. left. eexists. split; [done|].
    split_and!.
    + apply Forall_app. by split; [|constructor].
    + by apply pairwise_apart_app.
    + intros x. unfold covers. rewrite Exists_app, Exists_cons, Exists_nil. tauto.
    + intros p _ ??. apply Forall_app. by split; [|constructor].
    + intros n ??. apply Forall_app. by split; [|constructor].
Qed.
End ranges.

End MMapCache.

(** ** [Machine] operations on the cache

    [m_heap_address] is the machine's heap start, which [mmap_start] returns. *)
Module MachineMaps.
Import MMapCache.

Record mm_state := mkMM { cache : MMapCache; m_heap_address : Z }.

Definition mmap_start (st : mm_state) : Z := m_heap_address st.

Definition on_cache {A} (m : M MMapCache A) : M mm_state A :=
  fun st => let (r, c) := m (cache st) in (r, mkMM c (m_heap_address st)).

Definition current : M mm_state Z := gets (fun st => m_mm (cache st)).
Definition assign_current (z : Z) : M mm_state unit :=
  on_cache (modify (fun c => set_current c z)).

(** [mmap_allocate(bytes, prot, huge)]; [prot] is not used. *)
Definition mmap_allocate (bytes : Z) (huge : bool) : M mm_state Z :=
  let bytes := if huge then round_up bytes HugeMask else round_up bytes PageMask in
  let! range := on_cache (find bytes) in
  let! st := get in
  if negb (range_empty range) && negb huge then
    if addr range <? mmap_start st then
      throw (MemoryException "MMapCache: Invalid range (below mmap_start)" (addr range) (size range) false)
    else if m_mm (cache st) <? addr range ⊕ size range then
      throw (MemoryException "MMapCache: Invalid range (exceeds current address)" (addr range) (size range) false)
    else
      (if m_track_used_ranges (cache st) then
         if collides (m_used_ranges (cache st)) range then
           throw (MemoryException "MMapCache: Collision detected re-using free range" (addr range) (size range) false)
         else on_cache (insert_used (addr range) (size range))
       else ret tt) ;;;
      ret (addr range)
  else
    (let! cur := current in
     if huge then assign_current (round_up (cur ⊕ bytes) HugeMask) else ret tt) ;;;
    let! result := current in
    assign_current (result ⊕ bytes) ;;;
    let! st := get in
    (if m_track_used_ranges (cache st) then
       if collides (m_used_ranges (cache st)) (mkRange result bytes) then
         throw (MemoryException "MMapCache: Collision detected after incrementing current" result bytes false)
       else on_cache (insert_used result bytes)
     else ret tt) ;;;
    ret result.

Definition mmap_fixed_allocate (a bytes : Z) (is_fixed : bool) : M mm_state Z :=
  let! st := get in
  if a <? mmap_start st then
    throw (MemoryException "MMapCache: Invalid range (below mmap_start)" a bytes false)
  else if m_mm (cache st) <? a ⊕ bytes then
    if m_mm (cache st) ⊕ MMAP_COLLISION_TRESHOLD <? a then ret a
    else throw (MemoryException "MMapCache: Invalid range (exceeds current address)" a bytes false)
  else
    let bytes := round_up bytes PageMask in
    if negb is_fixed then mmap_allocate bytes false
    else
      on_cache (remove_free a bytes) ;;;
      let! st := get in
      (if m_track_used_ranges (cache st) then
         if collides (m_used_ranges (cache st)) (mkRange a bytes) then ret tt
         else on_cache (insert_used a bytes)
       else ret tt) ;;;
      let! cur := current in
      (if cur <? a ⊕ bytes then
         if a <? cur ⊕ MMAP_COLLISION_TRESHOLD then
           assign_current (a ⊕ bytes) ;;;
           let unused_size := a ⊖ cur in
           if 0 <? unused_size then on_cache (insert_free cur unused_size) else ret tt
         else ret tt
       else ret tt) ;;;
      ret a.

Definition mmap_unmap (a sz : Z) : M mm_state bool :=
  let! st := get in
  let cur := m_mm (cache st) in
  let! relaxed :=
    (if (a ⊕ sz =? cur) && (a <? cur) then
       on_cache (remove_free a sz) ;;;
       assign_current (round_up a PageMask) ;;;
       ret true
     else if mmap_start st <=? a then on_cache (insert_free a sz) ;;; ret false
     else ret false) in
  (if m_track_used_ranges (cache st) then on_cache (remove_used a sz) else ret tt) ;;;
  ret relaxed.

Definition mmap_current (st : mm_state) : Z := m_mm (cache st).

Definition mmap_relax (a sz new_size : Z) : M mm_state bool :=
  let! st := get in
  if (m_mm (cache st) =? a ⊕ sz) && (new_size <=? sz) then
    assign_current (round_up (a ⊕ new_size) PageMask) ;;;
    (if m_track_used_ranges (cache st) then
       on_cache (remove_used a sz) ;;; on_cache (insert_used a new_size)
     else ret tt) ;;;
    ret true
  else ret false.

(** ** The allocator's invariant *)

Record mm_inv (st : mm_state) : Prop := {
  inv_start : 0 <= m_heap_address st;
  inv_cur : 0 <= m_mm (cache st) < W64;
  inv_cur_aligned : m_mm (cache st) mod PageSize = 0;
  inv_free : Forall (within_bounds (m_heap_address st) (m_mm (cache st))) (m_free_ranges (cache st));
  inv_free_aligned : Forall (fun r => addr r mod PageSize = 0) (m_free_ranges (cache st));
  inv_free_apart : pairwise_apart (m_free_ranges (cache st));
  inv_used : Forall (within_bounds 0 (m_mm (cache st))) (m_used_ranges (cache st));
  inv_used_apart : pairwise_apart (m_used_ranges (cache st));
  inv_sep : Forall (fun u => Forall (apart u) (m_free_ranges (cache st))) (m_used_ranges (cache st)) }.

Lemma wp_on_cache {A} (m : M MMapCache A) Q X st :
  wp m (fun a c => Q a (mkMM c (m_heap_address st))) (fun e c => X e (mkMM c (m_heap_address st))) (cache st) ->
  wp (on_cache m) Q X st.
Proof. unfold wp, on_cache. by destruct (m (cache st)) as [[]]. Qed.

Lemma round_up_spec b k : 0 <= k <= 63 -> 0 <= b -> b + 2 ^ k <= W64 ->
  let r := round_up b (2 ^ k - 1) in b <= r < b + 2 ^ k /\ r mod 2 ^ k = 0.
Proof.
  intros Hk Hb Hr. assert (0 < 2 ^ k) by lia. unfold round_up.
  rewrite add64_small by (unfold u64; lia).
  rewrite land_not_ones by (unfold u64; lia). simpl.
  rewrite Z.mod_mul by lia.
  pose proof (Z.div_mod (b + (2 ^ k - 1)) (2 ^ k)). pose proof (Z.mod_pos_bound (b + (2 ^ k - 1)) (2 ^ k)).
  nia.
Qed.

Lemma round_up_page b : 0 <= b -> b + PageSize <= W64 ->
  b <= round_up b PageMask < b + PageSize /\ round_up b PageMask mod PageSize = 0.
Proof. intros. apply (round_up_spec b 12); [lia|done|exact H0]. Qed.

Lemma round_up_aligned b : 0 <= b -> b + PageSize <= W64 -> b mod PageSize = 0 ->
  round_up b PageMask = b.
Proof.
  intros Hb Hm Ha. destruct (round_up_page b) as [Hr Hr']; [done..|].
  unfold PageSize in *. pose proof (Z.div_mod b 4096). 
  pose proof (Z.div_mod (round_up b PageMask) 4096). lia.
Qed.

Lemma Forall_apart_flip (l1 l2 : list Range) :
  Forall (fun u => Forall (apart u) l2) l1 <-> Forall (fun f => Forall (apart f) l1) l2.
Proof.
  rewrite !Forall_forall. split; intros H x Hx; apply Forall_forall; intros y Hy;
    specialize (H y Hy); rewrite Forall_forall in H; by apply apart_sym, H.
Qed.

Lemma within_bounds_mono lo hi lo' hi' l : lo' <= lo -> hi <= hi' ->
  Forall (within_bounds lo hi) l -> Forall (within_bounds lo' hi') l.
Proof. intros ?? H. eapply Forall_impl; [exact H|]. unfold within_bounds. intros; simpl in *. lia. Qed.

(** Handing out [q], which is apart from everything free and used and below the new
    bump pointer, keeps the invariant. *)
Lemma mm_inv_use st q cur : mm_inv st -> m_mm (cache st) <= cur < W64 -> cur mod PageSize = 0 ->
  within_bounds 0 cur q -> Forall (apart q) (m_used_ranges (cache st)) ->
  Forall (apart q) (m_free_ranges (cache st)) ->
  mm_inv (mkMM (set_used (set_current (cache st) cur) (push_used (m_used_ranges (cache st)) q))
    (m_heap_address st)).
Proof.
  intros [] Hcur Ha Hq Hqu Hqf.
  destruct (push_used_spec 0 cur (m_used_ranges (cache st)) q) as (?&?&?&Hap); try done.
  { eapply within_bounds_mono; [..|done]; lia. }
  constructor; simpl; try done; try lia.
  - eapply within_bounds_mono; [..|done]; lia.
  - apply Forall_apart_flip. apply Forall_apart_flip in inv_sep0.
    rewrite Forall_forall in *. intros f Hf.
    apply Hap; [|by apply apart_sym, Hqf|by apply inv_sep0].
    specialize (inv_free0 f Hf). unfold within_bounds in inv_free0. lia.
Qed.

Lemma find_first_aligned lo hi sz l res l' : 0 <= lo -> hi < W64 -> 0 < sz -> sz mod PageSize = 0 ->
  Forall (within_bounds lo hi) l -> Forall (fun r => addr r mod PageSize = 0) l ->
  find_first sz l = Some (res, l') ->
  addr res mod PageSize = 0 /\ Forall (fun r => addr r mod PageSize = 0) l'.
Proof.
  intros Hlo Hhi Hsz Hal Hl. revert l'. induction Hl as [|r l Hr Hl IH]; intros l' Hm E; simpl in E; [done|].
  apply Forall_cons in Hm as [Hr0 Hl0].
  destruct (Z.leb_spec sz (size r)).
  - destruct (Z.ltb_spec sz (size r)); simplify_eq/=; (split; [done|]); [|done].
    constructor; [|done]. simpl. unfold within_bounds in Hr.
    rewrite add64_small by (unfold u64; lia). unfold PageSize in *. by rewrite Z.add_mod, Hr0, Hal.
  - destruct (find_first sz l) as [[res0 l0]|]; simplify_eq.
    destruct (IH l0) as [??]; [done..|]. split; [done|by constructor].
Qed.

(** Taking a range out of the free list. *)
Lemma mm_inv_find st sz res l' : mm_inv st -> 0 < sz -> sz mod PageSize = 0 ->
  find_first sz (m_free_ranges (cache st)) = Some (res, l') ->
  mm_inv (mkMM (set_free (cache st) l') (m_heap_address st)) /\
  size res = sz /\ addr res mod PageSize = 0 /\
  within_bounds (m_heap_address st) (m_mm (cache st)) res /\
  Forall (apart res) l' /\ Forall (apart res) (m_used_ranges (cache st)).
Proof.
  intros [] Hsz Hal E.
  edestruct find_first_Some as (?&?&?&_); try exact E; try done; try lia.
  edestruct find_first_apart as (?&?); try exact E; try done; try lia.
  edestruct find_first_aligned as (?&?); try exact E; try done; try lia.
  assert (forall u, u ∈ m_used_ranges (cache st) -> apart u res /\ Forall (apart u) l') as Hu.
  { intros u Hu. rewrite Forall_forall in inv_sep0.
    eapply find_first_apart_other; try exact E; try done; try lia. by apply inv_sep0. }
  split_and!; try done; [constructor; simpl; try done|]; apply Forall_forall; intros u Hin; apply Hu in Hin.
  - tauto.
  - apply apart_sym. tauto.
Qed.

Definition too_many_used (e : exn) : Prop :=
  exists a sz, e = MemoryException "MMapCache: Too many used ranges" a sz false.

(** The last step of both paths of [mmap_allocate]: the collision check cannot fail,
    and the range is recorded. *)
Lemma record_used_spec st q msg cur : mm_inv st -> m_mm (cache st) <= cur < W64 ->
  cur mod PageSize = 0 -> within_bounds 0 cur q ->
  Forall (apart q) (m_used_ranges (cache st)) -> Forall (apart q) (m_free_ranges (cache st)) ->
  let st' := mkMM (set_current (cache st) cur) (m_heap_address st) in
  wp (if m_track_used_ranges (cache st) then
        if collides (m_used_ranges (cache st)) q then throw msg
        else on_cache (insert_used (addr q) (size q))
      else ret tt)
    (fun _ st'' => mm_inv st'' /\ m_mm (cache st'') = cur /\
       m_free_ranges (cache st'') = m_free_ranges (cache st) /\
       (m_track_used_ranges (cache st) = true -> forall x,
          covers (m_used_ranges (cache st'')) x <-> in_range x q \/ covers (m_used_ranges (cache st)) x))
    (fun e st'' => too_many_used e /\ mm_inv st'' /\ m_mm (cache st'') = cur /\
       m_free_ranges (cache st'') = m_free_ranges (cache st)) st'.
Proof.
  intros Hinv Hcur Hal Hq Hqu Hqf st'.
  assert (mm_inv st') as Hinv'.
  { destruct Hinv. constructor; simpl; try done; try lia; (eapply within_bounds_mono; [..|done]; lia). }
  pose proof Hinv as Hinv0. destruct Hinv0 as [].
  assert (Forall (within_bounds 0 cur) (m_used_ranges (cache st))) as Hu.
  { eapply within_bounds_mono; [..|done]; lia. }
  wp_step; [|wp_step; split_and!; try done; congruence].
  wp_step.
  { exfalso. eapply (collides_false 0 cur) in Hqu; [congruence|lia..|done|done]. }
  apply wp_on_cache. unfold wp.
  destruct (insert_used_run 0 cur ltac:(lia) ltac:(lia) (addr q) (size q) (cache st')) as [->| ->];
    [done|by destruct q| |].
  - destruct (push_used_spec 0 cur (m_used_ranges (cache st)) q) as (_&_&Hc&_); try done.
    split_and!; try done; destruct q; [|intros _; apply Hc].
    by apply (mm_inv_use st).
  - split_and!; [by eexists _, _|by destruct st'|done|done].
Qed.

Lemma set_current_same st : mkMM (set_current (cache st) (m_mm (cache st))) (m_heap_address st) = st.
Proof. by destruct st as [[] ?]. Qed.

Lemma find_wp sz st (Q : Range -> mm_state -> Prop) X :
  match find_first sz (m_free_ranges (cache st)) with
  | Some (r, l) => Q r (mkMM (set_free (cache st) l) (m_heap_address st))
  | None => Q (mkRange 0 0) st
  end -> wp (on_cache (find sz)) Q X st.
Proof.
  intros H. apply wp_on_cache. unfold find. wp_steps.
  - destruct p. wp_steps. done.
  - wp_steps. by destruct st.
Qed.

(** What a caller of [mmap_allocate] gets: [q] is the range handed out. *)
Definition allocated (st : mm_state) (q : Range) (st' : mm_state) : Prop :=
  mm_inv st' /\ addr q mod PageSize = 0 /\
  within_bounds 0 (m_mm (cache st')) q /\
  Forall (apart q) (m_used_ranges (cache st)) /\
  Forall (apart q) (m_free_ranges (cache st')) /\
  m_mm (cache st) <= m_mm (cache st') /\
  (forall x, in_range x q -> covers (m_free_ranges (cache st)) x \/ m_mm (cache st) <= x) /\
  (forall x, covers (m_free_ranges (cache st')) x -> covers (m_free_ranges (cache st)) x) /\
  (m_track_used_ranges (cache st) = true -> forall x,
     covers (m_used_ranges (cache st')) x <-> in_range x q \/ covers (m_used_ranges (cache st)) x).

(** What is left of [mmap_allocate] when it throws. *)
Definition allocate_failed (st : mm_state) (e : exn) (st' : mm_state) : Prop :=
  too_many_used e /\ mm_inv st' /\ m_mm (cache st) <= m_mm (cache st') /\
  (forall x, covers (m_free_ranges (cache st')) x -> covers (m_free_ranges (cache st)) x).

Lemma bump_spec st len : mm_inv st -> 0 < len -> len mod PageSize = 0 ->
  m_mm (cache st) + len < W64 ->
  wp (let! result := current in
      assign_current (result ⊕ len) ;;;
      let! st := get in
      (if m_track_used_ranges (cache st) then
         if collides (m_used_ranges (cache st)) (mkRange result len) then
           throw (MemoryException "MMapCache: Collision detected after incrementing current" result len false)
         else on_cache (insert_used result len)
       else ret tt) ;;;
      ret result)
    (fun a st' => a = m_mm (cache st) /\ allocated st (mkRange a len) st')
    (allocate_failed st) st.
Proof.
  intros Hinv Hlen Hal Hw. pose proof Hinv as Hinv0. destruct Hinv0 as [].
  set (q := mkRange (m_mm (cache st)) len).
  assert (Forall (apart q) (m_used_ranges (cache st))) as Hu.
  { eapply Forall_impl; [exact inv_used0|]. intros r. unfold within_bounds, apart. simpl. lia. }
  assert (Forall (apart q) (m_free_ranges (cache st))) as Hf.
  { eapply Forall_impl; [exact inv_free0|]. intros r. unfold within_bounds, apart. simpl. lia. }
  unfold current, assign_current. wp_pures. apply wp_on_cache. wp_pures. simpl.
  rewrite add64_small by (unfold u64; lia).
  eapply wp_mono.
  - apply (record_used_spec st q _ (m_mm (cache st) + len)); try done; try lia.
    + unfold PageSize in *. by rewrite Z.add_mod, inv_cur_aligned0, Hal.
    + unfold within_bounds. simpl. lia.
  - intros [] st' (?&Hm&Hfr&Hc). wp_steps. split; [done|]. unfold allocated.
    rewrite Hm, Hfr. split_and!; try done; unfold within_bounds, in_range; simpl; lia.
  - intros e st' (?&?&Hm&Hfr). unfold allocate_failed. rewrite Hm, Hfr. split_and!; done || lia.
Qed.

Lemma mmap_allocate_wp st bytes : mm_inv st -> 0 < bytes ->
  m_mm (cache st) + bytes + PageSize <= W64 ->
  wp (mmap_allocate bytes false)
    (fun a st' => bytes <= round_up bytes PageMask /\
       allocated st (mkRange a (round_up bytes PageMask)) st')
    (allocate_failed st) st.
Proof.
  intros Hinv Hb Hw. pose proof Hinv as Hinv0. destruct Hinv0 as [].
  destruct (round_up_page bytes) as [Hlen Hal]; [unfold PageSize in *; lia..|].
  unfold mmap_allocate. set (len := round_up bytes PageMask) in *.
  wp_step. apply find_wp.
  destruct (find_first len (m_free_ranges (cache st))) as [[r l]|] eqn:E; wp_step; wp_step.
  - destruct (mm_inv_find st len r l) as (Hinv'&Hsz&Hra&Hrb&Hrf&Hru); [done|lia|done..|].
    assert (range_empty r = false) as -> by (unfold range_empty; lia). simpl.
    unfold within_bounds in Hrb. unfold mmap_start. simpl.
    replace (addr r <? m_heap_address st) with false by lia.
    rewrite add64_small by (unfold u64; lia).
    replace (m_mm (cache st) <? addr r + size r) with false by lia.
    wp_step. eapply wp_mono.
    + set (st1 := mkMM (set_free (cache st) l) (m_heap_address st)) in *.
      rewrite <- (set_current_same st1).
      apply (record_used_spec st1 r); try done; simpl; try lia.
      unfold within_bounds. lia.
    + intros [] st' (?&Hm&Hfr&Hc). wp_pures. split; [lia|]. unfold allocated.
      replace (mkRange (addr r) len) with r by (destruct r; simpl in *; congruence).
      rewrite Hm, Hfr. split_and!; try done; [unfold within_bounds; simpl; lia|..];
        intros x Hx; [left|]; eapply (find_first_covers (m_heap_address st) (m_mm (cache st)));
        try exact E; try done; try lia; tauto.
    + intros e st' (?&?&Hm&Hfr). unfold allocate_failed. rewrite Hm, Hfr. split_and!; try done.
      intros x Hx. eapply (find_first_covers (m_heap_address st) (m_mm (cache st)));
        try exact E; try done; try lia; tauto.
  - simpl. wp_pures. unfold current at 1. wp_pures. apply wp_bind_inv.
    eapply wp_mono; [apply bump_spec; try done; unfold PageSize in *; lia| |done].
    intros a st' [_ ?]. split; [lia|done].
Qed.

(** The same with the lower bound. *)
Lemma same_heap_bump len st :
  wp (let! result := current in
      assign_current (result ⊕ len) ;;;
      let! st := get in
      (if m_track_used_ranges (cache st) then
         if collides (m_used_ranges (cache st)) (mkRange result len) then
           throw (MemoryException "MMapCache: Collision detected after incrementing current" result len false)
         else on_cache (insert_used result len)
       else ret tt) ;;;
      ret result) (fun _ st' => m_heap_address st' = m_heap_address st) (fun _ _ => True) st.
Proof. unfold current, assign_current. repeat (wp_steps; try apply wp_on_cache; unfold insert_used); done. Qed.

Lemma same_heap_allocate bytes huge st :
  wp (mmap_allocate bytes huge) (fun _ st' => m_heap_address st' = m_heap_address st) (fun _ _ => True) st.
Proof.
  unfold mmap_allocate, current, assign_current. wp_step. apply find_wp.
  destruct (find_first _ _) as [[]|]; repeat (wp_steps; try apply wp_on_cache; unfold insert_used); done.
Qed.

Lemma mmap_allocate_low st bytes : mm_inv st -> 0 < bytes -> m_mm (cache st) + (bytes + PageSize) <= W64 ->
  wp (mmap_allocate bytes false)
    (fun a st' => bytes <= round_up bytes PageMask /\ allocated st (mkRange a (round_up bytes PageMask)) st' /\
       m_heap_address st' = m_heap_address st /\ (m_heap_address st <= m_mm (cache st) -> m_heap_address st <= a))
    (allocate_failed st) st.
Proof.
  intros Hinv Hb Hr. assert (m_mm (cache st) + bytes + PageSize <= W64) as Hr' by lia.
  eapply wp_mono; [exact (wp_both _ _ _ _ _ _ (mmap_allocate_wp st bytes Hinv Hb Hr') (same_heap_allocate bytes false st))| |by intros e st' [? _]].
  intros a st' [[Hlen Ha] Hh]. split_and!; try done. intros Hst.
  pose proof Ha as (_&_&Hw&_&_&_&Hin&_). destruct (Hin a) as [Hc|]; [unfold in_range; simpl; unfold within_bounds in Hw; simpl in Hw; lia| |lia].
  destruct Hinv. unfold covers in Hc. apply Exists_exists in Hc as (r&Hr1&Hx).
  rewrite Forall_forall in inv_free0. specialize (inv_free0 r Hr1). unfold within_bounds, in_range in *. lia.
Qed.

Lemma wp_remove lo hi get_l set_l a sz c (Q : unit -> MMapCache -> Prop) X :
  0 <= lo -> hi < W64 ->
  Forall (within_bounds lo hi) (get_l c) -> within_bounds lo hi (mkRange a sz) ->
  Q tt (set_l c (remove_loop a sz (get_l c))) -> wp (remove get_l set_l a sz) Q X c.
Proof. intros ?????. unfold wp. by rewrite (remove_run lo hi). Qed.

(** Lowering the bump pointer to the start of the last range. *)
Lemma mm_inv_relax st a sz : mm_inv st -> within_bounds (m_heap_address st) (m_mm (cache st)) (mkRange a sz) ->
  a mod PageSize = 0 -> a + sz = m_mm (cache st) ->
  mm_inv (mkMM (set_used (set_current (set_free (cache st)
      (remove_loop a sz (m_free_ranges (cache st)))) a)
      (remove_loop a sz (m_used_ranges (cache st)))) (m_heap_address st)).
Proof.
  intros [] Hq Ha Heq. unfold within_bounds in Hq; simpl in Hq.
  assert (forall lo l, 0 <= lo <= a -> Forall (within_bounds lo (m_mm (cache st))) l ->
    Forall (within_bounds lo a) (remove_loop a sz l)) as Hlow.
  { intros lo l Hlo Hl.
    destruct (remove_loop_wf lo (m_mm (cache st)) ltac:(lia) ltac:(lia) a sz l) as [Hw Hap];
      [done|unfold within_bounds; simpl; lia|].
    rewrite Forall_forall in *. intros r Hr. specialize (Hw r Hr). specialize (Hap r Hr).
    unfold within_bounds, apart in *. simpl in *. lia. }
  assert (forall lo, lo <= a -> within_bounds lo (m_mm (cache st)) (mkRange a sz))
    by (intros; unfold within_bounds; simpl; lia).
  constructor; simpl; try done; try lia.
  - apply Hlow; [lia|done].
  - apply (remove_loop_aligned (m_heap_address st) (m_mm (cache st))); [lia|lia|done|apply H; lia|by rewrite Heq|done].
  - apply (remove_loop_pairwise (m_heap_address st) (m_mm (cache st))); [lia|lia|done|apply H; lia|done].
  - apply Hlow; [lia|done].
  - apply (remove_loop_pairwise 0 (m_mm (cache st))); [lia|lia|done|apply H; lia|done].
  - apply Forall_apart_flip, Forall_forall. intros f Hf.
    apply (remove_loop_apart_other 0 (m_mm (cache st))); [lia|lia|done|apply H; lia|].
    apply Forall_forall. intros u Hu. apply apart_sym. revert f Hf. apply Forall_forall.
    apply (remove_loop_apart_other (m_heap_address st) (m_mm (cache st))); [lia|lia|done|apply H; lia|].
    rewrite Forall_forall in inv_sep0. by apply inv_sep0.
Qed.

(** Replacing the free list by one that also has [q], and dropping [q] from the used list. *)
Lemma mm_inv_unuse st a sz l : mm_inv st ->
  within_bounds (m_heap_address st) (m_mm (cache st)) (mkRange a sz) ->
  Forall (within_bounds (m_heap_address st) (m_mm (cache st))) l -> pairwise_apart l ->
  (forall p, 0 < size p -> apart p (mkRange a sz) -> Forall (apart p) (m_free_ranges (cache st)) -> Forall (apart p) l) ->
  Forall (fun r => addr r mod PageSize = 0) l ->
  mm_inv (mkMM (set_used (set_free (cache st) l) (remove_loop a sz (m_used_ranges (cache st))))
    (m_heap_address st)).
Proof.
  intros [] Hq Hl Hp Hap Hal.
  assert (within_bounds 0 (m_mm (cache st)) (mkRange a sz)) as Hq0
    by (unfold within_bounds in *; simpl in *; lia).
  destruct (remove_loop_wf 0 (m_mm (cache st)) ltac:(lia) ltac:(lia) a sz (m_used_ranges (cache st))) as [Huw Hua]; [done..|].
  constructor; simpl; try done.
  - by apply (remove_loop_pairwise 0 (m_mm (cache st))); [lia|lia|..].
  - apply Forall_forall. intros u Hu. rewrite Forall_forall in Huw, Hua.
    apply Hap; [specialize (Huw u Hu); unfold within_bounds in Huw; lia|by apply apart_sym, Hua|].
    apply Forall_forall. intros f Hf. apply apart_sym. revert u Hu. apply Forall_forall.
    apply (remove_loop_apart_other 0 (m_mm (cache st))); [lia|lia|done|done|].
    rewrite Forall_apart_flip in inv_sep0. rewrite Forall_forall in inv_sep0. by apply inv_sep0.
Qed.

(** What the loop of [remove] loses besides [q]: of a range that starts at or below [q] and ends
    above it, the part above [q]. *)
Definition forgotten (l : list Range) (q : Range) (x : Z) : Prop :=
  Exists (fun r => addr r <= addr q /\ in_range x r /\ addr q + size q <= x) l.

Lemma remove_loop_exact lo hi a sz l x : 0 <= lo -> hi < W64 ->
  Forall (within_bounds lo hi) l -> within_bounds lo hi (mkRange a sz) -> pairwise_apart l ->
  covers (remove_loop a sz l) x <-> covers l x /\ ~ in_range x (mkRange a sz) /\ ~ forgotten l (mkRange a sz) x.
Proof.
  intros Hlo Hhi Hl Hq Hap. split.
  - intros Hc. pose proof Hc as Hc'. apply (remove_loop_covers lo hi) in Hc' as [??]; try done.
    split_and!; [done..|]. intros Hf. rewrite (remove_loop_trim lo hi) in Hc by done. revert Hc Hf. clear H H0.
    unfold covers, forgotten. induction Hl as [|r l Hr Hl IH]; cbn [omap list_omap]; intros Hc Hf; [by inversion Hf|].
    destruct Hap as [Hrl Hpl]. rewrite Forall_forall in Hrl, Hl.
    assert (forall y, in_range x y -> Exists (in_range x) l -> apart r y -> in_range x r -> False) as Hno
      by (unfold in_range, apart; intros; lia).
    apply Exists_cons in Hf as [(Hf1&Hf2&Hf3)|Hf].
    + assert (~ Exists (in_range x) (omap (trim a sz) l)) as Hn.
      { rewrite Exists_exists. intros (y&Hy&Hxy). apply list_elem_of_omap in Hy as (z&Hz&E).
        eapply (trim_Some lo hi) in E as (_&E1&E2&_); [|by apply Hl|done].
        specialize (Hrl z Hz). unfold in_range, apart in *. lia. }
      destruct (trim a sz r) as [r'|] eqn:E; [|done]. apply Exists_cons in Hc as [Hc|Hc]; [|done].
      unfold trim in E. unfold in_range in *. unfold within_bounds in *. cbn in *. repeat case_match; simplify_eq; cbn in *; lia.
    + assert (Exists (in_range x) (omap (trim a sz) l)) as Hc'; [|by apply IH].
      destruct (trim a sz r) as [r'|] eqn:E; [|done]. apply Exists_cons in Hc as [Hc|Hc]; [|done]. exfalso.
      eapply (trim_Some lo hi) in E as (_&E1&E2&_); [|done|done].
      apply Exists_exists in Hf as (y&Hy&_&Hxy&_). specialize (Hrl y Hy). unfold in_range, apart in *. lia.
  - intros (Hc&Hn&Hf). apply (remove_loop_covers_keeps lo hi); try done. apply Forall_Exists_neg. exact Hf.
Qed.

(** What a caller of [mmap_unmap] gets: [q] is what it unmapped. *)
Definition unmapped (st : mm_state) (q : Range) (relaxed : bool) (st' : mm_state) : Prop :=
  mm_inv st' /\
  relaxed = (addr q + size q =? m_mm (cache st)) /\
  m_mm (cache st') = (if relaxed then addr q else m_mm (cache st)) /\
  (forall x, covers (m_used_ranges (cache st')) x <->
     covers (m_used_ranges (cache st)) x /\ ~ in_range x q /\ ~ forgotten (m_used_ranges (cache st)) q x) /\
  (forall x, covers (m_free_ranges (cache st')) x ->
     in_range x q \/ covers (m_free_ranges (cache st)) x) /\
  (relaxed = false -> forall x, in_range x q \/ covers (m_free_ranges (cache st)) x ->
     covers (m_free_ranges (cache st')) x) /\
  (relaxed = true -> forall x, covers (m_free_ranges (cache st')) x <->
     covers (m_free_ranges (cache st)) x /\ ~ in_range x q).

Definition free_error (e : exn) : Prop := exists a sz, insert_free_error a sz e.

Lemma mmap_unmap_wp st a sz : mm_inv st -> m_track_used_ranges (cache st) = true ->
  within_bounds (mmap_start st) (m_mm (cache st)) (mkRange a sz) -> a mod PageSize = 0 ->
  wp (mmap_unmap a sz)
    (unmapped st (mkRange a sz))
    (fun e st' => free_error e /\ st' = st) st.
Proof.
  intros Hinv Ht Hq Ha. pose proof Hinv as Hinv0. destruct Hinv0 as [].
  destruct st as [c h]. unfold mmap_start in *. simpl in *.
  assert (0 <= a /\ 0 < sz /\ a + sz <= m_mm c) as Hb by (unfold within_bounds in Hq; simpl in Hq; lia).
  assert (within_bounds 0 (m_mm c) (mkRange a sz)) as Hq0 by (unfold within_bounds; simpl; lia).
  unfold mmap_unmap. wp_pures. rewrite add64_small by (unfold u64; simpl; lia). cbn [cache m_heap_address].
  destruct (Z.eqb_spec (a + sz) (m_mm c)) as [Heq|Hne].
  - replace (a <? m_mm c) with true by lia. simpl. wp_pures. apply wp_on_cache, (wp_remove h (m_mm c)); try done; try lia.
    wp_pures. unfold assign_current. apply wp_on_cache. wp_pures. rewrite Ht.
    apply wp_on_cache, (wp_remove 0 (m_mm c)); try done; try lia. wp_pures.
    rewrite round_up_aligned by (unfold PageSize in *; done || (simpl in *; dlia)).
    split_and!; try done; simpl; [| |intros x; apply (remove_loop_exact 0 (m_mm c)); done || lia|..].
    + by apply (mm_inv_relax (mkMM c h)).
    + lia.
    + intros x Hx. right. by apply (remove_loop_covers h (m_mm c)) in Hx as [? _]; [|lia|lia|..].
    + intros _ x. rewrite (remove_loop_exact h (m_mm c)) by (done || lia). split; [tauto|]. intros [Hc Hn].
      split_and!; [done..|]. unfold forgotten. rewrite Exists_exists. intros (r&Hr&_&Hx&Hge).
      rewrite Forall_forall in inv_free0. specialize (inv_free0 r Hr). unfold within_bounds, in_range in *. simpl in *. lia.
  - simpl. unfold mmap_start. simpl. replace (h <=? a) with true by (unfold within_bounds in Hq; simpl in Hq; lia).
    wp_pures. apply wp_on_cache. unfold wp at 1. simpl.
    edestruct (insert_free_run h (m_mm c)) as [(l&->&Hw&Hp&Hc&Hap&Hal)|(e&->&He)]; try done; try lia.
    + wp_pures. simpl. rewrite Ht. apply wp_on_cache, (wp_remove 0 (m_mm c)); try done; try lia. wp_pures.
      split_and!; try done; simpl; [| |intros x; apply (remove_loop_exact 0 (m_mm c)); done || lia|..].
      * apply (mm_inv_unuse (mkMM c h)); try done. by apply Hal.
      * lia.
      * intros x. apply Hc.
      * intros _ x. apply Hc.
    + split; [by exists a, sz|done].
Qed.

(** Dropping a range from the free list. *)
Lemma mm_inv_remove_free st a sz : mm_inv st ->
  within_bounds (m_heap_address st) (m_mm (cache st)) (mkRange a sz) -> (a + sz) mod PageSize = 0 ->
  mm_inv (mkMM (set_free (cache st) (remove_loop a sz (m_free_ranges (cache st)))) (m_heap_address st)) /\
  Forall (apart (mkRange a sz)) (remove_loop a sz (m_free_ranges (cache st))).
Proof.
  intros [] Hq Hal. set (h := m_heap_address st) in *. set (cur := m_mm (cache st)) in *.
  destruct (remove_loop_wf h cur ltac:(lia) ltac:(lia) a sz (m_free_ranges (cache st))) as [Hw Ha]; [done..|].
  split; [|done]. constructor; simpl; try done.
  - by apply (remove_loop_aligned h cur); [lia|lia|..].
  - by apply (remove_loop_pairwise h cur); [lia|lia|..].
  - eapply Forall_impl; [exact inv_sep0|]. simpl. intros u Hu.
    by apply (remove_loop_apart_other h cur); [lia|lia|..].
Qed.

(** A fixed mapping of a page-aligned range inside the mmap area returns the requested
    address, keeps the invariant, takes the whole range off the free list and does not move
    the bump pointer; every address that was in use stays in use. *)
Theorem mmap_fixed_allocate_ok st a bytes : mm_inv st -> m_track_used_ranges (cache st) = true ->
  mmap_start st <= a -> a mod PageSize = 0 -> 0 < bytes -> a + bytes <= m_mm (cache st) ->
  wp (mmap_fixed_allocate a bytes true)
    (fun r st' => r = a /\ mm_inv st' /\ m_mm (cache st') = m_mm (cache st) /\
       (forall x, a <= x < a + bytes -> ~ covers (m_free_ranges (cache st')) x) /\
       (forall x, covers (m_used_ranges (cache st)) x -> covers (m_used_ranges (cache st')) x))
    (fun e st' => too_many_used e /\ mm_inv st') st.
Proof.
  intros Hinv Ht Hs Ha Hb He. pose proof Hinv as Hinv0. destruct Hinv0 as [].
  unfold mmap_start in Hs. unfold mmap_fixed_allocate. wp_pures.
  unfold mmap_start. replace (a <? m_heap_address st) with false by lia.
  rewrite (add64_small a bytes) by (unfold u64; lia).
  replace (m_mm (cache st) <? a + bytes) with false by lia. simpl.
  destruct (round_up_page bytes) as [Hlen Hlal]; [lia|unfold PageSize in *; dlia|].
  set (len := round_up bytes PageMask) in *.
  assert (a + len <= m_mm (cache st)) as Hle by (unfold PageSize in *; dlia).
  assert ((a + len) mod PageSize = 0) as Hal by (unfold PageSize in *; dlia).
  assert (within_bounds (m_heap_address st) (m_mm (cache st)) (mkRange a len)) as Hq
    by (unfold within_bounds; simpl; lia).
  destruct (mm_inv_remove_free st a len) as [Hinv1 Hfa]; [done..|].
  wp_pures. apply wp_on_cache, (wp_remove (m_heap_address st) (m_mm (cache st))); [lia|lia|done..|].
  set (st1 := mkMM (set_free (cache st) (remove_loop a len (m_free_ranges (cache st)))) (m_heap_address st)) in *.
  assert (forall x, a <= x < a + bytes -> ~ covers (m_free_ranges (cache st1)) x) as Hnf.
  { intros x Hx Hc. apply (remove_loop_covers (m_heap_address st) (m_mm (cache st))) in Hc as [_ Hc]; try done; try lia.
    apply Hc. unfold in_range. simpl. lia. }
  assert (forall st2 : mm_state, m_mm (cache st2) = m_mm (cache st) ->
    m_free_ranges (cache st2) = m_free_ranges (cache st1) -> mm_inv st2 ->
    (forall x, covers (m_used_ranges (cache st)) x -> covers (m_used_ranges (cache st2)) x) ->
    wp (let! cur := current in
        (if cur <? a ⊕ len then
           if a <? cur ⊕ MMAP_COLLISION_TRESHOLD then
             assign_current (a ⊕ len) ;;;
             (let unused_size := a ⊖ cur in
              if 0 <? unused_size then on_cache (insert_free cur unused_size) else ret tt)
           else ret tt
         else ret tt) ;;; ret a)
      (fun r st' => r = a /\ mm_inv st' /\ m_mm (cache st') = m_mm (cache st) /\
         (forall x, a <= x < a + bytes -> ~ covers (m_free_ranges (cache st')) x) /\
         (forall x, covers (m_used_ranges (cache st)) x -> covers (m_used_ranges (cache st')) x))
      (fun e st' => too_many_used e /\ mm_inv st') st2) as Htail.
  { intros st2 Hm Hf Hi Hu. unfold current. wp_pures.
    rewrite (add64_small a len) by (unfold u64; lia). rewrite Hm.
    replace (m_mm (cache st) <? a + len) with false by lia. wp_pures. rewrite Hf. done. }
  wp_pures. simpl. rewrite Ht. destruct (collides (m_used_ranges (cache st)) (mkRange a len)) eqn:Ec.
  { wp_pures. apply wp_bind_inv. by apply Htail. }
  pose proof Ec as Ec'. apply (collides_false 0 (m_mm (cache st))) in Ec'; [|lia|lia|done|unfold within_bounds in *; simpl in *; lia].
  eapply wp_mono.
  - pose proof (record_used_spec st1 (mkRange a len) OutOfRange (m_mm (cache st1))) as H.
    rewrite (set_current_same st1) in H. simpl in H. rewrite Ht, Ec in H. apply H; try done; try lia.
    unfold within_bounds in *; simpl in *; lia.
  - intros [] st2 (?&?&?&Hc). apply Htail; try done.
    intros x Hx. apply Hc; [done|]. by right.
  - by intros e st2 (?&?&_).
Qed.

(** The unit of an allocation, and the address space it may need: with huge pages the bump pointer
    moves over the rounded size before the range is taken. *)
Definition granule (huge : bool) : Z := if huge then 0x200000 else PageSize.
Definition rounded (bytes : Z) (huge : bool) : Z := round_up bytes (if huge then HugeMask else PageMask).
Definition has_room (st : mm_state) (bytes : Z) (huge : bool) : Prop :=
  m_mm (cache st) + (if huge then 2 * bytes + 3 * granule true else bytes + granule false) <= W64.

(** The range that [mmap_allocate] hands out at [a]. *)
Definition handed_out (st : mm_state) (bytes : Z) (huge : bool) (a : Z) (st' : mm_state) : Prop :=
  let q := mkRange a (rounded bytes huge) in
  bytes <= size q < bytes + granule huge /\ size q mod granule huge = 0 /\ a mod granule huge = 0 /\
  mmap_start st' = mmap_start st /\
  (mmap_start st <= mmap_current st -> mmap_start st <= a /\ mmap_start st <= mmap_current st') /\
  allocated st q st'.

Lemma round_up_huge b : 0 <= b -> b + 0x200000 <= W64 ->
  b <= round_up b HugeMask < b + 0x200000 /\ round_up b HugeMask mod 0x200000 = 0.
Proof. intros. apply (round_up_spec b 21); [lia|done|exact H0]. Qed.

Lemma huge_page_aligned x : x mod 0x200000 = 0 -> x mod PageSize = 0.
Proof. unfold PageSize. intros. dlia. Qed.

(** Moving the bump pointer up. *)
Lemma mm_inv_raise st cur : mm_inv st -> m_mm (cache st) <= cur < W64 -> cur mod PageSize = 0 ->
  mm_inv (mkMM (set_current (cache st) cur) (m_heap_address st)).
Proof. intros [] Hc Ha. constructor; simpl; try done; try lia; (eapply within_bounds_mono; [..|done]; lia). Qed.

(** The state after the search, which drops a fitting free range, and after the bump pointer was moved. *)
Lemma allocated_weaken st st1 q st' :
  m_mm (cache st) <= m_mm (cache st1) -> m_used_ranges (cache st1) = m_used_ranges (cache st) ->
  m_track_used_ranges (cache st1) = m_track_used_ranges (cache st) ->
  (forall x, covers (m_free_ranges (cache st1)) x -> covers (m_free_ranges (cache st)) x) ->
  allocated st1 q st' -> allocated st q st'.
Proof.
  intros Hm Hu Ht Hf (Hi&Ha&Hw&Hqu&Hqf&Hmm&Hin&Hfree&Hused). unfold allocated. rewrite <-Hu, <-Ht.
  split_and!; try done; [lia|intros x Hx|auto]. destruct (Hin x Hx); [auto|right; lia].
Qed.

Lemma mmap_allocate_placed st bytes huge : mm_inv st -> 0 < bytes -> has_room st bytes huge ->
  wp (mmap_allocate bytes huge) (handed_out st bytes huge) (allocate_failed st) st.
Proof.
  intros Hinv Hb Hroom. unfold handed_out, mmap_start, mmap_current. destruct huge; unfold has_room, granule, rounded in *.
  2: { pose proof (mmap_allocate_low st bytes Hinv Hb Hroom) as Hlow. eapply wp_mono; [exact Hlow| |done].
       intros a st' (Hlen&Ha&Hh&Hs). destruct (round_up_page bytes) as [Hr Hr']; [unfold PageSize in *; destruct Hinv; lia..|].
       split_and!; try done; try (simpl; lia); [apply Ha|]. intros Hst. split; [by apply Hs|]. destruct Ha as (_&_&_&_&_&Hmm&_). lia. }
  pose proof Hinv as Hinv0. destruct Hinv0 as []. destruct (round_up_huge bytes) as [Hlen Hal]; [lia..|].
  pose proof (huge_page_aligned _ Hal) as Hpal.
  unfold mmap_allocate. set (len := round_up bytes HugeMask) in *. wp_step. apply find_wp.
  set (Q := fun st1 : mm_state => mm_inv st1 /\ m_heap_address st1 = m_heap_address st /\ m_mm (cache st1) = m_mm (cache st) /\
     m_used_ranges (cache st1) = m_used_ranges (cache st) /\ m_track_used_ranges (cache st1) = m_track_used_ranges (cache st) /\
     (forall x, covers (m_free_ranges (cache st1)) x -> covers (m_free_ranges (cache st)) x)).
  assert (forall st1, Q st1 -> wp (let! cur := current in
      assign_current (round_up (cur ⊕ len) HugeMask) ;;;
      let! result := current in
      assign_current (result ⊕ len) ;;;
      let! st := get in
      (if m_track_used_ranges (cache st) then
         if collides (m_used_ranges (cache st)) (mkRange result len) then
           throw (MemoryException "MMapCache: Collision detected after incrementing current" result len false)
         else on_cache (insert_used result len)
       else ret tt) ;;;
      ret result) (handed_out st bytes true) (allocate_failed st) st1) as Hbump.
  { intros st1 (Hi1&Hh1&Hm1&Hu1&Ht1&Hf1). unfold current at 1. wp_step. wp_step. wp_step. unfold assign_current at 1. apply wp_on_cache. wp_step.
    rewrite Hm1, add64_small by (unfold u64; lia).
    destruct (round_up_huge (m_mm (cache st) + len)) as [Hcur Hcal]; [lia..|].
    set (cur := round_up (m_mm (cache st) + len) HugeMask) in *. set (st2 := mkMM (set_current (cache st1) cur) (m_heap_address st1)).
    assert (mm_inv st2) as Hi2 by (apply mm_inv_raise; [done|lia|by apply huge_page_aligned]).
    pose proof (bump_spec st2 len Hi2 ltac:(lia) Hpal ltac:(simpl; lia)) as Hbs.
    pose proof (same_heap_bump len st2) as Hsh. eapply wp_mono; [exact (wp_both _ _ _ _ _ _ Hbs Hsh)| |].
    - intros a st' [[Ha Hal'] Hh]. simpl in Ha, Hh. assert (allocated st (mkRange a len) st') as Hall.
      { eapply allocated_weaken; [| | | |exact Hal']; simpl; [lia|done|done|done]. }
      unfold handed_out, rounded, granule, mmap_start, mmap_current. subst a. split_and!; try done; [simpl; lia|simpl; lia|congruence|].
      intros Hst. destruct Hall as (_&_&_&_&_&Hmm&_). simpl. lia.
    - intros e st' [(He&Hi'&Hmm&Hfr) _]. simpl in Hmm. split_and!; [done|done|lia|]. intros x Hx. by apply Hf1, Hfr. }
  destruct (find_first len (m_free_ranges (cache st))) as [[r l]|] eqn:E; wp_step; wp_step.
  - destruct (mm_inv_find st len r l) as (Hinv'&Hsz&Hra&Hrb&Hrf&Hru); [done|lia|done..|].
    rewrite andb_false_r. wp_step. apply wp_bind_inv. apply Hbump. split_and!; try done.
    intros x Hx. eapply (find_first_covers (m_heap_address st) (m_mm (cache st))); try exact E; try done; try lia; tauto.
  - simpl. wp_step. apply wp_bind_inv. by apply Hbump.
Qed.

(** C1: [mmap_allocate], with or without huge pages, on a well-formed allocator with address
    space left, returns an aligned range of the size rounded up, which overlaps nothing that is in
    use or free and ends at or below the bump pointer; it starts at or above [mmap_start] unless
    the bump pointer had been moved below it (see [unmap_lowers_below_start]).  The range is
    recorded as used, the invariant holds afterwards, and the only possible exception is the limit
    on tracked ranges, after which the invariant still holds and nothing has become free. *)
Theorem mmap_allocate_ok st bytes huge : mm_inv st -> 0 < bytes -> has_room st bytes huge ->
  wp (mmap_allocate bytes huge) (handed_out st bytes huge) (allocate_failed st) st.
Proof. apply mmap_allocate_placed. Qed.

(** C2: [mmap_unmap] of a page-aligned range inside the mmap area, with used ranges tracked, keeps
    the invariant and returns true exactly when the range ends at the bump pointer, which then
    moves down to the start of the range.  The used list afterwards holds exactly what it held
    outside of the range, except that of a used range that starts at or below it and ends above
    it the part above is forgotten, too (see [remove_forgets_tail]).  The free list grows by exactly
    the range, or when the bump pointer moved is cut by exactly the range.  An exception (overlap
    with a free range, or too many free ranges) leaves the state as it was. *)
Theorem mmap_unmap_ok st a sz : mm_inv st -> m_track_used_ranges (cache st) = true ->
  within_bounds (mmap_start st) (m_mm (cache st)) (mkRange a sz) -> a mod PageSize = 0 ->
  wp (mmap_unmap a sz)
    (unmapped st (mkRange a sz))
    (fun e st' => free_error e /\ st' = st) st.
Proof. apply mmap_unmap_wp. Qed.

(** ** A client of the allocator

    [live] is the list of ranges the client got from [mmap_allocate] and has not unmapped. *)
Definition same_config (st st' : mm_state) : Prop :=
  m_heap_address st' = m_heap_address st /\
  m_track_used_ranges (cache st') = m_track_used_ranges (cache st).

Lemma same_config_allocate st bytes huge :
  wp (mmap_allocate bytes huge) (fun _ => same_config st) (fun _ => same_config st) st.
Proof.
  unfold mmap_allocate, current, assign_current. wp_step. apply find_wp.
  destruct (find_first _ _) as [[]|];
    repeat (wp_steps; try apply wp_on_cache; unfold insert_used); done.
Qed.

Lemma same_config_unmap st a sz :
  wp (mmap_unmap a sz) (fun _ => same_config st) (fun _ => same_config st) st.
Proof.
  unfold mmap_unmap, assign_current.
  repeat (wp_steps; try apply wp_on_cache; unfold remove_free, remove_used, remove, insert_free); done.
Qed.

Inductive client_step : mm_state * list Range -> mm_state * list Range -> Prop :=
| step_allocate st live bytes a st' :
    0 < bytes -> m_mm (cache st) + bytes + PageSize <= W64 ->
    mmap_allocate bytes false st = (Ok a, st') ->
    client_step (st, live) (st', mkRange a (round_up bytes PageMask) :: live)
| step_allocate_throw st live bytes e st' :
    0 < bytes -> m_mm (cache st) + bytes + PageSize <= W64 ->
    mmap_allocate bytes false st = (Err e, st') ->
    client_step (st, live) (st', live)
| step_unmap st live1 q live2 relaxed st' :
    mmap_unmap (addr q) (size q) st = (Ok relaxed, st') ->
    client_step (st, live1 ++ q :: live2) (st', live1 ++ live2).

Definition fresh_maps (heap : Z) : mm_state := mkMM (set_current empty_cache heap) heap.

Record client_inv (p : mm_state * list Range) : Prop := {
  ci_inv : mm_inv p.1;
  ci_start : m_heap_address p.1 <= m_mm (cache p.1);
  ci_track : m_track_used_ranges (cache p.1) = true;
  ci_live : Forall (within_bounds (m_heap_address p.1) (m_mm (cache p.1))) p.2;
  ci_aligned : Forall (fun q => addr q mod PageSize = 0) p.2;
  ci_apart : pairwise_apart p.2;
  ci_free : Forall (fun q => forall x, in_range x q -> ~ covers (m_free_ranges (cache p.1)) x) p.2 }.

Lemma client_inv_fresh heap : u64 heap -> heap mod PageSize = 0 -> client_inv (fresh_maps heap, []).
Proof. intros ??. constructor; simpl; try done; constructor; simpl; done || (unfold u64 in *; lia). Qed.

Lemma pairwise_apart_mid l1 q l2 : pairwise_apart (l1 ++ q :: l2) <->
  Forall (apart q) (l1 ++ l2) /\ pairwise_apart (l1 ++ l2).
Proof.
  induction l1 as [|r l1 IH]; simpl; [done|].
  rewrite IH, !Forall_cons, !Forall_app, !Forall_cons, apart_sym. tauto.
Qed.

(** Ranges with no common address are apart. *)
Lemma apart_disjoint r1 r2 : 0 < size r1 -> 0 < size r2 ->
  (forall x, in_range x r1 -> ~ in_range x r2) -> apart r1 r2.
Proof.
  unfold in_range, apart. intros ?? H.
  destruct (decide (addr r1 + size r1 <= addr r2)); [by left|].
  destruct (decide (addr r2 + size r2 <= addr r1)); [by right|].
  exfalso. destruct (H (Z.max (addr r1) (addr r2))); lia.
Qed.

Lemma client_inv_allocate st live q st' : client_inv (st, live) -> same_config st st' ->
  0 < size q -> allocated st q st' -> client_inv (st', q :: live).
Proof.
  intros [] [Hh Ht] Hq (Hi&Ha&Hb&Hu&Hf&Hm&Hx&Hfree&_). simpl in *. 
  assert (m_heap_address st <= addr q) as Hlow.
  { destruct (Hx (addr q)) as [Hc|]; [unfold in_range; lia| |lia].
    destruct ci_inv0. unfold covers in Hc. apply Exists_exists in Hc as (r&Hr&Hin).
    rewrite Forall_forall in inv_free0. specialize (inv_free0 r Hr).
    unfold within_bounds, in_range in *. lia. }
  constructor; simpl; rewrite ?Hh, ?Ht; try done; try lia.
  - constructor; [unfold within_bounds in *; lia|]. eapply within_bounds_mono; [..|exact ci_live0]; lia.
  - by constructor.
  - split; [|done]. rewrite Forall_forall in *. intros r Hr.
    specialize (ci_live0 r Hr). specialize (ci_free0 r Hr).
    apply apart_disjoint; [lia|unfold within_bounds in *; lia|]. intros x Hxq Hxr.
    destruct (Hx x Hxq); [by apply (ci_free0 x)|]. unfold within_bounds, in_range in *. lia.
  - constructor.
    + intros x Hxq Hc. apply Exists_exists in Hc as (f&Hfin&Hxf).
      rewrite Forall_forall in Hf. specialize (Hf f Hfin). unfold apart, in_range in *. lia.
    + eapply Forall_impl; [exact ci_free0|]. simpl. intros r Hr x Hxr Hc. by apply (Hr x), Hfree.
Qed.

Lemma client_inv_unmap st l1 q l2 b st' : client_inv (st, l1 ++ q :: l2) -> same_config st st' ->
  unmapped st q b st' -> client_inv (st', l1 ++ l2).
Proof.
  intros [] [Hh Ht] (Hi&Hb&Hm&_&Hf&_). simpl in *.
  apply pairwise_apart_mid in ci_apart0 as [Hqa Hap].
  rewrite !Forall_app, !Forall_cons in *. destruct ci_live0 as (Hl1&Hq&Hl2).
  destruct ci_aligned0 as (?&?&?), ci_free0 as (Hf1&_&Hf2), Hqa as [Hqa1 Hqa2].
  assert (forall r, apart q r -> within_bounds (m_heap_address st) (m_mm (cache st)) r ->
    within_bounds (m_heap_address st) (m_mm (cache st')) r) as Hlow.
  { intros r. rewrite Hm, Hb. unfold within_bounds, apart. unfold within_bounds in Hq.
    destruct (Z.eqb_spec (addr q + size q) (m_mm (cache st))); lia. }
  assert (forall r, apart q r -> (forall x, in_range x r -> ~ covers (m_free_ranges (cache st)) x) ->
    forall x, in_range x r -> ~ covers (m_free_ranges (cache st')) x) as Hfree.
  { intros r Hr Hx x Hxr Hc. apply Hf in Hc as [Hxq|Hc]; [|by apply (Hx x)].
    unfold apart, in_range in *. lia. }
  constructor; simpl; rewrite ?Hh, ?Ht, ?Forall_app; try done.
  - rewrite Hm. unfold within_bounds in Hq. destruct b; lia.
  - rewrite !Forall_forall in *. split; intros r Hr; auto.
  - rewrite !Forall_forall in *. split; intros r Hr; eauto.
Qed.

(** The calls of the client, whatever their outcome. *)
Lemma client_inv_run_allocate st live bytes r st' : client_inv (st, live) ->
  0 < bytes -> m_mm (cache st) + bytes + PageSize <= W64 -> mmap_allocate bytes false st = (r, st') ->
  match r with Ok a => client_inv (st', mkRange a (round_up bytes PageMask) :: live) | Err _ => client_inv (st', live) end.
Proof.
  intros Hc Hb Hw E. pose proof Hc as []. simpl in *.
  pose proof (wp_run _ _ _ _ _ _ (same_config_allocate st bytes false) E) as Hcfg.
  pose proof (wp_run _ _ _ _ _ _ (mmap_allocate_wp st bytes ci_inv0 Hb Hw) E) as Hrun. destruct r as [a|e].
  - destruct (round_up_page bytes) as [Hlen _]; [destruct ci_inv0; unfold PageSize in *; lia..|].
    eapply client_inv_allocate; [done|exact Hcfg|simpl; lia|apply Hrun].
  - destruct Hrun as (_&Hi&Hm&Hf). destruct Hcfg as [Hh' Ht].
    constructor; simpl; rewrite ?Hh', ?Ht; try done; try lia.
    + eapply within_bounds_mono; [..|exact ci_live0]; lia.
    + eapply Forall_impl; [exact ci_free0|]. simpl. intros r Hr x Hxr Hc'. by apply (Hr x), Hf.
Qed.
Lemma client_inv_run_unmap st l1 q l2 b st' : client_inv (st, l1 ++ q :: l2) ->
  mmap_unmap (addr q) (size q) st = (Ok b, st') -> client_inv (st', l1 ++ l2).
Proof.
  intros Hc E. pose proof Hc as []. simpl in *.
  eapply client_inv_unmap; [done|by apply (wp_run _ _ _ _ _ _ (same_config_unmap st (addr q) (size q)) E)|].
  rewrite Forall_app, Forall_cons in ci_live0, ci_aligned0.
  destruct ci_live0 as (_&Hq&_), ci_aligned0 as (_&Hqa&_).
  replace q with (mkRange (addr q) (size q)) in Hq by by destruct q.
  apply (wp_run _ _ _ _ _ _ (mmap_unmap_wp st _ _ ci_inv0 ci_track0 Hq Hqa) E).
Qed.
(** A client that forgets a range. *)
Lemma client_inv_drop st q live : client_inv (st, q :: live) -> client_inv (st, live).
Proof.
  intros []. simpl in *. rewrite Forall_cons in ci_live0, ci_aligned0, ci_free0. destruct ci_apart0.
  constructor; simpl; done || tauto.
Qed.


(** ** Concrete runs *)

(** A heap at 0x200000, three pages handed out, the middle one given back. *)
Definition maps0 : mm_state := fresh_maps 0x200000.
Definition maps1 : mm_state := snd ((mmap_allocate 0x3000 false ;;; mmap_unmap 0x201000 0x1000) maps0).

Lemma maps1_inv : mm_inv maps1.
Proof.
  assert (maps1 = mkMM (mkCache [mkRange 0x201000 0x1000] [mkRange 0x200000 0x1000]
    0x203000 true 4096) 0x200000) as -> by reflexivity.
  constructor; simpl; rewrite ?Forall_singleton; unfold within_bounds, apart; simpl; done || lia.
Qed.

Lemma mmap_allocate_ok_witness :
  wp (mmap_allocate 0x1000 false) (handed_out maps1 0x1000 false) (allocate_failed maps1) maps1 /\
  wp (mmap_allocate 0x1000 true) (handed_out maps1 0x1000 true) (allocate_failed maps1) maps1.
Proof.
  split; [apply (mmap_allocate_ok maps1 0x1000 false)|apply (mmap_allocate_ok maps1 0x1000 true)];
    [exact maps1_inv|lia|vm_compute; congruence|exact maps1_inv|lia|vm_compute; congruence].
Defined.

Lemma mmap_unmap_ok_witness :
  wp (mmap_unmap 0x200000 0x1000) (unmapped maps1 (mkRange 0x200000 0x1000))
    (fun e st' => free_error e /\ st' = maps1) maps1.
Proof.
  apply (mmap_unmap_ok maps1 0x200000 0x1000);
    [exact maps1_inv|reflexivity|vm_compute; intuition congruence|reflexivity].
Defined.

Lemma mmap_fixed_allocate_ok_witness :
  fst (mmap_fixed_allocate 0x201000 0x800 true maps1) = Ok 0x201000 /\
  wp (mmap_fixed_allocate 0x201000 0x800 true)
    (fun r st' => r = 0x201000 /\ mm_inv st' /\ m_mm (cache st') = m_mm (cache maps1) /\
       (forall x, 0x201000 <= x < 0x201000 + 0x800 -> ~ covers (m_free_ranges (cache st')) x) /\
       (forall x, covers (m_used_ranges (cache maps1)) x -> covers (m_used_ranges (cache st')) x))
    (fun e st' => too_many_used e /\ mm_inv st') maps1.
Proof.
  split; [reflexivity|].
  apply (mmap_fixed_allocate_ok maps1 0x201000 0x800);
    [exact maps1_inv|reflexivity|vm_compute; congruence|reflexivity|lia|vm_compute; congruence].
Defined.


(** *** Behaviours worth knowing *)

(** Removing the low part of a range drops the part that stays mapped, too: the
    used list forgets [0x201000, 0x203000). *)
Example remove_forgets_tail :
  remove_loop 0x200000 0x1000 [mkRange 0x200000 0x3000] = [].
Proof. reflexivity. Qed.

(** A hugepage allocation takes a fitting free range off the free list without using it. *)
Example huge_allocate_leaks :
  let st := snd ((mmap_allocate 0x400000 false ;;; mmap_allocate 0x1000 false ;;; mmap_unmap 0x200000 0x400000) maps0) in
  m_free_ranges (cache st) = [mkRange 0x200000 0x400000] /\
  fst (mmap_allocate 0x200000 true st) = Ok 0xA00000 /\
  m_free_ranges (cache (snd (mmap_allocate 0x200000 true st))) = [mkRange 0x400000 0x200000].
Proof. repeat split; reflexivity. Qed.

(** Unmapping a range that starts below the mmap area and ends at the bump pointer moves
    the bump pointer below [mmap_start]. *)
Example unmap_lowers_below_start :
  let st := snd (mmap_unmap 0x1FF000 0x4000 (snd (mmap_allocate 0x3000 false maps0))) in
  mmap_current st < mmap_start st.
Proof. reflexivity. Qed.

(** A fixed mapping of an unaligned range at the bump pointer inserts a free range of
    almost 2^64 bytes. *)
Example fixed_allocate_wraps :
  let st := snd (mmap_allocate 0x3000 false maps0) in
  let st' := snd (mmap_fixed_allocate 0x202800 0x800 true st) in
  exists r, r ∈ m_free_ranges (cache st') /\ 2 ^ 63 < size r.
Proof. vm_compute. eexists. split; [left|reflexivity]. Qed.

(** Shrinking the last mapping with [mmap_relax] and then unmapping the rest is not a no-op
    on the used list: a zero-sized range can be left behind. *)
Example relax_to_zero_keeps_empty_range :
  let st := snd ((mmap_allocate 0x3000 false ;;; mmap_relax 0x200000 0x3000 0) maps0) in
  m_used_ranges (cache st) = [mkRange 0x200000 0].
Proof. reflexivity. Qed.

End MachineMaps.
