(* ===== verification/Host.v ===== *)
(** * The host: memory words, mappings, and the kernel interface

    TinyKVM works on host pointers.  The host address space is a map of 64-bit
    words ([heap]); the mappings that exist and the KVM memory slots are kept
    beside it.  What [mmap], [madvise] and [KVM_SET_USER_MEMORY_REGION] answer is
    the business of the Linux kernel: they are the fields of [HostOS], and
    [HostLaws] states the documented behaviour the theorems rely on.  The page
    routines are those of lib/tinykvm/page_streaming.cpp. *)
From S2P Require Import Prelude.
From stdpp Require Import base tactics list numbers strings gmap.
From Stdlib Require Import ZArith Lia Bool.
Local Open Scope Z_scope.

(** ** Host words *)

Abbreviation heap := (gmap Z Z).

(** An aligned 64-bit load and store; memory that was never written reads zero. *)
Definition ld64 (h : heap) (p : Z) : Z := default 0 (h !! (p / 8)).
Definition st64 (h : heap) (p v : Z) : heap := <[p / 8 := v]> h.

(** [n] consecutive words. *)
Fixpoint load_words (h : heap) (p : Z) (n : nat) : list Z :=
  match n with
  | O => []
  | S n' => ld64 h p :: load_words h (p + 8) n'
  end.
Fixpoint store_words (h : heap) (p : Z) (l : list Z) : heap :=
  match l with
  | [] => h
  | v :: l' => store_words (st64 h p v) (p + 8) l'
  end.

(** The kernel replaces [len] bytes at [p] by zero pages. *)
Definition zero_region (p len : Z) (h : heap) : heap :=
  filter (fun kv => ~ (p <= 8 * kv.1 < p + len)) h.

(** ** Page routines *)

(** One iteration of [avx2_page_duplicate]: eight 256-bit loads, then eight stores. *)
Definition dup_block (dest source : Z) (h : heap) : heap :=
  store_words h dest (load_words h source 32).

Fixpoint dup_blocks (n : nat) (dest source : Z) (h : heap) : heap :=
  match n with
  | O => h
  | S n' => dup_blocks n' (dest + 256) (source + 256) (dup_block dest source h)
  end.

Definition avx2_page_duplicate (dest source : Z) (h : heap) : heap := dup_blocks 16 dest source h.

Definition page_duplicate (dest source : Z) (h : heap) : heap := avx2_page_duplicate dest source h.

(** [memset(dest, 0, 4096)] *)
Definition page_memzero (dest : Z) (h : heap) : heap := store_words h dest (replicate 512 0).

(** One 256-bit lane of [avx2_page_dupliteit]: all-zero lanes are not written. *)
Definition lane_dupliteit (dest source : Z) (h : heap) : heap :=
  let lane := load_words h source 4 in
  if forallb (fun w => w =? 0) lane then h else store_words h dest lane.

Fixpoint lanes_dupliteit (n : nat) (dest source : Z) (h : heap) : heap :=
  match n with
  | O => h
  | S n' => lanes_dupliteit n' (dest + 32) (source + 32) (lane_dupliteit dest source h)
  end.

Definition avx2_page_dupliteit (dest source : Z) (h : heap) : heap := lanes_dupliteit 128 dest source h.

(** ** The kernel *)

Definition MAP_FAILED : Z := W64 - 1.

Record Slot := mkSlot { guest_phys_addr : Z; memory_size : Z; userspace_addr : Z }.

Record host := mkHost {
  h_heap : heap;
  h_live : list (Z * Z);     (* mappings: start, length *)
  h_slots : gmap Z Slot }.   (* KVM memory slots of the VM *)

Class HostOS := {
  (** [os_mmap live len hugetlb]: where an anonymous private mapping of [len] bytes
      is placed, or [MAP_FAILED]. *)
  os_mmap : list (Z * Z) -> Z -> bool -> Z;
  (** Does [madvise(p, len, MADV_DONTNEED)] succeed? *)
  os_madvise : list (Z * Z) -> Z -> Z -> bool;
  (** Does the ioctl accept the region? *)
  kvm_accepts : gmap Z Slot -> Z -> Slot -> bool }.

Definition ranges_apart (r1 r2 : Z * Z) : Prop := r1.1 + r1.2 <= r2.1 \/ r2.1 + r2.2 <= r1.1.

Class HostLaws (os : HostOS) : Prop := {
  (** A new mapping is page aligned, in user space, and overlaps no other mapping. *)
  mmap_placed live len huge p : 0 < len -> os_mmap live len huge = p -> p <> MAP_FAILED ->
    p mod 4096 = 0 /\ 0 < p /\ p + len <= 2 ^ 47 /\ Forall (ranges_apart (p, len)) live;
  (** KVM rejects a region whose host address is not page aligned. *)
  kvm_aligned slots i s : kvm_accepts slots i s = true -> userspace_addr s mod 4096 = 0 }.

Section host_ops.
Context `{os : HostOS}.

Definition host_mmap (len : Z) (huge : bool) : M host Z :=
  let! s := get in
  let p := os_mmap (h_live s) len huge in
  if p =? MAP_FAILED then ret p
  else put (mkHost (zero_region p len (h_heap s)) ((p, len) :: h_live s) (h_slots s)) ;;; ret p.

Definition host_madvise_dontneed (p len : Z) : M host unit :=
  modify (fun s => if os_madvise (h_live s) p len
                   then mkHost (zero_region p len (h_heap s)) (h_live s) (h_slots s) else s).

(** [munmap] takes a whole mapping away. *)
Definition host_munmap (p len : Z) : M host unit :=
  modify (fun s => mkHost (h_heap s) (filter (fun r => r <> (p, len)) (h_live s)) (h_slots s)).

(** [Machine::install_memory] and [Machine::delete_memory]. *)
Definition install_memory (idx physbase ptr size : Z) : M host unit :=
  let! s := get in
  let memreg := mkSlot physbase size ptr in
  if kvm_accepts (h_slots s) idx memreg
  then put (mkHost (h_heap s) (h_live s) (<[idx := memreg]> (h_slots s)))
  else throw (MemoryException "Failed to install guest memory region" physbase size false).

Definition delete_memory (idx : Z) : M host unit :=
  let! s := get in
  if kvm_accepts (h_slots s) idx (mkSlot 0 0 0)
  then put (mkHost (h_heap s) (h_live s) (base.delete idx (h_slots s)))
  else throw (MachineException "Failed to delete guest memory region" idx).

Definition on_heap (f : heap -> heap) : M host unit :=
  modify (fun s => mkHost (f (h_heap s)) (h_live s) (h_slots s)).
End host_ops.

(** ** Facts about words *)

Section heap_facts.
Implicit Types (h : heap) (p q : Z).

Definition aligned8 p : Prop := p mod 8 = 0.

Lemma ld64_st64_same h p v : ld64 (st64 h p v) p = v.
Proof. unfold ld64, st64. by rewrite lookup_insert_eq. Qed.
Lemma ld64_st64_other h p q v : aligned8 p -> aligned8 q -> p <> q -> ld64 (st64 h p v) q = ld64 h q.
Proof. unfold ld64, st64, aligned8. intros. rewrite lookup_insert_ne; [done|dlia]. Qed.

Lemma length_load_words h p n : length (load_words h p n) = n.
Proof. revert p. induction n; simpl; auto. Qed.

Lemma ld64_store_words h p l q : aligned8 p -> aligned8 q ->
  ld64 (store_words h p l) q =
    if decide (p <= q < p + 8 * Z.of_nat (length l))
    then nth (Z.to_nat ((q - p) / 8)) l 0 else ld64 h q.
Proof.
  revert h p. induction l as [|v l IH]; intros h p Hp Hq.
  - simpl. rewrite decide_False by lia. done.
  - cbn [store_words]. rewrite IH by (unfold aligned8 in *; dlia || done). cbn [length].
    destruct (decide (p = q)) as [->|Hne].
    + rewrite decide_False by lia. rewrite decide_True by lia.
      by rewrite ld64_st64_same, Z.sub_diag.
    + rewrite ld64_st64_other by done. destruct (decide (p + 8 <= q < _)).
      * rewrite decide_True by lia.
        replace (Z.to_nat ((q - p) / 8)) with (S (Z.to_nat ((q - (p + 8)) / 8)))
          by (unfold aligned8 in *; dlia).
        done.
      * rewrite decide_False by (unfold aligned8 in *; dlia). done.
Qed.

Lemma nth_load_words h p n i : (i < n)%nat -> nth i (load_words h p n) 0 = ld64 h (p + 8 * Z.of_nat i).
Proof.
  revert p i. induction n as [|n IH]; intros p [|i] Hi; cbn [load_words nth]; try lia.
  - f_equal. lia.
  - rewrite IH by lia. f_equal. lia.
Qed.

Lemma ld64_zero_region p len h q : aligned8 q ->
  ld64 (zero_region p len h) q = if decide (p <= q < p + len) then 0 else ld64 h q.
Proof.
  intros Hq. unfold ld64, zero_region. assert (8 * (q / 8) = q) as E by (unfold aligned8 in *; dlia).
  rewrite map_lookup_filter.
  destruct (h !! (q / 8)) as [v|]; simpl; [|by destruct (decide _)].
  destruct (decide (p <= q < p + len)).
  - rewrite option_guard_False; [done|]. simpl. rewrite E. tauto.
  - rewrite option_guard_True; [done|]. simpl. by rewrite E.
Qed.

(** [load_words] of [n] words, block by block. *)
Lemma ld64_dup_block dest source h q : aligned8 dest -> aligned8 source -> aligned8 q ->
  ld64 (dup_block dest source h) q =
    if decide (dest <= q < dest + 256) then ld64 h (source + (q - dest)) else ld64 h q.
Proof.
  intros Hd Hs Hq. unfold dup_block. rewrite ld64_store_words by done.
  rewrite length_load_words. change (8 * Z.of_nat 32) with 256.
  destruct (decide _); [|done]. rewrite nth_load_words by (unfold aligned8 in *; dlia).
  f_equal. unfold aligned8 in *. dlia.
Qed.

Lemma ld64_dup_blocks n dest source h q : aligned8 dest -> aligned8 source -> aligned8 q ->
  (dest + 256 * Z.of_nat n <= source \/ source + 256 * Z.of_nat n <= dest \/ source = dest) ->
  ld64 (dup_blocks n dest source h) q =
    if decide (dest <= q < dest + 256 * Z.of_nat n) then ld64 h (source + (q - dest)) else ld64 h q.
Proof.
  revert dest source h. induction n as [|n IH]; intros dest source h Hd Hs Hq Hap.
  - simpl. rewrite decide_False by lia. done.
  - cbn [dup_blocks]. rewrite IH by (unfold aligned8 in *; dlia || lia || done).
    destruct (decide (dest + 256 <= q < _)).
    + rewrite decide_True by lia. rewrite ld64_dup_block by (unfold aligned8 in *; dlia || done).
      destruct (decide _); f_equal; lia.
    + rewrite ld64_dup_block by done. destruct (decide (dest <= q < dest + 256)).
      * by rewrite decide_True by lia.
      * by rewrite decide_False by lia.
Qed.

(** After [page_duplicate] every word of the destination page is the source's. *)
Lemma ld64_page_duplicate dest source h q : aligned8 dest -> aligned8 source -> aligned8 q ->
  (dest + 4096 <= source \/ source + 4096 <= dest \/ source = dest) ->
  ld64 (page_duplicate dest source h) q =
    if decide (dest <= q < dest + 4096) then ld64 h (source + (q - dest)) else ld64 h q.
Proof. intros. apply (ld64_dup_blocks 16); done. Qed.

Lemma ld64_dup_blocks_other n dest source h q : aligned8 dest -> aligned8 q ->
  ~ (dest <= q < dest + 256 * Z.of_nat n) -> ld64 (dup_blocks n dest source h) q = ld64 h q.
Proof.
  revert dest source h. induction n as [|n IH]; intros dest source h Hd Hq Hn; [done|].
  cbn [dup_blocks]. rewrite IH by (unfold aligned8 in *; dlia || lia || done).
  unfold dup_block. rewrite ld64_store_words, length_load_words by done. by rewrite decide_False by lia.
Qed.

(** Whatever the source, no word outside the destination page changes. *)
Lemma ld64_page_duplicate_other dest source h q : aligned8 dest -> aligned8 q ->
  ~ (dest <= q < dest + 4096) -> ld64 (page_duplicate dest source h) q = ld64 h q.
Proof. intros. by apply (ld64_dup_blocks_other 16). Qed.

Lemma ld64_page_memzero dest h q : aligned8 dest -> aligned8 q ->
  ld64 (page_memzero dest h) q = if decide (dest <= q < dest + 4096) then 0 else ld64 h q.
Proof.
  intros. unfold page_memzero. rewrite ld64_store_words by done. rewrite length_replicate.
  change (8 * Z.of_nat 512) with 4096. destruct (decide _); [|done].
  destruct (nth_in_or_default (Z.to_nat ((q - dest) / 8)) (replicate 512 0) 0) as [Hin|]; [|done].
  by apply list_elem_of_In, elem_of_replicate in Hin as [-> _].
Qed.

(** *** The zero-skipping copy *)
Lemma ld64_lane_dupliteit dest source h q : aligned8 dest -> aligned8 source -> aligned8 q ->
  (forall x, aligned8 x -> dest <= x < dest + 32 -> ld64 h x = 0) ->
  ld64 (lane_dupliteit dest source h) q =
    if decide (dest <= q < dest + 32) then ld64 h (source + (q - dest)) else ld64 h q.
Proof.
  intros Hd Hs Hq Hz. unfold lane_dupliteit.
  destruct (forallb _ _) eqn:E.
  - destruct (decide _) as [Hin|]; [|done]. rewrite Hz by done.
    rewrite forallb_forall in E. symmetry. apply Z.eqb_eq, E.
    replace (ld64 h (source + (q - dest))) with (nth (Z.to_nat ((q - dest) / 8)) (load_words h source 4) 0).
    + apply nth_In. rewrite length_load_words. unfold aligned8 in *. dlia.
    + rewrite nth_load_words by (unfold aligned8 in *; dlia). f_equal. unfold aligned8 in *. dlia.
  - rewrite ld64_store_words, length_load_words by done. change (8 * Z.of_nat 4) with 32.
    destruct (decide _); [|done]. rewrite nth_load_words by (unfold aligned8 in *; dlia).
    f_equal. unfold aligned8 in *. dlia.
Qed.

Lemma ld64_lanes_dupliteit n dest source h q : aligned8 dest -> aligned8 source -> aligned8 q ->
  (dest + 32 * Z.of_nat n <= source \/ source + 32 * Z.of_nat n <= dest) ->
  (forall x, aligned8 x -> dest <= x < dest + 32 * Z.of_nat n -> ld64 h x = 0) ->
  ld64 (lanes_dupliteit n dest source h) q =
    if decide (dest <= q < dest + 32 * Z.of_nat n) then ld64 h (source + (q - dest)) else ld64 h q.
Proof.
  revert dest source h. induction n as [|n IH]; intros dest source h Hd Hs Hq Hap Hz.
  - simpl. rewrite decide_False by lia. done.
  - cbn [lanes_dupliteit].
    assert (forall x, aligned8 x -> dest <= x < dest + 32 -> ld64 h x = 0) by (intros; apply Hz; [done|lia]).
    rewrite IH.
    2-5: unfold aligned8 in *; dlia || lia || done.
    2: { intros x Hx Hr. rewrite ld64_lane_dupliteit by done. rewrite decide_False by lia. apply Hz; [done|lia]. }
    destruct (decide (dest + 32 <= q < _)).
    + rewrite decide_True by lia. rewrite ld64_lane_dupliteit by (done || (unfold aligned8 in *; dlia)).
      rewrite decide_False by lia. f_equal. lia.
    + rewrite ld64_lane_dupliteit by done. destruct (decide (dest <= q < dest + 32)).
      * by rewrite decide_True by lia.
      * by rewrite decide_False by lia.
Qed.
End heap_facts.

(** ** A concrete host

    Mappings are placed one after the other; [limit] is where the address space ends. *)
Definition next_free (live : list (Z * Z)) : Z :=
  (foldr (fun r m => Z.max m (r.1 + r.2)) 0x100000 live + 4095) / 4096 * 4096.

Definition bump_host (limit : Z) : HostOS := {|
  os_mmap live len huge := if next_free live + len <=? limit then next_free live else MAP_FAILED;
  os_madvise live p len := true;
  kvm_accepts slots i s := userspace_addr s mod 4096 =? 0 |}.

Lemma bump_host_laws limit : limit <= 2 ^ 47 -> HostLaws (bump_host limit).
Proof.
  intros Hlim. split; simpl; [|intros ???; apply Z.eqb_eq].
  intros live len huge p Hlen E Hp.
  assert (p = next_free live /\ p + len <= limit) as [-> Hle].
  { destruct (Z.leb_spec (next_free live + len) limit); simplify_eq. lia. }
  assert (0x100000 <= foldr (fun r m => Z.max m (r.1 + r.2)) 0x100000 live) as Hbase.
  { clear. induction live; simpl; lia. }
  split_and!; [unfold next_free; dlia|unfold next_free; dlia|lia|].
  assert (foldr (fun r m => Z.max m (r.1 + r.2)) 0x100000 live <= next_free live) as Hnext by (unfold next_free; dlia).
  apply Forall_forall. intros r Hr. right. simpl. etrans; [|exact Hnext]. clear -Hr.
  induction live as [|x live IH]; [by apply elem_of_nil in Hr|]. simpl.
  apply elem_of_cons in Hr as [->|Hr]; [lia|]. specialize (IH Hr). lia.
Qed.
