(* ===== verification/MemoryBanks.v ===== *)
(** * Memory banks

    [MemoryBank] and [MemoryBanks] (lib/tinykvm/memory_bank.hpp, memory_bank.cpp):
    page allocators for copy-on-write memory.  Each bank is one host mapping that
    backs guest-physical addresses from an arena; pages are handed out in order and
    are never freed one by one.  A reference to a bank is its index in the vector.

    [m_mem] is a [std::vector] whose elements unmap their memory when destroyed and
    are copied, not moved, when the vector grows: [m_capacity] is the vector's capacity
    and [grow] what a reallocation does to the old elements. *)
From S2P Require Import Prelude Host.
From stdpp Require Import base tactics list numbers strings gmap.
From Stdlib Require Import ZArith Lia Bool.
Local Open Scope Z_scope.

Definition u32 (z : Z) : Z := z mod 2 ^ 32.
Definition u16 (z : Z) : Z := z mod 2 ^ 16.

Definition N_PAGES : Z := 4 * 512.
Definition N_HUGEPAGES : Z := 512.
Definition FIRST_BANK_IDX : Z := 2.
Definition ARENA_BASE_ADDRESS : Z := 0x7000000000.

(** ** Data *)

Record MemoryBank := mkBank {
  mem : Z;
  b_addr : Z;
  n_used : Z;
  n_dirty : Z;
  n_pages : Z;
  b_idx : Z }.

Record MemoryBanks := mkBanks {
  m_mem : list MemoryBank;
  m_capacity : Z;
  m_arena_begin : Z;
  m_arena_next : Z;
  m_idx : Z;
  m_hugepage_pages : Z;
  m_num_pages : Z;
  m_max_pages : Z }.

Record Page := mkPage { pmem : Z; p_addr : Z; p_size : Z; p_dirty : bool }.

(** The options the banks read. *)
Record BankOptions := mkBankOptions {
  max_cow_mem : Z;
  hugepages_arena_size : Z;
  vmem_base_address : Z;
  dylink_address_hint : Z }.

Definition set_mem (b : MemoryBanks) z :=
  mkBanks z (m_capacity b) (m_arena_begin b) (m_arena_next b) (m_idx b) (m_hugepage_pages b) (m_num_pages b) (m_max_pages b).
Definition set_capacity (b : MemoryBanks) z :=
  mkBanks (m_mem b) z (m_arena_begin b) (m_arena_next b) (m_idx b) (m_hugepage_pages b) (m_num_pages b) (m_max_pages b).
Definition set_arena_next (b : MemoryBanks) z :=
  mkBanks (m_mem b) (m_capacity b) (m_arena_begin b) z (m_idx b) (m_hugepage_pages b) (m_num_pages b) (m_max_pages b).
Definition set_idx (b : MemoryBanks) z :=
  mkBanks (m_mem b) (m_capacity b) (m_arena_begin b) (m_arena_next b) z (m_hugepage_pages b) (m_num_pages b) (m_max_pages b).
Definition set_hugepage_pages (b : MemoryBanks) z :=
  mkBanks (m_mem b) (m_capacity b) (m_arena_begin b) (m_arena_next b) (m_idx b) z (m_num_pages b) (m_max_pages b).
Definition set_num_pages (b : MemoryBanks) z :=
  mkBanks (m_mem b) (m_capacity b) (m_arena_begin b) (m_arena_next b) (m_idx b) (m_hugepage_pages b) z (m_max_pages b).
Definition set_max (b : MemoryBanks) z :=
  mkBanks (m_mem b) (m_capacity b) (m_arena_begin b) (m_arena_next b) (m_idx b) (m_hugepage_pages b) (m_num_pages b) z.

(** ** [MemoryBank] operations *)

Definition bank_size (b : MemoryBank) : Z := mul64 (n_pages b) 4096.
Definition dirty_size (b : MemoryBank) : Z := mul64 (n_dirty b) 4096.
Definition bank_empty (b : MemoryBank) : bool := n_used b =? n_pages b.

Definition bank_within (b : MemoryBank) (a s : Z) : bool :=
  (b_addr b <=? a) && (a ⊕ s <=? b_addr b ⊕ bank_size b) && (a <=? a ⊕ s).

Definition bank_at (b : MemoryBank) (paddr : Z) : Z := mem b ⊕ (paddr ⊖ b_addr b).

Definition room_for (b : MemoryBank) (pages : Z) : bool :=
  if (pages =? N_HUGEPAGES) && negb (n_used b mod N_HUGEPAGES =? 0) then false
  else n_used b ⊕ pages <=? n_pages b.

(** [get_next_page]: the page and the updated bank. *)
Definition bank_next_page (b : MemoryBank) (pages : Z) : Page * MemoryBank :=
  let offset := mul64 4096 (n_used b) in
  let dirty := n_used b <? n_dirty b in
  let n_used' := u32 (n_used b + pages) in
  let n_dirty' := Z.max n_used' (n_dirty b) in
  (mkPage (mem b ⊕ offset) (b_addr b ⊕ offset) (mul64 pages 4096) dirty,
   mkBank (mem b) (b_addr b) n_used' n_dirty' (n_pages b) (b_idx b)).

(** ** [MemoryBanks] operations, with the host beside them *)

Record BS := mkBS { bs_host : host; bs_banks : MemoryBanks }.

Definition on_host {A} (m : M host A) : M BS A :=
  fun s => let (r, h) := m (bs_host s) in (r, mkBS h (bs_banks s)).
Definition modify_banks (f : MemoryBanks -> MemoryBanks) : M BS unit :=
  modify (fun s => mkBS (bs_host s) (f (bs_banks s))).

Definition using_hugepages (b : MemoryBanks) : bool := 0 <? m_hugepage_pages b.

(** Reallocation of the vector: the old elements are copied and destroyed. *)
Definition grow (capacity : Z) : M BS unit :=
  let! s := get in
  for_each (m_mem (bs_banks s)) (fun b => on_host (host_munmap (mem b) (mul64 (n_pages b) 4096))) ;;;
  modify_banks (fun b => set_capacity b capacity).

Definition reserve (n : Z) : M BS unit :=
  let! s := get in
  when (m_capacity (bs_banks s) <? n) (grow n).

Definition emplace_back (bank : MemoryBank) : M BS unit :=
  let! s := get in
  let size := Z.of_nat (length (m_mem (bs_banks s))) in
  when (m_capacity (bs_banks s) =? size) (grow (Z.max 1 (2 * size))) ;;;
  modify_banks (fun b => set_mem b (m_mem b ++ [bank])).

(** The number of banks [set_max_pages] reserves room for. *)
Definition reserved_banks (b : MemoryBanks) : Z :=
  u32 (u32 (m_max_pages b + N_PAGES) - 1) / N_PAGES + 1 + (if using_hugepages b then 1 else 0).

Section banks.
Context `{os : HostOS}.

Definition set_max_pages (new_max new_hugepages : Z) : M BS unit :=
  modify_banks (fun b => set_hugepage_pages (set_max b (u32 new_max)) (u32 new_hugepages)) ;;;
  let! s := get in
  let b := bs_banks s in
  if negb (m_hugepage_pages b mod N_HUGEPAGES =? 0) then
    throw (MemoryException "Hugepages size must be multiple of 2MB"
      (mul64 (m_hugepage_pages b) 4096) (N_HUGEPAGES * 4096) false)
  else reserve (reserved_banks b).

Definition MemoryBanks_new (o : BankOptions) : M BS unit :=
  modify_banks (fun _ => mkBanks [] 0 ARENA_BASE_ADDRESS ARENA_BASE_ADDRESS FIRST_BANK_IDX 0 0 0) ;;;
  (if negb (vmem_base_address o =? 0) || (0x1000000000 <=? dylink_address_hint o) then
     modify_banks (fun b => mkBanks (m_mem b) (m_capacity b) (m_arena_begin b ⊕ 0x800000000)
       (m_arena_begin b ⊕ 0x800000000) (m_idx b) (m_hugepage_pages b) (m_num_pages b) (m_max_pages b))
   else ret tt) ;;;
  set_max_pages (max_cow_mem o / 4096) (hugepages_arena_size o / 4096).

Definition init_from (other : MemoryBanks) : M BS unit :=
  modify_banks (fun b => mkBanks (m_mem b) (m_capacity b) (m_arena_begin other) (m_arena_next other)
    (m_idx b) (m_hugepage_pages b) (m_num_pages b) (m_max_pages b)) ;;;
  let! s := get in
  match m_mem (bs_banks s) with
  | [] => ret tt
  | b0 :: _ =>
      throw (MemoryException "Cannot init_from() when banks are already allocated (arena_begin will be wrong)"
        (m_arena_begin (bs_banks s)) (b_addr b0) false)
  end.

(** [return m_idx++] *)
Definition banks_allocate_region_idx : M BS Z :=
  let! s := get in
  modify_banks (fun b => set_idx b (u16 (m_idx b + 1))) ;;;
  ret (m_idx (bs_banks s)).

Definition try_alloc (N : Z) (try_hugepages : bool) : M BS Z :=
  let! ptr := (if try_hugepages && (N =? 512) then on_host (host_mmap (mul64 N 4096) true)
               else ret MAP_FAILED) in
  if ptr =? MAP_FAILED then on_host (host_mmap (mul64 N 4096) false) else ret ptr.

(** Returns the index of the new bank. *)
Definition allocate_new_bank (addr pages : Z) : M BS nat :=
  let! s := get in
  let try_hugepages := (match m_mem (bs_banks s) with [] => true | _ => false end)
                       && using_hugepages (bs_banks s) in
  let pages := if try_hugepages then m_hugepage_pages (bs_banks s) else pages in
  let! ptr := try_alloc pages try_hugepages in
  let! (pages, ptr) :=
    (if ptr =? 0 then
       let! ptr := try_alloc 16 false in
       modify_banks (fun b => set_hugepage_pages b 0) ;;;
       ret (16, ptr)
     else ret (pages, ptr)) in
  let size := mul64 pages 4096 in
  if negb (ptr =? 0) then
    let! s := get in
    emplace_back (mkBank ptr addr 0 0 pages (m_idx (bs_banks s))) ;;;
    let! idx := banks_allocate_region_idx in
    on_host (install_memory idx addr ptr size) ;;;
    ret (length (m_mem (bs_banks s)))
  else throw (MemoryException "Failed to allocate memory bank" 0 size false).

(** First bank of the vector satisfying [f]. *)
Fixpoint find_bank (f : MemoryBank -> bool) (l : list MemoryBank) (i : nat) : option nat :=
  match l with
  | [] => None
  | b :: rest => if f b then Some i else find_bank f rest (S i)
  end.

Definition set_bank (i : nat) (b : MemoryBank) : M BS unit :=
  modify_banks (fun bs => set_mem bs (<[i := b]> (m_mem bs))).

Definition frag_used (b : MemoryBank) : Z :=
  Z.land (u32 (u32 (n_used b + N_HUGEPAGES) - 1)) (2 ^ 32 - 1 - (N_HUGEPAGES - 1)).

Definition dummy_bank : MemoryBank := mkBank 0 0 0 0 0 0.
Definition bank_nth (bs : MemoryBanks) (i : nat) : MemoryBank := nth i (m_mem bs) dummy_bank.

Definition get_available_bank (pages : Z) : M BS nat :=
  let! s := get in
  match find_bank (fun b => room_for b pages) (m_mem (bs_banks s)) 0 with
  | Some i => ret i
  | None =>
      if m_num_pages (bs_banks s) <? m_max_pages (bs_banks s) then
        let! i := allocate_new_bank (m_arena_next (bs_banks s)) N_PAGES in
        modify_banks (fun b => set_arena_next
          (set_num_pages b (u32 (m_num_pages b + n_pages (bank_nth b i))))
          (m_arena_next b ⊕ bank_size (bank_nth b i))) ;;;
        ret i
      else
        let oom := MemoryException "Out of working memory"
          (mul64 (m_num_pages (bs_banks s)) 4096) (mul64 (m_max_pages (bs_banks s)) 4096) true in
        if pages =? N_HUGEPAGES then
          match find_bank (fun b => frag_used b ⊕ pages <=? n_pages b) (m_mem (bs_banks s)) 0 with
          | Some i =>
              let b := bank_nth (bs_banks s) i in
              set_bank i (mkBank (mem b) (b_addr b) (frag_used b) (n_dirty b) (n_pages b) (b_idx b)) ;;;
              ret i
          | None => throw oom
          end
        else throw oom
  end.

Definition get_next_page (i : nat) (pages : Z) : M BS Page :=
  let! s := get in
  let (page, b) := bank_next_page (bank_nth (bs_banks s) i) pages in
  set_bank i b ;;; ret page.

(** [vMemory::new_page] and [vMemory::new_hugepage]. *)
Definition new_page : M BS Page := let! i := get_available_bank 1 in get_next_page i 1.
Definition new_hugepage : M BS Page := let! i := get_available_bank 512 in get_next_page i 512.

Definition reset_bank (b : MemoryBank) : MemoryBank := mkBank (mem b) (b_addr b) 0 0 (n_pages b) (b_idx b).

Definition banks_reset (o : BankOptions) : M BS unit :=
  modify_banks (fun b => set_max b (u32 (max_cow_mem o / 4096))) ;;;
  let! s := get in
  for_each (m_mem (bs_banks s)) (fun b =>
    when (0 <? dirty_size b) (on_host (host_madvise_dontneed (mem b) (dirty_size b)))) ;;;
  modify_banks (fun bs => set_mem bs (reset_bank <$> m_mem bs)).

(** [Machine::banked_memory_pages], [banked_memory_allocated_pages], [banked_memory_capacity_pages] *)
Definition banked_memory_pages (bs : MemoryBanks) : Z :=
  foldl (fun count b => count ⊕ n_used b) 0 (m_mem bs).
Definition banked_memory_allocated_pages (bs : MemoryBanks) : Z :=
  foldl (fun count b => count ⊕ n_pages b) 0 (m_mem bs).
Definition banked_memory_capacity_pages (bs : MemoryBanks) : Z := m_max_pages bs.
End banks.

(** ** The invariant of the banks *)

Definition bank_end (b : MemoryBank) : Z := b_addr b + 4096 * n_pages b.
Definition bank_map (b : MemoryBank) : Z * Z := (mem b, 4096 * n_pages b).
Definition bank_phys (b : MemoryBank) : Z * Z := (b_addr b, 4096 * n_pages b).

(** Words of a bank above its dirty pages have never been written. *)
Definition bank_zero (h : heap) (b : MemoryBank) : Prop :=
  forall q, aligned8 q -> mem b + 4096 * n_dirty b <= q < mem b + 4096 * n_pages b -> ld64 h q = 0.

Record bank_ok (b : MemoryBank) : Prop := {
  bk_used : 0 <= n_used b <= n_pages b;
  bk_dirty : 0 <= n_dirty b <= n_used b;
  bk_pages : 0 < n_pages b <= 2 ^ 31 /\ n_pages b mod 512 = 0;
  bk_mem : mem b mod 4096 = 0 /\ 0 < mem b /\ mem b + 4096 * n_pages b <= 2 ^ 47;
  bk_addr : b_addr b mod 2 ^ 21 = 0 /\ 0 <= b_addr b }.

Fixpoint all_apart (l : list (Z * Z)) : Prop :=
  match l with
  | [] => True
  | r :: rest => Forall (ranges_apart r) rest /\ all_apart rest
  end.

Record banks_inv (s : BS) : Prop := {
  bi_ok : Forall bank_ok (m_mem (bs_banks s));
  bi_live : Forall (fun b => bank_map b ∈ h_live (bs_host s)) (m_mem (bs_banks s));
  bi_apart : all_apart (bank_map <$> m_mem (bs_banks s));
  bi_phys : all_apart (bank_phys <$> m_mem (bs_banks s));
  bi_arena : Forall (fun b => bank_end b <= m_arena_next (bs_banks s)) (m_mem (bs_banks s));
  bi_zero : Forall (bank_zero (h_heap (bs_host s))) (m_mem (bs_banks s));
  bi_next : m_arena_next (bs_banks s) mod 2 ^ 21 = 0 /\ 0 <= m_arena_next (bs_banks s);
  bi_bound : m_arena_next (bs_banks s) + 4096 * (2 ^ 32 - m_num_pages (bs_banks s)) <= 2 ^ 50;
  bi_num : 0 <= m_num_pages (bs_banks s) <= 2 ^ 31;
  bi_max : 0 <= m_max_pages (bs_banks s) <= 2 ^ 30;
  bi_huge : 0 <= m_hugepage_pages (bs_banks s) <= 2 ^ 30 /\ m_hugepage_pages (bs_banks s) mod 512 = 0;
  bi_count : m_mem (bs_banks s) <> [] ->
    N_PAGES * (Z.of_nat (length (m_mem (bs_banks s))) - 1) < m_num_pages (bs_banks s);
  bi_cap : Z.of_nat (length (m_mem (bs_banks s))) <= m_capacity (bs_banks s) /\
    reserved_banks (bs_banks s) <= m_capacity (bs_banks s) }.

(** A bank after pages have been taken from it. *)
Definition bank_le (b b' : MemoryBank) : Prop :=
  mem b' = mem b /\ b_addr b' = b_addr b /\ n_pages b' = n_pages b /\ b_idx b' = b_idx b /\
  n_dirty b <= n_dirty b'.
Definition banks_le (l l' : list MemoryBank) : Prop :=
  forall i b, l !! i = Some b -> exists b', l' !! i = Some b' /\ bank_le b b'.

(** Words inside a live mapping are as they were. *)
Definition keeps_live (h h' : host) : Prop :=
  (forall r, r ∈ h_live h -> r ∈ h_live h') /\
  (forall q r, aligned8 q -> r ∈ h_live h -> r.1 <= q < r.1 + r.2 -> ld64 (h_heap h') q = ld64 (h_heap h) q).

Lemma keeps_live_refl h : keeps_live h h.
Proof. by split. Qed.
Lemma keeps_live_trans h1 h2 h3 : keeps_live h1 h2 -> keeps_live h2 h3 -> keeps_live h1 h3.
Proof.
  intros [H1 H2] [H3 H4]. split; [auto|]. intros q r ???. rewrite (H4 q r), (H2 q r); auto.
Qed.

Lemma bank_le_refl b : bank_le b b.
Proof. unfold bank_le. lia || (split_and!; done || lia). Qed.
Lemma banks_le_refl l : banks_le l l.
Proof. intros i b H. eauto using bank_le_refl. Qed.
Lemma banks_le_trans l1 l2 l3 : banks_le l1 l2 -> banks_le l2 l3 -> banks_le l1 l3.
Proof.
  intros H1 H2 i b Hb. apply H1 in Hb as (b2&Hb2&Hle). apply H2 in Hb2 as (b3&Hb3&Hle').
  exists b3. split; [done|]. unfold bank_le in *. intuition (congruence || lia).
Qed.
Lemma banks_le_app l l' : banks_le l (l ++ l').
Proof. intros i b Hb. exists b. split; [by apply lookup_app_l_Some|apply bank_le_refl]. Qed.
Lemma banks_le_insert l i b b' : l !! i = Some b -> bank_le b b' -> banks_le l (<[i := b']> l).
Proof.
  intros Hi Hle j c Hj. destruct (decide (i = j)) as [<-|].
  - exists b'. split; [by apply list_lookup_insert_eq; eapply lookup_lt_Some|]. congruence.
  - exists c. split; [by rewrite list_lookup_insert_ne|apply bank_le_refl].
Qed.

(** How an allocation may change the banks: every bank that was there is kept, and a new one
    lies beyond the arena pointer and in a mapping of its own. *)
Definition banks_ext (s s' : BS) : Prop :=
  keeps_live (bs_host s) (bs_host s') /\
  banks_le (m_mem (bs_banks s)) (m_mem (bs_banks s')) /\
  m_arena_next (bs_banks s) <= m_arena_next (bs_banks s') /\
  forall i b', m_mem (bs_banks s') !! i = Some b' ->
    (exists b, m_mem (bs_banks s) !! i = Some b /\ bank_le b b') \/
    (m_arena_next (bs_banks s) <= b_addr b' /\ Forall (ranges_apart (bank_map b')) (h_live (bs_host s))).

Lemma banks_ext_refl s : banks_ext s s.
Proof.
  split_and!; [apply keeps_live_refl|apply banks_le_refl|lia|].
  intros i b' Hb'. left. eauto using bank_le_refl.
Qed.
Lemma banks_ext_trans s1 s2 s3 : banks_ext s1 s2 -> banks_ext s2 s3 -> banks_ext s1 s3.
Proof.
  intros (Hk1&Hl1&Ha1&Hn1) (Hk2&Hl2&Ha2&Hn2).
  split_and!; [by eapply keeps_live_trans|by eapply banks_le_trans|lia|].
  intros i b3 Hb3. destruct (Hn2 i b3 Hb3) as [(b2&Hb2&Hle)|[Hb Hf]].
  - destruct (Hn1 i b2 Hb2) as [(b1&Hb1&Hle1)|[Hb Hf]].
    + left. exists b1. split; [done|]. unfold bank_le in *. intuition (congruence || lia).
    + right. destruct Hle as (Em&Ea&Ep&_). unfold bank_map in *. by rewrite Em, Ea, Ep.
  - right. split; [lia|]. rewrite Forall_forall in *. intros r Hr. by apply Hf, Hk1.
Qed.
Lemma banks_ext_set_bank s i b b' : m_mem (bs_banks s) !! i = Some b -> bank_le b b' ->
  banks_ext s (mkBS (bs_host s) (set_mem (bs_banks s) (<[i := b']> (m_mem (bs_banks s))))).
Proof.
  intros Hi Hle. split_and!; [apply keeps_live_refl|by eapply banks_le_insert|simpl; lia|].
  simpl. intros j c Hj. left. destruct (decide (i = j)) as [<-|Hne].
  - rewrite list_lookup_insert_eq in Hj by by eapply lookup_lt_Some. simplify_eq. eauto.
  - rewrite list_lookup_insert_ne in Hj by done. eauto using bank_le_refl.
Qed.

Lemma all_apart_snoc l r : all_apart (l ++ [r]) <-> all_apart l /\ Forall (ranges_apart r) l.
Proof.
  induction l as [|x l IH]; simpl; [by rewrite !Forall_nil|].
  rewrite IH, Forall_app, !Forall_cons, !Forall_nil. unfold ranges_apart. tauto.
Qed.

Lemma all_apart_lookup (l : list MemoryBank) i j b c : all_apart (bank_map <$> l) ->
  l !! i = Some b -> l !! j = Some c -> i <> j -> ranges_apart (bank_map b) (bank_map c).
Proof.
  revert i j. induction l as [|x l IH]; intros i j Hap Hi Hj Hne; [done|].
  destruct Hap as [Hx Hl]. rewrite Forall_fmap in Hx.
  destruct i as [|i], j as [|j]; simpl in *; simplify_eq.
  - by apply (Forall_lookup_1 _ _ _ _ Hx Hj).
  - pose proof (Forall_lookup_1 _ _ _ _ Hx Hi) as Hr. unfold ranges_apart in *. simpl in *. lia.
  - eapply IH; eauto.
Qed.

Lemma find_bank_Some f l i j : find_bank f l i = Some j ->
  exists b, (i <= j)%nat /\ l !! (j - i)%nat = Some b /\ f b = true.
Proof.
  revert i. induction l as [|b l IH]; intros i E; simpl in E; [done|].
  destruct (f b) eqn:Ef; simplify_eq.
  - exists b. by rewrite Nat.sub_diag.
  - apply IH in E as (b'&?&Hl&?). exists b'. split_and!; [lia| |done].
    by replace (j - i)%nat with (S (j - S i)) by lia.
Qed.

Lemma find_bank_0 f l j : find_bank f l 0 = Some j -> exists b, l !! j = Some b /\ f b = true.
Proof. intros (b&_&Hl&Hf)%find_bank_Some. rewrite Nat.sub_0_r in Hl. eauto. Qed.

Lemma bank_nth_lookup bs i b : m_mem bs !! i = Some b -> bank_nth bs i = b.
Proof. intros H. unfold bank_nth. rewrite nth_lookup, H. done. Qed.

(** What a successful allocation promises about the page. *)
Definition page_from (s s' : BS) (n : Z) (pg : Page) : Prop :=
  exists i b', m_mem (bs_banks s') !! i = Some b' /\
    0 <= n_dirty b' - n /\ n_dirty b' <= n_pages b' /\
    pmem pg = mem b' + 4096 * (n_dirty b' - n) /\
    p_addr pg = b_addr b' + 4096 * (n_dirty b' - n) /\
    p_size pg = 4096 * n /\ p_dirty pg = false /\
    (forall b, m_mem (bs_banks s) !! i = Some b -> n_dirty b <= n_dirty b' - n) /\
    (n = 512 -> (n_dirty b' - n) mod 512 = 0) /\
    (forall q, aligned8 q -> pmem pg <= q < pmem pg + 4096 * n -> ld64 (h_heap (bs_host s')) q = 0).

Section bank_specs.
Context `{os : HostOS} `{laws : !HostLaws os}.

Lemma wp_on_host {A} (m : M host A) Q X s :
  wp m (fun a h => Q a (mkBS h (bs_banks s))) (fun e h => X e (mkBS h (bs_banks s))) (bs_host s) ->
  wp (on_host m) Q X s.
Proof. unfold wp, on_host. by destruct (m (bs_host s)) as [[]]. Qed.

(** A mapping just made: aligned, apart from the others, and zero. *)
Definition fresh_mapping (h h' : host) (p len : Z) : Prop :=
  p mod 4096 = 0 /\ 0 < p /\ p + len <= 2 ^ 47 /\ Forall (ranges_apart (p, len)) (h_live h) /\
  (p, len) ∈ h_live h' /\
  (forall q, aligned8 q -> p <= q < p + len -> ld64 (h_heap h') q = 0).

Lemma host_mmap_spec len huge h : 0 < len ->
  wp (host_mmap len huge)
    (fun p h' => keeps_live h h' /\ (p = MAP_FAILED /\ h' = h \/ fresh_mapping h h' p len))
    (fun _ _ => False) h.
Proof.
  intros Hlen. unfold host_mmap. wp_step. wp_step. wp_step.
  - wp_step. split; [apply keeps_live_refl|]. left. split; [lia|done].
  - destruct (mmap_placed (h_live h) len huge _ Hlen eq_refl) as (Ha&Hp&Hb&Hf); [lia|].
    set (p := os_mmap (h_live h) len huge) in *. wp_steps. rewrite Forall_forall in Hf.
    split; [split; simpl; [intros r Hr; by right|]|right; unfold fresh_mapping; simpl; split_and!; try done].
    + intros q r Hq Hr Hin. rewrite ld64_zero_region by done. rewrite decide_False; [done|].
      specialize (Hf r Hr). unfold ranges_apart in Hf. simpl in Hf. lia.
    + by apply Forall_forall.
    + by left.
    + intros q Hq Hin. rewrite ld64_zero_region by done. by rewrite decide_True.
Qed.

Lemma try_alloc_spec N huge s : 0 < N <= 2 ^ 31 ->
  wp (try_alloc N huge)
    (fun p s' => bs_banks s' = bs_banks s /\ keeps_live (bs_host s) (bs_host s') /\
       (p = MAP_FAILED \/ fresh_mapping (bs_host s) (bs_host s') p (4096 * N)))
    (fun _ _ => False) s.
Proof.
  intros HN. unfold try_alloc.
  rewrite !mul64_small, (Z.mul_comm N) by (unfold u64; lia).
  assert (wp (on_host (host_mmap (4096 * N) false))
    (fun p s' => bs_banks s' = bs_banks s /\ keeps_live (bs_host s) (bs_host s') /\
       (p = MAP_FAILED \/ fresh_mapping (bs_host s) (bs_host s') p (4096 * N))) (fun _ _ => False) s) as Hplain.
  { apply wp_on_host. eapply wp_mono; [apply host_mmap_spec; lia| |done]. simpl.
    intros p h' (?&[[-> _]|?]); split_and!; auto. }
  wp_step. wp_step.
  - apply wp_on_host. eapply wp_mono; [apply host_mmap_spec; lia| |done]. simpl.
    intros p h' (Hk&[[-> ->]|Hf]).
    + simpl. by destruct s.
    + wp_step; [|wp_step; auto]. destruct Hf as (?&?&?&_). unfold MAP_FAILED in *. lia.
  - wp_step. simpl. done.
Qed.

(** The state after a new bank was appended. *)
Definition bank_appended (s s' : BS) (np ptr : Z) : Prop :=
  m_mem (bs_banks s') = m_mem (bs_banks s) ++ [mkBank ptr (m_arena_next (bs_banks s)) 0 0 np (m_idx (bs_banks s))] /\
  set_idx (set_mem (bs_banks s') (m_mem (bs_banks s))) (m_idx (bs_banks s)) = bs_banks s /\
  (0 < np <= 2 ^ 30 /\ np mod 512 = 0) /\ (m_mem (bs_banks s) <> [] -> np = N_PAGES) /\
  keeps_live (bs_host s) (bs_host s') /\
  fresh_mapping (bs_host s) (bs_host s') ptr (4096 * np).

Lemma reserved_banks_eq b : 0 <= m_max_pages b <= 2 ^ 30 ->
  reserved_banks b = (m_max_pages b + 2047) / 2048 + 1 + (if using_hugepages b then 1 else 0).
Proof.
  intros H. unfold reserved_banks, u32, N_PAGES. rewrite !Z.mod_small by (rewrite ?Z.mod_small by lia; lia).
  repeat f_equal. lia.
Qed.

(** Below the page limit the vector has room: nothing is reallocated. *)
Lemma emplace_back_room s bank : banks_inv s -> m_num_pages (bs_banks s) < m_max_pages (bs_banks s) ->
  forall h, emplace_back bank (mkBS h (bs_banks s)) = (Ok tt, mkBS h (set_mem (bs_banks s) (m_mem (bs_banks s) ++ [bank]))).
Proof.
  intros [] Hmax h. unfold emplace_back, bind, get. simpl.
  rewrite reserved_banks_eq in bi_cap0 by lia.
  replace (m_capacity (bs_banks s) =? _) with false; [done|]. symmetry. apply Z.eqb_neq.
  destruct (m_mem (bs_banks s)) as [|b l] eqn:E.
  - simpl. destruct (using_hugepages _); dlia.
  - specialize (bi_count0 ltac:(done)). unfold N_PAGES in *. destruct (using_hugepages _); dlia.
Qed.

Lemma allocate_new_bank_spec s : banks_inv s -> m_num_pages (bs_banks s) < m_max_pages (bs_banks s) ->
  wp (allocate_new_bank (m_arena_next (bs_banks s)) N_PAGES)
    (fun i s' => i = length (m_mem (bs_banks s)) /\ exists np ptr, bank_appended s s' np ptr)
    (fun _ s' => keeps_live (bs_host s) (bs_host s')) s.
Proof.
  intros Hinv Hmax. pose proof Hinv as []. unfold allocate_new_bank. wp_pures.
  set (huge := _ && using_hugepages (bs_banks s)).
  set (np := if huge then m_hugepage_pages (bs_banks s) else N_PAGES).
  assert ((0 < np <= 2 ^ 30 /\ np mod 512 = 0) /\ (m_mem (bs_banks s) <> [] -> np = N_PAGES)) as [Hnp Hnp'].
  { unfold np, huge, N_PAGES, using_hugepages. destruct (m_mem (bs_banks s)); simpl.
    - destruct (Z.ltb_spec 0 (m_hugepage_pages (bs_banks s))); [split; [lia|done]|done].
    - done. }
  eapply wp_mono; [apply try_alloc_spec; lia| |done].
  intros ptr s1 (Hb&Hk&Hptr). destruct s1 as [h1 b1]. simpl in *. subst b1.
  assert (ptr <> 0) as Hp0.
  { destruct Hptr as [->|(?&?&_)]; [done|lia]. }
  apply Z.eqb_neq in Hp0. rewrite Hp0. wp_pures. rewrite Hp0. cbn [negb]. wp_pures. cbn [bs_banks].
  rewrite mul64_small by (unfold u64; lia).
  unfold wp at 1. rewrite (emplace_back_room s) by done. cbn beta iota.
  unfold banks_allocate_region_idx, modify_banks. wp_pures. cbn [bs_banks bs_host m_idx set_mem set_idx m_mem].
  apply wp_on_host. unfold install_memory. wp_step. wp_step. wp_step.
  - apply kvm_aligned in H. simpl in H. destruct Hptr as [->|Hf]; [done|].
    wp_steps. split; [done|]. exists np, ptr. unfold bank_appended. simpl. split_and!; try done; try lia.
    by destruct (bs_banks s).
  - wp_step. done.
Qed.

Lemma bank_zero_keeps h h' l : Forall (fun b => bank_map b ∈ h_live h) l -> Forall bank_ok l -> keeps_live h h' ->
  Forall (bank_zero (h_heap h)) l -> Forall (bank_zero (h_heap h')) l.
Proof.
  intros Hl Hok [_ Hk] Hz. rewrite Forall_forall in *. intros b Hb q Hq Hin.
  rewrite (Hk q (bank_map b)); [by apply (Hz b Hb)|done|by apply Hl|].
  destruct (Hok b Hb). simpl. lia.
Qed.

Lemma Forall_live_mono (h h' : host) (l : list MemoryBank) : keeps_live h h' ->
  Forall (fun b => bank_map b ∈ h_live h) l -> Forall (fun b => bank_map b ∈ h_live h') l.
Proof. intros [H _] Hl. eapply Forall_impl; [exact Hl|]. simpl. auto. Qed.

(** Appending a bank and moving the arena pointer past it keeps the invariant. *)
Lemma banks_inv_append s s' np ptr : banks_inv s -> m_num_pages (bs_banks s) < m_max_pages (bs_banks s) ->
  bank_appended s s' np ptr ->
  let b' := bs_banks s' in
  banks_inv (mkBS (bs_host s') (set_arena_next (set_num_pages b' (m_num_pages b' + np)) (m_arena_next b' + 4096 * np))).
Proof.
  intros [] Hmax (Hm&Hrest&Hnp&Hnp'&Hk&(?&?&?&Hf&?&Hz)).
  assert (m_arena_next (bs_banks s') = m_arena_next (bs_banks s)) as E1 by by rewrite <- Hrest.
  assert (m_num_pages (bs_banks s') = m_num_pages (bs_banks s)) as E2 by by rewrite <- Hrest.
  assert (m_max_pages (bs_banks s') = m_max_pages (bs_banks s)) as E3 by by rewrite <- Hrest.
  assert (m_hugepage_pages (bs_banks s') = m_hugepage_pages (bs_banks s)) as E4 by by rewrite <- Hrest.
  assert (m_capacity (bs_banks s') = m_capacity (bs_banks s)) as E5 by by rewrite <- Hrest.
  set (nb := mkBank ptr (m_arena_next (bs_banks s)) 0 0 np (m_idx (bs_banks s))) in *.
  constructor; simpl; rewrite ?E1, ?E2, ?E3, ?E4, ?E5, ?Hm, ?fmap_app, ?Forall_app, ?Forall_singleton.
  - split; [done|]. constructor; simpl; lia.
  - split; [by eapply Forall_live_mono|]. done.
  - apply all_apart_snoc. split; [done|]. rewrite Forall_fmap. eapply Forall_impl; [exact bi_live0|].
    intros b Hb. rewrite Forall_forall in Hf. by apply Hf.
  - apply all_apart_snoc. split; [done|]. rewrite Forall_fmap. eapply Forall_impl; [exact bi_arena0|].
    intros b. unfold ranges_apart, bank_end. simpl. lia.
  - split; [|unfold bank_end; simpl; lia]. eapply Forall_impl; [exact bi_arena0|]. simpl. lia.
  - split; [by eapply bank_zero_keeps|]. intros q Hq. simpl. intros. apply Hz; [done|lia].
  - change (2 ^ 21) with 2097152 in *. dlia.
  - lia.
  - lia.
  - done.
  - done.
  - intros _. rewrite length_app. simpl. unfold N_PAGES in *.
    destruct (m_mem (bs_banks s)) eqn:El; [simpl; lia|].
    specialize (bi_count0 ltac:(done)). specialize (Hnp' ltac:(done)). lia.
  - rewrite length_app. simpl.
    assert (reserved_banks (set_arena_next (set_num_pages (bs_banks s') (m_num_pages (bs_banks s) + np))
      (m_arena_next (bs_banks s) + 4096 * np)) = reserved_banks (bs_banks s)) as ->.
    { unfold reserved_banks, using_hugepages. simpl. by rewrite E3, E4. }
    split; [|lia]. rewrite reserved_banks_eq in bi_cap0 by lia. unfold N_PAGES in *.
    destruct (m_mem (bs_banks s)) as [|b l] eqn:E; simpl in *.
    + destruct (using_hugepages _); dlia.
    + specialize (bi_count0 ltac:(done)). destruct (using_hugepages _); dlia.
Qed.

(** A bank with room for [n] pages at index [i]. *)
Definition has_room (s : BS) (i : nat) (n : Z) : Prop :=
  exists b, m_mem (bs_banks s) !! i = Some b /\ n_used b + n <= n_pages b /\ (n = 512 -> n_used b mod 512 = 0).

Lemma banks_inv_set_bank s i b b' : banks_inv s -> m_mem (bs_banks s) !! i = Some b ->
  bank_le b b' -> bank_ok b' -> bank_zero (h_heap (bs_host s)) b' ->
  banks_inv (mkBS (bs_host s) (set_mem (bs_banks s) (<[i := b']> (m_mem (bs_banks s))))).
Proof.
  intros [] Hi (Hm&Ha&Hp&_&_) Hok Hz.
  assert (bank_map b' = bank_map b) as Em by (unfold bank_map; congruence).
  assert (bank_phys b' = bank_phys b) as Ep by (unfold bank_phys; congruence).
  assert (bank_end b' = bank_end b) as Ee by (unfold bank_end; congruence).
  assert (forall {A} (f : MemoryBank -> A), f b' = f b -> f <$> <[i := b']> (m_mem (bs_banks s)) = f <$> m_mem (bs_banks s)) as Hf.
  { intros A f E. rewrite list_fmap_insert, E. apply list_insert_id. by rewrite list_lookup_fmap, Hi. }
  constructor; simpl; rewrite ?(Hf _ _ Em), ?(Hf _ _ Ep), ?length_insert; try done.
  1,2,3,4: apply Forall_insert; try done.
  - rewrite Em. by apply (Forall_lookup_1 _ _ _ _ bi_live0 Hi).
  - rewrite Ee. by apply (Forall_lookup_1 _ _ _ _ bi_arena0 Hi).
  - intros _. apply bi_count0. intros E. by rewrite E in Hi.
Qed.

Lemma room_for_spec b n : bank_ok b -> 0 < n <= 512 -> room_for b n = true ->
  n_used b + n <= n_pages b /\ (n = 512 -> n_used b mod 512 = 0).
Proof.
  intros [] Hn. unfold room_for, N_HUGEPAGES. rewrite add64_small by (unfold u64; lia).
  destruct (Z.eqb_spec n 512), (Z.eqb_spec (n_used b mod 512) 0); simpl; intros ?; try done; lia.
Qed.

Lemma frag_used_spec b : bank_ok b ->
  n_used b <= frag_used b /\ frag_used b mod 512 = 0 /\ frag_used b <= 2 ^ 31 + 512.
Proof.
  intros []. unfold frag_used, N_HUGEPAGES, u32.
  rewrite !Z.mod_small by (rewrite ?Z.mod_small by lia; lia).
  change (2 ^ 32 - 1 - (512 - 1)) with (2 ^ 32 - 2 ^ 9).
  rewrite land_high_mask by lia. change (2 ^ 9) with 512. dlia.
Qed.

Lemma get_available_bank_spec s n : banks_inv s -> 0 < n <= 512 ->
  wp (get_available_bank n)
    (fun i s' => banks_inv s' /\ banks_ext s s' /\ has_room s' i n)
    (fun _ s' => keeps_live (bs_host s) (bs_host s')) s.
Proof.
  intros Hinv Hn. pose proof Hinv as []. unfold get_available_bank. wp_step. wp_step.
  destruct (find_bank _ _ _) as [i|] eqn:Efind.
  { apply find_bank_0 in Efind as (b&Hb&Hr). wp_step. split_and!; [done|apply banks_ext_refl|].
    exists b. split; [done|].
    apply room_for_spec; [|done..]. by apply (Forall_lookup_1 _ _ _ _ bi_ok0 Hb). }
  wp_step.
  - wp_step. eapply wp_mono; [apply allocate_new_bank_spec; [done|lia]| |done].
    intros i s' (->&np&ptr&Happ). unfold modify_banks. wp_pures.
    pose proof Happ as (Hm&Hrest&Hnp&_&Hk&_).
    set (nb := mkBank ptr (m_arena_next (bs_banks s)) 0 0 np (m_idx (bs_banks s))) in *.
    assert (m_mem (bs_banks s') !! length (m_mem (bs_banks s)) = Some nb) as Hnb.
    { by rewrite Hm, lookup_app_r, Nat.sub_diag by lia. }
    rewrite (bank_nth_lookup _ _ _ Hnb). unfold bank_size. cbn [n_pages].
    assert (m_num_pages (bs_banks s') = m_num_pages (bs_banks s)) as E2 by by rewrite <- Hrest.
    assert (m_arena_next (bs_banks s') = m_arena_next (bs_banks s)) as E1 by by rewrite <- Hrest.
    change (n_pages nb) with np.
    assert (u32 (m_num_pages (bs_banks s') + np) = m_num_pages (bs_banks s') + np) as ->
      by (unfold u32; rewrite Z.mod_small; lia).
    assert (m_arena_next (bs_banks s') ⊕ mul64 np 4096 = m_arena_next (bs_banks s') + 4096 * np) as ->
      by (rewrite mul64_small, add64_small by (unfold u64; lia); lia).
    split_and!; [by apply (banks_inv_append s s' np ptr); [|lia|]| |].
    { split_and!; [done|simpl; rewrite Hm; apply banks_le_app|simpl; lia|]. simpl. rewrite Hm. intros i b' Hi.
      apply lookup_app_Some in Hi as [Hi|[Hi Hi']]; [left; eauto using bank_le_refl|right].
      destruct (i - length (m_mem (bs_banks s)))%nat; simpl in Hi'; simplify_eq. split; [done|].
      by destruct Happ as (_&_&_&_&_&(_&_&_&Hf&_)). }
    exists nb. split; [done|]. simpl. split; [dlia|done].
  - wp_step; [|wp_step; apply keeps_live_refl].
    destruct (find_bank (fun b => _ <=? _) _ _) as [i|] eqn:Efrag; [|wp_step; apply keeps_live_refl].
    apply find_bank_0 in Efrag as (b&Hb&Hr). unfold set_bank, modify_banks. wp_pures.
    rewrite (bank_nth_lookup _ _ _ Hb). unfold N_HUGEPAGES in *. assert (n = 512) as -> by lia.
    assert (bank_ok b) as Hok by by eapply (Forall_lookup_1 _ _ _ _ bi_ok0).
    assert (bank_zero (h_heap (bs_host s)) b) as Hz by by eapply (Forall_lookup_1 _ _ _ _ bi_zero0).
    destruct (frag_used_spec b Hok) as (Hf1&Hf2&Hf3).
    destruct Hok. rewrite add64_small in Hr by (unfold u64; lia).
    set (b' := mkBank _ _ _ _ _ _).
    assert (bank_le b b') by (unfold bank_le, b'; simpl; split_and!; done || lia).
    split_and!; [|by eapply banks_ext_set_bank|].
    + eapply banks_inv_set_bank; [done..| |done]. constructor; simpl; lia.
    + exists b'. split; [by apply list_lookup_insert_eq; eapply lookup_lt_Some|]. simpl. split; [lia|done].
Qed.

Lemma get_next_page_spec s i n : banks_inv s -> has_room s i n -> 0 < n <= 512 ->
  wp (get_next_page i n)
    (fun pg s' => banks_inv s' /\ banks_ext s s' /\ page_from s s' n pg)
    (fun _ _ => False) s.
Proof.
  intros Hinv (b&Hb&Hroom&Hal) Hn. pose proof Hinv as []. unfold get_next_page. wp_step. wp_step.
  rewrite (bank_nth_lookup _ _ _ Hb). unfold bank_next_page, set_bank, modify_banks. wp_pures.
  assert (bank_ok b) as Hok by by eapply (Forall_lookup_1 _ _ _ _ bi_ok0).
  assert (bank_zero (h_heap (bs_host s)) b) as Hz by by eapply (Forall_lookup_1 _ _ _ _ bi_zero0).
  assert (bank_end b <= m_arena_next (bs_banks s)) as Hend by by eapply (Forall_lookup_1 _ _ _ _ bi_arena0).
  unfold bank_end in Hend. pose proof Hok as [].
  assert (u32 (n_used b + n) = n_used b + n) as -> by (unfold u32; rewrite Z.mod_small; lia).
  rewrite Z.max_l by lia. replace (n_used b <? n_dirty b) with false by lia.
  assert (mul64 4096 (n_used b) = 4096 * n_used b) as -> by (apply mul64_small; unfold u64; lia).
  assert (mul64 n 4096 = 4096 * n) as -> by (rewrite mul64_small; unfold u64; lia).
  assert (mem b ⊕ 4096 * n_used b = mem b + 4096 * n_used b) as -> by (apply add64_small; unfold u64; lia).
  assert (b_addr b ⊕ 4096 * n_used b = b_addr b + 4096 * n_used b) as -> by (apply add64_small; unfold u64; lia).
  set (b' := mkBank _ _ _ _ _ _).
  assert (bank_le b b') by (unfold bank_le, b'; simpl; split_and!; done || lia).
  split_and!; [|by eapply banks_ext_set_bank|].
  - eapply banks_inv_set_bank; [done..| |].
    + constructor; simpl; lia.
    + intros q Hq Hin. apply Hz; [done|]. unfold b' in Hin; simpl in Hin. lia.
  - exists i, b'. split; [by apply list_lookup_insert_eq; eapply lookup_lt_Some|]. simpl.
    replace (n_used b + n - n) with (n_used b) by lia. split_and!; try done; try lia.
    + intros b0 ?. simplify_eq. lia.
    + intros q Hq Hin. apply Hz; [done|]. lia.
Qed.

Lemma new_pages_spec s n : banks_inv s -> 0 < n <= 512 ->
  wp (let! i := get_available_bank n in get_next_page i n)
    (fun pg s' => banks_inv s' /\ banks_ext s s' /\ page_from s s' n pg)
    (fun _ s' => keeps_live (bs_host s) (bs_host s')) s.
Proof.
  intros Hinv Hn. wp_step. eapply wp_mono; [by apply get_available_bank_spec| |done].
  intros i s1 (Hinv1&Hx1&Hroom).
  eapply wp_mono; [by apply get_next_page_spec| |done]. clear Hinv.
  intros pg s2 (Hinv2&Hx2&Hpg). split_and!; [done|by eapply banks_ext_trans|].
  destruct Hpg as (j&b'&Hb'&?&?&?&?&?&?&Hold&?&?). exists j, b'. split_and!; try done.
  intros b Hb. apply Hx1 in Hb as (b1&Hb1&(_&_&_&_&?)). apply Hold in Hb1. lia.
Qed.

(** C4: allocating a page, or a 2MB hugepage, from banks that satisfy the invariant: the page
    lies inside a bank, its host pointer and its guest-physical address have the same offset
    in that bank, none of its bytes was handed out before, it is all zero (so the dirty flag
    is rightly false), a hugepage is 2MB aligned in guest-physical memory, no byte of any
    mapping that existed before has changed, and the invariant (mappings disjoint, physical
    ranges disjoint, no reallocation of the bank vector) holds again.  An exception leaves
    every existing mapping as it was. *)
Theorem new_page_ok s (huge : bool) : banks_inv s ->
  let n := if huge then 512 else 1 in
  wp (if huge then new_hugepage else new_page)
    (fun pg s' => banks_inv s' /\ banks_ext s s' /\ page_from s s' n pg /\
       p_addr pg mod (4096 * n) = 0)
    (fun _ s' => keeps_live (bs_host s) (bs_host s')) s.
Proof.
  intros Hinv n.
  assert (wp (let! i := get_available_bank n in get_next_page i n)
    (fun pg s' => banks_inv s' /\ banks_ext s s' /\ page_from s s' n pg)
    (fun _ s' => keeps_live (bs_host s) (bs_host s')) s) as H by (apply new_pages_spec; [done|destruct huge; lia]).
  replace (if huge then new_hugepage else new_page) with (let! i := get_available_bank n in get_next_page i n)
    by by destruct huge.
  eapply wp_mono; [exact H| |done].
  intros pg s' (Hinv'&?&Hpg). split_and!; try done.
  destruct Hpg as (i&b'&Hb'&?&?&_&->&_&_&_&Hal&_).
  destruct (Forall_lookup_1 _ _ _ _ (bi_ok _ Hinv') Hb') as [_ _ _ _ [Ha _]].
  change (2 ^ 21) with 2097152 in Ha. destruct huge; simpl in *; [specialize (Hal eq_refl)|]; dlia.
Qed.

(** *** Resetting the banks *)

Definition in_dirty (q : Z) (b : MemoryBank) : Prop := mem b <= q < mem b + 4096 * n_dirty b.

#[local] Instance in_dirty_dec q b : Decision (in_dirty q b).
Proof. unfold in_dirty. apply _. Defined.

Lemma reset_loop_spec s : Forall bank_ok (m_mem (bs_banks s)) ->
  (forall live p len, os_madvise live p len = true) ->
  wp (for_each (m_mem (bs_banks s)) (fun b =>
        when (0 <? dirty_size b) (on_host (host_madvise_dontneed (mem b) (dirty_size b)))))
    (fun _ s' => bs_banks s' = bs_banks s /\ h_live (bs_host s') = h_live (bs_host s) /\
       forall q, aligned8 q ->
         (Exists (in_dirty q) (m_mem (bs_banks s)) -> ld64 (h_heap (bs_host s')) q = 0) /\
         (~ Exists (in_dirty q) (m_mem (bs_banks s)) -> ld64 (h_heap (bs_host s')) q = ld64 (h_heap (bs_host s)) q))
    (fun _ _ => False) s.
Proof.
  intros Hok Hmadv.
  apply (wp_for_each (fun dn t => bs_banks t = bs_banks s /\ h_live (bs_host t) = h_live (bs_host s) /\
       forall q, aligned8 q ->
         (Exists (in_dirty q) dn -> ld64 (h_heap (bs_host t)) q = 0) /\
         (~ Exists (in_dirty q) dn -> ld64 (h_heap (bs_host t)) q = ld64 (h_heap (bs_host s)) q))); [| |done].
  { split_and!; try done. intros q _. split; [by intros ?%Exists_nil|done]. }
  intros dn b rest t E (Hb&Hl&Hq).
  assert (bank_ok b) as [].
  { rewrite Forall_forall in Hok. apply Hok. rewrite E. apply elem_of_app. right. left. }
  assert (dirty_size b = 4096 * n_dirty b) as -> by (unfold dirty_size; rewrite mul64_small; unfold u64; lia).
  assert (forall q, Exists (in_dirty q) (dn ++ [b]) <-> Exists (in_dirty q) dn \/ in_dirty q b) as Hex.
  { intros q. rewrite Exists_app, Exists_cons, Exists_nil. tauto. }
  wp_step.
  - apply wp_on_host. unfold host_madvise_dontneed. wp_step. rewrite Hmadv. simpl. split_and!; try done.
    intros q Hq8. destruct (Hq q Hq8) as [H1 H2]. rewrite Hex, ld64_zero_region by done. unfold in_dirty in *.
    destruct (decide _); tauto.
  - split_and!; try done. intros q Hq8. rewrite Hex. destruct (Hq q Hq8) as [H1 H2].
    assert (~ in_dirty q b) by (unfold in_dirty; lia). tauto.
Qed.

Lemma banks_reset_wp s o : banks_inv s -> (forall live p len, os_madvise live p len = true) ->
  0 <= max_cow_mem o < 2 ^ 32 ->
  reserved_banks (set_max (bs_banks s) (max_cow_mem o / 4096)) <= m_capacity (bs_banks s) ->
  wp (banks_reset o)
    (fun _ s' => banks_inv s' /\
       bs_banks s' = set_mem (set_max (bs_banks s) (max_cow_mem o / 4096)) (reset_bank <$> m_mem (bs_banks s)) /\
       h_live (bs_host s') = h_live (bs_host s) /\
       (forall q, aligned8 q -> Exists (fun b => mem b <= q < mem b + 4096 * n_pages b) (m_mem (bs_banks s)) ->
          ld64 (h_heap (bs_host s')) q = 0) /\
       (forall q, aligned8 q -> ~ Exists (in_dirty q) (m_mem (bs_banks s)) ->
          ld64 (h_heap (bs_host s')) q = ld64 (h_heap (bs_host s)) q))
    (fun _ _ => False) s.
Proof.
  intros Hinv Hmadv Ho Hcap. pose proof Hinv as [].
  unfold banks_reset, modify_banks. wp_pures.
  assert (u32 (max_cow_mem o / 4096) = max_cow_mem o / 4096) as -> by (unfold u32; rewrite Z.mod_small; dlia).
  set (s1 := mkBS (bs_host s) (set_max (bs_banks s) (max_cow_mem o / 4096))).
  change (m_mem (bs_banks s1)) with (m_mem (bs_banks s)).
  eapply wp_mono; [by apply (reset_loop_spec s1)| |done].
  intros [] s2 (Hb&Hl&Hq). wp_pures. rewrite Hb. cbn [m_mem set_max s1 bs_banks bs_host] in *.
  assert (forall q, aligned8 q -> Exists (fun b => mem b <= q < mem b + 4096 * n_pages b) (m_mem (bs_banks s)) ->
    ld64 (h_heap (bs_host s2)) q = 0) as Hzero.
  { intros q Hq8 Hex. destruct (Hq q Hq8) as [H1 H2].
    destruct (decide (Exists (in_dirty q) (m_mem (bs_banks s)))) as [|Hn]; [auto|].
    rewrite H2 by done. apply Exists_exists in Hex as (b&Hbin&Hin).
    rewrite Forall_forall in bi_zero0. apply (bi_zero0 b Hbin); [done|].
    rewrite Exists_exists in Hn. destruct (decide (in_dirty q b)); [by destruct Hn; eauto|].
    unfold in_dirty in *. lia. }
  split_and!; try done; [|intros q Hq8; by apply Hq].
  constructor; simpl; rewrite ?Hl, ?length_fmap, <- ?list_fmap_compose, ?Forall_fmap; try done.
  - eapply Forall_impl; [exact bi_ok0|]. intros b []. constructor; simpl; lia.
  - apply Forall_forall. intros b Hbin q Hq8 Hin. apply Hzero; [done|]. apply Exists_exists. exists b.
    split; [done|]. simpl in Hin. lia.
  - dlia.
  - intros Hne. apply bi_count0. by destruct (m_mem (bs_banks s)).
  - split; [lia|exact Hcap].
Qed.

(** C5: resetting the banks of a fork, on a host where [MADV_DONTNEED] succeeds and with a page
    limit the bank vector has room for, makes every bank empty and every byte of every bank
    zero, changes no byte outside the banks' dirty pages, and keeps the invariant. *)
Theorem banks_reset_ok s o : banks_inv s -> (forall live p len, os_madvise live p len = true) ->
  0 <= max_cow_mem o < 2 ^ 32 ->
  reserved_banks (set_max (bs_banks s) (max_cow_mem o / 4096)) <= m_capacity (bs_banks s) ->
  wp (banks_reset o)
    (fun _ s' => banks_inv s' /\ m_mem (bs_banks s') = reset_bank <$> m_mem (bs_banks s) /\
       m_max_pages (bs_banks s') = max_cow_mem o / 4096 /\
       (forall q, aligned8 q -> Exists (fun b => mem b <= q < mem b + 4096 * n_pages b) (m_mem (bs_banks s)) ->
          ld64 (h_heap (bs_host s')) q = 0) /\
       (forall q, aligned8 q -> ~ Exists (in_dirty q) (m_mem (bs_banks s)) ->
          ld64 (h_heap (bs_host s')) q = ld64 (h_heap (bs_host s)) q))
    (fun _ _ => False) s.
Proof.
  intros Hinv Hmadv Ho Hcap. eapply wp_mono; [by apply banks_reset_wp| |done]. intros _ s' (?&E&_&?&?). by split_and!; rewrite ?E.
Qed.
End bank_specs.

(** ** Concrete runs *)

Definition demo_options : BankOptions := mkBankOptions 0x2000000 0 0 0x200000.
Definition demo_bs0 : BS :=
  mkBS (mkHost ∅ [] ∅) (mkBanks [] 0 0 0 0 0 0 0).
Definition run_bs {A} `{os : HostOS} (m : M BS A) (s : BS) : BS := snd (m s).

(** Banks of a machine with 32MB of copy-on-write memory, after two pages were taken. *)
Definition demo_bs : BS :=
  @run_bs _ (bump_host (2 ^ 47))
    (@MemoryBanks_new demo_options ;;; @new_page (bump_host (2 ^ 47)) ;;; @new_page (bump_host (2 ^ 47))) demo_bs0.

Lemma demo_bs_inv : banks_inv demo_bs.
Proof.
  assert (demo_bs = mkBS (mkHost ∅ [(0x100000, 8388608)] {[2 := mkSlot 0x7000000000 8388608 0x100000]})
    (mkBanks [mkBank 0x100000 0x7000000000 2 2 2048 2] 5 0x7000000000 0x7000800000 3 0 2048 8192)) as -> by reflexivity.
  constructor; simpl; rewrite ?Forall_singleton; try done.
  apply elem_of_cons. by left.
Qed.

Lemma new_page_ok_witness :
  wp (@new_hugepage (bump_host (2 ^ 47)))
    (fun pg s' => banks_inv s' /\ banks_ext demo_bs s' /\ page_from demo_bs s' 512 pg /\
       p_addr pg mod (4096 * 512) = 0)
    (fun _ s' => keeps_live (bs_host demo_bs) (bs_host s')) demo_bs.
Proof.
  apply (@new_page_ok (bump_host (2 ^ 47)) (bump_host_laws (2 ^ 47) ltac:(lia)) demo_bs true), demo_bs_inv.
Defined.

Lemma banks_reset_ok_witness :
  wp (@banks_reset (bump_host (2 ^ 47)) demo_options)
    (fun _ s' => banks_inv s' /\ m_mem (bs_banks s') = reset_bank <$> m_mem (bs_banks demo_bs) /\
       m_max_pages (bs_banks s') = max_cow_mem demo_options / 4096 /\
       (forall q, aligned8 q -> Exists (fun b => mem b <= q < mem b + 4096 * n_pages b) (m_mem (bs_banks demo_bs)) ->
          ld64 (h_heap (bs_host s')) q = 0) /\
       (forall q, aligned8 q -> ~ Exists (in_dirty q) (m_mem (bs_banks demo_bs)) ->
          ld64 (h_heap (bs_host s')) q = ld64 (h_heap (bs_host demo_bs)) q))
    (fun _ _ => False) demo_bs.
Proof.
  apply (@banks_reset_ok (bump_host (2 ^ 47)) demo_bs demo_options);
    [exact demo_bs_inv|reflexivity|vm_compute; intuition congruence|vm_compute; congruence].
Defined.

(** *** Behaviours worth knowing *)

(** When the host refuses the mapping, the exception leaves a bank behind whose memory is at
    [MAP_FAILED]; the next request takes a page from it. *)
Example failed_mmap_leaves_bank :
  let os := bump_host 0x100000 in
  let s := @run_bs _ os (@MemoryBanks_new demo_options ;;; @new_page os) demo_bs0 in
  m_mem (bs_banks s) = [mkBank MAP_FAILED 0x7000000000 0 0 2048 2] /\
  fst (@new_page os s) = Ok (mkPage MAP_FAILED 0x7000000000 4096 false).
Proof. vm_compute. split; reflexivity. Qed.

(** A reset that raises the page limit does not reserve room in the vector of banks: once
    the old limit is passed the vector reallocates, and the memory of the banks in use is
    unmapped. *)
Example reset_limit_unmaps_banks :
  let os := bump_host (2 ^ 47) in
  let small := mkBankOptions 0x1000000 0 0 0x200000 in
  let large := mkBankOptions 0x4000000 0 0 0x200000 in
  let fill := for_range 13 0 (fun _ => @new_hugepage os ;;; ret tt) in
  let s := @run_bs _ os (@MemoryBanks_new small ;;; @banks_reset os large ;;; fill) demo_bs0 in
  length (m_mem (bs_banks s)) = 4%nat /\ length (h_live (bs_host s)) = 1%nat.
Proof. vm_compute. split; reflexivity. Qed.

(** A failing [madvise] is not noticed: the page handed out after the reset still has the
    old contents, and is not marked dirty. *)
Definition no_madvise : HostOS := {|
  os_mmap := @os_mmap (bump_host (2 ^ 47)); os_madvise _ _ _ := false;
  kvm_accepts := @kvm_accepts (bump_host (2 ^ 47)) |}.
Example failed_madvise_leaks :
  let touch := (let! pg := @new_page no_madvise in
    on_host (on_heap (fun h => st64 h (pmem pg) 42)) ;;; ret pg) in
  let s := @run_bs _ no_madvise (@MemoryBanks_new demo_options ;;; touch ;;; @banks_reset no_madvise demo_options) demo_bs0 in
  match @new_page no_madvise s with
  | (Ok pg, s') => p_dirty pg = false /\ ld64 (h_heap (bs_host s')) (pmem pg) = 42
  | _ => False
  end.
Proof. vm_compute. split; reflexivity. Qed.
