(* ===== verification/VMemory.v ===== *)
(** * Guest memory of a machine

    [vMemory] (lib/tinykvm/memory.hpp, memory.cpp) and [VirtualMem] (virtual_mem.hpp):
    the main memory of a virtual machine, its memory banks, its file mappings, and the
    way a guest-physical address is resolved to a host pointer.

    The fields [m_forked], [m_prepped], [m_kernel_end] and [remote] are the fields of the
    owning [Machine] that these functions read.  [remote] is the memory of the machine
    this one is connected to; connections are not cyclic here (a pair of machines
    connected to each other recurses without end on an address neither has). *)
From S2P Require Import Prelude Host MemoryBanks.
From stdpp Require Import base tactics list numbers strings gmap.
From Stdlib Require Import ZArith Lia Bool.
Local Open Scope Z_scope.

Definition PAGE_SIZE : Z := 4096.
Definition MMAP_PHYS_BASE : Z := 0x4000000000.
Definition PT_ADDR : Z := 0x9000.
Definition IST_ADDR : Z := 0x3000.
Definition VSYS_ADDR : Z := 0x6000.
Definition TSS_SMP_ADDR : Z := 0x7000.
Definition INTR_ASM_ADDR : Z := 0x2000.
Definition USER_ASM_ADDR : Z := 0x5000.

(** ** Data *)

Record VirtualMem := mkVirtualMem {
  v_physbase : Z;
  v_ptr : Z;
  v_virtbase : Z;
  v_size : Z;
  v_remote_end : Z;
  v_bank_idx : Z;
  v_filename : string }.

Definition VirtualMem_new (physical p s r : Z) : VirtualMem := mkVirtualMem physical p 0 s r 0 "".

(** [VirtualMem::overlaps] and [overlaps_physical] are the same test on two fields. *)
Definition base_overlaps (base sz vbase vsize : Z) : bool :=
  if (vbase ⊕ vsize <=? base) || (base ⊕ sz <=? vbase) then false
  else (base <=? vbase ⊕ vsize) && (vbase <=? base ⊕ sz).
Definition overlaps (v : VirtualMem) (vbase vsize : Z) : bool :=
  base_overlaps (v_virtbase v) (v_size v) vbase vsize.
Definition overlaps_physical (v : VirtualMem) (pbase psize : Z) : bool :=
  base_overlaps (v_physbase v) (v_size v) pbase psize.

Definition to_vmem (b : MemoryBank) : VirtualMem := VirtualMem_new (b_addr b) (mem b) (bank_size b) 0.

Inductive vMemory : Type := mkVMem {
  cow_written_pages : list Z;
  physbase : Z;
  safebase : Z;
  page_tables : Z;
  unlocked_pages : Z;
  ptr : Z;
  size : Z;
  owned : bool;
  snapshot_fd : Z;
  remote_end : Z;
  remote_must_update_gigapages : bool;
  main_memory_writes : bool;
  split_hugepages : bool;
  executable_heap : bool;
  mmap_backed_files : bool;
  banks : MemoryBanks;
  mmap_ranges : list VirtualMem;
  foreign_banks : list Z;
  mmap_physical_begin : Z;
  mmap_physical : Z;
  m_bank_idx_free_list : list Z;
  m_forked : bool;
  m_prepped : bool;
  m_kernel_end : Z;
  remote : option vMemory }.

Definition set_cow_written_pages (m : vMemory) x : vMemory :=
  mkVMem x (physbase m) (safebase m) (page_tables m) (unlocked_pages m) (ptr m) (size m) (owned m)
    (snapshot_fd m) (remote_end m) (remote_must_update_gigapages m) (main_memory_writes m)
    (split_hugepages m) (executable_heap m) (mmap_backed_files m) (banks m) (mmap_ranges m)
    (foreign_banks m) (mmap_physical_begin m) (mmap_physical m) (m_bank_idx_free_list m) (m_forked
    m) (m_prepped m) (m_kernel_end m) (remote m).
Definition set_page_tables (m : vMemory) x : vMemory :=
  mkVMem (cow_written_pages m) (physbase m) (safebase m) x (unlocked_pages m) (ptr m) (size m)
    (owned m) (snapshot_fd m) (remote_end m) (remote_must_update_gigapages m) (main_memory_writes m)
    (split_hugepages m) (executable_heap m) (mmap_backed_files m) (banks m) (mmap_ranges m)
    (foreign_banks m) (mmap_physical_begin m) (mmap_physical m) (m_bank_idx_free_list m) (m_forked
    m) (m_prepped m) (m_kernel_end m) (remote m).
Definition set_unlocked_pages (m : vMemory) x : vMemory :=
  mkVMem (cow_written_pages m) (physbase m) (safebase m) (page_tables m) x (ptr m) (size m) (owned
    m) (snapshot_fd m) (remote_end m) (remote_must_update_gigapages m) (main_memory_writes m)
    (split_hugepages m) (executable_heap m) (mmap_backed_files m) (banks m) (mmap_ranges m)
    (foreign_banks m) (mmap_physical_begin m) (mmap_physical m) (m_bank_idx_free_list m) (m_forked
    m) (m_prepped m) (m_kernel_end m) (remote m).
Definition set_remote_must_update_gigapages (m : vMemory) x : vMemory :=
  mkVMem (cow_written_pages m) (physbase m) (safebase m) (page_tables m) (unlocked_pages m) (ptr m)
    (size m) (owned m) (snapshot_fd m) (remote_end m) x (main_memory_writes m) (split_hugepages m)
    (executable_heap m) (mmap_backed_files m) (banks m) (mmap_ranges m) (foreign_banks m)
    (mmap_physical_begin m) (mmap_physical m) (m_bank_idx_free_list m) (m_forked m) (m_prepped m)
    (m_kernel_end m) (remote m).
Definition set_main_memory_writes (m : vMemory) x : vMemory :=
  mkVMem (cow_written_pages m) (physbase m) (safebase m) (page_tables m) (unlocked_pages m) (ptr m)
    (size m) (owned m) (snapshot_fd m) (remote_end m) (remote_must_update_gigapages m) x
    (split_hugepages m) (executable_heap m) (mmap_backed_files m) (banks m) (mmap_ranges m)
    (foreign_banks m) (mmap_physical_begin m) (mmap_physical m) (m_bank_idx_free_list m) (m_forked
    m) (m_prepped m) (m_kernel_end m) (remote m).
Definition set_banks (m : vMemory) x : vMemory :=
  mkVMem (cow_written_pages m) (physbase m) (safebase m) (page_tables m) (unlocked_pages m) (ptr m)
    (size m) (owned m) (snapshot_fd m) (remote_end m) (remote_must_update_gigapages m)
    (main_memory_writes m) (split_hugepages m) (executable_heap m) (mmap_backed_files m) x
    (mmap_ranges m) (foreign_banks m) (mmap_physical_begin m) (mmap_physical m)
    (m_bank_idx_free_list m) (m_forked m) (m_prepped m) (m_kernel_end m) (remote m).
Definition set_mmap_ranges (m : vMemory) x : vMemory :=
  mkVMem (cow_written_pages m) (physbase m) (safebase m) (page_tables m) (unlocked_pages m) (ptr m)
    (size m) (owned m) (snapshot_fd m) (remote_end m) (remote_must_update_gigapages m)
    (main_memory_writes m) (split_hugepages m) (executable_heap m) (mmap_backed_files m) (banks m) x
    (foreign_banks m) (mmap_physical_begin m) (mmap_physical m) (m_bank_idx_free_list m) (m_forked
    m) (m_prepped m) (m_kernel_end m) (remote m).
Definition set_foreign_banks (m : vMemory) x : vMemory :=
  mkVMem (cow_written_pages m) (physbase m) (safebase m) (page_tables m) (unlocked_pages m) (ptr m)
    (size m) (owned m) (snapshot_fd m) (remote_end m) (remote_must_update_gigapages m)
    (main_memory_writes m) (split_hugepages m) (executable_heap m) (mmap_backed_files m) (banks m)
    (mmap_ranges m) x (mmap_physical_begin m) (mmap_physical m) (m_bank_idx_free_list m) (m_forked
    m) (m_prepped m) (m_kernel_end m) (remote m).
Definition set_m_bank_idx_free_list (m : vMemory) x : vMemory :=
  mkVMem (cow_written_pages m) (physbase m) (safebase m) (page_tables m) (unlocked_pages m) (ptr m)
    (size m) (owned m) (snapshot_fd m) (remote_end m) (remote_must_update_gigapages m)
    (main_memory_writes m) (split_hugepages m) (executable_heap m) (mmap_backed_files m) (banks m)
    (mmap_ranges m) (foreign_banks m) (mmap_physical_begin m) (mmap_physical m) x (m_forked m)
    (m_prepped m) (m_kernel_end m) (remote m).
Definition set_m_prepped (m : vMemory) x : vMemory :=
  mkVMem (cow_written_pages m) (physbase m) (safebase m) (page_tables m) (unlocked_pages m) (ptr m)
    (size m) (owned m) (snapshot_fd m) (remote_end m) (remote_must_update_gigapages m)
    (main_memory_writes m) (split_hugepages m) (executable_heap m) (mmap_backed_files m) (banks m)
    (mmap_ranges m) (foreign_banks m) (mmap_physical_begin m) (mmap_physical m)
    (m_bank_idx_free_list m) (m_forked m) x (m_kernel_end m) (remote m).
Definition set_m_kernel_end (m : vMemory) x : vMemory :=
  mkVMem (cow_written_pages m) (physbase m) (safebase m) (page_tables m) (unlocked_pages m) (ptr m)
    (size m) (owned m) (snapshot_fd m) (remote_end m) (remote_must_update_gigapages m)
    (main_memory_writes m) (split_hugepages m) (executable_heap m) (mmap_backed_files m) (banks m)
    (mmap_ranges m) (foreign_banks m) (mmap_physical_begin m) (mmap_physical m)
    (m_bank_idx_free_list m) (m_forked m) (m_prepped m) x (remote m).
Definition set_mmap_physical (m : vMemory) x : vMemory :=
  mkVMem (cow_written_pages m) (physbase m) (safebase m) (page_tables m) (unlocked_pages m) (ptr m)
    (size m) (owned m) (snapshot_fd m) (remote_end m) (remote_must_update_gigapages m)
    (main_memory_writes m) (split_hugepages m) (executable_heap m) (mmap_backed_files m) (banks m)
    (mmap_ranges m) (foreign_banks m) (mmap_physical_begin m) x
    (m_bank_idx_free_list m) (m_forked m) (m_prepped m) (m_kernel_end m) (remote m).
Definition set_remote (m : vMemory) x : vMemory :=
  mkVMem (cow_written_pages m) (physbase m) (safebase m) (page_tables m) (unlocked_pages m) (ptr m)
    (size m) (owned m) (snapshot_fd m) (remote_end m) (remote_must_update_gigapages m)
    (main_memory_writes m) (split_hugepages m) (executable_heap m) (mmap_backed_files m) (banks m)
    (mmap_ranges m) (foreign_banks m) (mmap_physical_begin m) (mmap_physical m)
    (m_bank_idx_free_list m) (m_forked m) (m_prepped m) (m_kernel_end m) x.
(** [fork_reset(other, options)] before the banks are reset. *)
Definition adopt_main (other m : vMemory) : vMemory :=
  mkVMem (cow_written_pages m) (physbase other) (safebase other) (page_tables m) (unlocked_pages m)
    (ptr other) (size other) false (snapshot_fd m) (remote_end m) (remote_must_update_gigapages m)
    (main_memory_writes m) (split_hugepages m) (executable_heap m) (mmap_backed_files m) (banks m)
    (mmap_ranges m) (foreign_banks m) (mmap_physical_begin m) (mmap_physical m)
    (m_bank_idx_free_list m) (m_forked m) (m_prepped m) (m_kernel_end m) (remote m).

Definition has_remote (m : vMemory) : bool := match remote m with Some _ => true | None => false end.
Definition is_forked (m : vMemory) : bool := m_forked m.
Definition is_forkable_master (m : vMemory) : bool := m_prepped m.

(** ** Address resolution *)

Definition within (m : vMemory) (addr asize : Z) : bool :=
  (physbase m <=? addr) && (addr ⊕ asize <=? physbase m ⊕ size m) && (addr <=? addr ⊕ asize).

Definition safely_within (m : vMemory) (addr asize : Z) : bool :=
  (safebase m <=? addr) && (addr ⊕ asize <=? physbase m ⊕ size m).

Definition main_at (m : vMemory) (addr : Z) : Z := ptr m ⊕ (addr ⊖ physbase m).

(** The first bank holding the range, as the loops over [banks] find it. *)
Definition bank_lookup (m : vMemory) (addr asize : Z) : option Z :=
  match List.find (fun b => bank_within b addr asize) (m_mem (banks m)) with
  | Some b => Some (bank_at b addr)
  | None => None
  end.

Definition at_ (m : vMemory) (addr asize : Z) : result Z :=
  if within m addr asize then Ok (main_at m addr)
  else match bank_lookup m addr asize with
       | Some p => Ok p
       | None => Err (MemoryException "Memory::at() invalid region" addr asize false)
       end.

Definition mmap_lookup (m : vMemory) (addr : Z) : option Z :=
  match List.find (fun v => (v_physbase v <=? addr) && (addr <? v_physbase v ⊕ v_size v)) (mmap_ranges m) with
  | Some v => Some (v_ptr v ⊕ (addr ⊖ v_physbase v))
  | None => None
  end.

(** [vMemory::page_at]: the host pointer of a guest-physical page. *)
Fixpoint page_at (m : vMemory) (addr : Z) : result Z :=
  if within m addr PAGE_SIZE then Ok (main_at m addr)
  else match bank_lookup m addr PAGE_SIZE with
       | Some p => Ok p
       | None =>
           match mmap_lookup m addr with
           | Some p => Ok p
           | None =>
               match remote m with
               | Some r => page_at r addr
               | None => Err (MemoryException "Memory::page_at() invalid region" addr 4096 false)
               end
           end
       end.

(** [safely_at] looks in the banks first; its const overload in main memory first. *)
Fixpoint safely_at (m : vMemory) (addr asize : Z) : result Z :=
  match bank_lookup m addr asize with
  | Some p => Ok p
  | None =>
      if safely_within m addr asize then Ok (main_at m addr)
      else match remote m with
           | Some r => safely_at r addr asize
           | None => Err (MemoryException "Memory::safely_at() invalid region" addr asize false)
           end
  end.

Fixpoint safely_at_const (m : vMemory) (addr asize : Z) : result Z :=
  if safely_within m addr asize then Ok (main_at m addr)
  else match bank_lookup m addr asize with
       | Some p => Ok p
       | None =>
           match remote m with
           | Some r => safely_at_const r addr asize
           | None => Err (MemoryException "Memory::safely_at() invalid region" addr asize false)
           end
       end.

(** [view]: a [string_view], by its start and length.  In a bank it is made from a [char*] alone,
    so its length is that of a C string, here [None]. *)
Fixpoint memory_view (m : vMemory) (addr asize : Z) : result (Z * option Z) :=
  if safely_within m addr asize then Ok (main_at m addr, Some asize)
  else match bank_lookup m addr asize with
       | Some p => Ok (p, None)
       | None =>
           match remote m with
           | Some r => memory_view r addr asize
           | None => Err (MemoryException "vMemory::view failed" addr asize false)
           end
       end.

Definition overaligned_memsize (sz : Z) : Z := (sz ⊕ (2 ^ 21 - 1)) .& not64 (2 ^ 21 - 1).

Definition vmem (m : vMemory) : VirtualMem := VirtualMem_new (physbase m) (ptr m) (size m) (remote_end m).

Definition compare (m other : vMemory) : bool := ptr m =? ptr other.

(** [Machine::is_foreign_address] *)
Definition is_foreign_address (m : vMemory) (addr : Z) : bool :=
  match remote m with
  | Some r => (physbase r <=? addr) && (addr <? remote_end r)
  | None => false
  end.

(** ** State: a memory and the host it lives in *)

Record VM := mkVM { vhost : host; vm : vMemory }.

Definition upd (f : vMemory -> vMemory) : M VM unit := modify (fun s => mkVM (vhost s) (f (vm s))).
Definition on_vhost {A} (m : M host A) : M VM A :=
  fun s => let (r, h) := m (vhost s) in (r, mkVM h (vm s)).
(** The banks of the memory, with the host. *)
Definition on_banks {A} (m : M BS A) : M VM A :=
  fun s => let (r, b) := m (mkBS (vhost s) (banks (vm s))) in
           (r, mkVM (bs_host b) (set_banks (vm s) (bs_banks b))).

(** Loads and stores through a host pointer. *)
Definition rd (p : Z) : M VM Z := gets (fun s => ld64 (h_heap (vhost s)) p).
Definition wr (p v : Z) : M VM unit := on_vhost (on_heap (fun h => st64 h p v)).
Definition on_pages (f : heap -> heap) : M VM unit := on_vhost (on_heap f).
Definition resolve (addr : Z) : M VM Z := let! s := get in lift (page_at (vm s) addr).

Section vmemory.
Context `{os : HostOS}.

Definition vm_new_page : M VM Page := on_banks new_page.
Definition vm_new_hugepage : M VM Page := on_banks new_hugepage.

(** ** Memory slots *)

Definition allocate_region_idx : M VM Z :=
  let! s := get in
  match last (m_bank_idx_free_list (vm s)) with
  | Some idx => upd (fun m => set_m_bank_idx_free_list m (removelast (m_bank_idx_free_list m))) ;;; ret idx
  | None => on_banks banks_allocate_region_idx
  end.

Definition install_mmap_ranges (other : vMemory) : M VM unit :=
  for_each (mmap_ranges other) (fun range =>
    let! s := get in
    if existsb (fun existing => overlaps_physical existing (v_physbase range) (v_size range)) (mmap_ranges (vm s))
    then throw (RuntimeError "Overlapping mmap ranges detected")
    else
      let! region_idx := allocate_region_idx in
      on_vhost (install_memory region_idx (v_physbase range) (v_ptr range) (v_size range)) ;;;
      upd (fun m => set_mmap_ranges m (mmap_ranges m ++
        [mkVirtualMem (v_physbase range) (v_ptr range) (v_virtbase range) (v_size range)
           (v_remote_end range) region_idx (v_filename range)]))).

Definition is_foreign_range (m : vMemory) (v : VirtualMem) : bool :=
  (mmap_physical m <=? v_physbase v) || (v_physbase v <? mmap_physical_begin m).

(** The loop with [it = erase(it)] or [++it]: [kept] is the part already passed. *)
Fixpoint delete_foreign_loop (kept rest : list VirtualMem) : M VM unit :=
  match rest with
  | [] => ret tt
  | range :: rest' =>
      let! s := get in
      if is_foreign_range (vm s) range then
        on_vhost (delete_memory (v_bank_idx range)) ;;;
        upd (fun m => set_m_bank_idx_free_list m (m_bank_idx_free_list m ++ [v_bank_idx range])) ;;;
        upd (fun m => set_mmap_ranges m (kept ++ rest')) ;;;
        delete_foreign_loop kept rest'
      else delete_foreign_loop (kept ++ [range]) rest'
  end.
Definition delete_foreign_mmap_ranges : M VM unit :=
  let! s := get in delete_foreign_loop [] (mmap_ranges (vm s)).

Definition delete_foreign_banks : M VM unit :=
  let! s := get in
  for_each (foreign_banks (vm s)) (fun slot_idx =>
    on_vhost (delete_memory slot_idx) ;;;
    upd (fun m => set_m_bank_idx_free_list m (m_bank_idx_free_list m ++ [slot_idx]))) ;;;
  upd (fun m => set_foreign_banks m []).

(** ** Copy-on-write bookkeeping *)

(** [lower_bound] and [insert]. *)
Fixpoint insert_sorted (a : Z) (l : list Z) : list Z :=
  match l with
  | [] => [a]
  | x :: l' => if x <? a then x :: insert_sorted a l' else a :: l
  end.

Definition record_cow_leaf_user_page (addr : Z) : M VM unit :=
  let! s := get in
  when (is_forked (vm s)) (upd (fun m => set_cow_written_pages m (insert_sorted addr (cow_written_pages m)))).

Definition increment_unlocked_pages (pages : Z) : M VM unit :=
  let! s := get in
  if main_memory_writes (vm s) then
    upd (fun m => set_unlocked_pages m (unlocked_pages m ⊕ pages)) ;;;
    let! s := get in
    if m_max_pages (banks (vm s)) <? unlocked_pages (vm s) then
      throw (MemoryException "Out of working memory" (mul64 (unlocked_pages (vm s)) PAGE_SIZE)
        (mul64 (m_max_pages (banks (vm s))) PAGE_SIZE) true)
    else ret tt
  else throw (MemoryException
    "Memory::increment_unlocked_pages() without direct main memory writes enabled" 0 pages false).

(** [fork_reset(const vMemory&, options)] *)
Definition fork_reset_swap (other : vMemory) (o : BankOptions) : M VM unit :=
  upd (adopt_main other) ;;; on_banks (banks_reset o).
End vmemory.
