(* ===== verification/Paging.v ===== *)
(** * Page tables

    The page-table code of lib/tinykvm/amd64/paging.cpp: entry bits, the table walks
    [page_at], [readable_page_at] and [writable_page_at] with the copy-on-write steps,
    and [set_dirty].  A [uint64_t&] to an entry is the host pointer of the word that holds it. *)
From stdpp Require Import base tactics list numbers strings gmap.
From Stdlib Require Import ZArith Lia Bool.
From S2P Require Import Prelude Host MemoryBanks VMemory.
Local Open Scope Z_scope.

(** ** Entry bits (amd64/amd64.hpp) *)

Definition PDE64_PRESENT : Z := 1.
Definition PDE64_RW : Z := Z.shiftl 1 1.
Definition PDE64_USER : Z := Z.shiftl 1 2.
Definition PDE64_ACCESSED : Z := Z.shiftl 1 5.
Definition PDE64_DIRTY : Z := Z.shiftl 1 6.
Definition PDE64_PS : Z := Z.shiftl 1 7.
Definition PDE64_G : Z := Z.shiftl 1 8.
Definition PDE64_NX : Z := Z.shiftl 1 63.
Definition PDE64_CLONEABLE : Z := Z.shiftl 1 11.
Definition PDE64_PDPT_SIZE : Z := Z.shiftl 1 39.
Definition PDE64_PD_SIZE : Z := Z.shiftl 1 30.
Definition PDE64_PT_SIZE : Z := Z.shiftl 1 21.
Definition PDE64_PTE_SIZE : Z := Z.shiftl 1 12.

Definition PDE64_FLAGS : Z := 0x8000000000000FFF.
Definition PDE64_ADDR_MASK : Z := not64 PDE64_FLAGS.
Definition PDE64_CLONED_MASK : Z := PDE64_FLAGS .& not64 (PDE64_CLONEABLE .| PDE64_G).
Definition PDE64_PD_SPLIT_MASK : Z := PDE64_FLAGS .& not64 (PDE64_RW .| PDE64_CLONEABLE .| PDE64_G).

(** [if (entry & bits)] *)
Definition any_bit (entry bits : Z) : bool := negb (entry .& bits =? 0).

(** ** Indices: virtual base, target and size of an entry *)

Definition pdpt_from_index (i entry : Z) : Z * Z * Z := (i .<< 39, entry .& not64 0xFFF, 2 ^ 39).
Definition pd_from_index (i pdpt_base entry : Z) : Z * Z * Z :=
  (pdpt_base .| (i .<< 30), entry .& PDE64_ADDR_MASK, 2 ^ 30).
Definition pt_from_index (i pd_base entry : Z) : Z * Z * Z :=
  (pd_base .| (i .<< 21), entry .& PDE64_ADDR_MASK, 2 ^ 21).
Definition pte_from_index (i pt_base entry : Z) : Z * Z * Z :=
  (pt_base .| (i .<< 12), entry .& PDE64_ADDR_MASK, 2 ^ 12).

Definition index_from_pml4_entry (addr : Z) : Z := (addr .>> 39) .& 511.
Definition index_from_pdpt_entry (addr : Z) : Z := (addr .>> 30) .& 511.
Definition index_from_pd_entry (addr : Z) : Z := (addr .>> 21) .& 511.
Definition index_from_pt_entry (addr : Z) : Z := (addr .>> 12) .& 511.

Definition is_flagged_page (flags entry : Z) : bool := entry .& flags =? flags.
Definition is_copy_on_write (entry : Z) : bool :=
  entry .& (PDE64_CLONEABLE .| PDE64_RW) =? PDE64_CLONEABLE.
Definition is_copy_on_modify (entry : Z) : bool := entry .& PDE64_CLONEABLE =? PDE64_CLONEABLE.

Definition memory_exception {A} (msg : string) (addr sz : Z) : M VM A :=
  throw (MemoryException msg addr sz false).

(** ** Walks *)

(** A walk with a callback reads the tables through [mem]; the state may hold more than the
    memory, which is where a callback keeps the variables it captures by reference. *)
Section walk.
Context {S : Type} (mem : S -> VM).

Definition entry_at (p : Z) : M S Z := gets (fun s => ld64 (h_heap (vhost (mem s))) p).
Definition table_at (addr : Z) : M S Z := let! s := get in lift (page_at (vm (mem s)) addr).

Definition page_at_missing (ignore_missing : bool) (msg : string) (addr sz : Z) : M S unit :=
  if ignore_missing then ret tt else throw (MemoryException msg addr sz false).

(** [page_at(memory, addr, callback, ignore_missing)]; the callback gets an address, the
    pointer to the entry, and the page size. *)
Definition page_at_walk (addr : Z) (callback : Z -> Z -> Z -> M S unit) (ignore_missing : bool) : M S unit :=
  let! s := get in
  let! pml4 := table_at (page_tables (vm (mem s))) in
  let i := index_from_pml4_entry addr in
  let! e4 := entry_at (pml4 + 8 * i) in
  if any_bit e4 PDE64_PRESENT then
    let '(pdpt_base, pdpt_mem, _) := pdpt_from_index i e4 in
    let! pdpt := table_at pdpt_mem in
    let j := index_from_pdpt_entry addr in
    let! e3 := entry_at (pdpt + 8 * j) in
    if any_bit e3 PDE64_PRESENT then
      let '(pd_base, pd_mem, _) := pd_from_index j pdpt_base e3 in
      let! pd := table_at pd_mem in
      let k := index_from_pd_entry addr in
      let! e2 := entry_at (pd + 8 * k) in
      if any_bit e2 PDE64_PRESENT then
        let '(pt_base, pt_mem, pt_size) := pt_from_index k pd_base e2 in
        if any_bit e2 PDE64_PS then callback pt_mem (pd + 8 * k) pt_size
        else
          let! pt := table_at pt_mem in
          let e := index_from_pt_entry addr in
          let! e1 := entry_at (pt + 8 * e) in
          if any_bit e1 PDE64_PRESENT then
            let '(pte_base, _, pte_size) := pte_from_index e pt_base e1 in
            callback pte_base (pt + 8 * e) pte_size
          else page_at_missing ignore_missing "page_at: pt entry not present" addr PDE64_PTE_SIZE
      else page_at_missing ignore_missing "page_at: page table not present" addr PDE64_PT_SIZE
    else page_at_missing ignore_missing "page_at: page directory not present" addr PDE64_PD_SIZE
  else page_at_missing ignore_missing "page_at: pml4 entry not present" addr PDE64_PDPT_SIZE.
End walk.

Definition readable_page_at (addr flags : Z) : M VM Z :=
  let! s := get in
  let! pml4 := resolve (page_tables (vm s)) in
  let i := index_from_pml4_entry addr in
  let! e4 := rd (pml4 + 8 * i) in
  if is_flagged_page flags e4 then
    let '(pdpt_base, pdpt_mem, _) := pdpt_from_index i e4 in
    let! pdpt := resolve pdpt_mem in
    let j := index_from_pdpt_entry addr in
    let! e3 := rd (pdpt + 8 * j) in
    if is_flagged_page flags e3 then
      let '(pd_base, pd_mem, _) := pd_from_index j pdpt_base e3 in
      let! pd := resolve pd_mem in
      let k := index_from_pd_entry addr in
      let! e2 := rd (pd + 8 * k) in
      if is_flagged_page flags e2 then
        let '(pt_base, pt_mem, _) := pt_from_index k pd_base e2 in
        let e := index_from_pt_entry addr in
        let! pt := resolve pt_mem in
        if any_bit e2 PDE64_PS then ret (pt + e * PAGE_SIZE)
        else
          let! e1 := rd (pt + 8 * e) in
          if is_flagged_page flags e1 then
            let '(_, pte_mem, _) := pte_from_index e pt_base e1 in
            resolve pte_mem
          else memory_exception "readable_page_at: pt entry not readable" addr PDE64_PTE_SIZE
      else memory_exception "readable_page_at: page table not readable" addr PDE64_PT_SIZE
    else memory_exception "readable_page_at: page directory not readable" addr PDE64_PD_SIZE
  else memory_exception "readable_page_at: pml4 entry not readable" addr PDE64_PDPT_SIZE.

(** ** Copy-on-write steps on one entry *)

Definition unlock_identity_mapped_entry (ep : Z) : M VM unit :=
  let! e := rd ep in
  let e := e .& not64 (PDE64_CLONEABLE .| PDE64_G) in
  wr ep (e .| (PDE64_RW .| PDE64_PRESENT)).

Section paging.
Context `{os : HostOS}.

(** [entry = page.addr | (entry & PDE64_CLONED_MASK) | flags] *)
Definition update_entry (ep : Z) (page : Page) (flags : Z) : M VM unit :=
  let! e := rd ep in wr ep (p_addr page .| (e .& PDE64_CLONED_MASK) .| flags).

Definition clone_and_update_entry (ep data flags : Z) : M VM Z :=
  let! page := vm_new_page in
  on_pages (page_duplicate (pmem page) data) ;;;
  update_entry ep page flags ;;;
  ret (pmem page).

Definition zero_and_update_entry (ep flags : Z) : M VM Z :=
  let! page := vm_new_page in
  when (p_dirty page) (on_pages (page_memzero (pmem page))) ;;;
  update_entry ep page flags ;;;
  ret (pmem page).

Definition unsafe_update_entry (ep flags : Z) : M VM Z :=
  let! page := vm_new_page in
  update_entry ep page flags ;;;
  ret (pmem page).

Record WritablePage := mkWritablePage { wp_page : Z; wp_entry : Z; wp_size : Z }.
Record WritablePageOptions := mkWPO { zeroes : bool; allow_dirty : bool }.
Definition default_wpo : WritablePageOptions := mkWPO false false.

(** *** The 4K level of [writable_page_at] *)
Definition wpa_cow_pte (ep addr data : Z) (opts : WritablePageOptions) : M VM Z :=
  let! s := get in
  let! e := rd ep in
  let! data :=
    (if is_forkable_master (vm s) && main_memory_writes (vm s) then
       unlock_identity_mapped_entry ep ;;;
       increment_unlocked_pages 1 ;;;
       ret data
     else if allow_dirty opts then unsafe_update_entry ep (PDE64_RW .| PDE64_PRESENT)
     else if zeroes opts || (e .& PDE64_DIRTY =? 0) then zero_and_update_entry ep (PDE64_RW .| PDE64_PRESENT)
     else if any_bit e PDE64_PRESENT then clone_and_update_entry ep data (PDE64_RW .| PDE64_PRESENT)
     else
       let! target := resolve (e .& PDE64_ADDR_MASK) in
       on_pages (page_duplicate target data) ;;;
       let! e := rd ep in
       wr ep (e .& not64 PDE64_CLONEABLE) ;;;
       let! e := rd ep in
       wr ep (e .| (PDE64_RW .| PDE64_PRESENT)) ;;;
       ret data) in
  let! e := rd ep in
  when (any_bit e PDE64_USER) (record_cow_leaf_user_page addr) ;;;
  ret data.

Definition wpa_pt (pt k pd_base addr verify_flags : Z) (opts : WritablePageOptions) : M VM WritablePage :=
  let e := index_from_pt_entry addr in
  let ep := pt + 8 * e in
  let! entry := rd ep in
  if any_bit entry (PDE64_PRESENT .| PDE64_CLONEABLE) then
    let! data :=
      (if any_bit entry PDE64_PRESENT then resolve (entry .& not64 0x8000000000000FFF)
       else resolve (pd_base ⊕ (k .<< 21) ⊕ (e .<< 12))) in
    let! data := (if is_copy_on_write entry then wpa_cow_pte ep addr data opts else ret data) in
    let! entry := rd ep in
    if is_flagged_page verify_flags entry then ret (mkWritablePage data ep PAGE_SIZE)
    else memory_exception "page_at: pt entry not user writable" addr entry
  else memory_exception "page_at: pt entry not present" addr PDE64_PTE_SIZE.

(** *** The 2MB level *)

(** The code after [entry_is_no_longer_copy_on_write]. *)
Definition wpa_pd_settled (pd k pt pt_mem pd_base addr verify_flags : Z) (opts : WritablePageOptions) : M VM WritablePage :=
  let ep := pd + 8 * k in
  let! entry := rd ep in
  if any_bit entry PDE64_PS then
    if negb (is_flagged_page verify_flags entry) then
      memory_exception "page_at: pt entry not user writable" addr entry
    else
      let e := index_from_pt_entry addr in
      let! data := resolve pt_mem in
      ret (mkWritablePage (data + e * PAGE_SIZE) ep PDE64_PT_SIZE)
  else wpa_pt pt k pd_base addr verify_flags opts.

(** The entries of the table that replaces a 2MB page. *)
Definition split_entries (base_address branch_flags : Z) : list Z :=
  map (fun e => base_address .| (Z.of_nat e .<< 12) .| branch_flags) (seq 0 512).

(** Splitting a 2MB page: returns the new table. *)
Definition split_hugepage (ep : Z) : M VM Z :=
  let! e := rd ep in
  wr ep (e .& not64 PDE64_PS) ;;;
  let! e := rd ep in
  let flags := e .& PDE64_PD_SPLIT_MASK in
  let branch_flags := flags .| PDE64_CLONEABLE .| PDE64_G .| PDE64_PRESENT in
  let! page := vm_new_page in
  let! e := rd ep in
  let base_address := e .& PDE64_ADDR_MASK in
  on_pages (fun h => store_words h (pmem page) (split_entries base_address branch_flags)) ;;;
  wr ep (p_addr page .| flags .| PDE64_RW .| PDE64_PRESENT) ;;;
  ret (pmem page).

Definition each_4k (f : Z -> heap -> heap) (h : heap) : heap :=
  fold_left (fun h e => f (Z.of_nat e * 4096) h) (seq 0 512) h.

(** Duplicating a whole 2MB page. *)
Definition duplicate_hugepage (ep pt_mem addr verify_flags : Z) : M VM WritablePage :=
  let! e := rd ep in
  let dirty := any_bit e PDE64_DIRTY in
  let! data := resolve pt_mem in
  let! page := vm_new_hugepage in
  let! e := rd ep in
  let flags := (e .& PDE64_PD_SPLIT_MASK) .& not64 PDE64_DIRTY in
  wr ep (p_addr page .| flags .| PDE64_RW .| PDE64_PRESENT) ;;;
  let! e := rd ep in
  if negb (is_flagged_page verify_flags e) then
    memory_exception "page_at: pt entry not user writable" addr e
  else
    (if dirty then on_pages (each_4k (fun off => page_duplicate (pmem page + off) (data + off)))
     else when (p_dirty page) (on_pages (each_4k (fun off => page_memzero (pmem page + off))))) ;;;
    let! e := rd ep in
    when (any_bit e PDE64_USER) (record_cow_leaf_user_page addr) ;;;
    ret (mkWritablePage (pmem page + index_from_pt_entry addr * PAGE_SIZE) ep PDE64_PT_SIZE).

Definition wpa_pd (pd pd_base addr verify_flags : Z) (opts : WritablePageOptions) : M VM WritablePage :=
  let k := index_from_pd_entry addr in
  let ep := pd + 8 * k in
  let! entry := rd ep in
  if any_bit entry (PDE64_PRESENT .| PDE64_CLONEABLE) then
    let '(pt_base, pt_mem, _) := pt_from_index k pd_base entry in
    let! pt :=
      (if any_bit entry PDE64_PRESENT then resolve (entry .& not64 0x8000000000000FFF)
       else resolve (pd_base ⊕ (k .<< 21))) in
    let! s := get in
    if is_copy_on_write entry then
      if main_memory_writes (vm s) then
        unlock_identity_mapped_entry ep ;;;
        let! e := rd ep in
        when (any_bit e PDE64_PS) (increment_unlocked_pages 512) ;;;
        wpa_pd_settled pd k pt pt_mem pd_base addr verify_flags opts
      else if split_hugepages (vm s) && any_bit entry PDE64_PS then
        let! pt := split_hugepage ep in
        let! pt := clone_and_update_entry ep pt (PDE64_RW .| PDE64_PRESENT) in
        wpa_pd_settled pd k pt pt_mem pd_base addr verify_flags opts
      else if any_bit entry PDE64_PS then duplicate_hugepage ep pt_mem addr verify_flags
      else
        let! pt := clone_and_update_entry ep pt (PDE64_RW .| PDE64_PRESENT) in
        wpa_pd_settled pd k pt pt_mem pd_base addr verify_flags opts
    else wpa_pd_settled pd k pt pt_mem pd_base addr verify_flags opts
  else memory_exception "page_at: page table not present" addr PDE64_PT_SIZE.

(** *** The 1GB and 512GB levels *)
Definition wpa_pdpt (pdpt pdpt_base addr verify_flags : Z) (opts : WritablePageOptions) : M VM WritablePage :=
  let j := index_from_pdpt_entry addr in
  let ep := pdpt + 8 * j in
  let! entry := rd ep in
  if any_bit entry PDE64_PRESENT then
    let '(pd_base, pd_mem, _) := pd_from_index j pdpt_base entry in
    let! pd := resolve pd_mem in
    let! s := get in
    let! pd :=
      (if is_copy_on_write entry then
         if main_memory_writes (vm s) then unlock_identity_mapped_entry ep ;;; ret pd
         else
           let! pd := clone_and_update_entry ep pd PDE64_RW in
           upd (fun m => set_remote_must_update_gigapages m true) ;;;
           ret pd
       else ret pd) in
    wpa_pd pd pd_base addr verify_flags opts
  else memory_exception "page_at: page directory not present" addr PDE64_PD_SIZE.

Definition writable_page_at (addr verify_flags : Z) (opts : WritablePageOptions) : M VM WritablePage :=
  let! s := get in
  let! pml4 := resolve (page_tables (vm s)) in
  let i := index_from_pml4_entry addr in
  let ep := pml4 + 8 * i in
  let! entry := rd ep in
  if any_bit entry PDE64_PRESENT then
    let '(pdpt_base, pdpt_mem, _) := pdpt_from_index i entry in
    let! pdpt := resolve pdpt_mem in
    let! s := get in
    let! pdpt :=
      (if is_copy_on_write entry then
         if main_memory_writes (vm s) then unlock_identity_mapped_entry ep ;;; ret pdpt
         else clone_and_update_entry ep pdpt PDE64_RW
       else ret pdpt) in
    wpa_pdpt pdpt pdpt_base addr verify_flags opts
  else memory_exception "page_at: pml4 entry not present" addr PDE64_PDPT_SIZE.

(** [WritablePage::set_dirty] *)
Definition set_dirty (w : WritablePage) : M VM unit :=
  let! e := rd (wp_entry w) in wr (wp_entry w) (e .| PDE64_DIRTY).
End paging.
