(* ===== verification/ForkIsolation.v ===== *)
(** * Forks do not write to the memory of their master

    A fork shares the main memory of its master and the master's page tables; its own
    pages come from memory banks.  This file shows that [writable_page_at] on a fork
    changes no word of main memory, hands out only pages of the fork's banks when a
    writable page is asked for, and preserves the invariant that makes this true.

    The invariant types the pages of the banks: [Ψ p = Some n] says that the page at host
    address [p] is a page table of level [n] (4 is the PML4, 1 is a table of 4K pages) or,
    for [n = 0], a data page. *)
From stdpp Require Import base tactics list numbers strings gmap.
From Stdlib Require Import ZArith Lia Bool.
From S2P Require Import Prelude Host MemoryBanks VMemory Paging.
Local Open Scope Z_scope.

(** ** What an entry means *)

(** Does a walk look behind the entry at this level? *)
Definition walkable (n : nat) (E : Z) : bool :=
  match n with
  | 1%nat | 2%nat => any_bit E (PDE64_PRESENT .| PDE64_CLONEABLE)
  | _ => any_bit E PDE64_PRESENT
  end.

Definition leaf (n : nat) (E : Z) : bool :=
  match n with
  | 1%nat => true
  | 2%nat => any_bit E PDE64_PS
  | _ => false
  end.

Definition target (n : nat) (E : Z) : Z :=
  match n with
  | 4%nat => E .& not64 0xFFF
  | _ => E .& PDE64_ADDR_MASK
  end.

Definition in_main (m : vMemory) (a : Z) : Prop := within m a PAGE_SIZE = true.
Definition bank_target (m : vMemory) (a p : Z) : Prop :=
  within m a PAGE_SIZE = false /\ bank_lookup m a PAGE_SIZE = Some p.

(** A table in main memory.  With [own] it is reached through a copy-on-write entry, so it is
    copied before it is written; without, nothing below it may be copy-on-write or writable. *)
Fixpoint frozen (n : nat) (own : bool) (m : vMemory) (h : heap) (p : Z) : Prop :=
  match n with
  | O => True
  | S n' => forall i, 0 <= i < 512 ->
      let E := ld64 h (p + 8 * i) in
      walkable n E = true ->
      any_bit E PDE64_PRESENT = true /\
      if is_copy_on_write E then
        own = true /\
        (leaf n E = true \/ in_main m (target n E) /\ frozen n' true m h (main_at m (target n E)))
      else if leaf n E then any_bit E PDE64_RW = false
      else in_main m (target n E) /\ frozen n' false m h (main_at m (target n E))
  end.

Definition typing := Z -> option nat.

(** A writable leaf points to data pages of the banks. *)
Definition leaf_owned (Ψ : typing) (m : vMemory) (n : nat) (E : Z) : Prop :=
  exists p, bank_target m (target n E) p /\
    forall j, 0 <= j < (match n with 2%nat => 512 | _ => 1 end) ->
      bank_target m (target n E + 4096 * j) (p + 4096 * j) /\ Ψ (p + 4096 * j) = Some 0%nat.

Definition entry_ok (Ψ : typing) (m : vMemory) (h : heap) (n : nat) (E : Z) : Prop :=
  walkable n E = true ->
  any_bit E PDE64_PRESENT = true /\
  if is_copy_on_write E then
    leaf n E = true \/ in_main m (target n E) /\ frozen (pred n) true m h (main_at m (target n E))
  else if leaf n E then any_bit E PDE64_RW = true -> leaf_owned Ψ m n E
  else (exists p, bank_target m (target n E) p /\ Ψ p = Some (pred n)) \/
       in_main m (target n E) /\ frozen (pred n) false m h (main_at m (target n E)).

(** ** The invariant of a fork *)

Definition bank_page (b : MemoryBank) (p : Z) : Prop :=
  exists k, 0 <= k < n_dirty b /\ p = mem b + 4096 * k.
Definition owned_page (m : vMemory) (p : Z) : Prop := Exists (fun b => bank_page b p) (m_mem (banks m)).
Definition in_page (p q : Z) : Prop := p <= q < p + 4096.
Definition main_word (m : vMemory) (q : Z) : Prop := aligned8 q /\ ptr m <= q < ptr m + size m.

Record main_ok (m : vMemory) (live : list (Z * Z)) : Prop := {
  mo_ptr : ptr m mod 4096 = 0 /\ 0 < ptr m /\ ptr m + size m <= 2 ^ 47;
  mo_phys : physbase m mod 4096 = 0 /\ 0 <= physbase m /\ 0 <= size m;
  mo_arena : physbase m + size m <= m_arena_next (banks m);
  mo_banks : Forall (fun b => physbase m + size m <= b_addr b) (m_mem (banks m));
  mo_live : (ptr m, size m) ∈ live;
  mo_apart : Forall (fun b => ranges_apart (ptr m, size m) (bank_map b)) (m_mem (banks m)) }.

Record fork_inv (Ψ : typing) (s : VM) : Prop := {
  fi_banks : banks_inv (mkBS (vhost s) (banks (vm s)));
  fi_cow : main_memory_writes (vm s) = false;
  fi_main : main_ok (vm s) (h_live (vhost s));
  fi_typed : forall p n, Ψ p = Some n -> owned_page (vm s) p;
  fi_root : exists p, bank_target (vm s) (page_tables (vm s)) p /\ Ψ p = Some 4%nat;
  fi_tables : forall p n, Ψ p = Some (S n) -> forall i, 0 <= i < 512 ->
    entry_ok Ψ (vm s) (h_heap (vhost s)) (S n) (ld64 (h_heap (vhost s)) (p + 8 * i)) }.

Definition root_ok (Ψ : typing) (s : VM) : Prop :=
  exists p, bank_target (vm s) (page_tables (vm s)) p /\ Ψ p = Some 4%nat.
Definition tables_ok (Ψ : typing) (s : VM) : Prop :=
  forall p n, Ψ p = Some (S n) -> forall i, 0 <= i < 512 ->
    entry_ok Ψ (vm s) (h_heap (vhost s)) (S n) (ld64 (h_heap (vhost s)) (p + 8 * i)).

(** The invariant without the root and the contents of the tables. *)
Record core_inv (Ψ : typing) (s : VM) : Prop := {
  co_banks : banks_inv (mkBS (vhost s) (banks (vm s)));
  co_cow : main_memory_writes (vm s) = false;
  co_main : main_ok (vm s) (h_live (vhost s));
  co_typed : forall p n, Ψ p = Some n -> owned_page (vm s) p }.

Lemma fork_inv_core Ψ s : fork_inv Ψ s <-> core_inv Ψ s /\ root_ok Ψ s /\ tables_ok Ψ s.
Proof. split; [intros []; by split_and!|intros ([]&?&?); by split]. Qed.

(** What an operation of the fork leaves alone. *)
Definition same_main (m m' : vMemory) : Prop :=
  ptr m' = ptr m /\ size m' = size m /\ physbase m' = physbase m /\ page_tables m' = page_tables m /\
  main_memory_writes m' = main_memory_writes m /\ split_hugepages m' = split_hugepages m.
Definition main_unchanged (s s' : VM) : Prop :=
  same_main (vm s) (vm s') /\
  forall q, main_word (vm s) q -> ld64 (h_heap (vhost s')) q = ld64 (h_heap (vhost s)) q.

Lemma same_main_refl m : same_main m m.
Proof. unfold same_main. tauto. Qed.
Lemma main_unchanged_refl s : main_unchanged s s.
Proof. split; [apply same_main_refl|done]. Qed.
Lemma main_unchanged_trans s1 s2 s3 : main_unchanged s1 s2 -> main_unchanged s2 s3 -> main_unchanged s1 s3.
Proof.
  intros [(E1&E2&E3&E4&E5&E6) H1] [(F1&F2&F3&F4&F5&F6) H2]. split.
  - unfold same_main. split_and!; congruence.
  - intros q Hq. rewrite H2, H1; [done|done|]. unfold main_word in *. rewrite E1, E2. done.
Qed.

(** ** Bits of entries *)

Lemma any_bit_land_0 E b : any_bit E b = false <-> E .& b = 0.
Proof. unfold any_bit. rewrite negb_false_iff, Z.eqb_eq. done. Qed.

Lemma land_ones12 x : x .& 0xFFF = x mod 4096.
Proof. apply (land_ones_mod x 12). lia. Qed.

(** Page-aligned addresses below 2^63 have no flag bits. *)
Lemma page_addr_flags a : 0 <= a < 2 ^ 63 -> a mod 4096 = 0 -> a .& PDE64_FLAGS = 0.
Proof.
  intros Ha Hm. change PDE64_FLAGS with (Z.lor (2 ^ 63) 0xFFF).
  rewrite Z.land_lor_distr_r, land_ones12, Hm, Z.lor_0_r.
  apply Z.bits_inj'. intros n Hn. rewrite Z.land_spec, Z.bits_0, Z.pow2_bits_eqb by lia.
  destruct (Z.eqb_spec 63 n) as [<-|]; [|apply andb_false_r].
  destruct (decide (a = 0)) as [->|]; [by rewrite Z.bits_0|].
  rewrite Z.bits_above_log2; [done|lia|]. apply Z.log2_lt_pow2; lia.
Qed.

Lemma land_flags_split x b : b .& PDE64_FLAGS = b -> x .& PDE64_FLAGS = 0 -> x .& b = 0.
Proof. intros Hb Hx. by rewrite <- Hb, (Z.land_comm b), Z.land_assoc, Hx. Qed.

Lemma target_mask_lnot x : x .& PDE64_FLAGS = 0 -> u64 x -> x .& PDE64_ADDR_MASK = x.
Proof.
  intros Hf Hx. apply Z.bits_inj'. intros n Hn. rewrite Z.land_spec.
  destruct (decide (n < 64)); [|by rewrite (testbit_high x) by (done || lia)].
  unfold PDE64_ADDR_MASK. rewrite testbit_not64 by (done || lia).
  apply (f_equal (fun z => Z.testbit z n)) in Hf. rewrite Z.land_spec, Z.bits_0 in Hf.
  destruct (Z.testbit x n), (Z.testbit PDE64_FLAGS n); done.
Qed.

Lemma flags_no_addr f : f .& PDE64_FLAGS = f -> f .& PDE64_ADDR_MASK = 0.
Proof. intros <-. by rewrite <- Z.land_assoc, Z.land_0_r. Qed.

Section entries.
Context (a f : Z) (Ha : 0 <= a < 2 ^ 63) (Hal : a mod 4096 = 0) (Hf : f .& PDE64_FLAGS = f).

(** An entry made of a page address and flags. *)
Lemma entry_target : (a .| f) .& PDE64_ADDR_MASK = a.
Proof.
  rewrite Z.land_lor_distr_l, (flags_no_addr f Hf), Z.lor_0_r.
  apply target_mask_lnot; [by apply page_addr_flags|]. unfold u64. lia.
Qed.

Lemma entry_bits b : b .& PDE64_FLAGS = b -> (a .| f) .& b = f .& b.
Proof.
  intros Hb. rewrite Z.land_lor_distr_l, (land_flags_split a b Hb) by by apply page_addr_flags.
  apply Z.lor_0_l.
Qed.
Lemma entry_any_bit b : b .& PDE64_FLAGS = b -> any_bit (a .| f) b = any_bit f b.
Proof. intros Hb. unfold any_bit. by rewrite entry_bits. Qed.
End entries.

(** ** Resolution of addresses *)

Lemma target_aligned n E : target n E mod 4096 = 0 /\ u64 (target n E).
Proof.
  assert (forall x m, 0 <= m < W64 -> m .& 0xFFF = 0 -> (x .& m) mod 4096 = 0 /\ u64 (x .& m)) as H.
  { intros x m Hm Hz. split.
    - rewrite <- land_ones12, <- Z.land_assoc, Hz. apply Z.land_0_r.
    - rewrite Z.land_comm. destruct (decide (m = 0)) as [->|]; [done|]. split; [apply Z.land_nonneg; lia|].
      eapply Z.le_lt_trans; [|apply Hm]. apply Z.ldiff_le; [lia|].
      apply Z.bits_inj'. intros k Hk. rewrite Z.ldiff_spec, Z.land_spec, Z.bits_0.
      by destruct (Z.testbit m k), (Z.testbit x k). }
  unfold target. destruct n as [|[|[|[|[]]]]]; apply H; done.
Qed.

Section resolution.
Context (m : vMemory) (live : list (Z * Z)) (host0 : host).
Context (Hb : banks_inv (mkBS host0 (banks m))) (Hm : main_ok m live).

Lemma main_bound : physbase m + size m <= 2 ^ 50.
Proof. destruct Hm, Hb. simpl in *. lia. Qed.

Lemma in_main_spec a : u64 a ->
  in_main m a <-> physbase m <= a /\ a + 4096 <= physbase m + size m.
Proof.
  intros Ha. pose proof main_bound. destruct Hm. unfold in_main, within, PAGE_SIZE.
  rewrite (add64_small (physbase m)) by (unfold u64; lia).
  rewrite !andb_true_iff, !Z.leb_le. unfold u64 in *.
  destruct (decide (a + 4096 < W64)).
  - rewrite add64_small by (unfold u64; lia). lia.
  - unfold add64, wrap64. rewrite (Z.mod_eq (a + 4096) W64) by lia.
    assert ((a + 4096) / W64 = 1) as -> by dlia. lia.
Qed.

Lemma main_at_spec a : u64 a -> in_main m a -> main_at m a = ptr m + (a - physbase m).
Proof.
  intros Ha H. apply in_main_spec in H as [H1 H2]; [|done]. pose proof main_bound. destruct Hm.
  unfold main_at. rewrite sub64_small, add64_small; unfold u64 in *; rewrite ?sub64_small; unfold u64; lia.
Qed.

(** The words of a page of main memory are words of main memory. *)
Lemma main_page_word a q : u64 a -> a mod 4096 = 0 -> in_main m a -> aligned8 q -> in_page (main_at m a) q -> main_word m q.
Proof.
  intros Ha Hal Hin Hq Hp. rewrite main_at_spec in Hp by done. apply in_main_spec in Hin as [??]; [|done].
  split; [done|]. unfold in_page in Hp. lia.
Qed.

Lemma main_at_aligned a : u64 a -> a mod 4096 = 0 -> in_main m a -> main_at m a mod 4096 = 0.
Proof. intros Ha Hal Hin. rewrite main_at_spec by done. destruct Hm. dlia. Qed.

Lemma bank_within_spec b a : bank_ok b -> bank_end b <= 2 ^ 50 -> u64 a ->
  bank_within b a PAGE_SIZE = true <-> b_addr b <= a /\ a + 4096 <= bank_end b.
Proof.
  intros [] He Ha. unfold bank_within, bank_end, PAGE_SIZE, bank_size in *.
  rewrite mul64_small by (unfold u64; lia). rewrite (add64_small (b_addr b)) by (unfold u64; lia).
  rewrite !andb_true_iff, !Z.leb_le. unfold u64 in *.
  destruct (decide (a + 4096 < W64)).
  - rewrite add64_small by (unfold u64; lia). lia.
  - unfold add64, wrap64. rewrite (Z.mod_eq (a + 4096) W64) by lia.
    assert ((a + 4096) / W64 = 1) as -> by dlia. lia.
Qed.

Lemma bank_bound b : b ∈ m_mem (banks m) -> bank_end b <= 2 ^ 50.
Proof.
  intros Hin. destruct Hb. simpl in *. rewrite Forall_forall in bi_arena. specialize (bi_arena b Hin).
  simpl in *. lia.
Qed.

(** A page of a bank resolves to its place in that bank. *)
Lemma bank_lookup_page i b k : m_mem (banks m) !! i = Some b -> 0 <= k < n_pages b ->
  bank_target m (b_addr b + 4096 * k) (mem b + 4096 * k).
Proof.
  intros Hi Hk. pose proof main_bound as Hmb.
  assert (b ∈ m_mem (banks m)) as Hin by (apply list_elem_of_lookup; eauto).
  pose proof (bank_bound b Hin) as Hbb.
  assert (bank_ok b) as Hok by (destruct Hb; simpl in *; by eapply (Forall_lookup_1 _ _ _ _ bi_ok)).
  pose proof Hok as []. unfold bank_end in Hbb.
  assert (u64 (b_addr b + 4096 * k)) as Hu by (unfold u64; lia). split.
  - apply not_true_iff_false. intros H. apply in_main_spec in H; [|done]. destruct Hm.
    pose proof (Forall_lookup_1 _ _ _ _ mo_banks0 Hi). simpl in *. lia.
  - unfold bank_lookup.
    assert (List.find (fun b0 => bank_within b0 (b_addr b + 4096 * k) PAGE_SIZE) (m_mem (banks m)) = Some b) as ->.
    { assert (Forall (fun b => bank_ok b /\ bank_end b <= 2 ^ 50) (m_mem (banks m))) as Hall.
      { apply Forall_forall. intros c Hc. split; [|by apply bank_bound].
        destruct Hb; simpl in *. rewrite Forall_forall in bi_ok. by apply bi_ok. }
      assert (all_apart (bank_phys <$> m_mem (banks m))) as Hap by (destruct Hb; done).
      clear Hin. revert i Hi Hall Hap. induction (m_mem (banks m)) as [|c l IH]; intros i Hi Hall Hap; [done|].
      simpl. apply Forall_cons in Hall as [[Hc He] Hall]. destruct Hap as [Hcl Hap].
      destruct i as [|i]; simpl in Hi; simplify_eq.
      - replace (bank_within b _ _) with true; [done|]. symmetry.
        apply bank_within_spec; try done. unfold bank_end. lia.
      - replace (bank_within c _ _) with false; [by apply (IH i)|]. symmetry. apply not_true_iff_false.
        rewrite bank_within_spec by done. rewrite Forall_fmap in Hcl.
        pose proof (Forall_lookup_1 _ _ _ _ Hcl Hi) as Hr. unfold ranges_apart, bank_end in *. simpl in Hr. lia. }
    unfold bank_at. rewrite sub64_small by (unfold u64; lia). rewrite add64_small by (unfold u64; lia).
    f_equal. lia.
Qed.
End resolution.

(** What resolution means for [resolve]. *)
Lemma page_at_main m a : in_main m a -> page_at m a = Ok (main_at m a).
Proof. intros H. destruct m. simpl. unfold in_main in H. by rewrite H. Qed.
Lemma page_at_bank m a p : bank_target m a p -> page_at m a = Ok p.
Proof. intros [H1 H2]. destruct m. simpl in *. by rewrite H1, H2. Qed.

(** ** Stability *)

Lemma same_main_within m m' a : same_main m m' -> within m' a PAGE_SIZE = within m a PAGE_SIZE.
Proof. intros (_&Es&Ep&_). unfold within. by rewrite Es, Ep. Qed.
Lemma same_main_in_main m m' a : same_main m m' -> in_main m' a <-> in_main m a.
Proof. intros H. unfold in_main. by rewrite (same_main_within m m'). Qed.
Lemma same_main_main_at m m' a : same_main m m' -> main_at m' a = main_at m a.
Proof. intros (Ep&_&Eb&_). unfold main_at. by rewrite Ep, Eb. Qed.
Lemma same_main_word m m' q : same_main m m' -> main_word m' q <-> main_word m q.
Proof. intros (Ep&Es&_). unfold main_word. by rewrite Ep, Es. Qed.

Lemma find_banks_le l l' a b : banks_le l l' -> List.find (fun b => bank_within b a PAGE_SIZE) l = Some b ->
  exists b', List.find (fun b => bank_within b a PAGE_SIZE) l' = Some b' /\ bank_le b b'.
Proof.
  revert l'. induction l as [|c l IH]; intros l' Hle E; [done|].
  destruct (Hle 0%nat c eq_refl) as (c'&Hc'&Hcc). destruct l' as [|c'' l']; simpl in Hc'; [done|]. simplify_eq.
  simpl in *. assert (bank_within c' a PAGE_SIZE = bank_within c a PAGE_SIZE) as ->.
  { destruct Hcc as (E1&E2&E3&_). unfold bank_within, bank_size. by rewrite E2, E3. }
  destruct (bank_within c a PAGE_SIZE); simplify_eq; [eauto|].
  apply IH; [|done]. intros i x Hx. apply (Hle (S i) x Hx).
Qed.

Lemma bank_target_stable m m' a p : same_main m m' -> banks_le (m_mem (banks m)) (m_mem (banks m')) ->
  bank_target m a p -> bank_target m' a p.
Proof.
  intros Hs Hle [H1 H2]. split; [by rewrite (same_main_within m m')|].
  unfold bank_lookup in *. destruct (List.find _ (m_mem (banks m))) as [b|] eqn:E; [|done].
  destruct (find_banks_le _ _ _ _ Hle E) as (b'&->&(Em&Ea&_)).
  unfold bank_at in *. by rewrite Em, Ea.
Qed.

Lemma root_ok_stable Ψ Ψ' s s' : same_main (vm s) (vm s') ->
  banks_le (m_mem (banks (vm s))) (m_mem (banks (vm s'))) -> (forall p n, Ψ p = Some n -> Ψ' p = Some n) ->
  root_ok Ψ s -> root_ok Ψ' s'.
Proof.
  intros Hs Hle Hsub (p&Hp&HΨ). exists p. split; [|auto]. pose proof Hs as (_&_&_&->&_).
  by eapply bank_target_stable.
Qed.

Lemma owned_page_stable m m' p : banks_le (m_mem (banks m)) (m_mem (banks m')) -> owned_page m p -> owned_page m' p.
Proof.
  intros Hle [b [Hin (k&Hk&->)]]%Exists_exists.
  apply list_elem_of_lookup in Hin as [i Hi]. destruct (Hle i b Hi) as (b'&Hi'&(Em&_&_&_&Ed)).
  apply Exists_exists. exists b'. split; [apply list_elem_of_lookup; eauto|]. exists k. rewrite Em. lia.
Qed.

Section stability.
Context (m : vMemory) (live : list (Z * Z)) (host0 : host).
Context (Hb : banks_inv (mkBS host0 (banks m))) (Hm : main_ok m live).

Lemma frozen_stable n own m' h h' a : same_main m m' ->
  (forall q, main_word m q -> ld64 h' q = ld64 h q) ->
  u64 a -> a mod 4096 = 0 -> in_main m a ->
  frozen n own m h (main_at m a) -> frozen n own m' h' (main_at m' a).
Proof.
  intros Hs Hw. rewrite (same_main_main_at m m') by done.
  revert own a. induction n as [|n IH]; intros own a Hu Hal Hin Hf; [done|].
  intros i Hi E Hwalk.
  assert (E = ld64 h (main_at m a + 8 * i)) as HE.
  { apply Hw. apply (main_page_word m live host0 Hb Hm a); try done.
    - pose proof (main_at_aligned m live host0 Hb Hm a). unfold aligned8. dlia.
    - unfold in_page. lia. }
  specialize (Hf i Hi). cbv zeta in Hf. rewrite <- HE in Hf. specialize (Hf Hwalk) as [Hp Hf].
  split; [done|]. destruct (target_aligned (S n) E) as [Hta Htu].
  assert (forall own', in_main m (target (S n) E) /\ frozen n own' m h (main_at m (target (S n) E)) ->
    in_main m' (target (S n) E) /\ frozen n own' m' h' (main_at m' (target (S n) E))) as Hrec.
  { intros own' [Hin' Hfr]. rewrite (same_main_in_main m m'), (same_main_main_at m m') by done.
    split; [done|]. by apply IH. }
  destruct (is_copy_on_write E).
  - destruct Hf as [? [?|?]]; (split; [done|]); [by left|right; by apply Hrec].
  - destruct (leaf (S n) E); [done|by apply Hrec].
Qed.

Lemma entry_ok_stable (Ψ Ψ' : typing) n m' h h' E : same_main m m' ->
  banks_le (m_mem (banks m)) (m_mem (banks m')) ->
  (forall q, main_word m q -> ld64 h' q = ld64 h q) ->
  (forall p t, Ψ p = Some t -> Ψ' p = Some t) ->
  entry_ok Ψ m h n E -> entry_ok Ψ' m' h' n E.
Proof.
  intros Hs Hle Hw HΨ Hok Hwalk. destruct (Hok Hwalk) as [Hp He]. split; [done|].
  destruct (target_aligned n E) as [Hta Htu].
  assert (forall own', in_main m (target n E) /\ frozen (pred n) own' m h (main_at m (target n E)) ->
    in_main m' (target n E) /\ frozen (pred n) own' m' h' (main_at m' (target n E))) as Hrec.
  { intros own' [Hin' Hfr]. rewrite (same_main_in_main m m') by done. split; [done|].
    by eapply frozen_stable. }
  destruct (is_copy_on_write E).
  - destruct He as [?|?]; [by left|right; by apply Hrec].
  - destruct (leaf n E).
    + intros HRW. destruct (He HRW) as (p&Hbt&Hj). exists p. split; [by eapply bank_target_stable|].
      intros j Hj'. destruct (Hj j Hj'). split; [by eapply bank_target_stable|auto].
    + destruct He as [(p&?&?)|?]; [left; exists p; split; [by eapply bank_target_stable|auto]|right; by apply Hrec].
Qed.

Lemma owned_page_spec p : owned_page m p ->
  p mod 4096 = 0 /\ 0 < p /\ forall q, in_page p q -> ~ main_word m q.
Proof.
  intros [b [Hin (k&Hk&->)]]%Exists_exists. destruct Hb. simpl in *. rewrite Forall_forall in bi_ok.
  destruct (bi_ok b Hin). destruct Hm. rewrite Forall_forall in mo_apart0. specialize (mo_apart0 b Hin).
  split_and!; [dlia|lia|]. intros q Hq [_ Hw]. unfold in_page, ranges_apart in *. simpl in *. lia.
Qed.
End stability.

(** Aligned pages are equal or have no common word. *)
Lemma page_disjoint p p' q : p mod 4096 = 0 -> p' mod 4096 = 0 -> in_page p q -> in_page p' q -> p = p'.
Proof. unfold in_page. intros. dlia. Qed.

(** ** Writing to an owned page *)

Definition with_heap (s : VM) (h : heap) : VM :=
  mkVM (mkHost h (h_live (vhost s)) (h_slots (vhost s))) (vm s).

Lemma banks_inv_write s h p : banks_inv (mkBS (vhost s) (banks (vm s))) ->
  owned_page (vm s) p ->
  (forall q, aligned8 q -> ~ in_page p q -> ld64 h q = ld64 (h_heap (vhost s)) q) ->
  banks_inv (mkBS (mkHost h (h_live (vhost s)) (h_slots (vhost s))) (banks (vm s))).
Proof.
  intros Hinv Hp Hout. pose proof Hinv as []. constructor; simpl in *; try done.
  rewrite Forall_forall in *. intros b Hb q Hq Hin. rewrite Hout; [by apply (bi_zero b Hb)|done|].
  intros Hpq. apply Exists_exists in Hp as [c [Hc (k&Hk&->)]].
  apply list_elem_of_lookup in Hb as [i Hi]. apply list_elem_of_lookup in Hc as [j Hj].
  assert (bank_ok b /\ bank_ok c) as [[] []] by (split; apply bi_ok; apply list_elem_of_lookup; eauto).
  unfold in_page in Hpq. destruct (decide (i = j)) as [->|Hne].
  { simplify_eq. lia. }
  assert (ranges_apart (bank_map b) (bank_map c)) as Hr by by eapply all_apart_lookup.
  unfold ranges_apart in Hr. simpl in Hr. lia.
Qed.

(** The general rule: the words of one owned page change, and if the page is a table its new
    entries are good. *)
Lemma fork_inv_write Ψ s h p : fork_inv Ψ s -> owned_page (vm s) p ->
  (forall q, aligned8 q -> ~ in_page p q -> ld64 h q = ld64 (h_heap (vhost s)) q) ->
  (forall n, Ψ p = Some (S n) -> forall i, 0 <= i < 512 -> entry_ok Ψ (vm s) (h_heap (vhost s)) (S n) (ld64 h (p + 8 * i))) ->
  fork_inv Ψ (with_heap s h) /\ main_unchanged s (with_heap s h).
Proof.
  intros [] Hp Hout Htab.
  destruct (owned_page_spec _ _ _ fi_banks0 fi_main0 p Hp) as (Hal&Hpos&Hnm).
  assert (forall q, main_word (vm s) q -> ld64 h q = ld64 (h_heap (vhost s)) q) as Hmain.
  { intros q Hq. apply Hout; [apply Hq|]. intros Hin. by apply (Hnm q). }
  split; [|split; [apply same_main_refl|done]].
  constructor; simpl; try done.
  - by apply (banks_inv_write s h p).
  - intros p' n Hp' i Hi. eapply entry_ok_stable; [done|done|apply same_main_refl|apply banks_le_refl|done|by intros ??|].
    destruct (decide (p' = p)) as [->|Hne]; [by apply Htab|].
    rewrite Hout; [by apply fi_tables0|..].
    + destruct (owned_page_spec _ _ _ fi_banks0 fi_main0 p' (fi_typed0 _ _ Hp')) as (Hal'&_). unfold aligned8. dlia.
    + destruct (owned_page_spec _ _ _ fi_banks0 fi_main0 p' (fi_typed0 _ _ Hp')) as (Hal'&_).
      intros Hin. apply Hne. apply (page_disjoint p' p (p' + 8 * i)); try done. unfold in_page. lia.
Qed.

(** ** Allocating a page *)

Section isolation.
Context `{os : HostOS} `{laws : !HostLaws os}.

(** A page just taken from the banks. *)
Definition fresh_page (Ψ : typing) (s s' : VM) (n : Z) (pg : Page) : Prop :=
  (forall j, 0 <= j < n -> owned_page (vm s') (pmem pg + 4096 * j) /\ Ψ (pmem pg + 4096 * j) = None) /\
  bank_target (vm s') (p_addr pg) (pmem pg) /\
  (0 <= p_addr pg < 2 ^ 63 /\ p_addr pg mod 4096 = 0) /\ p_dirty pg = false /\
  (forall q, aligned8 q -> pmem pg <= q < pmem pg + 4096 * n -> ld64 (h_heap (vhost s')) q = 0) /\
  banks_le (m_mem (banks (vm s))) (m_mem (banks (vm s'))) /\
  (forall p i, owned_page (vm s) p -> 0 <= i < 512 ->
     ld64 (h_heap (vhost s')) (p + 8 * i) = ld64 (h_heap (vhost s)) (p + 8 * i)) /\
  (forall j, 0 <= j < n -> bank_target (vm s') (p_addr pg + 4096 * j) (pmem pg + 4096 * j)).

Lemma wp_on_banks {A} (m : M BS A) Q X s :
  wp m (fun a b => Q a (mkVM (bs_host b) (set_banks (vm s) (bs_banks b))))
       (fun e b => X e (mkVM (bs_host b) (set_banks (vm s) (bs_banks b)))) (mkBS (vhost s) (banks (vm s))) ->
  wp (on_banks m) Q X s.
Proof. unfold wp, on_banks. by destruct (m _) as [[]]. Qed.

Lemma set_banks_same_main m b : same_main m (set_banks m b).
Proof. unfold same_main. tauto. Qed.

Lemma keeps_live_main m h h' q : main_ok m (h_live h) -> keeps_live h h' -> main_word m q ->
  ld64 (h_heap h') q = ld64 (h_heap h) q.
Proof. intros [] [_ Hk] [Hq Hw]. apply (Hk q (ptr m, size m)); done. Qed.

Lemma owned_word_live h m p i : banks_inv (mkBS h (banks m)) -> owned_page m p -> 0 <= i < 512 ->
  exists r, r ∈ h_live h /\ aligned8 (p + 8 * i) /\ r.1 <= p + 8 * i < r.1 + r.2.
Proof.
  intros [] [b [Hin (k&Hk&->)]]%Exists_exists Hi. simpl in *. rewrite Forall_forall in *.
  destruct (bi_ok b Hin). exists (bank_map b). split; [by apply bi_live|]. unfold aligned8. simpl.
  split; [dlia|lia].
Qed.

Lemma main_ok_ext m b' h h' : main_ok m (h_live h) ->
  banks_ext (mkBS h (banks m)) (mkBS h' b') -> main_ok (set_banks m b') (h_live h').
Proof.
  intros [] (Hk&Hle&Harena&Hnew). simpl in *. constructor; simpl; try done; try lia.
  - apply Forall_lookup. intros i b Hi. destruct (Hnew i b Hi) as [(b0&Hb0&(_&->&_))|[? _]]; [|lia].
    by apply (Forall_lookup_1 _ _ _ _ mo_banks0 Hb0).
  - by apply Hk.
  - apply Forall_lookup. intros i b Hi. destruct (Hnew i b Hi) as [(b0&Hb0&(Em&Ea&Ep&_))|[_ Hf]].
    + unfold bank_map. rewrite Em, Ep. by apply (Forall_lookup_1 _ _ _ _ mo_apart0 Hb0).
    + rewrite Forall_forall in Hf. specialize (Hf _ mo_live0). unfold ranges_apart in *. simpl in *. lia.
Qed.

Lemma alloc_core_spec Ψ s n : core_inv Ψ s -> 0 < n <= 512 ->
  wp (on_banks (let! i := get_available_bank n in get_next_page i n))
    (fun pg s' => core_inv Ψ s' /\ main_unchanged s s' /\ fresh_page Ψ s s' n pg)
    (fun _ s' => main_unchanged s s') s.
Proof.
  intros Hinv Hn. pose proof Hinv as []. apply wp_on_banks.
  eapply wp_mono; [by apply new_pages_spec| |].
  2: { intros e s' Hk. split; [apply set_banks_same_main|]. intros q Hq. by eapply keeps_live_main. }
  intros pg [h' b'] (Hbi&Hext&Hpg). simpl in *. pose proof (main_ok_ext _ _ _ _ co_main0 Hext) as Hmain'.
  destruct Hext as (Hk&Hle&Harena&Hnew). simpl in *.
  set (s' := mkVM h' (set_banks (vm s) b')).
  assert (forall p i, owned_page (vm s) p -> 0 <= i < 512 ->
    ld64 (h_heap h') (p + 8 * i) = ld64 (h_heap (vhost s)) (p + 8 * i)) as Hwords.
  { intros p i Hp Hi. destruct (owned_word_live _ _ _ _ co_banks0 Hp Hi) as (r&Hr&Hal&Hin). destruct Hk as [_ Hk].
    by apply (Hk _ r). }
  split_and!.
  - constructor; try done.
    intros p t Hp. eapply owned_page_stable; [exact Hle|by eapply co_typed0].
  - split; [apply set_banks_same_main|]. intros q Hq. by eapply keeps_live_main.
  - destruct Hpg as (i&b&Hb&H0&H1&Epm&Epa&_&Hd&Hold&_&Hz). simpl in *.
    assert (bank_ok b) as [] by (destruct Hbi; simpl in *; by eapply (Forall_lookup_1 _ _ _ _ bi_ok)).
    assert (bank_end b <= 2 ^ 50) as Hend by (apply (bank_bound (set_banks (vm s) b') h' Hbi); apply list_elem_of_lookup; eauto).
    unfold bank_end in Hend. split_and!; try done.
    + intros j Hj. split.
      * apply Exists_exists. exists b. split; [apply list_elem_of_lookup; eauto|].
        exists (n_dirty b - n + j). lia.
      * destruct (Ψ (pmem pg + 4096 * j)) as [t|] eqn:EΨ; [|done]. exfalso.
        apply co_typed0 in EΨ. apply Exists_exists in EΨ as [c [Hc (k&Hk'&Ek)]].
        apply list_elem_of_lookup in Hc as [ci Hci].
        destruct (Hle ci c Hci) as (c'&Hc'&(Em&_&Ep&_&Ed)).
        destruct (decide (ci = i)) as [->|Hne].
        { specialize (Hold c Hci). simplify_eq. lia. }
        assert (bank_ok c') as [] by (destruct Hbi; simpl in *; by eapply (Forall_lookup_1 _ _ _ _ bi_ok)).
        assert (ranges_apart (bank_map c') (bank_map b)) as Hr by (destruct Hbi; simpl in *; by eapply all_apart_lookup).
        unfold ranges_apart in Hr. simpl in Hr. lia.
    + rewrite Epa, Epm. apply (bank_lookup_page (set_banks (vm s) b') (h_live h') h' Hbi Hmain' i b); [done|lia].
    + lia.
    + rewrite Epa. lia.
    + rewrite Epa. change (2 ^ 21) with 2097152 in *. dlia.
    + intros j Hj. rewrite Epa, Epm, <- !Z.add_assoc, <- Z.mul_add_distr_l.
      apply (bank_lookup_page (set_banks (vm s) b') (h_live h') h' Hbi Hmain' i b); [done|lia].
Qed.

Lemma alloc_spec Ψ s n : fork_inv Ψ s -> 0 < n <= 512 ->
  wp (on_banks (let! i := get_available_bank n in get_next_page i n))
    (fun pg s' => fork_inv Ψ s' /\ main_unchanged s s' /\ fresh_page Ψ s s' n pg)
    (fun _ s' => main_unchanged s s') s.
Proof.
  intros Hinv Hn. pose proof Hinv as (Hcore&Hroot&Htab)%fork_inv_core.
  eapply wp_mono; [by apply alloc_core_spec| |done].
  intros pg s' (Hcore'&Hmu&Hfr). split_and!; [|done..]. destruct Hfr as (_&_&_&_&_&Hle&Hkeep&_), Hcore.
  apply fork_inv_core. split_and!; [done|eapply root_ok_stable; [apply Hmu|done|done|done]|].
  intros p t Hp i Hi.
  rewrite Hkeep by eauto.
  apply (entry_ok_stable (vm s) _ _ co_banks0 co_main0 Ψ Ψ _ _ (h_heap (vhost s)));
    [apply Hmu|done|apply Hmu|done|]. by apply Htab.
Qed.

(** ** Typing new pages, setting entries *)

Definition typed_as (Ψ : typing) (p k : Z) (n : nat) : typing :=
  fun q => if decide (p <= q < p + 4096 * k /\ (q - p) mod 4096 = 0) then Some n else Ψ q.

Lemma fork_inv_type Ψ s p k n : fork_inv Ψ s ->
  (forall j, 0 <= j < k -> owned_page (vm s) (p + 4096 * j) /\ Ψ (p + 4096 * j) = None) ->
  (n = 0%nat \/ k = 1 /\ forall i, 0 <= i < 512 ->
     entry_ok Ψ (vm s) (h_heap (vhost s)) n (ld64 (h_heap (vhost s)) (p + 8 * i))) ->
  fork_inv (typed_as Ψ p k n) s /\ (forall q t, Ψ q = Some t -> typed_as Ψ p k n q = Some t).
Proof.
  intros [] Hp Hn.
  assert (forall q, p <= q < p + 4096 * k /\ (q - p) mod 4096 = 0 -> exists j, 0 <= j < k /\ q = p + 4096 * j) as Hj.
  { intros q [H1 H2]. exists ((q - p) / 4096). dlia. }
  assert (forall q t, Ψ q = Some t -> typed_as Ψ p k n q = Some t) as Hsub.
  { intros q t Hq. unfold typed_as. destruct (decide _) as [Hd|]; [|done].
    apply Hj in Hd as (j&Hj'&->). destruct (Hp j Hj') as [_ HN]. congruence. }
  split; [|done]. constructor; try done.
  - intros q t. unfold typed_as. destruct (decide _) as [Hd|]; [|by apply fi_typed0].
    intros _. apply Hj in Hd as (j&Hj'&->). by apply Hp.
  - destruct fi_root0 as (q&?&?). exists q. auto.
  - intros q t Hq i Hi.
    apply (entry_ok_stable (vm s) _ _ fi_banks0 fi_main0 Ψ _ _ _ (h_heap (vhost s)));
      [apply same_main_refl|apply banks_le_refl|done|done|].
    unfold typed_as in Hq. destruct (decide _) as [Hd|]; [|by apply fi_tables0].
    destruct Hn as [->|[-> Hn]]; [done|]. simplify_eq.
    apply Hj in Hd as (j&?&->). assert (j = 0) as -> by lia. rewrite Z.mul_0_r, Z.add_0_r. by apply Hn.
Qed.

Lemma wp_wr p v Q X s : Q tt (with_heap s (st64 (h_heap (vhost s)) p v)) -> wp (wr p v) Q X s.
Proof. done. Qed.
Lemma wp_on_pages f Q X s : Q tt (with_heap s (f (h_heap (vhost s)))) -> wp (on_pages f) Q X s.
Proof. done. Qed.
Lemma wp_rd p Q X s : Q (ld64 (h_heap (vhost s)) p) s -> wp (rd p) Q X s.
Proof. done. Qed.
Lemma wp_resolve a Q (X : exn -> VM -> Prop) s : (forall p, page_at (vm s) a = Ok p -> Q p s) ->
  (forall e, X e s) -> wp (resolve a) Q X s.
Proof. intros H HX. unfold resolve. wp_steps. destruct (page_at (vm s) a) eqn:E; auto. Qed.

Lemma typed_page Ψ s p n : fork_inv Ψ s -> Ψ p = Some n ->
  p mod 4096 = 0 /\ 0 < p /\ owned_page (vm s) p.
Proof.
  intros [] Hp. destruct (owned_page_spec _ _ _ fi_banks0 fi_main0 p (fi_typed0 _ _ Hp)) as (?&?&_). eauto.
Qed.

Lemma fork_inv_set_entry Ψ s t n i E : fork_inv Ψ s -> Ψ t = Some (S n) -> 0 <= i < 512 ->
  entry_ok Ψ (vm s) (h_heap (vhost s)) (S n) E ->
  let s' := with_heap s (st64 (h_heap (vhost s)) (t + 8 * i) E) in
  fork_inv Ψ s' /\ main_unchanged s s'.
Proof.
  intros Hinv Ht Hi HE. destruct (typed_page _ _ _ _ Hinv Ht) as (Hal&Hpos&Hown).
  apply (fork_inv_write Ψ s _ t); [done|done|..].
  - intros q Hq Hout. apply ld64_st64_other; [unfold aligned8; dlia|done|]. intros <-. apply Hout. unfold in_page. lia.
  - intros n' Hn' j Hj. rewrite Ht in Hn'. simplify_eq.
    destruct (decide (i = j)) as [->|]; [by rewrite ld64_st64_same|].
    rewrite ld64_st64_other; [by apply fi_tables|unfold aligned8; dlia..|lia].
Qed.

(** ** The new entry of a cloned page *)

Lemma cow_cloneable_0 E : E .& PDE64_CLONEABLE = 0 -> is_copy_on_write E = false.
Proof.
  intros H. unfold is_copy_on_write. apply Z.eqb_neq. intros H'.
  apply (f_equal (fun z => z .& PDE64_CLONEABLE)) in H'.
  rewrite <- Z.land_assoc in H'. change ((PDE64_CLONEABLE .| PDE64_RW) .& PDE64_CLONEABLE) with PDE64_CLONEABLE in H'.
  rewrite H in H'. done.
Qed.

(** Flags [f] that a copied entry gets: bits of the old entry under [mask], and [set]. *)
Lemma flags_land E mask set b : (E .& mask .| set) .& b = E .& (mask .& b) .| (set .& b).
Proof. by rewrite Z.land_lor_distr_l, Z.land_assoc. Qed.

Lemma any_bit_lor x y b : any_bit (x .| y) b = any_bit x b || any_bit y b.
Proof.
  unfold any_bit. rewrite Z.land_lor_distr_l. destruct (Z.eqb_spec (x .& b) 0) as [->|Hx]; simpl.
  - by rewrite Z.lor_0_l.
  - apply negb_true_iff, Z.eqb_neq. intros [? _]%Z.lor_eq_0_iff. done.
Qed.

Lemma new_entry_ok Ψ m h n a p E mask set :
  0 <= a < 2 ^ 63 -> a mod 4096 = 0 -> bank_target m a p ->
  mask .& PDE64_FLAGS = mask -> mask .& PDE64_CLONEABLE = 0 ->
  set .& PDE64_FLAGS = set -> set .& PDE64_CLONEABLE = 0 -> set .& PDE64_PS = 0 ->
  any_bit (E .& mask .| set) PDE64_PRESENT = true ->
  (n = 3%nat -> (E .& mask .| set) .& PDE64_NX = 0) ->
  (if leaf (S n) (E .& mask .| set) then
     forall j, 0 <= j < (match n with 1%nat => 512 | _ => 1 end) ->
       bank_target m (a + 4096 * j) (p + 4096 * j) /\ Ψ (p + 4096 * j) = Some 0%nat
   else Ψ p = Some n) ->
  entry_ok Ψ m h (S n) (a .| (E .& mask .| set)).
Proof.
  intros Ha Hal Hbt Hm1 Hm2 Hs1 Hs2 Hs3 Hpres Hnx Hleaf _.
  set (f := E .& mask .| set) in *.
  assert (f .& PDE64_FLAGS = f) as Hf.
  { unfold f. by rewrite flags_land, Hm1, Hs1. }
  assert (f .& PDE64_CLONEABLE = 0) as Hc.
  { unfold f. by rewrite flags_land, Hm2, Hs2, Z.land_0_r. }
  rewrite (entry_any_bit a f Ha Hal) by reflexivity. split; [done|].
  rewrite cow_cloneable_0 by by rewrite (entry_bits a f Ha Hal).
  assert (leaf (S n) (a .| f) = leaf (S n) f) as ->.
  { unfold leaf. destruct n as [|[]]; [done| |done]. by apply (entry_any_bit a f Ha Hal). }
  assert (target (S n) (a .| f) = a) as Ht.
  { unfold target. destruct n as [|[|[|[|[]]]]]; try by apply entry_target.
    rewrite Z.land_lor_distr_l.
    assert (a .& not64 4095 = a) as ->.
    { change 4095 with (2 ^ 12 - 1). rewrite land_not_ones by (unfold u64; lia). change (2 ^ 12) with 4096. dlia. }
    rewrite <- Hf, <- Z.land_assoc. change (PDE64_FLAGS .& not64 4095) with PDE64_NX.
    rewrite Hnx by done. apply Z.lor_0_r. }
  unfold leaf_owned. rewrite Ht.
  destruct (leaf (S n) f); [|left; exists p; split; [done|exact Hleaf]].
  intros _. exists p. split; [done|]. destruct n as [|[]]; done.
Qed.

(** ** Steps of the walk *)

Definition step_ok (Ψ : typing) (s : VM) (Ψ' : typing) (s' : VM) : Prop :=
  fork_inv Ψ' s' /\ (forall p n, Ψ p = Some n -> Ψ' p = Some n) /\ main_unchanged s s'.

Lemma step_ok_refl Ψ s : fork_inv Ψ s -> step_ok Ψ s Ψ s.
Proof. intros. split_and!; [done|done|apply main_unchanged_refl]. Qed.
Lemma step_ok_trans Ψ1 s1 Ψ2 s2 Ψ3 s3 : step_ok Ψ1 s1 Ψ2 s2 -> step_ok Ψ2 s2 Ψ3 s3 -> step_ok Ψ1 s1 Ψ3 s3.
Proof. intros (?&?&?) (?&?&?). split_and!; [done|auto|by eapply main_unchanged_trans]. Qed.

Lemma fork_inv_upd Ψ s f : fork_inv Ψ s -> same_main (vm s) (f (vm s)) -> banks (f (vm s)) = banks (vm s) ->
  step_ok Ψ s Ψ (mkVM (vhost s) (f (vm s))).
Proof.
  intros [] Hs Hb. split_and!; [|done|by split].
  assert (banks_le (m_mem (banks (vm s))) (m_mem (banks (f (vm s))))) as Hle by (rewrite Hb; apply banks_le_refl).
  constructor; simpl; rewrite ?Hb; try done.
  - destruct Hs as (_&_&_&_&->&_). done.
  - destruct fi_main0, Hs as (E1&E2&E3&_). constructor; rewrite ?E1, ?E2, ?E3, ?Hb; done.
  - intros p n Hp. eapply owned_page_stable; [done|]. eauto.
  - destruct fi_root0 as (p&Hp&?). exists p. split; [|done]. pose proof Hs as (_&_&_&->&_).
    by eapply bank_target_stable.
  - intros p n Hp i Hi. eapply (entry_ok_stable (vm s)); try done. by apply fi_tables0.
Qed.

(** A page the walk reads from: a page of main memory or a typed page. *)
Definition main_page (m : vMemory) (p : Z) : Prop :=
  exists a, u64 a /\ a mod 4096 = 0 /\ in_main m a /\ p = main_at m a.

(** A table the walk is at: one of the fork's own, or an inert one in main memory. *)
Definition table_ptr (Ψ : typing) (s : VM) (n : nat) (p : Z) : Prop :=
  Ψ p = Some n \/ main_page (vm s) p /\ frozen n false (vm s) (h_heap (vhost s)) p.

Lemma frozen_entry_ok Ψ m h n own p i : frozen (S n) own m h p -> 0 <= i < 512 ->
  entry_ok Ψ m h (S n) (ld64 h (p + 8 * i)) /\
  (own = false -> walkable (S n) (ld64 h (p + 8 * i)) = true ->
     is_copy_on_write (ld64 h (p + 8 * i)) = false /\
     (leaf (S n) (ld64 h (p + 8 * i)) = true -> any_bit (ld64 h (p + 8 * i)) PDE64_RW = false)).
Proof.
  intros Hf Hi. specialize (Hf i Hi). cbv zeta in Hf. split.
  - intros Hw. destruct (Hf Hw) as [Hp He]. split; [done|].
    destruct (is_copy_on_write _); [tauto|]. destruct (leaf _ _); [|by right]. intros ?. congruence.
  - intros -> Hw. destruct (Hf Hw) as [_ He]. destruct (is_copy_on_write _); [by destruct He|]. split; [done|].
    intros Hl. by rewrite Hl in He.
Qed.

Lemma table_entry Ψ s n p i : fork_inv Ψ s -> table_ptr Ψ s (S n) p -> 0 <= i < 512 ->
  let E := ld64 (h_heap (vhost s)) (p + 8 * i) in
  entry_ok Ψ (vm s) (h_heap (vhost s)) (S n) E /\
  (walkable (S n) E = true -> is_copy_on_write E = true \/ leaf (S n) E = true /\ any_bit E PDE64_RW = true ->
   Ψ p = Some (S n)).
Proof.
  intros Hinv [Hp|[_ Hf]] Hi E.
  - split; [by apply fi_tables|done].
  - destruct (frozen_entry_ok Ψ _ _ _ _ _ _ Hf Hi) as [H1 H2]. split; [done|].
    intros Hw Hc. destruct (H2 eq_refl Hw) as [Hnc Hrw]. unfold E in *. destruct Hc as [Hc|[Hl Hc]]; [congruence|].
    by rewrite (Hrw Hl) in Hc.
Qed.

Lemma in_main_page_at m a p : in_main m a -> page_at m a = Ok p -> u64 a -> a mod 4096 = 0 ->
  p = main_at m a /\ main_page m p.
Proof. intros Hin Hp ??. rewrite page_at_main in Hp by done. simplify_eq. split; [done|]. by exists a. Qed.

(** Below an entry that is not copy-on-write, the walk is at a table again. *)
Lemma table_next Ψ s n E p : entry_ok Ψ (vm s) (h_heap (vhost s)) (S n) E -> walkable (S n) E = true ->
  is_copy_on_write E = false -> leaf (S n) E = false -> page_at (vm s) (target (S n) E) = Ok p ->
  table_ptr Ψ s n p.
Proof.
  intros Hok Hw Hc Hl Hp. destruct (Hok Hw) as [_ He]. rewrite Hc, Hl in He.
  destruct (target_aligned (S n) E) as [Hta Htu].
  destruct He as [(p'&Hbt&HΨ)|[Hin Hf]].
  - rewrite (page_at_bank _ _ _ Hbt) in Hp. simplify_eq. by left.
  - right. destruct (in_main_page_at _ _ _ Hin Hp Htu Hta) as [-> ?]. done.
Qed.

Lemma small_no_nx n E : n = 4%nat -> target n E < 2 ^ 63 -> E .& PDE64_NX = 0.
Proof.
  intros -> H. destruct (target_aligned 4 E) as [Ha [Hu _]].
  assert (target 4 E .& PDE64_FLAGS = 0) as Hf by (apply page_addr_flags; [lia|done]).
  apply (land_flags_split _ PDE64_NX) in Hf; [|reflexivity].
  unfold target in Hf. by rewrite <- Z.land_assoc in Hf.
Qed.

(** The table behind a copy-on-write entry: in main memory, its entries good once copied. *)
Lemma cow_next Ψ s n E p : fork_inv Ψ s -> entry_ok Ψ (vm s) (h_heap (vhost s)) (S n) E -> walkable (S n) E = true ->
  is_copy_on_write E = true -> leaf (S n) E = false -> page_at (vm s) (target (S n) E) = Ok p ->
  main_page (vm s) p /\ frozen n true (vm s) (h_heap (vhost s)) p /\ (n = 3%nat -> E .& PDE64_NX = 0).
Proof.
  intros [] Hok Hw Hc Hl Hp. destruct (Hok Hw) as [_ He]. rewrite Hc, Hl in He.
  destruct (target_aligned (S n) E) as [Hta Htu].
  destruct He as [|[Hin Hf]]; [done|].
  destruct (in_main_page_at _ _ _ Hin Hp Htu Hta) as [-> ?]. split_and!; [done|done|].
  intros ->. apply (small_no_nx 4 E eq_refl). pose proof (main_bound _ _ _ fi_banks0 fi_main0).
  apply (in_main_spec _ _ _ fi_banks0 fi_main0) in Hin; [|done]. lia.
Qed.

(** A source page is not a page that was just allocated. *)
Definition source_page (Ψ : typing) (m : vMemory) (p : Z) : Prop :=
  p mod 4096 = 0 /\ (main_page m p \/ exists n, Ψ p = Some n).

Lemma main_page_source Ψ s p : fork_inv Ψ s -> main_page (vm s) p -> source_page Ψ (vm s) p.
Proof.
  intros [] Hp. split; [|by left]. destruct Hp as (a&?&?&?&->).
  by apply (main_at_aligned _ _ _ fi_banks0 fi_main0).
Qed.

(** Filling a fresh page leaves the invariant and main memory alone. *)
Lemma fill_fresh Ψ s h p : fork_inv Ψ s -> owned_page (vm s) p -> Ψ p = None ->
  (forall q, aligned8 q -> ~ in_page p q -> ld64 h q = ld64 (h_heap (vhost s)) q) ->
  fork_inv Ψ (with_heap s h) /\ main_unchanged s (with_heap s h).
Proof. intros Hinv Hp HN Hout. apply (fork_inv_write Ψ s h p); try done. intros n Hn. congruence. Qed.

Lemma source_words Ψ s s' p i : fork_inv Ψ s -> source_page Ψ (vm s) p -> main_unchanged s s' ->
  (forall p i, owned_page (vm s) p -> 0 <= i < 512 ->
     ld64 (h_heap (vhost s')) (p + 8 * i) = ld64 (h_heap (vhost s)) (p + 8 * i)) -> 0 <= i < 512 ->
  ld64 (h_heap (vhost s')) (p + 8 * i) = ld64 (h_heap (vhost s)) (p + 8 * i).
Proof.
  intros [] [Hal [(a&?&?&?&->)|(n&Hn)]] [_ Hmu] Hown Hi.
  - apply Hmu. eapply (main_page_word _ _ _ fi_banks0 fi_main0); try done.
    + unfold aligned8. dlia.
    + unfold in_page. lia.
  - eauto.
Qed.

(** A page allocated now differs from every source page. *)
Lemma source_not_fresh Ψ s p pg s0 : fork_inv Ψ s -> source_page Ψ (vm s) p ->
  fresh_page Ψ s0 s 1 pg -> pmem pg <> p.
Proof.
  intros [] [_ [Hmp|(n&Hn)]] (Hfr&_) Heq; destruct (Hfr 0) as [Hown HN]; try lia;
    rewrite Z.mul_0_r, Z.add_0_r, Heq in *; [|congruence].
  destruct (owned_page_spec _ _ _ fi_banks0 fi_main0 p Hown) as (Hal&_&Hnm).
  destruct Hmp as (a&?&?&Hin&->). apply (Hnm (main_at (vm s) a)); [unfold in_page; lia|].
  apply (main_page_word _ _ _ fi_banks0 fi_main0 a); try done; [unfold aligned8; dlia|unfold in_page; lia].
Qed.

(** Flags added to an entry by the copy-on-write steps. *)
Definition cow_flags (flags : Z) : Prop := flags = PDE64_RW \/ flags = (PDE64_RW .| PDE64_PRESENT).

Lemma cow_flags_bits flags : cow_flags flags ->
  flags .& PDE64_FLAGS = flags /\ flags .& PDE64_CLONEABLE = 0 /\ flags .& PDE64_PS = 0 /\ flags .& PDE64_NX = 0.
Proof. intros [-> | ->]; done. Qed.

(** The entry [E] of [t] is replaced by one that points to the typed page [pg]. *)
Lemma update_entry_spec Ψ s t n i pg flags : fork_inv Ψ s -> Ψ t = Some (S n) -> 0 <= i < 512 ->
  Ψ (pmem pg) = Some n -> bank_target (vm s) (p_addr pg) (pmem pg) ->
  (0 <= p_addr pg < 2 ^ 63 /\ p_addr pg mod 4096 = 0) -> cow_flags flags ->
  let E := ld64 (h_heap (vhost s)) (t + 8 * i) in
  any_bit E PDE64_PRESENT = true -> (n = 3%nat -> E .& PDE64_NX = 0) -> (leaf (S n) E = true -> n = 0%nat) ->
  wp (update_entry (t + 8 * i) pg flags)
    (fun _ s' => step_ok Ψ s Ψ s' /\ any_bit (ld64 (h_heap (vhost s')) (t + 8 * i)) PDE64_PS = any_bit E PDE64_PS)
    (fun _ _ => False) s.
Proof.
  intros Hinv Ht Hi Hp Hbt [Ha Hal] Hfl E HE Hnx Hleaf. destruct (cow_flags_bits flags Hfl) as (F1&F2&F3&F4).
  unfold update_entry. wp_step. apply wp_rd. apply wp_wr. fold E. rewrite <- Z.lor_assoc.
  set (f := E .& PDE64_CLONED_MASK .| flags).
  assert (any_bit f PDE64_PRESENT = true) as Hpres.
  { unfold f. rewrite any_bit_lor. replace (any_bit (E .& PDE64_CLONED_MASK) PDE64_PRESENT) with (any_bit E PDE64_PRESENT); [by rewrite HE|].
    unfold any_bit. by rewrite <- Z.land_assoc. }
  assert (f .& PDE64_PS = E .& PDE64_PS) as Hps.
  { unfold f. rewrite flags_land, F3. by rewrite Z.lor_0_r. }
  assert (leaf (S n) f = leaf (S n) E) as Hleaf'.
  { unfold leaf. destruct n as [|[]]; try done. unfold any_bit. by rewrite Hps. }
  assert (entry_ok Ψ (vm s) (h_heap (vhost s)) (S n) (p_addr pg .| f)) as Hok.
  { apply (new_entry_ok _ _ _ _ _ (pmem pg)); try done.
    - intros ->. rewrite flags_land, F4, Z.lor_0_r. change (PDE64_CLONED_MASK .& PDE64_NX) with PDE64_NX. by apply Hnx.
    - fold f. rewrite Hleaf'. destruct (leaf (S n) E) eqn:El; [|done].
      rewrite (Hleaf eq_refl) in *. intros j Hj. assert (j = 0) as -> by lia. by rewrite Z.mul_0_r, !Z.add_0_r. }
  destruct (fork_inv_set_entry Ψ s t n i _ Hinv Ht Hi Hok) as [Hinv' Hmu].
  split; [by split_and!|]. simpl. rewrite ld64_st64_same.
  rewrite entry_any_bit; [unfold any_bit; by rewrite Hps|done|done|reflexivity].
Qed.

(** A fresh page that has been filled becomes a page of type [n]. *)
Lemma typed_fresh Ψ s0 s1 pg h n : fork_inv Ψ s1 -> fresh_page Ψ s0 s1 1 pg ->
  (forall q, aligned8 q -> ~ in_page (pmem pg) q -> ld64 h q = ld64 (h_heap (vhost s1)) q) ->
  (n = 0%nat \/ forall i, 0 <= i < 512 -> entry_ok Ψ (vm s1) (h_heap (vhost s1)) n (ld64 h (pmem pg + 8 * i))) ->
  exists Ψ', step_ok Ψ s1 Ψ' (with_heap s1 h) /\ Ψ' (pmem pg) = Some n.
Proof.
  intros Hinv (Hfr&_) Hout Hn. destruct (Hfr 0) as [Hown HN]; [lia|]. rewrite Z.mul_0_r, Z.add_0_r in *.
  destruct (fill_fresh Ψ s1 h (pmem pg)) as [Hinv1 Hmu]; [done..|].
  destruct (fork_inv_type Ψ (with_heap s1 h) (pmem pg) 1 n) as [Hinv2 Hsub]; [done| | |].
  - intros j Hj. assert (j = 0) as -> by lia. by rewrite Z.mul_0_r, Z.add_0_r.
  - destruct Hn as [->|Hn]; [by left|right]. split; [done|]. intros i Hi. simpl. destruct Hinv.
    apply (entry_ok_stable (vm s1) _ _ fi_banks0 fi_main0 Ψ Ψ _ _ (h_heap (vhost s1)));
      [apply same_main_refl|apply banks_le_refl|apply Hmu|done|by apply Hn].
  - exists (typed_as Ψ (pmem pg) 1 n). split; [by split_and!|].
    unfold typed_as. rewrite decide_True; [done|]. rewrite Z.sub_diag. split; [lia|done].
Qed.

Lemma with_heap_page s h a p : bank_target (vm s) a p -> bank_target (vm (with_heap s h)) a p.
Proof. done. Qed.

(** What a copy of a page of level [n] needs: nothing for data; for a table, a source that is
    not the new page and whose entries are good. *)
Definition copy_ok (Ψ : typing) (s : VM) (n : nat) (data : Z) : Prop :=
  n = 0%nat \/ source_page Ψ (vm s) data /\ forall j, 0 <= j < 512 ->
    entry_ok Ψ (vm s) (h_heap (vhost s)) n (ld64 (h_heap (vhost s)) (data + 8 * j)).

Lemma copied_entries Ψ s s1 pg n data : fork_inv Ψ s -> fork_inv Ψ s1 -> main_unchanged s s1 ->
  fresh_page Ψ s s1 1 pg -> copy_ok Ψ s n data -> pmem pg mod 4096 = 0 ->
  n = 0%nat \/ forall j, 0 <= j < 512 -> entry_ok Ψ (vm s1) (h_heap (vhost s1)) n
    (ld64 (page_duplicate (pmem pg) data (h_heap (vhost s1))) (pmem pg + 8 * j)).
Proof.
  intros Hinv Hinv1 Hmu1 Hfresh [->|[Hsrc Hcont]] Hpal; [by left|right]. intros j Hj.
  pose proof Hfresh as (_&_&_&_&_&Hle&Hkeep&_).
  assert (source_page Ψ (vm s1) data) as Hsrc1.
  { destruct Hsrc as [? [(a&?&?&Hin&->)|?]]; split; try done; [left|by right].
    exists a. split_and!; try done; [|symmetry]; [apply same_main_in_main with (vm s)|apply same_main_main_at]; (apply Hmu1 || done). }
  assert (pmem pg <> data) as Hne by by eapply source_not_fresh.
  destruct Hsrc as [Hdal Hsrc].
  rewrite ld64_page_duplicate by (unfold aligned8; dlia). rewrite decide_True by lia.
  replace (data + (pmem pg + 8 * j - pmem pg)) with (data + 8 * j) by lia.
  rewrite (source_words Ψ s s1) by done.
  apply (entry_ok_stable (vm s) _ _ (fi_banks _ _ Hinv) (fi_main _ _ Hinv) Ψ Ψ _ _ (h_heap (vhost s)));
    [apply Hmu1|done|apply Hmu1|done|by apply Hcont].
Qed.

Lemma clone_spec Ψ s t n i data flags : fork_inv Ψ s -> Ψ t = Some (S n) -> 0 <= i < 512 ->
  copy_ok Ψ s n data -> cow_flags flags ->
  let E := ld64 (h_heap (vhost s)) (t + 8 * i) in
  any_bit E PDE64_PRESENT = true -> (n = 3%nat -> E .& PDE64_NX = 0) -> (leaf (S n) E = true -> n = 0%nat) ->
  wp (clone_and_update_entry (t + 8 * i) data flags)
    (fun p s' => exists Ψ', step_ok Ψ s Ψ' s' /\ Ψ' p = Some n /\
       any_bit (ld64 (h_heap (vhost s')) (t + 8 * i)) PDE64_PS = any_bit E PDE64_PS)
    (fun _ s' => main_unchanged s s') s.
Proof.
  intros Hinv Ht Hi Hcont Hfl E HE Hnx Hleaf. unfold clone_and_update_entry, vm_new_page, new_page.
  wp_step. eapply wp_mono; [apply alloc_spec; [done|lia]| |done].
  intros pg s1 (Hinv1&Hmu1&Hfresh). wp_step. apply wp_on_pages.
  destruct (typed_page _ _ _ _ Hinv Ht) as (Htal&_&Htown).
  pose proof Hfresh as (Hfr&Hbt&Hpa&_&_&Hle&Hkeep&_).
  destruct (Hfr 0) as [Hown HN]; [lia|]. rewrite Z.mul_0_r, Z.add_0_r in *.
  destruct (owned_page_spec _ _ _ (fi_banks _ _ Hinv1) (fi_main _ _ Hinv1) _ Hown) as (Hpal&_&_).
  assert (aligned8 (pmem pg)) as H8p by (unfold aligned8; dlia).
  set (h := page_duplicate (pmem pg) data (h_heap (vhost s1))).
  destruct (typed_fresh Ψ s s1 pg h n) as (Ψ'&Hst&HΨ'); [done|done| |exact (copied_entries Ψ s s1 pg n data Hinv Hinv1 Hmu1 Hfresh Hcont Hpal)|].
  { intros q Hq Hout. unfold h. rewrite ld64_page_duplicate_other; done. }
  destruct Hst as (Hinv2&Hsub&Hmu2).
  assert (ld64 (h_heap (vhost (with_heap s1 h))) (t + 8 * i) = E) as HE2.
  { simpl. unfold h. rewrite ld64_page_duplicate_other; [by apply Hkeep|done|unfold aligned8; dlia|].
    intros Hin. assert (t = pmem pg) as Heq; [|congruence].
    apply (page_disjoint t (pmem pg) (t + 8 * i)); try done. unfold in_page. lia. }
  wp_step. eapply wp_mono; [apply (update_entry_spec Ψ' (with_heap s1 h) t n i); rewrite ?HE2; try done; by apply Hsub| |done].
  intros [] s3 (Hst3&Hps). wp_step. exists Ψ'. split_and!; [|done|by rewrite Hps, HE2].
  eapply step_ok_trans; [|exact Hst3]. split_and!; [done|done|by eapply main_unchanged_trans].
Qed.

(** A zeroed (or left as it is) page for a 4K entry; [k] is what happens before the entry is set. *)
Lemma zero_alloc Ψ s t i flags (k : Page -> M VM unit) : fork_inv Ψ s -> Ψ t = Some 1%nat -> 0 <= i < 512 -> cow_flags flags ->
  any_bit (ld64 (h_heap (vhost s)) (t + 8 * i)) PDE64_PRESENT = true ->
  (forall page s1, p_dirty page = false -> k page s1 = (Ok tt, s1)) ->
  wp (let! page := vm_new_page in k page ;;; update_entry (t + 8 * i) page flags ;;; ret (pmem page))
    (fun p s' => exists Ψ', step_ok Ψ s Ψ' s' /\ Ψ' p = Some 0%nat) (fun _ s' => main_unchanged s s') s.
Proof.
  intros Hinv Ht Hi Hfl HE Hk. unfold vm_new_page, new_page. wp_step.
  eapply wp_mono; [apply alloc_spec; [done|lia]| |done].
  intros pg s1 (Hinv1&Hmu1&Hfresh). pose proof Hfresh as (_&Hbt&Hpa&Hd&_&_&Hkeep&_). wp_step.
  unfold wp at 1. rewrite Hk by done. cbn beta iota.
  destruct (typed_fresh Ψ s s1 pg (h_heap (vhost s1)) 0) as (Ψ'&Hst&HΨ'); [done..|by left|].
  assert (with_heap s1 (h_heap (vhost s1)) = s1) as Es1 by by destruct s1 as [[] ?].
  rewrite Es1 in Hst. destruct Hst as (Hinv2&Hsub&_). destruct (typed_page _ _ _ _ Hinv Ht) as (_&_&Htown).
  wp_step. eapply wp_mono; [apply (update_entry_spec Ψ' s1 t 0 i); try done; try by apply Hsub|..].
  - by rewrite Hkeep.
  - intros [] s2 (Hst2&_). wp_step. exists Ψ'. split; [|done]. eapply step_ok_trans; [|exact Hst2]. by split_and!.
  - done.
Qed.

(** ** Splitting a 2MB page *)

Lemma core_inv_write Ψ s h p : core_inv Ψ s -> owned_page (vm s) p ->
  (forall q, aligned8 q -> ~ in_page p q -> ld64 h q = ld64 (h_heap (vhost s)) q) ->
  core_inv Ψ (with_heap s h) /\ main_unchanged s (with_heap s h).
Proof.
  intros [] Hp Hout. destruct (owned_page_spec _ _ _ co_banks0 co_main0 p Hp) as (_&_&Hnm).
  split; [constructor; simpl; try done; by apply (banks_inv_write s h p)|].
  split; [apply same_main_refl|]. intros q Hq. apply Hout; [apply Hq|]. intros Hin. by apply (Hnm q).
Qed.

Lemma core_inv_type Ψ s p n : core_inv Ψ s -> owned_page (vm s) p -> Ψ p = None ->
  core_inv (typed_as Ψ p 1 n) s.
Proof.
  intros [] Hp HN.
  assert (forall q t, typed_as Ψ p 1 n q = Some t -> q = p \/ Ψ q = Some t) as Hcase.
  { intros q t. unfold typed_as. destruct (decide _) as [[H1 H2]|]; [|by right]. left. dlia. }
  constructor; try done. intros q t [->|]%Hcase; eauto.
Qed.

Lemma split_entry_ok Ψ m h E e : 0 <= e < 512 ->
  entry_ok Ψ m h 1 (E .& PDE64_ADDR_MASK .| (e .<< 12) .|
    (E .& PDE64_PD_SPLIT_MASK .| PDE64_CLONEABLE .| PDE64_G .| PDE64_PRESENT)).
Proof.
  intros He _. set (f := E .& PDE64_PD_SPLIT_MASK .| PDE64_CLONEABLE .| PDE64_G .| PDE64_PRESENT).
  assert (forall b, b .& 0xFFF = b -> b .& PDE64_FLAGS = b ->
    (E .& PDE64_ADDR_MASK .| (e .<< 12) .| f) .& b = f .& b) as Hb.
  { intros b Hb1 Hb2. rewrite !Z.land_lor_distr_l, <- (Z.land_assoc E), (Z.land_comm PDE64_ADDR_MASK), (flags_no_addr b Hb2).
    rewrite Z.land_0_r, Z.lor_0_l.
    assert ((e .<< 12) .& b = 0) as ->; [|apply Z.lor_0_l].
    unfold shl64. rewrite wrap64_small by (rewrite Z.shiftl_mul_pow2 by lia; unfold u64; lia).
    rewrite <- Hb1, (Z.land_comm b), Z.land_assoc, land_ones12, Z.shiftl_mul_pow2 by lia.
    change (2 ^ 12) with 4096. by rewrite Z.mod_mul. }
  split.
  - unfold any_bit. rewrite Hb by done. unfold f. rewrite !Z.land_lor_distr_l.
    apply negb_true_iff, Z.eqb_neq. intros [_ ?]%Z.lor_eq_0_iff. done.
  - assert (is_copy_on_write (E .& PDE64_ADDR_MASK .| (e .<< 12) .| f) = true) as ->; [|by left].
    unfold is_copy_on_write. rewrite Hb by done. unfold f. rewrite !Z.land_lor_distr_l, <- Z.land_assoc.
    change (PDE64_PD_SPLIT_MASK .& (PDE64_CLONEABLE .| PDE64_RW)) with 0. by rewrite Z.land_0_r.
Qed.

Lemma nth_split_entries b f i : 0 <= i < 512 ->
  nth (Z.to_nat i) (split_entries b f) 0 = b .| (i .<< 12) .| f.
Proof.
  intros Hi. unfold split_entries.
  rewrite (nth_indep _ 0 ((fun e => b .| (Z.of_nat e .<< 12) .| f) 0%nat)) by (rewrite length_map, length_seq; lia).
  rewrite (map_nth (fun e => b .| (Z.of_nat e .<< 12) .| f)), seq_nth by lia. simpl. by rewrite Z2Nat.id by lia.
Qed.

(** The page [pg], filled as [h3] says, becomes a table of level [n] that the entry [E2] at
    [t + 8 * i] points to; up to that entry the tables are those of [s]. *)
Lemma install_table Ψ s s2 s0 t n i pg h3 E2 :
  fork_inv Ψ s -> Ψ t = Some (S n) -> 0 <= i < 512 ->
  core_inv Ψ s2 -> main_unchanged s s2 -> banks_le (m_mem (banks (vm s))) (m_mem (banks (vm s2))) ->
  fresh_page Ψ s0 s2 1 pg ->
  (forall p j, owned_page (vm s) p -> 0 <= j < 512 -> p + 8 * j <> t + 8 * i ->
     ld64 (h_heap (vhost s2)) (p + 8 * j) = ld64 (h_heap (vhost s)) (p + 8 * j)) ->
  (forall q, aligned8 q -> ~ in_page (pmem pg) q -> ld64 h3 q = ld64 (h_heap (vhost s2)) q) ->
  (forall j, 0 <= j < 512 -> entry_ok Ψ (vm s) (h_heap (vhost s)) n (ld64 h3 (pmem pg + 8 * j))) ->
  let Ψ' := typed_as Ψ (pmem pg) 1 n in
  let s4 := with_heap s2 (st64 h3 (t + 8 * i) E2) in
  (Ψ' (pmem pg) = Some n -> forall h, entry_ok Ψ' (vm s2) h (S n) E2) ->
  step_ok Ψ s Ψ' s4 /\ Ψ' (pmem pg) = Some n.
Proof.
  intros Hinv Ht Hi Hcore2 Hmu2 Hle (Hfr&_) Hkeep Hout3 Hcont Ψ' s4 HE2.
  destruct (typed_page _ _ _ _ Hinv Ht) as (Htal&_&Htown). pose proof Hinv as (Hcore&Hroot&Htab)%fork_inv_core.
  destruct (Hfr 0) as [Hown HN]; [lia|]. rewrite Z.mul_0_r, Z.add_0_r in *.
  assert (pmem pg mod 4096 = 0) as Hpmal by by apply (owned_page_spec _ _ _ (co_banks _ _ Hcore2) (co_main _ _ Hcore2) _ Hown).
  assert (t <> pmem pg) as Hne by congruence.
  assert (forall q n', Ψ q = Some n' -> Ψ' q = Some n') as Hsub.
  { intros q n' Hq. unfold Ψ', typed_as. destruct (decide _) as [[H1 H2]|]; [|done].
    assert (q = pmem pg) by dlia. congruence. }
  assert (Ψ' (pmem pg) = Some n) as HΨ'.
  { unfold Ψ', typed_as. rewrite decide_True; [done|]. rewrite Z.sub_diag. split; [lia|done]. }
  destruct (core_inv_write Ψ s2 h3 (pmem pg)) as [Hcore3 Hmu3]; [done..|].
  destruct (core_inv_write Ψ (with_heap s2 h3) (st64 h3 (t + 8 * i) E2) t) as [Hcore4 Hmu4]; [done| | |].
  { by apply (owned_page_stable (vm s)). }
  { intros q Hq Hout. apply ld64_st64_other; [unfold aligned8; dlia|done|]. intros <-. apply Hout. unfold in_page. lia. }
  assert (main_unchanged s s4) as Hmu by (eauto using main_unchanged_trans).
  split; [|done]. split_and!; [|done|done]. apply fork_inv_core.
  split_and!; [by apply core_inv_type|eapply root_ok_stable; [apply Hmu|done|done|done]|].
  intros p n' Hp j Hj. destruct Hcore.
  assert (forall n0 E0, entry_ok Ψ (vm s) (h_heap (vhost s)) n0 E0 -> entry_ok Ψ' (vm s4) (h_heap (vhost s4)) n0 E0) as Hstab.
  { intros n0 E0 Hok. apply (entry_ok_stable (vm s) _ _ co_banks0 co_main0 Ψ Ψ' n0 (vm s4) (h_heap (vhost s)));
      [apply Hmu|done|apply Hmu|done|done]. }
  assert (forall q, aligned8 q -> q <> t + 8 * i -> ld64 (h_heap (vhost s4)) q = ld64 h3 q) as Hq4.
  { intros q Hq Hne'. apply ld64_st64_other; [unfold aligned8; dlia|done|done]. }
  destruct (decide (p = pmem pg)) as [->|Hpne].
  - rewrite HΨ' in Hp. simplify_eq. rewrite Hq4; [by apply Hstab, Hcont|unfold aligned8; dlia|].
    intros Heq. apply Hne, (page_disjoint _ _ (t + 8 * i)); try done; unfold in_page; lia.
  - assert (Ψ p = Some (S n')) as Hp'.
    { unfold Ψ', typed_as in Hp. destruct (decide _) as [[H1 H2]|]; [|done]. assert (p = pmem pg) by dlia. congruence. }
    destruct (typed_page _ _ _ _ Hinv Hp') as (Hpal&_&Hpown).
    destruct (decide (p + 8 * j = t + 8 * i)) as [Heq|Hneq].
    + assert (p = t) as -> by (apply (page_disjoint _ _ (t + 8 * i)); try done; unfold in_page; lia).
      rewrite Heq. rewrite Ht in Hp'. simplify_eq. cbn [s4 with_heap vhost h_heap vm]. rewrite ld64_st64_same. by apply HE2.
    + rewrite Hq4, Hout3, Hkeep; try done; [by apply Hstab, Htab|unfold aligned8; dlia| |unfold aligned8; dlia].
      intros Hin. apply Hpne, (page_disjoint _ _ (p + 8 * j)); try done. unfold in_page. lia.
Qed.

Lemma split_spec Ψ s t i : fork_inv Ψ s -> Ψ t = Some 2%nat -> 0 <= i < 512 ->
  wp (split_hugepage (t + 8 * i))
    (fun p s' => exists Ψ', step_ok Ψ s Ψ' s' /\ Ψ' p = Some 1%nat /\
       any_bit (ld64 (h_heap (vhost s')) (t + 8 * i)) PDE64_PS = false /\
       any_bit (ld64 (h_heap (vhost s')) (t + 8 * i)) PDE64_PRESENT = true)
    (fun _ s' => main_unchanged s s') s.
Proof.
  intros Hinv Ht Hi. destruct (typed_page _ _ _ _ Hinv Ht) as (Htal&_&Htown).
  pose proof Hinv as [Hcore _]%fork_inv_core.
  set (E := ld64 (h_heap (vhost s)) (t + 8 * i)).
  unfold split_hugepage. wp_step. apply wp_rd. wp_step. apply wp_wr. fold E.
  set (E1 := E .& not64 PDE64_PS). set (s1 := with_heap s _).
  destruct (core_inv_write Ψ s (st64 (h_heap (vhost s)) (t + 8 * i) E1) t) as [Hcore1 Hmu1]; [done|done| |].
  { intros q Hq Hout. apply ld64_st64_other; [unfold aligned8; dlia|done|]. intros <-. apply Hout. unfold in_page. lia. }
  fold s1 in Hcore1, Hmu1.
  assert (ld64 (h_heap (vhost s1)) (t + 8 * i) = E1) as HE1 by apply ld64_st64_same.
  wp_step. apply wp_rd. rewrite HE1. unfold vm_new_page, new_page. wp_step.
  eapply wp_mono; [apply alloc_core_spec; [exact Hcore1|lia]| |]; swap 1 2.
  { intros e s' ?. by eapply main_unchanged_trans. }
  intros pg s2 (Hcore2&Hmu2&Hfresh). pose proof Hfresh as (Hfr&Hbt&(Hpa&Hpal)&_&_&Hle&Hkeep&_).
  wp_step. apply wp_rd. rewrite Hkeep, HE1 by done.
  set (ents := split_entries _ _).
  assert (length ents = 512%nat) as Hlen by (unfold ents, split_entries; by rewrite length_map, length_seq).
  assert (forall j, 0 <= j < 512 -> entry_ok Ψ (vm s) (h_heap (vhost s)) 1 (nth (Z.to_nat j) ents 0)) as Hents.
  { intros j Hj. unfold ents. rewrite nth_split_entries by done. by apply split_entry_ok. }
  clearbody ents. wp_step. apply wp_on_pages. wp_step. apply wp_wr. wp_step.
  cbn [with_heap vhost h_heap]. set (h3 := store_words _ _ ents). set (E2 := p_addr pg .| _ .| _ .| _).
  assert (E2 = p_addr pg .| (E .& (not64 PDE64_PS .& PDE64_PD_SPLIT_MASK) .| (PDE64_RW .| PDE64_PRESENT))) as HE2.
  { unfold E2, E1. by rewrite <- Z.land_assoc, !Z.lor_assoc. }
  assert (any_bit E2 PDE64_PS = false /\ any_bit E2 PDE64_PRESENT = true) as [Hps Hpres].
  { rewrite HE2, !entry_any_bit, !any_bit_lor by done.
    unfold any_bit at 1 3. rewrite <- !Z.land_assoc. by rewrite !orb_true_r, Z.land_0_r. }
  assert (pmem pg mod 4096 = 0) as Hpmal.
  { destruct (Hfr 0) as [Hown _]; [lia|]. rewrite Z.mul_0_r, Z.add_0_r in *.
    by apply (owned_page_spec _ _ _ (co_banks _ _ Hcore2) (co_main _ _ Hcore2) _ Hown). }
  destruct (install_table Ψ s s2 s1 t 1 i pg h3 E2) as [Hst HΨ']; try done.
  - by eapply main_unchanged_trans.
  - intros p j Hp Hj Hne. rewrite Hkeep by done. apply ld64_st64_other; [unfold aligned8; dlia| |done].
    destruct (owned_page_spec _ _ _ (co_banks _ _ Hcore) (co_main _ _ Hcore) _ Hp) as (?&_). unfold aligned8; dlia.
  - intros q Hq Hout. unfold h3. rewrite ld64_store_words by (done || (unfold aligned8; dlia)).
    rewrite decide_False; [done|]. rewrite Hlen. unfold in_page in Hout. lia.
  - intros j Hj. unfold h3. rewrite ld64_store_words by (unfold aligned8; dlia).
    rewrite decide_True by (rewrite Hlen; lia).
    replace ((pmem pg + 8 * j - pmem pg) / 8) with j by dlia. by apply Hents.
  - intros HΨ' h. rewrite HE2. apply (new_entry_ok _ _ _ 1 _ (pmem pg)); try done.
    + rewrite any_bit_lor. apply orb_true_r.
    + simpl. rewrite any_bit_lor. unfold any_bit at 1. rewrite <- Z.land_assoc.
      change (not64 PDE64_PS .& PDE64_PD_SPLIT_MASK .& PDE64_PS) with 0. by rewrite Z.land_0_r.
  - exists (typed_as Ψ (pmem pg) 1 1). split_and!; [done|done|..]; cbn [with_heap vhost h_heap]; by rewrite ld64_st64_same.
Qed.

(** ** Duplicating a 2MB page *)

Lemma each_4k_inv Ψ s p (f : Z -> heap -> heap) :
  (forall off h q, aligned8 q -> ~ in_page (p + off) q -> p mod 4096 = 0 -> off mod 4096 = 0 -> ld64 (f off h) q = ld64 h q) ->
  fork_inv Ψ s -> (forall j, 0 <= j < 512 -> Ψ (p + 4096 * j) = Some 0%nat) ->
  fork_inv Ψ (with_heap s (each_4k f (h_heap (vhost s)))) /\
  main_unchanged s (with_heap s (each_4k f (h_heap (vhost s)))).
Proof.
  intros Hf Hinv Hty. unfold each_4k.
  assert (p mod 4096 = 0) as Hal.
  { specialize (Hty 0). rewrite Z.mul_0_r, Z.add_0_r in Hty. by eapply typed_page; [|apply Hty]. }
  assert (Forall (fun e => Z.of_nat e < 512) (seq 0 512)) as Hl.
  { apply Forall_forall. intros e He. apply elem_of_seq in He. lia. }
  generalize dependent s. induction (seq 0 512) as [|e l IH]; intros s Hinv; simpl.
  - destruct s as [[] ?]. split; [done|apply main_unchanged_refl].
  - apply Forall_cons in Hl as [He Hl].
    destruct (fork_inv_write Ψ s (f (Z.of_nat e * 4096) (h_heap (vhost s))) (p + 4096 * Z.of_nat e)) as [H1 H2].
    + done.
    + eapply typed_page; [done|apply Hty; lia].
    + intros q Hq Hout. apply Hf; try done; [by rewrite (Z.mul_comm _ 4096)|apply Z.mod_mul; lia].
    + intros n Hn. rewrite Hty in Hn by lia. done.
    + destruct (IH Hl _ H1) as [H3 H4]. simpl in *. split; [done|by eapply main_unchanged_trans].
Qed.

#[local] Opaque each_4k.

Lemma record_cow_spec Ψ s addr b (Q : unit -> VM -> Prop) X : fork_inv Ψ s ->
  (forall s', step_ok Ψ s Ψ s' -> h_heap (vhost s') = h_heap (vhost s) -> Q tt s') ->
  wp (when b (record_cow_leaf_user_page addr)) Q X s.
Proof.
  intros Hinv HQ. wp_step; [|by apply HQ; [apply step_ok_refl|]].
  unfold record_cow_leaf_user_page. wp_step. wp_step. wp_step; [|by apply HQ; [apply step_ok_refl|]].
  unfold upd. wp_step. apply HQ; [|done]. by apply (fork_inv_upd Ψ s (fun m => set_cow_written_pages m _)).
Qed.

(** The entry is in a table of the fork. *)
Definition entry_owned (Ψ : typing) (ep : Z) : Prop :=
  exists t n i, Ψ t = Some (S n) /\ 0 <= i < 512 /\ ep = t + 8 * i.

(** What [writable_page_at] gives: a data page of the banks and an entry in a table of the
    banks, if it was asked for a writable page. *)
Definition writable_ok (Ψ : typing) (s : VM) (verify_flags : Z) (w : WritablePage) (s' : VM) : Prop :=
  exists Ψ', step_ok Ψ s Ψ' s' /\
    (any_bit verify_flags PDE64_RW = true -> Ψ' (wp_page w) = Some 0%nat /\ entry_owned Ψ' (wp_entry w)).

Lemma flagged_rw flags E : is_flagged_page flags E = true -> any_bit flags PDE64_RW = true -> any_bit E PDE64_RW = true.
Proof.
  unfold is_flagged_page, any_bit. rewrite Z.eqb_eq. intros H Hf. rewrite <- H, <- Z.land_assoc in Hf.
  rewrite (Z.land_comm flags), Z.land_assoc in Hf. apply negb_true_iff, Z.eqb_neq. intros H0. by rewrite H0 in Hf.
Qed.

Lemma index_bound addr k : 0 <= (addr .>> k) .& 511 < 512.
Proof.
  change 511 with (2 ^ 9 - 1). rewrite land_ones_mod by lia. change (2 ^ 9) with 512. apply Z.mod_pos_bound. lia.
Qed.

Lemma duplicate_spec Ψ s t i pt_mem addr vf : fork_inv Ψ s -> Ψ t = Some 2%nat -> 0 <= i < 512 ->
  any_bit (ld64 (h_heap (vhost s)) (t + 8 * i)) PDE64_PS = true ->
  wp (duplicate_hugepage (t + 8 * i) pt_mem addr vf) (writable_ok Ψ s vf) (fun _ s' => main_unchanged s s') s.
Proof.
  intros Hinv Ht Hi HPS. set (E := ld64 _ _) in *. unfold duplicate_hugepage. wp_step. apply wp_rd. fold E.
  wp_step. apply wp_resolve; [|intros; apply main_unchanged_refl]. intros data _.
  unfold vm_new_hugepage, new_hugepage. wp_step.
  eapply wp_mono; [apply alloc_spec; [done|lia]| |done].
  intros pg s1 (Hinv1&Hmu1&(Hfr&Hbt&(Hpa&Hpal)&Hd&_&_&Hkeep&Htg)).
  destruct (typed_page _ _ _ _ Hinv Ht) as (_&_&Htown).
  wp_step. apply wp_rd. rewrite Hkeep by done. fold E.
  destruct (fork_inv_type Ψ s1 (pmem pg) 512 0) as [Hinv2 Hsub]; [done|done|by left|].
  set (Ψ' := typed_as Ψ (pmem pg) 512 0) in *.
  assert (forall j, 0 <= j < 512 -> Ψ' (pmem pg + 4096 * j) = Some 0%nat) as HΨ'.
  { intros j Hj. unfold Ψ', typed_as. rewrite decide_True; [done|]. split; [lia|].
    replace (pmem pg + 4096 * j - pmem pg) with (j * 4096) by lia. apply Z.mod_mul. lia. }
  set (E2 := p_addr pg .| _ .| _ .| _).
  assert (E2 = p_addr pg .| (E .& (PDE64_PD_SPLIT_MASK .& not64 PDE64_DIRTY) .| (PDE64_RW .| PDE64_PRESENT))) as HE2.
  { unfold E2. by rewrite <- Z.land_assoc, !Z.lor_assoc. }
  assert (any_bit (E .& (PDE64_PD_SPLIT_MASK .& not64 PDE64_DIRTY) .| (PDE64_RW .| PDE64_PRESENT)) PDE64_PS = true) as HPS2.
  { rewrite any_bit_lor. unfold any_bit at 1. rewrite <- Z.land_assoc.
    change (PDE64_PD_SPLIT_MASK .& not64 PDE64_DIRTY .& PDE64_PS) with PDE64_PS.
    fold (any_bit E PDE64_PS). by rewrite HPS. }
  destruct (fork_inv_set_entry Ψ' s1 t 1 i E2 Hinv2 (Hsub _ _ Ht) Hi) as [Hinv3 Hmu3].
  { rewrite HE2. apply (new_entry_ok _ _ _ 1 _ (pmem pg)); try done.
    - rewrite any_bit_lor. apply orb_true_r.
    - simpl. rewrite HPS2. auto. }
  wp_step. apply wp_wr. set (s3 := with_heap s1 _) in *.
  assert (step_ok Ψ s Ψ' s3) as Hst3 by (split_and!; [done|done|by eapply main_unchanged_trans]).
  wp_step. apply wp_rd. wp_step; [apply wp_throw, Hst3|].
  assert (forall s4, step_ok Ψ s Ψ' s4 ->
    wp (let! e := rd (t + 8 * i) in
        when (any_bit e PDE64_USER) (record_cow_leaf_user_page addr) ;;;
        ret (mkWritablePage (pmem pg + index_from_pt_entry addr * PAGE_SIZE) (t + 8 * i) PDE64_PT_SIZE))
      (writable_ok Ψ s vf) (fun _ s' => main_unchanged s s') s4) as Htail.
  { intros s4 Hst4. wp_step. apply wp_rd. wp_step. eapply record_cow_spec; [apply Hst4|].
    intros s5 Hst5 _. wp_step. exists Ψ'. split; [by eapply step_ok_trans|]. intros _. simpl.
    rewrite (Z.mul_comm _ PAGE_SIZE). split; [apply HΨ', index_bound|]. exists t, 1%nat, i. auto. }
  assert (forall f, (forall off h q, aligned8 q -> ~ in_page (pmem pg + off) q -> pmem pg mod 4096 = 0 -> off mod 4096 = 0 -> ld64 (f off h) q = ld64 h q) ->
    step_ok Ψ s Ψ' (with_heap s3 (each_4k f (h_heap (vhost s3))))) as Heach.
  { intros f Hf. destruct (each_4k_inv Ψ' s3 (pmem pg) f Hf Hinv3 HΨ') as [??].
    eapply step_ok_trans; [exact Hst3|]. by split_and!. }
  rewrite Hd. wp_step. wp_step.
  - apply wp_on_pages, Htail, Heach. intros off h q Hq Hout ??. apply ld64_page_duplicate_other; [unfold aligned8; dlia|done|done].
  - wp_step; [discriminate|]. by apply Htail.
Qed.

(** ** The levels of [writable_page_at] *)

Lemma cow_pte_spec Ψ s t i addr data opts : fork_inv Ψ s -> Ψ t = Some 1%nat -> 0 <= i < 512 ->
  any_bit (ld64 (h_heap (vhost s)) (t + 8 * i)) PDE64_PRESENT = true ->
  wp (wpa_cow_pte (t + 8 * i) addr data opts)
    (fun p s' => exists Ψ', step_ok Ψ s Ψ' s' /\ Ψ' p = Some 0%nat) (fun _ s' => main_unchanged s s') s.
Proof.
  intros Hinv Ht Hi HE. unfold wpa_cow_pte. wp_step. wp_step. wp_step. apply wp_rd. wp_step.
  rewrite (fi_cow _ _ Hinv), andb_false_r, HE.
  assert (cow_flags (PDE64_RW .| PDE64_PRESENT)) as Hfl by by right.
  assert (forall p s1, (exists Ψ', step_ok Ψ s Ψ' s1 /\ Ψ' p = Some 0%nat) ->
    wp (let! e := rd (t + 8 * i) in when (any_bit e PDE64_USER) (record_cow_leaf_user_page addr) ;;; ret p)
      (fun p s' => exists Ψ', step_ok Ψ s Ψ' s' /\ Ψ' p = Some 0%nat) (fun _ s' => main_unchanged s s') s1) as Htail.
  { intros p s1 (Ψ'&Hst&Hp). wp_step. apply wp_rd. wp_step. eapply record_cow_spec; [apply Hst|].
    intros s2 Hst2 _. wp_step. exists Ψ'. split; [by eapply step_ok_trans|done]. }
  wp_step; [|wp_step].
  - eapply wp_mono; [apply (zero_alloc Ψ s t i _ (fun _ => ret tt)); done|exact Htail|done].
  - eapply wp_mono; [apply (zero_alloc Ψ s t i _ (fun page => when (p_dirty page) (on_pages (page_memzero (pmem page))))); try done|exact Htail|done].
    intros page s1 Hd. rewrite Hd. reflexivity.
  - eapply wp_mono; [apply (clone_spec Ψ s t 0 i); try done; by left| |done].
    intros p s1 (Ψ'&?&?&_). apply Htail. eauto.
Qed.

Lemma wpa_pt_spec Ψ s pt k pd_base addr vf opts : fork_inv Ψ s -> table_ptr Ψ s 1 pt ->
  wp (wpa_pt pt k pd_base addr vf opts) (writable_ok Ψ s vf) (fun _ s' => main_unchanged s s') s.
Proof.
  intros Hinv Hpt. unfold wpa_pt. set (i := index_from_pt_entry addr).
  assert (0 <= i < 512) as Hi by apply index_bound.
  destruct (table_entry Ψ s 0 pt i Hinv Hpt Hi) as [Hok Hcow]. wp_step. apply wp_rd.
  set (E := ld64 _ _) in *.
  wp_step; [|apply wp_throw, main_unchanged_refl]. destruct (Hok H) as [Hpres He]. rewrite Hpres.
  wp_step. apply wp_resolve; [|intros; apply main_unchanged_refl]. intros data Hdata. wp_step.
  assert (forall p s1 Ψ', step_ok Ψ s Ψ' s1 ->
    (any_bit (ld64 (h_heap (vhost s1)) (pt + 8 * i)) PDE64_RW = true -> Ψ' p = Some 0%nat /\ Ψ' pt = Some 1%nat) ->
    wp (let! entry := rd (pt + 8 * i) in
        if is_flagged_page vf entry then ret (mkWritablePage p (pt + 8 * i) PAGE_SIZE)
        else memory_exception "page_at: pt entry not user writable" addr entry)
      (writable_ok Ψ s vf) (fun _ s' => main_unchanged s s') s1) as Htail.
  { intros p s1 Ψ' Hst Hp. wp_step. apply wp_rd. wp_step; [|apply wp_throw, Hst].
    wp_step. exists Ψ'. split; [done|]. intros Hvf. simpl.
    destruct Hp as [? Hpt']; [by eapply flagged_rw|]. split; [done|]. exists pt, 0%nat, i. auto. }
  destruct (is_copy_on_write E) eqn:Ec.
  - assert (Ψ pt = Some 1%nat) as Hpt1 by (apply Hcow; [done|by left]).
    eapply wp_mono; [by apply (cow_pte_spec Ψ s pt i)| |done].
    intros p s1 (Ψ'&Hst&Hp). eapply Htail; [done|]. intros _. split; [done|]. by apply Hst.
  - wp_step. eapply Htail; [by apply step_ok_refl|]. intros HRW. simpl in He.
    destruct (He HRW) as (p&Hbt&Hj). change (E .& not64 0x8000000000000FFF) with (target 1 E) in Hdata.
    rewrite (page_at_bank _ _ _ Hbt) in Hdata. simplify_eq.
    specialize (Hj 0). rewrite Z.mul_0_r, !Z.add_0_r in Hj. split; [apply Hj; lia|].
    apply Hcow; [done|]. by right.
Qed.

Lemma settled_spec Ψ s pd k pt pt_mem pd_base addr vf opts : fork_inv Ψ s -> 0 <= k < 512 ->
  let E := ld64 (h_heap (vhost s)) (pd + 8 * k) in
  (any_bit E PDE64_PS = true -> any_bit E PDE64_RW = true -> pt_mem = target 2 E /\ leaf_owned Ψ (vm s) 2 E /\ Ψ pd = Some 2%nat) ->
  (any_bit E PDE64_PS = false -> table_ptr Ψ s 1 pt) ->
  wp (wpa_pd_settled pd k pt pt_mem pd_base addr vf opts) (writable_ok Ψ s vf) (fun _ s' => main_unchanged s s') s.
Proof.
  intros Hinv Hk E Hleaf Htab. unfold wpa_pd_settled. wp_step. apply wp_rd. fold E.
  wp_step; [|by apply wpa_pt_spec; [|apply Htab]].
  wp_step; [apply wp_throw, main_unchanged_refl|].
  wp_step. apply wp_resolve; [|intros; apply main_unchanged_refl]. intros data Hdata. wp_step.
  exists Ψ. split; [by apply step_ok_refl|]. intros Hvf.
  destruct Hleaf as (->&(p&Hbt&Hj)&Hpd); [done|by eapply flagged_rw; [apply negb_false_iff|]|].
  rewrite (page_at_bank _ _ _ Hbt) in Hdata. simplify_eq. simpl. unfold PAGE_SIZE. rewrite Z.mul_comm.
  split; [apply Hj, index_bound|]. exists pd, 1%nat, k. auto.
Qed.

Lemma writable_ok_trans Ψ s Ψ1 s1 vf w s2 : step_ok Ψ s Ψ1 s1 -> writable_ok Ψ1 s1 vf w s2 -> writable_ok Ψ s vf w s2.
Proof. intros Hst (Ψ'&Hst'&Hw). exists Ψ'. split; [by eapply step_ok_trans|done]. Qed.

(** Continuing after a step. *)
Lemma wp_after_step Ψ s Ψ1 s1 vf (m : M VM WritablePage) : step_ok Ψ s Ψ1 s1 ->
  wp m (writable_ok Ψ1 s1 vf) (fun _ s' => main_unchanged s1 s') s1 ->
  wp m (writable_ok Ψ s vf) (fun _ s' => main_unchanged s s') s1.
Proof.
  intros Hst Hm. eapply wp_mono; [exact Hm| |].
  - intros w s2 Hw. by eapply writable_ok_trans.
  - intros e s2 Hmu. eapply main_unchanged_trans; [apply Hst|done].
Qed.

Lemma wpa_pd_spec Ψ s pd pd_base addr vf opts : fork_inv Ψ s -> table_ptr Ψ s 2 pd ->
  wp (wpa_pd pd pd_base addr vf opts) (writable_ok Ψ s vf) (fun _ s' => main_unchanged s s') s.
Proof.
  intros Hinv Hpd. unfold wpa_pd. set (k := index_from_pd_entry addr).
  assert (0 <= k < 512) as Hk by apply index_bound.
  destruct (table_entry Ψ s 1 pd k Hinv Hpd Hk) as [Hok Hcow]. wp_step. apply wp_rd.
  set (E := ld64 _ _) in *.
  wp_step; [|apply wp_throw, main_unchanged_refl]. destruct (Hok H) as [Hpres He].
  cbn [pt_from_index]. rewrite Hpres.
  wp_step. apply wp_resolve; [|intros; apply main_unchanged_refl]. intros pt Hpt.
  change (E .& not64 0x8000000000000FFF) with (target 2 E) in Hpt.
  wp_step. wp_step. destruct (is_copy_on_write E) eqn:Ec.
  - rewrite (fi_cow _ _ Hinv). specialize (Hcow H (or_introl eq_refl)).
    assert (cow_flags (PDE64_RW .| PDE64_PRESENT)) as Hfl by by right.
    destruct (any_bit E PDE64_PS) eqn:Eps; [rewrite andb_true_r; wp_step|rewrite andb_false_r].
    + wp_step. eapply wp_mono; [by apply (split_spec Ψ s pd k)| |done].
      intros p s1 (Ψ1&Hst1&Hp&Hps1&Hpr1). pose proof Hst1 as (Hinv1&Hsub1&Hmu1).
      apply (wp_after_step Ψ s Ψ1 s1); [done|]. wp_step.
      eapply wp_mono; [apply (clone_spec Ψ1 s1 pd 1 k); try done; [by apply Hsub1| |]| |done].
      * right. destruct (typed_page _ _ _ _ Hinv1 Hp) as (?&_). split; [split; [done|right; eauto]|].
        intros j Hj. by apply fi_tables.
      * simpl. rewrite Hps1. done.
      * intros p2 s2 (Ψ2&Hst2&Hp2&Hps2). apply (wp_after_step Ψ1 s1 Ψ2 s2); [done|]. apply settled_spec; [apply Hst2|done| |].
        -- rewrite Hps2, Hps1. done.
        -- intros _. by left.
    + by apply duplicate_spec.
    + destruct (cow_next Ψ s 1 E pt) as (Hmp&Hfz&_); [done..|].
      wp_step. eapply wp_mono; [apply (clone_spec Ψ s pd 1 k); try done| |done].
      * right. split; [by apply main_page_source|]. intros j Hj. by eapply frozen_entry_ok.
      * simpl. fold E. rewrite Eps. done.
      * intros p1 s1 (Ψ1&Hst1&Hp1&Hps1). apply (wp_after_step Ψ s Ψ1 s1); [done|].
        apply settled_spec; [apply Hst1|done| |].
        -- rewrite Hps1. fold E. rewrite Eps. done.
        -- intros _. by left.
  - apply settled_spec; [done|done| |]; fold E; simpl in He.
    + intros Hps HRW. rewrite Hps in He. split_and!; [done|by apply He|]. apply Hcow; [done|]. by right.
    + intros Hps. eapply (table_next Ψ s 1 E); done.
Qed.

Lemma wpa_pdpt_spec Ψ s pdpt pdpt_base addr vf opts : fork_inv Ψ s -> table_ptr Ψ s 3 pdpt ->
  wp (wpa_pdpt pdpt pdpt_base addr vf opts) (writable_ok Ψ s vf) (fun _ s' => main_unchanged s s') s.
Proof.
  intros Hinv Ht. unfold wpa_pdpt. set (j := index_from_pdpt_entry addr).
  assert (0 <= j < 512) as Hj by apply index_bound.
  destruct (table_entry Ψ s 2 pdpt j Hinv Ht Hj) as [Hok Hcow]. wp_step. apply wp_rd.
  set (E := ld64 _ _) in *.
  wp_step; [|apply wp_throw, main_unchanged_refl]. destruct (Hok H) as [Hpres He].
  cbn [pd_from_index]. wp_step. apply wp_resolve; [|intros; apply main_unchanged_refl]. intros pd Hpd.
  wp_step. wp_step. wp_step. destruct (is_copy_on_write E) eqn:Ec.
  - rewrite (fi_cow _ _ Hinv). specialize (Hcow H (or_introl eq_refl)).
    destruct (cow_next Ψ s 2 E pd) as (Hmp&Hfz&_); [done..|].
    wp_step. eapply wp_mono; [apply (clone_spec Ψ s pdpt 2 j); try done; [|by left]| |done].
    + right. split; [by apply main_page_source|]. intros i Hi. by eapply frozen_entry_ok.
    + intros p1 s1 (Ψ1&Hst1&Hp1&_). unfold upd. wp_step. wp_step. wp_step.
      pose proof (fork_inv_upd Ψ1 s1 (fun m => set_remote_must_update_gigapages m true)) as Hupd.
      destruct Hst1 as (Hinv1&Hsub1&Hmu1).
      assert (step_ok Ψ s Ψ1 (mkVM (vhost s1) (set_remote_must_update_gigapages (vm s1) true))) as Hst2.
      { eapply step_ok_trans; [|by apply Hupd]. done. }
      eapply wp_after_step; [exact Hst2|]. apply wpa_pd_spec; [apply Hst2|by left].
  - wp_step. apply wpa_pd_spec; [done|]. by eapply (table_next Ψ s 2 E).
Qed.

Lemma writable_page_at_wp Ψ s addr vf opts : fork_inv Ψ s ->
  wp (writable_page_at addr vf opts) (writable_ok Ψ s vf) (fun _ s' => main_unchanged s s') s.
Proof.
  intros Hinv. unfold writable_page_at. wp_step. wp_step. wp_step.
  destruct (fi_root _ _ Hinv) as (root&Hbt&Hroot).
  apply wp_resolve; [|intros; apply main_unchanged_refl]. intros pml4 Hpml4.
  rewrite (page_at_bank _ _ _ Hbt) in Hpml4. simplify_eq.
  set (i := index_from_pml4_entry addr). assert (0 <= i < 512) as Hi by apply index_bound.
  destruct (table_entry Ψ s 3 pml4 i Hinv ltac:(by left) Hi) as [Hok _]. wp_step. apply wp_rd.
  set (E := ld64 _ _) in *.
  wp_step; [|apply wp_throw, main_unchanged_refl]. destruct (Hok H) as [Hpres He].
  cbn [pdpt_from_index]. wp_step. apply wp_resolve; [|intros; apply main_unchanged_refl]. intros pdpt Hpdpt.
  wp_step. wp_step. wp_step. destruct (is_copy_on_write E) eqn:Ec.
  - rewrite (fi_cow _ _ Hinv). destruct (cow_next Ψ s 3 E pdpt) as (Hmp&Hfz&Hnx); [done..|].
    eapply wp_mono; [apply (clone_spec Ψ s pml4 3 i); try done; [|by left]| |done].
    + right. split; [by apply main_page_source|]. intros k Hk. by eapply frozen_entry_ok.
    + intros p1 s1 (Ψ1&Hst1&Hp1&_). eapply wp_after_step; [exact Hst1|].
      apply wpa_pdpt_spec; [apply Hst1|by left].
  - wp_step. apply wpa_pdpt_spec; [done|]. by eapply (table_next Ψ s 3 E).
Qed.

(** ** Setting the dirty bit *)

Lemma lor_dirty_bit E b : PDE64_DIRTY .& b = 0 -> (E .| PDE64_DIRTY) .& b = E .& b.
Proof. intros H. by rewrite Z.land_lor_distr_l, H, Z.lor_0_r. Qed.

Lemma entry_ok_dirty Ψ m h n E : entry_ok Ψ m h n E -> entry_ok Ψ m h n (E .| PDE64_DIRTY).
Proof.
  assert (forall b, PDE64_DIRTY .& b = 0 -> any_bit (E .| PDE64_DIRTY) b = any_bit E b) as Hany.
  { intros b Hb. unfold any_bit. by rewrite lor_dirty_bit. }
  assert (walkable n (E .| PDE64_DIRTY) = walkable n E) as Hw.
  { unfold walkable. destruct n as [|[|[]]]; by apply Hany. }
  assert (leaf n (E .| PDE64_DIRTY) = leaf n E) as Hl.
  { unfold leaf. destruct n as [|[|[]]]; try done. by apply Hany. }
  assert (target n (E .| PDE64_DIRTY) = target n E) as Ht.
  { unfold target. destruct n as [|[|[|[|[]]]]]; by apply lor_dirty_bit. }
  assert (is_copy_on_write (E .| PDE64_DIRTY) = is_copy_on_write E) as Hc.
  { unfold is_copy_on_write. by rewrite lor_dirty_bit. }
  unfold entry_ok, leaf_owned. by rewrite Hw, Hl, Ht, Hc, !Hany.
Qed.

Lemma set_dirty_spec Ψ s w (Q : unit -> VM -> Prop) X : fork_inv Ψ s -> entry_owned Ψ (wp_entry w) ->
  (forall s', step_ok Ψ s Ψ s' -> Q tt s') -> wp (set_dirty w) Q X s.
Proof.
  intros Hinv (t&n&i&Ht&Hi&Eep) HQ. unfold set_dirty. rewrite Eep. wp_step. apply wp_rd. apply wp_wr.
  destruct (fork_inv_set_entry Ψ s t n i (ld64 (h_heap (vhost s)) (t + 8 * i) .| PDE64_DIRTY)) as [? ?]; try done.
  - apply entry_ok_dirty. by apply fi_tables.
  - apply HQ. by split_and!.
Qed.
End isolation.
