(* ===== verification/MakeCow.v ===== *)
(** * Walking all pages, and making them copy-on-write

    [foreach_page] and its clients [foreach_page_makecow] and [get_accessed_pages]
    (lib/tinykvm/amd64/paging.cpp), [vMemory::allocate_unmapped_kernelpage] (memory.cpp).
    The theorem: after [foreach_page_makecow] the page tables of a machine are [frozen], which
    is what the isolation of forks (ForkIsolation) needs of the master. *)
From stdpp Require Import base tactics list numbers strings gmap.
From Stdlib Require Import ZArith Lia Bool.
From S2P Require Import Prelude Host MemoryBanks VMemory Paging ForkIsolation.
Local Open Scope Z_scope.

(** ** Walking the tables *)

(** The walk reads the tables through [mem]; the callback may keep state of its own. *)
Section foreach.
Context {S : Type} (mem : S -> VM).
Variable callback : Z -> Z -> Z -> M S unit.
Variable skip_oob_addresses : bool.

(** [skip_oob_addresses && table >= memory.physbase + memory.size] *)
Definition skip_table (addr : Z) : M S bool :=
  gets (fun s => skip_oob_addresses && (physbase (vm (mem s)) ⊕ size (vm (mem s)) <=? addr)).

Definition foreach_pt (pt pt_base : Z) : M S unit :=
  for_range 512 0 (fun e =>
    let! entry := entry_at mem (pt + 8 * e) in
    let '(pte_base, _, pte_size) := pte_from_index e pt_base entry in
    when (any_bit entry PDE64_PRESENT) (callback pte_base (pt + 8 * e) pte_size)).

Definition foreach_pd (pd pd_base : Z) : M S unit :=
  for_range 512 0 (fun k =>
    let! entry := entry_at mem (pd + 8 * k) in
    when (any_bit entry PDE64_PRESENT)
      (let '(pt_base, pt_mem, pt_size) := pt_from_index k pd_base entry in
       let is_2mb_page := any_bit entry PDE64_PS in
       callback pt_base (pd + 8 * k) pt_size ;;;
       when (negb is_2mb_page) (let! pt := table_at mem pt_mem in foreach_pt pt pt_base))).

Definition foreach_pdpt (pdpt pdpt_base : Z) : M S unit :=
  for_range 512 0 (fun j =>
    let! entry := entry_at mem (pdpt + 8 * j) in
    when (any_bit entry PDE64_PRESENT)
      (let '(pd_base, pd_mem, pd_size) := pd_from_index j pdpt_base entry in
       callback pd_base (pdpt + 8 * j) pd_size ;;;
       let! entry := entry_at mem (pdpt + 8 * j) in
       if any_bit entry PDE64_PS then ret tt
       else
         let! skip := skip_table pd_mem in
         if skip then ret tt
         else let! pd := table_at mem pd_mem in foreach_pd pd pd_base)).

Definition foreach_page : M S unit :=
  let! s := get in
  let! pml4 := table_at mem (page_tables (vm (mem s))) in
  for_range 512 0 (fun i =>
    let! entry := entry_at mem (pml4 + 8 * i) in
    when (any_bit entry PDE64_PRESENT)
      (let '(pdpt_base, pdpt_mem, pdpt_size) := pdpt_from_index i entry in
       callback pdpt_base (pml4 + 8 * i) pdpt_size ;;;
       let! skip := skip_table pdpt_mem in
       if skip then ret tt
       else let! pdpt := table_at mem pdpt_mem in foreach_pdpt pdpt pdpt_base)).
End foreach.

(** ** Clients *)

(** The callback collects the leaf pages that were accessed. *)
Definition get_accessed_pages : M VM (list (Z * Z)) :=
  fun s =>
    let push addr ep sz : M (VM * list (Z * Z)) unit :=
      let! entry := entry_at fst ep in
      when ((entry .& (PDE64_ACCESSED .| PDE64_PRESENT) =? (PDE64_ACCESSED .| PDE64_PRESENT))
            && (any_bit entry PDE64_PS || (sz =? PAGE_SIZE)))
        (modify (fun st => (fst st, snd st ++ [(addr .& PDE64_ADDR_MASK, sz)]))) in
    match foreach_page fst push false (s, []) with
    | (Ok _, (s', l)) => (Ok l, s')
    | (Err e, (s', _)) => (Err e, s')
    end.

(** Run an operation on the memory inside a larger state. *)
Definition on_fst {A B} (m : M VM A) : M (VM * B) A :=
  fun st => let (r, s') := m (fst st) in (r, (s', snd st)).

(** The callback of [allocate_unmapped_kernelpage]; it assigns the captured [result]. *)
Definition take_kernelpage (kernel_end addr ep page_size : Z) : M (VM * Page) unit :=
  let! entry := entry_at fst ep in
  let phys_addr := entry .& PDE64_ADDR_MASK in
  let! phys_mem := table_at fst phys_addr in
  let! st := get in
  if (phys_addr <? PT_ADDR) || (phys_mem <? ptr (vm (fst st)) + PT_ADDR) then
    throw (MemoryException "Invalid page directory entry for kernel end" addr page_size false)
  else
    on_fst (wr ep (phys_addr .| PDE64_NX)) ;;;
    modify (fun st => (fst st, mkPage phys_mem kernel_end PAGE_SIZE false)) ;;;
    on_fst (upd (fun m => set_m_kernel_end m (kernel_end ⊕ PAGE_SIZE))).

Definition no_page : Page := mkPage 0 0 0 false.

Definition allocate_unmapped_kernelpage : M VM Page :=
  let! s := get in
  if is_forked (vm s) then memory_exception "Cannot allocate unmapped kernel page in forked VM" 0 0
  else
    let kernel_end := m_kernel_end (vm s) in
    if kernel_end <? physbase (vm s) ⊕ 2 ^ 21 then
      fun s => match page_at_walk fst kernel_end (take_kernelpage kernel_end) false (s, no_page) with
               | (Ok _, (s', page)) => (Ok page, s')
               | (Err e, (s', _)) => (Err e, s')
               end
    else ret no_page.

(** Splitting an accessed 2MB page: true when a table could be allocated. *)
Definition split_accessed (ep : Z) : M VM bool :=
  let! entry := rd ep in
  let pd_base := entry .& PDE64_ADDR_MASK in
  let! new_page := allocate_unmapped_kernelpage in
  if p_addr new_page =? 0 then ret false
  else
    let! entry := rd ep in
    let pd_entry_flags := entry .& not64 (PDE64_ADDR_MASK .| PDE64_PS .| PDE64_ACCESSED) in
    wr ep (pd_entry_flags .| p_addr new_page) ;;;
    on_pages (fun h => store_words h (pmem new_page)
      (map (fun i => pd_entry_flags .| (pd_base .| (Z.of_nat i .<< 12))) (seq 0 512))) ;;;
    ret true.

(** The callback of [foreach_page_makecow]. *)
Definition makecow_page (shared_memory_boundary : Z) (split_accessed_hugepages : bool) (addr ep sz : Z) : M VM unit :=
  let! split :=
    (if addr <? shared_memory_boundary then
       let! entry := rd ep in
       let flags := PDE64_PRESENT .| PDE64_RW in
       when (entry .& flags =? flags)
         (wr ep (entry .& not64 PDE64_RW) ;;;
          let! entry := rd ep in
          wr ep (entry .| (PDE64_CLONEABLE .| PDE64_G))) ;;;
       let! entry := rd ep in
       if any_bit entry PDE64_ACCESSED && ((sz =? 2 ^ 21) && any_bit entry PDE64_PS && split_accessed_hugepages)
       then split_accessed ep else ret false
     else ret false) in
  if split then ret tt
  else let! entry := rd ep in wr ep (entry .& not64 PDE64_ACCESSED).

Definition foreach_page_makecow (kernel_end shared_memory_boundary : Z) (split_accessed_hugepages : bool) : M VM unit :=
  if shared_memory_boundary <? kernel_end then
    memory_exception "Shared memory boundary was illegal (zero)" shared_memory_boundary 0
  else foreach_page id (makecow_page shared_memory_boundary split_accessed_hugepages) true.

(** ** What the walk does to an entry *)

Definition cow_bits (E : Z) : Z :=
  (if E .& (PDE64_PRESENT .| PDE64_RW) =? (PDE64_PRESENT .| PDE64_RW)
   then (E .& not64 PDE64_RW) .| (PDE64_CLONEABLE .| PDE64_G) else E) .& not64 PDE64_ACCESSED.

Lemma any_bit_testbit E k : 0 <= k -> any_bit E (Z.shiftl 1 k) = Z.testbit E k.
Proof.
  intros Hk. unfold any_bit. rewrite Z.shiftl_1_l. destruct (Z.testbit E k) eqn:Eb.
  - apply negb_true_iff, Z.eqb_neq. intros H0. apply (f_equal (fun z => Z.testbit z k)) in H0.
    by rewrite Z.land_spec, Eb, Z.pow2_bits_true, Z.bits_0 in H0.
  - apply negb_false_iff, Z.eqb_eq, Z.bits_inj'. intros n Hn. rewrite Z.land_spec, Z.bits_0, Z.pow2_bits_eqb by done.
    destruct (Z.eqb_spec k n) as [->|]; [by rewrite Eb|apply andb_false_r].
Qed.

Lemma land_two_bits E : (E .& (PDE64_PRESENT .| PDE64_RW) =? (PDE64_PRESENT .| PDE64_RW)) = Z.testbit E 0 && Z.testbit E 1.
Proof.
  apply eq_true_iff_eq. rewrite Z.eqb_eq, andb_true_iff. split.
  - intros H. split; [apply (f_equal (fun z => Z.testbit z 0)) in H|apply (f_equal (fun z => Z.testbit z 1)) in H];
      rewrite Z.land_spec in H; change (Z.testbit (PDE64_PRESENT .| PDE64_RW) _) with true in H; by rewrite andb_true_r in H.
  - intros [H0 H1]. apply Z.bits_inj'. intros n Hn. rewrite Z.land_spec.
    destruct (decide (n = 0)) as [->|]; [by rewrite H0|]. destruct (decide (n = 1)) as [->|]; [by rewrite H1|].
    assert (Z.testbit (PDE64_PRESENT .| PDE64_RW) n = false) as ->; [|apply andb_false_r].
    apply Z.bits_above_log2; [done|]. change (Z.log2 (PDE64_PRESENT .| PDE64_RW)) with 1. lia.
Qed.

Lemma testbit_not_pow2 b n : 0 <= b < 64 -> 0 <= n -> Z.testbit (not64 (Z.shiftl 1 b)) n = (n <? 64) && negb (n =? b).
Proof.
  intros Hb Hn. assert (u64 (Z.shiftl 1 b)) as Hu.
  { rewrite Z.shiftl_1_l. unfold u64. split; [lia|]. change W64 with (2 ^ 64). apply Z.pow_lt_mono_r; lia. }
  destruct (Z.ltb_spec n 64).
  - rewrite testbit_not64 by (done || lia). rewrite Z.shiftl_1_l, Z.pow2_bits_eqb by lia. simpl. by rewrite Z.eqb_sym.
  - apply testbit_high; [by apply not64_u64|lia].
Qed.

(** Bit by bit: the accessed bit is cleared; a present writable entry gets cloneable and
    global set and writable cleared; the other bits stay. *)
Lemma cow_bits_spec E n : 0 <= n < 64 ->
  Z.testbit (cow_bits E) n =
    if n =? 5 then false
    else if Z.testbit E 0 && Z.testbit E 1 then
      if n =? 1 then false else (n =? 11) || (n =? 8) || Z.testbit E n
    else Z.testbit E n.
Proof.
  intros Hn. unfold cow_bits. rewrite land_two_bits, Z.land_spec.
  rewrite (testbit_not_pow2 5) by lia. rewrite (proj2 (Z.ltb_lt n 64)) by lia. simpl andb.
  destruct (Z.eqb_spec n 5) as [->|]; [apply andb_false_r|]. rewrite andb_true_r.
  destruct (_ && _); [|done]. rewrite !Z.lor_spec, Z.land_spec, (testbit_not_pow2 1) by lia.
  unfold PDE64_CLONEABLE, PDE64_G. rewrite !Z.shiftl_1_l, !Z.pow2_bits_eqb by lia.
  rewrite (proj2 (Z.ltb_lt n 64)) by lia. rewrite (Z.eqb_sym 11), (Z.eqb_sym 8). simpl andb.
  destruct (Z.eqb_spec n 1) as [->|]; [by rewrite andb_false_r|]. rewrite andb_true_r.
  by destruct (Z.testbit E n), (n =? 11), (n =? 8).
Qed.

Lemma cow_bits_u64 E n : 64 <= n -> Z.testbit (cow_bits E) n = false.
Proof.
  intros Hn. unfold cow_bits. rewrite Z.land_spec, (testbit_not_pow2 5) by lia.
  rewrite (proj2 (Z.ltb_ge n 64)) by lia. apply andb_false_r.
Qed.

Lemma cow_bits_idem E : cow_bits (cow_bits E) = cow_bits E.
Proof.
  apply Z.bits_inj'. intros n Hn. destruct (decide (n < 64)); [|by rewrite !cow_bits_u64 by lia].
  rewrite (cow_bits_spec (cow_bits E)) by done. rewrite !(cow_bits_spec E) by lia.
  destruct (Z.testbit E 0), (Z.testbit E 1); cbn [Z.eqb Pos.eqb andb orb]; by destruct (n =? 5).
Qed.

(** Only the low bits of an entry are changed. *)
Lemma target_cow n E : target n (cow_bits E) = target n E.
Proof.
  assert (forall mask, u64 mask -> (forall k, 0 <= k < 12 -> Z.testbit mask k = false) -> cow_bits E .& mask = E .& mask) as H.
  { intros mask Hu Hlow. apply Z.bits_inj'. intros k Hk. rewrite !Z.land_spec.
    destruct (decide (k < 12)); [by rewrite Hlow, !andb_false_r by lia|].
    destruct (decide (k < 64)); [|by rewrite (testbit_high mask), !andb_false_r by (done || lia)].
    rewrite cow_bits_spec by lia. rewrite (proj2 (Z.eqb_neq k 5)), (proj2 (Z.eqb_neq k 1)), (proj2 (Z.eqb_neq k 8)), (proj2 (Z.eqb_neq k 11)) by lia.
    by destruct (Z.testbit E 0 && Z.testbit E 1). }
  assert (forall k, 0 <= k < 12 -> k ∈ [0;1;2;3;4;5;6;7;8;9;10;11]) as Hin.
  { intros k Hk. rewrite !elem_of_cons. lia. }
  unfold target. destruct n as [|[|[|[|[|n]]]]]; apply H; try (unfold u64; vm_compute; split; [discriminate|done]);
    intros k Hk; apply Hin in Hk; rewrite !elem_of_cons, elem_of_nil in Hk; destruct_or! Hk; subst; done.
Qed.

(** *** Bits of an entry that was made copy-on-write *)

Lemma cow_present E : any_bit (cow_bits E) PDE64_PRESENT = any_bit E PDE64_PRESENT.
Proof.
  change PDE64_PRESENT with (Z.shiftl 1 0). rewrite !any_bit_testbit, cow_bits_spec by lia. cbn [Z.eqb Pos.eqb orb].
  by destruct (Z.testbit E 0), (Z.testbit E 1).
Qed.
Lemma cow_ps E : any_bit (cow_bits E) PDE64_PS = any_bit E PDE64_PS.
Proof. unfold PDE64_PS. rewrite !any_bit_testbit, cow_bits_spec by lia. cbn [Z.eqb Pos.eqb orb]. by destruct (_ && _). Qed.
Lemma cow_rw E : any_bit (cow_bits E) PDE64_RW = any_bit E PDE64_RW && negb (any_bit E PDE64_PRESENT).
Proof.
  unfold PDE64_RW. change PDE64_PRESENT with (Z.shiftl 1 0). rewrite !any_bit_testbit, cow_bits_spec by lia. cbn [Z.eqb Pos.eqb orb].
  by destruct (Z.testbit E 0), (Z.testbit E 1).
Qed.
Lemma cow_cloneable E : any_bit (cow_bits E) PDE64_CLONEABLE =
  any_bit E PDE64_CLONEABLE || any_bit E PDE64_PRESENT && any_bit E PDE64_RW.
Proof.
  unfold PDE64_RW, PDE64_CLONEABLE. change PDE64_PRESENT with (Z.shiftl 1 0).
  rewrite !any_bit_testbit, cow_bits_spec by lia. cbn [Z.eqb Pos.eqb orb].
  by destruct (Z.testbit E 0), (Z.testbit E 1), (Z.testbit E 11).
Qed.

Lemma any_bit_lor_r E a b : any_bit E (a .| b) = any_bit E a || any_bit E b.
Proof.
  unfold any_bit. rewrite Z.land_lor_distr_r, <- negb_andb. f_equal. apply eq_true_iff_eq.
  rewrite andb_true_iff, !Z.eqb_eq. apply Z.lor_eq_0_iff.
Qed.

Lemma walkable_cow n E : walkable n (cow_bits E) = walkable n E.
Proof.
  assert (any_bit (cow_bits E) (PDE64_PRESENT .| PDE64_CLONEABLE) = any_bit E (PDE64_PRESENT .| PDE64_CLONEABLE)) as H.
  { rewrite !any_bit_lor_r, cow_present, cow_cloneable. by destruct (any_bit E PDE64_PRESENT), (any_bit E PDE64_CLONEABLE). }
  unfold walkable. destruct n as [|[|[|n]]]; first [apply H|apply cow_present].
Qed.
Lemma leaf_cow n E : leaf n (cow_bits E) = leaf n E.
Proof. unfold leaf. destruct n as [|[|[|n]]]; first [done|apply cow_ps]. Qed.

(** May the entry be, or become, a copy-on-write entry? *)
Definition cow_able (E : Z) : bool := any_bit E PDE64_RW || any_bit E PDE64_CLONEABLE.

Lemma cow_able_cow E : any_bit E PDE64_PRESENT = true -> cow_able (cow_bits E) = cow_able E.
Proof.
  unfold cow_able. rewrite cow_rw, cow_cloneable. intros ->.
  by destruct (any_bit E PDE64_RW), (any_bit E PDE64_CLONEABLE).
Qed.

Lemma copy_on_write_bits E : is_copy_on_write E = any_bit E PDE64_CLONEABLE && negb (any_bit E PDE64_RW).
Proof.
  unfold is_copy_on_write, PDE64_CLONEABLE, PDE64_RW. rewrite !any_bit_testbit by lia. apply eq_true_iff_eq.
  rewrite Z.eqb_eq, andb_true_iff, negb_true_iff. split.
  - intros H. split; [apply (f_equal (fun z => Z.testbit z 11)) in H|apply (f_equal (fun z => Z.testbit z 1)) in H];
      rewrite Z.land_spec in H; simpl in H; by rewrite andb_true_r in H.
  - intros [H1 H2]. apply Z.bits_inj'. intros n Hn. rewrite Z.land_spec, !Z.lor_spec, !Z.shiftl_1_l, !Z.pow2_bits_eqb by lia.
    destruct (Z.eqb_spec 11 n) as [<-|]; [by rewrite H1|]. destruct (Z.eqb_spec 1 n) as [<-|]; [by rewrite H2|apply andb_false_r].
Qed.

(** ** Page tables in main memory *)

(** What is asked of an entry that the walks follow; [own] says whether the table is reached
    through entries that are all copy-on-write. *)
Definition entry_in (P : Z -> Prop) (n : nat) (own : bool) (m : vMemory) (sub : bool -> Z -> Prop) (E : Z) : Prop :=
  walkable n E = true ->
  any_bit E PDE64_PRESENT = true /\ P E /\ (cow_able E = true -> own = true) /\
  (n = 3%nat -> any_bit E PDE64_PS = false) /\
  (leaf n E = false -> in_main m (target n E) /\ sub (cow_able E) (main_at m (target n E))).

Fixpoint tables_in (P : Z -> Prop) (n : nat) (own : bool) (m : vMemory) (h : heap) (p : Z) : Prop :=
  match n with
  | O => True
  | S n' => forall i, 0 <= i < 512 ->
      entry_in P n own m (fun own' p' => tables_in P n' own' m h p') (ld64 h (p + 8 * i))
  end.

(** Page tables as they are set up for a master: all tables in main memory, no 1GB pages,
    nothing writable under a table that is not. *)
Definition mapped := tables_in (fun _ => True).
(** No entry is writable. *)
Definition sealed := tables_in (fun E => any_bit E PDE64_RW = false).

Lemma sealed_frozen n own m h p : sealed n own m h p -> frozen n own m h p.
Proof.
  revert own p. induction n as [|n IH]; intros own p H; [done|]. intros i Hi E Hw.
  destruct (H i Hi Hw) as (Hp&Hrw&Hown&_&Hsub). fold E in Hp, Hrw, Hown, Hsub. split; [done|].
  assert (cow_able E = is_copy_on_write E) as Ec.
  { rewrite copy_on_write_bits. unfold cow_able. rewrite Hrw. by rewrite andb_true_r. }
  rewrite Ec in Hown, Hsub. destruct (is_copy_on_write E) eqn:Ecow.
  - split; [by apply Hown|]. destruct (leaf (S n) E); [by left|right]. destruct Hsub; auto.
  - destruct (leaf (S n) E); [done|]. destruct Hsub; auto.
Qed.

(** An entry at or above the boundary only loses its accessed bit. *)
Definition plain_bits (E : Z) : Z := E .& not64 PDE64_ACCESSED.

Lemma plain_bits_spec E n : 0 <= n -> Z.testbit (plain_bits E) n = (n <? 64) && negb (n =? 5) && Z.testbit E n.
Proof. intros Hn. unfold plain_bits. rewrite Z.land_spec, (testbit_not_pow2 5) by lia. apply andb_comm. Qed.

Lemma plain_any E k : 0 <= k < 64 -> k <> 5 -> any_bit (plain_bits E) (Z.shiftl 1 k) = any_bit E (Z.shiftl 1 k).
Proof.
  intros Hk H5. rewrite !any_bit_testbit, plain_bits_spec by lia.
  by rewrite (proj2 (Z.ltb_lt k 64)), (proj2 (Z.eqb_neq k 5)) by lia.
Qed.

Lemma plain_of_cow E : plain_bits (cow_bits E) = cow_bits E.
Proof.
  apply Z.bits_inj'. intros n Hn. rewrite plain_bits_spec by done. destruct (decide (n < 64)).
  - rewrite cow_bits_spec by lia. rewrite (proj2 (Z.ltb_lt n 64)) by lia. by destruct (Z.eqb_spec n 5).
  - by rewrite cow_bits_u64, andb_false_r by lia.
Qed.
Lemma plain_of_plain E : plain_bits (plain_bits E) = plain_bits E.
Proof. unfold plain_bits. by rewrite <-Z.land_assoc, Z.land_diag. Qed.
Lemma cow_of_plain E : cow_bits (plain_bits E) = cow_bits E.
Proof.
  apply Z.bits_inj'. intros n Hn. destruct (decide (n < 64)); [|by rewrite !cow_bits_u64 by lia].
  rewrite !cow_bits_spec, !plain_bits_spec by lia. rewrite (proj2 (Z.ltb_lt n 64)) by lia.
  cbn [Z.ltb Z.compare Z.eqb Pos.compare Pos.compare_cont Pos.eqb negb andb]. by destruct (Z.eqb_spec n 5).
Qed.

Lemma target_plain n E : target n (plain_bits E) = target n E.
Proof.
  rewrite <-(target_cow n (plain_bits E)), <-(target_cow n E). by rewrite cow_of_plain.
Qed.

(** What may have become of an entry. *)
Definition restamp (E E' : Z) : Prop := E' = E \/ E' = cow_bits E \/ E' = plain_bits E.

Section restamped_entry.
Context (E E' : Z) (HE : restamp E E').

Lemma restamp_target n : target n E' = target n E.
Proof using HE. destruct HE as [-> |[-> | ->]]; [done|apply target_cow|apply target_plain]. Qed.
Lemma restamp_present : any_bit E' PDE64_PRESENT = any_bit E PDE64_PRESENT.
Proof using HE. destruct HE as [-> |[-> | ->]]; [done|apply cow_present|by apply (plain_any E 0)]. Qed.
Lemma restamp_ps : any_bit E' PDE64_PS = any_bit E PDE64_PS.
Proof using HE. destruct HE as [-> |[-> | ->]]; [done|apply cow_ps|by apply (plain_any E 7)]. Qed.
Lemma restamp_leaf n : leaf n E' = leaf n E.
Proof using HE. unfold leaf. destruct n as [|[|[|n]]]; first [done|apply restamp_ps]. Qed.
Lemma restamp_walkable n : walkable n E' = walkable n E.
Proof using HE.
  destruct HE as [-> |[-> | ->]]; [done|apply walkable_cow|]. rewrite <-walkable_cow, cow_of_plain. apply walkable_cow.
Qed.
Lemma restamp_cow_able : any_bit E PDE64_PRESENT = true -> cow_able E' = cow_able E.
Proof using HE.
  destruct HE as [-> |[-> | ->]]; [done|apply cow_able_cow|]. intros _. unfold cow_able, PDE64_RW, PDE64_CLONEABLE.
  by rewrite !plain_any by lia.
Qed.
Lemma restamp_rw : any_bit E PDE64_RW = false -> any_bit E' PDE64_RW = false.
Proof using HE.
  destruct HE as [-> |[-> | ->]]; [done|rewrite cow_rw; by intros ->|]. unfold PDE64_RW. by rewrite plain_any by lia.
Qed.
Lemma restamp_cow : cow_bits E' = cow_bits E.
Proof using HE. destruct HE as [-> |[-> | ->]]; [done|apply cow_bits_idem|apply cow_of_plain]. Qed.
End restamped_entry.

Lemma restamp_trans E1 E2 E3 : restamp E1 E2 -> restamp E2 E3 -> restamp E1 E3.
Proof.
  unfold restamp. intros [-> |[-> | ->]] [-> |[-> | ->]]; rewrite ?cow_bits_idem, ?cow_of_plain, ?plain_of_cow, ?plain_of_plain; auto.
Qed.

Definition restamped (h h' : heap) : Prop := forall q, restamp (ld64 h q) (ld64 h' q).

Lemma restamped_refl h : restamped h h.
Proof. by left. Qed.
Lemma restamped_trans h1 h2 h3 : restamped h1 h2 -> restamped h2 h3 -> restamped h1 h3.
Proof. intros H12 H23 q. by eapply restamp_trans. Qed.

Lemma entry_in_mono (P P' : Z -> Prop) n own m (sub sub' : bool -> Z -> Prop) E : entry_in P n own m sub E ->
  (P E -> P' E) -> (forall b p, sub b p -> sub' b p) -> entry_in P' n own m sub' E.
Proof. intros H HP Hsub Hw. destruct (H Hw) as (?&?&?&?&Hs). split_and!; auto. intros Hl. destruct (Hs Hl). auto. Qed.

Lemma mapped_restamped n own m h h' p : restamped h h' -> mapped n own m h p -> mapped n own m h' p.
Proof.
  intros Hc. revert own p. induction n as [|n IH]; intros own p H; [done|]. intros i Hi Hw. pose proof (Hc (p + 8 * i)) as Hr.
  rewrite (restamp_walkable _ _ Hr) in Hw. destruct (H i Hi Hw) as (Hp&_&Ho&H3&Hs).
  rewrite (restamp_present _ _ Hr), (restamp_cow_able _ _ Hr Hp), (restamp_ps _ _ Hr), (restamp_leaf _ _ Hr), (restamp_target _ _ Hr).
  split; [done|]. split; [done|]. split; [done|]. split; [done|]. intros Hl. destruct (Hs Hl). split; [done|]. by apply IH.
Qed.

(** ** The walk *)

Lemma ld64_st64 h p v q : ld64 (st64 h p v) q = if decide (q / 8 = p / 8) then v else ld64 h q.
Proof.
  unfold ld64, st64. destruct (decide _) as [->|]; [by rewrite lookup_insert_eq|by rewrite lookup_insert_ne].
Qed.

Lemma st64_st64 h p v w : st64 (st64 h p v) p w = st64 h p w.
Proof. apply insert_insert_eq. Qed.

Lemma with_heap_idem s h h' : with_heap (with_heap s h) h' = with_heap s h'.
Proof. done. Qed.

Lemma makecow_page_wp boundary addr ep sz s (Q : unit -> VM -> Prop) X :
  Q tt (with_heap s (st64 (h_heap (vhost s)) ep
    ((if addr <? boundary then cow_bits else plain_bits) (ld64 (h_heap (vhost s)) ep)))) ->
  wp (makecow_page boundary false addr ep sz) Q X s.
Proof.
  intros HQ. unfold makecow_page. destruct (addr <? boundary).
  - wp_step. wp_step. apply wp_rd. wp_step. unfold cow_bits in HQ. apply wp_when; intros Hf; rewrite Hf in HQ.
    + wp_step. apply wp_wr. wp_step. apply wp_rd. apply wp_wr. wp_step. apply wp_rd.
      rewrite !andb_false_r. wp_step. wp_step. apply wp_rd. apply wp_wr.
      revert HQ. cbn [vhost with_heap h_heap]. by rewrite !ld64_st64_same, !st64_st64.
    + wp_step. apply wp_rd. rewrite !andb_false_r. wp_step. wp_step. apply wp_rd. by apply wp_wr.
  - wp_step. wp_step. wp_step. apply wp_rd. by apply wp_wr.
Qed.

Lemma lor_lt x y k : 0 <= x < 2 ^ k -> 0 <= y < 2 ^ k -> 0 <= x .| y < 2 ^ k.
Proof.
  intros Hx Hy. destruct (decide (x = 0)) as [->|]; [by rewrite Z.lor_0_l|].
  destruct (decide (y = 0)) as [->|]; [by rewrite Z.lor_0_r|].
  assert (0 <= k) by (destruct (decide (0 <= k)); [done|]; rewrite Z.pow_neg_r in * by lia; lia).
  assert (0 <= x .| y) as H0 by (apply Z.lor_nonneg; lia).
  assert (x .| y <> 0) by (intros H'; apply Z.lor_eq_0_iff in H'; lia).
  split; [done|]. apply Z.log2_lt_pow2; [lia|]. rewrite Z.log2_lor by lia.
  apply Z.max_lub_lt; apply Z.log2_lt_pow2; lia.
Qed.

Lemma index_shift i k : 0 <= i < 512 -> 12 <= k <= 39 -> 0 <= i .<< k < 2 ^ 48.
Proof.
  intros Hi Hk. unfold shl64. rewrite Z.shiftl_mul_pow2 by lia.
  assert (0 < 2 ^ k <= 2 ^ 39) by (split; [lia|apply Z.pow_le_mono_r; lia]).
  rewrite wrap64_small by (unfold u64; nia). nia.
Qed.

(** The first address that an entry of a table maps, when the table maps from [base]. *)
Definition entry_address (n : nat) (base i : Z) : Z :=
  match n with
  | 4%nat => i .<< 39
  | 3%nat => base .| (i .<< 30)
  | 2%nat => base .| (i .<< 21)
  | _ => base .| (i .<< 12)
  end.

Lemma entry_address_bound n base i : 0 <= base < 2 ^ 48 -> 0 <= i < 512 -> 0 <= entry_address n base i < 2 ^ 48.
Proof.
  intros Hb Hi. pose proof (index_shift i) as Hs. unfold entry_address.
  destruct n as [|[|[|[|[|n]]]]]; first [apply Hs; lia|apply lor_lt; [done|apply Hs; lia]].
Qed.

(** No entry that is followed for an address below the boundary is writable. *)
Fixpoint sealed_below (boundary : Z) (n : nat) (m : vMemory) (h : heap) (p base : Z) : Prop :=
  match n with
  | O => True
  | S n' => forall i, 0 <= i < 512 ->
      let E := ld64 h (p + 8 * i) in let a := entry_address n base i in
      walkable n E = true ->
      (a < boundary -> any_bit E PDE64_RW = false) /\
      (leaf n E = false -> sealed_below boundary n' m h (main_at m (target n E)) a)
  end.

(** The words (by number) of the entries in the tables, with the addresses they map. *)
Fixpoint entry_word (n : nat) (m : vMemory) (h : heap) (p base w a : Z) : Prop :=
  match n with
  | O => False
  | S n' => exists i, 0 <= i < 512 /\
      let E := ld64 h (p + 8 * i) in let b := entry_address n base i in
      any_bit E PDE64_PRESENT = true /\
      ((w = (p + 8 * i) / 8 /\ a = b) \/ (leaf n E = false /\ entry_word n' m h (main_at m (target n E)) b w a))
  end.

(** What the walk has changed: an entry for an address below the boundary was made copy-on-write,
    one for an address at or above it lost its accessed bit. *)
Definition marked (boundary : Z) (entries : Z -> Z -> Prop) (h0 h : heap) : Prop := forall q,
  ld64 h q = ld64 h0 q \/
  (ld64 h q = cow_bits (ld64 h0 q) /\ exists a, entries (q / 8) a /\ a < boundary) \/
  (ld64 h q = plain_bits (ld64 h0 q) /\ exists a, entries (q / 8) a /\ boundary <= a).

Lemma marked_restamped b R h0 h : marked b R h0 h -> restamped h0 h.
Proof. intros H q. unfold restamp. destruct (H q) as [->|[[-> _]|[-> _]]]; auto. Qed.

Lemma sealed_below_restamped b n m h h' p base : restamped h h' -> sealed_below b n m h p base -> sealed_below b n m h' p base.
Proof.
  intros Hc. revert p base. induction n as [|n IH]; intros p base H; [done|]. intros i Hi E a Hw. pose proof (Hc (p + 8 * i)) as Hr.
  fold E in Hr. rewrite (restamp_walkable _ _ Hr) in Hw. destruct (H i Hi Hw) as [Hrw Hs]. split.
  - intros Ha. by apply (restamp_rw _ _ Hr), Hrw.
  - rewrite (restamp_leaf _ _ Hr), (restamp_target _ _ Hr). intros Hl. by apply IH, Hs.
Qed.

(** With a boundary above all addresses everything is sealed. *)
Lemma sealed_below_all b n own m h p base : 2 ^ 48 <= b -> 0 <= base < 2 ^ 48 ->
  mapped n own m h p -> sealed_below b n m h p base -> sealed n own m h p.
Proof.
  intros Hb. revert own p base. induction n as [|n IH]; intros own p base Hbase Hm Hs; [done|]. intros i Hi Hw.
  pose proof (entry_address_bound (S n) base i Hbase Hi) as Ha.
  destruct (Hm i Hi Hw) as (Hp&_&Ho&H3&Hsub), (Hs i Hi Hw) as [Hrw Hbel]. split_and!; [done|apply Hrw; lia|done|done|].
  intros Hl. destruct (Hsub Hl) as [Hin Hmap]. split; [done|]. eapply IH; [|exact Hmap|by apply Hbel]. done.
Qed.

Section makecow.
Variables (boundary : Z) (s : VM) (entries : Z -> Z -> Prop).
Abbreviation m := (vm s).
Abbreviation h0 := (h_heap (vhost s)).
Definition entry_sealed (n : nat) (h : heap) (q a : Z) : Prop := let E := ld64 h q in walkable (S n) E = true ->
  (a < boundary -> any_bit E PDE64_RW = false) /\
  (leaf (S n) E = false -> sealed_below boundary n m h (main_at m (target (S n) E)) a).
(** The walk over the table [p], or over one entry, is done. *)
Definition walked_to (h : heap) (P : heap -> Prop) (t : VM) : Prop :=
  exists h', t = with_heap s h' /\ marked boundary entries h0 h' /\ restamped h h' /\ P h'.

Lemma entry_sealed_restamped n h h' q a : restamped h h' -> entry_sealed n h q a -> entry_sealed n h' q a.
Proof.
  intros Hc H Hw. pose proof (Hc q) as Hr. rewrite (restamp_walkable _ _ Hr) in Hw. destruct (H Hw) as [Hrw Hs]. split.
  - intros Ha. by apply (restamp_rw _ _ Hr), Hrw.
  - rewrite (restamp_leaf _ _ Hr), (restamp_target _ _ Hr). intros Hl. by eapply sealed_below_restamped; [|by apply Hs].
Qed.

Lemma marked_st64 h q a : marked boundary entries h0 h -> entries (q / 8) a ->
  let h1 := st64 h q ((if a <? boundary then cow_bits else plain_bits) (ld64 h q)) in
  marked boundary entries h0 h1 /\ restamped h h1.
Proof.
  intros Hm Ha h1. split.
  - intros x. unfold h1. rewrite ld64_st64. destruct (decide _) as [E|]; [|apply Hm]. rewrite E.
    assert (ld64 h0 x = ld64 h0 q) as -> by (unfold ld64; by rewrite E).
    pose proof (Hm q) as [->|[[-> Hc]|[-> Hc]]]; destruct (Z.ltb_spec a boundary);
      rewrite ?cow_bits_idem, ?cow_of_plain, ?plain_of_cow, ?plain_of_plain; eauto 6.
  - intros x. unfold h1. rewrite ld64_st64. destruct (decide _) as [E|]; [|by left].
    assert (ld64 h x = ld64 h q) as -> by (unfold ld64; by rewrite E). unfold restamp. destruct (a <? boundary); auto.
Qed.

Lemma loop_seals n p base (body : Z -> M VM unit) h : marked boundary entries h0 h ->
  (forall i h1, 0 <= i < 512 -> marked boundary entries h0 h1 ->
     wp (body i) (fun _ => walked_to h1 (fun h' => entry_sealed n h' (p + 8 * i) (entry_address (S n) base i))) (fun _ _ => False) (with_heap s h1)) ->
  wp (for_range 512 0 body) (fun _ => walked_to h (fun h' => sealed_below boundary (S n) m h' p base)) (fun _ _ => False) (with_heap s h).
Proof.
  intros Hm Hbody.
  apply (wp_for_range (fun i => walked_to h (fun h' => forall j, 0 <= j < i -> entry_sealed n h' (p + 8 * j) (entry_address (S n) base j)))).
  - exists h. split_and!; [done|done|apply restamped_refl|lia].
  - intros i t Hi (h1&->&Hm1&Hr1&Hdone). change (Z.of_nat 512) with 512 in Hi.
    eapply wp_mono; [apply Hbody; [lia|done]| |done]. intros _ t' (h2&->&Hm2&Hr2&He). exists h2.
    split_and!; [done|done|by eapply restamped_trans|]. intros j Hj.
    destruct (decide (j = i)) as [->|]; [done|]. apply (entry_sealed_restamped _ h1); [done|]. apply Hdone. lia.
  - intros t (h1&->&Hm1&Hr1&Hdone). exists h1. split_and!; [done|done|done|]. intros j Hj. apply Hdone. lia.
Qed.

(** The callback and what is below, for one entry. *)
Lemma entry_seals n own h q addr sz (k : M VM unit) : marked boundary entries h0 h -> entries (q / 8) addr ->
  entry_in (fun _ => True) (S n) own m (fun b p' => mapped n b m h0 p') (ld64 h0 q) -> any_bit (ld64 h q) PDE64_PRESENT = true ->
  (leaf (S n) (ld64 h0 q) = true -> forall h1 X, restamp (ld64 h0 q) (ld64 h1 q) -> wp k (fun _ t' => t' = with_heap s h1) X (with_heap s h1)) ->
  (forall h1, marked boundary entries h0 h1 -> leaf (S n) (ld64 h0 q) = false ->
     in_main m (target (S n) (ld64 h0 q)) -> restamp (ld64 h0 q) (ld64 h1 q) -> restamp (ld64 h q) (ld64 h1 q) ->
     mapped n (cow_able (ld64 h0 q)) m h0 (main_at m (target (S n) (ld64 h0 q))) ->
     wp k (fun _ => walked_to h1 (fun h' => sealed_below boundary n m h' (main_at m (target (S n) (ld64 h0 q))) addr))
       (fun _ _ => False) (with_heap s h1)) ->
  wp (makecow_page boundary false addr q sz ;;; k)
    (fun _ => walked_to h (fun h' => entry_sealed n h' q addr)) (fun _ _ => False) (with_heap s h).
Proof.
  intros Hm Ha He Hpr Hleaf Hk. wp_step. apply makecow_page_wp. cbn [vhost with_heap h_heap].
  destruct (marked_st64 h q addr Hm Ha) as [Hm1 Hr1]. set (h1 := st64 h q _) in *. change (with_heap (with_heap s h) h1) with (with_heap s h1).
  pose proof (marked_restamped _ _ _ _ Hm1 q) as Hr01. rewrite <-(restamp_present _ _ (Hr1 q)), (restamp_present _ _ Hr01) in Hpr.
  assert (walkable (S n) (ld64 h0 q) = true) as Hw by (unfold walkable; destruct n as [|[|n']]; rewrite ?any_bit_lor_r, Hpr; done).
  destruct (He Hw) as (_&_&Hown&Hps&Hsub).
  assert (addr < boundary -> forall h2, restamped h1 h2 -> any_bit (ld64 h2 q) PDE64_RW = false) as Hseal.
  { intros Hlt h2 Hr2. apply (restamp_rw _ _ (Hr2 q)). unfold h1. rewrite ld64_st64_same, (proj2 (Z.ltb_lt _ _) Hlt), cow_rw.
    rewrite <-(restamp_present _ _ (Hr1 q)), (restamp_present _ _ Hr01), Hpr. apply andb_false_r. }
  destruct (leaf (S n) (ld64 h0 q)) eqn:El.
  - eapply wp_mono; [apply (Hleaf eq_refl _ (fun _ _ => False)), Hr01| |done]. intros _ t ->. exists h1. split_and!; [done|done|done|].
    intros _. split; [intros Hlt; apply (Hseal Hlt h1), restamped_refl|]. by rewrite (restamp_leaf _ _ Hr01), El.
  - destruct (Hsub eq_refl) as [Hin Hmap]. eapply wp_mono; [apply Hk; try done; apply Hr1| |done].
    intros _ t (h2&->&Hm2&Hr2&Hs2). exists h2. split_and!; [done|done|by eapply restamped_trans|].
    intros _. split; [intros Hlt; by apply (Hseal Hlt)|]. pose proof (marked_restamped _ _ _ _ Hm2 q) as Hr02.
    by rewrite (restamp_target _ _ Hr02).
Qed.

(** An entry that is not present is not followed. *)
Lemma absent_seals n own h q a : marked boundary entries h0 h -> any_bit (ld64 h q) PDE64_PRESENT = false ->
  entry_in (fun _ => True) (S n) own m (fun b p' => mapped n b m h0 p') (ld64 h0 q) ->
  walked_to h (fun h' => entry_sealed n h' q a) (with_heap s h).
Proof.
  intros Hm Hp He. exists h. split_and!; [done|done|apply restamped_refl|]. intros Hw. exfalso.
  pose proof (marked_restamped _ _ _ _ Hm q) as Hr. rewrite (restamp_walkable _ _ Hr) in Hw.
  destruct (He Hw) as [Hp' _]. rewrite (restamp_present _ _ Hr) in Hp. congruence.
Qed.

Lemma wp_seq_ret {S} (c : M S unit) Q X t : wp (c ;;; ret tt) Q X t -> wp c Q X t.
Proof. unfold wp, bind, ret. by destruct (c t) as [[[]|] ?]. Qed.

(** Every entry of the table [p], or of a table below it, is in [entries]. *)
Abbreviation known n p base := (forall w a, entry_word n m h0 p base w a -> entries w a).

Lemma known_entry n p base i : known (S n) p base -> 0 <= i < 512 -> any_bit (ld64 h0 (p + 8 * i)) PDE64_PRESENT = true ->
  entries ((p + 8 * i) / 8) (entry_address (S n) base i).
Proof. intros Hk Hi Hp. apply Hk. exists i. split; [done|]. split; [done|]. by left. Qed.
Lemma known_below n p base i : known (S n) p base -> 0 <= i < 512 -> any_bit (ld64 h0 (p + 8 * i)) PDE64_PRESENT = true ->
  leaf (S n) (ld64 h0 (p + 8 * i)) = false ->
  known n (main_at m (target (S n) (ld64 h0 (p + 8 * i)))) (entry_address (S n) base i).
Proof. intros Hk Hi Hp Hl w a Hw. apply Hk. exists i. split; [done|]. split; [done|]. by right. Qed.

Lemma foreach_pt_seals own pt base h : marked boundary entries h0 h -> mapped 1 own m h0 pt -> known 1 pt base ->
  wp (foreach_pt id (makecow_page boundary false) pt base)
    (fun _ => walked_to h (fun h' => sealed_below boundary 1 m h' pt base)) (fun _ _ => False) (with_heap s h).
Proof.
  intros Hm Hmap Hk. apply loop_seals; [done|]. intros i h1 Hi Hm1. wp_step. unfold entry_at. wp_step. cbn beta iota.
  unfold id. cbn [vhost with_heap h_heap]. unfold pte_from_index.
  apply wp_when; intros Hp; [|apply (absent_seals 0 own); [done|done|by apply Hmap]]. apply wp_seq_ret.
  rewrite (restamp_present _ _ (marked_restamped _ _ _ _ Hm1 (pt + 8 * i))) in Hp.
  apply (entry_seals 0 own); [done|by apply (known_entry 0)|by apply Hmap|by rewrite (restamp_present _ _ (marked_restamped _ _ _ _ Hm1 _))|by intros|by intros ???].
Qed.

Lemma foreach_pd_seals own pd base h : marked boundary entries h0 h -> mapped 2 own m h0 pd -> known 2 pd base ->
  wp (foreach_pd id (makecow_page boundary false) pd base)
    (fun _ => walked_to h (fun h' => sealed_below boundary 2 m h' pd base)) (fun _ _ => False) (with_heap s h).
Proof.
  intros Hm Hmap Hk. apply loop_seals; [done|]. intros i h1 Hi Hm1. wp_step. unfold entry_at. wp_step. cbn beta iota.
  unfold id. cbn [vhost with_heap h_heap]. pose proof (marked_restamped _ _ _ _ Hm1 (pd + 8 * i)) as Hr.
  apply wp_when; intros Hp; [|apply (absent_seals 1 own); [done|done|by apply Hmap]]. unfold pt_from_index.
  pose proof Hp as Hp0. rewrite (restamp_present _ _ Hr) in Hp0.
  apply (entry_seals 1 own); [done|by apply (known_entry 1)|by apply Hmap|done| |].
  - intros Hl h2 X _. cbn [leaf] in Hl. rewrite (restamp_ps _ _ Hr), Hl. by apply wp_ret.
  - intros h2 Hm2 Hl Hin Hr02 _ Hmap2. rewrite (restamp_ps _ _ Hr). pose proof Hl as Hl'. cbn [leaf] in Hl'. rewrite Hl'. cbn [negb when].
    wp_step. unfold table_at. wp_step. wp_step. wp_step. unfold id. cbn [vm with_heap].
    change (?E .& PDE64_ADDR_MASK) with (target 2 E). rewrite (restamp_target _ _ Hr), page_at_main by done.
    eapply foreach_pt_seals; [done|exact Hmap2|]. exact (known_below 1 pd base i Hk Hi Hp0 Hl).
Qed.

Lemma skip_main (t : VM) a : in_main (vm t) a -> u64 a -> a mod 4096 = 0 -> (physbase (vm t) ⊕ size (vm t) <=? a) = false.
Proof.
  unfold in_main, within, PAGE_SIZE. rewrite !andb_true_iff, !Z.leb_le, Z.leb_gt. intros [[_ H1] H2] Hu Hal.
  enough (a < a ⊕ 4096) by lia. unfold add64, wrap64, u64 in *.
  destruct (decide (a + 4096 < W64)); [rewrite Z.mod_small by lia; lia|].
  exfalso. replace ((a + 4096) mod W64) with (a + 4096 - W64) in * by (apply Z.mod_unique with 1; lia). lia.
Qed.

Lemma foreach_pdpt_seals own pdpt base h : marked boundary entries h0 h -> mapped 3 own m h0 pdpt -> known 3 pdpt base ->
  wp (foreach_pdpt id (makecow_page boundary false) true pdpt base)
    (fun _ => walked_to h (fun h' => sealed_below boundary 3 m h' pdpt base)) (fun _ _ => False) (with_heap s h).
Proof.
  intros Hm Hmap Hk. apply loop_seals; [done|]. intros i h1 Hi Hm1. wp_step. unfold entry_at. wp_step. cbn beta iota.
  unfold id. cbn [vhost with_heap h_heap]. pose proof (marked_restamped _ _ _ _ Hm1 (pdpt + 8 * i)) as Hr.
  apply wp_when; intros Hp; [|apply (absent_seals 2 own); [done|done|by apply Hmap]]. unfold pd_from_index.
  pose proof Hp as Hp0. rewrite (restamp_present _ _ Hr) in Hp0.
  assert (any_bit (ld64 h0 (pdpt + 8 * i)) PDE64_PS = false) as Hps.
  { destruct (Hmap i Hi) as (_&_&_&H3&_); [cbn [walkable]; done|by apply H3]. }
  apply (entry_seals 2 own); [done|by apply (known_entry 2)|by apply Hmap|done|done|].
  intros h2 Hm2 Hl Hin Hr02 _ Hmap2. wp_step. wp_step. cbn [vhost with_heap h_heap].
  rewrite (restamp_ps _ _ Hr02), Hps. wp_step. unfold skip_table. wp_step. unfold id. cbn [vm with_heap].
  destruct (target_aligned 3 (ld64 h1 (pdpt + 8 * i))) as [Hal Hu].
  change (?E .& PDE64_ADDR_MASK) with (target 3 E). rewrite (restamp_target _ _ Hr) in *. rewrite skip_main by done. cbn [andb].
  wp_step. unfold table_at. wp_step. wp_step. wp_step. cbn [vm with_heap]. rewrite page_at_main by done.
  eapply foreach_pd_seals; [done|exact Hmap2|]. exact (known_below 2 pdpt base i Hk Hi Hp0 Hl).
Qed.

Lemma foreach_page_seals pml4 : page_at m (page_tables m) = Ok pml4 ->
  mapped 4 true m h0 pml4 -> known 4 pml4 0 ->
  wp (foreach_page id (makecow_page boundary false) true)
    (fun _ => walked_to h0 (fun h' => sealed_below boundary 4 m h' pml4 0)) (fun _ _ => False) s.
Proof.
  intros Hroot Hmap Hk. unfold foreach_page. wp_step. wp_step. wp_step. unfold table_at at 1. wp_step. wp_step. wp_step.
  unfold id at 1 2. rewrite Hroot. assert (with_heap s h0 = s) as E0 by by destruct s as [[] ?].
  assert (forall body Q X, wp (for_range 512 0 body) Q X (with_heap s h0) -> wp (for_range 512 0 body) Q X s) as Hs by (intros; by rewrite <-E0).
  apply Hs, loop_seals; [by left|]. intros i h1 Hi Hm1.
  wp_step. unfold entry_at. wp_step. cbn beta iota. unfold id. cbn [vhost with_heap h_heap].
  pose proof (marked_restamped _ _ _ _ Hm1 (pml4 + 8 * i)) as Hr.
  apply wp_when; intros Hp; [|apply (absent_seals 3 true); [done|done|by apply Hmap]]. unfold pdpt_from_index.
  pose proof Hp as Hp0. rewrite (restamp_present _ _ Hr) in Hp0.
  apply (entry_seals 3 true); [done|by apply (known_entry 3)|by apply Hmap|done|done|].
  intros h2 Hm2 Hl Hin Hr02 _ Hmap2.
  wp_step. unfold skip_table. wp_step. unfold id. cbn [vm with_heap].
  destruct (target_aligned 4 (ld64 h1 (pml4 + 8 * i))) as [Hal Hu].
  change (?E .& not64 0xFFF) with (target 4 E). rewrite (restamp_target _ _ Hr) in *. rewrite skip_main by done. cbn [andb].
  wp_step. unfold table_at. wp_step. wp_step. wp_step. cbn [vm with_heap]. rewrite page_at_main by done.
  eapply foreach_pdpt_seals; [done|exact Hmap2|]. exact (known_below 3 pml4 0 i Hk Hi Hp0 Hl).
Qed.
End makecow.

(** What the walk makes of the tables: entries for addresses below the boundary are sealed, and only
    the words of entries are touched. *)
Definition made_cow (boundary : Z) (s : VM) (pml4 : Z) (t : VM) : Prop :=
  exists h, t = with_heap s h /\
    marked boundary (entry_word 4 (vm s) (h_heap (vhost s)) pml4 0) (h_heap (vhost s)) h /\
    mapped 4 true (vm s) h pml4 /\ sealed_below boundary 4 (vm s) h pml4 0 /\
    (2 ^ 48 <= boundary -> sealed 4 true (vm s) h pml4 /\ frozen 4 true (vm s) h pml4).

Lemma foreach_page_makecow_made kernel_end boundary s pml4 : page_at (vm s) (page_tables (vm s)) = Ok pml4 ->
  mapped 4 true (vm s) (h_heap (vhost s)) pml4 ->
  wp (foreach_page_makecow kernel_end boundary false) (fun _ t => kernel_end <= boundary /\ made_cow boundary s pml4 t)
    (fun e t => boundary < kernel_end /\ t = s /\ e = MemoryException "Shared memory boundary was illegal (zero)" boundary 0 false) s.
Proof.
  intros Hroot Hm. unfold foreach_page_makecow. destruct (Z.ltb_spec boundary kernel_end) as [Hlt|Hle]; [by apply wp_throw|].
  eapply wp_mono; [by apply (foreach_page_seals boundary s (entry_word 4 (vm s) (h_heap (vhost s)) pml4 0))| |done].
  intros _ t (h&->&Hmk&Hr&Hs). split; [done|]. assert (mapped 4 true (vm s) h pml4) as Hm' by by eapply mapped_restamped.
  exists h. split_and!; [done..|]. intros Hb. assert (sealed 4 true (vm s) h pml4) as Hse by by eapply (sealed_below_all boundary).
  split; [done|]. by apply sealed_frozen.
Qed.

Lemma entry_word_bound n m h p base w a : 0 <= base < 2 ^ 48 -> entry_word n m h p base w a -> a < 2 ^ 48.
Proof.
  revert p base. induction n as [|n IH]; intros p base Hb; [done|]. intros (i&Hi&_&[[_ ->]|[_ Hw]]).
  - by apply entry_address_bound.
  - eapply IH; [|exact Hw]. by apply entry_address_bound.
Qed.

(** The walk over everything. *)
Definition walked (n : nat) (own : bool) (s : VM) (p : Z) (t : VM) : Prop :=
  exists h, t = with_heap s h /\
    (forall q, ld64 h q = ld64 (h_heap (vhost s)) q \/ ld64 h q = cow_bits (ld64 (h_heap (vhost s)) q)) /\
    sealed n own (vm s) h p.

Lemma foreach_page_makecow_wp kernel_end boundary s pml4 :
  kernel_end <= boundary -> 2 ^ 48 <= boundary -> page_at (vm s) (page_tables (vm s)) = Ok pml4 ->
  mapped 4 true (vm s) (h_heap (vhost s)) pml4 ->
  wp (foreach_page_makecow kernel_end boundary false) (fun _ t => walked 4 true s pml4 t) (fun _ _ => False) s.
Proof.
  intros Hk Hb Hroot Hm. eapply wp_mono; [by apply foreach_page_makecow_made| |intros e t [H _]; lia].
  intros _ t (_&h&->&Hmk&_&_&Hfr). exists h. split_and!; [done| |by apply Hfr]. intros q.
  destruct (Hmk q) as [?|[[? _]|[_ (a&Ha&Hge)]]]; [by left|by right|]. apply entry_word_bound in Ha; [lia|lia].
Qed.

(** C11: on page tables in main memory (every table inside main memory, no 1GB pages, nothing
    writable under a read-only table), [foreach_page_makecow] without the splitting of accessed
    2MB pages, for every boundary of shared memory.  A boundary below the kernel's end is refused.
    Otherwise it always returns; it changes nothing but entries of the tables: one for an address
    below the boundary to its copy-on-write form (same address, same present bit), one for an
    address at or above it only by clearing its accessed bit.  After it no entry that is followed
    for an address below the boundary is writable, and with a boundary above all addresses the
    tables are [frozen]: ready to be shared by forks. *)
Theorem makecow_freezes kernel_end boundary s pml4 : page_at (vm s) (page_tables (vm s)) = Ok pml4 ->
  mapped 4 true (vm s) (h_heap (vhost s)) pml4 ->
  wp (foreach_page_makecow kernel_end boundary false) (fun _ t => kernel_end <= boundary /\ made_cow boundary s pml4 t)
    (fun e t => boundary < kernel_end /\ t = s /\ e = MemoryException "Shared memory boundary was illegal (zero)" boundary 0 false) s.
Proof. apply foreach_page_makecow_made. Qed.

(** ** A checker for page tables *)

Section checker.
Variable Pb : Z -> bool.

Fixpoint tables_inb (n : nat) (own : bool) (m : vMemory) (h : heap) (p : Z) : bool :=
  match n with
  | O => true
  | S n' => forallb (fun i =>
      let E := ld64 h (p + 8 * Z.of_nat i) in
      if walkable n E then
        any_bit E PDE64_PRESENT && Pb E && (negb (cow_able E) || own) &&
        (negb (n =? 3)%nat || negb (any_bit E PDE64_PS)) &&
        (if leaf n E then true
         else if within m (target n E) PAGE_SIZE then tables_inb n' (cow_able E) m h (main_at m (target n E)) else false)
      else true) (seq 0 512)
  end.

Lemma tables_inb_sound (P : Z -> Prop) n own m h p : (forall E, Pb E = true -> P E) ->
  tables_inb n own m h p = true -> tables_in P n own m h p.
Proof.
  intros HPb. revert own p. induction n as [|n IH]; intros own p; [done|]. intros H i Hi Hw.
  pose proof (proj1 (forallb_forall _ _) H (Z.to_nat i)) as Hi'. cbv beta zeta in Hi'. rewrite Z2Nat.id in Hi' by lia.
  rewrite Hw in Hi'. specialize (Hi' ltac:(apply in_seq; lia)). rewrite !andb_true_iff in Hi'.
  destruct Hi' as ((((Hp&HP)&Hown)&H3)&Hsub). split_and!; [done|by apply HPb| | |].
  - intros Hc. by rewrite Hc in Hown.
  - intros [= ->]. by apply negb_true_iff in H3.
  - intros Hl. rewrite Hl in Hsub. destruct (within _ _ _) eqn:Ew; [|done]. split; [done|by apply IH].
Qed.
End checker.
