(* ===== verification/PageSetup.v ===== *)
(** * Building the page tables of a machine

    [setup_amd64_paging] and [add_remappings] (lib/tinykvm/amd64/paging.cpp): the identity
    mapping of the main memory, the kernel area, the protection of the ELF segments, the
    remapped areas and the vsyscall page. *)
From stdpp Require Import base tactics list numbers strings gmap.
From Stdlib Require Import ZArith Lia Bool.
From S2P Require Import Prelude MMap Host MemoryBanks VMemory Paging ForkIsolation MakeCow.
Local Open Scope Z_scope.

Record VirtualRemapping := mkRemapping {
  rm_phys : Z; rm_virt : Z; rm_size : Z; rm_writable : bool; rm_executable : bool; rm_blackout : bool }.

(** The fields of an ELF program header that are used. *)
Record Elf64_Phdr := mkPhdr { p_type : Z; p_flags : Z; p_offset : Z; p_vaddr : Z; p_filesz : Z; p_memsz : Z }.
Definition PT_LOAD : Z := 1.
Definition PF_X : Z := 1.
Definition PF_W : Z := 2.
Definition PF_R : Z := 4.

(** ** State: the memory, the mmap cache (for remappings without a physical address), and the
    local variable [free_page] *)
Record SU := mkSU { su_vm : VM; su_mm : MachineMaps.mm_state; free_page : Z }.

Definition on_vm {A} (m : M VM A) : M SU A :=
  fun s => let (r, v) := m (su_vm s) in (r, mkSU v (su_mm s) (free_page s)).
Definition on_mm {A} (m : M MachineMaps.mm_state A) : M SU A :=
  fun s => let (r, mm) := m (su_mm s) in (r, mkSU (su_vm s) mm (free_page s)).

(** [auto addr = free_page; free_page += 0x1000;] *)
Definition take_free_page : M SU Z :=
  let! s := get in
  put (mkSU (su_vm s) (su_mm s) (free_page s ⊕ 0x1000)) ;;;
  ret (free_page s).

(** [table[i]] and [table[i] = v] *)
Definition at_idx (table i : Z) : M SU Z := on_vm (rd (table + 8 * i)).
Definition set_idx_ (table i v : Z) : M SU unit := on_vm (wr (table + 8 * i) v).
(** [memory.at(addr)] *)
Definition host_at (addr : Z) : M SU Z := on_vm (let! s := get in lift (at_ (vm s) addr 8)).
Definition host_page_at (addr : Z) : M SU Z := on_vm (resolve addr).

Definition USER_RW : Z := PDE64_PRESENT .| PDE64_USER .| PDE64_RW.

(** ** Remappings *)

Definition PD_ALIGN_MASK : Z := 2 ^ 21 - 1.
Definition PDPT_ALIGN_MASK : Z := 2 ^ 30 - 1.

(** [for (i = 0; i < 512; i++)] over the 2MB entries of a gigapage *)
Definition remap_2mb_entries (pd paddr_base flags last_pd_pages : Z) (last_pd blackout : bool) : M SU unit :=
  for_range 512 0 (fun i =>
    if (negb last_pd || (i <? last_pd_pages)) && negb blackout then
      set_idx_ pd i (PDE64_PRESENT .| flags .| PDE64_PS .| (paddr_base ⊕ (i .<< 21)))
    else set_idx_ pd i 0).

(** The loop over gigapages; [virt_giga_page] is not advanced by [continue]. *)
Fixpoint remap_gigapages (fuel : nat) (n_pd n_pd_pages virt_giga_page pdpt paddr_base flags n_2mb_pages : Z)
    (blackout : bool) : M SU unit :=
  match fuel with
  | O => ret tt
  | S fuel' =>
      let last_pd := n_pd =? n_pd_pages - 1 in
      let! e := at_idx pdpt virt_giga_page in
      let! skip :=
        (if e =? 0 then
           let! giga_page := take_free_page in
           set_idx_ pdpt virt_giga_page (USER_RW .| giga_page) ;;;
           if (0 <? n_pd) && (n_pd - 1 <? n_pd_pages) && blackout then
             set_idx_ pdpt virt_giga_page 0 ;;; ret true
           else ret false
         else ret false) in
      if skip then
        remap_gigapages fuel' (n_pd + 1) n_pd_pages virt_giga_page pdpt paddr_base flags n_2mb_pages blackout
      else
        let! e := at_idx pdpt virt_giga_page in
        let! pd := host_page_at (e .& PDE64_ADDR_MASK) in
        remap_2mb_entries pd paddr_base flags (n_2mb_pages .& 511) last_pd blackout ;;;
        remap_gigapages fuel' (n_pd + 1) n_pd_pages (virt_giga_page + 1) pdpt paddr_base flags n_2mb_pages blackout
  end.

Definition add_remappings (r : VirtualRemapping) (pml4 flags : Z) : M SU unit :=
  let! s := get in
  if rm_virt r <=? free_page s then throw (MachineException "Invalid remapping address" (rm_virt r))
  else if negb (rm_size r mod PAGE_SIZE =? 0) then throw (MachineException "Invalid remapping size" (rm_size r))
  else
    let virt_tera_page := (rm_virt r .>> 39) .& 511 in
    let virt_giga_page := (rm_virt r .>> 30) .& 511 in
    let! paddr_base :=
      (if (rm_phys r =? 0) && negb (rm_blackout r) then
         let! a := on_mm (MachineMaps.mmap_allocate (rm_size r ⊕ PD_ALIGN_MASK) false) in
         ret ((a ⊕ PD_ALIGN_MASK) .& not64 PD_ALIGN_MASK)
       else ret (rm_phys r)) in
    let! e := at_idx pml4 virt_tera_page in
    when (e =? 0)
      (let! pdpt_addr := take_free_page in
       set_idx_ pml4 virt_tera_page (USER_RW .| pdpt_addr)) ;;;
    let! e := at_idx pml4 virt_tera_page in
    let! pdpt := host_page_at (e .& PDE64_ADDR_MASK) in
    let n_pd_pages := ((rm_size r ⊕ PDPT_ALIGN_MASK) .>> 30) .& 511 in
    let n_2mb_pages := (rm_size r ⊕ PD_ALIGN_MASK) .>> 21 in
    remap_gigapages (Z.to_nat n_pd_pages) 0 n_pd_pages virt_giga_page pdpt paddr_base flags n_2mb_pages (rm_blackout r).

Definition remap_flags (r : VirtualRemapping) : Z :=
  let flags := PDE64_USER .| PDE64_NX in
  let flags := if rm_writable r then flags .| PDE64_RW else flags .| PDE64_G in
  let flags := if rm_executable r then flags .& not64 PDE64_NX else flags in
  if rm_blackout r then 0 else flags.

(** ** ELF segments *)

(** Fill a new 4K table for the 2MB page [idx] and install it in [pd[idx]]. *)
Definition split_2mb (pd idx base_giga_page entry_flags : Z) : M SU unit :=
  let! s := get in
  set_idx_ pd idx (USER_RW .| free_page s) ;;;
  let! pagetable := host_at (free_page s) in
  for_range 512 0 (fun i =>
    set_idx_ pagetable i (entry_flags .| ((base_giga_page .<< 30) .| (idx .<< 21) .| (i .<< 12)))) ;;;
  let! _ := take_free_page in ret tt.

(** The 2MB leaf entry of a segment. *)
Definition leaf_entry (addr2m : Z) (read write exec : bool) : Z :=
  let e := PDE64_PRESENT .| PDE64_USER .| PDE64_NX .| PDE64_PS .| addr2m in
  let e := if read then e else e .& not64 PDE64_PRESENT in
  let e := if write then e .| (PDE64_RW .| PDE64_DIRTY) else e .| PDE64_G in
  if exec then e .& not64 PDE64_NX else e.

(** The protection bits of a 4K entry of a segment. *)
Definition protect_entry (e : Z) (read write exec : bool) : Z :=
  let e := if exec then e .& not64 PDE64_NX else e .| PDE64_NX in
  let e := if read then e else e .& not64 PDE64_PRESENT in
  if write then e .| PDE64_DIRTY else (e .& not64 PDE64_RW) .| PDE64_G.

Section segments.
Variables (pd base_giga_page : Z) (split_hugepages_ : bool).

(** One turn of the loop over the pages of a segment; returns the next address. *)
Definition segment_page (addr end_ : Z) (read write exec : bool) : M SU Z :=
  let pdidx := (addr .>> 21) .& 511 in
  let! e := at_idx pd pdidx in
  if (addr .& not64 0xFFFFFFFFFFE00FFF =? 0) && (negb split_hugepages_ || negb write)
     && (addr ⊕ 2 ^ 21 <=? end_) && (e .& PDE64_PS =? PDE64_PS) then
    set_idx_ pd pdidx (leaf_entry ((base_giga_page .<< 30) .| (pdidx .<< 21)) read write exec) ;;;
    ret (addr ⊕ 2 ^ 21)
  else
    when (any_bit e PDE64_PS) (split_2mb pd pdidx base_giga_page (USER_RW .| PDE64_NX)) ;;;
    let! e := at_idx pd pdidx in
    let! pagetable := host_at (e .& PDE64_ADDR_MASK) in
    let entry := (addr .>> 12) .& 511 in
    let! pte := at_idx pagetable entry in
    set_idx_ pagetable entry (protect_entry pte read write exec) ;;;
    ret (addr ⊕ 0x1000).

Fixpoint segment_pages (fuel : nat) (addr end_ : Z) (read write exec : bool) : M SU unit :=
  if addr <? end_ then
    match fuel with
    | O => throw OutOfFuel
    | S fuel' => let! addr := segment_page addr end_ read write exec in segment_pages fuel' addr end_ read write exec
    end
  else ret tt.

Definition load_segment_pages (image_base : Z) (hdr : Elf64_Phdr) : M SU unit :=
  when (p_type hdr =? PT_LOAD)
    (let len := p_filesz hdr in
     let load_address := image_base ⊕ p_vaddr hdr in
     let! s := get in
     if negb (safely_within (vm (su_vm s)) load_address len) then
       throw (MachineException "Unsafe PT_LOAD segment or executable too big" 0)
     else
       let base := load_address .& not64 0xFFF in
       let end_ := (load_address ⊕ len ⊕ 0xFFF) .& not64 0xFFF in
       segment_pages (Z.to_nat ((end_ - base) / 4096)) base end_
         (any_bit (p_flags hdr) PF_R) (any_bit (p_flags hdr) PF_W) (any_bit (p_flags hdr) PF_X)).
End segments.

(** ** The whole setup *)

(** The low 2MB: kernel pages at fixed places. *)
Definition setup_lowpage (lowpage physbase_ : Z) : M SU unit :=
  set_idx_ lowpage 0 0 ;;;
  set_idx_ lowpage 1 (PDE64_PRESENT .| PDE64_RW .| PDE64_NX .| (physbase_ ⊕ 0x1000)) ;;;
  set_idx_ lowpage 6 (PDE64_PRESENT .| PDE64_G .| PDE64_NX .| (physbase_ ⊕ VSYS_ADDR)) ;;;
  set_idx_ lowpage 7 (PDE64_PRESENT .| PDE64_G .| PDE64_NX .| (physbase_ ⊕ TSS_SMP_ADDR)) ;;;
  set_idx_ lowpage (INTR_ASM_ADDR .>> 12) (PDE64_PRESENT .| PDE64_G .| (physbase_ ⊕ INTR_ASM_ADDR)) ;;;
  set_idx_ lowpage (IST_ADDR .>> 12) (PDE64_PRESENT .| PDE64_RW .| PDE64_NX .| (physbase_ ⊕ IST_ADDR)) ;;;
  set_idx_ lowpage ((IST_ADDR .>> 12) + 1) 0 ;;;
  set_idx_ lowpage (USER_ASM_ADDR .>> 12) (PDE64_PRESENT .| PDE64_USER .| PDE64_G .| (physbase_ ⊕ USER_ASM_ADDR)).

Definition heap_flags (m : vMemory) : Z :=
  let flags := PDE64_USER .| PDE64_RW in if executable_heap m then flags else flags .| PDE64_NX.

Definition MAX_FREE_PAGE : Z := 509 * 0x1000.

(** The entries of the 2MB pages from [lo]; the second loop splits them while table pages are
    left (its exit condition stays false once it is). *)
Definition setup_heap (pd lo n base_giga_page flags : Z) (split_all : bool) : M SU unit :=
  for_range (Z.to_nat (n - lo)) lo (fun i =>
    set_idx_ pd i (PDE64_PRESENT .| PDE64_PS .| flags .| ((base_giga_page .<< 30) ⊕ (i .<< 21)))) ;;;
  when split_all
    (for_range (Z.to_nat (Z.min n 512 - lo)) lo (fun i =>
       let! s := get in
       when (free_page s <? MAX_FREE_PAGE)
         (let! e := at_idx pd i in
          when (any_bit e PDE64_PS) (split_2mb pd i base_giga_page (PDE64_PRESENT .| flags))))).

(** The kernel area up to the last table, then user pages up to 2MB. *)
Definition setup_low_area (lowpage base_giga_page base_2mb_page : Z) : M SU unit :=
  let! s := get in
  let kernel_begin_idx := PT_ADDR .>> 12 in
  let kernel_end_idx := (free_page s .>> 12) .& 511 in
  for_range (Z.to_nat (kernel_end_idx - kernel_begin_idx)) kernel_begin_idx (fun i =>
    set_idx_ lowpage i (PDE64_PRESENT .| PDE64_G .| PDE64_NX)) ;;;
  for_range (Z.to_nat (512 - kernel_end_idx)) kernel_end_idx (fun i =>
    set_idx_ lowpage i (USER_RW .| PDE64_NX .| (base_giga_page .<< 30) .| (base_2mb_page .<< 21) .| (i .<< 12))).

Definition setup_amd64_paging (phdrs : list Elf64_Phdr) (image_base : Z) (remappings : list VirtualRemapping)
    (split_hugepages_ split_all_hugepages_during_loading : bool) : M SU Z :=
  let! s := get in
  let m := vm (su_vm s) in
  let PD_PAGES := (size m ⊕ (2 ^ 30 - 1)) .>> 30 in
  let PD_END := 0x3000 ⊕ mul64 PD_PAGES 0x1000 in
  let pml4_addr := page_tables m in
  let! pagetable := host_at pml4_addr in
  let pml4 := pagetable in
  let pdpt := pagetable + 0x1000 in
  let lowpage := pagetable + 0x2000 in
  let pd := pagetable + 0x3000 in
  let vdso_pdpt := pagetable + PD_END in
  let vsyscall_pd := pagetable + PD_END + 0x1000 in
  let vsyscall_pt := pagetable + PD_END + 0x2000 in
  put (mkSU (su_vm s) (su_mm s) (pml4_addr ⊕ PD_END ⊕ 0x3000)) ;;;
  set_idx_ pml4 0 (USER_RW .| (pml4_addr ⊕ 0x1000)) ;;;
  set_idx_ pml4 511 (PDE64_PRESENT .| PDE64_USER .| (pml4_addr ⊕ PD_END)) ;;;
  let base_giga_page := (physbase m .>> 30) .& 511 in
  for_range (Z.to_nat PD_PAGES) 0 (fun n_pd =>
    set_idx_ pdpt (base_giga_page + n_pd) (USER_RW .| (pml4_addr ⊕ 0x3000 ⊕ mul64 n_pd 0x1000))) ;;;
  let base_2mb_page := (physbase m .>> 21) .& 511 in
  set_idx_ pd base_2mb_page (USER_RW .| (pml4_addr ⊕ 0x2000)) ;;;
  setup_lowpage lowpage (physbase m) ;;;
  let! s := get in
  set_idx_ pd (base_2mb_page + 1) (USER_RW .| free_page s) ;;;
  let! pte := host_at (free_page s) in
  for_range 512 0 (fun i =>
    set_idx_ pte i (USER_RW .| PDE64_NX .| ((base_giga_page .<< 30) ⊕ ((base_2mb_page + 1) .<< 21) ⊕ (i .<< 12)))) ;;;
  let! _ := take_free_page in
  setup_heap pd (base_2mb_page + 2) (512 * PD_PAGES) base_giga_page (heap_flags m) split_all_hugepages_during_loading ;;;
  for_each phdrs (load_segment_pages pd base_giga_page split_hugepages_ image_base) ;;;
  for_each remappings (fun r => add_remappings r pml4 (remap_flags r)) ;;;
  set_idx_ vdso_pdpt 511 (PDE64_PRESENT .| PDE64_USER .| PDE64_G .| (pml4_addr ⊕ PD_END ⊕ 0x1000)) ;;;
  set_idx_ vsyscall_pd 507 (PDE64_PRESENT .| PDE64_USER .| PDE64_G .| (pml4_addr ⊕ PD_END ⊕ 0x2000)) ;;;
  set_idx_ vsyscall_pt 0 (PDE64_PRESENT .| PDE64_USER .| PDE64_G .| (physbase m ⊕ VSYS_ADDR)) ;;;
  setup_low_area lowpage base_giga_page base_2mb_page ;;;
  let! s := get in
  if physbase m ⊕ 2 ^ 21 <=? free_page s then throw (MachineException "Pagetable setup exceeded 2MB limit" 0)
  else
    page_at_walk su_vm (physbase m ⊕ 0x1000) (fun addr ep sz =>
      let! entry := on_vm (rd ep) in
      if negb (addr =? physbase m ⊕ 0x1000) || negb (sz =? PAGE_SIZE)
         || negb (entry .& PDE64_ADDR_MASK =? physbase m ⊕ 0x1000)
      then throw (MachineException "Corrupted kernel-page during paging initialization" 0) else ret tt) false ;;;
    ret (free_page s).

(** ** A small machine *)

(** 4MB of memory at host address 0x10000000, set up with one read-only and one writable
    segment, and the tables that come out of the setup. *)
Definition demo_memory : vMemory :=
  mkVMem [] 0 0x20000 PT_ADDR 0 0x10000000 0x400000 true (-1) 0x400000 true false true false false
    (mkBanks [] 5 ARENA_BASE_ADDRESS ARENA_BASE_ADDRESS FIRST_BANK_IDX 0 0 2048) [] [] MMAP_PHYS_BASE MMAP_PHYS_BASE [] false false 0 None.
Definition demo_phdrs : list Elf64_Phdr :=
  [mkPhdr PT_LOAD (PF_R + PF_X) 0 0x200000 0x1800 0x1800; mkPhdr PT_LOAD (PF_R + PF_W) 0x2000 0x202000 0x800 0x1000].
Definition demo_maps : MachineMaps.mm_state :=
  MachineMaps.mkMM (MMapCache.mkCache [] [] 0x300000 true 4096) 0x300000.
Definition demo_setup : result Z * SU :=
  setup_amd64_paging demo_phdrs 0 [] true false
    (mkSU (mkVM (mkHost ∅ [(0x10000000, 0x400000)] ∅) demo_memory) demo_maps 0).
Definition demo_vm : VM :=
  let s := su_vm (snd demo_setup) in mkVM (vhost s) (set_m_kernel_end (vm s) (free_page (snd demo_setup))).

Example demo_setup_ok : fst demo_setup = Ok 0x11000 /\
  tables_inb (fun _ => true) 4 true demo_memory (h_heap (vhost demo_vm)) (ptr demo_memory + PT_ADDR) = true.
Proof. split; vm_compute; reflexivity. Qed.

Lemma demo_mapped : mapped 4 true (vm demo_vm) (h_heap (vhost demo_vm)) (ptr demo_memory + PT_ADDR).
Proof. apply (tables_inb_sound (fun _ => true)); [done|]. vm_compute. reflexivity. Qed.

(** With shared memory from 3MB on. *)
Lemma makecow_freezes_witness :
  wp (foreach_page_makecow (m_kernel_end (vm demo_vm)) 0x300000 false)
    (fun _ t => m_kernel_end (vm demo_vm) <= 0x300000 /\ made_cow 0x300000 demo_vm (ptr demo_memory + PT_ADDR) t)
    (fun e t => 0x300000 < m_kernel_end (vm demo_vm) /\ t = demo_vm /\
       e = MemoryException "Shared memory boundary was illegal (zero)" 0x300000 0 false) demo_vm.
Proof. apply makecow_freezes; [vm_compute; reflexivity|exact demo_mapped]. Defined.

(** Memory from the boundary on stays writable, for the master and all forks at once: the entries
    of 0x202000 and of 0x300000. *)
Example shared_memory_stays_writable :
  let h := h_heap (vhost (snd (foreach_page_makecow (m_kernel_end (vm demo_vm)) 0x300000 false demo_vm))) in
  any_bit (ld64 h (ptr demo_memory + 0x10000 + 8 * 2)) PDE64_RW = false /\
  any_bit (ld64 h (ptr demo_memory + 0x10000 + 8 * 256)) PDE64_RW = true.
Proof. vm_compute. split; reflexivity. Qed.
