(* ===== verification/Fork.v ===== *)
(** * Forking a machine

    The memory side of [Machine::Machine(const Machine&, options)] (lib/tinykvm/machine.cpp),
    [vMemory]'s constructors (memory.cpp), [Machine::setup_cow_mode] (vcpu.cpp),
    [vMemory::get_writable_page], [get_userpage_at], [get_kernelpage_at] and
    [vMemory::fork_reset].  The theorems: a fork of a prepared master satisfies the
    invariant of ForkIsolation, and whatever a fork does with its pages afterwards, the
    master's memory stays as it was. *)
From stdpp Require Import base tactics list numbers strings gmap relations.
From Stdlib Require Import ZArith Lia Bool.
From S2P Require Import Prelude Host MemoryBanks VMemory Paging ForkIsolation MakeCow PageSetup.
Local Open Scope Z_scope.

(** ** Options and constructors *)

Record MachineOptions := mkOptions {
  o_banks : BankOptions;
  o_remappings : list VirtualRemapping;
  o_master_direct_memory_writes : bool;
  o_split_hugepages : bool;
  o_executable_heap : bool;
  o_mmap_backed_files : bool;
  o_reset_keep_all_work_memory : bool;
  o_reset_free_work_mem : Z }.

(** The end of the virtual memory space, remappings included. *)
Definition remote_end_of (base : Z) (remappings : list VirtualRemapping) : Z :=
  fold_left (fun e r => if rm_blackout r then e else Z.max e (rm_virt r ⊕ rm_size r)) remappings base.

Definition no_banks : MemoryBanks := mkBanks [] 0 0 0 0 0 0 0.

Section fork.
Context `{os : HostOS}.

(** [vMemory(m, options, ph, sf, p, s, fd, own)] *)
Definition vMemory_new (o : MachineOptions) (ph sf p s fd : Z) (own forked : bool) : M VM unit :=
  let sz := overaligned_memsize s in
  let mmap_phys := MMAP_PHYS_BASE ⊕ (if ph =? 0 then 0 else 0x2000000000) in
  upd (fun _ => mkVMem [] ph sf (ph ⊕ PT_ADDR) 0 p sz own fd
    (remote_end_of (ph ⊕ sz) (o_remappings o)) true
    (o_master_direct_memory_writes o) (o_split_hugepages o) (o_executable_heap o) (o_mmap_backed_files o)
    no_banks [] [] mmap_phys mmap_phys [] forked false 0 None) ;;;
  on_banks (MemoryBanks_new (o_banks o)).

(** Fields taken over from the master in the loaning constructor. *)
Definition loan_fields (other m : vMemory) : vMemory :=
  mkVMem (cow_written_pages m) (physbase m) (safebase m) (page_tables m) (unlocked_pages m) (ptr m)
    (size m) (owned m) (snapshot_fd m) (remote_end other) (remote_must_update_gigapages m)
    (main_memory_writes m) (split_hugepages m) (executable_heap other) (mmap_backed_files m)
    (banks m) (mmap_ranges m) (foreign_banks m) (mmap_physical_begin other) (mmap_physical other)
    (m_bank_idx_free_list m) (m_forked m) (m_prepped m) (m_kernel_end m) (remote m).

(** [vMemory(m, options, other)] *)
Definition vMemory_loan (o : MachineOptions) (other : vMemory) : M VM unit :=
  vMemory_new o (physbase other) (safebase other) (ptr other) (size other) (-1) false true ;;;
  upd (loan_fields other) ;;;
  on_banks (init_from (banks other)).

(** ** Copy-on-write mode *)

Record SRegs := mkSRegs { cr0 : Z; cr3 : Z }.
Definition CR0_WP : Z := Z.shiftl 1 16.

(** [setup_cow_mode(other)]: returns the control registers that are given to the vCPUs. *)
Definition setup_cow_mode (other : vMemory) (other_sregs : SRegs) : M VM SRegs :=
  let! pml4 := vm_new_page in
  let! src := lift (page_at other (physbase other ⊕ PT_ADDR)) in
  on_pages (page_duplicate (pmem pml4) src) ;;;
  upd (fun m => set_page_tables m (p_addr pml4)) ;;;
  let! s := get in
  writable_page_at (physbase (vm s) ⊕ IST_ADDR) (PDE64_RW .| PDE64_NX) (mkWPO false true) ;;;
  let! s := get in
  ret (mkSRegs (cr0 other_sregs .& not64 CR0_WP) (page_tables (vm s))).

(** [prepare_copy_on_write(max_work_mem, shared_memory_boundary, split_accessed_hugepages)]:
    returns the control registers the vCPU ends up with. *)
Definition prepare_copy_on_write (max_work_mem shared_memory_boundary : Z) (split_accessed_hugepages : bool)
    (sregs : SRegs) : M VM SRegs :=
  upd (fun m => set_m_prepped m true) ;;;
  let boundary := if shared_memory_boundary =? 0 then W64 - 1 else shared_memory_boundary in
  on_banks (set_max_pages (max_work_mem / PAGE_SIZE) 0) ;;;
  if max_work_mem =? 0 then
    upd (fun m => set_main_memory_writes m false) ;;;
    upd (fun m => set_page_tables m (physbase m ⊕ PT_ADDR)) ;;;
    let! s := get in
    foreach_page_makecow (m_kernel_end (vm s)) boundary split_accessed_hugepages ;;;
    ret (mkSRegs (cr0 sregs .| CR0_WP) (page_tables (vm s)))
  else
    let! s := get in
    foreach_page_makecow (m_kernel_end (vm s)) boundary split_accessed_hugepages ;;;
    let! s := get in
    setup_cow_mode (vm s) sregs.

Definition set_remote (m : vMemory) (r : option vMemory) : vMemory :=
  mkVMem (cow_written_pages m) (physbase m) (safebase m) (page_tables m) (unlocked_pages m) (ptr m)
    (size m) (owned m) (snapshot_fd m) (remote_end m) (remote_must_update_gigapages m)
    (main_memory_writes m) (split_hugepages m) (executable_heap m) (mmap_backed_files m)
    (banks m) (mmap_ranges m) (foreign_banks m) (mmap_physical_begin m) (mmap_physical m)
    (m_bank_idx_free_list m) (m_forked m) (m_prepped m) (m_kernel_end m) r.

Definition install_vmem (idx : Z) (v : VirtualMem) : M VM unit :=
  on_vhost (install_memory idx (v_physbase v) (v_ptr v) (v_size v)).

(** The memory of a fork, up to the vCPU: [Machine(const Machine& other, options)].  A new VM has
    no memory slots. *)
Definition fork_memory (o : MachineOptions) (other : vMemory) : M VM unit :=
  vMemory_loan o other ;;;
  upd (fun m => set_m_kernel_end m (m_kernel_end other)) ;;;
  if negb (m_prepped other) || main_memory_writes other then
    throw (MachineException "Source Machine is not prepared for forking" 0)
  else
    on_vhost (modify (fun h => mkHost (h_heap h) (h_live h) ∅)) ;;;
    let! s := get in
    install_vmem 0 (vmem (vm s)) ;;;
    install_mmap_ranges other ;;;
    match remote other with
    | Some r => upd (fun m => set_remote m (Some r)) ;;; install_vmem 1 (vmem r)
    | None => ret tt
    end.

(** The memory part of the constructor; [sregs] are the special registers of the master. *)
Definition Machine_fork (o : MachineOptions) (other : vMemory) (sregs : SRegs) : M VM SRegs :=
  fork_memory o other ;;; setup_cow_mode other sregs.

(** ** Pages by virtual address *)

(** [get_writable_page] without the test for a foreign address. *)
Definition get_writable_page_own (addr flags : Z) (zeroes dirty : bool) : M VM Z :=
  let! w := writable_page_at addr flags (mkWPO zeroes false) in
  when dirty (set_dirty w) ;;;
  ret (wp_page w).

(** Run an operation on the remote memory, in its own state. *)
Definition on_remote {A} (r : vMemory) (op : M VM A) : M VM A :=
  fun s => let (res, s') := op (mkVM (vhost s) r) in (res, mkVM (vhost s') (set_remote (vm s) (Some (vm s')))).

Fixpoint get_writable_page_in (m : vMemory) (addr flags : Z) (zeroes dirty : bool) : M VM Z :=
  match remote m with
  | Some r =>
      if is_foreign_address m addr then on_remote r (get_writable_page_in r addr flags zeroes dirty)
      else get_writable_page_own addr flags zeroes dirty
  | None => get_writable_page_own addr flags zeroes dirty
  end.
Definition get_writable_page (addr flags : Z) (zeroes dirty : bool) : M VM Z :=
  let! s := get in get_writable_page_in (vm s) addr flags zeroes dirty.

Fixpoint get_page_in (m : vMemory) (flags addr : Z) : M VM Z :=
  match remote m with
  | Some r => if is_foreign_address m addr then on_remote r (get_page_in r flags addr)
              else readable_page_at addr flags
  | None => readable_page_at addr flags
  end.
Definition get_page_at (flags addr : Z) : M VM Z := let! s := get in get_page_in (vm s) flags addr.
Definition get_kernelpage_at (addr : Z) : M VM Z := get_page_at PDE64_PRESENT addr.
Definition get_userpage_at (addr : Z) : M VM Z := get_page_at (PDE64_PRESENT .| PDE64_USER) addr.

(** [expectedUsermodeFlags] *)
Definition expectedUsermodeFlags (m : vMemory) : Z :=
  let flags := PDE64_PRESENT .| PDE64_USER .| PDE64_RW in
  if executable_heap m then flags else flags .| PDE64_NX.

(** ** Resetting a fork *)

(** The callback of the restore loop. *)
Definition restore_page (main : vMemory) (addr ep page_size : Z) : M VM unit :=
  let! e := rd ep in
  let bank_addr := e .& PDE64_ADDR_MASK in
  let! s := get in
  let! our_page := lift (safely_at (vm s) bank_addr page_size) in
  let! src := lift (safely_at_const main addr page_size) in
  on_pages (page_duplicate our_page src).

(** [fork_reset(main_vm, options)]: true when a full reset was done. *)
Definition fork_reset (main : vMemory) (o : MachineOptions) : M VM bool :=
  let full := on_banks (banks_reset (o_banks o)) ;;; upd (fun m => set_cow_written_pages m []) ;;; ret true in
  let! s := get in
  if o_reset_keep_all_work_memory o then
    let used := mul64 (banked_memory_pages (banks (vm s))) PAGE_SIZE in
    if negb (o_reset_free_work_mem o =? 0) && (o_reset_free_work_mem o <? used) then full
    else try_catch (for_each (cow_written_pages (vm s)) (fun addr => page_at_walk id addr (restore_page main) false) ;;; ret false) full
  else full.
End fork.

(** ** What a fork does with its pages *)

Section isolation.
Context `{os : HostOS} `{laws : !HostLaws os}.

(** C7: on a fork (a machine that satisfies the invariant, in particular with
    [main_memory_writes] off), [writable_page_at] changes no word of main memory, whether it
    returns or throws.  When it returns the invariant holds again, and if the caller asked
    for the writable bit, the page is a data page of the fork's own banks and the entry is in
    a page table of the fork's own banks. *)
Theorem fork_isolation Ψ s addr flags opts : fork_inv Ψ s ->
  wp (writable_page_at addr flags opts)
    (fun w s' => main_unchanged s s' /\ exists Ψ', fork_inv Ψ' s' /\
       (any_bit flags PDE64_RW = true ->
          Ψ' (wp_page w) = Some 0%nat /\ owned_page (vm s') (wp_page w) /\ entry_owned Ψ' (wp_entry w)))
    (fun _ s' => main_unchanged s s') s.
Proof.
  intros Hinv. eapply wp_mono; [by apply writable_page_at_wp| |done].
  intros w s' (Ψ'&(Hinv'&_&Hmu)&Hw). split; [done|]. exists Ψ'. split; [done|]. intros Hf.
  destruct (Hw Hf) as [Hp He]. split_and!; [done| |done]. by eapply fi_typed.
Qed.

Lemma get_writable_page_own_wp Ψ s addr flags z d : fork_inv Ψ s -> any_bit flags PDE64_RW = true ->
  wp (get_writable_page_own addr flags z d)
    (fun p s' => exists Ψ', step_ok Ψ s Ψ' s' /\ Ψ' p = Some 0%nat)
    (fun _ s' => main_unchanged s s') s.
Proof.
  intros Hinv Hf. unfold get_writable_page_own. wp_step. eapply wp_mono; [by apply writable_page_at_wp| |done].
  intros w s1 (Ψ1&Hst1&Hw). destruct (Hw Hf) as [Hp He]. wp_step. wp_step.
  - eapply set_dirty_spec; [apply Hst1|done|]. intros s2 Hst2. wp_step. exists Ψ1. split; [by eapply step_ok_trans|done].
  - wp_step. eauto.
Qed.

(** A fork at work: it asks for writable pages and stores to the pages it was given, in any
    order.  An exception stops it. *)
Inductive fork_state := Running (s : VM) (pages : list Z) | Stopped (s : VM).
Definition state_of (c : fork_state) : VM := match c with Running s _ => s | Stopped s => s end.

Inductive fork_step : fork_state -> fork_state -> Prop :=
| fs_page s pages addr flags z d p s' :
    any_bit flags PDE64_RW = true -> get_writable_page_own addr flags z d s = (Ok p, s') ->
    fork_step (Running s pages) (Running s' (p :: pages))
| fs_throw s pages addr flags z d e s' :
    any_bit flags PDE64_RW = true -> get_writable_page_own addr flags z d s = (Err e, s') ->
    fork_step (Running s pages) (Stopped s')
| fs_store s pages p i v :
    p ∈ pages -> 0 <= i < 512 ->
    fork_step (Running s pages) (Running (with_heap s (st64 (h_heap (vhost s)) (p + 8 * i) v)) pages).

Lemma store_data Ψ s p i v : fork_inv Ψ s -> Ψ p = Some 0%nat -> 0 <= i < 512 ->
  step_ok Ψ s Ψ (with_heap s (st64 (h_heap (vhost s)) (p + 8 * i) v)).
Proof.
  intros Hinv Hp Hi. destruct (typed_page _ _ _ _ Hinv Hp) as (Hal&_&Hown).
  destruct (fork_inv_write Ψ s (st64 (h_heap (vhost s)) (p + 8 * i) v) p) as [??]; [done|done| | |by split_and!].
  - intros q Hq Hout. apply ld64_st64_other; [unfold aligned8; dlia|done|]. intros <-. apply Hout. unfold in_page. lia.
  - intros n Hn. congruence.
Qed.

Lemma fork_step_inv s0 c c' : fork_step c c' ->
  (main_unchanged s0 (state_of c) /\
     match c with Running s l => exists Ψ, fork_inv Ψ s /\ Forall (fun p => Ψ p = Some 0%nat) l | Stopped _ => True end) ->
  main_unchanged s0 (state_of c') /\
     match c' with Running s l => exists Ψ, fork_inv Ψ s /\ Forall (fun p => Ψ p = Some 0%nat) l | Stopped _ => True end.
Proof.
  intros [s l addr flags z d p s' Hf E|s l addr flags z d e s' Hf E|s l p i v Hp Hi] [Hmu (Ψ&Hinv&Hl)]; simpl in *.
  - destruct (wp_run _ _ _ _ _ _ (get_writable_page_own_wp Ψ s addr flags z d Hinv Hf) E) as (Ψ'&(Hinv'&Hsub&Hmu')&Hp).
    split; [by eapply main_unchanged_trans|]. exists Ψ'. split; [done|]. constructor; [done|].
    eapply Forall_impl; [exact Hl|]. simpl. auto.
  - pose proof (wp_run _ _ _ _ _ _ (get_writable_page_own_wp Ψ s addr flags z d Hinv Hf) E) as Hmu'. simpl in Hmu'.
    split; [by eapply main_unchanged_trans|done].
  - rewrite Forall_forall in Hl. destruct (store_data Ψ s p i v Hinv (Hl p Hp) Hi) as (?&_&?).
    split; [by eapply main_unchanged_trans|]. exists Ψ. split; [done|]. by apply Forall_forall.
Qed.

(** However a fork interleaves requests for writable pages and stores to the pages it was
    given, including a request that throws, no word of the main memory it shares with its
    master and the other forks ever changes. *)
Theorem fork_run_keeps_main Ψ s c q : fork_inv Ψ s -> rtc fork_step (Running s []) c -> main_word (vm s) q ->
  ld64 (h_heap (vhost (state_of c))) q = ld64 (h_heap (vhost s)) q.
Proof.
  intros Hinv Hrun Hq.
  assert (main_unchanged s (state_of c) /\
     match c with Running s l => exists Ψ, fork_inv Ψ s /\ Forall (fun p => Ψ p = Some 0%nat) l | Stopped _ => True end) as [[_ H] _].
  { apply (rtc_ind_r (R := fork_step) (fun c => main_unchanged s (state_of c) /\
     match c with Running s l => exists Ψ, fork_inv Ψ s /\ Forall (fun p => Ψ p = Some 0%nat) l | Stopped _ => True end)
     (Running s [])); [|by intros ??? ? ?; eapply fork_step_inv|done].
    split; [apply main_unchanged_refl|eauto]. }
  by apply H.
Qed.
End isolation.

(** ** Creating a fork *)

Section creation.
Context `{os : HostOS} `{laws : !HostLaws os}.

(** Nothing but memory slots and slot indices changed. *)
Definition quiet (s s' : VM) : Prop :=
  h_heap (vhost s') = h_heap (vhost s) /\ h_live (vhost s') = h_live (vhost s) /\
  same_main (vm s) (vm s') /\ set_idx (banks (vm s')) 0 = set_idx (banks (vm s)) 0.

Lemma quiet_refl s : quiet s s.
Proof. split_and!; [done|done|apply same_main_refl|done]. Qed.
Lemma quiet_trans s1 s2 s3 : quiet s1 s2 -> quiet s2 s3 -> quiet s1 s3.
Proof.
  intros (?&?&(?&?&?&?&?&?)&?) (?&?&(?&?&?&?&?&?)&?). unfold quiet, same_main. split_and!; congruence.
Qed.

Lemma core_inv_quiet Ψ s s' : core_inv Ψ s -> quiet s s' -> core_inv Ψ s'.
Proof.
  intros [Hb Hc Hm Ht] (Eh&El&(E1&E2&E3&_&E5&_)&Ei).
  assert (forall {A} (f : MemoryBanks -> A), (forall b, f (set_idx b 0) = f b) -> f (banks (vm s')) = f (banks (vm s))) as Hf.
  { intros A f Hset. by rewrite <- (Hset (banks (vm s'))), Ei, Hset. }
  constructor; [|congruence| |].
  - destruct Hb as [b1 b2 b3 b4 b5 b6 b7 b8 b9 b10 b11 b12 b13]. simpl in *.
    constructor; simpl; rewrite ?Eh, ?El, ?(Hf _ m_mem), ?(Hf _ m_arena_next), ?(Hf _ m_num_pages), ?(Hf _ m_max_pages),
      ?(Hf _ m_hugepage_pages), ?(Hf _ m_capacity), ?(Hf _ reserved_banks) by done; done.
  - destruct Hm. constructor; rewrite ?E1, ?E2, ?E3, ?El, ?(Hf _ m_mem), ?(Hf _ m_arena_next) by done; done.
  - intros p n Hp. unfold owned_page. rewrite (Hf _ m_mem) by done. by eapply Ht.
Qed.

Lemma quiet_words s s' q : quiet s s' -> ld64 (h_heap (vhost s')) q = ld64 (h_heap (vhost s)) q.
Proof. by intros (->&_). Qed.

Lemma install_memory_quiet s i a p z : wp (on_vhost (install_memory i a p z)) (fun _ s' => quiet s s') (fun _ s' => quiet s s') s.
Proof.
  unfold wp, on_vhost, install_memory, bind, get. destruct (kvm_accepts _ _ _); simpl;
    (split_and!; [done|done|apply same_main_refl|done]).
Qed.

Lemma region_idx_quiet s : wp allocate_region_idx (fun _ s' => quiet s s') (fun _ s' => quiet s s') s.
Proof.
  unfold allocate_region_idx. wp_step. wp_step. destruct (last _).
  - unfold upd. wp_steps. split_and!; [done|done|split_and!; done|done].
  - apply wp_on_banks. unfold banks_allocate_region_idx, modify_banks. wp_steps.
    split_and!; [done|done|split_and!; done|]. simpl. done.
Qed.

Lemma mmap_ranges_quiet s other : wp (install_mmap_ranges other) (fun _ s' => quiet s s') (fun _ s' => quiet s s') s.
Proof.
  unfold install_mmap_ranges. apply (wp_for_each (fun _ t => quiet s t)); [apply quiet_refl| |done].
  intros _ v _ t _ Ht. wp_step. wp_step. wp_step; [by wp_step|]. wp_step.
  eapply wp_mono; [apply region_idx_quiet| |intros e t1 Ht1; by apply (quiet_trans s t)].
  intros i t1 Ht1. assert (quiet s t1) as Hq1 by by apply (quiet_trans s t).
  wp_step. eapply wp_mono; [apply install_memory_quiet| |intros e t2 Ht2; by apply (quiet_trans s t1)].
  intros [] t2 Ht2. unfold upd. wp_step. apply (quiet_trans s t1); [done|]. apply (quiet_trans t1 t2); [done|].
  split_and!; [done|done|split_and!; done|done].
Qed.

(** A master whose memory can be forked: prepared, its main memory mapped, its page tables
    frozen (no page of the main memory is writable except through copy-on-write). *)
Record forkable (o : MachineOptions) (other : vMemory) (h : host) : Prop := {
  fk_prepped : m_prepped other = true;
  fk_writes : main_memory_writes other = false;
  fk_opt : o_master_direct_memory_writes o = false;
  fk_ptr : ptr other mod 4096 = 0 /\ 0 < ptr other /\ ptr other + size other <= 2 ^ 47;
  fk_phys : physbase other mod 4096 = 0 /\ 0 <= physbase other;
  fk_size : 0 <= size other /\ size other mod 2 ^ 21 = 0 /\ PT_ADDR + 4096 <= size other;
  fk_arena : physbase other + size other <= m_arena_next (banks other) /\ m_arena_next (banks other) mod 2 ^ 21 = 0 /\
    m_arena_next (banks other) <= 2 ^ 49;
  fk_live : (ptr other, size other) ∈ h_live h;
  fk_cow : 0 <= max_cow_mem (o_banks o) < 2 ^ 32;
  fk_huge : 0 <= hugepages_arena_size (o_banks o) <= 2 ^ 42 /\ hugepages_arena_size (o_banks o) mod 2 ^ 21 = 0;
  fk_tables : frozen 4 true other (h_heap h) (main_at other (physbase other ⊕ PT_ADDR)) }.

Definition loaned (o : MachineOptions) (other : vMemory) : vMemory :=
  let maxp := max_cow_mem (o_banks o) / 4096 in
  let hp := hugepages_arena_size (o_banks o) / 4096 in
  let b := mkBanks [] 0 (m_arena_begin other.(banks)) (m_arena_next other.(banks)) FIRST_BANK_IDX hp 0 maxp in
  mkVMem [] (physbase other) (safebase other) (physbase other ⊕ PT_ADDR) 0 (ptr other) (size other) false (-1)
    (remote_end other) true false (o_split_hugepages o) (executable_heap other) (o_mmap_backed_files o)
    (set_capacity b (reserved_banks b)) [] [] (mmap_physical_begin other) (mmap_physical other) [] true false 0 None.

Lemma reserved_banks_pos b : 0 <= m_max_pages b -> 0 < reserved_banks b.
Proof.
  intros H. unfold reserved_banks, u32, N_PAGES.
  pose proof (Z.mod_pos_bound ((m_max_pages b + 4 * 512) mod 2 ^ 32 - 1) (2 ^ 32)).
  destruct (using_hugepages b); dlia.
Qed.

Lemma vMemory_loan_run o other h s : forkable o other h ->
  vMemory_loan o other s = (Ok tt, mkVM (vhost s) (loaned o other)).
Proof.
  intros []. 
  assert (overaligned_memsize (size other) = size other) as Esz.
  { unfold overaligned_memsize. rewrite add64_small by (unfold u64; lia). rewrite land_not_ones by (unfold u64; lia).
    change (2 ^ 21) with 2097152 in *. dlia. }
  assert (u32 (max_cow_mem (o_banks o) / 4096) = max_cow_mem (o_banks o) / 4096) as E1 by (unfold u32; rewrite Z.mod_small; dlia).
  assert (u32 (hugepages_arena_size (o_banks o) / 4096) = hugepages_arena_size (o_banks o) / 4096) as E2 by (unfold u32; rewrite Z.mod_small; dlia).
  assert ((hugepages_arena_size (o_banks o) / 4096) mod 512 = 0) as E3 by (change (2 ^ 21) with 2097152 in *; dlia).
  unfold vMemory_loan, vMemory_new, upd, on_banks, MemoryBanks_new, set_max_pages, init_from, modify_banks, reserve, grow,
    bind, modify, get, when, ret.
  destruct (negb _ || _); cbn; rewrite E1, E2; unfold N_HUGEPAGES; rewrite E3; cbn;
    (match goal with |- context [0 <? reserved_banks ?b] => replace (0 <? reserved_banks b) with true
       by (symmetry; apply Z.ltb_lt, reserved_banks_pos; cbn; dlia) end); cbn; unfold loan_fields, loaned; cbn;
    rewrite Esz, fk_opt0; reflexivity.
Qed.

Definition untyped : typing := fun _ => None.

Lemma loaned_core o other h : forkable o other h ->
  core_inv untyped (mkVM (mkHost (h_heap h) (h_live h) ∅) (set_m_kernel_end (loaned o other) (m_kernel_end other))).
Proof.
  intros []. unfold PT_ADDR in *. constructor; try done.
  - constructor; simpl; try done; try lia.
    + dlia.
    + dlia.
    + split; [apply Z.lt_le_incl, reserved_banks_pos; simpl; dlia|apply Z.le_refl].
  - constructor; simpl; try done; lia.
Qed.

(** The words of the main memory [m] are the same in both states, and the memory of [s'] is
    still that main memory. *)
Definition main_kept (m : vMemory) (h : host) (s' : VM) : Prop :=
  ptr (vm s') = ptr m /\ size (vm s') = size m /\
  forall q, main_word m q -> ld64 (h_heap (vhost s')) q = ld64 (h_heap h) q.

Lemma main_kept_trans m h s s' : main_kept m h s -> main_unchanged s s' -> main_kept m h s'.
Proof.
  intros (E1&E2&H) [(F1&F2&_) H']. split_and!; [congruence|congruence|]. intros q Hq.
  rewrite H'; [by apply H|]. unfold main_word in *. by rewrite E1, E2.
Qed.

(** The new root table: a copy of the master's. *)
Lemma new_root s s1 pg a : core_inv untyped s -> core_inv untyped s1 -> main_unchanged s s1 ->
  fresh_page untyped s s1 1 pg -> u64 a -> a mod 4096 = 0 -> in_main (vm s) a ->
  frozen 4 true (vm s) (h_heap (vhost s)) (main_at (vm s) a) ->
  let s2 := with_heap s1 (page_duplicate (pmem pg) (main_at (vm s) a) (h_heap (vhost s1))) in
  let s3 := mkVM (vhost s2) (set_page_tables (vm s2) (p_addr pg)) in
  fork_inv (typed_as untyped (pmem pg) 1 4) s3 /\ main_unchanged s1 s2.
Proof.
  intros Hcore Hcore1 Hmu1 Hfresh Hua Haal Hin Hfz s2 s3.
  pose proof Hfresh as (Hfr&Hbt&_&_&_&Hle&_). destruct (Hfr 0) as [Hown _]; [lia|]. rewrite Z.mul_0_r, Z.add_0_r in Hown.
  destruct (owned_page_spec _ _ _ (co_banks _ _ Hcore1) (co_main _ _ Hcore1) _ Hown) as (Hpal&_&Hnm).
  assert (main_at (vm s) a mod 4096 = 0) as Hsal by by apply (main_at_aligned _ _ _ (co_banks _ _ Hcore) (co_main _ _ Hcore)).
  assert (forall q, aligned8 q -> in_page (main_at (vm s) a) q -> main_word (vm s) q) as Hmw.
  { intros q ??. by eapply (main_page_word _ _ _ (co_banks _ _ Hcore) (co_main _ _ Hcore) a). }
  assert (pmem pg <> main_at (vm s) a) as Hne.
  { intros Heq. apply (Hnm (pmem pg)); [unfold in_page; lia|]. apply (same_main_word (vm s)); [apply Hmu1|].
    rewrite Heq. apply Hmw; [unfold aligned8; dlia|unfold in_page; lia]. }
  destruct (core_inv_write untyped s1 (page_duplicate (pmem pg) (main_at (vm s) a) (h_heap (vhost s1))) (pmem pg)) as [Hcore2 Hmu2]; [done|done| |].
  { intros q Hq Hout. apply ld64_page_duplicate_other; [unfold aligned8; dlia|done|done]. }
  split; [|done]. apply (core_inv_type _ _ (pmem pg) 4) in Hcore2; [|done|done].
  set (Ψ := typed_as untyped (pmem pg) 1 4) in *.
  assert (Ψ (pmem pg) = Some 4%nat) as HΨ.
  { unfold Ψ, typed_as. rewrite decide_True; [done|]. rewrite Z.sub_diag. split; [lia|done]. }
  apply fork_inv_core. split_and!.
  - destruct Hcore2 as [? ? [] ?]. by constructor.
  - exists (pmem pg). done.
  - intros p n Hp i Hi. unfold Ψ, typed_as in Hp. destruct (decide _) as [[H1 H2]|]; [|done]. simplify_eq.
    assert (p = pmem pg) as -> by dlia.
    change (h_heap (vhost s3)) with (page_duplicate (pmem pg) (main_at (vm s) a) (h_heap (vhost s1))).
    rewrite ld64_page_duplicate by (unfold aligned8; dlia). rewrite decide_True by lia.
    replace (main_at (vm s) a + (pmem pg + 8 * i - pmem pg)) with (main_at (vm s) a + 8 * i) by lia.
    destruct Hmu1 as [Hs1 Hw1]. rewrite Hw1 by (apply Hmw; [unfold aligned8; dlia|unfold in_page; lia]).
    apply (entry_ok_stable (vm s) _ _ (co_banks _ _ Hcore) (co_main _ _ Hcore) untyped Ψ 4 (vm s1) (h_heap (vhost s)));
      [done|done| |done|].
    + intros q Hq. rewrite <- Hw1 by done. apply ld64_page_duplicate_other; [unfold aligned8; dlia|apply Hq|].
      intros Hinq. apply (Hnm q); [done|]. by apply (same_main_word (vm s)).
    + by eapply frozen_entry_ok.
Qed.

Lemma frozen_same_main n own m m' h p : ptr m' = ptr m -> size m' = size m -> physbase m' = physbase m ->
  frozen n own m h p -> frozen n own m' h p.
Proof.
  intros E1 E2 E3. revert own p. induction n as [|n IH]; intros own p; [done|].
  intros H i Hi E Hw. destruct (H i Hi Hw) as [Hp H2]. split; [done|].
  assert (forall a, in_main m a -> in_main m' a) as Hin by (intros a; unfold in_main, within; by rewrite E2, E3).
  assert (forall a, main_at m' a = main_at m a) as Hat by (intros a; unfold main_at; by rewrite E1, E3).
  fold E in H2. clearbody E. destruct (is_copy_on_write E), (leaf (S n) E); rewrite ?Hat; try done.
  - destruct H2 as [? _]. auto.
  - destruct H2 as [? [?|[? ?]]]; [done|]. auto 6.
  - destruct H2. auto.
Qed.

Lemma setup_cow_mode_spec s other sregs a : core_inv untyped s -> u64 a -> a mod 4096 = 0 -> in_main (vm s) a ->
  a = physbase other ⊕ PT_ADDR -> page_at other a = Ok (main_at (vm s) a) ->
  frozen 4 true (vm s) (h_heap (vhost s)) (main_at (vm s) a) ->
  wp (setup_cow_mode other sregs)
    (fun r s' => (exists Ψ, fork_inv Ψ s') /\ main_kept (vm s) (vhost s) s' /\
       r = mkSRegs (cr0 sregs .& not64 CR0_WP) (page_tables (vm s')))
    (fun _ s' => main_kept (vm s) (vhost s) s') s.
Proof.
  intros Hcore Hua Haal Hin -> Hpa Hfz. unfold setup_cow_mode, vm_new_page, new_page.
  assert (forall s', main_unchanged s s' -> main_kept (vm s) (vhost s) s') as Hmk.
  { intros s' Hmu. eapply main_kept_trans; [|done]. by split_and!. }
  wp_step. eapply wp_mono; [apply alloc_core_spec; [done|lia]| |intros e s'; apply Hmk].
  intros pg s1 (Hcore1&Hmu1&Hfresh). wp_step. wp_step. rewrite Hpa. wp_step. apply wp_on_pages.
  destruct (new_root s s1 pg _ Hcore Hcore1 Hmu1 Hfresh Hua Haal Hin Hfz) as [Hinv3 Hmu2].
  set (s2 := with_heap s1 _) in *. wp_step. unfold upd. wp_step. wp_step. wp_step.
  set (s3 := mkVM (vhost s2) _) in *.
  assert (main_kept (vm s) (vhost s) s3) as Hmk3.
  { destruct (Hmk s2) as (?&?&?); [by eapply main_unchanged_trans|]. by split_and!. }
  wp_step. eapply wp_mono; [by apply writable_page_at_wp| |].
  - intros w s4 (Ψ4&(Hinv4&_&Hmu4)&_). wp_step. wp_step. wp_step.
    split_and!; [eauto|by eapply main_kept_trans|done].
  - intros e s4 Hmu4. by eapply main_kept_trans.
Qed.

(** Copy-on-write mode on a machine that has the main memory of a forkable master. *)
Lemma cow_mode_wp o other h sregs s : forkable o other h -> core_inv untyped s ->
  ptr (vm s) = ptr other -> size (vm s) = size other -> physbase (vm s) = physbase other -> main_kept other h s ->
  wp (setup_cow_mode other sregs)
    (fun r s' => (exists Ψ, fork_inv Ψ s') /\ main_kept other h s' /\ r = mkSRegs (cr0 sregs .& not64 CR0_WP) (page_tables (vm s')))
    (fun _ s' => main_kept other h s') s.
Proof.
  intros [] Hcore E1 E2 E3 (_&_&Hq). unfold PT_ADDR in *.
  assert (physbase other ⊕ 0x9000 = physbase other + 0x9000) as Ea by (apply add64_small; unfold u64; lia).
  assert (u64 (physbase other + 0x9000)) as Hua by (unfold u64; lia).
  assert (in_main (vm s) (physbase other + 0x9000)) as Hin.
  { apply (in_main_spec _ _ _ (co_banks _ _ Hcore) (co_main _ _ Hcore)); [done|]. rewrite E2, E3. lia. }
  assert (in_main other (physbase other + 0x9000)) as Hin' by (revert Hin; unfold in_main, within; by rewrite E2, E3).
  assert (main_at (vm s) (physbase other + 0x9000) = main_at other (physbase other + 0x9000)) as Eat by (unfold main_at; by rewrite E1, E3).
  assert (forall t, main_kept (vm s) (vhost s) t -> main_kept other h t) as Hback.
  { intros t (F1&F2&F). split_and!; [by rewrite F1, E1|by rewrite F2, E2|]. intros q Hq'. rewrite F; [by apply Hq|].
    revert Hq'. unfold main_word. by rewrite E1, E2. }
  eapply wp_mono; [apply (setup_cow_mode_spec s other sregs (physbase other + 0x9000)); try done| |].
  - dlia.
  - rewrite Eat. by apply page_at_main.
  - apply (frozen_stable _ _ _ (co_banks _ _ Hcore) (co_main _ _ Hcore) 4 true (vm s) (h_heap h)); [apply same_main_refl| |done|dlia|done|].
    { intros q Hm. apply Hq. revert Hm. unfold main_word. by rewrite E1, E2. }
    rewrite Eat. rewrite Ea in fk_tables0. by apply (frozen_same_main _ _ other).
  - intros r t (HΨ&Hk&Hr). split_and!; [done|by apply Hback|done].
  - intros e t. apply Hback.
Qed.

(** The state of a fork before the memory slots are filled. *)
Definition loaned_state (o : MachineOptions) (other : vMemory) (h : host) : VM :=
  mkVM (mkHost (h_heap h) (h_live h) ∅) (set_m_kernel_end (loaned o other) (m_kernel_end other)).

Lemma fork_memory_wp o other s0 : forkable o other (vhost s0) ->
  wp (fork_memory o other) (fun _ s' => quiet (loaned_state o other (vhost s0)) s') (fun _ s' => main_kept other (vhost s0) s') s0.
Proof.
  intros Hfk. pose proof Hfk as []. unfold fork_memory. wp_step. unfold wp at 1.
  rewrite (vMemory_loan_run o other (vhost s0)) by done. cbn beta iota.
  unfold upd. wp_step. wp_step. cbn [vm vhost]. rewrite fk_prepped0, fk_writes0. cbn [negb orb].
  wp_step. unfold on_vhost, wp at 1, modify. cbn [vm vhost].
  match goal with |- wp _ _ _ ?t => change t with (loaned_state o other (vhost s0)) end. set (s1 := loaned_state o other (vhost s0)).
  assert (forall s', quiet s1 s' -> main_kept other (vhost s0) s') as Hmk.
  { intros s' (Eh&_&(E1&E2&_)&_). split_and!; [done|done|]. intros q _. by rewrite Eh. }
  wp_step. wp_step. wp_step. eapply wp_mono; [apply install_memory_quiet| |intros e t Ht; by apply Hmk].
  intros [] s2 Hq2. wp_step. eapply wp_mono; [apply mmap_ranges_quiet| |intros e t Ht; apply Hmk; by eapply quiet_trans].
  intros [] s3 Hq3. assert (quiet s1 s3) as Hq13 by by eapply quiet_trans.
  destruct (remote other) as [r|]; [|by wp_step]. wp_step. unfold wp at 1. cbn beta iota.
  assert (quiet s1 (mkVM (vhost s3) (set_remote (vm s3) (Some r)))) as Hq4.
  { destruct Hq13 as (?&?&(?&?&?&?&?&?)&?). by split_and!. }
  eapply wp_mono; [apply install_memory_quiet| |intros e t Ht; apply Hmk; by eapply quiet_trans].
  intros [] s5 Hq5. by eapply quiet_trans.
Qed.

Lemma quiet_cow_mode o other h sregs s : forkable o other h -> quiet (loaned_state o other h) s ->
  wp (setup_cow_mode other sregs)
    (fun r s' => (exists Ψ, fork_inv Ψ s') /\ main_kept other h s' /\ r = mkSRegs (cr0 sregs .& not64 CR0_WP) (page_tables (vm s')))
    (fun _ s' => main_kept other h s') s.
Proof.
  intros Hfk Hq. pose proof Hq as (Eh&_&(E1&E2&E3&_)&_). apply (cow_mode_wp o); [done| |done|done|done|].
  - eapply core_inv_quiet; [by apply (loaned_core o other h)|done].
  - split_and!; [done|done|]. intros q _. by rewrite Eh.
Qed.

Lemma Machine_fork_wp o other sregs s0 : forkable o other (vhost s0) ->
  wp (Machine_fork o other sregs)
    (fun r s' => (exists Ψ, fork_inv Ψ s') /\ main_kept other (vhost s0) s' /\ cr3 r = page_tables (vm s'))
    (fun _ s' => main_kept other (vhost s0) s') s0.
Proof.
  intros Hfk. unfold Machine_fork. wp_step. eapply wp_mono; [by apply fork_memory_wp| |done].
  intros [] s1 Hq. eapply wp_mono; [by apply (quiet_cow_mode o)| |done]. intros r s2 (?&?&->). by split_and!.
Qed.

(** Creating a fork of a prepared master (main memory mapped, page tables frozen, the fork's
    options without direct memory writes) changes no word of the master's main memory, whether
    it succeeds or throws, and when it succeeds the fork satisfies the isolation invariant: its
    root table is a page of its own banks, loaded in CR3. *)
Theorem fork_creation o other sregs s0 r s' : forkable o other (vhost s0) ->
  Machine_fork o other sregs s0 = (r, s') ->
  main_kept other (vhost s0) s' /\
  forall regs, r = Ok regs -> (exists Ψ, fork_inv Ψ s') /\ cr3 regs = page_tables (vm s').
Proof.
  intros Hfk Hrun. pose proof (wp_run _ _ _ _ _ _ (Machine_fork_wp o other sregs s0 Hfk) Hrun) as H.
  destruct r as [regs|e]; [destruct H as (?&?&?)|]; split; try done. by intros ? [= <-].
Qed.
End creation.

(** ** Preparing a master *)

Section preparing.
Context `{os : HostOS}.

(** A machine that can be prepared: its page tables are [mapped] in its main memory, its banks
    have room for a bank, and the memory is placed as the constructor places it. *)
Record preparable (o : MachineOptions) (m : vMemory) (h : host) : Prop := {
  pr_opt : o_master_direct_memory_writes o = false;
  pr_ptr : ptr m mod 4096 = 0 /\ 0 < ptr m /\ ptr m + size m <= 2 ^ 47;
  pr_phys : physbase m mod 4096 = 0 /\ 0 <= physbase m;
  pr_size : 0 <= size m /\ size m mod 2 ^ 21 = 0 /\ PT_ADDR + 4096 <= size m;
  pr_arena : physbase m + size m <= m_arena_next (banks m) /\ m_arena_next (banks m) mod 2 ^ 21 = 0 /\
    m_arena_next (banks m) <= 2 ^ 49;
  pr_cap : 1 <= m_capacity (banks m);
  pr_live : (ptr m, size m) ∈ h_live h;
  pr_cow : 0 <= max_cow_mem (o_banks o) < 2 ^ 32;
  pr_huge : 0 <= hugepages_arena_size (o_banks o) <= 2 ^ 42 /\ hugepages_arena_size (o_banks o) mod 2 ^ 21 = 0;
  pr_kernel : 0 <= m_kernel_end m < 2 ^ 48;
  pr_tables : mapped 4 true m (h_heap h) (main_at m (physbase m ⊕ PT_ADDR)) }.

Lemma tables_same_main P n own m m' h p : ptr m' = ptr m -> size m' = size m -> physbase m' = physbase m ->
  tables_in P n own m h p -> tables_in P n own m' h p.
Proof.
  intros E1 E2 E3. revert own p. induction n as [|n IH]; intros own p; [done|].
  intros H i Hi Hw. destruct (H i Hi Hw) as (?&?&?&?&Hs). split_and!; try done. intros Hl. destruct (Hs Hl) as [Hin Ht].
  unfold in_main, within, main_at in *. rewrite E1, E2, E3. auto.
Qed.

(** The memory after the first steps of [prepare_copy_on_write(0)]. *)
Definition prepared (m : vMemory) : vMemory :=
  set_page_tables (set_main_memory_writes (set_banks (set_m_prepped m true)
    (set_hugepage_pages (set_max (banks m) 0) 0)) false) (physbase m ⊕ PT_ADDR).

(** C13: [prepare_copy_on_write(0)] turns a machine whose tables are mapped into one that can be
    forked, with any fork options that do not ask for direct memory writes: it always returns,
    the main memory changes only in page-table entries that become copy-on-write, and CR3 is
    the shared root table. *)
Theorem prepare_forkable o sregs s : preparable o (vm s) (vhost s) ->
  wp (prepare_copy_on_write 0 0 false sregs)
    (fun r t => forkable o (vm t) (vhost t) /\ cr3 r = physbase (vm s) ⊕ PT_ADDR /\
       forall q, ld64 (h_heap (vhost t)) q = ld64 (h_heap (vhost s)) q \/
                 ld64 (h_heap (vhost t)) q = cow_bits (ld64 (h_heap (vhost s)) q))
    (fun _ _ => False) s.
Proof.
  intros []. unfold prepare_copy_on_write. wp_step. unfold upd at 1. wp_step. wp_step.
  assert (on_banks (set_max_pages (0 / PAGE_SIZE) 0) (mkVM (vhost s) (set_m_prepped (vm s) true)) =
    (Ok tt, mkVM (vhost s) (set_banks (set_m_prepped (vm s) true) (set_hugepage_pages (set_max (banks (vm s)) 0) 0)))) as Emax.
  { unfold on_banks, set_max_pages, modify_banks, reserve, bind, modify, get, when, ret. cbn -[Z.ltb].
    change (negb (u32 0 mod N_HUGEPAGES =? 0)) with false. change (u32 (0 / PAGE_SIZE)) with 0. change (u32 0) with 0.
    cbn -[Z.ltb]. change (reserved_banks _) with 1. by rewrite (proj2 (Z.ltb_ge (m_capacity (banks (vm s))) 1)). }
  unfold wp at 1. cbn [vm vhost]. rewrite Emax. cbn beta iota zeta.
  change (0 =? 0) with true. cbn beta iota. unfold upd. wp_step. wp_step. wp_step. wp_step. wp_step. wp_step.
  match goal with |- wp _ _ _ ?t => change t with (mkVM (vhost s) (prepared (vm s))) end.
  set (m := prepared (vm s)). unfold PT_ADDR in *.
  assert (physbase (vm s) ⊕ 0x9000 = physbase (vm s) + 0x9000) as Ea by (apply add64_small; unfold u64; lia).
  assert (page_at m (page_tables m) = Ok (main_at (vm s) (physbase (vm s) ⊕ 0x9000))) as Hroot.
  { change (page_tables m) with (physbase (vm s) ⊕ 0x9000). change (main_at (vm s)) with (main_at m). rewrite Ea.
    apply page_at_main. unfold in_main, within, PAGE_SIZE. change (physbase m) with (physbase (vm s)).
    change (size m) with (size (vm s)). rewrite !add64_small by (unfold u64; lia). rewrite !andb_true_iff, !Z.leb_le. lia. }
  wp_step. eapply wp_mono; [apply (foreach_page_makecow_wp _ _ (mkVM (vhost s) m)
    (main_at (vm s) (physbase (vm s) ⊕ 0x9000)))| |done].
  { change (m_kernel_end m) with (m_kernel_end (vm s)). simpl. lia. }
  { simpl. lia. }
  { done. }
  { by apply (tables_same_main _ _ _ (vm s)). }
  intros _ t (h&->&Hc&Hs). wp_step. split_and!; [|done|exact Hc].
  constructor; try done. by apply sealed_frozen.
Qed.
End preparing.

(** ** A small machine is prepared and forked *)

Definition demo_fork_options : MachineOptions := mkOptions demo_options [] false true false false false 0.
Definition demo_sregs : SRegs := mkSRegs 0x80010033 PT_ADDR.
#[local] Instance demo_host : HostOS := bump_host (2 ^ 47).
#[local] Instance demo_laws : HostLaws demo_host := bump_host_laws (2 ^ 47) ltac:(lia).

(** Closed facts about the numbers of the small machine. *)
Ltac demo_fact := vm_compute; intuition congruence.

Ltac demo_live := apply (bool_decide_unpack _); vm_compute; exact I.

Lemma demo_preparable : preparable demo_fork_options (vm demo_vm) (vhost demo_vm).
Proof.
  constructor; [demo_fact..|demo_live|demo_fact|demo_fact|demo_fact|].
  assert (main_at (vm demo_vm) (physbase (vm demo_vm) ⊕ PT_ADDR) = ptr demo_memory + PT_ADDR) as -> by demo_fact.
  apply demo_mapped.
Qed.

Lemma prepare_forkable_witness :
  wp (prepare_copy_on_write 0 0 false demo_sregs)
    (fun r t => forkable demo_fork_options (vm t) (vhost t) /\ cr3 r = physbase (vm demo_vm) ⊕ PT_ADDR /\
       forall q, ld64 (h_heap (vhost t)) q = ld64 (h_heap (vhost demo_vm)) q \/
                 ld64 (h_heap (vhost t)) q = cow_bits (ld64 (h_heap (vhost demo_vm)) q))
    (fun _ _ => False) demo_vm.
Proof. exact (prepare_forkable demo_fork_options demo_sregs demo_vm demo_preparable). Defined.

(** The prepared master, and a fork of it. *)
Definition demo_master : VM := snd (prepare_copy_on_write 0 0 false demo_sregs demo_vm).
Definition demo_fork_run : result SRegs * VM := Machine_fork demo_fork_options (vm demo_master) demo_sregs demo_master.
Definition demo_fork : VM := snd demo_fork_run.

Lemma demo_forkable : forkable demo_fork_options (vm demo_master) (vhost demo_master).
Proof.
  constructor; [demo_fact..|demo_live|demo_fact|demo_fact|].
  apply sealed_frozen, (tables_inb_sound (fun E => negb (any_bit E PDE64_RW))); [intros E; apply negb_true_iff|].
  vm_compute. reflexivity.
Qed.

Definition is_ok {A} (r : result A) : bool := match r with Ok _ => true | Err _ => false end.

Lemma fork_creation_witness : is_ok (fst demo_fork_run) = true /\
  main_kept (vm demo_master) (vhost demo_master) demo_fork /\
  forall regs, fst demo_fork_run = Ok regs -> (exists Ψ, fork_inv Ψ demo_fork) /\ cr3 regs = page_tables (vm demo_fork).
Proof.
  split; [vm_compute; reflexivity|].
  apply (fork_creation demo_fork_options (vm demo_master) demo_sregs demo_master (fst demo_fork_run) demo_fork demo_forkable).
  unfold demo_fork, demo_fork_run. apply surjective_pairing.
Defined.

Lemma run_ok {A} (m : M VM A) Q X s : wp m Q X s -> is_ok (fst (m s)) = true -> exists a, Q a (snd (m s)).
Proof. unfold wp. destruct (m s) as [[a|e] t]; [eauto|done]. Qed.

Lemma demo_fork_inv : exists Ψ, fork_inv Ψ demo_fork.
Proof.
  destruct (run_ok _ _ _ _ (Machine_fork_wp demo_fork_options (vm demo_master) demo_sregs demo_master demo_forkable))
    as (regs&HΨ&_); [vm_compute; reflexivity|exact HΨ].
Qed.

Definition demo_flags : Z := PDE64_PRESENT .| PDE64_USER .| PDE64_RW.

Lemma fork_isolation_witness : exists Ψ, fork_inv Ψ demo_fork /\
  wp (writable_page_at 0x202000 demo_flags default_wpo)
    (fun w s' => main_unchanged demo_fork s' /\ exists Ψ', fork_inv Ψ' s' /\
       (any_bit demo_flags PDE64_RW = true ->
          Ψ' (wp_page w) = Some 0%nat /\ owned_page (vm s') (wp_page w) /\ entry_owned Ψ' (wp_entry w)))
    (fun _ s' => main_unchanged demo_fork s') demo_fork.
Proof.
  destruct demo_fork_inv as [Ψ Hinv]. exists Ψ. split; [exact Hinv|].
  exact (fork_isolation Ψ demo_fork 0x202000 demo_flags default_wpo Hinv).
Defined.

(** The fork asks for the page of the writable segment and stores a word there. *)
Definition demo_page_run : result Z * VM := get_writable_page_own 0x202000 demo_flags false true demo_fork.
Definition demo_page : Z := match fst demo_page_run with Ok p => p | Err _ => 0 end.
Definition demo_stored : VM :=
  let s := snd demo_page_run in with_heap s (st64 (h_heap (vhost s)) (demo_page + 8 * 3) 42).

Lemma run_value (m : M VM Z) s : is_ok (fst (m s)) = true ->
  m s = (Ok (match fst (m s) with Ok p => p | Err _ => 0 end), snd (m s)).
Proof. by destruct (m s) as [[]]. Qed.

Lemma demo_run : rtc fork_step (Running demo_fork []) (Running demo_stored [demo_page]).
Proof.
  apply (rtc_l _ _ (Running (snd demo_page_run) [demo_page])).
  - apply (fs_page _ _ 0x202000 demo_flags false true); [reflexivity|].
    unfold demo_page, demo_page_run. apply run_value. vm_compute. reflexivity.
  - apply rtc_once. apply fs_store; [apply elem_of_cons; by left|lia].
Qed.

Lemma fork_run_keeps_main_witness :
  ld64 (h_heap (vhost demo_stored)) 0x10202018 = ld64 (h_heap (vhost demo_fork)) 0x10202018 /\
  ld64 (h_heap (vhost demo_stored)) (demo_page + 24) = 42.
Proof.
  split; [|vm_compute; reflexivity]. destruct demo_fork_inv as [Ψ Hinv].
  apply (fork_run_keeps_main Ψ demo_fork (Running demo_stored [demo_page]) 0x10202018 Hinv demo_run).
  vm_compute. intuition congruence.
Defined.
