(* ===== verification/MainMemory.v ===== *)
(** * The main memory of a machine: where it comes from and where it goes

    [vMemory::New], [allocate_mapped_memory], [allocate_filebacked_memory] and the destructor of
    [vMemory] (lib/tinykvm/memory.cpp).  The host is the set of pages it has mapped and the
    descriptors it has open; its answers are fields of a class, with their documented laws.

    [mmap] without MAP_FIXED takes an address only as a hint.  The allocation of a huge-page
    arena relies on getting it and does not look at what it got: [arena_kept] says whether the host
    gave it, and what holds is stated for both cases. *)
From stdpp Require Import base tactics list numbers strings gmap.
From Stdlib Require Import ZArith Lia Bool.
From S2P Require Import Prelude Host MemoryBanks VMemory.
Local Open Scope Z_scope.

(** ** The host *)

Record osmem := mkOsmem {
  o_pages : Z -> bool;              (* is the page with this number mapped? *)
  o_fds : gset Z;
  o_advice : list (Z * Z * Z) }.    (* calls of madvise: address, length, advice *)

Inductive map_kind := Small | Huge | FileShared | FilePrivate.

Class MainHost := {
  (** [mmap(hint, len, ...)]: an address or MAP_FAILED. *)
  mh_mmap : osmem -> Z -> Z -> map_kind -> Z;
  (** [open] of the snapshot file, for reading or to create it: a descriptor or minus an errno. *)
  mh_open : osmem -> bool -> Z;
  (** The size that [fstat] finds. *)
  mh_fstat : osmem -> option Z;
  mh_ftruncate : osmem -> Z -> bool }.

Definition in_range (p len k : Z) : bool := (p <=? 4096 * k) && (4096 * k <? p + len).

Class MainHostLaws (mh : MainHost) : Prop := {
  (** A new mapping is page aligned, in user space, and replaces nothing. *)
  mmap_fresh s hint len kind : 0 < len -> mh_mmap s hint len kind <> MAP_FAILED ->
    let p := mh_mmap s hint len kind in
    p mod 4096 = 0 /\ 0 < p /\ p + len <= 2 ^ 47 /\ forall k, in_range p len k = true -> o_pages s k = false;
  (** A descriptor is new. *)
  open_fresh s create : 0 <= mh_open s create -> mh_open s create ∉ o_fds s }.

Section alloc.
Context `{mh : MainHost}.

Definition set_pages (s : osmem) (p len : Z) (b : bool) : osmem :=
  mkOsmem (fun k => if in_range p len k then b else o_pages s k) (o_fds s) (o_advice s).

Definition os_mmap (hint len : Z) (kind : map_kind) : M osmem Z :=
  let! s := get in
  let p := mh_mmap s hint len kind in
  when (negb (p =? MAP_FAILED)) (put (set_pages s p len true)) ;;;
  ret p.
Definition os_munmap (p len : Z) : M osmem unit := modify (fun s => set_pages s p len false).
Definition os_madvise (p len advice : Z) : M osmem unit :=
  modify (fun s => mkOsmem (o_pages s) (o_fds s) (o_advice s ++ [(p, len, advice)])).
Definition os_open (create : bool) : M osmem Z :=
  let! s := get in
  let fd := mh_open s create in
  when (0 <=? fd) (put (mkOsmem (o_pages s) ({[fd]} ∪ o_fds s) (o_advice s))) ;;;
  ret fd.
Definition os_close (fd : Z) : M osmem unit :=
  modify (fun s => mkOsmem (o_pages s) (o_fds s ∖ {[fd]}) (o_advice s)).

(** ** Allocation *)

Inductive SnapshotMode := Disabled | Open | Create | OpenOrCreate.
Definition SnapshotMode_eqb (a b : SnapshotMode) : bool :=
  match a, b with Disabled, Disabled | Open, Open | Create, Create | OpenOrCreate, OpenOrCreate => true | _, _ => false end.

(** The options that concern the main memory. *)
Record MemOptions := mkMemOptions {
  hugepages : bool; arena_size : Z; short_lived : bool; transparent_hugepages : bool;
  backed_files : bool; snapshot_file : string; snapshot_mode : SnapshotMode }.

Definition ColdStartStateSize : Z := 2 * 2 ^ 20.
Definition MADV_MERGEABLE : Z := 12.
Definition MADV_HUGEPAGE : Z := 14.
Definition MADV_WILLNEED : Z := 3.
Definition ENOENT : Z := 2.

Definition out_of_memory {A} (msg : string) (size : Z) : M osmem A := throw (MemoryException msg 0 size false).

(** Pointer, size and descriptor. *)
Definition AllocationResult : Type := Z * Z * Z.

(** The arena of huge pages at the start of memory that was mapped with 4K pages. *)
Definition allocate_arena (size arena : Z) : M osmem Z :=
  let! ptr := os_mmap 0 size Small in
  if ptr =? MAP_FAILED then out_of_memory "Failed to allocate guest memory" size
  else
    os_munmap ptr arena ;;;
    let! hugeptr := os_mmap ptr arena Huge in
    when (hugeptr =? MAP_FAILED) (let! _ := os_mmap ptr arena Small in ret tt) ;;;
    ret ptr.

Definition allocate_mapped_memory (o : MemOptions) (size : Z) : M osmem AllocationResult :=
  let! (ptr, size) :=
    (if hugepages o then
       let size := size .& not64 0x200000 in
       if size <? 0x200000 then out_of_memory "Not enough guest memory" size
       else if negb (arena_size o =? 0) then let! ptr := allocate_arena size (arena_size o) in ret (ptr, size)
       else let! ptr := os_mmap 0 size Huge in ret (ptr, size)
     else if size <? 0x1000 then out_of_memory "Not enough guest memory" size
     else ret (MAP_FAILED, size)) in
  let! ptr :=
    (if ptr =? MAP_FAILED then
       let! ptr := os_mmap 0 size Small in
       if ptr =? MAP_FAILED then out_of_memory "Failed to allocate guest memory" size else ret ptr
     else ret ptr) in
  let advice := 0 in
  let advice := if negb (short_lived o) then advice .| MADV_MERGEABLE else advice in
  let advice := if transparent_hugepages o then advice .| MADV_HUGEPAGE else advice in
  when (negb (advice =? 0)) (os_madvise ptr size advice) ;;;
  ret (ptr, size, -1).

(** The descriptor of the snapshot file, opened or created. *)
Definition open_snapshot (o : MemOptions) : M osmem Z :=
  let! fd :=
    (if negb (SnapshotMode_eqb (snapshot_mode o) Create) then
       let! fd := os_open false in
       if (fd <? 0) && (SnapshotMode_eqb (snapshot_mode o) Open || negb (fd =? - ENOENT))
       then throw (RuntimeError "Failed to open VM snapshot file") else ret fd
     else ret (-1)) in
  if fd <? 0 then
    let! fd := os_open true in
    if fd <? 0 then throw (RuntimeError "Failed to create VM snapshot file") else ret fd
  else ret fd.

(** Mapping the file, which is resized when it is empty. *)
Definition map_snapshot (fd size : Z) : M osmem Z :=
  let! s := get in
  match mh_fstat s with
  | None => os_close fd ;;; throw (RuntimeError "Failed to stat VM snapshot file")
  | Some st_size =>
      if negb (st_size =? size) then
        if negb (st_size =? 0) then os_close fd ;;; throw (RuntimeError "VM snapshot file has incorrect size")
        else
          let! s := get in
          if negb (mh_ftruncate s size) then os_close fd ;;; throw (RuntimeError "Failed to set size of VM snapshot file")
          else os_mmap 0 size FileShared
      else
        let! ptr := os_mmap 0 size FilePrivate in
        os_madvise (ptr ⊕ size ⊖ ColdStartStateSize) PAGE_SIZE MADV_WILLNEED ;;;
        ret ptr
  end.

Definition allocate_filebacked_memory (o : MemOptions) (size : Z) : M osmem AllocationResult :=
  if backed_files o then
    throw (RuntimeError "Incompatible options: mmap_backed_files and allocate_file_backed_memory()")
  else if size <? 0x1000 then out_of_memory "Not enough guest memory" size
  else
    let size := size ⊕ ColdStartStateSize in
    if bool_decide (snapshot_file o = EmptyString) then throw (RuntimeError "No VM snapshot file specified")
    else if SnapshotMode_eqb (snapshot_mode o) Disabled then throw (RuntimeError "VM snapshot disabled")
    else
      let! fd := open_snapshot o in
      let! ptr := map_snapshot fd size in
      os_close fd ;;;
      if ptr =? MAP_FAILED then out_of_memory "Failed to mmap VM snapshot file" size
      else ret (ptr, size ⊖ ColdStartStateSize, fd).

(** [vMemory::New], up to the constructor that takes the result. *)
Definition main_memory_New (o : MemOptions) (phys size : Z) : M osmem AllocationResult :=
  if negb (phys .& 0xFFFFF =? 0) then
    throw (MachineException "Invalid physical memory alignment. Must be at least 2MB aligned." phys)
  else
    let size := overaligned_memsize size in
    if negb (bool_decide (snapshot_file o = EmptyString)) then allocate_filebacked_memory o size
    else
      let! (ptr, size, fd) := allocate_mapped_memory o size in
      ret (ptr, size, -1).

(** [~vMemory]: main memory and the mapped files of an owner. *)
Definition vMemory_delete (m : vMemory) : M osmem unit :=
  when (owned m)
    (os_munmap (ptr m) (size m) ;;;
     for_each (mmap_ranges m) (fun r => when (negb (v_ptr r =? 0)) (os_munmap (v_ptr r) (v_size r)))).
End alloc.

(** ** What is mapped, and what is left *)

(** The size that is allocated: with huge pages, bit 21 of the size is cleared. *)
Definition mapped_size (o : MemOptions) (size : Z) : Z := if hugepages o then size .& not64 0x200000 else size.
Definition granted (o : MemOptions) (sz : Z) : Z :=
  if bool_decide (snapshot_file o = EmptyString) then mapped_size o sz else sz.
(** The state area behind file-backed memory. *)
Definition state_area (o : MemOptions) : Z := if bool_decide (snapshot_file o = EmptyString) then 0 else ColdStartStateSize.

Section lifetime.
Context `{mh : MainHost} {laws : MainHostLaws mh}.
Implicit Types (s t : osmem).

Definition pages_are (s t : osmem) (p len : Z) : Prop := forall k, o_pages t k = if in_range p len k then true else o_pages s k.
Definition fresh_range (s : osmem) (p len : Z) : Prop :=
  p mod 4096 = 0 /\ 0 < p /\ p + len <= 2 ^ 47 /\ forall k, in_range p len k = true -> o_pages s k = false.
Definition unchanged (s t : osmem) : Prop := o_fds t = o_fds s /\ forall k, o_pages t k = o_pages s k.

Lemma wp_mmap hint len kind (Q : Z -> osmem -> Prop) X s : 0 < len ->
  (mh_mmap s hint len kind = MAP_FAILED -> Q MAP_FAILED s) -> (forall p, p = mh_mmap s hint len kind -> p <> MAP_FAILED -> fresh_range s p len -> Q p (set_pages s p len true)) ->
  wp (os_mmap hint len kind) Q X s.
Proof.
  intros Hlen Hfail Hok. unfold os_mmap. apply wp_bind, wp_get. apply wp_bind, wp_when; intros Hp.
  - apply negb_true_iff, Z.eqb_neq in Hp. apply wp_put, wp_ret. apply Hok; [done|done|]. by apply mmap_fresh.
  - apply negb_false_iff, Z.eqb_eq in Hp. apply wp_ret. rewrite Hp. auto.
Qed.

Lemma in_range_sub p len len' k : len' <= len -> in_range p len' k = true -> in_range p len k = true.
Proof. unfold in_range. intros H [H1 H2]%andb_true_iff. apply andb_true_iff. lia. Qed.

(** Does the host put the pages of the arena where they were asked for? *)
Definition arena_kept (s : osmem) (size arena : Z) : bool :=
  let p := mh_mmap s 0 size Small in
  let s1 := set_pages (set_pages s p size true) p arena false in
  let q := mh_mmap s1 p arena Huge in
  (if q =? MAP_FAILED then mh_mmap s1 p arena Small else q) =? p.
(** All of the range is mapped; or all behind the arena, which has a hole. *)
Definition arena_missing (t : osmem) (p size arena : Z) : Prop :=
  (exists k, in_range p arena k = true /\ o_pages t k = false) /\
  forall k, in_range (p + arena) (size - arena) k = true -> o_pages t k = true.
Definition arena_pages (s t : osmem) (p size arena : Z) : Prop :=
  if arena_kept s size arena then pages_are s t p size else arena_missing t p size arena.

Lemma arena_hole_left s p q size arena : p mod 4096 = 0 -> 0 < arena <= size -> q <> p ->
  let s1 := set_pages (set_pages s p size true) p arena false in
  arena_missing s1 p size arena /\ (q mod 4096 = 0 -> arena_missing (set_pages s1 q arena true) p size arena).
Proof.
  intros Hp Ha Hq s1. assert (forall k, in_range p arena k = true -> o_pages s1 k = false) as Hhole by (intros k Hk; cbn; by rewrite Hk).
  assert (forall k, in_range (p + arena) (size - arena) k = true -> o_pages s1 k = true) as Hrest.
  { intros k Hk. cbn. unfold in_range in *. apply andb_true_iff in Hk as [H1%Z.leb_le H2%Z.ltb_lt].
    destruct (Z.leb_spec p (4096 * k)), (Z.ltb_spec (4096 * k) (p + arena)), (Z.ltb_spec (4096 * k) (p + size)); cbn; lia || done. }
  assert (forall k, 4096 * k = p + 4096 * (k - p / 4096)) as Hk0 by (intros k; dlia).
  split; [split; [exists (p / 4096)|done]|intros Hqm; split].
  - assert (in_range p arena (p / 4096) = true) as E by (unfold in_range; apply andb_true_iff; rewrite Z.leb_le, Z.ltb_lt; dlia).
    split; [done|by apply Hhole].
  - exists (if q <? p then (p + arena - 1) / 4096 else p / 4096).
    set (k := if q <? p then _ else _). assert (in_range p arena k = true) as E
      by (unfold in_range, k; apply andb_true_iff; rewrite Z.leb_le, Z.ltb_lt; destruct (Z.ltb_spec q p); dlia).
    split; [done|]. cbn [o_pages set_pages]. assert (in_range q arena k = false) as ->; [|by apply Hhole].
    unfold in_range, k. apply andb_false_iff. rewrite Z.leb_gt, Z.ltb_ge. destruct (Z.ltb_spec q p); [right|left]; dlia.
  - intros k Hk. cbn [o_pages set_pages]. destruct (in_range q arena k); [done|by apply Hrest].
Qed.

Lemma allocate_arena_wp size arena (Q : Z -> osmem -> Prop) (X : exn -> osmem -> Prop) s : 0 < size -> 0 < arena <= size ->
  (forall e, defined_exn e -> mh_mmap s 0 size Small = MAP_FAILED -> X e s) ->
  (forall p t, p <> MAP_FAILED -> fresh_range s p size -> o_fds t = o_fds s -> arena_pages s t p size arena -> Q p t) ->
  wp (allocate_arena size arena) Q X s.
Proof.
  intros Hs Ha HX HQ. unfold allocate_arena. apply wp_bind, wp_mmap; [done| |].
  { intros Hf. rewrite Z.eqb_refl. by apply wp_throw, HX. }
  intros p Ep Hp Hfr. rewrite (proj2 (Z.eqb_neq _ _) Hp). pose proof Hfr as (Hal&Hpos&Htop&Hun).
  apply wp_bind, wp_modify. set (s1 := set_pages (set_pages s p size true) p arena false).
  assert (forall t, o_pages t = o_pages (set_pages s1 p arena true) -> pages_are s t p size) as Hfull.
  { intros t Ht k. rewrite Ht. cbn. destruct (in_range p arena k) eqn:E; [|done]. by rewrite (in_range_sub p size arena k) by (done || lia). }
  assert (arena_kept s size arena = ((if mh_mmap s1 p arena Huge =? MAP_FAILED then mh_mmap s1 p arena Small else mh_mmap s1 p arena Huge) =? p)) as Ek
    by (unfold arena_kept; by rewrite <-Ep).
  assert (forall q t, fresh_range s1 q arena -> o_pages t = o_pages (set_pages s1 q arena true) ->
    if q =? p then pages_are s t p size else arena_missing t p size arena) as Hq.
  { intros q t (Hqm&_) Ht. destruct (Z.eqb_spec q p) as [->|N]; [by apply Hfull|].
    destruct (arena_hole_left s p q size arena Hal Ha N) as [_ Hm]. unfold arena_missing in *. rewrite Ht. by apply Hm. }
  apply wp_bind, wp_mmap; [lia| |].
  - intros Ef. rewrite Z.eqb_refl. cbn [when]. rewrite Ef in Ek. cbn [Z.eqb] in Ek. apply wp_bind, wp_bind, wp_mmap; [lia|..].
    + intros Hf. apply wp_ret, wp_ret. apply HQ; [done|done|done|]. unfold arena_pages. rewrite Ek, Z.eqb_refl, Hf.
      rewrite (proj2 (Z.eqb_neq MAP_FAILED p)) by done. by apply (arena_hole_left s p MAP_FAILED size arena).
    + intros q Eq Hqn Hqf. apply wp_ret, wp_ret. apply HQ; [done|done|done|]. unfold arena_pages. rewrite Ek, Z.eqb_refl, <-Eq. by apply Hq.
  - intros q Eq Hqn Hqf. rewrite (proj2 (Z.eqb_neq _ _) Hqn). cbn [when]. apply wp_bind, wp_ret, wp_ret.
    apply HQ; [done|done|done|]. unfold arena_pages. rewrite Ek, <-Eq, (proj2 (Z.eqb_neq _ _) Hqn). by apply Hq.
Qed.

Lemma pages_are_mmap s p len : pages_are s (set_pages s p len true) p len.
Proof. by intros k. Qed.

(** The least size that is accepted, and the host's refusal. *)
Definition least_size (o : MemOptions) : Z := if hugepages o then 0x200000 else 0x1000.
Definition refused (o : MemOptions) (size : Z) (s : osmem) : Prop :=
  mapped_size o size < least_size o \/ mh_mmap s 0 (mapped_size o size) Small = MAP_FAILED.

(** What is mapped at [p], with an arena or without. *)
Definition arena_used (o : MemOptions) : bool := hugepages o && negb (arena_size o =? 0).
Definition memory_pages (o : MemOptions) (s t : osmem) (p size : Z) : Prop :=
  if arena_used o then arena_pages s t p size (arena_size o) else pages_are s t p size.

Lemma allocate_mapped_wp o size (Q : AllocationResult -> osmem -> Prop) (X : exn -> osmem -> Prop) s :
  0 <= size -> 0 <= size .& not64 0x200000 <= size -> (hugepages o = true -> 0 <= arena_size o <= size .& not64 0x200000) ->
  (forall e, defined_exn e -> refused o size s -> X e s) ->
  (forall p t, fresh_range s p (mapped_size o size) -> o_fds t = o_fds s ->
     4096 <= mapped_size o size ->
     memory_pages o s t p (mapped_size o size) ->
     Q (p, mapped_size o size, -1) t) ->
  wp (allocate_mapped_memory o size) Q X s.
Proof.
  intros H0 Hmask Harena HX HQ. set (sz := mapped_size o size) in *.
  set (got p t := p <> MAP_FAILED /\ fresh_range s p sz /\ o_fds t = o_fds s /\ memory_pages o s t p sz).
  unfold allocate_mapped_memory. apply wp_bind.
  eapply (wp_mono _ (fun r t => snd r = sz /\ 4096 <= sz /\ ((fst r = MAP_FAILED /\ t = s /\ arena_used o = false) \/ got (fst r) t)) _ X); [| |done].
  - unfold sz, got, refused, memory_pages, arena_used, mapped_size, least_size in *. destruct (hugepages o); cbv zeta; cbn [andb].
    + apply wp_if; intros Hlt; [apply wp_throw, HX; [done|left; lia]|]. apply Z.ltb_ge in Hlt. apply wp_if; intros Har; rewrite Har.
      * apply negb_true_iff, Z.eqb_neq in Har. apply wp_bind, allocate_arena_wp; [lia|specialize (Harena eq_refl); lia|auto|].
        intros p t Hp Hfr Hfd Hpg. apply wp_ret. split_and!; [done|cbn [fst snd]; lia|by right].
      * apply wp_bind, wp_mmap; [lia|intros _; apply wp_ret; split_and!; [done|cbn [fst snd]; lia|by left]|].
        intros p _ Hp Hfr. apply wp_ret. split_and!; [done|cbn [fst snd]; lia|]. by right.
    + apply wp_if; intros Hlt; [apply wp_throw, HX; [done|left; lia]|]. apply Z.ltb_ge in Hlt. apply wp_ret. split_and!; [done|cbn [fst snd]; lia|by left].
  - intros [p sz'] t (Hsz&Hmin&Hcase). cbn [fst snd] in *. subst sz'. apply wp_bind.
    eapply (wp_mono _ got _ X); [| |done].
    + destruct Hcase as [(->&->&Hna)|Hgot]; [|rewrite (proj2 (Z.eqb_neq _ _) (proj1 Hgot)); by apply wp_ret].
      rewrite Z.eqb_refl. apply wp_bind, wp_mmap; [lia|intros Hf; rewrite Z.eqb_refl; apply wp_throw, HX; [done|by right]|].
      intros p _ Hp Hfr. rewrite (proj2 (Z.eqb_neq _ _) Hp). apply wp_ret. unfold got, memory_pages. by rewrite Hna.
    + intros p' t' (Hp&Hfr&Hfd&Hpg). apply wp_bind, wp_when; intros _; [apply wp_modify|]; apply wp_ret; by apply HQ.
Qed.

(** The descriptor is closed on every way out. *)
Lemma map_snapshot_wp fd size (Q : Z -> osmem -> Prop) (X : exn -> osmem -> Prop) s s1 : 0 < size -> fd ∉ o_fds s ->
  o_fds s1 = {[fd]} ∪ o_fds s -> o_pages s1 = o_pages s ->
  (forall e t, defined_exn e -> unchanged s t -> X e t) ->
  (forall t, o_fds t = {[fd]} ∪ o_fds s -> o_pages t = o_pages s -> Q MAP_FAILED t) ->
  (forall p t, p <> MAP_FAILED -> fresh_range s p size -> o_fds t = {[fd]} ∪ o_fds s -> pages_are s t p size -> Q p t) ->
  wp (map_snapshot fd size) Q X s1.
Proof.
  intros Hs Hfd Hfds Hpg HX Hfail HQ.
  assert (forall msg, wp (os_close fd ;;; throw (RuntimeError msg)) Q X s1) as Hclose.
  { intros msg. apply wp_bind, wp_modify, wp_throw, HX; [done|]. split; [cbn; rewrite Hfds; set_solver|cbn; by rewrite Hpg]. }
  set (mapped_or_not p t := o_fds t = {[fd]} ∪ o_fds s /\
    (p = MAP_FAILED /\ o_pages t = o_pages s \/ p <> MAP_FAILED /\ fresh_range s p size /\ pages_are s t p size)).
  assert (forall kind, wp (os_mmap 0 size kind) mapped_or_not X s1) as Hmap.
  { intros kind. apply wp_mmap; [done|intros _; split; [done|by left]|].
    intros p _ Hp Hfr. split; [done|]. right. split; [done|]. split; [unfold fresh_range in *; by rewrite <-Hpg|].
    intros i. cbn. by rewrite Hpg. }
  assert (forall p t, mapped_or_not p t -> Q p t) as Hret by (intros p t [Ht [[-> ?]|(?&?&?)]]; auto).
  unfold map_snapshot. apply wp_bind, wp_get. destruct (mh_fstat s1) as [sz|]; [|done].
  apply wp_if; intros _; [apply wp_if; intros _; [done|]|].
  - apply wp_bind, wp_get. apply wp_if; intros _; [done|]. eapply wp_mono; [apply Hmap|done|done].
  - apply wp_bind. eapply wp_mono; [apply Hmap| |done]. intros p t Hp. apply wp_bind, wp_modify, wp_ret. by apply Hret.
Qed.

Lemma open_snapshot_wp o (Q : Z -> osmem -> Prop) (X : exn -> osmem -> Prop) s :
  (forall e, defined_exn e -> X e s) ->
  (forall fd t, 0 <= fd -> fd ∉ o_fds s -> o_fds t = {[fd]} ∪ o_fds s -> o_pages t = o_pages s -> Q fd t) ->
  wp (open_snapshot o) Q X s.
Proof.
  intros HX HQ.
  assert (forall create, wp (os_open create) (fun fd t => fd < 0 /\ t = s \/ 0 <= fd /\ fd ∉ o_fds s /\
    o_fds t = {[fd]} ∪ o_fds s /\ o_pages t = o_pages s) X s) as Hopen.
  { intros create. unfold os_open. apply wp_bind, wp_get. apply wp_bind, wp_when; intros Hfd.
    - apply Z.leb_le in Hfd. apply wp_put, wp_ret. right. split_and!; [done|by apply open_fresh|done|done].
    - apply Z.leb_gt in Hfd. apply wp_ret. by left. }
  unfold open_snapshot. apply wp_bind.
  eapply (wp_mono _ (fun fd t => fd < 0 /\ t = s \/ 0 <= fd /\ fd ∉ o_fds s /\ o_fds t = {[fd]} ∪ o_fds s /\ o_pages t = o_pages s) _ X); [| |done].
  - apply wp_if; intros _; [|apply wp_ret; by left]. apply wp_bind. eapply wp_mono; [apply Hopen| |done].
    intros fd t Hfd. apply wp_if; intros Hc; [|by apply wp_ret]. apply wp_throw. apply andb_true_iff in Hc as [?%Z.ltb_lt _].
    destruct Hfd as [[_ ->]|(?&_)]; [by apply HX|lia].
  - intros fd t [[Hlt ->]|(H0&H1&H2&H3)].
    + rewrite (proj2 (Z.ltb_lt _ _) Hlt). apply wp_bind. eapply wp_mono; [apply Hopen| |done].
      intros fd' t [[Hlt' ->]|(H0&H1&H2&H3)].
      * rewrite (proj2 (Z.ltb_lt _ _) Hlt'). by apply wp_throw, HX.
      * rewrite (proj2 (Z.ltb_ge _ _) H0). apply wp_ret. auto.
    + rewrite (proj2 (Z.ltb_ge _ _) H0). apply wp_ret. auto.
Qed.

Lemma allocate_file_wp o size (Q : AllocationResult -> osmem -> Prop) (X : exn -> osmem -> Prop) s : 0 <= size < 2 ^ 62 ->
  (forall e t, defined_exn e -> unchanged s t -> X e t) ->
  (forall p fd t, 0 <= fd -> 4096 <= size -> fresh_range s p (size + ColdStartStateSize) -> o_fds t = o_fds s ->
     pages_are s t p (size + ColdStartStateSize) -> Q (p, size, fd) t) ->
  wp (allocate_filebacked_memory o size) Q X s.
Proof.
  intros Hs HX HQ. unfold allocate_filebacked_memory.
  apply wp_if; intros _; [by apply wp_throw, HX|]. apply wp_if; intros Hlt; [by apply wp_throw, HX|]. apply Z.ltb_ge in Hlt.
  assert (size ⊕ ColdStartStateSize = size + ColdStartStateSize) as E1 by (unfold ColdStartStateSize; apply add64_small; unfold u64; lia).
  cbv zeta. rewrite E1. assert (0 < size + ColdStartStateSize) by (unfold ColdStartStateSize; lia).
  apply wp_if; intros _; [by apply wp_throw, HX|]. apply wp_if; intros _; [by apply wp_throw, HX|].
  apply wp_bind, open_snapshot_wp; [intros; by apply HX|]. intros fd t H0 Hfd Hfds Hpg.
  apply wp_bind. eapply map_snapshot_wp; [done|exact Hfd|done|done|done|..].
  - intros u Hu Hup. apply wp_bind, wp_modify. rewrite Z.eqb_refl. apply wp_throw, HX; [done|].
    split; cbn; [rewrite Hu; set_solver|by rewrite Hup].
  - intros p u Hp Hfr Hu Hup. apply wp_bind, wp_modify. rewrite (proj2 (Z.eqb_neq _ _) Hp). apply wp_ret.
    rewrite sub64_small by (unfold u64, ColdStartStateSize in *; lia).
    replace (size + ColdStartStateSize - ColdStartStateSize) with size by lia. apply HQ; [done|lia|done| |done].
    cbn. rewrite Hu. set_solver.
Qed.

(** ** Sizes *)

Lemma overaligned_multiple sz : 0 <= sz < 2 ^ 62 -> sz mod 2 ^ 21 = 0 -> overaligned_memsize sz = sz.
Proof.
  intros Hs Hm. unfold overaligned_memsize. rewrite add64_small by (unfold u64; lia). rewrite land_not_ones by (unfold u64; lia).
  change (2 ^ 21) with 2097152 in *. dlia.
Qed.

Lemma overaligned_bounds sz : 0 <= sz < 2 ^ 46 ->
  0 <= overaligned_memsize sz <= 2 ^ 46 /\ sz <= overaligned_memsize sz /\ overaligned_memsize sz mod 2 ^ 21 = 0.
Proof.
  intros Hs. unfold overaligned_memsize. rewrite add64_small by (unfold u64; lia). rewrite land_not_ones by (unfold u64; lia).
  change (2 ^ 21) with 2097152. change (2 ^ 46) with (33554432 * 2097152) in *. dlia.
Qed.

Lemma land_sub x y : 0 <= x -> 0 <= x .& y <= x.
Proof.
  intros Hx. split; [apply Z.land_nonneg; by left|]. apply Z.ldiff_le; [done|].
  apply Z.bits_inj'. intros n Hn. rewrite Z.ldiff_spec, Z.land_spec, Z.bits_0.
  by destruct (Z.testbit y n), (Z.testbit x n).
Qed.

Lemma mapped_size_multiple o sz : 0 <= sz -> sz mod 2 ^ 21 = 0 -> 0 <= mapped_size o sz <= sz /\ mapped_size o sz mod 2 ^ 21 = 0.
Proof.
  intros Hs Hm. unfold mapped_size. destruct (hugepages o); [|lia]. split; [by apply land_sub|].
  rewrite <-land_ones_mod in Hm |- * by lia. by rewrite <-Z.land_assoc, (Z.land_comm (not64 _)), Z.land_assoc, Hm, Z.land_0_l.
Qed.

(** ** The destructor *)

(** Is the page part of the main memory or of a mapped file? *)
Definition held (m : vMemory) (k : Z) : bool :=
  in_range (ptr m) (size m) k || existsb (fun r => negb (v_ptr r =? 0) && in_range (v_ptr r) (v_size r) k) (mmap_ranges m).

Lemma vMemory_delete_wp m (X : exn -> osmem -> Prop) s :
  wp (vMemory_delete m) (fun _ t => o_fds t = o_fds s /\ forall k, o_pages t k = negb (owned m && held m k) && o_pages s k) X s.
Proof.
  unfold vMemory_delete. apply wp_when; intros Ho; rewrite Ho; [|by split].
  apply wp_bind, wp_modify. apply (wp_for_each (fun dn t => o_fds t = o_fds s /\ forall k, o_pages t k =
    negb (in_range (ptr m) (size m) k || existsb (fun r => negb (v_ptr r =? 0) && in_range (v_ptr r) (v_size r) k) dn) && o_pages s k)).
  - split; [done|]. intros k. cbn. by destruct (in_range _ _ k).
  - intros dn r rest t _ [Hf Hp].
    assert (forall k, existsb (fun r => negb (v_ptr r =? 0) && in_range (v_ptr r) (v_size r) k) (dn ++ [r]) =
      existsb (fun r => negb (v_ptr r =? 0) && in_range (v_ptr r) (v_size r) k) dn || (negb (v_ptr r =? 0) && in_range (v_ptr r) (v_size r) k)) as E
      by (intros k; rewrite existsb_app; cbn; by rewrite orb_false_r).
    apply wp_when; intros Hr.
    + apply wp_modify. split; [done|]. intros k. rewrite E, Hr. cbn. rewrite Hp. destruct (in_range (v_ptr r) (v_size r) k); [by rewrite !orb_true_r|].
      by rewrite !orb_false_r.
    + split; [done|]. intros k. rewrite E, Hr, Hp. cbn. by rewrite !orb_false_r.
  - intros t Ht. exact Ht.
Qed.

(** ** The life of a main memory *)

(** An owning [vMemory] that was constructed from an allocation, without mapped files. *)
Definition owns (m : vMemory) (r : AllocationResult) : Prop :=
  owned m = true /\ ptr m = fst (fst r) /\ size m = overaligned_memsize (snd (fst r)) /\ mmap_ranges m = [].

Definition lifetime_ok (o : MemOptions) (size : Z) (s : osmem) (r : AllocationResult) (t : osmem) : Prop :=
  let '(p, sz, fd) := r in
  sz = granted o (overaligned_memsize size) /\ overaligned_memsize sz = sz /\ 0x1000 <= sz /\
  (if bool_decide (snapshot_file o = EmptyString) then fd = -1 else 0 <= fd) /\
  o_fds t = o_fds s /\ fresh_range s p (sz + state_area o) /\ pages_are s t p (sz + state_area o) /\
  forall m, owns m r -> wp (vMemory_delete m)
    (fun _ u => o_fds u = o_fds s /\ forall k, o_pages u k = in_range (p + sz) (state_area o) k || o_pages s k) (fun _ _ => False) t.

Lemma lifetime_intro o size s p sz fd t : sz = granted o (overaligned_memsize size) -> 0 <= sz < 2 ^ 62 -> sz mod 2 ^ 21 = 0 -> 0x1000 <= sz ->
  (if bool_decide (snapshot_file o = EmptyString) then fd = -1 else 0 <= fd) -> o_fds t = o_fds s -> fresh_range s p (sz + state_area o) -> pages_are s t p (sz + state_area o) ->
  lifetime_ok o size s (p, sz, fd) t.
Proof.
  intros Hsz Hb Hm Hmin Hd Hfd Hfr Hpg. assert (overaligned_memsize sz = sz) as Hal by (by apply overaligned_multiple).
  split_and!; [done..|]. intros m (Ho&Hp&Hs&Hr). cbn [fst snd] in *. eapply wp_mono; [apply (vMemory_delete_wp m (fun _ _ => False))| |done].
  intros _ u [Hu Hup]. split; [congruence|]. intros k. rewrite Hup, Ho, Hpg. unfold held. rewrite Hr, Hp, Hs, Hal. cbn [existsb].
  rewrite orb_false_r. destruct Hfr as (_&_&_&Hfr). specialize (Hfr k). unfold in_range in *.
  assert (0 <= state_area o) by (unfold state_area, ColdStartStateSize; destruct (bool_decide _); lia).
  destruct (o_pages s k) eqn:E.
  - destruct (Z.leb_spec p (4096 * k)), (Z.ltb_spec (4096 * k) (p + (sz + state_area o))); cbn [andb] in *; try (by specialize (Hfr eq_refl));
      rewrite orb_true_r; destruct (Z.ltb_spec (4096 * k) (p + sz)); cbn; try done; lia.
  - destruct (Z.leb_spec p (4096 * k)), (Z.ltb_spec (4096 * k) (p + (sz + state_area o))), (Z.ltb_spec (4096 * k) (p + sz)),
      (Z.leb_spec (p + sz) (4096 * k)), (Z.ltb_spec (4096 * k) (p + sz + state_area o)); cbn; try done; lia.
Qed.

(** The mappings of anonymous memory whose arena went elsewhere: the memory behind the arena, and a
    hole in it. *)
Definition arena_lost (o : MemOptions) (size : Z) (s : osmem) (r : AllocationResult) (t : osmem) : Prop :=
  let '(p, sz, fd) := r in
  sz = granted o (overaligned_memsize size) /\ fd = -1 /\ o_fds t = o_fds s /\ fresh_range s p sz /\
  arena_missing t p sz (arena_size o).

(** Is memory of this size, with these options, mapped where it was asked for? *)
Definition well_placed (o : MemOptions) (size : Z) (s : osmem) : bool :=
  negb (bool_decide (snapshot_file o = EmptyString)) || negb (arena_used o) ||
  arena_kept s (mapped_size o (overaligned_memsize size)) (arena_size o).

Definition allocated_ok (o : MemOptions) (size : Z) (s : osmem) (r : AllocationResult) (t : osmem) : Prop :=
  if well_placed o size s then lifetime_ok o size s r t else arena_lost o size s r t.
Definition allocation_refused (o : MemOptions) (phys size : Z) (s : osmem) (e : exn) (t : osmem) : Prop :=
  defined_exn e /\ unchanged s t /\
  (snapshot_file o = EmptyString -> phys .& 0xFFFFF <> 0 \/ refused o (overaligned_memsize size) s).

Lemma main_memory_New_wp o phys size s :
  0 <= size < 2 ^ 46 -> (hugepages o = true -> 0 <= arena_size o <= mapped_size o (overaligned_memsize size)) ->
  wp (main_memory_New o phys size) (allocated_ok o size s) (allocation_refused o phys size s) s.
Proof.
  intros Hs Har. destruct (overaligned_bounds size Hs) as (Hb&_&Hm). assert (unchanged s s) as Hsame by done.
  unfold main_memory_New. apply wp_if; intros Hph; [apply wp_throw; split_and!; [done|done|]|].
  { left. by apply negb_true_iff, Z.eqb_neq in Hph. }
  cbv zeta. unfold allocated_ok, well_placed, allocation_refused. set (osz := overaligned_memsize size) in *. destruct (mapped_size_multiple o osz) as [Hms Hmm]; [lia|done|].
  assert (2 ^ 46 < 2 ^ 62) by done. apply wp_if; intros Hfile.
  - apply negb_true_iff, bool_decide_eq_false in Hfile. apply allocate_file_wp; [lia|done|].
    intros p fd t Hd Hmin Hfr Hfd Hpg. rewrite bool_decide_false by done. cbn [negb orb].
    assert (state_area o = ColdStartStateSize) as Ea by (unfold state_area; by rewrite bool_decide_false).
    apply lifetime_intro; try rewrite Ea; try done; [|lia|by rewrite bool_decide_false]. unfold granted. by rewrite bool_decide_false.
  - apply negb_false_iff, bool_decide_eq_true in Hfile.
    assert (state_area o = 0) as Ea by (unfold state_area; by rewrite bool_decide_true).
    assert (granted o osz = mapped_size o osz) as Eg by (unfold granted; by rewrite bool_decide_true).
    apply wp_bind, allocate_mapped_wp; [lia|by apply land_sub; lia| |intros e He Hr; split_and!; auto|].
    { intros Hh. specialize (Har Hh). unfold mapped_size in Har. by rewrite Hh in Har. }
    intros p t Hfr Hfd Hmin Hpg. apply wp_ret. rewrite bool_decide_true by done. cbn [negb orb].
    assert (pages_are s t p (mapped_size o osz) -> lifetime_ok o size s (p, mapped_size o osz, -1) t) as Hok.
    { intros Hpg'. apply lifetime_intro; try rewrite Ea, Z.add_0_r; try done; [lia|by rewrite bool_decide_true]. }
    unfold memory_pages, arena_pages in Hpg. destruct (arena_used o); cbn [negb orb]; [|by apply Hok].
    destruct (arena_kept _ _ _); [by apply Hok|]. unfold arena_lost. fold osz. by rewrite Eg.
Qed.

(** C6: the life of a main memory, on any host.  An allocation of fewer than 2^46 bytes, with an
    arena of huge pages no larger than the memory, either is refused, with a defined error and the
    host as it was, or maps a fresh, page-aligned range of exactly the granted size, which the
    constructor's rounding leaves as it is, opens no descriptor, and is given back in full by the
    destructor of its owner, except for the state area behind file-backed memory, which stays
    mapped.  The one exception: when the host puts the arena's pages elsewhere, which [mmap] may do
    with a hint, the allocation still succeeds, with everything behind the arena mapped and a hole
    in it.  Anonymous memory is refused only for a misaligned physical base, a size below the
    least, or a host that refuses pages. *)
Theorem main_memory_lifetime o phys size s :
  0 <= size < 2 ^ 46 -> (hugepages o = true -> 0 <= arena_size o <= mapped_size o (overaligned_memsize size)) ->
  wp (main_memory_New o phys size) (allocated_ok o size s) (allocation_refused o phys size s) s.
Proof. apply main_memory_New_wp. Qed.
End lifetime.

(** ** Two hosts *)

Definition range_free (s : osmem) (p len : Z) : bool :=
  forallb (fun i => negb (o_pages s (p / 4096 + i))) (seqZ 0 ((len + 4095) / 4096)).

Definition host_place (s : osmem) (p len : Z) : Z :=
  if (0 <? p) && (p mod 4096 =? 0) && (p + len <=? 2 ^ 47) && range_free s p len then p else MAP_FAILED.

Definition arena_base : Z := 0x7f0000000000.

(** A host that keeps to hints or fails, with small pages only, and one that moves huge pages away. *)
Definition strict_host : MainHost := {|
  mh_mmap s hint len kind := match kind with Huge => MAP_FAILED | _ => host_place s (if hint =? 0 then arena_base else hint) len end;
  mh_open s create := if bool_decide (3 ∈ o_fds s) then -24 else 3;
  mh_fstat s := Some 0;
  mh_ftruncate s size := true |}.
Definition moving_host : MainHost := {|
  mh_mmap s hint len kind := match kind with Huge => host_place s (arena_base - 2 ^ 30) len | _ => host_place s (if hint =? 0 then arena_base else hint) len end;
  mh_open s create := if bool_decide (3 ∈ o_fds s) then -24 else 3;
  mh_fstat s := Some 0;
  mh_ftruncate s size := true |}.

Lemma in_range_index p len k : 0 < len -> p mod 4096 = 0 -> in_range p len k = true -> 0 <= k - p / 4096 < (len + 4095) / 4096.
Proof. unfold in_range. intros Hl Hm [H1%Z.leb_le H2%Z.ltb_lt]%andb_true_iff. dlia. Qed.

Lemma range_free_spec s p len k : 0 < len -> p mod 4096 = 0 -> range_free s p len = true -> in_range p len k = true -> o_pages s k = false.
Proof.
  intros Hl Hm Hf Hk. unfold range_free in Hf. rewrite forallb_forall in Hf. specialize (Hf (k - p / 4096)).
  rewrite <-list_elem_of_In, elem_of_seqZ in Hf. apply (in_range_index p len k Hl Hm) in Hk.
  replace (p / 4096 + (k - p / 4096)) with k in Hf by lia. apply negb_true_iff, Hf. lia.
Qed.

Lemma host_place_fresh s q len : 0 < len -> host_place s q len <> MAP_FAILED -> fresh_range s (host_place s q len) len.
Proof.
  intros Hl. unfold host_place. destruct (_ && _) eqn:E; [|done]. intros _.
  rewrite !andb_true_iff, Z.ltb_lt, Z.eqb_eq, Z.leb_le in E. destruct E as [[[H1 H2] H3] H4].
  split_and!; [done..|]. intros k. by apply range_free_spec.
Qed.

#[local] Instance strict_host_laws : MainHostLaws strict_host.
Proof.
  split.
  - intros s hint len kind Hl Hp. cbn in *. destruct kind; try done; by apply host_place_fresh.
  - intros s create. cbn. by case_bool_decide.
Qed.
#[local] Instance moving_host_laws : MainHostLaws moving_host.
Proof.
  split.
  - intros s hint len kind Hl Hp. cbn in *. destruct kind; by apply host_place_fresh.
  - intros s create. cbn. by case_bool_decide.
Qed.

Definition huge_options (arena : Z) (thp : bool) : MemOptions := mkMemOptions true arena false thp false "" Disabled.
Definition file_options (mode : SnapshotMode) : MemOptions := mkMemOptions false 0 false false false "vm.snap" mode.
Definition no_memory : osmem := mkOsmem (fun _ => false) ∅ [].

(** Six megabytes with a huge-page arena of two, on a host that keeps to the hint and on one that
    does not. *)
Lemma main_memory_lifetime_witness :
  let o := huge_options 0x200000 false in
  fst (@main_memory_New strict_host o 0 0x600000 no_memory) = Ok (arena_base, 0x400000, -1) /\
  @well_placed strict_host o 0x600000 no_memory = true /\ @well_placed moving_host o 0x600000 no_memory = false /\
  wp (@main_memory_New strict_host o 0 0x600000) (@allocated_ok strict_host o 0x600000 no_memory)
    (@allocation_refused strict_host o 0 0x600000 no_memory) no_memory /\
  wp (@main_memory_New moving_host o 0 0x600000) (@allocated_ok moving_host o 0x600000 no_memory)
    (@allocation_refused moving_host o 0 0x600000 no_memory) no_memory.
Proof.
  split_and!; [vm_compute; reflexivity..| |].
  - apply (@main_memory_lifetime strict_host _ (huge_options 0x200000 false) 0 0x600000 no_memory); [lia|].
    intros _. vm_compute. split; intros H; discriminate H.
  - apply (@main_memory_lifetime moving_host _ (huge_options 0x200000 false) 0 0x600000 no_memory); [lia|].
    intros _. vm_compute. split; intros H; discriminate H.
Defined.

(** With huge pages a machine of two megabytes has none left: [size &= ~0x200000L] clears the bit
    that the size is made of. *)
Example two_megabytes_refused :
  fst (@main_memory_New strict_host (huge_options 0 false) 0 0x200000 no_memory) = Err (MemoryException "Not enough guest memory" 0 0 false).
Proof. vm_compute. reflexivity. Qed.

(** The two kinds of advice are numbers and not flags: together they ask for huge pages only. *)
Example merging_advice_lost :
  o_advice (snd (@main_memory_New strict_host (huge_options 0 true) 0 0x400000 no_memory)) = [(arena_base, 0x400000, MADV_HUGEPAGE)].
Proof. vm_compute. reflexivity. Qed.

(** When the host puts the huge pages elsewhere, the start of the guest's memory is a hole. *)
Example arena_hole :
  let '(r, t) := @main_memory_New moving_host (huge_options 0x200000 false) 0 0x400000 no_memory in
  r = Ok (arena_base, 0x400000, -1) /\ o_pages t (arena_base / 4096) = false.
Proof. vm_compute. split; reflexivity. Qed.

(** An arena larger than the memory is taken out of whatever the host has mapped behind it. *)
Example large_arena_unmaps_neighbour :
  let behind := set_pages no_memory (arena_base + 0x400000) 0x1000 true in
  let '(r, t) := @main_memory_New moving_host (huge_options 0x600000 false) 0 0x400000 behind in
  r = Ok (arena_base, 0x400000, -1) /\ o_pages t ((arena_base + 0x400000) / 4096) = false.
Proof. vm_compute. split; reflexivity. Qed.

(** The descriptor that file-backed memory keeps is closed. *)
Example snapshot_fd_closed :
  let '(r, t) := @main_memory_New strict_host (file_options OpenOrCreate) 0 0x200000 no_memory in
  r = Ok (arena_base, 0x200000, 3) /\ bool_decide (3 ∈ o_fds t) = false.
Proof. vm_compute. split; reflexivity. Qed.
