(* ===== verification/Cpu.v ===== *)
(** * Registers of a vCPU and the guest-memory interface

    [tinykvm_x86regs] (lib/tinykvm/forward.hpp), bytes of integers in guest memory, and the
    interface through which system-call handlers reach guest memory: the operations of
    [Machine] that copy to and from the guest and that allocate guest address space. *)
From stdpp Require Import base tactics list numbers strings gmap.
From Stdlib Require Import ZArith Lia Bool.
From S2P Require Import Prelude.
Local Open Scope Z_scope.

Record x86regs := mkRegs {
  rax : Z; rbx : Z; rcx : Z; rdx : Z; rsi : Z; rdi : Z; rsp : Z; rbp : Z;
  r8 : Z; r9 : Z; r10 : Z; r11 : Z; r12 : Z; r13 : Z; r14 : Z; r15 : Z; rip : Z; rflags : Z }.

Definition set_rax (r : x86regs) (v : Z) : x86regs :=
  mkRegs v (rbx r) (rcx r) (rdx r) (rsi r) (rdi r) (rsp r) (rbp r)
    (r8 r) (r9 r) (r10 r) (r11 r) (r12 r) (r13 r) (r14 r) (r15 r) (rip r) (rflags r).
Definition set_rcx (r : x86regs) (v : Z) : x86regs :=
  mkRegs (rax r) (rbx r) v (rdx r) (rsi r) (rdi r) (rsp r) (rbp r)
    (r8 r) (r9 r) (r10 r) (r11 r) (r12 r) (r13 r) (r14 r) (r15 r) (rip r) (rflags r).
Definition set_rsp (r : x86regs) (v : Z) : x86regs :=
  mkRegs (rax r) (rbx r) (rcx r) (rdx r) (rsi r) (rdi r) v (rbp r)
    (r8 r) (r9 r) (r10 r) (r11 r) (r12 r) (r13 r) (r14 r) (r15 r) (rip r) (rflags r).

(** ** Integers in memory: little-endian bytes *)

Fixpoint le_bytes (n : nat) (v : Z) : list Z :=
  match n with O => [] | S n' => v mod 256 :: le_bytes n' (v / 256) end.
Fixpoint le_value (l : list Z) : Z :=
  match l with [] => 0 | b :: l' => b + 256 * le_value l' end.
(** The 64-bit field at byte offset [off] of a structure. *)
Definition field64 (l : list Z) (off : nat) : Z := le_value (take 8 (drop off l)).
Definition field32 (l : list Z) (off : nat) : Z := le_value (take 4 (drop off l)).

Lemma length_le_bytes n v : length (le_bytes n v) = n.
Proof. revert v. induction n as [|n IH]; intros v; simpl; [done|by rewrite IH]. Qed.
Lemma le_value_bytes n v : 0 <= v < 256 ^ Z.of_nat n -> le_value (le_bytes n v) = v.
Proof.
  revert v. induction n as [|n IH]; intros v Hv; simpl; [simpl in Hv; lia|].
  rewrite Nat2Z.inj_succ, Z.pow_succ_r in Hv by lia. rewrite IH; [dlia|].
  split; [apply Z.div_pos; lia|apply Z.div_lt_upper_bound; lia].
Qed.

Definition byte (b : Z) : Prop := 0 <= b < 256.
Lemma le_value_range l : Forall byte l -> 0 <= le_value l < 256 ^ Z.of_nat (length l).
Proof.
  induction 1 as [|b l [Hb1 Hb2] _ IH]; cbn [le_value length]; [done|]. rewrite Nat2Z.inj_succ, Z.pow_succ_r by lia. lia.
Qed.
Lemma le_bytes_byte n v : Forall byte (le_bytes n v).
Proof. revert v. induction n; intros v; simpl; constructor; [unfold byte; apply Z.mod_pos_bound; lia|done]. Qed.

(** Negative error codes in a 64-bit register. *)
Definition neg64 (e : Z) : Z := W64 - e.
(** [const int x = reg] *)
Definition int32 (v : Z) : Z := let w := v mod 2 ^ 32 in if w <? 2 ^ 31 then w else w - 2 ^ 32.
Definition uint32 (v : Z) : Z := v mod 2 ^ 32.

(** ** Guest memory, as the handlers use it *)

Class GuestMemory (G : Type) := {
  (** [copy_to_guest(addr, data, len)] *)
  guest_write : Z -> list Z -> M G unit;
  (** [copy_from_guest(dst, addr, len)] *)
  guest_read : Z -> Z -> M G (list Z);
  (** [mmap_allocate(bytes)] *)
  guest_mmap : Z -> M G Z;
  (** [copy_from_machine(dst, machine, src, len)] from the machine to itself *)
  guest_copy : Z -> Z -> Z -> M G unit }.
