(* ===== verification/Threads.v ===== *)
(** * Threads and signals

    [Thread], [MultiThreading] and the system calls of [Machine::setup_multithreading]
    (lib/tinykvm/linux/threads.hpp, threads.cpp), [Signals] (signals.hpp, signals.cpp) and the
    signal system calls (system_calls.cpp).

    Threads of the guest are scheduled cooperatively on one vCPU: a thread runs until a system
    call suspends it.  A [Thread*] is the thread's id, its key in the map; the null pointer is
    [None]. *)
From stdpp Require Import base tactics list numbers strings gmap fin_maps sorting relations.
From Stdlib Require Import ZArith Lia Bool.
From S2P Require Import Prelude Cpu.
Local Open Scope Z_scope.

(** ** Data *)

Record Thread := mkThread { tid : Z; stored_regs : x86regs; fsbase : Z; clear_tid : Z }.

Record MultiThreading := mkMT {
  m_threads : gmap Z Thread;
  m_suspended : list Z;
  m_current : option Z;
  thread_counter : Z }.

Record SignalStack := mkSignalStack { ss_sp : Z; ss_flags : Z; ss_size : Z }.
Record SignalAction := mkSignalAction { handler : Z; altstack : bool; mask : Z; restorer : Z }.
Definition SIG_UNSET : Z := W64 - 1.
Definition is_unset (a : SignalAction) : bool := (handler a =? 0) || (handler a =? SIG_UNSET).
Definition default_action : SignalAction := mkSignalAction SIG_UNSET false 0 0.
Record Signals := mkSignals { sig_actions : list SignalAction; m_per_thread : gmap Z SignalStack }.
Definition Signals_new : Signals := mkSignals (replicate 64 default_action) ∅.

(** What the members of a new [Thread] hold that its constructor does not initialise. *)
Record Junk := mkJunk { junk_regs : x86regs; junk_clear : Z }.

(** [Thread(mt, tid, tls, stack)] *)
Definition Thread_new (junk : Junk) (t tls stack : Z) : Thread :=
  mkThread t (set_rsp (junk_regs junk) stack) tls (junk_clear junk).

Definition set_threads (m : MultiThreading) x := mkMT x (m_suspended m) (m_current m) (thread_counter m).
Definition set_suspended (m : MultiThreading) x := mkMT (m_threads m) x (m_current m) (thread_counter m).
Definition set_current (m : MultiThreading) x := mkMT (m_threads m) (m_suspended m) x (thread_counter m).
Definition set_counter (m : MultiThreading) x := mkMT (m_threads m) (m_suspended m) (m_current m) x.

(** [try_emplace] keeps an existing thread. *)
Definition try_emplace (m : gmap Z Thread) (t : Z) (th : Thread) : gmap Z Thread :=
  match m !! t with Some _ => m | None => <[t := th]> m end.

(** [MultiThreading(machine)] *)
Definition MultiThreading_new (junk : Junk) : MultiThreading :=
  mkMT {[1 := Thread_new junk 1 0 0]} [] (Some 1) 1.

(** ** The machine as the handlers see it *)

Section threads.
Context {G : Type} `{gm : !GuestMemory G}.
Variable junk : Junk.

Record OS := mkOS {
  regs : x86regs;
  sregs_fs : Z;               (* fs.base of the special registers *)
  stopped : bool;
  m_mt : option MultiThreading;
  m_signals : Signals;
  guest : G }.

Definition set_regs (r : x86regs) : M OS unit :=
  modify (fun s => mkOS r (sregs_fs s) (stopped s) (m_mt s) (m_signals s) (guest s)).
Definition set_tls_base (a : Z) : M OS unit :=
  modify (fun s => mkOS (regs s) a (stopped s) (m_mt s) (m_signals s) (guest s)).
Definition cpu_stop : M OS unit :=
  modify (fun s => mkOS (regs s) (sregs_fs s) true (m_mt s) (m_signals s) (guest s)).
Definition set_mt (m : MultiThreading) : M OS unit :=
  modify (fun s => mkOS (regs s) (sregs_fs s) (stopped s) (Some m) (m_signals s) (guest s)).
Definition set_signals (g : Signals) : M OS unit :=
  modify (fun s => mkOS (regs s) (sregs_fs s) (stopped s) (m_mt s) g (guest s)).
Definition on_guest {A} (m : M G A) : M OS A :=
  fun s => let (r, g) := m (guest s) in (r, mkOS (regs s) (sregs_fs s) (stopped s) (m_mt s) (m_signals s) g).
Definition return_rax (v : Z) : M OS unit := let! s := get in set_regs (set_rax (regs s) v).

(** [Machine::threads()] creates the threads on first use. *)
Definition threads : M OS MultiThreading :=
  let! s := get in
  match m_mt s with
  | Some m => ret m
  | None => set_mt (MultiThreading_new junk) ;;; ret (MultiThreading_new junk)
  end.
Definition modify_mt (f : MultiThreading -> MultiThreading) : M OS unit :=
  let! m := threads in set_mt (f m).

(** Following a [Thread*]. *)
Definition deref (p : option Z) : M OS Thread :=
  let! m := threads in
  match p with
  | Some t => match m_threads m !! t with
              | Some th => ret th
              | None => throw (Undefined "pointer to an erased thread")
              end
  | None => throw (Undefined "null pointer to a thread")
  end.
Definition get_thread : M OS Thread := let! m := threads in deref (m_current m).
Definition store_thread (th : Thread) : M OS unit :=
  modify_mt (fun m => set_threads m (<[tid th := th]> (m_threads m))).

(** ** [Thread] *)

Definition thread_suspend (th : Thread) (return_value : Z) : M OS unit :=
  let! s := get in
  store_thread (mkThread (tid th) (set_rax (regs s) return_value) (sregs_fs s) (clear_tid th)) ;;;
  modify_mt (fun m => set_suspended m (m_suspended m ++ [tid th])).

Definition thread_activate (th : Thread) : M OS x86regs :=
  modify_mt (fun m => set_current m (Some (tid th))) ;;;
  set_tls_base (fsbase th) ;;;
  let! s := get in
  ret (set_rsp (regs s) (rsp (stored_regs th))).

Definition thread_resume (th : Thread) : M OS unit :=
  modify_mt (fun m => set_current m (Some (tid th))) ;;;
  set_regs (stored_regs th) ;;;
  set_tls_base (fsbase th).

(** ** [MultiThreading] *)

Definition erase_thread (t : Z) : M OS unit :=
  let! m := threads in
  match m_threads m !! t with
  | Some _ => modify_mt (fun m => set_threads m (base.delete t (m_threads m)))
  | None => throw (Undefined "assertion: thread exists")
  end.

Definition wakeup_next : M OS unit :=
  let! m := threads in
  match m_suspended m with
  | [] => throw (Undefined "assertion: a thread is suspended")
  | next :: rest =>
      modify_mt (fun m => set_suspended m rest) ;;;
      let! th := deref (Some next) in
      thread_resume th
  end.

Definition suspend_and_yield (result : Z) : M OS bool :=
  let! th := get_thread in
  let! m := threads in
  match m_suspended m with
  | [] => ret false
  | _ => thread_suspend th result ;;; wakeup_next ;;; ret true
  end.

Definition CLONE_PARENT_SETTID : Z := 0x100000.
Definition CLONE_CHILD_CLEARTID : Z := 0x200000.
Definition CLONE_CHILD_SETTID : Z := 0x1000000.

Definition has_flag (flags f : Z) : bool := negb (flags .& f =? 0).

(** [create(flags, ctid, ptid, stack, tls)]; returns the id of the new thread. *)
Definition create (flags ctid ptid stack tls : Z) : M OS Z :=
  let! m := threads in
  when (INT_MAX <=? thread_counter m) (throw (Undefined "overflow of thread_counter")) ;;;
  let t := thread_counter m + 1 in
  modify_mt (fun m => set_counter m t) ;;;
  modify_mt (fun m => set_threads m (try_emplace (m_threads m) t (Thread_new junk t tls stack))) ;;;
  when (has_flag flags CLONE_CHILD_SETTID) (on_guest (guest_write ctid (le_bytes 4 t))) ;;;
  when (has_flag flags CLONE_PARENT_SETTID) (on_guest (guest_write ptid (le_bytes 4 t))) ;;;
  when (has_flag flags CLONE_CHILD_CLEARTID)
    (let! th := deref (Some t) in
     store_thread (mkThread (tid th) (stored_regs th) (fsbase th) ctid)) ;;;
  ret t.

(** [create(tid)] *)
Definition create_tid (t : Z) : M OS unit :=
  modify_mt (fun m => set_threads m (try_emplace (m_threads m) t (Thread_new junk t 0 0))).

Definition thread_exit (th : Thread) : M OS unit :=
  let! cur := get_thread in
  let exiting_myself := tid cur =? tid th in
  when (negb (clear_tid th =? 0)) (on_guest (guest_write (clear_tid th) (le_bytes 4 0))) ;;;
  erase_thread (tid th) ;;;
  when exiting_myself wakeup_next.

(** [reset_to(other)]; [other_fs] is the other machine's fs.base.  The threads are copied; the
    pointers of [other] are followed to their ids, which are then looked up in the copy. *)
Definition follow (other : MultiThreading) (p : option Z) : M OS Z :=
  match p with
  | Some t => match m_threads other !! t with
              | Some th => ret (tid th)
              | None => throw (Undefined "pointer to an erased thread")
              end
  | None => throw (Undefined "null pointer to a thread")
  end.
Definition reset_to (other : MultiThreading) (other_fs : Z) : M OS unit :=
  let! cur := get_thread in
  let! new_tid := follow other (m_current other) in
  when (negb (new_tid =? tid cur)) (set_tls_base other_fs) ;;;
  modify_mt (fun m => set_suspended (set_threads m (m_threads other)) []) ;;;
  for_each (m_suspended other) (fun p =>
    let! t := follow other (Some p) in
    modify_mt (fun m => set_suspended m (m_suspended m ++ [t]))) ;;;
  modify_mt (fun m => mkMT (m_threads m) (m_suspended m)
    (match m_threads m !! new_tid with Some _ => Some new_tid | None => None end) (thread_counter other)).

Definition set_to_and_suspend_others (t : Z) : M OS unit :=
  modify_mt (fun m =>
    mkMT (m_threads m) (filter (fun o => o <> t) (merge_sort Z.le (elements (dom (m_threads m)))))
      (match m_threads m !! t with Some _ => Some t | None => None end) (thread_counter m)).

(** ** System calls *)

Definition EAGAIN : Z := 11.
Definition ENOSPC : Z := 28.

Definition sys_sched_yield : M OS unit := let! _ := suspend_and_yield 0 in ret tt.

(** The end of [clone] and [clone3]: the parent is suspended, the child runs. *)
Definition switch_to_child (parent : Thread) (child : Z) : M OS unit :=
  thread_suspend parent child ;;;
  let! th := deref (Some child) in
  let! r := thread_activate th in
  set_regs (set_rax r 0).

Definition STACK_EXTRA : Z := 0x200000.

Definition sys_clone : M OS unit :=
  let! s := get in
  let r := regs s in
  let! stack :=
    (if rsi r =? 0 then
       let! th := get_thread in
       let oldstk_top := fsbase th in
       let oldstk_current := rsp r ⊖ 0x100 in
       let size := oldstk_top ⊖ oldstk_current in
       let size := if 0x1000000 <? size then 0x2000000 else size in
       let! stack := on_guest (guest_mmap (size ⊕ STACK_EXTRA)) in
       on_guest (guest_copy (stack ⊕ STACK_EXTRA) oldstk_current size) ;;;
       ret (stack ⊕ 0x100 ⊕ STACK_EXTRA)
     else ret (rsi r)) in
  let! s := get in
  let tls := if r8 r =? 0 then sregs_fs s else r8 r in
  let! parent := get_thread in
  let! child := create (rdi r) (r10 r) (rdx r) stack tls in
  switch_to_child parent child.

Definition SETTLS : Z := 0x80000.

Definition sys_clone3 : M OS unit :=
  let! s := get in
  let r := regs s in
  if rsi r <? 88 then return_rax (neg64 ENOSPC)
  else
    let! args := on_guest (guest_read (rdi r) 88) in
    let flags := field64 args 0 in
    let child_tid := field64 args 16 in
    let parent_tid := field64 args 24 in
    let stack := field64 args 40 ⊕ field64 args 48 in
    let! s := get in
    let tls := if flags .& SETTLS =? 0 then sregs_fs s else field64 args 56 in
    let! parent := get_thread in
    let! child := create flags child_tid parent_tid stack tls in
    when (0 <? field64 args 72)
      (let! set_tid := on_guest (guest_read (field64 args 64) 8) in
       let! th := deref (Some child) in
       store_thread (mkThread (tid th) (stored_regs th) (fsbase th) (le_value set_tid))) ;;;
    switch_to_child parent child.

Definition sys_exit : M OS unit :=
  let! s := get in
  match m_mt s with
  | Some _ =>
      let! th := get_thread in
      if negb (tid th =? 1) then thread_exit th else cpu_stop
  | None => cpu_stop
  end.

Definition sys_gettid : M OS unit :=
  let! s := get in
  match m_mt s with
  | Some _ => let! th := get_thread in return_rax (tid th)
  | None => return_rax 1
  end.

Definition FUTEX_WAIT : Z := 0.
Definition FUTEX_WAKE : Z := 1.
Definition FUTEX_WAIT_BITSET : Z := 9.
Definition FUTEX_WAKE_BITSET : Z := 10.

Definition sys_futex : M OS unit :=
  let! s := get in
  let addr := rdi (regs s) in
  let op := rsi (regs s) .& 0xF in
  let val := uint32 (rdx (regs s)) in
  if (op =? FUTEX_WAIT) || (op =? FUTEX_WAIT_BITSET) then
    let! bytes := on_guest (guest_read addr 4) in
    if le_value bytes =? val then
      let! yielded := suspend_and_yield (neg64 EAGAIN) in
      if yielded then ret tt
      else on_guest (guest_write addr (le_bytes 4 0)) ;;; return_rax 0
    else return_rax 0
  else if (op =? FUTEX_WAKE) || (op =? FUTEX_WAKE_BITSET) then
    let! yielded := suspend_and_yield 0 in
    if yielded then ret tt else return_rax 0
  else throw (RuntimeError "Unimplemented futex op: ").

Definition sys_set_tid_address : M OS unit :=
  let! s := get in
  let! th := get_thread in
  store_thread (mkThread (tid th) (stored_regs th) (fsbase th) (rdi (regs s))) ;;;
  return_rax (tid th).

(** ** Signals *)

(** [signals.at(i)] *)
Definition action_at (g : Signals) (i : Z) : option SignalAction :=
  if 0 <=? i then sig_actions g !! Z.to_nat i else None.

(** [Signals::get(sig)] *)
Definition signals_get (sig : Z) : M OS SignalAction :=
  let! s := get in
  if 0 <? sig then
    match action_at (m_signals s) (sig - 1) with Some a => ret a | None => throw OutOfRange end
  else throw (MachineException "Signal 0 invoked" sig).
(** Assignment through the reference that [get] returns. *)
Definition signals_put (sig : Z) (a : SignalAction) : M OS unit :=
  let! s := get in
  set_signals (mkSignals (<[Z.to_nat (sig - 1) := a]> (sig_actions (m_signals s))) (m_per_thread (m_signals s))).

(** [m_per_thread[tid]] inserts a default entry. *)
Definition per_thread (t : Z) : M OS SignalStack :=
  let! s := get in
  match m_per_thread (m_signals s) !! t with
  | Some x => ret x
  | None =>
      let d := mkSignalStack 0 0 0 in
      set_signals (mkSignals (sig_actions (m_signals s)) (<[t := d]> (m_per_thread (m_signals s)))) ;;; ret d
  end.

(** [Signals::enter(cpu, sig)] *)
Definition signals_enter (sig : Z) : M OS unit :=
  if sig =? 0 then ret tt
  else
    let! s := get in
    match action_at (m_signals s) sig with
    | None => throw OutOfRange
    | Some a =>
        when (altstack a)
          (let! th := get_thread in
           let! stack := per_thread (tid th) in
           when (negb (ss_sp stack =? 0))
             (let! s := get in set_regs (set_rsp (regs s) (ss_sp stack ⊕ ss_size stack)))) ;;;
        let! s := get in
        set_regs (set_rcx (regs s) (handler a))
    end.

Definition sys_tgkill : M OS unit :=
  let! s := get in
  (match m_mt s with Some _ => let! _ := get_thread in ret tt | None => ret tt end) ;;;
  let sig := int32 (rdx (regs s)) in
  if sig =? 0 then return_rax 0 else signals_enter sig.

Definition SA_ONSTACK : Z := 0x08000000.

Definition sys_rt_sigaction : M OS unit :=
  let! s := get in
  let sig := int32 (rdi (regs s)) in
  let g_act := rsi (regs s) in
  let g_oldact := rdx (regs s) in
  if sig =? 0 then return_rax 0
  else
    let! a := signals_get sig in
    when (negb (g_oldact =? 0))
      (on_guest (guest_write g_oldact
        (le_bytes 8 (handler a .& not64 0xF) ++ le_bytes 8 (if altstack a then SA_ONSTACK else 0)
         ++ le_bytes 8 (restorer a) ++ le_bytes 8 (mask a)))) ;;;
    when (negb (g_act =? 0))
      (let! sa := on_guest (guest_read g_act 32) in
       signals_put sig (mkSignalAction (field64 sa 0) (negb (field64 sa 8 .& SA_ONSTACK =? 0))
         (uint32 (field64 sa 24)) (field64 sa 16))) ;;;
    return_rax 0.

Definition sys_rt_sigprocmask : M OS unit :=
  let! s := get in
  let g_oldset := rdx (regs s) in
  when (negb (g_oldset =? 0)) (on_guest (guest_write g_oldset (replicate 8 255))) ;;;
  return_rax 0.

Definition sys_sigaltstack : M OS unit :=
  let! s := get in
  when (negb (rdi (regs s) =? 0))
    (let! th := get_thread in
     let! _ := per_thread (tid th) in
     let! b := on_guest (guest_read (rdi (regs s)) 24) in
     let! s := get in
     set_signals (mkSignals (sig_actions (m_signals s))
       (<[tid th := mkSignalStack (field64 b 0) (int32 (field32 b 8)) (field64 b 16)]> (m_per_thread (m_signals s))))) ;;;
  return_rax 0.
End threads.
Arguments OS G : clear implicits.

(** ** The invariant of the scheduler *)

(** A thread's number is its key, and at most the counter.  The run queue, which is the current
    thread and the waiting ones, holds existing threads, none of them twice, and the main thread
    is one of them.  (A thread whose [clone] failed half-way exists, but is never queued.) *)
Record mt_inv (m : MultiThreading) : Prop := {
  mi_keys : forall t th, m_threads m !! t = Some th -> tid th = t /\ 1 <= t <= thread_counter m;
  mi_queue : exists c, m_current m = Some c /\ NoDup (c :: m_suspended m) /\ 1 ∈ c :: m_suspended m /\
    forall t, t ∈ c :: m_suspended m -> is_Some (m_threads m !! t) }.

Definition os_inv {G} (s : OS G) : Prop := match m_mt s with Some m => mt_inv m | None => True end.

Definition defined (e : exn) : Prop := match e with Undefined _ => False | _ => True end.
(** The counter of thread numbers is at its end. *)
Definition no_more_ids {G} (s : OS G) : Prop := match m_mt s with Some m => INT_MAX <= thread_counter m | None => False end.
(** What an exception of a handler leaves: the invariant; and nothing undefined was done, unless
    there is no next thread number. *)
Definition thrown {G} (e : exn) (s : OS G) : Prop := os_inv s /\ (defined e \/ no_more_ids s).

(** The guest-memory operations throw exceptions, but have no undefined behaviour. *)
Class GuestLaws (G : Type) `{gm : GuestMemory G} : Prop := {
  write_defined a l (g : G) : wp (guest_write a l) (fun _ _ => True) (fun e _ => defined e) g;
  read_defined a n (g : G) : wp (guest_read a n) (fun _ _ => True) (fun e _ => defined e) g;
  mmap_defined n (g : G) : wp (guest_mmap n) (fun _ _ => True) (fun e _ => defined e) g;
  copy_defined d a n (g : G) : wp (guest_copy d a n) (fun _ _ => True) (fun e _ => defined e) g }.

Section thread_proofs.
Context {G : Type} `{gm : !GuestMemory G} `{laws : !GuestLaws G}.
Variable junk : Junk.
Implicit Types (s : OS G) (m : MultiThreading).

Lemma mt_inv_new : mt_inv (MultiThreading_new junk).
Proof.
  constructor; simpl.
  - intros t th H. apply lookup_singleton_Some in H as [<- <-]. simpl. lia.
  - exists 1. split_and!; [done|apply NoDup_singleton|by apply list_elem_of_singleton|]. intros t ->%list_elem_of_singleton.
    by rewrite lookup_singleton_eq.
Qed.

(** The state with threads. *)
Definition with_mt s m : OS G := mkOS (regs s) (sregs_fs s) (stopped s) (Some m) (m_signals s) (guest s).

Lemma mi_main m : mt_inv m -> is_Some (m_threads m !! 1).
Proof. intros [_ (c&_&_&H1&Hq)]. by apply Hq. Qed.

Lemma threads_run s : os_inv s -> exists m, mt_inv m /\ threads junk s = (Ok m, with_mt s m) /\
  (forall m', m_mt s = Some m' -> m' = m).
Proof.
  unfold os_inv, threads, bind, get. destruct s as [r f st mt sg g]; simpl. destruct mt as [m|]; intros H.
  - exists m. split_and!; [done|done|congruence].
  - exists (MultiThreading_new junk). split_and!; [apply mt_inv_new|done|done].
Qed.

Lemma modify_mt_run s m f : m_mt s = Some m -> modify_mt junk f s = (Ok tt, with_mt s (f m)).
Proof. intros H. unfold modify_mt, threads, bind, get, set_mt, modify. rewrite H. done. Qed.

Lemma deref_run s m t th : m_mt s = Some m -> m_threads m !! t = Some th -> deref junk (Some t) s = (Ok th, s).
Proof. intros H Ht. unfold deref, threads, bind, get. rewrite H. simpl. by rewrite Ht. Qed.

(** The current thread. *)
Lemma get_thread_run s : os_inv s -> exists m c th, mt_inv m /\ m_current m = Some c /\ m_threads m !! c = Some th /\ tid th = c /\
  get_thread junk s = (Ok th, with_mt s m) /\ (forall m', m_mt s = Some m' -> m' = m).
Proof.
  intros Hinv. destruct (threads_run s Hinv) as (m&Hm&Hrun&Huniq). pose proof Hm as [Hk (c&Hc&_&_&Hq)].
  destruct (Hq c ltac:(apply elem_of_cons; by left)) as [th Hth]. exists m, c, th.
  split_and!; [done|done|done|by apply Hk|..|done]. unfold get_thread, bind. rewrite Hrun, Hc. by eapply deref_run.
Qed.

(** *** Yielding *)

Definition saved s (th : Thread) (rv : Z) : Thread := mkThread (tid th) (set_rax (regs s) rv) (sregs_fs s) (clear_tid th).

(** The state after the current thread [c] yields to [next]. *)
Definition yielded s m c th rv next nth rest : OS G :=
  mkOS (stored_regs nth) (fsbase nth) (stopped s)
    (Some (mkMT (<[c := saved s th rv]> (m_threads m)) (rest ++ [c]) (Some next) (thread_counter m)))
    (m_signals s) (guest s).

Lemma wakeup_next_run s m next rest nth : m_mt s = Some m -> m_suspended m = next :: rest ->
  m_threads m !! next = Some nth -> tid nth = next ->
  wakeup_next junk s = (Ok tt, mkOS (stored_regs nth) (fsbase nth) (stopped s)
    (Some (mkMT (m_threads m) rest (Some next) (thread_counter m))) (m_signals s) (guest s)).
Proof.
  intros Hs Hl Hn Ht. destruct s as [r f st mt sg g]. simpl in *. subst mt.
  unfold wakeup_next, bind at 1, threads, bind at 1, get. simpl. rewrite Hl.
  unfold modify_mt, thread_resume, modify_mt, threads, deref, threads, set_mt, set_regs, set_tls_base, bind, get, modify, ret. simpl.
  rewrite Hn. simpl. by rewrite Ht.
Qed.

Lemma yield_run s m c th rv next nth rest : m_mt s = Some m -> mt_inv m -> m_current m = Some c ->
  m_threads m !! c = Some th -> m_suspended m = next :: rest -> m_threads m !! next = Some nth ->
  suspend_and_yield junk rv s = (Ok true, yielded s m c th rv next nth rest).
Proof.
  intros Hs Hm Hc Hth Hl Hn. pose proof Hm as [Hk (c'&Hc'&Hnd&_)]. assert (c' = c) as -> by congruence.
  assert (tid th = c) as Et by by apply Hk. assert (next <> c) as Hne.
  { intros ->. rewrite Hl in Hnd. apply NoDup_cons in Hnd as [Hnd _]. apply Hnd, elem_of_cons. by left. }
  destruct s as [r f st mt sg g]. simpl in Hs. subst mt.
  unfold suspend_and_yield, get_thread, deref, threads, bind, get, ret. simpl. rewrite Hc. simpl. rewrite Hth. simpl. rewrite Hl.
  unfold thread_suspend, store_thread, modify_mt, threads, bind, get, set_mt, modify, ret. simpl. rewrite Et.
  match goal with |- context [wakeup_next junk ?t] => rewrite (wakeup_next_run t _ next (rest ++ [c]) nth eq_refl) end.
  - unfold yielded, saved. simpl. by rewrite Et.
  - simpl. by rewrite Hl.
  - simpl. by rewrite lookup_insert_ne.
  - by apply Hk.
Qed.

Lemma queue_lookup m t c : mt_inv m -> m_current m = Some c -> t ∈ c :: m_suspended m -> exists th, m_threads m !! t = Some th /\ tid th = t.
Proof.
  intros [Hk (c'&Hc'&_&_&Hq)] Hc Hin. assert (c' = c) as -> by congruence. destruct (Hq t Hin) as [th Hth].
  exists th. split; [done|by apply Hk].
Qed.

Lemma elem_of_rotate (c x : Z) l t : t ∈ x :: l ++ [c] <-> t ∈ c :: x :: l.
Proof. rewrite !elem_of_cons, elem_of_app, list_elem_of_singleton. tauto. Qed.

Lemma NoDup_rotate (c x : Z) l : NoDup (c :: x :: l) -> NoDup (x :: l ++ [c]).
Proof.
  intros H. apply (NoDup_Permutation_proper (c :: x :: l)); [|done].
  rewrite (Permutation_app_comm l [c]). simpl. apply perm_swap.
Qed.

Lemma yielded_inv s m c th rv next nth rest : mt_inv m -> m_current m = Some c -> m_threads m !! c = Some th ->
  m_suspended m = next :: rest -> os_inv (yielded s m c th rv next nth rest).
Proof.
  intros [Hk (c'&Hc'&Hnd&H1&Hq)] Hc Hth Hl. assert (c' = c) as -> by congruence. rewrite Hl in *. constructor; simpl.
  - intros t th' H. destruct (decide (t = c)) as [->|]; [|rewrite lookup_insert_ne in H by done; by apply Hk].
    rewrite lookup_insert_eq in H. injection H as <-. simpl. by apply Hk.
  - exists next. split_and!; [done|by apply NoDup_rotate|by apply elem_of_rotate|]. intros t Ht%elem_of_rotate.
    destruct (decide (t = c)) as [->|]; [by rewrite lookup_insert_eq|rewrite lookup_insert_ne by done; by apply Hq].
Qed.

(** *** The abstract scheduler *)

(** The registers and thread pointer of a thread: live for the current thread, saved for the
    others. *)
Definition ctx s (t : Z) : option (x86regs * Z) :=
  match m_mt s with
  | Some m => if decide (m_current m = Some t) then Some (regs s, sregs_fs s)
              else (fun th => (stored_regs th, fsbase th)) <$> m_threads m !! t
  | None => if decide (t = 1) then Some (regs s, sregs_fs s) else None
  end.
(** The run queue, the running thread first. *)
Definition queue s : list Z :=
  match m_mt s with
  | Some m => match m_current m with Some c => c :: m_suspended m | None => m_suspended m end
  | None => [1]
  end.

Lemma ctx_yielded s m c th rv next nth rest t : m_mt s = Some m -> mt_inv m -> m_current m = Some c ->
  m_threads m !! c = Some th -> m_suspended m = next :: rest -> m_threads m !! next = Some nth ->
  ctx (yielded s m c th rv next nth rest) t =
    if decide (t = c) then Some (set_rax (regs s) rv, sregs_fs s) else ctx s t.
Proof.
  intros Hs [_ (c'&Hc'&Hnd&_)] Hc Hth Hl Hn. assert (c' = c) as -> by congruence. rewrite Hl in Hnd.
  assert (next <> c) as Hne by (intros ->; apply NoDup_cons in Hnd as [Hnd _]; apply Hnd, elem_of_cons; by left).
  unfold ctx, yielded. simpl. rewrite Hs, Hc'. destruct (decide (t = c)) as [->|Ht].
  - rewrite decide_False by congruence. by rewrite lookup_insert_eq.
  - destruct (decide (Some c = Some t)) as [[= ->]|]; [done|]. destruct (decide (Some next = Some t)) as [[= ->]|].
    + by rewrite Hn.
    + by rewrite lookup_insert_ne.
Qed.

(** *** Rules for the operations *)

Definition with_guest s (g : G) : OS G := mkOS (regs s) (sregs_fs s) (stopped s) (m_mt s) (m_signals s) g.

Lemma wp_on_guest {A} (op : M G A) (Q : A -> OS G -> Prop) (X : exn -> OS G -> Prop) s :
  wp op (fun _ _ => True) (fun e _ => defined e) (guest s) ->
  (forall a g, Q a (with_guest s g)) -> (forall e g, defined e -> X e (with_guest s g)) -> wp (on_guest op) Q X s.
Proof. unfold wp, on_guest. destruct (op (guest s)) as [[a|e] g]; intros H HQ HX; [apply HQ|by apply HX]. Qed.

Lemma wp_threads Q X s : os_inv s -> (forall m, mt_inv m -> Q m (with_mt s m)) -> wp (threads junk) Q X s.
Proof. intros Hinv HQ. destruct (threads_run s Hinv) as (m&Hm&Hrun&_). unfold wp. rewrite Hrun. auto. Qed.

Lemma wp_get_thread Q X s : os_inv s ->
  (forall m c th, mt_inv m -> m_current m = Some c -> m_threads m !! c = Some th -> tid th = c ->
     (forall m', m_mt s = Some m' -> m' = m) -> Q th (with_mt s m)) -> wp (get_thread junk) Q X s.
Proof.
  intros Hinv HQ. destruct (get_thread_run s Hinv) as (m&c&th&Hm&Hc&Hth&Ht&Hrun&Hu). unfold wp. rewrite Hrun. eauto.
Qed.

Lemma wp_modify_mt f Q X s m : m_mt s = Some m -> Q tt (with_mt s (f m)) -> wp (modify_mt junk f) Q X s.
Proof. intros Hs HQ. unfold wp. by rewrite (modify_mt_run s m). Qed.
Lemma wp_deref t th Q X s m : m_mt s = Some m -> m_threads m !! t = Some th -> Q th s -> wp (deref junk (Some t)) Q X s.
Proof. intros Hs Ht HQ. unfold wp. by rewrite (deref_run s m t th). Qed.

(** The state with other threads and guest memory. *)
Definition spawned s m g : OS G := mkOS (regs s) (sregs_fs s) (stopped s) (Some m) (m_signals s) g.

Definition new_threads m t th : MultiThreading := mkMT (<[t := th]> (m_threads m)) (m_suspended m) (m_current m) t.

Lemma fresh_tid m : mt_inv m -> m_threads m !! (thread_counter m + 1) = None.
Proof. intros [Hk _]. destruct (m_threads m !! _) eqn:E; [|done]. apply Hk in E. lia. Qed.

Lemma insert_is_Some (mp : gmap Z Thread) k v x : is_Some (<[k := v]> mp !! x) <-> x = k \/ is_Some (mp !! x).
Proof.
  destruct (decide (x = k)) as [->|]; [rewrite lookup_insert_eq; split; [auto|eauto]|].
  rewrite lookup_insert_ne by done. tauto.
Qed.

Lemma new_threads_inv m th : mt_inv m -> tid th = thread_counter m + 1 -> mt_inv (new_threads m (thread_counter m + 1) th).
Proof.
  intros [Hk (c&Hc&Hn&H1&Hq)] Ht. constructor; simpl.
  - intros t x. pose proof (Hq 1 H1) as [x1 Hx1]. pose proof (Hk _ _ Hx1).
    intros [[<- <-]|[_ Hx]]%lookup_insert_Some; [lia|]. pose proof (Hk _ _ Hx). lia.
  - exists c. split_and!; [done|done|done|]. intros t Hin. apply insert_is_Some. right. by apply Hq.
Qed.

(** [create] threw: no thread was switched to. *)
Definition unswitched s m (e : exn) s' : Prop :=
  thrown e s' /\ queue s' = queue s /\ regs s' = regs s /\ (thread_counter m < INT_MAX -> defined e).

(** A new thread gets the next id; the queue is not touched. *)
Lemma create_spec s m flags ctid ptid stack tls Q X : m_mt s = Some m -> mt_inv m ->
  (forall g th, tid th = thread_counter m + 1 -> rsp (stored_regs th) = stack -> fsbase th = tls ->
     clear_tid th = (if has_flag flags CLONE_CHILD_CLEARTID then ctid else junk_clear junk) ->
     Q (thread_counter m + 1) (spawned s (new_threads m (thread_counter m + 1) th) g)) ->
  (forall e s', unswitched s m e s' -> X e s') -> wp (create junk flags ctid ptid stack tls) Q X s.
Proof.
  intros Hs Hm HQ HX. set (t := thread_counter m + 1). unfold create. wp_step. unfold wp at 1, threads, bind at 1, get. rewrite Hs.
  cbn beta iota. unfold ret at 1. wp_step. apply wp_when; intros Hmax.
  { apply Z.leb_le in Hmax. wp_step. apply HX. unfold unswitched, thrown, os_inv, no_more_ids. rewrite Hs. split_and!; [done|by right|done|done|lia]. }
  wp_step. eapply wp_modify_mt; [done|]. wp_step. eapply wp_modify_mt; [done|]. fold t.
  unfold try_emplace. simpl. rewrite (fresh_tid m Hm : m_threads m !! t = None).
  set (th0 := Thread_new junk t tls stack).
  change (with_mt _ _) with (spawned s (new_threads m t th0) (guest s)). generalize (guest s). intros g0.
  assert (forall e g, defined e -> X e (spawned s (new_threads m t th0) g)) as HX'.
  { intros e g He. apply HX. split_and!; [split; [by apply new_threads_inv|by left]| |done|done]. unfold queue. by rewrite Hs. }
  assert (forall g, wp (when (has_flag flags CLONE_CHILD_CLEARTID) (let! th := deref junk (Some t) in
    store_thread junk (mkThread (tid th) (stored_regs th) (fsbase th) ctid)) ;;; ret t) Q X
    (spawned s (new_threads m t th0) g)) as Hlast.
  { intros g. wp_step. wp_step.
    - wp_step. eapply wp_deref; [done|apply lookup_insert_eq|]. eapply wp_modify_mt; [done|]. wp_step.
      match goal with |- Q t ?s' => replace s' with (spawned s (new_threads m t (mkThread t (stored_regs th0) tls ctid)) g) end.
      + apply HQ; try done. simpl. by rewrite H.
      + unfold spawned, with_mt, new_threads, set_threads. simpl. do 3 f_equal. by rewrite insert_insert_eq.
    - wp_step. apply HQ; try done. simpl. by rewrite H. }
  wp_step. wp_step; [apply wp_on_guest; [apply write_defined| |intros e g1 He; by apply (HX' e g1)]; intros _ g1; change (with_guest _ g1) with (spawned s (new_threads m t th0) g1)|];
    (wp_step; wp_step; [apply wp_on_guest; [apply write_defined| |intros e g2 He; by apply (HX' e g2)]; intros _ g2; change (with_guest _ g2) with (spawned s (new_threads m t th0) g2)|]);
    apply Hlast.
Qed.

(** The state when a child runs instead of its parent. *)
Definition child_runs s m parent t th g : OS G :=
  mkOS (set_rax (set_rsp (regs s) (rsp (stored_regs th))) 0) (fsbase th) (stopped s)
    (Some (mkMT (<[tid parent := saved s parent t]> (<[t := th]> (m_threads m))) (m_suspended m ++ [tid parent]) (Some t) t))
    (m_signals s) g.

Lemma switch_run s m parent t th g : tid parent <> t -> tid th = t ->
  switch_to_child junk parent t (spawned s (new_threads m t th) g) = (Ok tt, child_runs s m parent t th g).
Proof.
  intros Hne Ht. unfold switch_to_child, thread_suspend, thread_activate, store_thread, modify_mt, threads, deref, threads, set_mt,
    set_tls_base, set_regs, bind, get, modify, ret. simpl. rewrite lookup_insert_ne, lookup_insert_eq by done. simpl.
  unfold child_runs. by rewrite Ht.
Qed.

Lemma child_runs_inv s m parent th g : mt_inv m -> m_current m = Some (tid parent) ->
  m_threads m !! tid parent = Some parent -> tid th = thread_counter m + 1 ->
  os_inv (child_runs s m parent (thread_counter m + 1) th g).
Proof.
  intros Hm Hc Hp Ht. pose proof (fresh_tid m Hm) as Hf. destruct Hm as [Hk (c&Hc'&Hnd&H1&Hq)].
  assert (c = tid parent) as -> by congruence. set (t := thread_counter m + 1) in *.
  assert (tid parent <> t) as Hne by congruence. constructor; simpl.
  - intros x xth. pose proof (Hk _ _ Hp). intros [[<- <-]|[_ [[<- <-]|[_ Hx]]%lookup_insert_Some]]%lookup_insert_Some; simpl; [unfold t; lia..|].
    pose proof (Hk _ _ Hx). unfold t. lia.
  - exists t. split_and!; [done|..].
    + apply NoDup_cons. split.
      * intros Hin. apply elem_of_app in Hin. rewrite list_elem_of_singleton in Hin.
        assert (is_Some (m_threads m !! t)) as [? ?]; [|congruence]. apply Hq, elem_of_cons. tauto.
      * apply (NoDup_Permutation_proper (tid parent :: m_suspended m)); [|done]. apply (Permutation_app_comm [tid parent]).
    + rewrite elem_of_cons in H1. rewrite elem_of_cons, elem_of_app, list_elem_of_singleton. tauto.
    + intros x. rewrite elem_of_cons, elem_of_app, list_elem_of_singleton, !insert_is_Some. intros [->|[Hin| ->]]; [tauto| |tauto].
      right. right. apply Hq, elem_of_cons. tauto.
Qed.

(** Creating a thread and switching to it. *)
Lemma spawn_spec s m parent flags ctid ptid stack tls (k : Z -> M (OS G) unit) (Q : unit -> OS G -> Prop) X :
  m_mt s = Some m -> mt_inv m -> m_current m = Some (tid parent) -> m_threads m !! tid parent = Some parent ->
  (forall e s', unswitched s m e s' -> X e s') ->
  (forall g th, tid th = thread_counter m + 1 -> rsp (stored_regs th) = stack -> fsbase th = tls ->
     wp (k (thread_counter m + 1)) (fun _ s' => exists g' th', tid th' = thread_counter m + 1 /\ rsp (stored_regs th') = stack /\
        fsbase th' = tls /\ s' = spawned s (new_threads m (thread_counter m + 1) th') g') X
       (spawned s (new_threads m (thread_counter m + 1) th) g)) ->
  (forall g th, tid th = thread_counter m + 1 -> rsp (stored_regs th) = stack -> fsbase th = tls ->
     Q tt (child_runs s m parent (thread_counter m + 1) th g)) ->
  wp (let! child := create junk flags ctid ptid stack tls in k child ;;; switch_to_child junk parent child) Q X s.
Proof.
  intros Hs Hm Hc Hp HX Hk HQ. wp_step. eapply create_spec; [done|done| |done]. intros g th Ht Hr Hf _.
  wp_step. eapply wp_mono; [by apply Hk| |done]. intros _ s' (g'&th'&Ht'&Hr'&Hf'&->).
  unfold wp. rewrite switch_run; [by apply HQ| |done]. intros Heq. pose proof (fresh_tid m Hm). congruence.
Qed.

(** *** Exiting *)

Lemma main_queued m c : mt_inv m -> m_current m = Some c -> c <> 1 -> exists next rest, m_suspended m = next :: rest.
Proof.
  intros [_ (c'&Hc'&_&H1&_)] Hc Hne. assert (c' = c) as -> by congruence. apply elem_of_cons in H1 as [<-|H1]; [done|].
  destruct (m_suspended m) as [|next rest]; [by apply elem_of_nil in H1|eauto].
Qed.

Definition exited s m c nth rest g : OS G :=
  mkOS (stored_regs nth) (fsbase nth) (stopped s)
    (Some (mkMT (base.delete c (m_threads m)) rest (Some (tid nth)) (thread_counter m))) (m_signals s) g.

Lemma exit_run s m th next rest nth : m_mt s = Some m -> mt_inv m -> m_current m = Some (tid th) ->
  m_threads m !! tid th = Some th -> m_suspended m = next :: rest -> m_threads m !! next = Some nth -> tid nth = next ->
  forall Q X, (forall g, Q tt (exited s m (tid th) nth rest g)) -> (forall e s', thrown e s' -> X e s') ->
  wp (thread_exit junk th) Q X s.
Proof.
  intros Hs Hm Hc Hth Hl Hn Ht Q X HQ HX. unfold thread_exit. wp_step. eapply wp_get_thread; [unfold os_inv; by rewrite Hs|].
  intros m' c cth Hm' Hc' Hcth Etid Hu. specialize (Hu m Hs). subst m'. assert (c = tid th) as -> by congruence.
  assert (cth = th) as -> by congruence. assert (with_mt s m = s) as -> by (destruct s; simpl in *; by subst).
  assert (next <> tid th) as Hne.
  { destruct Hm as [_ (c&Hc2&Hnd&_)]. assert (c = tid th) as -> by congruence. rewrite Hl in Hnd. intros ->.
    apply NoDup_cons in Hnd as [Hnd _]. apply Hnd, elem_of_cons. by left. }
  assert (forall s', m_mt s' = Some m -> regs s' = regs s -> sregs_fs s' = sregs_fs s -> stopped s' = stopped s ->
    m_signals s' = m_signals s -> wp (erase_thread junk (tid th) ;;; when (tid th =? tid th) (wakeup_next junk)) Q X s') as Hrest.
  { intros s' Hs' Er Ef Est Esg. wp_step. unfold erase_thread. wp_step. unfold wp at 1, threads, bind at 1, get. rewrite Hs'.
    unfold ret at 1. rewrite Hth. eapply wp_modify_mt; [done|]. rewrite Z.eqb_refl. cbn [when]. unfold wp.
    match goal with |- context [wakeup_next junk ?t] => rewrite (wakeup_next_run t _ next rest nth eq_refl);
      [|done|simpl; by rewrite lookup_delete_ne|done] end.
    specialize (HQ (guest s')). unfold exited in HQ. simpl. by rewrite Est, Esg, <- Ht. }
  wp_step. wp_step; [apply wp_on_guest; [apply write_defined| |]|by apply Hrest].
  - intros _ g. by apply Hrest.
  - intros e g He. apply HX. split; [unfold os_inv; simpl; by rewrite Hs|by left].
Qed.

Lemma exited_inv s m c next rest nth g : mt_inv m -> m_current m = Some c -> c <> 1 -> m_suspended m = next :: rest ->
  tid nth = next -> os_inv (exited s m c nth rest g).
Proof.
  intros [Hk (c'&Hc'&Hnd&H1&Hq)] Hc Hne Hl Ht. assert (c' = c) as -> by congruence. rewrite Hl in *.
  apply NoDup_cons in Hnd as [Hnin Hnd]. constructor; simpl.
  - intros t th Hl'. apply lookup_delete_Some in Hl' as [_ Hl']. by apply Hk.
  - exists next. split_and!; [by rewrite Ht|done|..].
    + apply elem_of_cons in H1 as [<-|H1]; done.
    + intros t Hin. rewrite lookup_delete_ne; [apply Hq, elem_of_cons; by right|]. intros ->. by apply Hnin.
Qed.

(** *** Every handler keeps the invariant *)

Inductive call :=
| Sched_yield | Clone | Clone3 | Exit | Gettid | Futex | Set_tid_address
| Tgkill | Rt_sigaction | Rt_sigprocmask | Sigaltstack.

(** The table of handlers; [exit_group] is the handler of [exit]. *)
Definition handle (c : call) : M (OS G) unit :=
  match c with
  | Sched_yield => sys_sched_yield junk
  | Clone => sys_clone junk
  | Clone3 => sys_clone3 junk
  | Exit => sys_exit junk
  | Gettid => sys_gettid junk
  | Futex => sys_futex junk
  | Set_tid_address => sys_set_tid_address junk
  | Tgkill => sys_tgkill junk
  | Rt_sigaction => sys_rt_sigaction
  | Rt_sigprocmask => sys_rt_sigprocmask
  | Sigaltstack => sys_sigaltstack junk
  end.

Definition ok_inv {A} (m : M (OS G) A) s : Prop := wp m (fun _ s' => os_inv s') thrown s.

Lemma os_inv_some s m : m_mt s = Some m -> mt_inv m -> os_inv s.
Proof. unfold os_inv. by intros ->. Qed.

Lemma yield_guest rv s : os_inv s -> wp (suspend_and_yield junk rv) (fun _ s' => os_inv s' /\ guest s' = guest s) (fun _ _ => False) s.
Proof.
  intros Hinv. destruct (get_thread_run s Hinv) as (m&c&th&Hm&Hc&Hth&Ht&Hrun&Hu).
  destruct (m_suspended m) as [|next rest] eqn:El.
  - unfold wp, suspend_and_yield, bind at 1. rewrite Hrun. unfold threads, bind, get. simpl. rewrite El. done.
  - destruct (queue_lookup m next c Hm Hc) as (nth&Hn&_); [rewrite El, !elem_of_cons; auto|].
    assert (suspend_and_yield junk rv s = suspend_and_yield junk rv (with_mt s m)) as E.
    { assert (get_thread junk (with_mt s m) = (Ok th, with_mt s m)) as Hrun'.
      { unfold get_thread, bind, threads, get. simpl. rewrite Hc. by apply (deref_run (with_mt s m) m). }
      unfold suspend_and_yield. unfold bind at 1. rewrite Hrun. symmetry. unfold bind at 1. by rewrite Hrun'. }
    unfold wp. rewrite E, (yield_run (with_mt s m) m c th rv next nth rest) by done.
    split; [by apply yielded_inv|done].
Qed.
Lemma yield_inv rv s (Q : bool -> OS G -> Prop) (X : exn -> OS G -> Prop) : os_inv s -> (forall b s', os_inv s' -> Q b s') ->
  wp (suspend_and_yield junk rv) Q X s.
Proof. intros Hinv HQ. eapply wp_mono; [by apply yield_guest| |done]. intros b s' [? _]. by apply HQ. Qed.

Lemma throw_inv {A} e (Q : A -> OS G -> Prop) s : os_inv s -> defined e -> wp (throw e) Q thrown s.
Proof. intros. apply wp_throw. split; [done|by left]. Qed.
Lemma return_rax_inv v s : os_inv s -> ok_inv (return_rax v) s.
Proof. unfold ok_inv, return_rax, set_regs. intros H. wp_steps. done. Qed.

Lemma get_thread_inv s (Q : Thread -> OS G -> Prop) (X : exn -> OS G -> Prop) : os_inv s ->
  (forall m th, mt_inv m -> m_current m = Some (tid th) -> m_threads m !! tid th = Some th -> Q th (with_mt s m)) ->
  wp (get_thread junk) Q X s.
Proof. intros H HQ. eapply wp_get_thread; [done|]. intros m c th Hm Hc Hth <- _. by apply HQ. Qed.

Lemma guest_inv {A} (op : M G A) (Q : A -> OS G -> Prop) s : os_inv s ->
  (forall g, wp op (fun _ _ => True) (fun e _ => defined e) g) ->
  (forall a g, os_inv (with_guest s g) -> Q a (with_guest s g)) -> wp (on_guest op) Q thrown s.
Proof. intros H Hop HQ. apply wp_on_guest; [apply Hop| |]; [intros a g; by apply HQ|]. intros e g He. split; [done|by left]. Qed.

(** The common end of [clone] and [clone3]. *)
Lemma spawn_inv (k : Z -> Z -> M (OS G) unit) flags ctid ptid stack tls s : os_inv s ->
  (forall m s' t th, (forall th', tid th' = t -> mt_inv (new_threads m t th')) -> tid th = t -> m_mt s' = Some (new_threads m t th) ->
     wp (k t t) (fun _ s2 => exists g' th', tid th' = t /\ rsp (stored_regs th') = rsp (stored_regs th) /\
        fsbase th' = fsbase th /\ s2 = spawned s' (new_threads m t th') g') thrown s') ->
  ok_inv (let! parent := get_thread junk in
          let! child := create junk flags ctid ptid stack tls in k child child ;;; switch_to_child junk parent child) s.
Proof.
  intros Hinv Hk. unfold ok_inv. wp_step. apply get_thread_inv; [done|]. intros m parent Hm Hc Hp.
  apply (spawn_spec (with_mt s m) m parent flags ctid ptid stack tls (fun t => k t t)); try done.
  - by intros e s' [? _].
  - intros g th Ht Hr Hf. eapply wp_mono; [apply (Hk m _ _ th); [intros th'; by apply new_threads_inv|done|done]| |done].
    intros _ s2 (g'&th'&Ht'&Hr'&Hf'&->). exists g', th'. split_and!; [done|congruence|congruence|done].
  - intros g th Ht _ _. by apply child_runs_inv.
Qed.

Lemma clone_inv s : os_inv s -> ok_inv (sys_clone junk) s.
Proof.
  intros Hinv. unfold ok_inv, sys_clone. wp_step. wp_step. wp_step.
  assert (forall s' stack, os_inv s' -> wp (let! s0 := get in
    let tls := if r8 (regs s) =? 0 then sregs_fs s0 else r8 (regs s) in
    let! parent := get_thread junk in
    let! child := create junk (rdi (regs s)) (r10 (regs s)) (rdx (regs s)) stack tls in switch_to_child junk parent child)
    (fun _ s' => os_inv s') thrown s') as Hrest.
  { intros s' stack Hs'. wp_step. wp_step. apply (spawn_inv (fun _ _ => ret tt)); [done|].
    intros m s2 t th _ Ht Hm. wp_step. exists (guest s2), th. split_and!; try done. destruct s2; simpl in *; by subst. }
  wp_step; [|wp_step; by apply Hrest]. wp_step. apply get_thread_inv; [done|]. intros m th Hm _ _. wp_step.
  apply guest_inv; [done|intros; apply mmap_defined|]. intros a g Hg. wp_step.
  apply guest_inv; [done|intros; apply copy_defined|]. intros _ g' Hg'. wp_step. by apply Hrest.
Qed.

Lemma clone3_inv s : os_inv s -> ok_inv (sys_clone3 junk) s.
Proof.
  intros Hinv. unfold ok_inv, sys_clone3. wp_step. wp_step. wp_step; [by apply return_rax_inv|]. wp_step.
  apply guest_inv; [done|intros; apply read_defined|]. intros args g Hg. wp_step. wp_step.
  apply (spawn_inv (fun _ child => when (0 <? field64 args 72)
      (let! set_tid := on_guest (guest_read (field64 args 64) 8) in
       let! th := deref junk (Some child) in
       store_thread junk (mkThread (tid th) (stored_regs th) (fsbase th) (le_value set_tid))))); [done|].
  intros m s2 t th Hm' Ht Hm. wp_step.
  - wp_step. apply wp_on_guest; [apply read_defined| |].
    2:{ intros e g2 He. split; [|by left]. unfold os_inv. cbn. rewrite Hm. by apply Hm'. }
    intros b g2. wp_step.
    eapply wp_deref; [exact Hm|apply lookup_insert_eq|]. eapply wp_modify_mt; [exact Hm|].
    exists g2, (mkThread t (stored_regs th) (fsbase th) (le_value b)). split_and!; try done.
    unfold spawned, with_mt, set_threads, new_threads. simpl. rewrite Ht. do 3 f_equal. by rewrite insert_insert_eq.
  - exists (guest s2), th. split_and!; try done. destruct s2; simpl in *; by subst.
Qed.

Lemma exit_inv s : os_inv s -> ok_inv (sys_exit junk) s.
Proof.
  intros Hinv. unfold ok_inv, sys_exit. wp_step. wp_step. destruct (m_mt s) eqn:Emt.
  - wp_step. eapply get_thread_inv; [done|]. intros m' th Hm Hc Hth. wp_step; [|unfold cpu_stop; by wp_step].
    assert (tid th <> 1) as Hne by by apply Z.eqb_neq, negb_true_iff.
    destruct (main_queued m' _ Hm Hc Hne) as (next&rest&Hl).
    destruct (queue_lookup m' next _ Hm Hc) as (nth&Hn&Ht); [rewrite Hl, !elem_of_cons; auto|].
    apply (exit_run (with_mt s m') m' th next rest nth); try done. intros g. by apply (exited_inv _ _ _ next).
  - unfold cpu_stop. by wp_step.
Qed.

Lemma store_current_inv s m th th' : m_mt s = Some m -> mt_inv m -> m_threads m !! tid th = Some th -> tid th' = tid th ->
  ok_inv (store_thread junk th') s.
Proof.
  intros Hs [Hk (c&Hc&Hnd&H1&Hq)] Hth Ht. unfold ok_inv, store_thread. eapply wp_modify_mt; [done|]. constructor; simpl.
  - intros t x. rewrite Ht. intros [[<- <-]|[_ Hx]]%lookup_insert_Some; [split; [done|by apply (Hk _ th)]|by apply Hk].
  - exists c. split_and!; [done|done|done|]. intros t Hin. apply insert_is_Some. right. by apply Hq.
Qed.

Lemma per_thread_inv t s (Q : SignalStack -> OS G -> Prop) (X : exn -> OS G -> Prop) : os_inv s ->
  (forall x s', os_inv s' -> Q x s') -> wp (per_thread t) Q X s.
Proof.
  intros H HQ. unfold per_thread, set_signals. wp_step. wp_step. destruct (_ !! t); wp_steps; by apply HQ.
Qed.

Lemma enter_inv sig s : os_inv s -> ok_inv (signals_enter junk sig) s.
Proof.
  intros Hinv. unfold ok_inv, signals_enter. wp_step; [by wp_step|]. wp_step. wp_step. destruct (action_at _ _) as [a|]; [|by apply throw_inv].
  assert (forall s', os_inv s' -> wp (let! s := get in set_regs (set_rcx (regs s) (handler a))) (fun _ s' => os_inv s')
    thrown s') as Hlast.
  { intros s' Hs'. unfold set_regs. by wp_steps. }
  wp_step. wp_step; [|by apply Hlast]. wp_step. apply get_thread_inv; [done|]. intros m th Hm _ _. wp_step.
  apply per_thread_inv; [done|]. intros x s' Hs'. wp_step; [|by apply Hlast]. unfold set_regs at 1. wp_step. wp_step. wp_step.
  by apply Hlast.
Qed.

Lemma sigaction_inv s : os_inv s -> ok_inv sys_rt_sigaction s.
Proof.
  intros Hinv. unfold ok_inv, sys_rt_sigaction. wp_step. wp_step. wp_step; [by apply return_rax_inv|]. wp_step.
  unfold signals_get. wp_step. wp_step. wp_step; [|by apply throw_inv]. destruct (action_at _ _) as [a|]; [|by apply throw_inv]. wp_step.
  assert (forall s', os_inv s' -> wp (when (negb (rsi (regs s) =? 0))
      (let! sa := on_guest (guest_read (rsi (regs s)) 32) in
       signals_put (int32 (rdi (regs s))) (mkSignalAction (field64 sa 0) (negb (field64 sa 8 .& SA_ONSTACK =? 0))
         (uint32 (field64 sa 24)) (field64 sa 16))) ;;; return_rax 0) (fun _ s' => os_inv s') thrown s') as Hrest.
  { intros s' Hs'. wp_step. wp_step; [|by apply return_rax_inv]. wp_step.
    apply guest_inv; [done|intros; apply read_defined|]. intros sa g Hg. unfold signals_put, set_signals. wp_step. wp_step. wp_step.
    by apply return_rax_inv. }
  wp_step. wp_step; [|by apply Hrest]. apply guest_inv; [done|intros; apply write_defined|]. intros _ g Hg. by apply Hrest.
Qed.

Lemma handle_inv c s : os_inv s -> ok_inv (handle c) s.
Proof.
  intros Hinv. destruct c; simpl.
  - unfold ok_inv, sys_sched_yield. wp_step. apply yield_inv; [done|]. intros b s' H. by wp_step.
  - by apply clone_inv.
  - by apply clone3_inv.
  - by apply exit_inv.
  - unfold ok_inv, sys_gettid. wp_step. wp_step. destruct (m_mt s) eqn:Emt; [|by apply return_rax_inv].
    wp_step. apply get_thread_inv; [done|]. intros m' th Hm _ _. by apply return_rax_inv.
  - unfold ok_inv, sys_futex. wp_step. wp_step. wp_step; [|wp_step].
    + wp_step. apply guest_inv; [done|intros; apply read_defined|]. intros b g Hg. wp_step; [|by apply return_rax_inv].
      wp_step. apply yield_inv; [done|]. intros y s' Hs'. destruct y; [by wp_step|].
      wp_step. apply guest_inv; [done|intros; apply write_defined|]. intros _ g' Hg'. by apply return_rax_inv.
    + wp_step. apply yield_inv; [done|]. intros y s' Hs'. destruct y; [by wp_step|by apply return_rax_inv].
    + by apply throw_inv.
  - unfold ok_inv, sys_set_tid_address. wp_step. wp_step. wp_step. apply get_thread_inv; [done|]. intros m th Hm Hc Hth.
    wp_step. eapply wp_mono; [by apply (store_current_inv (with_mt s m) m th)| |done].
    intros [] s' Hs'. by apply return_rax_inv.
  - unfold ok_inv, sys_tgkill. wp_step. wp_step. wp_step.
    assert (forall s', os_inv s' -> ok_inv (if int32 (rdx (regs s)) =? 0 then return_rax 0 else signals_enter junk (int32 (rdx (regs s)))) s') as Hrest.
    { intros s' Hs'. unfold ok_inv. wp_step; [by apply return_rax_inv|by apply enter_inv]. }
    destruct (m_mt s) eqn:Emt; [|wp_step; by apply Hrest]. wp_step. apply get_thread_inv; [done|]. intros m' th Hm _ _.
    wp_step. by apply Hrest.
  - by apply sigaction_inv.
  - unfold ok_inv, sys_rt_sigprocmask. wp_step. wp_step. wp_step. wp_step; [|by apply return_rax_inv].
    apply guest_inv; [done|intros; apply write_defined|]. intros _ g Hg. by apply return_rax_inv.
  - unfold ok_inv, sys_sigaltstack. wp_step. wp_step. wp_step. wp_step; [|by apply return_rax_inv].
    wp_step. apply get_thread_inv; [done|]. intros m th Hm _ _. wp_step. apply per_thread_inv; [done|]. intros x s' Hs'.
    wp_step. apply guest_inv; [done|intros; apply read_defined|]. intros b g Hg. unfold set_signals. wp_steps.
    by apply return_rax_inv.
Qed.

(** ** Theorems *)

(** Between system calls the guest changes registers, thread pointer and memory at will. *)
Inductive os_step : OS G -> OS G -> Prop :=
| guest_runs s r f g : os_step s (mkOS r f (stopped s) (m_mt s) (m_signals s) g)
| system_call s c r s' : handle c s = (r, s') -> os_step s s'.

Lemma os_step_inv s s' : os_step s s' -> os_inv s -> os_inv s'.
Proof.
  intros [t r f g|t c r t' Hrun] Hinv; [done|]. pose proof (handle_inv c t Hinv) as H. unfold ok_inv, wp in H. rewrite Hrun in H.
  destruct r; [done|]. by destruct H.
Qed.

(** C14: from every state with the scheduler's invariant (no threads yet, the threads of a fork
    that was reset to its master's, or any other), in every run, whatever the guest does between
    its system calls and although system calls fail in it, the invariant holds: the threads
    carry the numbers of their keys, the run queue holds existing threads, each once, and the
    main thread is among them.  No handler ever follows a dangling or null thread pointer or
    fails an assertion; only [clone] when the counter of thread numbers is at the end of [int]
    is undefined. *)
Theorem threads_safe s0 s c : os_inv s0 -> rtc os_step s0 s ->
  os_inv s /\ wp (handle c) (fun _ s' => os_inv s') (fun e s' => os_inv s' /\ (defined e \/ no_more_ids s')) s.
Proof.
  intros H0 Hrun. assert (os_inv s) as Hinv; [|split; [done|by apply handle_inv]].
  apply (rtc_ind_r (R := os_step) os_inv s0); [done| |done]. intros x y _ Hxy. by apply os_step_inv.
Qed.

Lemma queue_cons s m c : m_mt s = Some m -> m_current m = Some c -> queue s = c :: m_suspended m.
Proof. unfold queue. by intros -> ->. Qed.

Lemma yield_cases rv s m : m_mt s = Some m -> mt_inv m -> exists c th, m_current m = Some c /\ m_threads m !! c = Some th /\
  (m_suspended m = [] /\ suspend_and_yield junk rv s = (Ok false, s) \/
   exists next rest nth, m_suspended m = next :: rest /\ m_threads m !! next = Some nth /\
     suspend_and_yield junk rv s = (Ok true, yielded s m c th rv next nth rest)).
Proof.
  intros Hs Hm. pose proof Hm as [_ (c&Hc&_&_)].
  destruct (queue_lookup m c c Hm Hc) as (th&Hth&_); [apply elem_of_cons; by left|]. exists c, th. split_and!; [done|done|].
  destruct (m_suspended m) as [|next rest] eqn:El; [left|right].
  - split; [done|]. destruct s as [r f st mt sg g]. simpl in Hs. subst mt.
    unfold suspend_and_yield, get_thread, threads, deref, threads, bind, get, ret. simpl. rewrite Hc. simpl. rewrite Hth. simpl. by rewrite El.
  - destruct (queue_lookup m next c Hm Hc) as (nth&Hn&_); [rewrite El, !elem_of_cons; auto|].
    exists next, rest, nth. split_and!; [done|done|]. by apply yield_run.
Qed.

(** [suspend_and_yield] is a context switch.  With an empty queue it returns false and
    changes nothing.  Otherwise it returns true, the running thread moves to the end of the
    run queue, and the registers and thread pointer of every thread are kept, live or saved,
    except that the yielding thread will see the given result in RAX. *)
Theorem yield_switches rv s m : m_mt s = Some m -> mt_inv m ->
  match queue s with
  | [_] => suspend_and_yield junk rv s = (Ok false, s)
  | c :: rest => exists s', suspend_and_yield junk rv s = (Ok true, s') /\ os_inv s' /\ queue s' = rest ++ [c] /\
      guest s' = guest s /\ ctx s' c = Some (set_rax (regs s) rv, sregs_fs s) /\ (forall t, t <> c -> ctx s' t = ctx s t)
  | [] => False
  end.
Proof.
  intros Hs Hm. destruct (yield_cases rv s m Hs Hm) as (c&th&Hc&Hth&Hcase). rewrite (queue_cons s m c) by done.
  destruct Hcase as [(El&Hrun)|(next&rest&nth&El&Hn&Hrun)]; rewrite El; [done|].
  exists (yielded s m c th rv next nth rest). split_and!; [done|by apply yielded_inv|done|done|..].
  - rewrite (ctx_yielded s m) by done. by rewrite decide_True.
  - intros t Ht. rewrite (ctx_yielded s m) by done. by rewrite decide_False.
Qed.

(** [n] voluntary yields in a row, the guest running between them. *)
Inductive yields : nat -> OS G -> OS G -> Prop :=
| yields_O s : yields 0 s s
| yields_S n s r f g s1 s2 : sys_sched_yield junk (mkOS r f (stopped s) (m_mt s) (m_signals s) g) = (Ok tt, s1) ->
    yields n s1 s2 -> yields (S n) s s2.

Lemma sched_yield_queue s : os_inv s -> m_mt s <> None -> exists s', sys_sched_yield junk s = (Ok tt, s') /\
  os_inv s' /\ m_mt s' <> None /\ queue s' = drop 1 (queue s) ++ take 1 (queue s).
Proof.
  unfold os_inv. intros Hinv Hne. destruct (m_mt s) as [m|] eqn:Em; [|done].
  destruct (yield_cases 0 s m Em Hinv) as (c&th&Hc&Hth&Hcase). rewrite (queue_cons s m c) by done.
  unfold sys_sched_yield, bind. destruct Hcase as [(El&->)|(next&rest&nth&El&Hn&->)]; rewrite El.
  - exists s. split_and!; [done|by rewrite Em|congruence|]. by rewrite (queue_cons s m c), El.
  - eexists. split_and!; [done|by apply yielded_inv|done|done].
Qed.

Lemma yields_queue n s s' : yields n s s' -> os_inv s -> m_mt s <> None -> (n <= length (queue s))%nat ->
  queue s' = drop n (queue s) ++ take n (queue s).
Proof.
  induction 1 as [s|n s r f g s1 s2 Hrun _ IH]; intros Hinv Hne Hn; [by rewrite app_nil_r|].
  destruct (sched_yield_queue (mkOS r f (stopped s) (m_mt s) (m_signals s) g)) as (s1'&Hrun'&Hinv'&Hne'&Hq); [done|done|].
  assert (s1' = s1) as -> by congruence.
  change (queue (mkOS r f (stopped s) (m_mt s) (m_signals s) g)) with (queue s) in Hq.
  destruct (queue s) as [|c l]; simpl in Hn; [lia|]. simpl in Hq. rewrite drop_0 in Hq.
  rewrite IH, Hq; [|done|done|rewrite Hq, length_app; simpl; lia].
  rewrite drop_app_le, take_app_le by lia. simpl. by rewrite <- app_assoc.
Qed.

Lemma queue_nodup s : os_inv s -> m_mt s <> None -> NoDup (queue s).
Proof.
  unfold os_inv, queue. destruct (m_mt s) as [m|]; [|done]. intros [_ (c&Hc&Hnd&_)] _. by rewrite Hc.
Qed.

Lemma yields_total n s : os_inv s -> m_mt s <> None -> exists s', yields n s s'.
Proof.
  revert s. induction n as [|n IH]; intros s Hinv Hne; [by exists s; constructor|].
  destruct (sched_yield_queue s Hinv Hne) as (s1&Hrun&Hinv1&Hne1&_). destruct (IH s1 Hinv1 Hne1) as [s2 H2].
  exists s2. apply (yields_S n s (regs s) (sregs_fs s) (guest s) s1 s2); [by destruct s|done].
Qed.

(** C15: the scheduler is fair.  A thread at position [k] of the run queue (the running thread
    has position 0) runs after exactly [k] yields, whatever the threads do to their registers
    and memory in between, and at no earlier yield; after as many yields as there are threads in
    the queue, the queue is as it was; and every sequence of yields completes. *)
Theorem yield_fair s k t : os_inv s -> m_mt s <> None -> queue s !! k = Some t ->
  (forall n, exists s', yields n s s') /\
  (forall j s', (j <= k)%nat -> yields j s s' -> head (queue s') = Some t <-> j = k) /\
  (forall s', yields (length (queue s)) s s' -> queue s' = queue s).
Proof.
  intros Hinv Hne Hk. split; [intros n; by apply yields_total|]. split.
  2:{ intros s' Hy. by rewrite (yields_queue _ s s'), drop_all, firstn_all by done. }
  intros j s' Hj Hy. pose proof (lookup_lt_Some _ _ _ Hk) as Hlt.
  rewrite (yields_queue j s s') by (done || lia). rewrite head_lookup.
  destruct (lookup_lt_is_Some_2 (queue s) j) as [x Hx]; [lia|].
  rewrite lookup_app_l by (rewrite length_drop; lia). rewrite lookup_drop, Nat.add_0_r, Hx.
  split; [|intros ->; congruence]. intros [= ->]. eapply NoDup_lookup; [by apply queue_nodup|done|done].
Qed.


Lemma follow_run s other t : mt_inv other -> is_Some (m_threads other !! t) -> follow other (Some t) s = (Ok t, s).
Proof. intros [Hk _] [th Hth]. unfold follow. rewrite Hth. unfold ret. by rewrite (proj1 (Hk _ _ Hth)). Qed.

Lemma copy_suspended_run other l : mt_inv other -> (forall t, t ∈ l -> is_Some (m_threads other !! t)) ->
  forall s m, m_mt s = Some m ->
  for_each l (fun p => let! t := follow other (Some p) in
    modify_mt junk (fun m => set_suspended m (m_suspended m ++ [t]))) s
  = (Ok tt, with_mt s (set_suspended m (m_suspended m ++ l))).
Proof.
  intros Ho. induction l as [|t l IH]; intros Hl s m Hs.
  - simpl. rewrite app_nil_r. unfold ret, with_mt. destruct s, m; simpl in *. by subst.
  - cbn [for_each]. unfold bind at 1.
    assert ((let! t' := follow other (Some t) in modify_mt junk (fun m => set_suspended m (m_suspended m ++ [t']))) s
      = (Ok tt, with_mt s (set_suspended m (m_suspended m ++ [t])))) as ->.
    { unfold bind. rewrite follow_run by (done || (apply Hl, elem_of_cons; by left)). by rewrite (modify_mt_run s m). }
    erewrite (IH ltac:(intros; apply Hl, elem_of_cons; by right)); [|reflexivity].
    unfold with_mt, set_suspended. simpl. by rewrite <- app_assoc.
Qed.

(** [reset_to] makes the threads of a fork those of the master: the same threads with the
    same saved state, the same queue, the same current thread and counter; and it loads the
    master's thread pointer when the current thread is another one. *)
Theorem reset_to_copies s m c other oc other_fs : m_mt s = Some m -> mt_inv m -> m_current m = Some c ->
  mt_inv other -> m_current other = Some oc ->
  reset_to junk other other_fs s =
    (Ok tt, mkOS (regs s) (if oc =? c then sregs_fs s else other_fs) (stopped s) (Some other) (m_signals s) (guest s)).
Proof.
  intros Hs Hm Hc Ho Hoc. destruct (queue_lookup m c c Hm Hc) as (th&Hth&Et); [apply elem_of_cons; by left|].
  pose proof Ho as [_ (oc'&Hoc'&_&_&Hq)]. assert (oc' = oc) as -> by congruence.
  assert (is_Some (m_threads other !! oc)) as Hocs by (apply Hq, elem_of_cons; by left).
  unfold reset_to, bind at 1. assert (get_thread junk s = (Ok th, s)) as ->.
  { unfold get_thread, threads, bind, get. rewrite Hs. simpl. rewrite Hc. by apply (deref_run s m). }
  unfold bind at 1. rewrite Hoc, follow_run by done. rewrite Et.
  assert (exists s1, when (negb (oc =? c)) (set_tls_base other_fs) s = (Ok tt, s1) /\
    s1 = mkOS (regs s) (if oc =? c then sregs_fs s else other_fs) (stopped s) (Some m) (m_signals s) (guest s)) as (s1&Hw&Es1).
  { destruct (oc =? c); eexists; (split; [reflexivity|]); destruct s; simpl in *; by subst. }
  unfold bind at 1. rewrite Hw. unfold bind at 1. rewrite (modify_mt_run s1 m) by (by rewrite Es1).
  unfold bind at 1. erewrite (copy_suspended_run other (m_suspended other) Ho); [|intros t Ht; apply Hq, elem_of_cons; by right|done].
  erewrite modify_mt_run; [|done]. destruct Hocs as [oth Hoth]. simpl. rewrite Hoth, Es1. unfold with_mt. simpl.
  do 2 f_equal. f_equal. destruct other; simpl in *. by subst.
Qed.
End thread_proofs.

(** ** A guest with bytes in a map, and runs *)

Record ByteGuest := mkByteGuest { bytes : gmap Z Z; next_map : Z; limit : Z }.

Fixpoint put_bytes (m : gmap Z Z) (a : Z) (l : list Z) : gmap Z Z :=
  match l with [] => m | b :: l' => put_bytes (<[a := b]> m) (a + 1) l' end.
Fixpoint get_bytes (m : gmap Z Z) (a : Z) (n : nat) : list Z :=
  match n with O => [] | S n' => default 0 (m !! a) :: get_bytes m (a + 1) n' end.

(** Addresses from [limit] on fault. *)
#[export] Instance byte_guest : GuestMemory ByteGuest := {|
  guest_write a l := fun g => if a <? limit g then (Ok tt, mkByteGuest (put_bytes (bytes g) a l) (next_map g) (limit g))
                              else (Err (MemoryException "not writable" a 0 false), g);
  guest_read a n := fun g => if a <? limit g then (Ok (get_bytes (bytes g) a (Z.to_nat n)), g)
                             else (Err (MemoryException "not readable" a n false), g);
  guest_mmap n := fun g => (Ok (next_map g), mkByteGuest (bytes g) (next_map g + n) (limit g));
  guest_copy d a n := fun g => (Ok tt, mkByteGuest (put_bytes (bytes g) d (get_bytes (bytes g) a (Z.to_nat n))) (next_map g) (limit g)) |}.

#[export] Instance byte_guest_laws : GuestLaws ByteGuest.
Proof.
  constructor; intros; unfold wp; simpl; try done; by destruct (_ <? limit g).
Qed.

Definition zero_regs : x86regs := mkRegs 0 0 0 0 0 0 0 0 0 0 0 0 0 0 0 0 0 0.
(** Arguments in RDI, RSI, RDX, R10, R8. *)
Definition args5 (a b c d e : Z) : x86regs := mkRegs 0 0 0 c b a 0x7000 0 e 0 d 0 0 0 0 0 0 0.
Definition demo_junk : Junk := mkJunk zero_regs 0xDEAD0.
Definition demo_os : OS ByteGuest := mkOS zero_regs 0x1000 false None Signals_new (mkByteGuest ∅ 0x100000 0x200000).

Definition call_with (c : call) (r : x86regs) (s : OS ByteGuest) : result unit * OS ByteGuest :=
  handle demo_junk c (mkOS r (sregs_fs s) (stopped s) (m_mt s) (m_signals s) (guest s)).

(** The state in which [clone] is called. *)
Definition demo_calling : OS ByteGuest :=
  mkOS (args5 (CLONE_CHILD_CLEARTID + CLONE_PARENT_SETTID) 0x9000 0x500 0x600 0x2000) 0x1000 false None Signals_new
    (mkByteGuest ∅ 0x100000 0x200000).

(** A thread is cloned; it runs now, and the main thread waits. *)
Definition demo_cloned : OS ByteGuest := snd (handle demo_junk Clone demo_calling).

Example demo_clone_runs : queue demo_cloned = [2; 1] /\ get_bytes (bytes (guest demo_cloned)) 0x500 4 = [2; 0; 0; 0] /\
  queue (snd (call_with Exit (args5 0 0 0 0 0) demo_cloned)) = [1].
Proof. vm_compute. done. Qed.

Lemma demo_clone_run : handle demo_junk Clone demo_calling = (Ok tt, demo_cloned).
Proof. unfold demo_cloned. apply run_pair. vm_compute. reflexivity. Qed.

Lemma demo_cloned_inv : os_inv demo_cloned.
Proof. exact (wp_run _ _ _ _ _ _ (handle_inv demo_junk Clone demo_calling I) demo_clone_run). Qed.

(** A [clone] that fails: the address of the child's id is not writable.  Then one that works. *)
Definition demo_faulting : OS ByteGuest :=
  mkOS (args5 CLONE_CHILD_SETTID 0x9000 0 0x300000 0) 0x1000 false None Signals_new (guest demo_os).
Definition demo_faulted : OS ByteGuest := snd (handle demo_junk Clone demo_faulting).
Definition demo_after_fault : OS ByteGuest := snd (handle demo_junk Clone
  (mkOS (regs demo_calling) 0x1000 (stopped demo_faulted) (m_mt demo_faulted) (m_signals demo_faulted) (guest demo_calling))).

Lemma threads_safe_witness : queue demo_after_fault = [3; 1] /\ os_inv demo_after_fault /\
  wp (handle demo_junk Futex) (fun _ s' => os_inv s') (fun e s' => os_inv s' /\ (defined e \/ no_more_ids s')) demo_after_fault.
Proof.
  split; [vm_compute; reflexivity|].
  apply (threads_safe demo_junk demo_faulting demo_after_fault Futex); [exact I|].
  apply (rtc_l _ _ demo_faulted).
  { exact (system_call demo_junk demo_faulting Clone _ demo_faulted (surjective_pairing _)). }
  eapply (rtc_l _ _ _); [exact (guest_runs demo_junk demo_faulted (regs demo_calling) 0x1000 (guest demo_calling))|].
  apply rtc_once. exact (system_call demo_junk _ Clone _ demo_after_fault (surjective_pairing _)).
Defined.

Definition demo_mt : MultiThreading := match m_mt demo_cloned with Some m => m | None => MultiThreading_new demo_junk end.

Lemma demo_mt_inv : mt_inv demo_mt.
Proof. exact demo_cloned_inv. Qed.

Lemma yield_switches_witness : exists s', suspend_and_yield demo_junk 7 demo_cloned = (Ok true, s') /\ os_inv s' /\
  queue s' = [1] ++ [2] /\ guest s' = guest demo_cloned /\ ctx s' 2 = Some (set_rax (regs demo_cloned) 7, sregs_fs demo_cloned) /\
  (forall t, t <> 2 -> ctx s' t = ctx demo_cloned t).
Proof. exact (yield_switches demo_junk 7 demo_cloned demo_mt eq_refl demo_mt_inv). Defined.

Lemma yield_fair_witness : (forall n, exists s', yields demo_junk n demo_cloned s') /\
  (forall j s', (j <= 1)%nat -> yields demo_junk j demo_cloned s' -> head (queue s') = Some 1 <-> j = 1%nat) /\
  (forall s', yields demo_junk 2 demo_cloned s' -> queue s' = [2; 1]).
Proof. apply (yield_fair demo_junk demo_cloned 1 1 demo_cloned_inv); [discriminate|reflexivity]. Defined.

(** A second thread, cloned by the first. *)
Definition demo_again : OS ByteGuest :=
  mkOS (args5 CLONE_CHILD_SETTID 0xA000 0x700 0x800 0) (sregs_fs demo_cloned) false (m_mt demo_cloned) (m_signals demo_cloned) (guest demo_cloned).


Lemma reset_to_copies_witness :
  reset_to demo_junk (MultiThreading_new demo_junk) 0x1000 demo_cloned =
    (Ok tt, mkOS (regs demo_cloned) 0x1000 false (Some (MultiThreading_new demo_junk)) (m_signals demo_cloned) (guest demo_cloned)).
Proof.
  apply (reset_to_copies demo_junk demo_cloned demo_mt 2 (MultiThreading_new demo_junk) 1 0x1000 eq_refl demo_mt_inv);
    [reflexivity|apply mt_inv_new|reflexivity].
Defined.

(** ** Behaviours that look unintended *)

(** A thread cloned without CLONE_CHILD_CLEARTID clears whatever address its uninitialised
    [clear_tid] holds when it exits. *)
Example exit_clears_junk :
  let s1 := snd (call_with Clone (args5 0 0x9000 0 0 0) demo_os) in
  let s1 := mkOS (regs s1) (sregs_fs s1) false (m_mt s1) (m_signals s1) (mkByteGuest {[0xDEAD0 := 77]} 0 0x200000) in
  get_bytes (bytes (guest (snd (call_with Exit (args5 0 0 0 0 0) s1)))) 0xDEAD0 1 = [0].
Proof. vm_compute. reflexivity. Qed.

(** The counter of thread numbers overflows after 2^31 - 2 threads. *)
Example counter_overflows :
  let m := mkMT (m_threads demo_mt) (m_suspended demo_mt) (m_current demo_mt) INT_MAX in
  fst (sys_clone demo_junk (with_mt demo_again m)) = Err (Undefined "overflow of thread_counter").
Proof. vm_compute. reflexivity. Qed.

(** A clone whose child-tid pointer faults leaves a thread that is neither running nor queued. *)
Example faulting_clone_leaks_thread :
  let s1 := snd (call_with Clone (args5 CLONE_CHILD_SETTID 0x9000 0 0x300000 0) demo_os) in
  queue s1 = [1] /\ is_Some (match m_mt s1 with Some m => m_threads m !! 2 | None => None end).
Proof. vm_compute. eauto. Qed.

(** A handler installed for signal 10 is entered by signal 9. *)
Example enter_uses_next_signal :
  let s0 := mkOS zero_regs 0 false None Signals_new (mkByteGuest (put_bytes ∅ 0x500 (le_bytes 8 0x4242)) 0 0x200000) in
  let s1 := snd (call_with Rt_sigaction (args5 10 0x500 0 0 0) s0) in
  rcx (regs (snd (call_with Tgkill (args5 1 1 9 0 0) s1))) = 0x4242 /\
  rcx (regs (snd (call_with Tgkill (args5 1 1 10 0 0) s1))) = SIG_UNSET.
Proof. vm_compute. done. Qed.
