(* ===== verification/Fds.v ===== *)
(** * File descriptors

    [FileDescriptors] (lib/tinykvm/linux/fds.hpp, fds.cpp): the guest's virtual descriptors, which real descriptors of the host they
    stand for, and which of those the machine owns and may close.

    An [EpollEntry] is held by shared pointers, so entries live in a store and the table maps a
    descriptor to a key of the store.  The host is its set of open descriptors; which number a
    new descriptor gets, and what can be polled, is the host's ([HostFds]). *)
From stdpp Require Import base tactics list numbers strings gmap fin_maps fin_sets sorting relations.
From Stdlib Require Import ZArith Lia Bool.
From S2P Require Import Prelude Cpu.
Local Open Scope Z_scope.

(** ** Data *)

Definition DEFAULT_MAX_FILES : Z := 256.
Definition DEFAULT_TOTAL_FILES : Z := 0.
Definition VFD_START : Z := 0x1000.
Definition AT_FDCWD : Z := -100.

Record Entry := mkEntry { real_fd : Z; is_writable : bool; is_forked : bool }.

Record EpollEntry := mkEpoll { epoll_fds : gmap Z Z; shared_epoll_fds : gset Z }.
Definition EpollEntry_new : EpollEntry := mkEpoll ∅ ∅.

Inductive SocketType := INVALID | PIPE2 | SOCKETPAIR | EVENTFD | DUPFD | LISTEN.
Record SocketPair := mkPair { vfd1 : Z; vfd2 : Z; type : SocketType }.

(** The host's open descriptors, the interest lists of its epoll instances, and [errno]. *)
Record fd_host := mkFdHost { open_fds : gset Z; interest : gmap Z (gset Z); errno : Z }.

Record FileDescriptors := mkFds {
  m_fds : gmap Z Entry;
  m_next_fd : Z;
  m_cwd : string;
  m_cwd_fd : Z;
  m_max_files : Z;
  m_total_fds_opened : Z;
  m_max_total_fds_opened : Z;
  m_epoll_fds : gmap Z Z;
  epoll_store : gmap Z EpollEntry;
  next_epoll : Z;
  m_sockets : list SocketPair;
  m_forked_machine : bool;
  fhost : fd_host }.

Definition set_fds (s : FileDescriptors) x := mkFds x (m_next_fd s) (m_cwd s) (m_cwd_fd s) (m_max_files s)
  (m_total_fds_opened s) (m_max_total_fds_opened s) (m_epoll_fds s) (epoll_store s) (next_epoll s) (m_sockets s)
  (m_forked_machine s) (fhost s).
Definition set_next_fd (s : FileDescriptors) x := mkFds (m_fds s) x (m_cwd s) (m_cwd_fd s) (m_max_files s)
  (m_total_fds_opened s) (m_max_total_fds_opened s) (m_epoll_fds s) (epoll_store s) (next_epoll s) (m_sockets s)
  (m_forked_machine s) (fhost s).
Definition set_cwd (s : FileDescriptors) p fd := mkFds (m_fds s) (m_next_fd s) p fd (m_max_files s)
  (m_total_fds_opened s) (m_max_total_fds_opened s) (m_epoll_fds s) (epoll_store s) (next_epoll s) (m_sockets s)
  (m_forked_machine s) (fhost s).
Definition set_limits (s : FileDescriptors) mx tot mxtot := mkFds (m_fds s) (m_next_fd s) (m_cwd s) (m_cwd_fd s) mx
  tot mxtot (m_epoll_fds s) (epoll_store s) (next_epoll s) (m_sockets s) (m_forked_machine s) (fhost s).
Definition set_epoll (s : FileDescriptors) tbl store nx := mkFds (m_fds s) (m_next_fd s) (m_cwd s) (m_cwd_fd s) (m_max_files s)
  (m_total_fds_opened s) (m_max_total_fds_opened s) tbl store nx (m_sockets s) (m_forked_machine s) (fhost s).
Definition set_sockets (s : FileDescriptors) x := mkFds (m_fds s) (m_next_fd s) (m_cwd s) (m_cwd_fd s) (m_max_files s)
  (m_total_fds_opened s) (m_max_total_fds_opened s) (m_epoll_fds s) (epoll_store s) (next_epoll s) x
  (m_forked_machine s) (fhost s).
Definition set_fhost (s : FileDescriptors) x := mkFds (m_fds s) (m_next_fd s) (m_cwd s) (m_cwd_fd s) (m_max_files s)
  (m_total_fds_opened s) (m_max_total_fds_opened s) (m_epoll_fds s) (epoll_store s) (next_epoll s) (m_sockets s)
  (m_forked_machine s) x.
Definition count_opened (s : FileDescriptors) := set_limits s (m_max_files s) ((m_total_fds_opened s + 1) mod 2 ^ 16) (m_max_total_fds_opened s).

(** ** The host *)

(** The calls that create a descriptor. *)
Inductive request :=
| RDup (fd : Z) | RPipe2 (flags : Z) | RSocketpair | REventfd | REpoll
| RTimerfd (clockid : Z) | RInotify (flags : Z) | RSocket (domain ty protocol : Z) | RAccept (fd flags : Z)
| ROpen (dir : Z) (path : string) (flags mode resolve : Z) | RDirectory (path : string).

Class HostFds := {
  (** The number of the new descriptor given the open ones, or the error number. *)
  new_fd : request -> gset Z -> Z + Z;
  (** The error number with which [epoll_ctl(epfd, op, fd)] is refused, if it is. *)
  epoll_refusal : gmap Z (gset Z) -> Z -> Z -> Z -> option Z;
  (** Iteration orders of the unordered containers. *)
  set_order : gset Z -> list Z;
  map_order : gmap Z Z -> list (Z * Z) }.

Class HostFdLaws (os : HostFds) : Prop := {
  new_fd_fresh rq o fd : new_fd rq o = inl fd -> 0 <= fd /\ fd ∉ o;
  (** EEXIST: the descriptor is already registered. *)
  epoll_eexist i epfd fd : epoll_refusal i epfd 1 fd = Some 17 -> fd ∈ default ∅ (i !! epfd);
  set_order_elements o x : x ∈ set_order o <-> x ∈ o;
  map_order_elements m k v : (k, v) ∈ map_order m <-> m !! k = Some v;
  set_order_nodup o : NoDup (set_order o);
  map_order_nodup m : NoDup (map_order m) }.

Definition EPERM : Z := 1.
Definition ENOENT : Z := 2.
Definition EBADF : Z := 9.
Definition EACCES : Z := 13.
Definition EEXIST : Z := 17.
Definition EINVAL : Z := 22.
Definition EPOLL_CTL_ADD : Z := 1.
Definition EPOLL_CTL_DEL : Z := 2.
Definition EPOLL_CTL_MOD : Z := 3.

Section fds.
Context `{os : HostFds}.
(** Callbacks: the entry of the master for a descriptor, what the embedder does when a
    descriptor is freed, and the filters on paths and addresses; absent ones are [None]. *)
Variable m_find_ro_master_vm_fd : option (Z -> option Entry).
Variable free_fd_callback : option (Z -> Entry -> M FileDescriptors bool).

Definition F := M FileDescriptors.
Definition upd_fds (f : FileDescriptors -> FileDescriptors) : F unit := modify f.

Definition upd_host (f : fd_host -> fd_host) : F unit := upd_fds (fun s => set_fhost s (f (fhost s))).
(** A failing call: -1, with the error number in [errno]. *)
Definition fails (e : Z) : F Z :=
  upd_host (fun h => mkFdHost (open_fds h) (interest h) e) ;;; ret (-1).

(** A call that returns a new descriptor or -1. *)
Definition host_new (rq : request) : F Z :=
  let! s := get in
  match new_fd rq (open_fds (fhost s)) with
  | inl fd => upd_host (fun h => mkFdHost ({[fd]} ∪ open_fds h) (interest h) (errno h)) ;;; ret fd
  | inr e => fails e
  end.
Definition host_dup (fd : Z) : F Z :=
  let! s := get in if decide (fd ∈ open_fds (fhost s)) then host_new (RDup fd) else fails EBADF.
(** [pipe2] and [socketpair]: two descriptors or none. *)
Definition host_pair (rq : request) : F (option (Z * Z)) :=
  let! s := get in
  let o := open_fds (fhost s) in
  match new_fd rq o with
  | inl a =>
      match new_fd rq ({[a]} ∪ o) with
      | inl b => upd_host (fun h => mkFdHost ({[b]} ∪ ({[a]} ∪ open_fds h)) (interest h) (errno h)) ;;; ret (Some (a, b))
      | inr e => let! _ := fails e in ret None
      end
  | inr e => let! _ := fails e in ret None
  end.
(** A closed descriptor leaves every interest list. *)
Definition host_close (fd : Z) : F Z :=
  let! s := get in
  if decide (fd ∈ open_fds (fhost s)) then
    upd_host (fun h => mkFdHost (open_fds h ∖ {[fd]}) ((fun l => l ∖ {[fd]}) <$> base.delete fd (interest h)) (errno h)) ;;; ret 0
  else fails EBADF.

(** [epoll_ctl(epfd, op, fd, ...)] *)
Definition set_interest (epfd : Z) (l : gset Z) : F Z :=
  upd_host (fun h => mkFdHost (open_fds h) (<[epfd := l]> (interest h)) (errno h)) ;;; ret 0.
Definition host_epoll_ctl (epfd op fd : Z) : F Z :=
  let! s := get in
  let h := fhost s in
  if decide (epfd ∈ open_fds h /\ fd ∈ open_fds h) then
    match epoll_refusal (interest h) epfd op fd with
    | Some e => fails e
    | None =>
        let l := default ∅ (interest h !! epfd) in
        if op =? EPOLL_CTL_ADD then
          if decide (fd ∈ l) then fails EEXIST else set_interest epfd ({[fd]} ∪ l)
        else if op =? EPOLL_CTL_DEL then
          if decide (fd ∈ l) then set_interest epfd (l ∖ {[fd]}) else fails ENOENT
        else if op =? EPOLL_CTL_MOD then
          if decide (fd ∈ l) then ret 0 else fails ENOENT
        else fails EINVAL
    end
  else fails EBADF.

(** ** Constructor and destructor *)

Definition runtime_error {A} (msg : string) : F A := throw (RuntimeError msg).

(** [FileDescriptors(machine)]; [h] and [forked] are the host and the machine's flag. *)
Definition FileDescriptors_new (forked : bool) (h : fd_host) : F unit :=
  upd_fds (fun _ => mkFds ∅ VFD_START "" AT_FDCWD DEFAULT_MAX_FILES 0 DEFAULT_TOTAL_FILES ∅ ∅ 0 [] forked h) ;;;
  let! stdin_fd := host_dup 0 in
  let! stdout_fd := host_dup 1 in
  let! stderr_fd := host_dup 2 in
  if (stdin_fd <? 0) || (stdout_fd <? 0) || (stderr_fd <? 0) then
    runtime_error "TinyKVM: Failed to duplicate stdin/stdout/stderr"
  else
    upd_fds (fun s => set_fds s (<[2 := mkEntry stderr_fd true false]> (<[1 := mkEntry stdout_fd true false]>
      (<[0 := mkEntry stdin_fd false false]> (m_fds s))))).

(** The entries in the order of the map. *)
Definition map_entries (m : gmap Z Entry) : list (Z * Entry) :=
  omap (fun k => (fun e => (k, e)) <$> m !! k) (merge_sort Z.le (elements (dom m))).

(** [if (entry.real_fd > 2 && !entry.is_forked)] *)
Definition owned (e : Entry) : bool := (2 <? real_fd e) && negb (is_forked e).

Definition close_owned : F unit :=
  let! s := get in
  for_each (map_entries (m_fds s)) (fun p => when (owned (snd p)) (let! _ := host_close (real_fd (snd p)) in ret tt)).

Definition FileDescriptors_destroy : F unit := close_owned.

(** ** Managing descriptors *)

(** The limits, tested by [manage] and [manage_as]; beyond them the descriptor is closed. *)
Definition check_limits (fd : Z) : F unit :=
  let! s := get in
  if negb (m_max_total_fds_opened s =? 0) && (m_max_total_fds_opened s <=? m_total_fds_opened s) then
    let! _ := host_close fd in runtime_error "TinyKVM: Too many opened fds in total, max_total_fds_opened = "
  else if m_max_files s <=? Z.of_nat (base.size (m_fds s)) then
    let! _ := host_close fd in runtime_error "TinyKVM: Too many open files, max_files = "
  else ret tt.

(** [m_next_fd] is an [int].  Incrementing the largest one is undefined, which stops the program
    here before it has done anything with the descriptor. *)
Definition next_fd_overflow : exn := Undefined "overflow of m_next_fd".
Definition next_fd_room (n : Z) : F unit := when (INT_MAX <=? n) (throw next_fd_overflow).

Definition manage (fd : Z) (writable : bool) : F Z :=
  if fd <=? 2 then runtime_error "TinyKVM: Invalid file descriptor in FileDescriptors::add()"
  else
    check_limits fd ;;;
    let! s := get in
    next_fd_room (m_next_fd s) ;;;
    upd_fds count_opened ;;;
    upd_fds (fun s => set_fds s (<[m_next_fd s := mkEntry fd writable false]> (m_fds s))) ;;;
    upd_fds (fun s => set_next_fd s (m_next_fd s + 1)) ;;;
    ret (m_next_fd s).

Definition manage_as (vfd fd : Z) (writable : bool) : F unit :=
  if fd <=? 2 then runtime_error "TinyKVM: Invalid fd in FileDescriptors::manage_as()"
  else
    check_limits fd ;;;
    next_fd_room vfd ;;;
    upd_fds count_opened ;;;
    upd_fds (fun s => set_fds s (<[vfd := mkEntry fd writable false]> (m_fds s))) ;;;
    upd_fds (fun s => set_next_fd s (Z.max (m_next_fd s) (vfd + 1))).

Definition add_socket_pair (p : SocketPair) : F unit :=
  let! s := get in
  if m_forked_machine s then ret tt
  else if (64 <=? length (m_sockets s))%nat then runtime_error "TinyKVM: Too many recorded sockets: "
  else upd_fds (fun s => set_sockets s (m_sockets s ++ [p])).

Definition manage_duplicate (original_vfd fd : Z) (writable : bool) : F Z :=
  let! vfd := manage fd writable in
  if vfd <? 0 then ret vfd
  else
    let! s := get in
    match m_epoll_fds s !! original_vfd with
    | Some p =>
        upd_fds (fun s => set_epoll s (<[vfd := p]> (m_epoll_fds s))
          (alter (fun e => mkEpoll (epoll_fds e) ({[vfd]} ∪ ({[original_vfd]} ∪ shared_epoll_fds e))) p (epoll_store s))
          (next_epoll s)) ;;;
        ret vfd
    | None => add_socket_pair (mkPair fd vfd DUPFD) ;;; ret vfd
    end.

(** [get_epoll_entry_for_vfd]: the key of the entry. *)
Definition get_epoll_entry_for_vfd (vfd : Z) : F Z :=
  let! s := get in
  match m_epoll_fds s !! vfd with
  | Some p => ret p
  | None =>
      let p := next_epoll s in
      upd_fds (fun s => set_epoll s (<[vfd := p]> (m_epoll_fds s)) (<[p := EpollEntry_new]> (epoll_store s)) (p + 1)) ;;;
      ret p
  end.

(** ** Translating descriptors *)

Definition entry_for_vfd (vfd : Z) : F (option Entry) := let! s := get in ret (m_fds s !! vfd).

Definition set_entry (vfd : Z) (e : Entry) : F unit := upd_fds (fun s => set_fds s (<[vfd := e]> (m_fds s))).

(** The first of the shared descriptors, other than [vfd] itself, that is managed. *)
Definition managed_alias (s : FileDescriptors) (vfd : Z) (l : list Z) : option Entry :=
  head (omap (fun v => if v =? vfd then None else m_fds s !! v) l).

(** [translate]; the recursion goes through the members of epoll instances. *)
Fixpoint translate_fuel (fuel : nat) (vfd : Z) : F Z :=
  let! s := get in
  match m_fds s !! vfd with
  | Some e => ret (real_fd e)
  | None =>
      match m_find_ro_master_vm_fd with
      | None => ret (-1)
      | Some find =>
          match find vfd with
          | None => ret (-1)
          | Some entry =>
              match m_epoll_fds s !! vfd with
              | Some p =>
                  let ep := default EpollEntry_new (epoll_store s !! p) in
                  match managed_alias s vfd (set_order (shared_epoll_fds ep)) with
                  | Some e => set_entry vfd (mkEntry (real_fd e) (is_writable e) true) ;;; ret (real_fd e)
                  | None =>
                      let! nfd := host_new REpoll in
                      if nfd <? 0 then runtime_error "TinyKVM: Failed to create epoll fd"
                      else
                        set_entry vfd (mkEntry nfd true false) ;;;
                        match fuel with
                        | O => throw OutOfFuel
                        | S fuel' =>
                            for_each (map_order (epoll_fds ep)) (fun m =>
                              let! r := translate_fuel fuel' (fst m) in
                              if r <? 0 then runtime_error "TinyKVM: Failed to translate fd"
                              else
                                let! res := host_epoll_ctl nfd EPOLL_CTL_ADD r in
                                let! s := get in
                                if (res <? 0) && negb (errno (fhost s) =? EEXIST)
                                then runtime_error "TinyKVM: Failed to add fd to epoll" else ret tt) ;;;
                            ret nfd
                        end
                  end
              | None => set_entry vfd (mkEntry (real_fd entry) (is_writable entry) true) ;;; ret (real_fd entry)
              end
          end
      end
  end.
(** Each nested call makes one more epoll descriptor managed, so their number is enough. *)
Definition translate (vfd : Z) : F Z :=
  let! s := get in translate_fuel (base.size (m_epoll_fds s)) vfd.

Definition translate_writable_vfd (vfd : Z) : F Z :=
  let! s := get in
  match m_fds s !! vfd with
  | Some e => if is_writable e then ret (real_fd e) else runtime_error "TinyKVM: File descriptor is not writable"
  | None =>
      match m_find_ro_master_vm_fd with
      | None => ret (-1)
      | Some find =>
          match find vfd with
          | None => ret (-1)
          | Some entry =>
              if is_writable entry then
                set_entry vfd (mkEntry (real_fd entry) (is_writable entry) true) ;;; ret (real_fd entry)
              else runtime_error "TinyKVM: File descriptor is not writable"
          end
      end
  end.

Definition translate_unless_forked (vfd : Z) : F Z :=
  let! s := get in
  match m_fds s !! vfd with
  | Some e => if is_forked e then ret (-1) else ret (real_fd e)
  | None => ret (-1)
  end.

Definition translate_unless_forked_then (vfd : Z) (func : Entry -> F Z) (must_be_writable : bool) : F Z :=
  let! s := get in
  match m_fds s !! vfd with
  | Some e =>
      if negb (is_writable e) && must_be_writable then runtime_error "TinyKVM: File descriptor is not writable"
      else if is_forked e then func e else ret (real_fd e)
  | None =>
      match m_find_ro_master_vm_fd with
      | None => ret (-1)
      | Some find =>
          match find vfd with
          | None => ret (-1)
          | Some entry =>
              if negb (is_writable entry) && must_be_writable then runtime_error "TinyKVM: File descriptor is not writable"
              else
                let! nfd := func entry in
                set_entry vfd (mkEntry nfd (is_writable entry) false) ;;;
                ret nfd
          end
      end
  end.

(** ** Freeing and resetting *)

(** [free]: true when the callback reset the machine.  It does not close the descriptor. *)
Definition free (vfd : Z) : F bool :=
  let! s := get in
  let! reset :=
    (match free_fd_callback with
     | None => ret false
     | Some cb => match m_fds s !! vfd with Some e => cb vfd e | None => throw OutOfRange end
     end) in
  if reset then ret true
  else
    upd_fds (fun s => set_fds s (base.delete vfd (m_fds s))) ;;;
    upd_fds (fun s => set_epoll s (base.delete vfd (m_epoll_fds s)) (epoll_store s) (next_epoll s)) ;;;
    upd_fds (fun s => set_sockets s (List.filter (fun p => negb ((vfd1 p =? vfd) || (vfd2 p =? vfd))) (m_sockets s))) ;;;
    ret false.

Definition create_socket_pairs_from (sp : SocketPair) : F unit :=
  match type sp with
  | PIPE2 =>
      let! p := host_pair (RPipe2 0) in
      match p with
      | None => runtime_error "TinyKVM: Failed to create pipe2"
      | Some (a, b) => manage_as (vfd1 sp) a true ;;; manage_as (vfd2 sp) b true
      end
  | SOCKETPAIR =>
      let! p := host_pair RSocketpair in
      match p with
      | None => runtime_error "TinyKVM: Failed to create socketpair"
      | Some (a, b) => manage_as (vfd1 sp) a true ;;; manage_as (vfd2 sp) b true
      end
  | EVENTFD =>
      let! fd := host_new REventfd in
      if fd <? 0 then runtime_error "TinyKVM: Failed to create eventfd2" else manage_as (vfd1 sp) fd true
  | DUPFD =>
      let! r := host_dup (vfd1 sp) in
      if r <? 0 then runtime_error "TinyKVM: Failed to duplicate a DUPFD during reset" else manage_as (vfd2 sp) r true
  | LISTEN =>
      manage_as (vfd1 sp) (vfd2 sp) true ;;;
      upd_fds (fun s => set_fds s (alter (fun e => mkEntry (real_fd e) (is_writable e) true) (vfd1 sp) (m_fds s)))
  | INVALID => ret tt
  end.

(** The copy of the master's epoll entries: a descriptor whose entry is shared with one already
    copied shares the copy. *)
Definition copy_epoll (other : FileDescriptors) (vfd p : Z) : F unit :=
  let ep := default EpollEntry_new (epoll_store other !! p) in
  let! s := get in
  match head (omap (fun v => m_epoll_fds s !! v) (set_order (shared_epoll_fds ep))) with
  | Some p' => upd_fds (fun s => set_epoll s (<[vfd := p']> (m_epoll_fds s)) (epoll_store s) (next_epoll s))
  | None =>
      upd_fds (fun s => set_epoll s (<[vfd := next_epoll s]> (m_epoll_fds s))
        (<[next_epoll s := ep]> (epoll_store s)) (next_epoll s + 1))
  end.

Definition epoll_entries (m : gmap Z Z) : list (Z * Z) :=
  omap (fun k => (fun p => (k, p)) <$> m !! k) (merge_sort Z.le (elements (dom m))).

Definition reset_to (other : FileDescriptors) : F unit :=
  close_owned ;;;
  upd_fds (fun s => set_fds s ∅) ;;;
  upd_fds (fun s => set_next_fd s (m_next_fd other)) ;;;
  upd_fds (fun s => set_limits s (m_max_files other) (m_total_fds_opened other) (m_max_total_fds_opened other)) ;;;
  upd_fds (fun s => set_epoll s ∅ (epoll_store s) (next_epoll s)) ;;;
  for_each (epoll_entries (m_epoll_fds other)) (fun p => copy_epoll other (fst p) (snd p)) ;;;
  for_each (m_sockets other) create_socket_pairs_from.

(** [create_epoll_entry_from(vfd, entry)] *)
Definition create_epoll_entry_from (vfd : Z) (entry : EpollEntry) : F unit :=
  let! fd := host_new REpoll in
  if fd <? 0 then runtime_error "TinyKVM: Failed to create epoll fd in create_epoll_entry_from()"
  else
    manage_as vfd fd true ;;;
    for_each (map_order (epoll_fds entry)) (fun m =>
      let! r := translate (fst m) in
      when (0 <=? r)
        (let! res := host_epoll_ctl fd EPOLL_CTL_ADD r in
         if res <? 0 then runtime_error "TinyKVM: Failed to add fd to epoll in create_epoll_entry_from()" else ret tt)).

(** ** Limits and numbering *)
Definition set_vfd_start (vfd_start : Z) : F unit := upd_fds (fun s => set_next_fd s vfd_start).
Definition set_max_files (n : Z) : F unit :=
  upd_fds (fun s => set_limits s n (m_total_fds_opened s) (m_max_total_fds_opened s)).
Definition set_max_total_fds_opened (n : Z) : F unit :=
  upd_fds (fun s => set_limits s (m_max_files s) (m_total_fds_opened s) n).
Definition get_current_fds_opened (s : FileDescriptors) : Z := Z.of_nat (base.size (m_fds s)) mod 2 ^ 16.
Definition get_current_sockets_opened (s : FileDescriptors) : Z := Z.of_nat (base.size (m_fds s)) mod 2 ^ 16.

(** ** Paths, addresses, working directory *)

(** A filter gives back the path to use, or refuses. *)
Definition path_filter := option (string -> option string).
Definition is_readable_path (m_open_readable : path_filter) (path : string) : option string :=
  if String.eqb path "" then None else match m_open_readable with Some f => f path | None => None end.
Definition is_writable_path (m_open_writable : path_filter) (path : string) : option string :=
  match m_open_writable with Some f => f path | None => None end.
Definition resolve_symlink (m_resolve_symlink : path_filter) (path : string) : option string :=
  match m_resolve_symlink with Some f => f path | None => None end.
Definition validate_socket_address {A} (connect_socket_callback : option (Z -> A -> option A)) (fd : Z) (a : A) : option A :=
  match connect_socket_callback with Some f => f fd a | None => None end.

Definition set_current_working_directory (path : string) : F unit :=
  let! fd := host_new (RDirectory path) in upd_fds (fun s => set_cwd s path fd).
Definition transform_relative_fd (fd : Z) : F Z :=
  let! s := get in ret (if fd =? AT_FDCWD then m_cwd_fd s else fd).

End fds.

(** ** Ownership

    [foreign] are the descriptors of everybody else (the embedder, the master VM, other
    machines); [loose] are descriptors the machine created and that no entry owns (yet).  Every
    open descriptor is exactly one of foreign, loose, or owned by exactly one entry. *)

Definition owns (m : gmap Z Entry) (v fd : Z) : Prop :=
  exists e, m !! v = Some e /\ is_forked e = false /\ real_fd e = fd.

Record table_inv (foreign loose : gset Z) (m : gmap Z Entry) (h : fd_host) : Prop := {
  ti_std fd : 0 <= fd <= 2 -> fd ∈ foreign;
  ti_total fd : fd ∈ open_fds h <-> fd ∈ foreign \/ fd ∈ loose \/ (exists v, owns m v fd);
  ti_loose fd : fd ∈ loose -> 2 < fd /\ (fd ∉ foreign);
  ti_owned v fd : owns m v fd -> 2 < fd /\ (fd ∉ foreign) /\ (fd ∉ loose);
  ti_distinct v w fd : owns m v fd -> owns m w fd -> v = w;
  ti_interest : dom (interest h) ⊆ open_fds h }.
Definition fds_inv (foreign loose : gset Z) (s : FileDescriptors) : Prop := table_inv foreign loose (m_fds s) (fhost s).

Definition opened (fd : Z) (h : fd_host) : fd_host := mkFdHost ({[fd]} ∪ open_fds h) (interest h) (errno h).
Definition closed (fd : Z) (h : fd_host) : fd_host :=
  mkFdHost (open_fds h ∖ {[fd]}) ((fun l => l ∖ {[fd]}) <$> base.delete fd (interest h)) (errno h).
Definition with_errno (e : Z) (h : fd_host) : fd_host := mkFdHost (open_fds h) (interest h) e.

(** The descriptor an entry owned before it is overwritten or erased. *)
Definition displaced (m : gmap Z Entry) (v : Z) : gset Z :=
  match m !! v with Some e => if is_forked e then ∅ else {[real_fd e]} | None => ∅ end.

Section tables.
Implicit Types (m : gmap Z Entry) (h : fd_host) (foreign loose : gset Z).

Lemma owns_insert m v e w fd :
  owns (<[v := e]> m) w fd <-> (w = v /\ is_forked e = false /\ real_fd e = fd) \/ (w <> v /\ owns m w fd).
Proof.
  unfold owns. destruct (decide (w = v)) as [->|].
  - rewrite lookup_insert_eq. split; [intros (e' & [= <-] & ?); tauto|]. intros [(_ & ? & ?)|[? _]]; [eauto|done].
  - rewrite lookup_insert_ne by done. split; [tauto|]. intros [[? _]|[_ ?]]; done.
Qed.
Lemma owns_delete m v w fd : owns (base.delete v m) w fd <-> w <> v /\ owns m w fd.
Proof.
  unfold owns. split.
  - intros (e & He & ?). apply lookup_delete_Some in He as [? ?]. split; [done|eauto].
  - intros (? & e & He & ?). exists e. by rewrite lookup_delete_ne.
Qed.
Lemma elem_displaced m v fd : fd ∈ displaced m v <-> owns m v fd.
Proof.
  unfold displaced, owns. destruct (m !! v) as [e|] eqn:E.
  - destruct (is_forked e) eqn:Ef; rewrite ?elem_of_empty, ?elem_of_singleton.
    + split; [done|]. intros (? & [= <-] & ? & ?). congruence.
    + split; [intros ->; eauto|]. by intros (? & [= <-] & _ & ->).
  - rewrite elem_of_empty. split; [done|]. by intros (? & ? & _).
Qed.

Lemma inv_opened foreign loose m h fd :
  table_inv foreign loose m h -> 0 <= fd -> fd ∉ open_fds h -> table_inv foreign ({[fd]} ∪ loose) m (opened fd h).
Proof.
  intros [Hs Ht Hl Ho ? ?] Hfd Hn.
  assert ((fd ∉ foreign) /\ forall v, ~ owns m v fd) as [? Hno].
  { split; [intros Hv|intros v Hv]; apply Hn, Ht; eauto. }
  split; simpl; [done|..].
  - intros x. rewrite elem_of_union, elem_of_singleton, Ht. set_solver.
  - intros x [->%elem_of_singleton|Hx]%elem_of_union; [|by apply Hl].
    split; [|done]. destruct (decide (2 < fd)) as [|Hle]; [done|]. by assert (fd ∈ foreign) by (apply Hs; lia).
  - intros v x Hx. specialize (Ho v x Hx) as (? & ? & ?). split_and!; [done|done|].
    rewrite not_elem_of_union, not_elem_of_singleton. split; [intros ->; by eapply Hno|done].
  - done.
  - set_solver.
Qed.
Lemma inv_closed foreign loose m h fd :
  table_inv foreign loose m h -> fd ∈ loose -> table_inv foreign (loose ∖ {[fd]}) m (closed fd h).
Proof.
  intros [? Ht Hl Ho ? ?] Hfd. split; simpl; [done|..].
  - intros x. rewrite elem_of_difference, elem_of_singleton, Ht. specialize (Hl fd Hfd).
    split; [set_solver|]. intros [Hx|[Hx|[v Hx]]]; [set_solver|set_solver|].
    split; [eauto|]. intros ->. by eapply Ho.
  - set_solver.
  - intros v x Hx. specialize (Ho v x Hx). set_solver.
  - done.
  - rewrite dom_fmap_L, dom_delete_L. set_solver.
Qed.
Lemma inv_errno foreign loose m h e : table_inv foreign loose m h -> table_inv foreign loose m (with_errno e h).
Proof. by intros [? ? ? ? ? ?]; split. Qed.

(** An entry for a loose descriptor takes it over; what the old entry owned becomes loose. *)
Lemma inv_insert foreign loose m h v fd w :
  table_inv foreign loose m h -> fd ∈ loose ->
  table_inv foreign (loose ∖ {[fd]} ∪ displaced m v) (<[v := mkEntry fd w false]> m) h.
Proof.
  intros [? Ht Hl Ho Hd ?] Hfd.
  assert (forall x, owns m x fd -> False) as Hno by (intros x Hx; by apply (Ho x fd)).
  split; [done|..|done].
  - intros x. rewrite Ht. setoid_rewrite owns_insert. rewrite elem_of_union, elem_of_difference, elem_of_singleton, elem_displaced. simpl.
    split.
    + intros [?|[?|[u Hu]]]; [tauto| |].
      * destruct (decide (x = fd)) as [->|]; [right; right; exists v; tauto|tauto].
      * destruct (decide (u = v)) as [->|]; [tauto|right; right; exists u; tauto].
    + intros [?|[[[? ?]|?]|(u & [(-> & _ & <-)|[? ?]])]]; eauto.
  - intros x [[? ?]%elem_of_difference|Hx%elem_displaced]%elem_of_union; [by apply Hl|]. apply Ho in Hx. tauto.
  - intros u x [(-> & _ & <-)|[Hu Hx]]%owns_insert; simpl.
    + destruct (Hl fd Hfd). split_and!; [done|done|]. rewrite elem_of_union, elem_of_difference, elem_displaced.
      intros [[_ []]|Hx]; [set_solver|by eapply Hno].
    + destruct (Ho u x Hx) as (? & ? & ?). split_and!; [done|done|].
      rewrite elem_of_union, elem_displaced. intros [?|Hx']; [set_solver|]. apply Hu. by eapply Hd.
  - intros u u' x [(-> & _ & <-)|[Hu Hx]]%owns_insert [(-> & _ & E)|[Hu' Hx']]%owns_insert; simpl in *; [done|..].
    + by destruct (Hno _ Hx').
    + subst. by destruct (Hno _ Hx).
    + by eapply Hd.
Qed.
Lemma inv_forget foreign loose m h v (m' : gmap Z Entry) :
  (forall w fd, owns m' w fd <-> w <> v /\ owns m w fd) ->
  table_inv foreign loose m h -> table_inv foreign (loose ∪ displaced m v) m' h.
Proof.
  intros Hm [? Ht Hl Ho Hd ?]. split; [done|..|done].
  - intros x. rewrite Ht. setoid_rewrite Hm. rewrite elem_of_union, elem_displaced. split.
    + intros [?|[?|[u Hu]]]; [tauto|tauto|]. destruct (decide (u = v)) as [->|]; [tauto|right; right; eauto].
    + intros [?|[[?|?]|(u & _ & ?)]]; eauto.
  - intros x [?|Hx%elem_displaced]%elem_of_union; [by apply Hl|]. apply Ho in Hx. tauto.
  - intros u x [Hu Hx]%Hm. destruct (Ho u x Hx) as (? & ? & ?). split_and!; [done|done|].
    rewrite elem_of_union, elem_displaced. intros [?|Hx']; [done|]. apply Hu. by eapply Hd.
  - intros u u' x [_ Hx]%Hm [_ Hx']%Hm. by eapply Hd.
Qed.
Lemma inv_insert_forked foreign loose m h v e :
  is_forked e = true -> table_inv foreign loose m h -> table_inv foreign (loose ∪ displaced m v) (<[v := e]> m) h.
Proof. intros Hf. apply inv_forget. intros w fd. rewrite owns_insert, Hf. split; [by intros [(_ & ? & _)|?]|tauto]. Qed.
Lemma inv_delete foreign loose m h v :
  table_inv foreign loose m h -> table_inv foreign (loose ∪ displaced m v) (base.delete v m) h.
Proof. apply inv_forget. intros w fd. by rewrite owns_delete. Qed.
Lemma displaced_None m v : m !! v = None -> displaced m v = ∅.
Proof. unfold displaced. by intros ->. Qed.
End tables.

(** ** What the operations do to the table and the host *)

(** Exceptions of the operations. *)
Definition orderly (e : exn) : Prop := match e with Undefined _ | OutOfFuel => False | _ => True end.


(** [s'] has the entries of [s] and maybe others, for [known] descriptors; nothing else changed
    but new descriptors of the host, whose interest lists alone (and those of [ex]) may differ. *)
Record grown (known : Z -> Prop) (ex : gset Z) (s s' : FileDescriptors) : Prop := {
  g_fds v e : m_fds s !! v = Some e -> m_fds s' !! v = Some e;
  g_new v : is_Some (m_fds s' !! v) -> is_Some (m_fds s !! v) \/ known v;
  g_rest : set_fhost (set_fds s' (m_fds s)) (fhost s) = s;
  g_open : open_fds (fhost s) ⊆ open_fds (fhost s');
  g_interest k : k ∈ open_fds (fhost s) -> k ∉ ex -> interest (fhost s') !! k = interest (fhost s) !! k }.

(** Epoll descriptors of the table that have no entry yet. *)
Definition unmanaged (s : FileDescriptors) : nat := base.size (dom (m_epoll_fds s) ∖ dom (m_fds s)).

Section ownership.
Context `{os : HostFds} {laws : HostFdLaws os}.
Variable m_find_ro_master_vm_fd : option (Z -> option Entry).
Variables (foreign : gset Z).
Implicit Types (s : FileDescriptors) (loose : gset Z).
Notation translate_fuel := (translate_fuel m_find_ro_master_vm_fd).
Notation translate := (translate m_find_ro_master_vm_fd).
(** The descriptors the master knows. *)
Definition known (v : Z) : Prop := exists find, m_find_ro_master_vm_fd = Some find /\ is_Some (find v).
Notation grown := (grown known).

Lemma grown_refl ex s : grown ex s s.
Proof. split; [done|auto| |done|done]. by destruct s. Qed.
Lemma grown_trans ex ex' s1 s2 s3 : ex' ⊆ ex ∪ (open_fds (fhost s2) ∖ open_fds (fhost s1)) ->
  grown ex s1 s2 -> grown ex' s2 s3 -> grown ex s1 s3.
Proof.
  intros Hex [H1 HN H2 H3 H4] [K1 KN K2 K3 K4]. split; [auto| | |set_solver|].
  - intros v [Hv|Hv]%KN; auto.
  - etransitivity; [|exact H2]. by rewrite <- K2.
  - intros k Hk Hx. rewrite K4, H4; set_solver.
Qed.
Lemma grown_epoll ex s s' : grown ex s s' -> m_epoll_fds s' = m_epoll_fds s /\ epoll_store s' = epoll_store s.
Proof. intros [_ _ H _ _]. rewrite <- H. done. Qed.
Lemma grown_unmanaged ex s s' : grown ex s s' -> (unmanaged s' <= unmanaged s)%nat.
Proof.
  intros Hg. unfold unmanaged. destruct (grown_epoll _ _ _ Hg) as [-> _]. apply subseteq_size.
  intros x [? Hn]%elem_of_difference. apply elem_of_difference. split; [done|]. intros [e He]%elem_of_dom.
  apply Hn, elem_of_dom. exists e. by apply Hg.
Qed.
Lemma grown_host ex s h : open_fds (fhost s) ⊆ open_fds h ->
  (forall k, k ∈ open_fds (fhost s) -> k ∉ ex -> interest h !! k = interest (fhost s) !! k) -> grown ex s (set_fhost s h).
Proof. intros. split; [done|auto| |done|done]. by destruct s. Qed.
Lemma grown_entry ex s v e : m_fds s !! v = None -> known v -> grown ex s (set_fds s (<[v := e]> (m_fds s))).
Proof.
  intros Hv Hk. split; [..|by destruct s|done|done].
  - intros w f Hw. simpl. rewrite lookup_insert_ne; [done|congruence].
  - intros w. simpl. destruct (decide (w = v)) as [->|]; [auto|]. rewrite lookup_insert_ne by done. auto.
Qed.
Lemma unmanaged_entry s v e p : m_fds s !! v = None -> m_epoll_fds s !! v = Some p ->
  unmanaged s = S (unmanaged (set_fds s (<[v := e]> (m_fds s)))).
Proof.
  intros Hv Hp. unfold unmanaged. simpl. rewrite dom_insert_L.
  assert (v ∈ dom (m_epoll_fds s) ∖ dom (m_fds s)) as Hin
    by (apply elem_of_difference; rewrite elem_of_dom, not_elem_of_dom; by split; [exists p|]).
  rewrite (union_difference_L {[v]} (dom (m_epoll_fds s) ∖ dom (m_fds s))) at 1 by set_solver.
  rewrite size_union, size_singleton by set_solver. simpl. f_equal. f_equal. set_solver.
Qed.

Lemma host_new_answer loose rq s (Q : Z -> FileDescriptors -> Prop) X :
  fds_inv foreign loose s ->
  (forall e, fds_inv foreign loose (set_fhost s (with_errno e (fhost s))) -> Q (-1) (set_fhost s (with_errno e (fhost s)))) ->
  (forall fd, new_fd rq (open_fds (fhost s)) = inl fd -> 2 < fd -> fd ∉ open_fds (fhost s) ->
     fds_inv foreign ({[fd]} ∪ loose) (set_fhost s (opened fd (fhost s))) -> Q fd (set_fhost s (opened fd (fhost s)))) ->
  wp (host_new rq) Q X s.
Proof.
  intros Hi HN HY. unfold host_new. wp_step. wp_step. destruct (new_fd rq _) as [fd|e] eqn:E.
  - pose proof E as [Hf Hn]%new_fd_fresh. wp_pures. apply HY; [done| |done|by apply inv_opened].
    eapply ti_loose; [by apply inv_opened|set_solver].
  - wp_pures. by apply HN, inv_errno.
Qed.
Lemma host_new_wp loose rq s (Q : Z -> FileDescriptors -> Prop) X :
  fds_inv foreign loose s ->
  (forall e, fds_inv foreign loose (set_fhost s (with_errno e (fhost s))) -> Q (-1) (set_fhost s (with_errno e (fhost s)))) ->
  (forall fd, 2 < fd -> fd ∉ open_fds (fhost s) -> fds_inv foreign ({[fd]} ∪ loose) (set_fhost s (opened fd (fhost s))) ->
     Q fd (set_fhost s (opened fd (fhost s)))) ->
  wp (host_new rq) Q X s.
Proof. intros Hi HN HY. apply (host_new_answer loose); auto. Qed.
Lemma host_close_wp loose fd s (Q : Z -> FileDescriptors -> Prop) X :
  fds_inv foreign loose s -> fd ∈ loose ->
  (fds_inv foreign (loose ∖ {[fd]}) (set_fhost s (closed fd (fhost s))) -> Q 0 (set_fhost s (closed fd (fhost s)))) ->
  wp (host_close fd) Q X s.
Proof.
  intros Hi Hfd HQ. unfold host_close. wp_step. wp_step. case_decide as Ho.
  - wp_pures. by apply HQ, inv_closed.
  - destruct Ho. apply (ti_total _ _ _ _ Hi). auto.
Qed.

(** Adding a descriptor to the interest list of an epoll instance. *)
Lemma host_epoll_add_wp loose epfd fd s (Q : Z -> FileDescriptors -> Prop) X :
  fds_inv foreign loose s ->
  (forall r s', fds_inv foreign loose s' -> grown {[epfd]} s s' -> m_fds s' = m_fds s ->
     r < 0 \/ r = 0 /\ interest (fhost s') !! epfd = Some ({[fd]} ∪ default ∅ (interest (fhost s) !! epfd)) ->
     (r < 0 -> interest (fhost s') = interest (fhost s) /\
        (errno (fhost s') = EEXIST -> fd ∈ default ∅ (interest (fhost s) !! epfd))) ->
     Q r s') ->
  wp (host_epoll_ctl epfd EPOLL_CTL_ADD fd) Q X s.
Proof.
  intros Hi HQ. unfold host_epoll_ctl, fails, set_interest, upd_host, upd_fds. wp_pures.
  assert (forall e, (e = EEXIST -> fd ∈ default ∅ (interest (fhost s) !! epfd)) ->
     Q (-1) (set_fhost s (with_errno e (fhost s)))) as Hf.
  { intros e He. apply HQ; [by apply inv_errno|by apply grown_host|done|by left|by split]. }
  case_decide as Ho; [|wp_pures; by apply Hf]. destruct Ho as [Ho1 Ho2].
  destruct (epoll_refusal _ _ _ _) as [e|] eqn:E; [wp_pures; apply Hf; intros ->; by apply epoll_eexist|].
  simpl. case_decide; wp_pures; [by apply Hf|]. apply HQ.
  - destruct Hi as [? ? ? ? ? ?]. split; try done. simpl. rewrite dom_insert_L. set_solver.
  - apply grown_host; [done|]. intros k _ Hk. simpl. rewrite lookup_insert_ne; set_solver.
  - done.
  - right. split; [done|]. simpl. by rewrite lookup_insert_eq.
  - lia.
Qed.

(** The outcome of translating [vfd]. *)
Definition translated loose (vfd : Z) s (r : Z) s' : Prop :=
  fds_inv foreign loose s' /\ grown ∅ s s' /\
  (r = -1 /\ s' = s /\ m_fds s !! vfd = None \/ exists e, m_fds s' !! vfd = Some e /\ real_fd e = r).
Definition untranslated loose s (e : exn) s' : Prop := e <> OutOfFuel /\ fds_inv foreign loose s' /\ grown ∅ s s'.

(** Real descriptors of the members [l] in state [s]. *)
Definition members_of s (l : list (Z * Z)) (x : Z) : Prop :=
  exists m e, m ∈ l /\ m_fds s !! fst m = Some e /\ real_fd e = x.

Definition add_members (fuel : nat) (nfd : Z) (l : list (Z * Z)) : F unit :=
  for_each l (fun m =>
    let! r := translate_fuel fuel (fst m) in
    if r <? 0 then runtime_error "TinyKVM: Failed to translate fd"
    else
      let! res := host_epoll_ctl nfd EPOLL_CTL_ADD r in
      let! s := get in
      if (res <? 0) && negb (errno (fhost s) =? EEXIST)
      then runtime_error "TinyKVM: Failed to add fd to epoll" else ret tt).

Lemma add_members_wp loose fuel nfd l s :
  (forall v t, fds_inv foreign loose t -> (unmanaged t <= fuel)%nat ->
     wp (translate_fuel fuel v) (translated loose v t) (untranslated loose t) t) ->
  fds_inv foreign loose s -> (unmanaged s <= fuel)%nat -> nfd ∈ open_fds (fhost s) ->
  interest (fhost s) !! nfd = None ->
  wp (add_members fuel nfd l)
    (fun _ s' => fds_inv foreign loose s' /\ grown {[nfd]} s s' /\
       forall x, x ∈ default ∅ (interest (fhost s') !! nfd) <-> members_of s' l x)
    (fun e s' => e <> OutOfFuel /\ fds_inv foreign loose s' /\ grown {[nfd]} s s') s.
Proof.
  intros IH Hi Hu Hn He. unfold add_members.
  apply (wp_for_each (fun dn t => fds_inv foreign loose t /\ grown {[nfd]} s t /\
       (forall m, m ∈ dn -> is_Some (m_fds t !! fst m)) /\
       forall x, x ∈ default ∅ (interest (fhost t) !! nfd) <-> members_of t dn x)); [..|tauto].
  - split_and!; [done|apply grown_refl|by intros m Hm%not_elem_of_nil|].
    intros x. rewrite He. split; [set_solver|]. by intros (m & e & Hm%not_elem_of_nil & _).
  - intros dn m rest t -> (Ht & Hg & Hman & Hx). wp_step.
    pose proof (grown_unmanaged _ _ _ Hg) as Hut.
    eapply wp_mono; [apply IH; [done|lia]|..].
    + intros r t1 (Ht1 & Hg1 & Hr).
      assert (grown {[nfd]} s t1) as Hg1' by (eapply grown_trans; [|exact Hg|exact Hg1]; set_solver).
      wp_step; [apply wp_throw; by split_and!|]. destruct Hr as [(-> & _)|(e & He1 & <-)]; [done|].
      wp_step. eapply host_epoll_add_wp; [done|]. intros res t2 Ht2 Hg2 Hf2 Hres Hneg. wp_step. wp_step.
      assert (grown {[nfd]} s t2) as Hg2' by (eapply grown_trans; [|exact Hg1'|exact Hg2]; set_solver).
      wp_step; [apply wp_throw; by split_and!|]. wp_step. split_and!; [done|done|..].
      { intros m' [Hm'|Hm']%elem_of_app; rewrite Hf2.
        - destruct (Hman m' Hm') as [e' ?]. exists e'. by apply Hg1.
        - apply list_elem_of_singleton in Hm' as ->. by exists e. }
      assert (interest (fhost t1) !! nfd = interest (fhost t) !! nfd) as Hsame.
      { apply Hg1; [by apply (g_open _ _ _ _ Hg)|set_solver]. }
      assert (forall x, x ∈ default ∅ (interest (fhost t2) !! nfd) <->
        x = real_fd e \/ x ∈ default ∅ (interest (fhost t) !! nfd)) as Hnow.
      { intros x. destruct Hres as [Hres|[-> ->]]; [|simpl; rewrite Hsame; set_solver].
        destruct (Hneg Hres) as [-> Hex]. rewrite Hsame in *. split; [tauto|]. intros [->|]; [|done].
        apply andb_false_iff in H0 as [?|H0]; [lia|]. apply negb_false_iff, Z.eqb_eq in H0.
        by apply Hex. }
      intros x. rewrite Hnow, Hx. unfold members_of. rewrite Hf2. split.
      * intros [->|(m' & e' & Hm' & Hl' & <-)].
        -- exists m, e. split; [set_solver|done].
        -- exists m', e'. split_and!; [set_solver|by apply Hg1|done].
      * intros (m' & e' & [Hm'| ->%list_elem_of_singleton]%elem_of_app & Hl' & <-); [|left; congruence].
        right. exists m', e'. split_and!; [done| |done]. destruct (Hman m' Hm') as [e2 He2].
        rewrite He2. by rewrite (g_fds _ _ _ _ Hg1 _ _ He2) in Hl'.
    + intros e t1 (? & ? & Hg1). split_and!; [done|done|]. eapply grown_trans; [|exact Hg|exact Hg1]. set_solver.
Qed.

(** A new epoll instance for [vfd], with the members of [ep]. *)
Lemma new_epoll_wp loose fuel vfd p s :
  (forall v t, fds_inv foreign loose t -> (unmanaged t <= fuel)%nat ->
     wp (translate_fuel fuel v) (translated loose v t) (untranslated loose t) t) ->
  fds_inv foreign loose s -> (unmanaged s <= S fuel)%nat -> m_fds s !! vfd = None -> known vfd ->
  m_epoll_fds s !! vfd = Some p ->
  forall l, wp (let! nfd := host_new REpoll in
      if nfd <? 0 then runtime_error "TinyKVM: Failed to create epoll fd"
      else set_entry vfd (mkEntry nfd true false) ;;; add_members fuel nfd l ;;; ret nfd)
    (fun nfd s' => fds_inv foreign loose s' /\ grown ∅ s s' /\ (nfd ∉ open_fds (fhost s)) /\
       m_fds s' !! vfd = Some (mkEntry nfd true false) /\
       forall x, x ∈ default ∅ (interest (fhost s') !! nfd) <-> members_of s' l x)
    (untranslated loose s) s.
Proof.
  intros IH Hi Hu Hv Hk Hp l. wp_step. eapply host_new_wp; [done|..].
  { intros e He. wp_step; [|lia]. apply wp_throw. split_and!; [done|done|]. by apply grown_host. }
  intros nfd Hpos Hnew Hi1. wp_step; [lia|]. set (s1 := set_fhost s _) in *.
  wp_step. unfold set_entry, upd_fds. wp_step. set (s2 := set_fds s1 _).
  assert (grown ∅ s s1) as Hg1 by (apply grown_host; set_solver).
  assert (grown ∅ s s2) as Hg2 by (apply (grown_trans _ ∅ _ s1); [set_solver|exact Hg1|by apply grown_entry]).
  assert (fds_inv foreign loose s2) as Hi2.
  { pose proof (inv_insert _ _ _ _ vfd nfd true Hi1 ltac:(set_solver)) as Hx.
    rewrite displaced_None in Hx by done.
    assert (nfd ∉ loose) by (intros ?; apply Hnew, (ti_total _ _ _ _ Hi); auto).
    by replace (({[nfd]} ∪ loose) ∖ {[nfd]} ∪ ∅) with loose in Hx by set_solver. }
  assert (unmanaged s1 = S (unmanaged s2)) as Hun by (by eapply unmanaged_entry).
  assert (unmanaged s1 = unmanaged s) as Hun1 by done.
  wp_step. eapply wp_mono; [apply add_members_wp; [done|done|lia|set_solver|]|..].
  - apply not_elem_of_dom. intros Hin. by apply Hnew, (ti_interest _ _ _ _ Hi).
  - intros [] s3 (Hi3 & Hg3 & Hx). wp_step. split_and!; [done| |done| |done].
    + eapply grown_trans; [|exact Hg2|exact Hg3]. set_solver.
    + apply (g_fds _ _ _ _ Hg3). simpl. by rewrite lookup_insert_eq.
  - intros e s3 (? & ? & Hg3). split_and!; [done|done|]. eapply grown_trans; [|exact Hg2|exact Hg3]. set_solver.
Qed.

Lemma fork_entry_wp loose vfd e s : fds_inv foreign loose s -> m_fds s !! vfd = None -> known vfd -> is_forked e = true ->
  wp (set_entry vfd e ;;; ret (real_fd e)) (translated loose vfd s) (untranslated loose s) s.
Proof.
  intros Hi Hv Hk He. unfold set_entry, upd_fds. wp_pures. split_and!.
  - pose proof (inv_insert_forked _ _ _ _ vfd e He Hi) as Hx. by rewrite displaced_None, union_empty_r_L in Hx by done.
  - by apply grown_entry.
  - right. exists e. simpl. by rewrite lookup_insert_eq.
Qed.

Lemma translate_fuel_wp loose fuel vfd s :
  fds_inv foreign loose s -> (unmanaged s <= fuel)%nat ->
  wp (translate_fuel fuel vfd) (translated loose vfd s) (untranslated loose s) s.
Proof.
  revert vfd s. induction fuel as [|fuel IH]; intros vfd s Hi Hu; cbn [translate_fuel]; wp_step; wp_step.
  all: destruct (m_fds s !! vfd) as [e|] eqn:Hv;
    [wp_step; split_and!; [done|apply grown_refl|right; eauto]|].
  all: destruct m_find_ro_master_vm_fd as [find|] eqn:Hm; [|wp_step; split_and!; [done|apply grown_refl|by left]].
  all: destruct (find vfd) as [entry|] eqn:Hf; [|wp_step; split_and!; [done|apply grown_refl|by left]].
  all: assert (known vfd) as Hk by (exists find; rewrite Hf; eauto).
  all: destruct (m_epoll_fds s !! vfd) as [p|] eqn:Hp; [|by apply (fork_entry_wp _ _ (mkEntry _ _ true))].
  all: destruct (managed_alias _ _ _) as [e|]; [by apply (fork_entry_wp _ _ (mkEntry _ _ true))|].
  - exfalso. rewrite (unmanaged_entry s vfd entry p) in Hu by done. lia.
  - rewrite <- Hm in *. eapply wp_mono; [eapply (new_epoll_wp loose fuel vfd p s); [exact IH|done|done|done|done|done]|..|done].
    intros nfd s' (? & ? & _ & Hl & _). split_and!; [done|done|]. right. eauto.
Qed.

Lemma unmanaged_size s : (unmanaged s <= base.size (m_epoll_fds s))%nat.
Proof. unfold unmanaged. rewrite <- (size_dom (m_epoll_fds s)). apply subseteq_size. set_solver. Qed.
Lemma translate_wp loose vfd s : fds_inv foreign loose s ->
  wp (translate vfd) (translated loose vfd s) (untranslated loose s) s.
Proof. intros Hi. unfold Fds.translate. wp_step. wp_step. apply translate_fuel_wp; [done|apply unmanaged_size]. Qed.

(** C17: translating a virtual descriptor always ends (the recursion through nested epoll
    instances never runs out), whether it returns or throws.  It keeps every entry and
    everything else of the table, closes nothing, and leaves each open descriptor with exactly
    one owner; it returns -1 with nothing changed for a descriptor nobody knows, and otherwise
    the real descriptor that the table now holds for [vfd]. *)
Theorem translate_safe loose vfd s : fds_inv foreign loose s ->
  wp (translate vfd)
    (fun r s' => fds_inv foreign loose s' /\ grown ∅ s s' /\
       (r = -1 /\ s' = s /\ m_fds s !! vfd = None \/ exists e, m_fds s' !! vfd = Some e /\ real_fd e = r))
    (fun e s' => e <> OutOfFuel /\ fds_inv foreign loose s' /\ grown ∅ s s') s.
Proof. apply translate_wp. Qed.

(** C18: a fork that uses an epoll descriptor of the master for the first time gets an epoll
    instance of its own: a new descriptor, owned by its entry, that watches exactly the fork's
    own descriptors for the members the master had registered. *)
Theorem translate_epoll loose vfd find entry p s :
  fds_inv foreign loose s -> m_find_ro_master_vm_fd = Some find -> find vfd = Some entry ->
  m_fds s !! vfd = None -> m_epoll_fds s !! vfd = Some p ->
  let ep := default EpollEntry_new (epoll_store s !! p) in
  (forall v, v ∈ shared_epoll_fds ep -> v <> vfd -> m_fds s !! v = None) ->
  wp (translate vfd)
    (fun nfd s' => fds_inv foreign loose s' /\ grown ∅ s s' /\ (nfd ∉ open_fds (fhost s)) /\
       m_fds s' !! vfd = Some (mkEntry nfd true false) /\
       forall x, x ∈ default ∅ (interest (fhost s') !! nfd) <->
         exists v e, is_Some (epoll_fds ep !! v) /\ m_fds s' !! v = Some e /\ real_fd e = x)
    (fun e s' => e <> OutOfFuel /\ fds_inv foreign loose s' /\ grown ∅ s s') s.
Proof.
  intros Hi Hm Hf Hv Hp ep Hal. unfold Fds.translate. wp_step. wp_step.
  pose proof (unmanaged_size s) as Hu. destruct (base.size (m_epoll_fds s)) as [|fuel].
  { rewrite (unmanaged_entry s vfd entry p) in Hu by done. lia. }
  cbn [Fds.translate_fuel]. wp_step. wp_step. rewrite Hv. rewrite Hm at 1. rewrite Hf, Hp. fold ep.
  assert (managed_alias s vfd (set_order (shared_epoll_fds ep)) = None) as ->.
  { unfold managed_alias. assert (forall l, (forall v, v ∈ l -> v <> vfd -> m_fds s !! v = None) ->
      omap (fun v => if v =? vfd then None else m_fds s !! v) l = []) as Hom.
    - induction l as [|v l IH]; intros Hl; [done|]. cbn. destruct (v =? vfd) eqn:E.
      + apply IH. set_solver.
      + rewrite Hl; [apply IH; set_solver|set_solver|lia].
    - rewrite Hom; [done|]. intros v Hvin. by apply Hal, set_order_elements. }
  eapply wp_mono; [eapply (new_epoll_wp loose fuel vfd p s); [|done|lia|done|by exists find; rewrite Hf; eauto|done]|..|done].
  { intros. by apply translate_fuel_wp. }
  intros nfd s' (? & ? & ? & ? & Hx). split_and!; [done..|]. intros x. rewrite Hx. unfold members_of. split.
  - intros ([v ev] & e & Hin & ? & ?). apply map_order_elements in Hin. exists v, e. eauto.
  - intros (v & e & [ev Hev] & ? & ?). exists (v, ev), e. split; [by apply map_order_elements|done].
Qed.

(** *** Managing *)

Lemma check_limits_wp loose fd s (Q : unit -> FileDescriptors -> Prop) X :
  fds_inv foreign loose s -> fd ∈ loose -> Q tt s ->
  (forall e, orderly e -> fds_inv foreign (loose ∖ {[fd]}) (set_fhost s (closed fd (fhost s))) ->
     X e (set_fhost s (closed fd (fhost s)))) ->
  wp (check_limits fd) Q X s.
Proof.
  intros Hi Hfd HQ HX. unfold check_limits, runtime_error. wp_pures. wp_step; [|wp_step; [|by wp_step]].
  all: wp_step; eapply host_close_wp; [done..|]; intros Hc; wp_step; by apply HX.
Qed.
Lemma loose_pos loose fd s : fds_inv foreign loose s -> fd ∈ loose -> (fd <=? 2) = false.
Proof. intros Hi Hfd. pose proof (ti_loose _ _ _ _ Hi fd Hfd). lia. Qed.

(** The table with a new entry. *)
Definition managed s (v fd : Z) (w : bool) (next : Z) : FileDescriptors :=
  set_next_fd (set_fds (count_opened s) (<[v := mkEntry fd w false]> (m_fds s))) next.

Lemma room_wp n s (Q : unit -> FileDescriptors -> Prop) X : (n < INT_MAX -> Q tt s) -> (INT_MAX <= n -> X next_fd_overflow s) ->
  wp (next_fd_room n) Q X s.
Proof. intros HQ HX. unfold next_fd_room. wp_step; [wp_step; apply HX; lia|]. apply HQ. lia. Qed.

Lemma manage_wp loose fd w s (Q : Z -> FileDescriptors -> Prop) X :
  fds_inv foreign loose s -> fd ∈ loose ->
  (m_next_fd s < INT_MAX ->
     fds_inv foreign (loose ∖ {[fd]} ∪ displaced (m_fds s) (m_next_fd s)) (managed s (m_next_fd s) fd w (m_next_fd s + 1)) ->
     Q (m_next_fd s) (managed s (m_next_fd s) fd w (m_next_fd s + 1))) ->
  (forall e, orderly e -> fds_inv foreign (loose ∖ {[fd]}) (set_fhost s (closed fd (fhost s))) ->
     X e (set_fhost s (closed fd (fhost s)))) ->
  (INT_MAX <= m_next_fd s -> X next_fd_overflow s) ->
  wp (manage fd w) Q X s.
Proof.
  intros Hi Hfd HQ HX HO. unfold manage. rewrite (loose_pos _ _ _ Hi Hfd). wp_step.
  eapply check_limits_wp; [done|done| |done]. wp_step. wp_step. wp_step. apply room_wp; [|done]. intros Hr.
  unfold upd_fds. wp_pures. by apply HQ, inv_insert.
Qed.
Lemma manage_as_wp loose v fd w s (Q : unit -> FileDescriptors -> Prop) X :
  fds_inv foreign loose s -> fd ∈ loose -> v < INT_MAX ->
  (fds_inv foreign (loose ∖ {[fd]} ∪ displaced (m_fds s) v) (managed s v fd w (Z.max (m_next_fd s) (v + 1))) ->
     Q tt (managed s v fd w (Z.max (m_next_fd s) (v + 1)))) ->
  (forall e, orderly e -> fds_inv foreign (loose ∖ {[fd]}) (set_fhost s (closed fd (fhost s))) ->
     X e (set_fhost s (closed fd (fhost s)))) ->
  wp (manage_as v fd w) Q X s.
Proof.
  intros Hi Hfd Hv HQ HX. unfold manage_as. rewrite (loose_pos _ _ _ Hi Hfd). wp_step.
  eapply check_limits_wp; [done|done| |done]. wp_step. apply room_wp; [intros _|lia].
  unfold upd_fds. wp_pures. by apply HQ, inv_insert.
Qed.

(** Numbers from [m_next_fd] on are unused, and the master has none of them. *)
Definition numbered s : Prop := forall v, m_next_fd s <= v -> m_fds s !! v = None /\ ~ known v.

Lemma numbered_grown ex s s' : numbered s -> grown ex s s' -> numbered s'.
Proof.
  intros Hn Hg v Hv. assert (m_next_fd s' = m_next_fd s) as E by (rewrite <- (g_rest _ _ _ _ Hg); done).
  rewrite E in Hv. destruct (Hn v Hv) as [H1 H2]. split; [|done].
  destruct (m_fds s' !! v) eqn:E'; [|done]. destruct (g_new _ _ _ _ Hg v ltac:(eauto)) as [[? ?]|]; [congruence|done].
Qed.

(** C19: a new descriptor of the host gets a virtual number that was not in use; translating
    that number gives the descriptor back and changes nothing, every other number keeps its
    entry, and the entry now owns the descriptor.  When a limit is hit an exception is thrown,
    the descriptor is closed and the table is as before.  (Only when the next number is the
    largest [int] is the call undefined.) *)
Theorem manage_roundtrip loose fd w s :
  fds_inv foreign loose s -> numbered s -> fd ∈ loose ->
  wp (manage fd w)
    (fun v s' => m_fds s !! v = None /\ Fds.translate m_find_ro_master_vm_fd v s' = (Ok fd, s') /\
       (forall v', v' <> v -> m_fds s' !! v' = m_fds s !! v') /\
       owns (m_fds s') v fd /\ fds_inv foreign (loose ∖ {[fd]}) s' /\ numbered s')
    (fun e s' => (fds_inv foreign (loose ∖ {[fd]}) s' /\ m_fds s' = m_fds s /\ numbered s' /\ (fd ∉ open_fds (fhost s'))) \/
       (INT_MAX <= m_next_fd s /\ e = next_fd_overflow /\ s' = s)) s.
Proof.
  intros Hi Hn Hfd. destruct (Hn (m_next_fd s)) as [Hnone _]; [lia|]. eapply manage_wp; [done|done|..].
  - intros _ Hi'. rewrite displaced_None, union_empty_r_L in Hi' by done. split_and!; [done|..|done|].
    + unfold Fds.translate, bind, get. destruct (base.size _); cbn [Fds.translate_fuel]; unfold bind, get; simpl;
        by rewrite lookup_insert_eq.
    + intros v' Hv'. simpl. by rewrite lookup_insert_ne.
    + eexists. simpl. rewrite lookup_insert_eq. by split_and!.
    + intros v Hv. simpl in *. rewrite lookup_insert_ne by lia. apply Hn. lia.
  - intros e _ Hi'. left. split_and!; [done|done|done|]. simpl. set_solver.
  - intros Hmax. by right.
Qed.

(** *** Closing all *)

Lemma elem_map_entries (m : gmap Z Entry) k e : (k, e) ∈ map_entries m <-> m !! k = Some e.
Proof.
  unfold map_entries. rewrite list_elem_of_omap. split.
  - intros (k' & _ & He). destruct (m !! k') as [e'|] eqn:E; simpl in He; [|done]. by injection He as <- <-.
  - intros He. exists k. rewrite He. split; [|done]. rewrite merge_sort_Permutation. apply elem_of_elements, elem_of_dom. eauto.
Qed.

(** All entries forgotten: what they owned is loose. *)
Lemma inv_forget_all loose (m : gmap Z Entry) h : table_inv foreign loose m h ->
  exists L, table_inv foreign L ∅ h /\ forall fd, fd ∈ L <-> fd ∈ loose \/ exists v, owns m v fd.
Proof.
  intros [Hs Ht Hl Ho Hd Hi].
  assert (forall v fd, ~ owns ∅ v fd) as Hno by (intros v fd (? & He & _); by rewrite lookup_empty in He).
  exists (open_fds h ∖ foreign).
  assert (forall fd, fd ∈ open_fds h ∖ foreign <-> fd ∈ loose \/ exists v, owns m v fd) as HL.
  { intros fd. rewrite elem_of_difference, Ht. split; [tauto|]. intros [Hx|[v Hx]].
    - split; [auto|by apply Hl].
    - split; [eauto|by eapply Ho]. }
  split; [|done]. split; [done|..|done].
  - intros fd. rewrite HL, Ht. split; [tauto|]. intros [?|[[?|?]|[v []%Hno]]]; auto.
  - intros fd [Hx|[v Hx]]%HL; [by apply Hl|]. apply Ho in Hx. tauto.
  - by intros v fd []%Hno.
  - by intros v w fd []%Hno.
Qed.

Lemma close_owned_wp loose s (Q : unit -> FileDescriptors -> Prop) X :
  fds_inv foreign loose s ->
  (forall h, fds_inv foreign loose (set_fds (set_fhost s h) ∅) -> Q tt (set_fhost s h)) -> wp close_owned Q X s.
Proof.
  intros Hi HQ. unfold close_owned. wp_step. wp_step. destruct (inv_forget_all _ _ _ Hi) as (L0 & HL0 & HL).
  apply (wp_for_each (fun dn t => exists h L, t = set_fhost s h /\ table_inv foreign L ∅ h /\ loose ⊆ L /\
    L ⊆ L0 /\ forall p, p ∈ dn -> is_forked (snd p) = false -> real_fd (snd p) ∉ L)).
  - exists (fhost s), L0. split_and!; [by destruct s|done|set_solver|done|set_solver].
  - intros dn [k e] rest t Hsp (h & L & -> & HtL & Hlo & Hup & Hdn).
    assert (m_fds s !! k = Some e) as Hk by (apply elem_map_entries; rewrite Hsp; set_solver).
    wp_step.
    + unfold owned in *. cbn [snd] in *. assert (2 < real_fd e /\ is_forked e = false) as [Hr Hf] by (destruct (is_forked e); lia).
      assert (owns (m_fds s) k (real_fd e)) as Hown by (exists e; eauto).
      assert (real_fd e ∉ loose) as Hnl by (by apply (ti_owned _ _ _ _ Hi k)).
      unfold host_close. wp_step. wp_step. wp_step. case_decide as Ho; wp_pures.
      * exists (closed (real_fd e) h), (L ∖ {[real_fd e]}). split_and!; [done| |set_solver|set_solver|].
        -- apply inv_closed; [done|]. apply (ti_total _ _ _ _ HtL) in Ho as [Ho|[Ho|(v & e' & He' & _)]]; [|done|].
           ++ by apply (ti_owned _ _ _ _ Hi k) in Ho.
           ++ by rewrite lookup_empty in He'.
        -- intros p [Hp| ->%list_elem_of_singleton]%elem_of_app Hpf; [specialize (Hdn p Hp Hpf)|]; set_solver.
      * exists (with_errno EBADF h), L. split_and!; [done|by apply inv_errno|done|done|].
        intros p [Hp| ->%list_elem_of_singleton]%elem_of_app Hpf; [by apply Hdn|]. simpl. intros Hin.
        apply Ho. apply (ti_total _ _ _ _ HtL). auto.
    + exists h, L. split_and!; [done|done|done|done|].
      intros p [Hp| ->%list_elem_of_singleton]%elem_of_app Hpf; [by apply Hdn|]. cbn [snd] in *.
      assert (owns (m_fds s) k (real_fd e)) as Hown by (exists e; eauto).
      apply (ti_owned _ _ _ _ Hi k) in Hown. unfold owned in *. rewrite Hpf in *. lia.
  - intros t (h & L & -> & HtL & Hlo & Hup & Hdn). apply HQ. replace loose with L; [done|].
    apply set_eq. intros x. split; [|by apply Hlo]. intros Hx. destruct (proj1 (HL x) (Hup x Hx)) as [|(v & e & He & Hf & <-)]; [done|].
    exfalso. apply (Hdn (v, e)); [by apply elem_map_entries|done|done].
Qed.

(** Destroying the table never throws and closes exactly what the table owns: afterwards
    the open descriptors are those of the others (and those it had lost track of). *)
Theorem destroy_closes_owned loose s : fds_inv foreign loose s ->
  wp FileDescriptors_destroy
    (fun _ s' => forall fd, fd ∈ open_fds (fhost s') <-> fd ∈ foreign \/ fd ∈ loose) (fun _ _ => False) s.
Proof.
  intros Hi. eapply close_owned_wp; [done|]. intros h Hh fd. rewrite (ti_total _ _ _ _ Hh fd).
  split; [|tauto]. intros [?|[?|(v & e & He & _)]]; [tauto|tauto|]. simpl in He. by rewrite lookup_empty in He.
Qed.

(** *** Rebuilding sockets *)

(** The numbers a recorded socket is rebuilt under. *)
Definition pair_vfds (sp : SocketPair) : list Z :=
  match type sp with
  | PIPE2 | SOCKETPAIR => [vfd1 sp; vfd2 sp]
  | EVENTFD | LISTEN => [vfd1 sp]
  | DUPFD => [vfd2 sp]
  | INVALID => []
  end.

Lemma host_pair_answer loose rq s (Q : option (Z * Z) -> FileDescriptors -> Prop) X :
  fds_inv foreign loose s ->
  (forall e, fds_inv foreign loose (set_fhost s (with_errno e (fhost s))) -> Q None (set_fhost s (with_errno e (fhost s)))) ->
  (forall a b, new_fd rq (open_fds (fhost s)) = inl a -> new_fd rq ({[a]} ∪ open_fds (fhost s)) = inl b ->
     a <> b -> a ∉ loose -> b ∉ loose ->
     let s' := set_fhost s (opened b (opened a (fhost s))) in
     fds_inv foreign ({[b]} ∪ ({[a]} ∪ loose)) s' -> Q (Some (a, b)) s') ->
  wp (host_pair rq) Q X s.
Proof.
  intros Hi HN HY. unfold host_pair, fails, upd_host, upd_fds. wp_pures.
  assert (forall x, x ∈ loose -> x ∈ open_fds (fhost s)) as Hlo by (intros; apply (ti_total _ _ _ _ Hi); auto).
  destruct (new_fd rq _) as [a|e] eqn:Ea; [|wp_pures; by apply HN, inv_errno].
  destruct (new_fd rq ({[a]} ∪ _)) as [b|e] eqn:Eb; [|wp_pures; by apply HN, inv_errno].
  pose proof Ea as [Ha Hna]%new_fd_fresh. pose proof Eb as [Hb Hnb]%new_fd_fresh. wp_pures.
  apply (HY a b); [done|done|set_solver|naive_solver|set_solver|]. by apply inv_opened; [apply inv_opened|..].
Qed.
Lemma host_pair_wp loose rq s (Q : option (Z * Z) -> FileDescriptors -> Prop) X :
  fds_inv foreign loose s ->
  (forall e, fds_inv foreign loose (set_fhost s (with_errno e (fhost s))) -> Q None (set_fhost s (with_errno e (fhost s)))) ->
  (forall a b, a <> b -> a ∉ loose -> b ∉ loose ->
     let s' := set_fhost s (opened b (opened a (fhost s))) in
     fds_inv foreign ({[b]} ∪ ({[a]} ∪ loose)) s' -> Q (Some (a, b)) s') ->
  wp (host_pair rq) Q X s.
Proof. intros Hi HN HY. apply (host_pair_answer loose); auto. Qed.

Lemma host_dup_answer loose fd s (Q : Z -> FileDescriptors -> Prop) X :
  fds_inv foreign loose s ->
  (forall e, fds_inv foreign loose (set_fhost s (with_errno e (fhost s))) -> Q (-1) (set_fhost s (with_errno e (fhost s)))) ->
  (forall n, fd ∈ open_fds (fhost s) -> new_fd (RDup fd) (open_fds (fhost s)) = inl n ->
     2 < n -> n ∉ open_fds (fhost s) -> fds_inv foreign ({[n]} ∪ loose) (set_fhost s (opened n (fhost s))) ->
     Q n (set_fhost s (opened n (fhost s)))) ->
  wp (host_dup fd) Q X s.
Proof.
  intros Hi HN HY. unfold host_dup. wp_step. wp_step. case_decide; [apply (host_new_answer loose); auto|].
  unfold fails, upd_host, upd_fds. wp_pures. by apply HN, inv_errno.
Qed.
Lemma host_dup_wp loose fd s (Q : Z -> FileDescriptors -> Prop) X :
  fds_inv foreign loose s ->
  (forall e, fds_inv foreign loose (set_fhost s (with_errno e (fhost s))) -> Q (-1) (set_fhost s (with_errno e (fhost s)))) ->
  (forall n, 2 < n -> n ∉ open_fds (fhost s) -> fds_inv foreign ({[n]} ∪ loose) (set_fhost s (opened n (fhost s))) ->
     Q n (set_fhost s (opened n (fhost s)))) ->
  wp (host_dup fd) Q X s.
Proof. intros Hi HN HY. apply (host_dup_answer loose); auto. Qed.

(** A listening socket is shared, not created: it must fit the limits, because the limit check
    closes what it refuses. *)
Definition fits (k : nat) s : Prop :=
  m_max_total_fds_opened s = 0 /\ Z.of_nat (base.size (m_fds s) + k) <= m_max_files s.

(** The entries that stand for the recorded [sp]: what the host returned, with [o] open, to the
    request that made the original, the first end of a pair under the first number; of a
    listening socket, the recorded descriptor itself, which is not owned. *)
Definition stands_for sp (m : gmap Z Entry) : Prop :=
  let pair rq := exists o a b, new_fd rq o = inl a /\ new_fd rq ({[a]} ∪ o) = inl b /\
    m !! vfd1 sp = Some (mkEntry a true false) /\ m !! vfd2 sp = Some (mkEntry b true false) in
  match type sp with
  | PIPE2 => pair (RPipe2 0)
  | SOCKETPAIR => pair RSocketpair
  | EVENTFD => exists o n, new_fd REventfd o = inl n /\ m !! vfd1 sp = Some (mkEntry n true false)
  | DUPFD => exists o n, vfd1 sp ∈ o /\ new_fd (RDup (vfd1 sp)) o = inl n /\ m !! vfd2 sp = Some (mkEntry n true false)
  | LISTEN => m !! vfd1 sp = Some (mkEntry (vfd2 sp) true true)
  | INVALID => True
  end.
Lemma stands_for_ext sp (m m' : gmap Z Entry) : (forall v, v ∈ pair_vfds sp -> m' !! v = m !! v) -> stands_for sp m -> stands_for sp m'.
Proof.
  intros H. unfold stands_for, pair_vfds in *. destruct (type sp); simpl; try done; rewrite ?H by set_solver; done.
Qed.

(** After rebuilding [sp]: its numbers, and only they, have new entries. *)
Definition rebuilt loose sp s s' : Prop :=
  stands_for sp (m_fds s') /\ (forall v, v ∉ pair_vfds sp -> m_fds s' !! v = m_fds s !! v) /\
  fds_inv foreign loose s' /\ (forall v, is_Some (m_fds s' !! v) <-> is_Some (m_fds s !! v) \/ v ∈ pair_vfds sp) /\
  (base.size (m_fds s') <= base.size (m_fds s) + length (pair_vfds sp))%nat /\
  m_max_total_fds_opened s' = m_max_total_fds_opened s /\ m_max_files s' = m_max_files s /\
  m_epoll_fds s' = m_epoll_fds s /\ epoll_store s' = epoll_store s.

Lemma insert_keys (m : gmap Z Entry) v e : (base.size (<[v := e]> m) <= S (base.size m))%nat /\
  forall w, is_Some (<[v := e]> m !! w) <-> is_Some (m !! w) \/ w = v.
Proof.
  split.
  - destruct (m !! v) eqn:E; [rewrite map_size_insert_Some by eauto; lia|rewrite map_size_insert_None by done; lia].
  - intros w. rewrite lookup_insert_is_Some'. split; intros [H|H]; auto.
Qed.

Lemma rebuild_pair_wp loose sp rq msg s :
  (type sp = PIPE2 /\ rq = RPipe2 0 \/ type sp = SOCKETPAIR /\ rq = RSocketpair) ->
  fds_inv foreign loose s -> NoDup (pair_vfds sp) -> (forall v, v ∈ pair_vfds sp -> m_fds s !! v = None) ->
  (forall v, v ∈ pair_vfds sp -> v < INT_MAX) ->
  wp (let! p := host_pair rq in
      match p with
      | None => throw (RuntimeError msg)
      | Some (a, b) => manage_as (vfd1 sp) a true ;;; manage_as (vfd2 sp) b true
      end) (fun _ s' => rebuilt loose sp s s') (fun e s' => orderly e /\ exists L, fds_inv foreign L s') s.
Proof.
  intros Hrq Hi Hnd Hnone Hv.
  assert (pair_vfds sp = [vfd1 sp; vfd2 sp]) as Hp by (unfold pair_vfds; by destruct Hrq as [[-> _]|[-> _]]).
  rewrite Hp in Hnd, Hnone, Hv. apply NoDup_cons in Hnd as [Hne _].
  assert (forall x, x ∈ loose -> x ∈ open_fds (fhost s)) as Hlo by (intros; apply (ti_total _ _ _ _ Hi); auto).
  wp_step. eapply host_pair_answer; [done|intros e He; apply wp_throw; split; [done|by eauto]|].
  intros a b Ea Eb Hab Ha Hb s1 Hi1. wp_step. eapply manage_as_wp; [exact Hi1|set_solver|apply Hv; set_solver| |by eauto].
  intros Hi2. eapply manage_as_wp; [exact Hi2|set_solver|apply Hv; set_solver| |by eauto]. intros Hi3.
  rewrite !displaced_None in Hi3 by (simpl; rewrite ?lookup_insert_ne; apply Hnone || set_solver; set_solver).
  replace ((({[b]} ∪ ({[a]} ∪ loose)) ∖ {[a]} ∪ ∅) ∖ {[b]} ∪ ∅) with loose in Hi3 by set_solver.
  unfold rebuilt. rewrite Hp. simpl.
  destruct (insert_keys (m_fds s) (vfd1 sp) (mkEntry a true false)) as [Hs1 Hk1].
  destruct (insert_keys (<[vfd1 sp := mkEntry a true false]> (m_fds s)) (vfd2 sp) (mkEntry b true false)) as [Hs2 Hk2].
  split_and!; [| |exact Hi3| |lia|done..].
  - assert (forall m : gmap Z Entry, m = <[vfd2 sp := mkEntry b true false]> (<[vfd1 sp := mkEntry a true false]> (m_fds s)) ->
      m !! vfd1 sp = Some (mkEntry a true false) /\ m !! vfd2 sp = Some (mkEntry b true false)) as Hx.
    { intros m ->. rewrite lookup_insert_eq, lookup_insert_ne, lookup_insert_eq by set_solver. done. }
    unfold stands_for. destruct (Hx _ eq_refl). destruct Hrq as [[-> ->]|[-> ->]]; by exists (open_fds (fhost s)), a, b.
  - intros v Hv'. rewrite !lookup_insert_ne by set_solver. done.
  - intros v. rewrite Hk2, Hk1. set_solver.
Qed.

Lemma rebuild_one_wp loose sp v n s : pair_vfds sp = [v] -> m_fds s !! v = None -> v < INT_MAX ->
  2 < n -> n ∉ open_fds (fhost s) -> fds_inv foreign loose s -> fds_inv foreign ({[n]} ∪ loose) (set_fhost s (opened n (fhost s))) ->
  (forall m : gmap Z Entry, m !! v = Some (mkEntry n true false) -> stands_for sp m) ->
  wp (manage_as v n true) (fun _ s' => rebuilt loose sp s s') (fun e s' => orderly e /\ exists L, fds_inv foreign L s')
    (set_fhost s (opened n (fhost s))).
Proof.
  intros Hp Hnone Hv Hn Hno Hi Ht Hst. eapply manage_as_wp; [exact Ht|set_solver|done| |by eauto].
  assert (forall x, x ∈ loose -> x ∈ open_fds (fhost s)) as Hlo by (intros; apply (ti_total _ _ _ _ Hi); auto).
  intros Hi2. rewrite displaced_None in Hi2 by done.
  replace (({[n]} ∪ loose) ∖ {[n]} ∪ ∅) with loose in Hi2 by set_solver.
  unfold rebuilt. rewrite Hp. destruct (insert_keys (m_fds s) v (mkEntry n true false)) as [Hs1 Hk1].
  split_and!; [apply Hst; simpl; by rewrite lookup_insert_eq| |exact Hi2| |simpl; lia|done..].
  - intros w Hw. simpl. rewrite lookup_insert_ne by set_solver. done.
  - intros w. simpl. rewrite Hk1. set_solver.
Qed.

Lemma create_socket_pairs_from_wp loose sp s :
  fds_inv foreign loose s -> NoDup (pair_vfds sp) -> (forall v, v ∈ pair_vfds sp -> m_fds s !! v = None) ->
  (forall v, v ∈ pair_vfds sp -> v < INT_MAX) ->
  (type sp = LISTEN -> 2 < vfd2 sp /\ vfd2 sp ∈ foreign /\ fits 1 s) ->
  wp (create_socket_pairs_from sp) (fun _ s' => rebuilt loose sp s s')
    (fun e s' => orderly e /\ exists L, fds_inv foreign L s') s.
Proof.
  intros Hi Hnd Hnone Hmax Hlisten. unfold create_socket_pairs_from, runtime_error.
  destruct (type sp) eqn:E.
  - wp_step. unfold rebuilt, stands_for, pair_vfds. rewrite E. split_and!; [done|done|done|set_solver|lia|done..].
  - apply rebuild_pair_wp; auto.
  - apply rebuild_pair_wp; auto.
  - assert (pair_vfds sp = [vfd1 sp]) as Hp by (unfold pair_vfds; by rewrite E). rewrite Hp in *.
    wp_step. eapply host_new_answer; [done|intros e He; wp_step; [apply wp_throw; split; [done|by eauto]|lia]|].
    intros n En Hn Hno Hi1. wp_step; [lia|]. apply rebuild_one_wp; try done; [apply Hnone; set_solver|apply Hmax; set_solver|].
    intros m Hm. unfold stands_for. rewrite E. by eexists _, _.
  - assert (pair_vfds sp = [vfd2 sp]) as Hp by (unfold pair_vfds; by rewrite E). rewrite Hp in *.
    wp_step. eapply host_dup_answer; [done|intros e He; wp_step; [apply wp_throw; split; [done|by eauto]|lia]|].
    intros n Ho En Hn Hno Hi1. wp_step; [lia|]. apply rebuild_one_wp; try done; [apply Hnone; set_solver|apply Hmax; set_solver|].
    intros m Hm. unfold stands_for. rewrite E. by eexists _, _.
  - assert (pair_vfds sp = [vfd1 sp]) as Hp by (unfold pair_vfds; by rewrite E). rewrite Hp in *.
    destruct Hlisten as (H2 & Hf & Htot & Hm); [done|]. unfold manage_as, check_limits, next_fd_room, upd_fds.
    rewrite (proj2 (Z.leb_gt _ _)) by lia. wp_pures. rewrite Htot. simpl.
    rewrite (proj2 (Z.leb_gt (m_max_files s) _)) by lia. wp_pures. rewrite (proj2 (Z.leb_gt INT_MAX _)) by (apply Hmax; set_solver).
    cbn [when]. wp_pures. unfold rebuilt, stands_for. rewrite Hp, E. simpl. rewrite alter_insert_eq. simpl.
    destruct (insert_keys (m_fds s) (vfd1 sp) (mkEntry (vfd2 sp) true true)) as [Hs1 Hk1].
    split_and!; [by rewrite lookup_insert_eq|intros w Hw; by rewrite lookup_insert_ne by set_solver| |intros w; rewrite Hk1; set_solver|lia|done..].
    pose proof (inv_insert_forked _ _ _ _ (vfd1 sp) (mkEntry (vfd2 sp) true true) eq_refl Hi) as Hx.
    by rewrite displaced_None, union_empty_r_L in Hx by (apply Hnone; set_solver).
Qed.

(** *** Copying the epoll entries *)

Definition epoll_of s (p : Z) : EpollEntry := default EpollEntry_new (epoll_store s !! p).
(** Descriptors that share an epoll entry have the same entry. *)
Definition epoll_coherent s : Prop := forall vfd p v p2,
  m_epoll_fds s !! vfd = Some p -> v ∈ shared_epoll_fds (epoll_of s p) -> m_epoll_fds s !! v = Some p2 -> p2 = p.

(** [s] has a copy of the epoll entry of each descriptor of [other], and descriptors share a
    copy only if they shared the entry. *)
Definition epoll_copied (other : FileDescriptors) (done : list (Z * Z)) s : Prop :=
  (forall vfd p', m_epoll_fds s !! vfd = Some p' -> p' < next_epoll s /\
     exists p, m_epoll_fds other !! vfd = Some p /\ epoll_store s !! p' = Some (epoll_of other p)) /\
  (forall x, x ∈ done -> is_Some (m_epoll_fds s !! fst x)) /\
  (forall v w p', m_epoll_fds s !! v = Some p' -> m_epoll_fds s !! w = Some p' -> m_epoll_fds other !! v = m_epoll_fds other !! w).

Lemma elem_epoll_entries (m : gmap Z Z) k p : (k, p) ∈ epoll_entries m <-> m !! k = Some p.
Proof.
  unfold epoll_entries. rewrite list_elem_of_omap. split.
  - intros (k' & _ & He). destruct (m !! k') as [e'|] eqn:E; simpl in He; [|done]. by injection He as <- <-.
  - intros He. exists k. rewrite He. split; [|done]. rewrite merge_sort_Permutation. apply elem_of_elements, elem_of_dom. eauto.
Qed.

Lemma head_omap_Some {A B} (f : A -> option B) l b : head (omap f l) = Some b -> exists a, a ∈ l /\ f a = Some b.
Proof.
  induction l as [|a l IH]; [done|]. cbn. destruct (f a) as [b'|] eqn:E; simpl.
  - intros [= ->]. exists a. split; [set_solver|done].
  - intros (a' & ? & ?)%IH. exists a'. split; [set_solver|done].
Qed.

Lemma copy_epoll_wp other done vfd p s X :
  epoll_coherent other -> m_epoll_fds other !! vfd = Some p -> epoll_copied other done s ->
  wp (copy_epoll other vfd p)
    (fun _ s' => epoll_copied other (done ++ [(vfd, p)]) s' /\ exists tbl store nx, s' = set_epoll s tbl store nx) X s.
Proof.
  intros Hc Hp (H1 & H2 & H3). unfold copy_epoll, upd_fds. wp_pures. change (default EpollEntry_new (epoll_store other !! p)) with (epoll_of other p).
  destruct (head _) as [p'|] eqn:E; wp_pures; (split; [|by eexists _, _, _]).
  - apply head_omap_Some in E as (v & Hv & Ep'). apply set_order_elements in Hv.
    destruct (H1 v p' Ep') as (Hlt & p2 & Hp2 & Hst). assert (p2 = p) as -> by (by eapply Hc).
    split_and!; simpl.
    + intros w q [[<- <-]|[? Hq]]%lookup_insert_Some; [|by apply H1]. split; [done|]. by exists p.
    + intros x [Hx| ->%list_elem_of_singleton]%elem_of_app; apply lookup_insert_is_Some'; [right; by apply H2|by left].
    + assert (forall w, m_epoll_fds s !! w = Some p' -> m_epoll_fds other !! w = Some p) as Hsh
        by (intros w Hw; rewrite (H3 w v p'); done).
      intros w w' q [[<- <-]|[? Hq]]%lookup_insert_Some [[<- E']|[? Hq']]%lookup_insert_Some; [done|..].
      * by rewrite Hp, (Hsh w').
      * subst. by rewrite Hp, (Hsh w).
      * by eapply H3.
  - split_and!; simpl.
    + intros w q [[<- <-]|[? Hq]]%lookup_insert_Some.
      * split; [lia|]. exists p. by rewrite lookup_insert_eq.
      * destruct (H1 w q Hq) as (? & p2 & ? & ?). split; [lia|]. exists p2. by rewrite lookup_insert_ne by lia.
    + intros x [Hx| ->%list_elem_of_singleton]%elem_of_app; apply lookup_insert_is_Some'; [right; by apply H2|by left].
    + intros w w' q [[<- <-]|[? Hq]]%lookup_insert_Some [[<- E']|[? Hq']]%lookup_insert_Some; [done|..].
      * apply H1 in Hq' as [? _]. lia.
      * subst. apply H1 in Hq as [? _]. lia.
      * by eapply H3.
Qed.

Lemma copy_epolls_wp other s (Q : unit -> FileDescriptors -> Prop) X :
  epoll_coherent other -> m_epoll_fds s = ∅ ->
  (forall tbl store nx, let s' := set_epoll s tbl store nx in
     epoll_copied other (epoll_entries (m_epoll_fds other)) s' -> Q tt s') ->
  wp (for_each (epoll_entries (m_epoll_fds other)) (fun p => copy_epoll other (fst p) (snd p))) Q X s.
Proof.
  intros Hc He HQ.
  apply (wp_for_each (fun dn t => epoll_copied other dn t /\ exists tbl store nx, t = set_epoll s tbl store nx)).
  - split; [|exists (m_epoll_fds s), (epoll_store s), (next_epoll s); by destruct s].
    split_and!; intros *; rewrite ?He, ?lookup_empty; [done|set_solver|done].
  - intros dn [vfd p] rest t Hsp [Ht (tbl & store & nx & ->)]. eapply wp_mono; [apply copy_epoll_wp; [done| |done]|..|done].
    + apply elem_epoll_entries. rewrite Hsp. set_solver.
    + intros _ t' [Ht' (tbl' & store' & nx' & ->)]. split; [done|]. by eexists _, _, _.
  - intros t [Ht (tbl & store & nx & ->)]. by apply HQ.
Qed.

(** *** Resetting *)

Definition socket_vfds (other : FileDescriptors) : list Z := m_sockets other ≫= pair_vfds.

(** The recorded sockets of a master whose table can be copied: no number twice, and room for the
    listening ones, which are the master's and would be closed beyond a limit. *)
Record recorded_well (other : FileDescriptors) : Prop := {
  rw_distinct : NoDup (socket_vfds other);
  rw_numbers : forall v, v ∈ socket_vfds other -> v < INT_MAX;
  rw_listen : forall sp, sp ∈ m_sockets other -> type sp = LISTEN ->
    2 < vfd2 sp /\ vfd2 sp ∈ foreign /\ m_max_total_fds_opened other = 0 /\
    Z.of_nat (length (socket_vfds other)) <= m_max_files other }.

(** A table with the recorded sockets of [other] and nothing else, and copies of its epoll entries. *)
Definition table_of loose (other s : FileDescriptors) : Prop :=
  fds_inv foreign loose s /\ (forall v, is_Some (m_fds s !! v) <-> v ∈ socket_vfds other) /\
  (forall sp, sp ∈ m_sockets other -> stands_for sp (m_fds s)) /\
  (forall vfd p, m_epoll_fds other !! vfd = Some p ->
     exists p', m_epoll_fds s !! vfd = Some p' /\ epoll_store s !! p' = Some (epoll_of other p)) /\
  dom (m_epoll_fds s) = dom (m_epoll_fds other).

Lemma fds_reset_to_wp loose other s :
  fds_inv foreign loose s -> epoll_coherent other -> recorded_well other ->
  wp (reset_to other) (fun _ s' => table_of loose other s') (fun e s' => orderly e /\ exists L, fds_inv foreign L s') s.
Proof.
  intros Hi Hc [Hnd Hmax Hl]. unfold reset_to, upd_fds. wp_step. eapply close_owned_wp; [done|]. intros h Hh.
  wp_pures. set (s1 := set_epoll _ ∅ _ _). eapply copy_epolls_wp; [done|done|]. intros tbl store nx s2 Hep.
  apply (wp_for_each (fun dn t => fds_inv foreign loose t /\ (forall v, is_Some (m_fds t !! v) <-> v ∈ dn ≫= pair_vfds) /\
    (forall sp, sp ∈ dn -> stands_for sp (m_fds t)) /\ (base.size (m_fds t) <= length (dn ≫= pair_vfds))%nat /\
    m_max_total_fds_opened t = m_max_total_fds_opened other /\ m_max_files t = m_max_files other /\
    m_epoll_fds t = m_epoll_fds s2 /\ epoll_store t = epoll_store s2)).
  - split_and!; [done| |by intros sp []%elem_of_nil|simpl; by rewrite map_size_empty|done..]. intros v. simpl. rewrite lookup_empty.
    split; [by intros [? ?]|set_solver].
  - intros dn sp rest t Hsp (Ht & Hk & Hst & Hsz & Hmt & Hmf & He1 & He2).
    unfold socket_vfds in *. rewrite Hsp, bind_app, bind_cons in Hnd, Hl, Hmax.
    apply NoDup_app in Hnd as (_ & Hdis & [Hndp _]%NoDup_app).
    assert (forall v, v ∈ pair_vfds sp -> v ∉ dn ≫= pair_vfds) as Hnew by (intros v Hv Hv'; by apply (Hdis v Hv'), elem_of_app; left).
    eapply wp_mono; [apply (create_socket_pairs_from_wp loose); [done|done|..]|..].
    + intros v Hv. apply eq_None_not_Some. rewrite Hk. by apply Hnew.
    + intros v Hv. apply Hmax. rewrite !elem_of_app. tauto.
    + intros E. destruct (Hl sp) as (? & ? & ? & Hlen); [set_solver|done|]. split_and!; [done|done|]. split; [by rewrite Hmt|].
      rewrite Hmf. rewrite !length_app in Hlen. assert (length (pair_vfds sp) = 1%nat) by (unfold pair_vfds; by rewrite E). lia.
    + intros [] t' (Hs1 & Hs2 & Ht' & Hk' & Hsz' & ? & ? & ? & ?). rewrite bind_app, bind_singleton, length_app.
      split_and!; [done| | |lia|congruence..]; [intros v; by rewrite Hk', Hk, elem_of_app|].
      intros x [Hx| ->%list_elem_of_singleton]%elem_of_app; [|done]. eapply stands_for_ext; [|by apply Hst].
      intros v Hv. apply Hs2. intros Hv'. apply (Hnew v Hv'). apply list_elem_of_bind. by exists x.
    + done.
  - intros t (Ht & Hk & Hst & _ & _ & _ & He1 & He2). destruct Hep as (H1 & H2 & _). split_and!; [done|done|done|..].
    + intros vfd p Hp. rewrite He1, He2. destruct (H2 (vfd, p)) as [p' Hp']; [by apply elem_epoll_entries|]. cbn [fst] in Hp'.
      exists p'. split; [done|]. apply H1 in Hp' as (_ & p2 & Hp2 & Hs). rewrite Hp in Hp2. by injection Hp2 as <-.
    + apply set_eq. intros v. rewrite He1, !elem_of_dom. split.
      * intros [p' Hp']. apply H1 in Hp' as (_ & p & Hp & _). by exists p.
      * intros [p Hp]. apply (H2 (v, p)). by apply elem_epoll_entries.
Qed.

(** C20: resetting a machine's descriptors to those of its master closes everything it owned and
    nothing else, and rebuilds what is recorded under the master's numbers, and nothing more:
    each pipe, socket pair, event and duplicate as new descriptors of the same kind, the ends of
    a pair in the recorded order, the master's listening sockets as themselves and not owned; its
    epoll entries are private copies of the master's.  The recorded numbers are distinct, and
    there is room for the listening sockets (no limit on the descriptors opened in total, and as
    many files as recorded numbers); without it [reset_closes_listener] shows what is lost.  When
    it throws, foreign descriptors are still open. *)
Theorem reset_to_ok loose other s :
  fds_inv foreign loose s -> epoll_coherent other -> recorded_well other ->
  wp (reset_to other) (fun _ s' => table_of loose other s') (fun e s' => orderly e /\ exists L, fds_inv foreign L s') s.
Proof. apply fds_reset_to_wp. Qed.

(** *** A new table *)

Lemma dup_wp L fd s : fds_inv foreign L s ->
  wp (host_dup fd) (fun r s' => m_fds s' = m_fds s /\ m_next_fd s' = m_next_fd s /\ exists L', fds_inv foreign L' s' /\
    (r = -1 /\ L' = L \/ 2 < r /\ (r ∉ L) /\ L' = {[r]} ∪ L)) (fun _ _ => False) s.
Proof.
  intros Hi. eapply host_dup_wp; [done|..].
  - intros e He. split_and!; [done|done|]. exists L. auto.
  - intros n Hn Ho Hi'. split_and!; [done|done|]. exists ({[n]} ∪ L). split; [done|]. right. split_and!; [done| |done].
    intros Hx. apply Ho, (ti_total _ _ _ _ Hi). auto.
Qed.
Lemma take_over L fd b v s : fds_inv foreign ({[fd]} ∪ L) s -> fd ∉ L -> m_fds s !! v = None ->
  fds_inv foreign L (set_fds s (<[v := mkEntry fd b false]> (m_fds s))).
Proof.
  intros Hi Hfd Hv. pose proof (inv_insert _ _ _ _ v fd b Hi ltac:(set_solver)) as Hx.
  rewrite displaced_None, union_empty_r_L in Hx by done. by replace (({[fd]} ∪ L) ∖ {[fd]}) with L in Hx by set_solver.
Qed.

Lemma FileDescriptors_new_wp forked h s0 :
  (forall fd, 0 <= fd <= 2 -> fd ∈ foreign) -> open_fds h = foreign -> dom (interest h) ⊆ foreign ->
  (forall v, known v -> v < VFD_START) ->
  wp (FileDescriptors_new forked h) (fun _ s => fds_inv foreign ∅ s /\ numbered s)
    (fun e s => orderly e /\ exists L, fds_inv foreign L s) s0.
Proof.
  intros Hstd Hopen Hint Hk. unfold FileDescriptors_new, upd_fds. wp_step. wp_step. set (s1 := mkFds ∅ _ _ _ _ _ _ _ _ _ _ _ _).
  assert (fds_inv foreign ∅ s1) as H1.
  { assert (forall v fd, ~ owns ∅ v fd) as Hno by (intros v fd (? & He & _); by rewrite lookup_empty in He).
    split; simpl; [done|..|by rewrite Hopen].
    - intros fd. rewrite Hopen. split; [auto|]. intros [?|[?|[v []%Hno]]]; [done|set_solver].
    - set_solver.
    - by intros v fd []%Hno.
    - by intros v w fd []%Hno. }
  assert (m_fds s1 = ∅ /\ m_next_fd s1 = VFD_START) as [E1 N1] by done. clearbody s1.
  wp_step. eapply wp_mono; [by apply dup_wp| |done]. intros a s2 (E2 & N2 & La & H2 & Ha).
  wp_step. eapply wp_mono; [by apply dup_wp| |done]. intros b s3 (E3 & N3 & Lb & H3 & Hb).
  wp_step. eapply wp_mono; [by apply dup_wp| |done]. intros c s4 (E4 & N4 & Lc & H4 & Hc).
  wp_step; [apply wp_throw; split; [done|by exists Lc]|].
  destruct Ha as [[-> _]|(? & _ & ->)]; [lia|]. destruct Hb as [[-> _]|(? & Hb & ->)]; [lia|].
  destruct Hc as [[-> _]|(? & Hc & ->)]; [lia|]. wp_step.
  assert (m_fds s4 = ∅) as E by congruence. assert (m_next_fd s4 = VFD_START) as N by congruence. split.
  - replace ({[c]} ∪ ({[b]} ∪ ({[a]} ∪ ∅))) with ({[a]} ∪ ({[b]} ∪ ({[c]} ∪ ∅)) : gset Z) in H4 by set_solver.
    apply (take_over _ a false 0) in H4; [|set_solver|by rewrite E].
    apply (take_over _ b true 1) in H4; [|set_solver|simpl; by rewrite E].
    apply (take_over _ c true 2) in H4; [exact H4|set_solver|simpl; by rewrite E].
  - intros v Hv. simpl in *. rewrite N in Hv. unfold VFD_START in *. rewrite !lookup_insert_ne, E, lookup_empty by lia.
    split; [done|]. intros ?%Hk. lia.
Qed.
End ownership.

(** ** A concrete host and concrete tables *)

(** The lowest free number, up to a limit of 1024; epoll instances watch anything but themselves. *)
Definition lowest_free (o : gset Z) : option Z := List.find (fun n => bool_decide (n ∉ o)) (seqZ 0 1024).
#[export] Instance demo_host : HostFds := {|
  new_fd _ o := match lowest_free o with Some n => inl n | None => inr 24 end;
  epoll_refusal _ epfd _ fd := if epfd =? fd then Some 22 else None;
  set_order o := elements o;
  map_order m := map_to_list m |}.
#[export] Instance demo_host_laws : HostFdLaws demo_host.
Proof.
  split.
  - intros rq o fd. unfold new_fd, demo_host. destruct (lowest_free o) as [n|] eqn:E; [|done]. intros [= <-].
    apply List.find_some in E as [Hin Hn]. split; [|by apply bool_decide_eq_true in Hn].
    apply list_elem_of_In in Hin. apply elem_of_seqZ in Hin. lia.
  - intros i epfd fd. unfold epoll_refusal, demo_host. by destruct (epfd =? fd).
  - intros o x. apply elem_of_elements.
  - intros m k v. apply elem_of_map_to_list.
  - intros o. apply NoDup_elements.
  - intros m. apply NoDup_map_to_list.
Qed.

(** The embedder has the standard descriptors; the master has a file 10 as its number 0x800 and
    an epoll instance 11 as its number 0x900. *)
Definition demo_foreign : gset Z := {[0; 1; 2; 10; 11]}.
Definition demo_find : option (Z -> option Entry) := Some (fun v =>
  if v =? 0x800 then Some (mkEntry 10 true false) else if v =? 0x900 then Some (mkEntry 11 true false) else None).
Definition demo_blank : FileDescriptors := mkFds ∅ 0 "" 0 0 0 0 ∅ ∅ 0 [] false (mkFdHost ∅ ∅ 0).
Definition demo_table : FileDescriptors := snd (FileDescriptors_new true (mkFdHost demo_foreign ∅ 0) demo_blank).

Lemma demo_inv : fds_inv demo_foreign ∅ demo_table /\ numbered demo_find demo_table.
Proof.
  assert (FileDescriptors_new true (mkFdHost demo_foreign ∅ 0) demo_blank = (Ok tt, demo_table)) as E
    by (apply run_pair; vm_compute; reflexivity).
  refine (wp_run _ _ _ _ _ _ (FileDescriptors_new_wp demo_find demo_foreign true _ demo_blank _ _ _ _) E).
  - intros fd Hfd. assert (fd = 0 \/ fd = 1 \/ fd = 2) as [-> |[-> | ->]] by lia; vm_compute; done.
  - done.
  - by vm_compute.
  - intros v (find & [= <-] & [e He]). destruct (v =? 0x800) eqn:Ev, (v =? 0x900) eqn:Ev'; (done || (unfold VFD_START; lia)).
Qed.

(** A fork whose copy of the master's epoll instance watches the file. *)
Definition demo_fork_fds : FileDescriptors := set_epoll demo_table {[0x900 := 0]} {[0 := mkEpoll {[0x800 := 5]} ∅]} 1.

(** [run_of E] is the outcome of the run whose result [vm_compute] gives. *)
Ltac run_of := apply run_pair; vm_compute; reflexivity.

Lemma translate_safe_witness : exists s',
  translate demo_find 0x900 demo_fork_fds = (Ok 6, s') /\ fds_inv demo_foreign ∅ s' /\ grown (known demo_find) ∅ demo_fork_fds s'.
Proof.
  assert (translate demo_find 0x900 demo_fork_fds = (Ok 6, snd (translate demo_find 0x900 demo_fork_fds))) as E by run_of.
  destruct (wp_run _ _ _ _ _ _ (translate_safe demo_find demo_foreign ∅ 0x900 demo_fork_fds (proj1 demo_inv)) E) as (H1 & H2 & _).
  eexists. split; [exact E|]. by split.
Defined.

Lemma translate_epoll_witness : exists s',
  translate demo_find 0x900 demo_fork_fds = (Ok 6, s') /\ m_fds s' !! 0x900 = Some (mkEntry 6 true false) /\
  (forall x, x ∈ default ∅ (interest (fhost s') !! 6) -> exists v e, m_fds s' !! v = Some e /\ real_fd e = x).
Proof.
  assert (translate demo_find 0x900 demo_fork_fds = (Ok 6, snd (translate demo_find 0x900 demo_fork_fds))) as E by run_of.
  refine (match wp_run _ _ _ _ _ _ (translate_epoll demo_find demo_foreign ∅ 0x900 _ (mkEntry 11 true false) 0 demo_fork_fds
    (proj1 demo_inv) eq_refl _ _ _ _) E with conj _ (conj _ (conj _ (conj Hl Hx))) => _ end).
  - reflexivity.
  - vm_compute. reflexivity.
  - vm_compute. reflexivity.
  - intros v Hv _. exfalso. revert Hv. apply not_elem_of_empty.
  - eexists. split; [exact E|]. split; [exact Hl|]. intros x Hin. destruct (proj1 (Hx x) Hin) as (v & e & _ & ? & ?). eauto.
Defined.

(** A descriptor just created: 6. *)
Definition demo_opened : FileDescriptors := snd (host_new REventfd demo_table).
Lemma demo_opened_inv : fds_inv demo_foreign {[6]} demo_opened /\ numbered demo_find demo_opened.
Proof.
  destruct demo_inv as [Hi Hn]. split; [|exact Hn].
  pose proof (inv_opened _ _ _ _ 6 Hi ltac:(lia) ltac:(by apply (bool_decide_unpack _); vm_compute)) as Hx. rewrite union_empty_r_L in Hx. exact Hx.
Qed.
Lemma manage_roundtrip_witness : exists s',
  manage 6 true demo_opened = (Ok 0x1000, s') /\ translate demo_find 0x1000 s' = (Ok 6, s') /\ fds_inv demo_foreign ({[6]} ∖ {[6]}) s'.
Proof.
  assert (manage 6 true demo_opened = (Ok 0x1000, snd (manage 6 true demo_opened))) as E by run_of.
  destruct (wp_run _ _ _ _ _ _ (manage_roundtrip demo_find demo_foreign {[6]} 6 true demo_opened
    (proj1 demo_opened_inv) (proj2 demo_opened_inv) ltac:(set_solver)) E) as (_ & H1 & _ & _ & H2 & _).
  eexists. split; [exact E|]. by split.
Defined.

Lemma destroy_closes_owned_witness :
  bool_decide (3 ∈ open_fds (fhost demo_opened)) = true /\
  (forall fd, fd ∈ open_fds (fhost (snd (FileDescriptors_destroy demo_opened))) <-> fd ∈ demo_foreign \/ fd ∈ ({[6]} : gset Z)).
Proof.
  assert (FileDescriptors_destroy demo_opened = (Ok tt, snd (FileDescriptors_destroy demo_opened))) as E by run_of.
  split; [vm_compute; reflexivity|].
  exact (wp_run _ _ _ _ _ _ (destroy_closes_owned demo_foreign {[6]} demo_opened (proj1 demo_opened_inv)) E).
Defined.

(** A master with a pipe, a listening socket (its 10) and an event. *)
Definition demo_master : FileDescriptors :=
  mkFds ∅ 0x1005 "" AT_FDCWD 256 3 0 {[0x900 := 0]} {[0 := mkEpoll {[0x1001 := 5]} ∅]} 1
    [mkPair 0x1001 0x1002 PIPE2; mkPair 0x1003 10 LISTEN; mkPair 0x1004 (-1) EVENTFD] false (mkFdHost demo_foreign ∅ 0).

Lemma demo_recorded : recorded_well demo_foreign demo_master.
Proof.
  constructor.
  - apply (bool_decide_unpack _). vm_compute. reflexivity.
  - change (socket_vfds demo_master) with [0x1001; 0x1002; 0x1003; 0x1004]. intros v Hv. rewrite !elem_of_cons, elem_of_nil in Hv.
    unfold INT_MAX. lia.
  - intros sp Hsp Hty. assert (vfd2 sp = 10) as ->.
    { simpl in Hsp. rewrite !elem_of_cons in Hsp. destruct Hsp as [-> |[-> |[-> |[]%elem_of_nil]]]; simpl in *; done. }
    split; [lia|]. split; [vm_compute; done|]. split; [done|]. vm_compute. done.
Qed.

Lemma reset_to_ok_witness : exists s',
  reset_to demo_master demo_table = (Ok tt, s') /\ table_of demo_foreign ∅ demo_master s' /\
  m_fds s' !! 0x1001 = Some (mkEntry 3 true false) /\ m_fds s' !! 0x1003 = Some (mkEntry 10 true true).
Proof.
  assert (reset_to demo_master demo_table = (Ok tt, snd (reset_to demo_master demo_table))) as E by run_of.
  eexists. split; [exact E|]. split; [|split; vm_compute; reflexivity].
  refine (wp_run _ _ _ _ _ _ (reset_to_ok demo_foreign ∅ demo_master demo_table (proj1 demo_inv) _ demo_recorded) E).
  intros vfd p v p2 Hp Hv _. exfalso. cbn [m_epoll_fds demo_master] in Hp.
  apply lookup_singleton_Some in Hp as [_ <-]. revert Hv. apply not_elem_of_empty.
Defined.

(** ** What the invariants do not cover *)

(** A limit reached while a fork is reset closes the master's listening socket (10). *)
Example reset_closes_listener :
  let master := set_limits demo_master 1 0 0 in
  let '(r, s') := reset_to (set_sockets master [mkPair 0x1001 (-1) EVENTFD; mkPair 0x1003 10 LISTEN]) demo_table in
  bool_decide (10 ∈ open_fds (fhost demo_table)) = true /\ bool_decide (10 ∈ open_fds (fhost s')) = false.
Proof. vm_compute. done. Qed.

(** Two numbers of one epoll instance: after the first is closed the second translates to a
    descriptor that is no longer open. *)
Example shared_epoll_goes_stale :
  let find := Some (fun v => if (v =? 0x900) || (v =? 0x901) then Some (mkEntry 11 true false) else None) in
  let s0 := set_epoll demo_table {[0x900 := 0; 0x901 := 0]} {[0 := mkEpoll ∅ {[0x900; 0x901]}]} 1 in
  let s1 := snd (translate find 0x900 s0) in
  let s2 := snd (translate find 0x901 s1) in
  let s3 := snd ((free None 0x900 ;;; host_close 6) s2) in
  fst (translate find 0x901 s3) = Ok 6 /\ bool_decide (6 ∈ open_fds (fhost s3)) = false.
Proof. vm_compute. done. Qed.

(** A duplicate is recorded with its real descriptor (here 5) where the others record a virtual
    one, so closing the virtual descriptor 5 drops the record of the duplicate. *)
Example duplicate_record_confused :
  m_sockets (set_sockets demo_table [mkPair 5 0x1001 DUPFD]) = [mkPair 5 0x1001 DUPFD] /\
  m_sockets (snd (free None 5 (set_sockets demo_table [mkPair 5 0x1001 DUPFD]))) = [].
Proof. vm_compute. done. Qed.
