(* ===== verification/FdCalls.v ===== *)
(** * System calls on descriptors

    The handlers of lib/tinykvm/linux/system_calls.cpp that create, duplicate, close or
    configure descriptors: close, pipe2, dup, dup2, socket, listen, accept4, socketpair,
    shutdown, fcntl, openat, eventfd2, timerfd_create, epoll_create1 and epoll_ctl.  Each
    runs on the registers of the calling vCPU, the descriptor table of [Fds] and guest memory.

    The last part shows that no sequence of these calls makes the machine close a descriptor it
    does not own, and that the calls lose none; [dup2] is the exception, shown by examples. *)
From stdpp Require Import base tactics list numbers strings gmap.
From Stdlib Require Import ZArith Lia Bool Ascii.
From S2P Require Import Prelude Cpu Fds.
Local Open Scope Z_scope.

(** Host calls that neither create nor close a descriptor. *)
Inductive io :=
| IListen (fd backlog : Z) | IGetfl (fd : Z) | ISetfl (fd flags : Z) | IGetlk (fd : Z)
| ISetlk (fd : Z) (lock : list Z) | IShutdown (fd how : Z).

Class HostIo := {
  (** The result, or the error number. *)
  host_io : io -> Z + Z;
  (** The [flock64] that F_GETLK64 fills in, and the peer address of an accepted connection. *)
  lock_data : Z -> list Z;
  peer_addr : Z -> list Z }.

Class GuestStrings (G : Type) := { (** [memcstring(addr, max)] *) guest_cstring : Z -> Z -> M G string }.

(** Callbacks of the embedder; an absent one is [None]. *)
Record Callbacks := mkCallbacks {
  find_master : option (Z -> option Entry);
  on_free : option (Z -> Entry -> M FileDescriptors bool);
  listening_socket : option (Z -> Z -> bool);
  accept_gate : option (Z -> Z -> Z -> bool);
  accept_socket : option (Z -> Z -> Z -> list Z -> M FileDescriptors Z);
  open_readable : path_filter;
  open_writable : path_filter }.

Section calls.
Context `{hf : HostFds} `{hio : HostIo} {G : Type} `{gm : GuestMemory G} `{gs : GuestStrings G}.
Variable cb : Callbacks.

Record FdOS := mkFdOS { regs : x86regs; files : FileDescriptors; mem : G }.
Definition P := M FdOS.

Definition on_files {A} (m : M FileDescriptors A) : P A :=
  fun s => let '(r, f) := m (files s) in (r, mkFdOS (regs s) f (mem s)).
Definition on_mem {A} (m : M G A) : P A :=
  fun s => let '(r, g) := m (mem s) in (r, mkFdOS (regs s) (files s) g).
(** [regs.rax = v; cpu.set_registers(regs)] *)
Definition return_rax (v : Z) : P unit := modify (fun s => mkFdOS (set_rax (regs s) (v mod W64)) (files s) (mem s)).
(** [regs.rax = -errno] *)
Definition return_errno : P unit := let! s := get in return_rax (- errno (fhost (files s))).
(** Host calls without effect on descriptors. *)
Definition call_io (c : io) : P Z :=
  match host_io c with
  | inl v => ret v
  | inr e => on_files (fails e)
  end.

Definition fd_translate (vfd : Z) : P Z := on_files (translate (find_master cb) vfd).
Definition fd_translate_writable (vfd : Z) : P Z := on_files (translate_writable_vfd (find_master cb) vfd).

Definition sys_close : P unit :=
  let! s := get in
  let vfd := int32 (rdi (regs s)) in
  if (0 <=? vfd) && (vfd <? 3) then return_rax 0
  else
    let! e := on_files (entry_for_vfd vfd) in
    match e with
    | None => return_rax (- EBADF)
    | Some entry =>
        if is_forked entry then return_rax 0
        else
          let! reset := on_files (free (on_free cb) vfd) in
          if reset then ret tt
          else
            let! res := on_files (host_close (real_fd entry)) in
            if res <? 0 then return_errno else return_rax 0
    end.

(** Two descriptors as an array of [int]. *)
Definition int_pair (a b : Z) : list Z := le_bytes 4 (uint32 a) ++ le_bytes 4 (uint32 b).

Definition sys_pipe2 : P unit :=
  let! s := get in
  let! p := on_files (host_pair (RPipe2 (int32 (rsi (regs s))))) in
  match p with
  | None => return_errno
  | Some (a, b) =>
      let! v1 := on_files (manage a true) in
      let! v2 := on_files (manage b true) in
      on_mem (guest_write (rdi (regs s)) (int_pair v1 v2)) ;;;
      return_rax 0 ;;;
      on_files (add_socket_pair (mkPair v1 v2 PIPE2))
  end.

Definition sys_socketpair : P unit :=
  let! s := get in
  let! p := on_files (host_pair RSocketpair) in
  match p with
  | None => return_errno
  | Some (a, b) =>
      let! v1 := on_files (manage a true) in
      let! v2 := on_files (manage b true) in
      on_mem (guest_write (r10 (regs s)) (int_pair v1 v2)) ;;;
      return_rax 0 ;;;
      on_files (add_socket_pair (mkPair v1 v2 SOCKETPAIR))
  end.

(** [try { ... } catch (...) { regs.rax = -EBADF; }] *)
Definition or_ebadf (m : P unit) : P unit := try_catch m (return_rax (- EBADF)).

Definition sys_dup : P unit :=
  let! s := get in
  or_ebadf
    (let! fd := fd_translate (int32 (rdi (regs s))) in
     let! new_fd := on_files (host_dup fd) in
     if new_fd <? 0 then return_errno
     else let! v := on_files (manage new_fd false) in return_rax v).

Definition sys_dup2 : P unit :=
  let! s := get in
  let vfd := int32 (rdi (regs s)) in
  let new_vfd := int32 (rsi (regs s)) in
  if vfd =? new_vfd then return_rax new_vfd
  else
    or_ebadf
      (let! fd := fd_translate vfd in
       let! new_fd := fd_translate new_vfd in
       when (2 <? new_fd)
         (let! _ := on_files (host_close new_fd) in
          let! _ := on_files (free (on_free cb) new_vfd) in ret tt) ;;;
       let! result := on_files (host_dup fd) in
       if result <? 0 then return_errno
       else
         on_files (manage_as new_vfd new_fd false) ;;;
         return_rax new_vfd).

Definition AF_UNIX : Z := 1.
Definition AF_INET : Z := 2.
Definition AF_INET6 : Z := 10.
Definition AF_NETLINK : Z := 16.
Definition EAFNOSUPPORT : Z := 97.

Definition sys_socket : P unit :=
  let! s := get in
  let domain := int32 (rdi (regs s)) in
  if negb (domain =? AF_INET) && negb (domain =? AF_INET6) && negb (domain =? AF_UNIX) && negb (domain =? AF_NETLINK)
  then return_rax (- EAFNOSUPPORT)
  else
    let! fd := on_files (host_new (RSocket domain (int32 (rsi (regs s))) (int32 (rdx (regs s))))) in
    if fd <? 0 then return_errno
    else let! v := on_files (manage fd true) in return_rax v.

Definition sys_listen : P unit :=
  let! s := get in
  let vfd := int32 (rdi (regs s)) in
  let! fd := fd_translate_writable vfd in
  if (match listening_socket cb with None => true | Some f => negb (f vfd fd) end) then return_rax (- EPERM)
  else
    let! r := call_io (IListen fd (int32 (rsi (regs s)))) in
    if r <? 0 then return_errno else return_rax 0.

Definition sys_accept4 : P unit :=
  let! s := get in
  let vfd := int32 (rdi (regs s)) in
  let! fd := fd_translate_writable vfd in
  let flags := int32 (r10 (regs s)) in
  if (match accept_gate cb with Some f => negb (f vfd fd flags) | None => false end) then ret tt
  else
    let! result := on_files (host_new (RAccept fd flags)) in
    if result <? 0 then return_errno
    else
      let addr := peer_addr result in
      when (negb (rsi (regs s) =? 0)) (on_mem (guest_write (rsi (regs s)) addr)) ;;;
      when (negb (rdx (regs s) =? 0)) (on_mem (guest_write (rdx (regs s)) (le_bytes 4 (Z.of_nat (length addr))))) ;;;
      let! v := on_files (match accept_socket cb with
                          | Some f => f vfd fd result addr
                          | None => manage result true
                          end) in
      return_rax v.

Definition sys_shutdown : P unit :=
  let! s := get in
  let vfd := int32 (rdi (regs s)) in
  or_ebadf
    (if (0 <=? vfd) && (vfd <? 3) then return_rax 0
     else
       let! fd := fd_translate vfd in
       let! r := call_io (IShutdown fd (int32 (rsi (regs s)))) in
       if r <? 0 then return_errno else return_rax r).

Definition F_GETFD : Z := 1.
Definition F_SETFD : Z := 2.
Definition F_GETFL : Z := 3.
Definition F_SETFL : Z := 4.
Definition F_GETLK : Z := 5.
Definition F_SETLK : Z := 6.
Definition F_DUPFD_CLOEXEC : Z := 1030.
Definition O_NONBLOCK : Z := 0x800.
Definition FLOCK_SIZE : Z := 32.

(** On this architecture F_GETLK64 and F_SETLK64 are F_GETLK and F_SETLK. *)
Definition sys_fcntl : P unit :=
  let! s := get in
  let vfd := int32 (rdi (regs s)) in
  let cmd := int32 (rsi (regs s)) in
  or_ebadf
    (let! fd := fd_translate vfd in
     if fd <? 0 then return_rax (- EBADF)
     else if cmd =? F_GETFD then return_rax 1
     else if cmd =? F_SETFD then return_rax 0
     else if cmd =? F_GETFL then
       let! wfd := fd_translate vfd in
       let! flags := call_io (IGetfl wfd) in
       if flags <? 0 then return_errno else return_rax (flags .& O_NONBLOCK)
     else if cmd =? F_SETFL then
       let! wfd := fd_translate vfd in
       let! r := call_io (ISetfl wfd (rdx (regs s) .& O_NONBLOCK)) in
       if r <? 0 then return_errno else return_rax 0
     else if cmd =? F_GETLK then
       let! wfd := fd_translate_writable vfd in
       let! r := call_io (IGetlk wfd) in
       if r <? 0 then return_errno
       else on_mem (guest_write (rdx (regs s)) (lock_data wfd)) ;;; return_rax 0
     else if cmd =? F_SETLK then
       let! wfd := fd_translate_writable vfd in
       let! fl := on_mem (guest_read (rdx (regs s)) FLOCK_SIZE) in
       let! r := call_io (ISetlk wfd fl) in
       if r <? 0 then return_errno else return_rax 0
     else if cmd =? F_DUPFD_CLOEXEC then
       if 2 <? fd then
         let! e := on_files (entry_for_vfd vfd) in
         match e with
         | None => return_rax (- EBADF)
         | Some entry =>
             let! new_fd := on_files (host_dup fd) in
             let! v := on_files (manage_duplicate vfd new_fd (is_writable entry)) in
             return_rax v
         end
       else
         let! new_fd := on_files (host_dup fd) in
         let! v := on_files (manage_duplicate vfd new_fd true) in
         return_rax v
     else return_rax 0).

(** [regs.rdx & (O_CREAT | O_TRUNC | O_APPEND | O_RDWR | O_WRONLY)] *)
Definition OPEN_FLAGS : Z := 0x643.
Definition PATH_MAX : Z := 4096.
Definition RESOLVE_NO_MAGICLINKS : Z := 2.
(** RESOLVE_IN_ROOT | RESOLVE_NO_SYMLINKS | RESOLVE_NO_XDEV *)
Definition RESOLVE_STRICT : Z := 0x15.

Definition is_absolute (path : string) : bool :=
  match path with String c _ => Ascii.eqb c "/"%char | EmptyString => false end.

(** One of the two attempts: with the filter [allowed] and the error code of its refusal. *)
Definition open_as (allowed : string -> option string) (refused vfd flags mode : Z) (writable : bool) (path : string) : P unit :=
  let! s := get in
  let! pfd := (if vfd =? AT_FDCWD then ret (m_cwd_fd (files s)) else fd_translate vfd) in
  match allowed path with
  | None => return_rax (- refused)
  | Some real_path =>
      let resolve := if (vfd =? AT_FDCWD) && is_absolute real_path then RESOLVE_NO_MAGICLINKS else RESOLVE_STRICT in
      let! fd := on_files (host_new (ROpen pfd real_path flags mode resolve)) in
      if 0 <? fd then let! v := on_files (manage fd writable) in return_rax v
      else return_errno
  end.

Definition sys_openat : P unit :=
  let! s := get in
  let vfd := int32 (rdi (regs s)) in
  let flags := int32 (rdx (regs s)) .& OPEN_FLAGS in
  let! path := on_mem (guest_cstring (rsi (regs s)) PATH_MAX) in
  let write := try_catch (open_as (is_writable_path (open_writable cb)) EPERM vfd flags 0x180 true path) (return_rax (-1)) in
  if negb (flags .& 3 =? 0) then write
  else try_catch (open_as (is_readable_path (open_readable cb)) EACCES vfd flags 0 false path) (return_rax (-1) ;;; write).

Definition sys_eventfd2 : P unit :=
  let! real_fd := on_files (host_new REventfd) in
  let! vfd := on_files (manage real_fd true) in
  if vfd <? 0 then return_errno
  else
    return_rax vfd ;;;
    on_files (add_socket_pair (mkPair vfd (-1) EVENTFD)).

Definition sys_timerfd_create : P unit :=
  let! s := get in
  let! real_fd := on_files (host_new (RTimerfd (int32 (rdi (regs s))))) in
  let! vfd := on_files (manage real_fd true) in
  if vfd <? 0 then return_errno else return_rax vfd.

Definition sys_epoll_create1 : P unit :=
  let! fd := on_files (host_new REpoll) in
  if fd <? 0 then return_errno
  else let! vfd := on_files (manage fd false) in return_rax vfd.

(** [ee.epoll_fds[vfd] = event] or [ee.epoll_fds.erase(vfd)] *)
Definition record_event (p op vfd event : Z) : M FileDescriptors unit :=
  upd_fds (fun s => set_epoll s (m_epoll_fds s)
    (alter (fun ee =>
       if (op =? EPOLL_CTL_ADD) || (op =? EPOLL_CTL_MOD) then mkEpoll (<[vfd := event]> (epoll_fds ee)) (shared_epoll_fds ee)
       else if op =? EPOLL_CTL_DEL then mkEpoll (base.delete vfd (epoll_fds ee)) (shared_epoll_fds ee)
       else ee) p (epoll_store s)) (next_epoll s)).

Definition EPOLL_EVENT_SIZE : Z := 12.

Definition sys_epoll_ctl : P unit :=
  let! s := get in
  let evfd := int32 (rdi (regs s)) in
  let op := int32 (rsi (regs s)) in
  let vfd := int32 (rdx (regs s)) in
  let! epollfd := fd_translate evfd in
  let! fd := fd_translate vfd in
  if (0 <? epollfd) && (0 <=? fd) && negb (epollfd =? fd) then
    let! event := (if r10 (regs s) =? 0 then ret [] else on_mem (guest_read (r10 (regs s)) EPOLL_EVENT_SIZE)) in
    let! r := on_files (host_epoll_ctl epollfd op fd) in
    if r <? 0 then return_errno
    else
      let! p := on_files (get_epoll_entry_for_vfd evfd) in
      on_files (record_event p op vfd (le_value event)) ;;;
      return_rax 0
  else if (epollfd <? 0) || (fd <? 0) then return_rax (- EBADF)
  else return_rax (- EINVAL).
End calls.

(** ** Ownership through the calls *)

Section safety.
Context `{hf : HostFds} {laws : HostFdLaws hf} `{hio : HostIo} {G : Type} `{gm : GuestMemory G} `{gs : GuestStrings G}.
Variables (cb : Callbacks) (foreign : gset Z).
Notation numbered := (numbered (find_master cb)).
Implicit Types (f : FileDescriptors) (s : FdOS (G := G)) (L : gset Z).

Definition holds L f : Prop := fds_inv foreign L f /\ numbered f.
(** Without callbacks that take over descriptors, none is lost. *)
Definition plain : Prop := on_free cb = None /\ accept_socket cb = None.
Definition kept L f : Prop := exists L', holds L' f /\ (plain -> L' = L).
(** When [e] is thrown, too, unless the numbers have run out, which is undefined. *)
Definition kept_on (e : exn) L f : Prop := exists L', holds L' f /\ (plain -> e <> next_fd_overflow -> L' = L).

(** What the embedder's callbacks must do: leave the ownership in order. *)
Record callbacks_ok : Prop := {
  cb_free fn vfd e L f : on_free cb = Some fn -> holds L f ->
    wp (fn vfd e) (fun r f' => exists L', holds L' f' /\ (r = false -> m_fds f' !! vfd = m_fds f !! vfd))
      (fun _ f' => exists L', holds L' f') f;
  cb_accept fn vfd fd n a L f : accept_socket cb = Some fn -> holds L f -> n ∈ L ->
    wp (fn vfd fd n a) (fun _ f' => exists L', holds L' f') (fun _ f' => exists L', holds L' f') f }.

Definition keeps {A} (m : P (G := G) A) : Prop :=
  forall L s, holds L (files s) -> wp m (fun _ s' => kept L (files s')) (fun e s' => kept_on e L (files s')) s.
Definition fkeeps {A} (m : M FileDescriptors A) : Prop :=
  forall L f, holds L f -> wp m (fun _ f' => kept L f') (fun e f' => kept_on e L f') f.

Lemma holds_kept L f : holds L f -> kept L f.
Proof. intros H. by exists L. Qed.
Lemma kept_as L L' f : kept L' f -> (plain -> L' = L) -> kept L f.
Proof. intros (L2 & H2 & E2) E. exists L2. split; [done|]. intros Hp. by rewrite E2, E. Qed.

Lemma kept_thrown e L f : kept L f -> kept_on e L f.
Proof. intros (L' & H & E). exists L'. auto. Qed.
Lemma holds_kept_on e L f : holds L f -> kept_on e L f.
Proof. intros H. by apply kept_thrown, holds_kept. Qed.
Lemma kept_on_as e L L' f : kept_on e L' f -> (plain -> L' = L) -> kept_on e L f.
Proof. intros (L2 & H2 & E2) E. exists L2. split; [done|]. intros Hp He. by rewrite E2, E. Qed.
(** [kept] and [kept_on] of the state at hand. *)
Ltac held := first [apply holds_kept | apply holds_kept_on | apply kept_thrown]; try done.

Lemma wp_on_files {A} (m : M FileDescriptors A) Q X s :
  wp m (fun a f => Q a (mkFdOS (regs s) f (mem s))) (fun e f => X e (mkFdOS (regs s) f (mem s))) (files s) ->
  wp (on_files (G := G) m) Q X s.
Proof. unfold wp, on_files. by destruct (m (files s)) as [[] ?]. Qed.
Lemma keeps_files {A} (m : M FileDescriptors A) : fkeeps m -> keeps (on_files m).
Proof. intros Hm L s Hs. apply wp_on_files. by apply Hm. Qed.
Lemma keeps_mem {A} (m : M G A) : keeps (on_mem m).
Proof. intros L s Hs. unfold wp, on_mem. destruct (m (mem s)) as [[] ?]; by held. Qed.
Lemma keeps_ret {A} (a : A) : keeps (ret a).
Proof. intros L s Hs. apply wp_ret. by apply holds_kept. Qed.
Lemma keeps_get : keeps get.
Proof. intros L s Hs. apply wp_get. by apply holds_kept. Qed.
Lemma keeps_return v : keeps (return_rax v).
Proof. intros L s Hs. apply wp_modify. by apply holds_kept. Qed.
Lemma keeps_bind {A B} (m : P A) (k : A -> P B) : keeps m -> (forall a, keeps (k a)) -> keeps (bind m k).
Proof.
  intros Hm Hk L s Hs. apply wp_bind. eapply wp_mono; [by apply Hm| |done].
  intros a s' (L' & Hs' & E). eapply wp_mono; [by apply Hk|..]; intros ? ? ?; [by apply kept_as with L'|by apply kept_on_as with L'].
Qed.
Lemma keeps_catch {A} (m h : P A) : keeps m -> keeps h -> keeps (try_catch m h).
Proof.
  intros Hm Hk L s Hs. apply wp_catch. eapply wp_mono; [by apply Hm|done|].
  intros e s' (L' & Hs' & E). destruct e; try (apply wp_throw; by exists L');
    (eapply wp_mono; [by apply Hk|..]; intros ? ? ?; [apply kept_as with L'|apply kept_on_as with L']; try done; intros Hp; by apply E).
Qed.
Lemma keeps_if {A} (b : bool) (m1 m2 : P A) : keeps m1 -> keeps m2 -> keeps (if b then m1 else m2).
Proof. by destruct b. Qed.
Lemma keeps_when b m : keeps m -> keeps (when b m).
Proof. intros. unfold when. apply keeps_if; [done|apply keeps_ret]. Qed.
Lemma keeps_errno : keeps return_errno.
Proof. apply keeps_bind; [apply keeps_get|]. intros. apply keeps_return. Qed.

Lemma fkeeps_translate vfd : fkeeps (translate (find_master cb) vfd).
Proof.
  intros L f [Hi Hn]. eapply wp_mono; [by apply translate_wp|..].
  - intros r f' (Hi' & Hg & _). apply holds_kept. split; [done|by eapply numbered_grown].
  - intros r f' (_ & Hi' & Hg). held. split; [done|by eapply numbered_grown].
Qed.
Lemma fkeeps_translate_writable vfd : fkeeps (translate_writable_vfd (find_master cb) vfd).
Proof.
  intros L f [Hi Hn]. assert (kept L f) by (by apply holds_kept). assert (forall e, kept_on e L f) by (intros; by apply holds_kept_on).
  unfold translate_writable_vfd, runtime_error. wp_step. wp_step. destruct (m_fds f !! vfd) as [e|] eqn:Hv.
  { wp_step; by wp_step. }
  destruct (find_master cb) as [find|] eqn:Hm; [|by wp_step]. destruct (find vfd) as [entry|] eqn:Hf; [|by wp_step].
  wp_step; [|by wp_step].
  eapply (wp_mono _ (translated (find_master cb) foreign L vfd f) _ (untranslated (find_master cb) foreign L f)).
  - apply (fork_entry_wp _ _ _ _ (mkEntry (real_fd entry) (is_writable entry) true)); [done|done| |done].
    exists find. rewrite Hf. by split; [|eauto].
  - intros r f' (Hi' & Hg & _). apply holds_kept. split; [done|]. eapply numbered_grown; [|exact Hg]. try rewrite <- Hm in Hn; exact Hn.
  - intros r f' (_ & Hi' & Hg). held. split; [done|]. eapply numbered_grown; [|exact Hg]. try rewrite <- Hm in Hn; exact Hn.
Qed.
Lemma fkeeps_entry vfd : fkeeps (entry_for_vfd vfd).
Proof. intros L f Hf. unfold entry_for_vfd. wp_pures. by apply holds_kept. Qed.
Lemma fkeeps_fails e : fkeeps (fails e).
Proof. intros L f [Hi Hn]. unfold fails, upd_host, upd_fds. wp_pures. apply holds_kept. split; [by apply inv_errno|done]. Qed.
Lemma keeps_io c : keeps (call_io c).
Proof. unfold call_io. destruct (host_io c); [apply keeps_ret|apply keeps_files, fkeeps_fails]. Qed.

(** Operations that touch neither the entries nor the host. *)
Definition aside {A} (m : M FileDescriptors A) : Prop := forall f,
  wp m (fun _ f' => m_fds f' = m_fds f /\ fhost f' = fhost f /\ m_next_fd f' = m_next_fd f)
    (fun _ f' => m_fds f' = m_fds f /\ fhost f' = fhost f /\ m_next_fd f' = m_next_fd f) f.
Lemma holds_same L f f' : m_fds f' = m_fds f /\ fhost f' = fhost f /\ m_next_fd f' = m_next_fd f -> holds L f -> holds L f'.
Proof. intros (E1 & E2 & E3) [Hi Hn]. split; [unfold fds_inv; by rewrite E1, E2|]. intros v. rewrite E1, E3. apply Hn. Qed.
Lemma fkeeps_aside {A} (m : M FileDescriptors A) : aside m -> fkeeps m.
Proof. intros Hm L f Hf. eapply wp_mono; [apply Hm|..]; intros ? f' Hs; held; by apply (holds_same L f). Qed.
Lemma aside_socket_pair p : aside (add_socket_pair p).
Proof. intros f. unfold add_socket_pair, runtime_error, upd_fds. wp_pures. wp_step; [by wp_step|]. wp_step; by wp_step. Qed.
Lemma aside_epoll_entry vfd : aside (get_epoll_entry_for_vfd vfd).
Proof. intros f. unfold get_epoll_entry_for_vfd, upd_fds. wp_pures. destruct (m_epoll_fds f !! vfd); by wp_pures. Qed.
Lemma aside_record p op vfd ev : aside (record_event p op vfd ev).
Proof. intros f. by apply wp_modify. Qed.

Lemma fkeeps_epoll_ctl epfd op fd : fkeeps (host_epoll_ctl epfd op fd).
Proof.
  intros L f [Hi Hn]. assert (forall e, wp (fails e) (fun _ f' => kept L f') (fun e f' => kept_on e L f') f) as Hf
    by (intros; by apply fkeeps_fails).
  unfold host_epoll_ctl, set_interest, upd_host, upd_fds. wp_step. wp_step. case_decide as Ho; [|done].
  assert (forall l, kept L (set_fhost f (mkFdHost (open_fds (fhost f)) (<[epfd := l]> (interest (fhost f))) (errno (fhost f))))) as Hset.
  { intros l. apply holds_kept. split; [|done]. destruct Hi as [? ? ? ? ? ?]. split; try done. simpl. rewrite dom_insert_L. set_solver. }
  destruct (epoll_refusal _ _ _ _); [done|]. wp_step; [case_decide; [done|by wp_pures]|].
  wp_step; [case_decide; [by wp_pures|done]|]. wp_step; [|done]. case_decide; [wp_pures; by apply holds_kept|done].
Qed.

(** A call that creates one descriptor, and what follows it. *)
Definition creates (m : M FileDescriptors Z) : Prop := forall L f (Q : Z -> FileDescriptors -> Prop) X,
  holds L f -> (forall f', holds L f' -> Q (-1) f') ->
  (forall fd f', 2 < fd -> fd ∉ L -> holds ({[fd]} ∪ L) f' -> Q fd f') -> wp m Q X f.
Lemma creates_new rq : creates (host_new rq).
Proof.
  intros L f Q X [Hi Hn] HN HY. eapply host_new_wp; [done|..].
  - intros e He. by apply HN.
  - intros fd Hp Ho Hi'. apply HY; [done| |done]. intros Hx. apply Ho, (ti_total _ _ _ _ Hi). auto.
Qed.
Lemma creates_dup fd : creates (host_dup fd).
Proof.
  intros L f Q X [Hi Hn] HN HY. eapply host_dup_wp; [done|..].
  - intros e He. by apply HN.
  - intros n Hp Ho Hi'. apply HY; [done| |done]. intros Hx. apply Ho, (ti_total _ _ _ _ Hi). auto.
Qed.

(** Managing [fd] threw: it is closed, or the numbers have run out and it is left alone. *)
Definition unmanaged_on (e : exn) L fd f : Prop := holds L f \/ e = next_fd_overflow /\ holds ({[fd]} ∪ L) f.
Lemma unmanaged_kept e L fd f : unmanaged_on e L fd f -> kept_on e L f.
Proof. intros [H|[-> H]]; [by apply holds_kept_on|]. by exists ({[fd]} ∪ L). Qed.
Lemma unmanaged_holds e L fd f : unmanaged_on e L fd f -> exists L', holds L' f.
Proof. intros [H|[_ H]]; by eexists. Qed.
Lemma manage_holds L fd w f (Q : Z -> FileDescriptors -> Prop) X :
  holds ({[fd]} ∪ L) f -> fd ∉ L -> (forall v f', holds L f' -> Q v f') ->
  (forall e f', unmanaged_on e L fd f' -> X e f') -> wp (manage fd w) Q X f.
Proof.
  intros [Hi Hn] Hfd HQ HX. destruct (Hn (m_next_fd f)) as [Hnone _]; [lia|].
  assert (({[fd]} ∪ L) ∖ {[fd]} = L) as E by set_solver.
  eapply manage_wp; [done|set_solver|..].
  - rewrite displaced_None, union_empty_r_L, E by done. intros _ Hi'. apply HQ. split; [done|].
    intros v Hv. simpl in *. rewrite lookup_insert_ne by lia. apply Hn. lia.
  - rewrite E. intros e _ Hi'. apply HX. left. by split.
  - intros _. apply HX. by right.
Qed.
Lemma manage_bad w f (Q : Z -> FileDescriptors -> Prop) X : (forall e, X e f) -> wp (manage (-1) w) Q X f.
Proof. intros HX. apply wp_throw, HX. Qed.
Lemma manage_duplicate_holds L v0 fd w f : holds ({[fd]} ∪ L) f -> fd ∉ L ->
  wp (manage_duplicate v0 fd w) (fun _ f' => kept L f') (fun e f' => kept_on e L f') f.
Proof.
  intros Hf Hfd. unfold manage_duplicate. wp_step. eapply manage_holds; [done|done| |intros; by eapply unmanaged_kept].
  intros v f1 H1. wp_step; [wp_step; by held|]. wp_pures.
  destruct (m_epoll_fds f1 !! v0); [unfold upd_fds; wp_pures; by held|].
  wp_step. eapply wp_mono; [apply aside_socket_pair|..]; intros ? f2 H2; [wp_step|]; held; by apply (holds_same L f1).
Qed.

Lemma keeps_created {A} m (K : Z -> P A) : creates m ->
  keeps (K (-1)) ->
  (forall fd L s, 2 < fd -> fd ∉ L -> holds ({[fd]} ∪ L) (files s) ->
     wp (K fd) (fun _ s' => kept L (files s')) (fun e s' => kept_on e L (files s')) s) ->
  keeps (let! fd := on_files m in K fd).
Proof.
  intros Hm HN HY L s Hs. wp_step. apply wp_on_files. eapply Hm; [done|..].
  - intros f' Hf'. by apply HN.
  - intros fd f' Hp Hn Hf'. by apply HY.
Qed.
Lemma wp_keeps {A} (m : P A) L s : keeps m -> kept L (files s) ->
  wp m (fun _ s' => kept L (files s')) (fun e s' => kept_on e L (files s')) s.
Proof. intros Hm (L' & H' & E). eapply wp_mono; [by apply Hm|..]; intros ? ? ?; [by apply kept_as with L'|by apply kept_on_as with L']. Qed.
Lemma managed_keeps {A} fd w (k : Z -> P A) L s : fd ∉ L -> holds ({[fd]} ∪ L) (files s) -> (forall v, keeps (k v)) ->
  wp (let! v := on_files (manage fd w) in k v) (fun _ s' => kept L (files s')) (fun e s' => kept_on e L (files s')) s.
Proof.
  intros Hfd Hs Hk. wp_step. apply wp_on_files. eapply manage_holds; [done|done|..].
  - intros v f' Hf'. apply wp_keeps; [done|]. by apply holds_kept.
  - intros e f' Hf'. by eapply unmanaged_kept.
Qed.
Lemma keeps_unmanaged {A} w (k : Z -> P A) : keeps (let! v := on_files (manage (-1) w) in k v).
Proof. intros L s Hs. wp_step. apply wp_on_files, manage_bad. intros. by held. Qed.

Ltac keeps_seq :=
  lazymatch goal with
  | |- keeps (bind (on_files (host_new _)) _) => fail
  | |- keeps (bind (on_files (host_dup _)) _) => fail
  | |- keeps (bind _ _) => apply keeps_bind; [|intros ?]
  end.
Ltac keeps :=
  repeat first
    [ keeps_seq | apply keeps_if | apply keeps_when | apply keeps_ret | apply keeps_get
    | apply keeps_return | apply keeps_errno | apply keeps_io | apply keeps_mem
    | apply keeps_files; (apply fkeeps_translate || apply fkeeps_translate_writable || apply fkeeps_entry
        || apply fkeeps_epoll_ctl || (apply fkeeps_aside; (apply aside_socket_pair || apply aside_epoll_entry || apply aside_record))) ].

(** [new; if (fd < 0) error; else manage] *)
Lemma keeps_new_manage {A} m w (E : P A) (k : Z -> P A) : creates m -> keeps E -> (forall v, keeps (k v)) ->
  keeps (let! fd := on_files m in if fd <? 0 then E else let! v := on_files (manage fd w) in k v).
Proof.
  intros Hm HE Hk. apply keeps_created; [done|done|]. intros fd L s Hp Hn Hs.
  rewrite (proj2 (Z.ltb_ge fd 0)) by lia. by apply managed_keeps.
Qed.

Lemma keeps_socket : keeps sys_socket.
Proof. unfold sys_socket. keeps. apply keeps_new_manage; [apply creates_new|keeps|intros; keeps]. Qed.
Lemma keeps_epoll_create1 : keeps sys_epoll_create1.
Proof. apply keeps_new_manage; [apply creates_new|keeps|intros; keeps]. Qed.
Lemma keeps_eventfd2 : keeps sys_eventfd2.
Proof.
  apply keeps_created; [apply creates_new|apply keeps_unmanaged|]. intros. apply managed_keeps; [done|done|]. intros. keeps.
Qed.
Lemma keeps_timerfd : keeps sys_timerfd_create.
Proof.
  unfold sys_timerfd_create. apply keeps_bind; [keeps|intros]. apply keeps_created; [apply creates_new|apply keeps_unmanaged|].
  intros. apply managed_keeps; [done|done|]. intros. keeps.
Qed.
Lemma keeps_dup : keeps (sys_dup cb).
Proof.
  unfold sys_dup, fd_translate, or_ebadf. apply keeps_bind; [keeps|intros]. apply keeps_catch; [|keeps].
  apply keeps_bind; [keeps|intros]. apply keeps_new_manage; [apply creates_dup|keeps|intros; keeps].
Qed.
Lemma keeps_fcntl : keeps (sys_fcntl cb).
Proof.
  unfold sys_fcntl, fd_translate, fd_translate_writable, or_ebadf. apply keeps_bind; [keeps|intros].
  apply keeps_catch; [|keeps].
  assert (forall fd vfd w, keeps (let! new_fd := on_files (host_dup fd) in
    let! v := on_files (manage_duplicate vfd new_fd w) in return_rax v)) as Hdup.
  { intros fd vfd w. apply keeps_created; [apply creates_dup| |].
    - intros L s Hs. wp_step. apply wp_on_files. unfold manage_duplicate. wp_step. apply manage_bad. intros. by held.
    - intros n L s Hp Hn Hs. wp_step. apply wp_on_files. eapply wp_mono; [by apply manage_duplicate_holds|..|done].
      intros v f' Hf'. apply wp_keeps; [keeps|done]. }
  keeps; [|apply Hdup]. match goal with |- keeps (match ?e with _ => _ end) => destruct e end; [apply Hdup|keeps].
Qed.
Lemma keeps_open_as allowed refused vfd flags mode w path : keeps (open_as cb allowed refused vfd flags mode w path).
Proof.
  unfold open_as, fd_translate. keeps. destruct (allowed path) as [rp|]; [|keeps].
  apply keeps_created; [apply creates_new|simpl; keeps|]. intros fd L s Hp Hn Hs.
  rewrite (proj2 (Z.ltb_lt 0 fd)) by lia. apply managed_keeps; [done|done|]. intros. keeps.
Qed.
Lemma keeps_openat : keeps (sys_openat cb).
Proof.
  unfold sys_openat. apply keeps_bind; [keeps|intros]. apply keeps_bind; [keeps|intros].
  assert (forall a b c d e g h, keeps (try_catch (open_as cb a b c d e g h) (return_rax (-1)))) as Hw
    by (intros; apply keeps_catch; [apply keeps_open_as|keeps]).
  apply keeps_if; [apply Hw|]. apply keeps_catch; [apply keeps_open_as|]. apply keeps_bind; [keeps|]. intros. apply Hw.
Qed.
Lemma keeps_epoll_ctl : keeps (sys_epoll_ctl cb).
Proof. unfold sys_epoll_ctl, fd_translate. keeps. Qed.
Lemma keeps_listen : keeps (sys_listen cb).
Proof. unfold sys_listen, fd_translate_writable. keeps. Qed.
Lemma keeps_shutdown : keeps (sys_shutdown cb).
Proof. unfold sys_shutdown, fd_translate, or_ebadf. apply keeps_bind; [keeps|intros]. apply keeps_catch; keeps. Qed.

Hypothesis cbs : callbacks_ok.

Lemma free_holds vfd e L f : holds L f -> m_fds f !! vfd = Some e -> is_forked e = false ->
  wp (free (on_free cb) vfd)
    (fun reset f' => if reset then kept L f'
       else exists L', (real_fd e ∉ L') /\ holds ({[real_fd e]} ∪ L') f' /\ (plain -> L' = L))
    (fun e f' => kept_on e L f') f.
Proof.
  intros Hf Hv He. unfold free. wp_step. wp_step. wp_step.
  assert (forall f1 L1, holds L1 f1 -> m_fds f1 !! vfd = Some e -> (plain -> L1 = L) ->
    exists L', (real_fd e ∉ L') /\ holds ({[real_fd e]} ∪ L') (set_sockets (set_epoll (set_fds f1 (base.delete vfd (m_fds f1)))
      (base.delete vfd (m_epoll_fds f1)) (epoll_store f1) (next_epoll f1))
      (List.filter (fun p => negb ((vfd1 p =? vfd) || (vfd2 p =? vfd))) (m_sockets f1))) /\ (plain -> L' = L)) as Hdel.
  { intros f1 L1 [Hi1 Hn1] Hv1 HL1. exists L1. assert (owns (m_fds f1) vfd (real_fd e)) as Hown by (exists e; eauto).
    split_and!; [by apply (ti_owned _ _ _ _ Hi1 vfd)| |done]. split.
    - pose proof (inv_delete _ _ _ _ vfd Hi1) as Hx. unfold displaced in Hx. rewrite Hv1, He in Hx.
      by rewrite (union_comm_L L1) in Hx.
    - intros w Hw. simpl in *. destruct (Hn1 w Hw) as [Hnw ?]. split; [|done]. by rewrite lookup_delete_None; right. }
  destruct (on_free cb) as [fn|] eqn:Hcb.
  - rewrite Hv. eapply wp_mono; [by eapply (cb_free cbs)|..].
    + intros [] f1 (L1 & H1 & E1).
      * wp_step. exists L1. split; [done|]. intros [? _]. congruence.
      * unfold upd_fds. wp_pures. apply (Hdel f1 L1); [done|by rewrite E1|]. intros [? _]. congruence.
    + intros ex f1 (L1 & H1). exists L1. split; [done|]. intros [? _]. congruence.
  - wp_step. unfold upd_fds. wp_pures. by apply (Hdel f L).
Qed.
Lemma keeps_close : keeps (sys_close cb).
Proof.
  intros L s Hs. unfold sys_close. wp_step. wp_step. set (vfd := int32 _).
  wp_step; [by apply keeps_return|]. wp_step. apply wp_on_files. unfold entry_for_vfd. wp_step. wp_step. wp_step.
  destruct (m_fds (files s) !! vfd) as [e|] eqn:Hv; [|by apply keeps_return].
  wp_step; [by apply keeps_return|]. wp_step. apply wp_on_files. eapply wp_mono; [by apply (free_holds vfd e L)|..|done].
  intros [] f1 H1; [by wp_step|]. destruct H1 as (L' & Hnin & H1 & EL). wp_step. apply wp_on_files.
  eapply host_close_wp; [apply H1|set_solver|]. intros Hc. wp_step; [lia|]. apply wp_keeps; [apply keeps_return|].
  exists L'. split; [|done]. split; [|apply H1]. by replace (({[real_fd e]} ∪ L') ∖ {[real_fd e]}) with L' in Hc by set_solver.
Qed.

(** Calls with two descriptors, or with a guest write between creating and managing: an error
    half way can lose a descriptor. *)
Definition safe {A} (m : P (G := G) A) : Prop :=
  forall L s, holds L (files s) ->
    wp m (fun _ s' => exists L', holds L' (files s')) (fun _ s' => exists L', holds L' (files s')) s.
Lemma keeps_safe {A} (m : P A) : keeps m -> safe m.
Proof. intros Hm L s Hs. eapply wp_mono; [by apply Hm|..]; intros ? ? (L' & ? & _); by exists L'. Qed.
Lemma safe_pair rq addr ty : safe (let! p := on_files (host_pair rq) in
  match p with
  | None => return_errno
  | Some (a, b) =>
      let! v1 := on_files (manage a true) in
      let! v2 := on_files (manage b true) in
      on_mem (guest_write addr (int_pair v1 v2)) ;;;
      return_rax 0 ;;;
      on_files (add_socket_pair (mkPair v1 v2 ty))
  end).
Proof.
  intros L s [Hi Hn]. wp_step. apply wp_on_files. eapply host_pair_wp; [done|..].
  { intros e He. eapply keeps_safe; [apply keeps_errno|]. by split. }
  intros a b Hab Ha Hb f1 Hi1. wp_step. apply wp_on_files. eapply (manage_holds ({[b]} ∪ L)); [|set_solver|..].
  { split; [|exact Hn]. by replace ({[a]} ∪ ({[b]} ∪ L)) with ({[b]} ∪ ({[a]} ∪ L)) by set_solver. }
  2: { intros e f2 H2. by eapply unmanaged_holds. }
  intros v1 f2 H2. wp_step. apply wp_on_files. eapply (manage_holds L); [done|done|..].
  2: { intros e f3 H3. by eapply unmanaged_holds. }
  intros v2 f3 H3. revert H3. match goal with |- context [wp _ _ _ ?st] => change (holds L f3) with (holds L (files st)) end.
  apply keeps_safe. keeps.
Qed.
Lemma safe_accept4 : safe (sys_accept4 cb).
Proof.
  intros L s Hs. unfold sys_accept4, fd_translate_writable. wp_step. wp_step. wp_step.
  eapply wp_mono; [apply keeps_files; [apply fkeeps_translate_writable|done]|..].
  2: { intros ? ? (L' & ? & _). by exists L'. }
  intros fd s1 (L1 & H1 & _). wp_step; [wp_step; by exists L1|]. wp_step. apply wp_on_files.
  eapply creates_new; [done|..].
  { intros f2 H2. wp_step; [|lia]. by eapply keeps_safe; [apply keeps_errno|]. }
  intros n f2 Hn HnL H2. wp_step; [lia|]. set (s2 := mkFdOS _ _ _). change (holds ({[n]} ∪ L1) (files s2)) in H2.
  generalize dependent s2. intros s2 H2. wp_step.
  eapply (wp_mono _ (fun _ s' => holds ({[n]} ∪ L1) (files s')) _ (fun _ s' => holds ({[n]} ∪ L1) (files s'))).
  { wp_step; [|done]. unfold wp, on_mem. by destruct (guest_write _ _ _) as [[] ?]. }
  2: { intros ? ? ?. by eexists. }
  intros _ s3 H3. wp_step.
  eapply (wp_mono _ (fun _ s' => holds ({[n]} ∪ L1) (files s')) _ (fun _ s' => holds ({[n]} ∪ L1) (files s'))).
  { wp_step; [|done]. unfold wp, on_mem. by destruct (guest_write _ _ _) as [[] ?]. }
  2: { intros ? ? ?. by eexists. }
  intros _ s4 H4. wp_step. apply wp_on_files. destruct (accept_socket cb) as [fn|] eqn:Hcb.
  - eapply wp_mono; [eapply (cb_accept cbs); [done|exact H4|set_solver]|..|done].
    intros v f5 [L5 H5]. by eapply keeps_safe; [apply keeps_return|].
  - eapply (manage_holds L1); [done|done|..].
    + intros v f5 H5. by eapply keeps_safe; [apply keeps_return|].
    + intros e f5 H5. by eapply unmanaged_holds.
Qed.

(** The calls, and the machine's steps through them. *)
Inductive fd_call :=
| Close | Pipe2 | Dup | Socket | Listen | Accept4 | Socketpair | Shutdown | Fcntl | Openat
| Eventfd2 | Timerfd_create | Epoll_create1 | Epoll_ctl.
Definition handler (c : fd_call) : P (G := G) unit :=
  match c with
  | Close => sys_close cb | Pipe2 => sys_pipe2 | Dup => sys_dup cb | Socket => sys_socket | Listen => sys_listen cb
  | Accept4 => sys_accept4 cb | Socketpair => sys_socketpair | Shutdown => sys_shutdown cb | Fcntl => sys_fcntl cb
  | Openat => sys_openat cb | Eventfd2 => sys_eventfd2 | Timerfd_create => sys_timerfd_create
  | Epoll_create1 => sys_epoll_create1 | Epoll_ctl => sys_epoll_ctl cb
  end.
(** Between calls the guest runs: registers and memory are arbitrary. *)
Inductive fd_step : FdOS (G := G) -> FdOS (G := G) -> Prop :=
| step_guest s r g : fd_step s (mkFdOS r (files s) g)
| step_call c s res s' : handler c s = (res, s') -> fd_step s s'.

Lemma safe_handler c : safe (handler c).
Proof.
  destruct c; simpl; try (apply keeps_safe; by auto using keeps_close, keeps_dup, keeps_socket, keeps_listen, keeps_shutdown,
    keeps_fcntl, keeps_openat, keeps_eventfd2, keeps_timerfd, keeps_epoll_create1, keeps_epoll_ctl).
  all: try apply safe_accept4.
  all: intros L s Hs; (unfold sys_pipe2 || unfold sys_socketpair); wp_step; wp_step; by apply safe_pair with L.
Qed.

(** C21: whatever a guest does with the descriptor calls, in any order and with any arguments,
    every descriptor the machine did not create stays open, and each descriptor an entry owns is
    open, belongs to the machine, and has that entry as its only owner. *)
Theorem calls_never_close_foreign L s s' :
  holds L (files s) -> rtc fd_step s s' ->
  foreign ⊆ open_fds (fhost (files s')) /\
  (forall v fd, owns (m_fds (files s')) v fd -> fd ∈ open_fds (fhost (files s')) /\ fd ∉ foreign) /\
  (forall v w fd, owns (m_fds (files s')) v fd -> owns (m_fds (files s')) w fd -> v = w).
Proof.
  intros Hs Hr. assert (exists L', holds L' (files s')) as (L' & Hi & _).
  { revert L Hs. induction Hr as [s|s1 s2 s3 H12 _ IH]; intros L Hs; [by exists L|].
    destruct H12 as [s r g|c s res s' Hc]; [by eapply IH|].
    pose proof (wp_run _ _ _ _ _ _ (safe_handler c L s Hs) Hc) as Hx. destruct res; destruct Hx as [L' ?]; by eapply IH. }
  split_and!.
  - intros fd Hfd. apply (ti_total _ _ _ _ Hi). auto.
  - intros v fd Hown. split; [apply (ti_total _ _ _ _ Hi); eauto|by apply (ti_owned _ _ _ _ Hi v)].
  - intros v w fd. apply (ti_distinct _ _ _ _ Hi).
Qed.

(** Calls that create at most one descriptor and manage it at once. *)
Definition single (c : fd_call) : bool := match c with Pipe2 | Socketpair | Accept4 => false | _ => true end.

(** C22: no descriptor leaks.  Without embedder callbacks, a call that creates at most one
    descriptor and manages it at once ([single]: not [accept4], which writes to guest memory in
    between and loses the connection on a fault, and not [pipe2], [socketpair] and [dup2]) leaves
    no open descriptor without owner that had none before, whether it succeeds, fails with an
    error code or throws (limits reached, bad guest memory).  Only when the [int] counter of the
    numbers has run out is nothing said. *)
Theorem calls_lose_nothing L c s :
  plain -> single c = true -> holds L (files s) ->
  wp (handler c)
    (fun _ s' => forall fd, fd ∈ open_fds (fhost (files s')) <->
       fd ∈ foreign \/ fd ∈ L \/ exists v, owns (m_fds (files s')) v fd)
    (fun e s' => e <> next_fd_overflow -> forall fd, fd ∈ open_fds (fhost (files s')) <->
       fd ∈ foreign \/ fd ∈ L \/ exists v, owns (m_fds (files s')) v fd) s.
Proof.
  intros Hp Hc Hs. assert (keeps (handler c)) as Hk.
  { destruct c; simpl in *; try done; auto using keeps_close, keeps_dup, keeps_socket, keeps_listen, keeps_shutdown,
      keeps_fcntl, keeps_openat, keeps_eventfd2, keeps_timerfd, keeps_epoll_create1, keeps_epoll_ctl. }
  eapply wp_mono; [by apply Hk|..].
  - intros _ s' (L' & [Hi _] & EL) fd. rewrite (EL Hp) in Hi. apply (ti_total _ _ _ _ Hi).
  - intros e s' (L' & [Hi _] & EL) He fd. rewrite (EL Hp He) in Hi. apply (ti_total _ _ _ _ Hi).
Qed.
End safety.

(** ** Concrete runs *)

(** A guest whose memory ends at 0x200000 and holds the path [/x]. *)
#[export] Instance demo_guest : GuestMemory unit := {|
  guest_write a _ := if a <? 0x200000 then ret tt else throw (MemoryException "not writable" a 0 false);
  guest_read _ n := ret (replicate (Z.to_nat n) 0);
  guest_mmap _ := ret 0;
  guest_copy _ _ _ := ret tt |}.
#[export] Instance demo_strings : GuestStrings unit := {| guest_cstring _ _ := ret "/x" |}.
#[export] Instance demo_io : HostIo := {| host_io _ := inl 0; lock_data _ := []; peer_addr _ := replicate 16 0 |}.

Definition demo_cb : Callbacks := mkCallbacks demo_find None None None None (Some Some) (Some (fun _ => None)).
Definition call (rdi_ rsi_ rdx_ r10_ : Z) : x86regs := mkRegs 0 0 0 rdx_ rsi_ rdi_ 0 0 0 0 r10_ 0 0 0 0 0 0 0.
Definition with_regs (r : x86regs) (s : FdOS (G := unit)) : FdOS (G := unit) := mkFdOS r (files s) (mem s).
Definition demo_state : FdOS (G := unit) := mkFdOS (call 0 0 0 0) demo_table tt.
(** Run a handler with the given arguments. *)
Definition run (m : P (G := unit) unit) (r : x86regs) (s : FdOS (G := unit)) : FdOS (G := unit) := snd (m (with_regs r s)).

Lemma demo_holds : holds demo_cb demo_foreign ∅ (files demo_state).
Proof. exact demo_inv. Qed.
Lemma demo_callbacks_ok : callbacks_ok demo_cb demo_foreign.
Proof. split; done. Qed.

(** An event is created, duplicated with fcntl and closed. *)
Definition demo_after : FdOS (G := unit) :=
  run (sys_close demo_cb) (call 0x1000 0 0 0) (run (sys_fcntl demo_cb) (call 0x1000 F_DUPFD_CLOEXEC 0 0)
    (run sys_eventfd2 (call 0 0 0 0) demo_state)).
Lemma demo_reaches : rtc (fd_step demo_cb) demo_state demo_after.
Proof.
  assert (forall c s r, rtc (fd_step demo_cb) demo_state s -> rtc (fd_step demo_cb) demo_state (run (handler demo_cb c) r s)) as Hstep.
  { intros c s r Hs. eapply rtc_r; [eapply rtc_r; [exact Hs|apply (step_guest _ s r (mem s))]|].
    eapply (step_call _ c _ (fst (handler demo_cb c (with_regs r s)))).
    unfold run, with_regs. by destruct (handler demo_cb c _). }
  apply (Hstep Close), (Hstep Fcntl), (Hstep Eventfd2), rtc_refl.
Qed.
Lemma calls_never_close_foreign_witness :
  demo_foreign ⊆ open_fds (fhost (files demo_after)) /\ m_fds (files demo_after) !! 0x1001 = Some (mkEntry 7 true false).
Proof.
  split; [|vm_compute; reflexivity].
  exact (proj1 (calls_never_close_foreign demo_cb demo_foreign demo_callbacks_ok ∅ demo_state demo_after demo_holds demo_reaches)).
Defined.

(** [openat] with the table full: the new descriptor is closed again. *)
Definition demo_full : FdOS (G := unit) :=
  mkFdOS (call (W64 - 100) 0x5000 0 0) (set_limits demo_table 3 0 0) tt.
Lemma calls_lose_nothing_witness : rax (regs (snd (handler demo_cb Openat demo_full))) = neg64 EPERM /\
  (forall fd, fd ∈ open_fds (fhost (files (snd (handler demo_cb Openat demo_full)))) <->
   fd ∈ demo_foreign \/ fd ∈ (∅ : gset Z) \/ exists v, owns (m_fds (files (snd (handler demo_cb Openat demo_full)))) v fd).
Proof.
  split; [vm_compute; reflexivity|].
  assert (handler demo_cb Openat demo_full = (Ok tt, snd (handler demo_cb Openat demo_full))) as E by run_of.
  exact (wp_run _ _ _ _ _ _ (calls_lose_nothing demo_cb demo_foreign demo_callbacks_ok ∅ Openat demo_full
    (conj eq_refl eq_refl) eq_refl demo_inv) E).
Defined.

(** [dup2] registers the number it has just closed instead of the duplicate: with a lower number
    free (6, closed before) the target stands for the closed 8, and the duplicate 6 is lost. *)
Example dup2_registers_closed_fd :
  let open := run sys_eventfd2 (call 0 0 0 0) in
  let s := run (sys_close demo_cb) (call 0x1000 0 0 0) (open (open (open demo_state))) in
  let s' := run (sys_dup2 demo_cb) (call 0x1001 0x1002 0 0) s in
  rax (regs s') = 0x1002 /\ m_fds (files s') !! 0x1002 = Some (mkEntry 8 false false) /\
  bool_decide (8 ∈ open_fds (fhost (files s'))) = false /\ bool_decide (6 ∈ open_fds (fhost (files s'))) = true.
Proof. vm_compute. done. Qed.

(** [dup2] onto a descriptor of the master closes the master's real descriptor (10). *)
Example dup2_closes_masters_fd :
  let s := run sys_eventfd2 (call 0 0 0 0) demo_state in
  let s' := run (sys_dup2 demo_cb) (call 0x1000 0x800 0 0) s in
  bool_decide (10 ∈ open_fds (fhost (files s))) = true /\ bool_decide (10 ∈ open_fds (fhost (files s'))) = false.
Proof. vm_compute. done. Qed.

(** [pipe2] at the limit loses the second end (7): it is open and nobody's. *)
Example pipe2_leaks_at_limit :
  let s' := run sys_pipe2 (call 0x5000 0 0 0) demo_full in
  bool_decide (6 ∈ open_fds (fhost (files s'))) = false /\ bool_decide (7 ∈ open_fds (fhost (files s'))) = true /\
  bool_decide (base.size (m_fds (files s')) = 3)%nat = true.
Proof. vm_compute. done. Qed.

(** [accept4] with an unwritable address loses the connection (6). *)
Example accept4_leaks_on_fault :
  let s' := run (sys_accept4 demo_cb) (call 0x800 0x300000 0 0) demo_state in
  bool_decide (6 ∈ open_fds (fhost (files s'))) = true /\ m_fds (files s') !! 0x1000 = None.
Proof. vm_compute. done. Qed.
