(* ===== verification/GuestCopy.v ===== *)
(** * Copies between the host and guest memory

    lib/tinykvm/machine_utils.cpp: zeroing, copying to and from a guest, between guests,
    buffers over guest ranges, views and C strings.  All of them walk a virtual range page by
    page and go through the page walks of [Paging] and [Fork].

    The range is cut by [page_chunks]; [page_chunks_eq] is the equation of the C++ loops
    ([while (len != 0)] with [size = min(PageSize - offset, len)]), so the loops run over this
    list.  The first part gives the byte view of the host words. *)
From stdpp Require Import base tactics list numbers strings gmap.
From Stdlib Require Import ZArith Lia Bool.
From S2P Require Import Prelude Host MemoryBanks VMemory Paging ForkIsolation MakeCow PageSetup Fork.
Local Open Scope Z_scope.

(** ** Bytes of host memory *)

Definition ld8 (h : heap) (p : Z) : Z := Z.land (Z.shiftr (ld64 h p) (8 * (p mod 8))) 255.
Definition st8 (h : heap) (p v : Z) : heap :=
  let k := 8 * (p mod 8) in
  st64 h p (Z.lor (Z.ldiff (ld64 h p) (Z.shiftl 255 k)) (Z.shiftl (v mod 256) k)).
Fixpoint load_bytes (h : heap) (p : Z) (n : nat) : list Z :=
  match n with O => [] | S n' => ld8 h p :: load_bytes h (p + 1) n' end.
Fixpoint store_bytes (h : heap) (p : Z) (l : list Z) : heap :=
  match l with [] => h | v :: l' => store_bytes (st8 h p v) (p + 1) l' end.

(** ** Cutting a range at page boundaries *)

Definition PageMask : Z := PAGE_SIZE - 1.
Definition page_of (addr : Z) : Z := addr .& not64 PageMask.
Definition offset_of (addr : Z) : Z := addr .& PageMask.

(** A piece of the range: its page, the offset in it, the size, and how far into the range. *)
Record Chunk := mkChunk { ck_page : Z; ck_offset : Z; ck_size : Z; ck_pos : Z }.

Fixpoint chunks (fuel : nat) (addr len pos : Z) : list Chunk :=
  match fuel with
  | O => []
  | S fuel' =>
      if len =? 0 then []
      else
        let offset := offset_of addr in
        let size := Z.min (PAGE_SIZE - offset) len in
        mkChunk (page_of addr) offset size pos :: chunks fuel' (addr ⊕ size) (len - size) (pos + size)
  end.
(** Every piece has at least one byte. *)
Definition page_chunks (addr len : Z) : list Chunk := chunks (Z.to_nat len) addr len 0.

(** A [Buffer] or [WrBuffer]: pointer and length. *)
Abbreviation Buffer := (Z * Z)%type.

Section copies.
Context `{os : HostOS}.

Definition uses_cow_memory (m : vMemory) : bool := m_forked m || m_prepped m.

Definition bytes_at (p n : Z) : M VM (list Z) := gets (fun s => load_bytes (h_heap (vhost s)) p (Z.to_nat n)).
(** [memcpy(p, data, ...)] *)
Definition put_bytes (p : Z) (data : list Z) : M VM unit := on_pages (fun h => store_bytes h p data).

(** ** Zeroing *)

(** [page_at] with a callback that looks at the dirty bit; the captured variable starts false. *)
Definition page_is_dirty (addr : Z) : M VM bool := fun s =>
  let cb (_ ep _ : Z) : M (VM * bool) unit :=
    fun st => (Ok tt, (fst st, any_bit (ld64 (h_heap (vhost (fst st))) ep) PDE64_DIRTY)) in
  match page_at_walk fst addr cb true (s, false) with
  | (Ok _, (s', b)) => (Ok b, s')
  | (Err e, (s', _)) => (Err e, s')
  end.

Definition memzero (addr len : Z) : M VM unit :=
  for_each (page_chunks addr len) (fun c =>
    let! must_be_zeroed := page_is_dirty (ck_page c) in
    when must_be_zeroed
      (let! s := get in
       let! page := get_writable_page (ck_page c) (expectedUsermodeFlags (vm s)) true false in
       put_bytes (page + ck_offset c) (replicate (Z.to_nat (ck_size c)) 0))).

(** ** Copying *)

Definition slice (data : list Z) (c : Chunk) : list Z := take (Z.to_nat (ck_size c)) (drop (Z.to_nat (ck_pos c)) data).

Definition copy_chunk_to (data : list Z) (zeroes : bool) (c : Chunk) : M VM unit :=
  let! s := get in
  let! page := writable_page_at (ck_page c) (expectedUsermodeFlags (vm s)) (mkWPO zeroes (ck_size c =? PAGE_SIZE)) in
  set_dirty page ;;;
  put_bytes (wp_page page + ck_offset c) (slice data c).
Definition copy_to_guest (addr : Z) (data : list Z) (zeroes : bool) : M VM unit :=
  for_each (page_chunks addr (Z.of_nat (length data))) (copy_chunk_to data zeroes).

Fixpoint read_chunks (page_for : Z -> M VM Z) (l : list Chunk) : M VM (list Z) :=
  match l with
  | [] => ret []
  | c :: l' =>
      let! page := page_for (ck_page c) in
      let! b := bytes_at (page + ck_offset c) (ck_size c) in
      let! rest := read_chunks page_for l' in
      ret (b ++ rest)
  end.

Definition copy_from_guest (addr len : Z) : M VM (list Z) :=
  let! s := get in
  if uses_cow_memory (vm s) || negb (safely_within (vm s) addr len) then
    read_chunks get_userpage_at (page_chunks addr len)
  else
    let! src := lift (safely_at_const (vm s) addr len) in
    bytes_at src len.

Definition unsafe_copy_from_guest (addr len : Z) : M VM (list Z) :=
  let! s := get in
  if uses_cow_memory (vm s) || negb (safely_within (vm s) addr len) then
    read_chunks get_kernelpage_at (page_chunks addr len)
  else
    let! src := lift (at_ (vm s) addr len) in
    bytes_at src len.

(** ** Buffers over a range: pointers and lengths, contiguous ones merged *)

(** The buffers so far, the last one first. *)
Definition add_buffer (ptr size : Z) (acc : list Buffer) : list Buffer :=
  match acc with
  | (p, n) :: acc' => if ptr =? p + n then (p, n + size) :: acc' else (ptr, size) :: acc
  | [] => [(ptr, size)]
  end.

Fixpoint gather_loop (l : list Chunk) (acc : list Buffer) : M VM (list Buffer) :=
  match l with
  | [] => ret (rev acc)
  | c :: l' =>
      let! page := get_userpage_at (ck_page c) in
      gather_loop l' (add_buffer (page + ck_offset c) (ck_size c) acc)
  end.
Definition gather_buffers_from_range (addr len : Z) : M VM (list Buffer) := gather_loop (page_chunks addr len) [].

(** The variant with an array of [cnt] buffers. *)
Fixpoint gather_array_loop (cnt : Z) (l : list Chunk) (acc : list Buffer) : M VM (list Buffer) :=
  match l with
  | [] => ret (rev acc)
  | c :: l' =>
      if Z.of_nat (length acc) <? cnt then
        let! page := get_userpage_at (ck_page c) in
        gather_array_loop cnt l' (add_buffer (page + ck_offset c) (ck_size c) acc)
      else throw (MemoryException "Out of buffers" (Z.of_nat (length acc)) cnt false)
  end.
Definition gather_array_from_range (cnt addr len : Z) : M VM (list Buffer) := gather_array_loop cnt (page_chunks addr len) [].

(** Writable buffers follow the real size of each page (4K or 2MB). *)
Fixpoint writable_loop (fuel : nat) (addr len : Z) (acc : list Buffer) : M VM (list Buffer) :=
  if len =? 0 then ret (rev acc)
  else
    match fuel with
    | O => throw OutOfFuel
    | S fuel' =>
        let! s := get in
        let! wpage := writable_page_at (page_of addr) (expectedUsermodeFlags (vm s)) default_wpo in
        if wp_page wpage =? 0 then
          throw (MemoryException "Failed to allocate writable page for range" addr PAGE_SIZE false)
        else
          set_dirty wpage ;;;
          let offset4k := offset_of addr in
          let offset := addr .& (wp_size wpage - 1) in
          let size := Z.min (wp_size wpage - offset) len in
          let page := wp_page wpage - offset + offset4k in
          writable_loop fuel' (addr ⊕ size) (len - size) (add_buffer (page + offset) size acc)
    end.
Definition writable_buffers_from_range (addr len : Z) : M VM (list Buffer) := writable_loop (Z.to_nat len) addr len [].

(** ** Copying between machines: [src] is the memory of the other machine *)

Definition put_piece (addr ptr : Z) (c : Chunk) : M VM unit :=
  let! s := get in
  let! page := get_writable_page (ck_page c) (expectedUsermodeFlags (vm s)) false false in
  let! b := bytes_at (ptr + ck_pos c) (ck_size c) in
  put_bytes (page + ck_offset c) b.

Fixpoint put_buffers (cow : bool) (addr : Z) (l : list Buffer) : M VM unit :=
  match l with
  | [] => ret tt
  | (ptr, n) :: l' =>
      (if cow then for_each (page_chunks addr n) (put_piece addr ptr)
       else
         let! s := get in
         let! dst := lift (safely_at (vm s) addr n) in
         let! b := bytes_at ptr n in
         put_bytes dst b) ;;;
      put_buffers cow (addr ⊕ n) l'
  end.

(** Reading through another machine's tables leaves them alone. *)
Definition on_other {A} (src : vMemory) (op : M VM A) : M VM A :=
  fun s => let (r, s') := op (mkVM (vhost s) src) in (r, mkVM (vhost s') (vm s)).

Definition copy_from_machine (addr : Z) (src : vMemory) (sa len : Z) : M VM unit :=
  let! buffers := on_other src (gather_buffers_from_range sa len) in
  let! s := get in
  put_buffers (uses_cow_memory (vm s)) addr buffers.

(** ** Views and strings *)

Inductive StringOrView := View (ptr len : Z) | Str (bytes : list Z).

(** The loop after the first page: the view so far, or the string once it was broken. *)
Fixpoint view_loop (l : list Chunk) (ptr len : Z) (str : list Z) : M VM StringOrView :=
  match l with
  | [] => ret (if 0 <? len then View ptr len else Str str)
  | c :: l' =>
      let! page := get_userpage_at (ck_page c) in
      let p := page + ck_offset c in
      let! b := bytes_at p (ck_size c) in
      if len =? 0 then view_loop l' ptr len (str ++ b)
      else if negb (p =? ptr + len) then
        let! head := bytes_at ptr len in view_loop l' ptr 0 (head ++ b)
      else view_loop l' ptr (len + ck_size c) str
  end.
(** The first page is looked up even for an empty range. *)
Definition first_chunk (addr len : Z) : Chunk :=
  mkChunk (page_of addr) (offset_of addr) (Z.min (PAGE_SIZE - offset_of addr) len) 0.
Definition rest_chunks (addr len : Z) : list Chunk :=
  let size := ck_size (first_chunk addr len) in page_chunks (addr ⊕ size) (len - size).

Definition string_or_view (src len : Z) : M VM StringOrView :=
  let c := first_chunk src len in
  let! page := get_userpage_at (ck_page c) in
  view_loop (rest_chunks src len) (page + ck_offset c) (ck_size c) [].

Fixpoint memview_loop (l : list Chunk) (src ptr len : Z) : M VM Buffer :=
  match l with
  | [] => ret (ptr, len)
  | c :: l' =>
      let! s := get in
      let! page := get_writable_page (ck_page c) (expectedUsermodeFlags (vm s)) false true in
      if page + ck_offset c =? ptr + len then memview_loop l' (src ⊕ ck_size c) ptr (len + ck_size c)
      else throw (MachineException "Memory not sequential" src)
  end.
Definition writable_memview (src len : Z) : M VM Buffer :=
  let c := first_chunk src len in
  let! s := get in
  let! page := get_writable_page (ck_page c) (expectedUsermodeFlags (vm s)) false true in
  memview_loop (rest_chunks src len) (src ⊕ ck_size c) (page + ck_offset c) (ck_size c).

(** The callback gets the bytes of each view; they are collected here. *)
Fixpoint foreach_loop (l : list Chunk) (ptr len : Z) (out : list (list Z)) : M VM (list (list Z)) :=
  match l with
  | [] => if len =? 0 then ret out else let! v := bytes_at ptr len in ret (out ++ [v])
  | c :: l' =>
      let! page := get_userpage_at (ck_page c) in
      if page + ck_offset c =? ptr + len then foreach_loop l' ptr (len + ck_size c) out
      else
        let! v := bytes_at ptr len in
        foreach_loop l' 0 0 (out ++ [v])
  end.
Definition foreach_memory (src len : Z) : M VM (list (list Z)) :=
  let c := first_chunk src len in
  let! page := get_userpage_at (ck_page c) in
  foreach_loop (rest_chunks src len) (page + ck_offset c) (ck_size c) [].

(** The bytes before the first zero. *)
Fixpoint until_zero (l : list Z) : list Z :=
  match l with [] => [] | b :: l' => if b =? 0 then [] else b :: until_zero l' end.

Fixpoint cstring_loop (l : list Chunk) : M VM (list Z) :=
  match l with
  | [] => ret []
  | c :: l' =>
      let! page := get_userpage_at (ck_page c) in
      let! b := bytes_at (page + ck_offset c) (ck_size c) in
      let s := until_zero b in
      if (length s <? length b)%nat then ret s
      else let! rest := cstring_loop l' in ret (s ++ rest)
  end.
Definition memcstring (src maxlen : Z) : M VM (list Z) := cstring_loop (page_chunks src maxlen).

(** [copy_from_cstring] reads [max_size] bytes from the offset, beyond the end of the page. *)
Fixpoint copy_cstring_loop (fuel : nat) (src maxlen : Z) (result : list Z) : M VM (list Z) :=
  if maxlen <=? Z.of_nat (length result) then ret result
  else
    match fuel with
    | O => throw OutOfFuel
    | S fuel' =>
        let max_size := Z.min PAGE_SIZE (maxlen - Z.of_nat (length result)) in
        let offset := offset_of src in
        let! page := get_userpage_at (page_of src) in
        let! b := bytes_at (page + offset) max_size in
        let s := until_zero b in
        if offset + Z.of_nat (length s) <? max_size then ret (result ++ s)
        else copy_cstring_loop fuel' (src ⊕ max_size) maxlen (result ++ s)
    end.
(** An empty string at an offset beyond [maxlen] makes no progress, so the number of rounds is
    an argument. *)
Definition copy_from_cstring (fuel : nat) (src maxlen : Z) : M VM (list Z) := copy_cstring_loop fuel src maxlen [].

Definition buffer_to_string (src len maxlen : Z) : M VM (list Z) :=
  if maxlen <? len then throw (MachineException "String buffer too large" len)
  else copy_from_guest src len.
End copies.

(** ** Facts about bytes *)

Section bytes.
Implicit Types (h : heap) (p q : Z).

Lemma ld8_range h p : 0 <= ld8 h p < 256.
Proof. unfold ld8. change 255 with (2 ^ 8 - 1). rewrite land_ones_mod by lia. apply Z.mod_pos_bound. lia. Qed.

Lemma byte_mask n k : 0 <= k -> 0 <= n -> Z.testbit (Z.shiftl 255 k) n = ((k <=? n) && (n <? k + 8)).
Proof.
  intros Hk Hn. rewrite Z.shiftl_spec by done. change 255 with (Z.ones 8). destruct (k <=? n) eqn:E1; simpl.
  - destruct (n <? k + 8) eqn:E2; [rewrite Z.ones_spec_low by lia|rewrite Z.ones_spec_high by lia]; done.
  - by rewrite Z.testbit_neg_r by lia.
Qed.
Lemma byte_bits v n k : 0 <= k -> 0 <= n ->
  Z.testbit (Z.shiftl (v mod 256) k) n = ((k <=? n) && (n <? k + 8) && Z.testbit v (n - k)).
Proof.
  intros Hk Hn. rewrite Z.shiftl_spec by done. change 256 with (2 ^ 8). destruct (k <=? n) eqn:E1; simpl.
  - destruct (n <? k + 8) eqn:E2; [rewrite Z.mod_pow2_bits_low by lia|rewrite Z.mod_pow2_bits_high by lia]; done.
  - by rewrite Z.testbit_neg_r by lia.
Qed.

(** A byte of the word at the same place. *)
Lemma st8_byte w v i j : 0 <= i < 8 -> 0 <= j < 8 ->
  Z.land (Z.shiftr (Z.lor (Z.ldiff w (Z.shiftl 255 (8 * i))) (Z.shiftl (v mod 256) (8 * i))) (8 * j)) 255 =
  if decide (i = j) then v mod 256 else Z.land (Z.shiftr w (8 * j)) 255.
Proof.
  intros Hi Hj. apply Z.bits_inj'. intros n Hn. rewrite Z.land_spec, Z.shiftr_spec, Z.lor_spec, Z.ldiff_spec by done.
  rewrite byte_mask, byte_bits by lia. change 255 with (Z.ones 8). destruct (decide (n < 8)).
  - rewrite Z.ones_spec_low, andb_true_r by lia. destruct (decide (i = j)) as [->|].
    + rewrite (proj2 (Z.leb_le _ _)), (proj2 (Z.ltb_lt _ _)) by lia. simpl. rewrite andb_false_r. simpl.
      change 256 with (2 ^ 8). rewrite Z.mod_pow2_bits_low by lia. f_equal. lia.
    + rewrite Z.land_spec, Z.shiftr_spec, Z.ones_spec_low, andb_true_r by lia.
      assert ((8 * i <=? n + 8 * j) && (n + 8 * j <? 8 * i + 8) = false) as -> by lia.
      simpl. by rewrite andb_true_r, orb_false_r.
  - rewrite Z.ones_spec_high, andb_false_r by lia. destruct (decide (i = j)).
    + change 256 with (2 ^ 8). by rewrite Z.mod_pow2_bits_high by lia.
    + by rewrite Z.land_spec, Z.ones_spec_high, andb_false_r by lia.
Qed.

Lemma ld8_st8 h p q v : ld8 (st8 h p v) q = if decide (p = q) then v mod 256 else ld8 h q.
Proof.
  unfold ld8, st8. destruct (decide (p / 8 = q / 8)) as [E|E].
  - assert (forall w, ld64 (st64 h p w) q = w) as -> by (intros w; unfold ld64, st64; rewrite E; by rewrite lookup_insert_eq).
    assert (ld64 h p = ld64 h q) as -> by (unfold ld64; by rewrite E).
    rewrite st8_byte by (apply Z.mod_pos_bound; lia). destruct (decide (p = q)) as [->|Hne].
    + by rewrite decide_True by done.
    + rewrite decide_False by dlia. done.
  - rewrite decide_False by congruence. f_equal. f_equal. unfold ld64, st64. by rewrite lookup_insert_ne by done.
Qed.

Lemma ld8_store_bytes h p l q :
  ld8 (store_bytes h p l) q =
    if decide (p <= q < p + Z.of_nat (length l)) then nth (Z.to_nat (q - p)) l 0 mod 256 else ld8 h q.
Proof.
  revert h p. induction l as [|v l IH]; intros h p; cbn [store_bytes length].
  - by rewrite decide_False by lia.
  - rewrite IH, ld8_st8. destruct (decide (p = q)) as [->|].
    + rewrite decide_False, decide_True by lia. by rewrite Z.sub_diag.
    + destruct (decide (p + 1 <= q < _)).
      * rewrite decide_True by lia. replace (Z.to_nat (q - p)) with (S (Z.to_nat (q - (p + 1)))) by lia. done.
      * by rewrite decide_False by lia.
Qed.

Lemma length_load_bytes h p n : length (load_bytes h p n) = n.
Proof. revert p. induction n; simpl; auto. Qed.
Lemma nth_load_bytes h p n i : (i < n)%nat -> nth i (load_bytes h p n) 0 = ld8 h (p + Z.of_nat i).
Proof.
  revert p i. induction n as [|n IH]; intros p [|i] Hi; cbn [load_bytes nth]; try lia.
  - by rewrite Z.add_0_r.
  - rewrite IH by lia. f_equal. lia.
Qed.

(** Words outside the bytes keep their value. *)
Lemma ld64_st8_other h p v q : aligned8 q -> ~ (q <= p < q + 8) -> ld64 (st8 h p v) q = ld64 h q.
Proof. intros Hq Hn. unfold st8, ld64, st64. rewrite lookup_insert_ne; [done|]. unfold aligned8 in *. dlia. Qed.
Lemma ld64_store_bytes_other h p l q : aligned8 q -> q + 8 <= p \/ p + Z.of_nat (length l) <= q ->
  ld64 (store_bytes h p l) q = ld64 h q.
Proof.
  revert h p. induction l as [|v l IH]; intros h p Hq Hn; cbn [store_bytes length] in *; [done|].
  rewrite IH by (done || lia). apply ld64_st8_other; [done|lia].
Qed.
End bytes.

(** ** The cut of a range *)

Lemma offset_of_mod a : offset_of a = a mod 4096.
Proof. apply (land_ones_mod a 12). lia. Qed.
Lemma page_of_div a : u64 a -> page_of a = a / 4096 * 4096.
Proof. intros Ha. by apply (land_not_ones a 12). Qed.
Lemma page_offset a : u64 a -> page_of a + offset_of a = a.
Proof. intros Ha. rewrite page_of_div, offset_of_mod by done. dlia. Qed.

Lemma first_size a len : 0 < len -> 0 < Z.min (PAGE_SIZE - offset_of a) len <= len.
Proof. intros. rewrite offset_of_mod. unfold PAGE_SIZE. pose proof (Z.mod_pos_bound a 4096). lia. Qed.

Lemma chunks_fuel n n' addr len pos : 0 <= len -> (Z.to_nat len <= n)%nat -> (Z.to_nat len <= n')%nat ->
  chunks n addr len pos = chunks n' addr len pos.
Proof.
  revert n' addr len pos. induction n as [|n IH]; intros [|n'] addr len pos Hl Hn Hn'; cbn [chunks].
  - done.
  - by rewrite (proj2 (Z.eqb_eq len 0)) by lia.
  - by rewrite (proj2 (Z.eqb_eq len 0)) by lia.
  - destruct (len =? 0) eqn:E; [done|]. f_equal.
    pose proof (first_size addr len). apply IH; lia.
Qed.

(** The equation of the loops. *)
Lemma page_chunks_eq addr len : 0 <= len ->
  page_chunks addr len =
    if len =? 0 then []
    else
      let size := Z.min (PAGE_SIZE - offset_of addr) len in
      mkChunk (page_of addr) (offset_of addr) size 0 :: chunks (Z.to_nat (len - size)) (addr ⊕ size) (len - size) size.
Proof.
  intros Hl. unfold page_chunks. destruct (Z.to_nat len) as [|n] eqn:En; cbn [chunks].
  - by rewrite (proj2 (Z.eqb_eq len 0)) by lia.
  - destruct (len =? 0) eqn:E; [done|]. simpl. f_equal. pose proof (first_size addr len). apply chunks_fuel; lia.
Qed.

(** ** Reading page by page is reading byte by byte *)

(** The byte at a virtual address, as a walk with [flags] sees it. *)
Definition byte_view (flags : Z) (s : VM) (a : Z) : result Z :=
  match fst (get_page_at flags (page_of a) s) with
  | Ok p => Ok (ld8 (h_heap (vhost s)) (p + offset_of a))
  | Err e => Err e
  end.
(** [n] bytes, one after the other; the first failure ends it. *)
Fixpoint read_bytes (flags : Z) (s : VM) (a : Z) (n : nat) : result (list Z) :=
  match n with
  | O => Ok []
  | S n' =>
      match byte_view flags s a with
      | Err e => Err e
      | Ok b => match read_bytes flags s (a ⊕ 1) n' with Ok l => Ok (b :: l) | Err e => Err e end
      end
  end.

Section reading.
Implicit Types (s : VM).

Definition pure_at {A} (m : M VM A) s : Prop := wp m (fun _ s' => s' = s) (fun _ s' => s' = s) s.
Lemma pure_run {A} (m : M VM A) s : pure_at m s -> m s = (fst (m s), s).
Proof. unfold pure_at, wp. destruct (m s) as [[] s']; simpl; by intros ->. Qed.

Lemma readable_pure a flags s : pure_at (readable_page_at a flags) s.
Proof.
  unfold pure_at, readable_page_at, memory_exception. wp_step. wp_step.
  assert (forall b k, (forall p, wp (k p) (fun (_ : Z) s' => s' = s) (fun _ s' => s' = s) s) ->
    wp (let! p := resolve b in k p) (fun _ s' => s' = s) (fun _ s' => s' = s) s) as Hres.
  { intros b k Hk. wp_step. by apply wp_resolve; [intros p _; apply Hk|]. }
  assert (forall b k, (forall e, wp (k e) (fun (_ : Z) s' => s' = s) (fun _ s' => s' = s) s) ->
    wp (let! e := rd b in k e) (fun _ s' => s' = s) (fun _ s' => s' = s) s) as Hrd.
  { intros b k Hk. wp_step. apply wp_rd, Hk. }
  apply Hres. intros pml4. apply Hrd. intros e4. wp_step; [|by wp_step]. cbn [pdpt_from_index].
  apply Hres. intros pdpt. apply Hrd. intros e3. wp_step; [|by wp_step]. cbn [pd_from_index].
  apply Hres. intros pd. apply Hrd. intros e2. wp_step; [|by wp_step]. cbn [pt_from_index].
  apply Hres. intros pt. wp_step; [by wp_step|]. apply Hrd. intros e1. wp_step; [|by wp_step].
  cbn [pte_from_index]. by apply wp_resolve.
Qed.
Lemma get_page_pure flags a : forall m s, vm s = m -> pure_at (get_page_in m flags a) s.
Proof.
  fix IH 1. intros m s Hm. destruct m as [? ? ? ? ? ? ? ? ? ? ? ? ? ? ? ? ? ? ? ? ? ? ? ? [r|]]; cbn [get_page_in remote].
  - destruct (is_foreign_address _ a); [|apply readable_pure]. pose proof (pure_run _ _ (IH r (mkVM (vhost s) r) eq_refl)) as Hr.
    unfold pure_at, wp, on_remote. rewrite Hr. destruct s as [h v]; simpl in *; subst v; by destruct (fst _).
  - apply readable_pure.
Qed.
Lemma get_page_at_pure flags a s : get_page_at flags a s = (fst (get_page_at flags a s), s).
Proof. apply pure_run. unfold pure_at, get_page_at. wp_step. wp_step. by apply get_page_pure. Qed.

Lemma add64_step a n : u64 a -> 0 <= n -> offset_of a + n < 4096 ->
  a ⊕ n = a + n /\ page_of (a ⊕ n) = page_of a /\ offset_of (a ⊕ n) = offset_of a + n /\ u64 (a ⊕ n).
Proof.
  intros Ha Hn Ho. rewrite offset_of_mod in Ho.
  assert (a ⊕ n = a + n) as E by (apply add64_small; unfold u64 in *; dlia). rewrite E.
  assert (u64 (a + n)) by (unfold u64 in *; dlia). split_and!; [done|..|done].
  - rewrite !page_of_div by done. dlia.
  - rewrite !offset_of_mod. dlia.
Qed.
Lemma add64_assoc a x y : u64 a -> 0 <= x -> 0 <= y -> a ⊕ x ⊕ y = a ⊕ (x + y).
Proof. intros. unfold add64, wrap64. rewrite Zplus_mod_idemp_l. f_equal. lia. Qed.

(** Bytes of one page. *)
Lemma read_page_bytes flags s p n m a : u64 a -> offset_of a + Z.of_nat n <= 4096 ->
  (0 < n)%nat -> fst (get_page_at flags (page_of a) s) = Ok p ->
  read_bytes flags s a (n + m) =
    match read_bytes flags s (a ⊕ Z.of_nat n) m with
    | Ok l => Ok (load_bytes (h_heap (vhost s)) (p + offset_of a) n ++ l)
    | Err e => Err e
    end.
Proof.
  revert a. induction n as [|n IH]; intros a Ha Ho Hn Hp; [lia|]. cbn [read_bytes Nat.add load_bytes].
  unfold byte_view at 1. rewrite Hp. destruct n as [|n].
  - change (Z.of_nat 1) with 1. cbn [Nat.add load_bytes app]. by destruct (read_bytes flags s (a ⊕ 1) m).
  - destruct (add64_step a 1) as (E1 & E2 & E3 & E4); [done|lia|lia|].
    rewrite IH by (done || lia || congruence).
    rewrite add64_assoc by (done || lia). replace (1 + Z.of_nat (S n)) with (Z.of_nat (S (S n))) by lia.
    rewrite E3, Z.add_assoc. by destruct (read_bytes flags s (a ⊕ Z.of_nat (S (S n))) m).
Qed.

Lemma read_chunks_bytes flags s n addr len pos : u64 addr -> 0 <= len -> (Z.to_nat len <= n)%nat ->
  read_chunks (get_page_at flags) (chunks n addr len pos) s = (read_bytes flags s addr (Z.to_nat len), s).
Proof.
  revert addr len pos. induction n as [|n IH]; intros addr len pos Ha Hl Hn; cbn [chunks].
  - by replace (Z.to_nat len) with 0%nat by lia.
  - destruct (len =? 0) eqn:E; [by replace len with 0 by lia|]. cbn [read_chunks ck_page ck_offset ck_size].
    pose proof (first_size addr len) as Hf. set (size := Z.min (PAGE_SIZE - offset_of addr) len) in *.
    assert (0 < size <= len) as Hs by lia. assert (offset_of addr + size <= 4096) as Ho by (unfold size, PAGE_SIZE; lia).
    unfold bind at 1. rewrite get_page_at_pure.
    replace (Z.to_nat len) with (Z.to_nat size + Z.to_nat (len - size))%nat by lia.
    destruct (fst (get_page_at flags (page_of addr) s)) as [p|e] eqn:Ep.
    + unfold bind at 1, bytes_at, gets. unfold bind at 1. rewrite IH by (apply wrap64_u64 || lia).
      rewrite (read_page_bytes _ _ p) by (done || lia). rewrite Z2Nat.id by lia.
      by destruct (read_bytes flags s (addr ⊕ size) (Z.to_nat (len - size))).
    + replace (Z.to_nat size) with (S (Z.to_nat (size - 1))) by lia. cbn [read_bytes Nat.add]. unfold byte_view. by rewrite Ep.
Qed.
End reading.

(** C23: on a machine with copy-on-write memory, [copy_from_guest], which copies page by page,
    is the byte-by-byte reading of the range through the page tables: the same bytes, or the
    error of the first byte that cannot be read; it changes nothing.  Ranges that wrap around
    the address space included. *)
Theorem copy_from_guest_bytes s addr len : uses_cow_memory (vm s) = true -> u64 addr -> 0 <= len ->
  copy_from_guest addr len s = (read_bytes (PDE64_PRESENT .| PDE64_USER) s addr (Z.to_nat len), s).
Proof. intros Hc Ha Hl. unfold copy_from_guest, bind, get. rewrite Hc. by apply read_chunks_bytes. Qed.

(** ** The other readers of a range *)

Abbreviation user_flags := (PDE64_PRESENT .| PDE64_USER).

Definition buffers_bytes (h : heap) (l : list Buffer) : list Z :=
  concat (map (fun b => load_bytes h (fst b) (Z.to_nat (snd b))) l).
Definition view_bytes (h : heap) (v : StringOrView) : list Z :=
  match v with View p n => load_bytes h p (Z.to_nat n) | Str b => b end.
(** The bytes before the first zero byte; bytes after it are not looked at. *)
Fixpoint cstring_bytes (s : VM) (a : Z) (n : nat) : result (list Z) :=
  match n with
  | O => Ok []
  | S n' =>
      match byte_view user_flags s a with
      | Err e => Err e
      | Ok b =>
          if b =? 0 then Ok []
          else match cstring_bytes s (a ⊕ 1) n' with Ok l => Ok (b :: l) | Err e => Err e end
      end
  end.

Section readers.
Implicit Types (s : VM) (h : heap).

(** A reader agrees with the bytes of the range when it succeeds, and fails as they do. *)
Definition agrees {A} (f : A -> list Z) (r : result A) (b : result (list Z)) : Prop :=
  match r, b with Ok x, Ok l => f x = l | Err e, Err e' => e = e' | _, _ => False end.

Lemma load_bytes_app h p n m : load_bytes h p (n + m) = load_bytes h p n ++ load_bytes h (p + Z.of_nat n) m.
Proof.
  revert p. induction n as [|n IH]; intros p; cbn [Nat.add load_bytes app]; [by rewrite Z.add_0_r|].
  rewrite IH. do 2 f_equal. f_equal. lia.
Qed.
Lemma load_bytes_next h p n m : 0 <= n -> 0 <= m ->
  load_bytes h p (Z.to_nat (n + m)) = load_bytes h p (Z.to_nat n) ++ load_bytes h (p + n) (Z.to_nat m).
Proof. intros. rewrite Z2Nat.inj_add, load_bytes_app by done. by rewrite Z2Nat.id. Qed.

Lemma add_buffer_bytes h p n acc : 0 <= n -> Forall (fun b => 0 <= snd b) acc ->
  buffers_bytes h (rev (add_buffer p n acc)) = buffers_bytes h (rev acc) ++ load_bytes h p (Z.to_nat n) /\
  Forall (fun b => 0 <= snd b) (add_buffer p n acc).
Proof.
  intros Hn Ha. unfold buffers_bytes. destruct acc as [|[q k] acc]; cbn [add_buffer].
  - split; [simpl; by rewrite app_nil_r|by repeat constructor].
  - inversion_clear Ha as [|? ? Hk Ha']. simpl in Hk. destruct (p =? q + k) eqn:E.
    + assert (p = q + k) as -> by lia. split; [|constructor; [simpl; lia|done]].
      cbn [rev]. rewrite !map_app, !concat_app. cbn [map concat fst snd]. rewrite load_bytes_next by done.
      by rewrite !app_nil_r, app_assoc.
    + split; [|repeat constructor; done]. cbn [rev]. rewrite !map_app, !concat_app. cbn [map concat fst snd].
      rewrite ?app_nil_r, <- ?app_assoc. done.
Qed.

Lemma chunks_sizes n addr len pos : 0 <= len -> Forall (fun c => 0 < ck_size c) (chunks n addr len pos).
Proof.
  revert addr len pos. induction n as [|n IH]; intros addr len pos Hl; cbn [chunks]; [done|].
  destruct (len =? 0) eqn:E; [done|]. pose proof (first_size addr len). constructor; [simpl; lia|apply IH; lia].
Qed.

Lemma gather_loop_bytes s l acc : Forall (fun c => 0 < ck_size c) l -> Forall (fun b => 0 <= snd b) acc ->
  snd (gather_loop l acc s) = s /\
  agrees (buffers_bytes (h_heap (vhost s))) (fst (gather_loop l acc s))
    (match fst (read_chunks get_userpage_at l s) with
     | Ok b => Ok (buffers_bytes (h_heap (vhost s)) (rev acc) ++ b) | Err e => Err e end).
Proof.
  revert acc. induction l as [|c l IH]; intros acc Hl Ha; cbn [gather_loop read_chunks].
  - simpl. by rewrite app_nil_r.
  - inversion_clear Hl as [|? ? Hc Hl']. unfold bind, get_userpage_at, bytes_at, gets. rewrite get_page_at_pure.
    destruct (fst (get_page_at _ _ s)) as [p|e]; [|done].
    destruct (add_buffer_bytes (h_heap (vhost s)) (p + ck_offset c) (ck_size c) acc) as [Hb Hs]; [lia|done|].
    destruct (IH _ Hl' Hs) as [E1 E2]. split; [done|]. unfold get_userpage_at in E2.
    destruct (read_chunks _ l s) as [[b|e] s']; simpl in E2 |- *; [|done]. by rewrite app_assoc, <- Hb.
Qed.

Lemma view_loop_bytes s l p n str : Forall (fun c => 0 < ck_size c) l -> 0 <= n -> n = 0 \/ str = [] ->
  snd (view_loop l p n str s) = s /\
  agrees (view_bytes (h_heap (vhost s))) (fst (view_loop l p n str s))
    (match fst (read_chunks get_userpage_at l s) with
     | Ok b => Ok ((load_bytes (h_heap (vhost s)) p (Z.to_nat n) ++ str) ++ b) | Err e => Err e end).
Proof.
  revert n str. induction l as [|c l IH]; intros n str Hl Hn Hs; cbn [view_loop read_chunks].
  - simpl. rewrite app_nil_r. split; [done|]. destruct (0 <? n) eqn:E; simpl.
    + destruct Hs as [->| ->]; [lia|by rewrite app_nil_r].
    + by replace n with 0 by lia.
  - inversion_clear Hl as [|? ? Hc Hl']. unfold bind, get_userpage_at, bytes_at, gets. rewrite get_page_at_pure.
    destruct (fst (get_page_at _ _ s)) as [q|e]; [|done]. unfold get_userpage_at in IH.
    destruct (n =? 0) eqn:E0; [|destruct (negb _) eqn:E1].
    + assert (n = 0) as -> by lia.
      destruct (IH 0 (str ++ load_bytes (h_heap (vhost s)) (q + ck_offset c) (Z.to_nat (ck_size c))) Hl') as [H1 H2]; [lia|by left|].
      split; [done|]. destruct (read_chunks _ l s) as [[b|e] s']; simpl in H2 |- *; [|done]. by rewrite <- app_assoc in H2.
    + destruct Hs as [->| ->]; [lia|].
      destruct (IH 0 (load_bytes (h_heap (vhost s)) p (Z.to_nat n) ++ load_bytes (h_heap (vhost s)) (q + ck_offset c) (Z.to_nat (ck_size c))) Hl') as [H1 H2]; [lia|by left|].
      split; [done|]. destruct (read_chunks _ l s) as [[b|e] s']; simpl in H2 |- *; [|done]. by rewrite app_nil_r, app_assoc.
    + destruct Hs as [->| ->]; [lia|]. apply negb_false_iff, Z.eqb_eq in E1.
      destruct (IH (n + ck_size c) [] Hl') as [H1 H2]; [lia|by right|]. split; [done|].
      destruct (read_chunks _ l s) as [[b|e] s']; simpl in H2 |- *; [|done].
      rewrite load_bytes_next in H2 by lia. rewrite E1, app_nil_r in *. by rewrite app_assoc.
Qed.

Lemma string_or_view_bytes s a len : u64 a -> 0 < len ->
  snd (string_or_view a len s) = s /\
  agrees (view_bytes (h_heap (vhost s))) (fst (string_or_view a len s)) (read_bytes user_flags s a (Z.to_nat len)).
Proof.
  intros Ha Hl. pose proof (first_size a len Hl) as Hf. unfold string_or_view, first_chunk, bind, get_userpage_at.
  cbn [ck_page ck_offset ck_size]. unfold rest_chunks, first_chunk. cbn [ck_size].
  set (size := Z.min (PAGE_SIZE - offset_of a) len) in *. rewrite get_page_at_pure.
  assert (offset_of a + size <= 4096) as Ho by (unfold size, PAGE_SIZE; lia).
  replace (Z.to_nat len) with (Z.to_nat size + Z.to_nat (len - size))%nat by lia.
  destruct (fst (get_page_at _ _ s)) as [p|e] eqn:Ep.
  - destruct (view_loop_bytes s (page_chunks (a ⊕ size) (len - size)) (p + offset_of a) size []) as [H1 H2];
      [apply chunks_sizes; lia|lia|by right|]. split; [done|].
    rewrite (read_page_bytes _ _ p) by (done || lia). rewrite Z2Nat.id by lia. unfold page_chunks, get_userpage_at in *.
    rewrite read_chunks_bytes, app_nil_r in H2 by (apply wrap64_u64 || lia). exact H2.
  - split; [done|]. replace (Z.to_nat size) with (S (Z.to_nat (size - 1))) by lia.
    cbn [read_bytes Nat.add]. unfold byte_view. by rewrite Ep.
Qed.

Lemma cstring_page_bytes s p n m a : u64 a -> offset_of a + Z.of_nat n <= 4096 ->
  (0 < n)%nat -> fst (get_page_at user_flags (page_of a) s) = Ok p ->
  let b := load_bytes (h_heap (vhost s)) (p + offset_of a) n in
  cstring_bytes s a (n + m) =
    if (length (until_zero b) <? length b)%nat then Ok (until_zero b)
    else match cstring_bytes s (a ⊕ Z.of_nat n) m with Ok l => Ok (until_zero b ++ l) | Err e => Err e end.
Proof.
  revert a. induction n as [|n IH]; intros a Ha Ho Hn Hp; [lia|]. cbn [cstring_bytes Nat.add load_bytes until_zero length].
  unfold byte_view at 1. rewrite Hp. destruct (ld8 _ _ =? 0) eqn:E0; [done|]. destruct n as [|n].
  - change (Z.of_nat 1) with 1. simpl. by destruct (cstring_bytes s (a ⊕ 1) m).
  - destruct (add64_step a 1) as (E1 & E2 & E3 & E4); [done|lia|lia|].
    rewrite IH by (done || lia || congruence). rewrite E3, Z.add_assoc, add64_assoc by (done || lia).
    replace (1 + Z.of_nat (S n)) with (Z.of_nat (S (S n))) by lia. cbn zeta.
    set (b := load_bytes _ _ _). change (length (ld8 (h_heap (vhost s)) (p + offset_of a) :: until_zero b)) with (S (length (until_zero b))).
    change (S (length (until_zero b)) <? S (length b))%nat with (length (until_zero b) <? length b)%nat.
    destruct (length (until_zero b) <? length b)%nat; [done|].
    by destruct (cstring_bytes s (a ⊕ Z.of_nat (S (S n))) m).
Qed.

Lemma cstring_loop_bytes s n a len pos : u64 a -> 0 <= len -> (Z.to_nat len <= n)%nat ->
  cstring_loop (chunks n a len pos) s = (cstring_bytes s a (Z.to_nat len), s).
Proof.
  revert a len pos. induction n as [|n IH]; intros a len pos Ha Hl Hn; cbn [chunks].
  - by replace (Z.to_nat len) with 0%nat by lia.
  - destruct (len =? 0) eqn:E; [by replace len with 0 by lia|]. cbn [cstring_loop ck_page ck_offset ck_size].
    pose proof (first_size a len) as Hf. set (size := Z.min (PAGE_SIZE - offset_of a) len) in *.
    assert (0 < size <= len) as Hs by lia. assert (offset_of a + size <= 4096) as Ho by (unfold size, PAGE_SIZE; lia).
    unfold bind at 1, get_userpage_at. rewrite get_page_at_pure.
    replace (Z.to_nat len) with (Z.to_nat size + Z.to_nat (len - size))%nat by lia.
    destruct (fst (get_page_at _ (page_of a) s)) as [p|e] eqn:Ep.
    + rewrite (cstring_page_bytes _ p) by (done || lia). rewrite Z2Nat.id by lia.
      unfold bind at 1, bytes_at, gets. cbn zeta. destruct (_ <? _)%nat; [done|].
      unfold bind at 1. rewrite IH by (apply wrap64_u64 || lia).
      by destruct (cstring_bytes s (a ⊕ size) (Z.to_nat (len - size))).
    + replace (Z.to_nat size) with (S (Z.to_nat (size - 1))) by lia. cbn [cstring_bytes Nat.add]. unfold byte_view. by rewrite Ep.
Qed.
End readers.

(** C24: the buffers that [gather_buffers_from_range] hands out (contiguous pages merged) and the
    view or string of [string_or_view] hold exactly the bytes of the range, in order, whatever
    way the pages lie in host memory; both fail exactly when the bytes cannot be read, with the
    same error, and change nothing. *)
Theorem range_views_bytes s addr len : u64 addr -> 0 < len ->
  (snd (gather_buffers_from_range addr len s) = s /\
   agrees (buffers_bytes (h_heap (vhost s))) (fst (gather_buffers_from_range addr len s))
     (read_bytes user_flags s addr (Z.to_nat len))) /\
  (snd (string_or_view addr len s) = s /\
   agrees (view_bytes (h_heap (vhost s))) (fst (string_or_view addr len s))
     (read_bytes user_flags s addr (Z.to_nat len))).
Proof.
  intros Ha Hl. split; [|by apply string_or_view_bytes].
  pose proof (gather_loop_bytes s (page_chunks addr len) [] (chunks_sizes (Z.to_nat len) addr len 0 ltac:(lia)) (Forall_nil_2 _)) as H.
  unfold page_chunks, get_userpage_at in H. rewrite read_chunks_bytes in H by (done || lia).
  unfold gather_buffers_from_range. destruct (read_bytes _ s addr _); exact H.
Qed.

(** [memcstring] is the bytes of the range up to the first zero byte, or [maxlen] of them:
    it crosses pages and does not need the pages after the terminator to be readable. *)
Theorem memcstring_bytes s src maxlen : u64 src -> 0 <= maxlen ->
  memcstring src maxlen s = (cstring_bytes s src (Z.to_nat maxlen), s).
Proof. intros Ha Hl. unfold memcstring. by apply cstring_loop_bytes. Qed.

(** ** Writing to a fork *)

Section writing.
Context `{os : HostOS} `{laws : !HostLaws os}.
Implicit Types (s : VM) (Ψ : typing).

Lemma usermode_flags_write m : any_bit (expectedUsermodeFlags m) PDE64_RW = true.
Proof. unfold expectedUsermodeFlags. by destruct (executable_heap m). Qed.

Lemma store_data_bytes Ψ s p off l : fork_inv Ψ s -> Ψ p = Some 0%nat -> 0 <= off -> off + Z.of_nat (length l) <= 4096 ->
  step_ok Ψ s Ψ (with_heap s (store_bytes (h_heap (vhost s)) (p + off) l)).
Proof.
  intros Hinv Hp Ho Hl. destruct (typed_page _ _ _ _ Hinv Hp) as (Hal&_&Hown).
  destruct (fork_inv_write Ψ s (store_bytes (h_heap (vhost s)) (p + off) l) p) as [??]; [done|done| | |by split_and!].
  - intros q Hq Hout. apply ld64_store_bytes_other; [done|]. unfold in_page, aligned8 in *. dlia.
  - intros n Hn. congruence.
Qed.

Lemma chunks_fit n addr len pos c : 0 <= len -> c ∈ chunks n addr len pos ->
  0 <= ck_offset c /\ 0 < ck_size c /\ ck_offset c + ck_size c <= 4096.
Proof.
  revert addr len pos. induction n as [|n IH]; intros addr len pos Hl; cbn [chunks]; [intros []%elem_of_nil|].
  destruct (len =? 0) eqn:E; [intros []%elem_of_nil|]. pose proof (first_size addr len) as Hf.
  intros [->|Hc]%elem_of_cons; [|by eapply IH; [|exact Hc]; lia]. simpl.
  pose proof (Z.mod_pos_bound addr 4096). rewrite offset_of_mod in *. unfold PAGE_SIZE in *. lia.
Qed.

Lemma slice_length data c : 0 <= ck_size c -> Z.of_nat (length (slice data c)) <= ck_size c.
Proof. intros. unfold slice. rewrite length_take. lia. Qed.

Lemma copy_chunk_to_wp Ψ s data z c : fork_inv Ψ s -> 0 <= ck_offset c -> 0 < ck_size c -> ck_offset c + ck_size c <= 4096 ->
  wp (copy_chunk_to data z c) (fun _ s' => exists Ψ', step_ok Ψ s Ψ' s') (fun _ s' => main_unchanged s s') s.
Proof.
  intros Hinv Ho Hs Hf. unfold copy_chunk_to. wp_step. wp_step. wp_step.
  eapply wp_mono; [by apply writable_page_at_wp| |done]. intros w s1 (Ψ1&Hst1&Hw).
  destruct (Hw (usermode_flags_write (vm s))) as [Hp He]. wp_step.
  eapply set_dirty_spec; [apply Hst1|done|]. intros s2 Hst2. apply wp_on_pages.
  exists Ψ1. eapply step_ok_trans; [by eapply step_ok_trans|]. apply store_data_bytes; [apply Hst2|done|done|].
  pose proof (slice_length data c). lia.
Qed.

Lemma copy_to_guest_wp Ψ s addr data z : fork_inv Ψ s ->
  wp (copy_to_guest addr data z) (fun _ s' => exists Ψ', step_ok Ψ s Ψ' s') (fun _ s' => main_unchanged s s') s.
Proof.
  intros Hinv. unfold copy_to_guest. apply (wp_for_each (fun _ t => exists Ψ', step_ok Ψ s Ψ' t)).
  - exists Ψ. by apply step_ok_refl.
  - intros dn c rest t E (Ψ1&Hst). assert (c ∈ page_chunks addr (Z.of_nat (length data))) as Hc by (rewrite E; set_solver).
    apply chunks_fit in Hc as (Ho&Hs&Hf); [|lia].
    eapply wp_mono; [by apply copy_chunk_to_wp; [apply Hst|..]|intros _ s' (Ψ2&Hst2)|intros e s' Hmu].
    + exists Ψ2. by eapply step_ok_trans.
    + eapply main_unchanged_trans; [apply Hst|done].
  - done.
Qed.
End writing.

(** Copying to a fork only ever changes memory of the fork: whatever the address, the data
    and the options, and also when a page cannot be made writable half way, no word of the
    memory shared with the master changes, and the fork is still a fork afterwards. *)
Theorem copy_to_guest_isolated `{os : HostOS} `{laws : !HostLaws os} Ψ s addr data z : fork_inv Ψ s ->
  wp (copy_to_guest addr data z)
    (fun _ s' => main_unchanged s s' /\ exists Ψ', fork_inv Ψ' s')
    (fun _ s' => main_unchanged s s') s.
Proof.
  intros Hinv. eapply wp_mono; [by apply copy_to_guest_wp| |done]. intros _ s' (Ψ'&?&_&?). eauto.
Qed.

(** ** On the small machine *)

#[local] Existing Instance demo_host.
#[local] Existing Instance demo_laws.

(** Two adjacent virtual pages of the fork, written in the other order, so that they do not lie
    next to each other in host memory. *)
Definition demo_pages : VM :=
  snd (copy_to_guest 0x203ffe [7; 8] false (snd (copy_to_guest 0x204000 [9; 0; 5] false demo_fork))).

Example demo_pages_read :
  fst (copy_from_guest 0x203ffe 5 demo_pages) = Ok [7; 8; 9; 0; 5] /\
  fst (memcstring 0x203ffe 64 demo_pages) = Ok [7; 8; 9] /\
  fst (string_or_view 0x203ffe 5 demo_pages) = Ok (Str [7; 8; 9; 0; 5]) /\
  match fst (gather_buffers_from_range 0x203ffe 5 demo_pages) with Ok l => length l | Err _ => 0%nat end = 2%nat.
Proof. split_and!; vm_compute; reflexivity. Qed.

Lemma copy_from_guest_bytes_witness : uses_cow_memory (vm demo_pages) = true /\
  copy_from_guest 0x203ffe 5 demo_pages = (read_bytes user_flags demo_pages 0x203ffe 5, demo_pages).
Proof.
  split; [vm_compute; reflexivity|].
  apply (copy_from_guest_bytes demo_pages 0x203ffe 5); [vm_compute; reflexivity|unfold u64; lia|lia].
Defined.

Lemma range_views_bytes_witness :
  (snd (gather_buffers_from_range 0x203ffe 5 demo_pages) = demo_pages /\
   agrees (buffers_bytes (h_heap (vhost demo_pages))) (fst (gather_buffers_from_range 0x203ffe 5 demo_pages))
     (read_bytes user_flags demo_pages 0x203ffe 5)) /\
  (snd (string_or_view 0x203ffe 5 demo_pages) = demo_pages /\
   agrees (view_bytes (h_heap (vhost demo_pages))) (fst (string_or_view 0x203ffe 5 demo_pages))
     (read_bytes user_flags demo_pages 0x203ffe 5)).
Proof. apply (range_views_bytes demo_pages 0x203ffe 5); [unfold u64; lia|lia]. Defined.

Lemma memcstring_bytes_witness :
  cstring_bytes demo_pages 0x203ffe 64 = Ok [7; 8; 9] /\
  memcstring 0x203ffe 64 demo_pages = (cstring_bytes demo_pages 0x203ffe 64, demo_pages).
Proof.
  split; [vm_compute; reflexivity|]. apply (memcstring_bytes demo_pages 0x203ffe 64); [unfold u64; lia|lia].
Defined.

Lemma copy_to_guest_isolated_witness : exists Ψ, fork_inv Ψ demo_fork /\
  wp (copy_to_guest 0x203ffe [7; 8; 9] false)
    (fun _ s' => main_unchanged demo_fork s' /\ exists Ψ', fork_inv Ψ' s')
    (fun _ s' => main_unchanged demo_fork s') demo_fork.
Proof.
  destruct demo_fork_inv as [Ψ Hinv]. exists Ψ. split; [exact Hinv|].
  exact (copy_to_guest_isolated Ψ demo_fork 0x203ffe [7; 8; 9] false Hinv).
Defined.

(** [foreach_memory] passes on the view before a gap, then starts an empty one: the page after
    the gap is never passed on. *)
Example foreach_memory_drops_bytes :
  fst (copy_from_guest 0x203ffe 5 demo_pages) = Ok [7; 8; 9; 0; 5] /\
  fst (foreach_memory 0x203ffe 5 demo_pages) = Ok [[7; 8]].
Proof. split; vm_compute; reflexivity. Qed.

(** A fork of a master whose page holds data: zeroing one byte of it zeroes the page. *)
Definition demo_full_master : VM :=
  snd (prepare_copy_on_write 0 0 false demo_sregs (snd (copy_to_guest 0x204000 [9; 8; 7; 6] false demo_vm))).
Definition demo_full_fork : VM := snd (Machine_fork demo_fork_options (vm demo_full_master) demo_sregs demo_full_master).

Example memzero_wipes_page :
  fst (copy_from_guest 0x204000 4 demo_full_fork) = Ok [9; 8; 7; 6] /\
  fst (copy_from_guest 0x204000 4 (snd (memzero 0x204000 1 demo_full_fork))) = Ok [0; 0; 0; 0].
Proof. split; vm_compute; reflexivity. Qed.

(** [copy_from_cstring] compares the end of the string with [page + max_size] and not with the
    end of what it read: a string that starts beyond [max_size] in its page is read again from
    behind its terminator. *)
Example copy_from_cstring_runs_on :
  fst (memcstring 0x203ffe 8 demo_pages) = Ok [7; 8; 9] /\
  fst (copy_from_cstring 3 0x204000 2 (snd (copy_to_guest 0x204000 [65; 0; 66; 0; 67; 0] false demo_fork))) = Ok [65] /\
  fst (copy_from_cstring 4 0x204008 2 (snd (copy_to_guest 0x204008 [65; 0; 66; 0; 67; 0] false demo_fork))) = Ok [65; 66].
Proof. split_and!; vm_compute; reflexivity. Qed.

(** [copy_from_machine] into a machine that is not copy-on-write writes to its memory without
    marking the page dirty: a fork made later reads the bytes, until it writes anywhere in the
    page and gets a zeroed page instead of a copy. *)
Definition demo_received : VM :=
  let s := snd (copy_to_guest 0x204000 [7; 8] false demo_vm) in snd (copy_from_machine 0x206000 (vm s) 0x204000 2 s).
Definition demo_received_fork : VM :=
  let master := snd (prepare_copy_on_write 0 0 false demo_sregs demo_received) in
  snd (Machine_fork demo_fork_options (vm master) demo_sregs master).
Example copy_from_machine_not_dirty :
  fst (copy_from_guest 0x206000 2 demo_received) = Ok [7; 8] /\
  fst (copy_from_guest 0x206000 2 demo_received_fork) = Ok [7; 8] /\
  fst (copy_from_guest 0x206000 2 (snd (copy_to_guest 0x206100 [1] false demo_received_fork))) = Ok [0; 0].
Proof. split_and!; vm_compute; reflexivity. Qed.
