(* ===== verification/GuestStores.v ===== *)
(** * What the guest itself can write

    The guest of a fork writes to memory without asking the host: the CPU walks the page tables
    and stores into whatever page the walk ends in.  This file models that walk on the tables
    the code of [Paging], [MakeCow] and [Fork] builds, and shows that a store the CPU lets
    through cannot end outside the fork's own data pages.

    The walk takes 4-level tables with 4K and 2MB pages.  A 2MB entry whose address is not
    2MB-aligned and a 1GB page fault (the code makes neither).  Physical memory is what the
    machine has given to KVM, main memory and banks, as [page_at] finds it.  The CPU also sets
    accessed and dirty bits in the entries it uses; these are not part of the model.

    The walk respects read-only entries, as the CPU does for user-mode stores and, while CR0.WP
    is set, for all stores.  [setup_cow_mode] clears CR0.WP: the last part shows what a store
    of the guest's kernel then does. *)
From stdpp Require Import base tactics list numbers strings gmap relations.
From Stdlib Require Import ZArith Lia Bool.
From S2P Require Import Prelude MMap Host MemoryBanks VMemory Paging ForkIsolation MakeCow PageSetup Fork GuestCopy.
Local Open Scope Z_scope.

(** ** The walk *)

(** Bits 12 to 51 of an entry. *)
Definition FRAME_MASK : Z := 2 ^ 52 - 2 ^ 12.
Definition frame (E : Z) : Z := E .& FRAME_MASK.
Definition table_index (n : nat) (vaddr : Z) : Z := (vaddr .>> (12 + 9 * Z.of_nat (pred n))) .& 511.
(** The offset, in pages, of the address in the page of a leaf at level [n]. *)
Definition leaf_index (n : nat) (vaddr : Z) : Z := match n with 2%nat => (vaddr .>> 12) .& 511 | _ => 0 end.
Definition leaf_aligned (n : nat) (E : Z) : bool :=
  match n with 2%nat => frame E .& (2 ^ 21 - 1) =? 0 | 1%nat => true | _ => false end.
(** A leaf of the hardware: PS ends the walk at level 3 as well. *)
Definition hw_leaf (n : nat) (E : Z) : bool :=
  match n with 1%nat => true | 2%nat | 3%nat => any_bit E PDE64_PS | _ => false end.

(** The host page behind a virtual address, when every entry on the way has the bits [need]. *)
Fixpoint hw_walk (n : nat) (need : Z) (m : vMemory) (h : heap) (table vaddr : Z) : option Z :=
  match n with
  | O => None
  | S n' =>
      let E := ld64 h (table + 8 * table_index n vaddr) in
      if negb (is_flagged_page need E) then None
      else if hw_leaf n E then
        if leaf_aligned n E then
          match page_at m (frame E + 4096 * leaf_index n vaddr) with Ok p => Some p | Err _ => None end
        else None
      else match page_at m (frame E) with Ok t => hw_walk n' need m h t vaddr | Err _ => None end
  end.

Definition hw_page (need : Z) (s : VM) (vaddr : Z) : option Z :=
  match page_at (vm s) (page_tables (vm s)) with
  | Ok root => hw_walk 4 need (vm s) (h_heap (vhost s)) root vaddr
  | Err _ => None
  end.

(** A store that the CPU lets through: every entry is present and writable. *)
Definition WRITE_BITS : Z := PDE64_PRESENT .| PDE64_RW.
Definition guest_store (vaddr : Z) (bytes : list Z) (s : VM) : option VM :=
  if offset_of vaddr + Z.of_nat (length bytes) <=? PAGE_SIZE then
    match hw_page WRITE_BITS s vaddr with
    | Some p => Some (with_heap s (store_bytes (h_heap (vhost s)) (p + offset_of vaddr) bytes))
    | None => None
    end
  else None.

(** ** The walk of a store ends in the fork's own data *)

Lemma frame_target n E : target n E < 2 ^ 52 -> frame E = target n E.
Proof.
  intros Hlt. destruct (target_aligned n E) as [_ [H0 _]].
  assert (target n E mod 2 ^ 52 = target n E) as <- by (apply Z.mod_small; lia).
  rewrite <- land_ones_mod by lia. unfold target, frame.
  destruct n as [|[|[|[|[]]]]]; rewrite <- Z.land_assoc; f_equal; vm_compute; reflexivity.
Qed.

Lemma write_bits E : is_flagged_page WRITE_BITS E = true -> any_bit E PDE64_PRESENT = true /\ any_bit E PDE64_RW = true.
Proof.
  unfold is_flagged_page, any_bit. intros H%Z.eqb_eq.
  assert (forall b, WRITE_BITS .& b = b -> b <> 0 -> negb (E .& b =? 0) = true) as Hb.
  { intros b Hb Hn. apply negb_true_iff, Z.eqb_neq. intros H0. apply Hn.
    rewrite <- Hb, <- H, <- Z.land_assoc, Hb. done. }
  split; by apply Hb.
Qed.

Lemma writable_not_cow E : any_bit E PDE64_RW = true -> is_copy_on_write E = false.
Proof.
  unfold any_bit, is_copy_on_write. intros H%negb_true_iff%Z.eqb_neq. apply Z.eqb_neq. intros H'. apply H.
  apply (f_equal (fun x => x .& PDE64_RW)) in H'. rewrite <- Z.land_assoc in H'.
  change ((PDE64_CLONEABLE .| PDE64_RW) .& PDE64_RW) with PDE64_RW in H'. by rewrite H'.
Qed.

Lemma table_index_bound n a : 0 <= table_index n a < 512.
Proof. apply index_bound. Qed.

Section stores.
Implicit Types (Ψ : typing) (s : VM).

Lemma bank_target_small Ψ s a p : fork_inv Ψ s -> u64 a -> bank_target (vm s) a p -> a < 2 ^ 52.
Proof.
  intros Hinv Hu [_ Hb]. unfold bank_lookup in Hb. destruct (List.find _ _) as [b|] eqn:E; [|done].
  apply List.find_some in E as [Hin%list_elem_of_In Hw]. pose proof (fi_banks _ _ Hinv) as Hbi.
  pose proof (bank_bound (vm s) _ Hbi b Hin) as Hbb.
  assert (bank_ok b) as Hok by (pose proof (bi_ok _ Hbi) as Hall; rewrite Forall_forall in Hall; by apply Hall).
  apply bank_within_spec in Hw; [|done..]. lia.
Qed.

Lemma in_main_small Ψ s a : fork_inv Ψ s -> u64 a -> in_main (vm s) a -> a < 2 ^ 52.
Proof.
  intros Hinv Hu Hin. pose proof (main_bound _ _ _ (fi_banks _ _ Hinv) (fi_main _ _ Hinv)).
  apply (in_main_spec _ _ _ (fi_banks _ _ Hinv) (fi_main _ _ Hinv)) in Hin; [lia|done].
Qed.

(** The entry of a table the walk is at: a writable table leads to a table, a writable leaf to
    data of the fork. *)
Lemma hw_step Ψ s n t i : fork_inv Ψ s -> table_ptr Ψ s (S n) t -> 0 <= i < 512 ->
  let E := ld64 (h_heap (vhost s)) (t + 8 * i) in
  is_flagged_page WRITE_BITS E = true ->
  (leaf (S n) E = true -> forall j, 0 <= j < (match S n with 2%nat => 512 | _ => 1 end) ->
     forall p, page_at (vm s) (frame E + 4096 * j) = Ok p -> Ψ p = Some 0%nat) /\
  (leaf (S n) E = false -> forall p, page_at (vm s) (frame E) = Ok p -> table_ptr Ψ s n p).
Proof.
  intros Hinv Ht Hi E Hfl. destruct (write_bits E Hfl) as [Hp Hrw].
  destruct (table_entry Ψ s n t i Hinv Ht Hi) as [Hok _]. fold E in Hok.
  assert (walkable (S n) E = true) as Hw.
  { unfold walkable. destruct n as [|[]]; try done; unfold any_bit in *; rewrite Z.land_lor_distr_r;
      apply negb_true_iff, Z.eqb_neq; apply negb_true_iff, Z.eqb_neq in Hp;
      intros [? _]%Z.lor_eq_0_iff; done. }
  pose proof (writable_not_cow E Hrw) as Hc. destruct (target_aligned (S n) E) as [_ Hu].
  destruct (Hok Hw) as [_ He]. rewrite Hc in He. split.
  - intros Hl j Hj p Hpg. rewrite Hl in He. destruct (He Hrw) as (q&Hbt&Hq).
    rewrite (frame_target (S n)) in Hpg by (eapply bank_target_small; done).
    destruct (Hq j Hj) as [Hbj HΨ]. rewrite (page_at_bank _ _ _ Hbj) in Hpg. by simplify_eq.
  - intros Hl p Hpg. rewrite Hl in He.
    rewrite (frame_target (S n)) in Hpg.
    + by eapply (table_next Ψ s n E).
    + destruct He as [(q&Hbt&_)|[Hin _]]; [by eapply bank_target_small|by eapply in_main_small].
Qed.

Lemma hw_leaf_leaf n E : hw_leaf n E = true -> leaf_aligned n E = true -> leaf n E = true.
Proof. destruct n as [|[|[|]]]; done. Qed.
Lemma not_hw_leaf n E : hw_leaf n E = false -> leaf n E = false.
Proof. destruct n as [|[|[|]]]; done. Qed.
Lemma leaf_index_bound n a : 0 <= leaf_index n a < (match n with 2%nat => 512 | _ => 1 end).
Proof. destruct n as [|[|[|]]]; simpl; try lia. apply index_bound. Qed.

Lemma hw_walk_owned Ψ s n t vaddr p : fork_inv Ψ s -> table_ptr Ψ s n t ->
  hw_walk n WRITE_BITS (vm s) (h_heap (vhost s)) t vaddr = Some p -> Ψ p = Some 0%nat.
Proof.
  intros Hinv. revert t. induction n as [|n IH]; intros t Ht Hw; [done|]. cbn [hw_walk] in Hw.
  pose proof (table_index_bound (S n) vaddr) as Hi.
  destruct (is_flagged_page _ _) eqn:Hfl; [|done].
  simpl negb in Hw. destruct (hw_step Ψ s n t _ Hinv Ht Hi Hfl) as [Hleaf Hnext].
  set (E := ld64 _ _) in *. destruct (hw_leaf (S n) E) eqn:El.
  - destruct (leaf_aligned (S n) E) eqn:Ea; [|done]. destruct (page_at _ _) as [q|] eqn:Ep; [|done]. simplify_eq.
    apply (Hleaf (hw_leaf_leaf _ _ El Ea) _ (leaf_index_bound (S n) vaddr) p Ep).
  - destruct (page_at _ _) as [q|] eqn:Ep; [|done]. apply (IH q); [|done]. apply Hnext; [|done]. by apply not_hw_leaf.
Qed.

Lemma hw_page_owned Ψ s vaddr p : fork_inv Ψ s -> hw_page WRITE_BITS s vaddr = Some p -> Ψ p = Some 0%nat.
Proof.
  intros Hinv Hp. unfold hw_page in Hp. destruct (fi_root _ _ Hinv) as (root&Hbt&Hroot).
  rewrite (page_at_bank _ _ _ Hbt) in Hp. eapply hw_walk_owned; [done| |exact Hp]. by left.
Qed.

Lemma guest_store_ok Ψ s vaddr bytes s' : fork_inv Ψ s -> guest_store vaddr bytes s = Some s' -> step_ok Ψ s Ψ s'.
Proof.
  intros Hinv Hs. unfold guest_store in Hs. destruct (_ <=? _) eqn:El; [|done].
  destruct (hw_page _ _ _) as [p|] eqn:Ep; [|done]. simplify_eq. apply Z.leb_le in El.
  apply store_data_bytes; [done|by eapply hw_page_owned|rewrite offset_of_mod; apply Z.mod_pos_bound; lia|exact El].
Qed.
End stores.

(** ** A fork that runs *)

(** The host serves requests and copies, the guest stores; an exception of the host ends it. *)
Inductive exec_step `{os : HostOS} : fork_state -> fork_state -> Prop :=
| es_host c c' : fork_step c c' -> exec_step c c'
| es_copy s pages addr data z s' :
    copy_to_guest addr data z s = (Ok tt, s') -> exec_step (Running s pages) (Running s' pages)
| es_copy_throw s pages addr data z e s' :
    copy_to_guest addr data z s = (Err e, s') -> exec_step (Running s pages) (Stopped s')
| es_guest s pages vaddr bytes s' :
    guest_store vaddr bytes s = Some s' -> exec_step (Running s pages) (Running s' pages).

Section runs.
Context `{os : HostOS} `{laws : !HostLaws os}.

(** What holds all the time. *)
Definition exec_inv (s0 : VM) (c : fork_state) : Prop :=
  main_unchanged s0 (state_of c) /\
  match c with
  | Running s l => exists Ψ, fork_inv Ψ s /\ Forall (fun p => Ψ p = Some 0%nat) l
  | Stopped _ => True
  end.

Lemma exec_inv_step Ψ Ψ' s0 s s' pages : step_ok Ψ s Ψ' s' -> Forall (fun p => Ψ p = Some 0%nat) pages ->
  main_unchanged s0 s -> exec_inv s0 (Running s' pages).
Proof.
  intros (Hinv&Hsub&Hmu) Hl H0. split; [by eapply main_unchanged_trans|]. exists Ψ'. split; [done|].
  eapply Forall_impl; [exact Hl|]. simpl. auto.
Qed.

Lemma exec_step_inv s0 c c' : exec_step c c' -> exec_inv s0 c -> exec_inv s0 c'.
Proof.
  intros [x x' Hf|s pages addr data z s' E|s pages addr data z e s' E|s pages vaddr bytes s' E] Hc.
  - by eapply fork_step_inv.
  - destruct Hc as [Hmu (Ψ&Hinv&Hl)].
    destruct (wp_run _ _ _ _ _ _ (copy_to_guest_wp Ψ s addr data z Hinv) E) as (Ψ'&Hst). by eapply exec_inv_step.
  - destruct Hc as [Hmu (Ψ&Hinv&Hl)].
    pose proof (wp_run _ _ _ _ _ _ (copy_to_guest_wp Ψ s addr data z Hinv) E) as Hmu'.
    split; [by eapply main_unchanged_trans|done].
  - destruct Hc as [Hmu (Ψ&Hinv&Hl)]. eapply exec_inv_step; [by eapply guest_store_ok|done|done].
Qed.

Lemma exec_run_inv Ψ s c : fork_inv Ψ s -> rtc exec_step (Running s []) c -> exec_inv s c.
Proof.
  intros Hinv Hrun. apply (rtc_ind_r (R := exec_step) (exec_inv s) (Running s []));
    [|by intros ??? ? ?; eapply exec_step_inv|done].
  split; [apply main_unchanged_refl|eauto].
Qed.
End runs.

(** C8: while a fork runs - the host makes pages writable, stores to the pages it was given and
    copies data in, and the guest stores through whatever the CPU's walk of the tables finds
    present and writable, in any order, up to an exception - no word of the main memory it
    shares with its master and the other forks ever changes; and at every moment no writable
    translation of the guest's tables leads into that memory. *)
Theorem fork_execution_keeps_main `{os : HostOS} `{laws : !HostLaws os} Ψ s c : fork_inv Ψ s ->
  rtc exec_step (Running s []) c ->
  (forall q, main_word (vm s) q -> ld64 (h_heap (vhost (state_of c))) q = ld64 (h_heap (vhost s)) q) /\
  (forall s' pages vaddr p q, c = Running s' pages ->
     hw_page WRITE_BITS s' vaddr = Some p -> in_page p q -> ~ main_word (vm s) q).
Proof.
  intros Hinv Hrun. destruct (exec_run_inv Ψ s c Hinv Hrun) as [[Hsm Hmu] Hc]. split; [done|].
  intros s' pages vaddr p q -> Hp Hq Hw. destruct Hc as (Ψ'&Hinv'&_).
  pose proof (hw_page_owned Ψ' s' vaddr p Hinv' Hp) as HΨ.
  destruct (owned_page_spec _ _ _ (fi_banks _ _ Hinv') (fi_main _ _ Hinv') p (fi_typed _ _ Hinv' _ _ HΨ)) as (_&_&Ho).
  apply (Ho q Hq). by apply (same_main_word (vm s) (vm s')).
Qed.

(** ** On the small machine *)

#[local] Existing Instance demo_host.
#[local] Existing Instance demo_laws.

(** The guest cannot store to its copy-on-write page before the host has served the fault, and
    then stores to the new page. *)
Definition demo_served : VM := snd demo_page_run.
Definition demo_guest_stored : VM :=
  match guest_store 0x202018 [42; 43] demo_served with Some s => s | None => demo_served end.

Example guest_store_faults_first :
  guest_store 0x202018 [42; 43] demo_fork = None /\
  hw_page WRITE_BITS demo_served 0x202018 = Some demo_page /\
  fst (copy_from_guest 0x202018 3 demo_guest_stored) = Ok [42; 43; 0].
Proof. split_and!; vm_compute; reflexivity. Qed.

Lemma state_of_running s l : state_of (Running s l) = s.
Proof. reflexivity. Qed.

Lemma demo_exec : rtc exec_step (Running demo_fork []) (Running demo_guest_stored [demo_page]).
Proof.
  apply (rtc_l _ _ (Running demo_served [demo_page])).
  - apply es_host, (fs_page _ _ 0x202000 demo_flags false true); [reflexivity|].
    unfold demo_served, demo_page, demo_page_run. apply run_value. vm_compute. reflexivity.
  - apply rtc_once, (es_guest _ _ 0x202018 [42; 43]). unfold demo_guest_stored.
    assert (is_Some (guest_store 0x202018 [42; 43] demo_served)) as [x ->]; [|reflexivity].
    apply (bool_decide_unpack _). vm_compute. exact I.
Qed.

Lemma fork_execution_keeps_main_witness :
  (ld64 (h_heap (vhost demo_guest_stored)) 0x10202018 = ld64 (h_heap (vhost demo_fork)) 0x10202018 /\
   ld8 (h_heap (vhost demo_guest_stored)) (demo_page + 0x18) = 42) /\
  ~ main_word (vm demo_fork) (demo_page + 0x18).
Proof.
  destruct demo_fork_inv as [Ψ Hinv].
  destruct (fork_execution_keeps_main Ψ demo_fork (Running demo_guest_stored [demo_page]) Hinv demo_exec) as [Hw Hp].
  rewrite state_of_running in Hw. split; [split|].
  - apply (Hw 0x10202018). vm_compute. intuition congruence.
  - vm_compute. reflexivity.
  - apply (Hp demo_guest_stored [demo_page] 0x202018 demo_page _ eq_refl); [vm_compute; reflexivity|].
    vm_compute. intuition congruence.
Defined.

(** With CR0.WP clear, as [setup_cow_mode] leaves it, a store of the guest's kernel needs no
    writable entry: [clock_gettime] and [prctl] of the guest's kernel (interrupts.asm), which
    store to an address the user passes, write to the master's page. *)
Example kernel_store_reaches_master :
  cr0 (match fst (Machine_fork demo_fork_options (vm demo_master) (mkSRegs CR0_WP 0) demo_master) with Ok r => r | Err _ => demo_sregs end)
    .& CR0_WP = 0 /\
  hw_page PDE64_PRESENT demo_fork 0x202018 = Some 0x10202000 /\
  main_word (vm demo_fork) 0x10202018.
Proof. split_and!; [vm_compute; reflexivity..|vm_compute; intuition congruence|]. all: vm_compute; intuition congruence. Qed.
