(* ===== verification/Merge.v ===== *)
(** * Merging page tables into 2MB pages

    [paging_merge_leaf_pages_into_hugepages] (lib/tinykvm/amd64/paging.cpp), which
    [vMemory::merge_leaf_pages_into_hugepages] calls to make page walks shorter: a page table
    whose 512 entries map one contiguous, aligned 2MB area with the same rights is replaced by
    one 2MB entry in the table above it.

    The specification is the processor's translation of a virtual address: the page it reaches
    and the rights the entries on the way leave.  Merging never takes a translation or a right
    away, and on regular tables it changes no translation at all.  The last part shows what it
    does to tables that are not regular. *)
From stdpp Require Import base tactics list numbers strings gmap.
From Stdlib Require Import ZArith Lia Bool.
From S2P Require Import Prelude Host MemoryBanks VMemory Paging ForkIsolation MakeCow PageSetup GuestStores.
Local Open Scope Z_scope.

(** ** The code *)

Definition MERGE_MASK : Z :=
  PDE64_PRESENT .| PDE64_RW .| PDE64_USER .| PDE64_NX .| PDE64_CLONEABLE .| PDE64_G.

(** The loop over the entries 1 to 511 of a page table, with [break]: can they be merged, is
    one of them dirty, are all of them dirty? *)
Fixpoint merge_scan (n : nat) (pt e first_entry expected_addr : Z) (any_dirty all_dirty : bool)
    : M VM (bool * bool * bool) :=
  match n with
  | O => ret (true, any_dirty, all_dirty)
  | S n' =>
      let! entry := rd (pt + 8 * e) in
      if negb (entry .& MERGE_MASK =? first_entry) then ret (false, any_dirty, all_dirty)
      else
        let expected_addr := expected_addr ⊕ 0x1000 in
        if negb (entry .& PDE64_ADDR_MASK =? expected_addr) then ret (false, any_dirty, all_dirty)
        else if any_bit entry PDE64_DIRTY then merge_scan n' pt (e + 1) first_entry expected_addr true all_dirty
        else merge_scan n' pt (e + 1) first_entry expected_addr any_dirty false
  end.

(** One 2MB entry; returns the number of pages merged. *)
Definition merge_pd_entry (merge_if_dirty : bool) (pd k pd_base : Z) : M VM Z :=
  let! entry := rd (pd + 8 * k) in
  if negb (any_bit entry PDE64_PRESENT) then ret 0
  else if any_bit entry PDE64_PS then ret 0
  else
    let '(pt_base, pt_mem, _) := pt_from_index k pd_base entry in
    let! pt := resolve pt_mem in
    let! first := rd pt in
    let dirty := any_bit first PDE64_DIRTY in
    let first_entry := first .& MERGE_MASK in
    let first_addr := first .& PDE64_ADDR_MASK in
    if negb (first_addr .& 0x1FFFFF =? 0) then ret 0
    else
      let! (can_merge, any_dirty, all_dirty) := merge_scan 511 pt 1 first_entry first_addr dirty dirty in
      if can_merge && (merge_if_dirty || negb any_dirty || all_dirty) then
        wr (pd + 8 * k) (first_addr .| first_entry .| PDE64_PS .| PDE64_PRESENT) ;;;
        when any_dirty (let! e := rd (pd + 8 * k) in wr (pd + 8 * k) (e .| PDE64_DIRTY)) ;;;
        ret 512
      else ret 0.

(** A loop that adds to the 32-bit counter [merged_pages]. *)
Fixpoint sum_range (n : nat) (lo : Z) (body : Z -> M VM Z) (merged_pages : Z) : M VM Z :=
  match n with
  | O => ret merged_pages
  | S n' => let! d := body lo in sum_range n' (lo + 1) body ((merged_pages + d) mod 2 ^ 32)
  end.

Definition merge_pd (merge_if_dirty : bool) (pd pd_base : Z) : M VM Z :=
  sum_range 512 0 (fun k => merge_pd_entry merge_if_dirty pd k pd_base) 0.

Definition merge_pdpt (merge_if_dirty : bool) (pdpt pdpt_base : Z) : M VM Z :=
  sum_range 512 0 (fun j =>
    let! entry := rd (pdpt + 8 * j) in
    if any_bit entry PDE64_PRESENT then
      let '(pd_base, pd_mem, _) := pd_from_index j pdpt_base entry in
      let! pd := resolve pd_mem in
      merge_pd merge_if_dirty pd pd_base
    else ret 0) 0.

Definition paging_merge_leaf_pages_into_hugepages (merge_if_dirty : bool) : M VM Z :=
  let! s := get in
  let! pml4 := resolve (page_tables (vm s)) in
  sum_range 4 0 (fun i =>
    let! entry := rd (pml4 + 8 * i) in
    if any_bit entry PDE64_PRESENT then
      let '(pdpt_base, pdpt_mem, _) := pdpt_from_index i entry in
      let! pdpt := resolve pdpt_mem in
      merge_pdpt merge_if_dirty pdpt pdpt_base
    else ret 0) 0.

(** [vMemory::merge_leaf_pages_into_hugepages] *)
Definition merge_leaf_pages_into_hugepages : M VM Z := paging_merge_leaf_pages_into_hugepages false.

(** ** Translation, with rights *)

Record Access := mkAccess { a_page : Z; a_write : bool; a_user : bool; a_exec : bool }.

(** The rights an entry leaves. *)
Definition grant (E : Z) (a : Access) : Access :=
  mkAccess (a_page a) (any_bit E PDE64_RW && a_write a) (any_bit E PDE64_USER && a_user a)
    (negb (any_bit E PDE64_NX) && a_exec a).
Definition full (p : Z) : Access := mkAccess p true true true.

Fixpoint translate (n : nat) (m : vMemory) (h : heap) (table vaddr : Z) : option Access :=
  match n with
  | O => None
  | S n' =>
      let E := ld64 h (table + 8 * table_index n vaddr) in
      if negb (any_bit E PDE64_PRESENT) then None
      else if hw_leaf n E then
        if leaf_aligned n E then
          match page_at m (frame E + 4096 * leaf_index n vaddr) with
          | Ok p => Some (grant E (full p)) | Err _ => None end
        else None
      else match page_at m (frame E) with Ok t => grant E <$> translate n' m h t vaddr | Err _ => None end
  end.

Definition translation (s : VM) (vaddr : Z) : option Access :=
  match page_at (vm s) (page_tables (vm s)) with
  | Ok root => translate 4 (vm s) (h_heap (vhost s)) root vaddr
  | Err _ => None
  end.

Definition access_le (a a' : Access) : Prop :=
  a_page a' = a_page a /\ implb (a_write a) (a_write a') = true /\
  implb (a_user a) (a_user a') = true /\ implb (a_exec a) (a_exec a') = true.

(** The pages are those of the walk in GuestStores. *)
Lemma present_flag E : is_flagged_page PDE64_PRESENT E = any_bit E PDE64_PRESENT.
Proof.
  unfold is_flagged_page, any_bit. change PDE64_PRESENT with (2 ^ 1 - 1). rewrite (land_ones_mod E 1) by lia. change (2 ^ 1 - 1) with 1. change (2 ^ 1) with 2.
  pose proof (Z.mod_pos_bound E 2 ltac:(lia)). destruct (Z.eqb_spec (E mod 2) 1), (Z.eqb_spec (E mod 2) 0); cbn; lia.
Qed.

Lemma translate_hw_walk n m h table v : a_page <$> translate n m h table v = hw_walk n PDE64_PRESENT m h table v.
Proof.
  revert table. induction n as [|n IH]; intros table; [done|]. cbn [translate hw_walk]. rewrite present_flag.
  destruct (any_bit _ PDE64_PRESENT); [|done]. cbn [negb]. destruct (hw_leaf _ _).
  - destruct (leaf_aligned _ _); [|done]. by destruct (page_at _ _).
  - destruct (page_at _ _) as [t|]; [|done]. rewrite <- IH. by destruct (translate n m h t v).
Qed.

Lemma translation_page s v : a_page <$> translation s v = hw_page PDE64_PRESENT s v.
Proof. unfold translation, hw_page. destruct (page_at _ _); [apply translate_hw_walk|done]. Qed.

(** ** Tables by level *)

(** [L] gives the level of every table the walks can reach; a table is a table of one level
    only, the addresses in the entries are at most 52 bits long, and there are no 1GB pages. *)
Record leveled (L : Z -> option nat) (m : vMemory) (h : heap) : Prop := {
  lv_root : forall r, page_at m (page_tables m) = Ok r -> L r = Some 4%nat;
  lv_aligned : forall p n, L p = Some n -> p mod 4096 = 0;
  lv_next : forall p n i, L p = Some (S (S n)) -> 0 <= i < 512 ->
    let E := ld64 h (p + 8 * i) in
    any_bit E PDE64_PRESENT = true -> hw_leaf (S (S n)) E = false ->
    target (S (S n)) E < 2 ^ 52 /\ forall t, page_at m (frame E) = Ok t -> L t = Some (S n);
  lv_1gb : forall p i, L p = Some 3%nat -> 0 <= i < 512 ->
    any_bit (ld64 h (p + 8 * i)) PDE64_PRESENT = true -> any_bit (ld64 h (p + 8 * i)) PDE64_PS = false
}.

(** Does an entry leave every right that [E1] gives? *)
Definition leaves (E E1 : Z) : bool :=
  implb (any_bit E1 PDE64_RW) (any_bit E PDE64_RW) && implb (any_bit E1 PDE64_USER) (any_bit E PDE64_USER) &&
  implb (any_bit E PDE64_NX) (any_bit E1 PDE64_NX).

(** A directory leaves the rights that the page tables under it give, and every page table
    maps something. *)
Record regular (L : Z -> option nat) (m : vMemory) (h : heap) : Prop := {
  rg_directory : forall p i t j, L p = Some 2%nat -> 0 <= i < 512 ->
    let E := ld64 h (p + 8 * i) in any_bit E PDE64_PRESENT = true -> any_bit E PDE64_PS = false ->
    page_at m (frame E) = Ok t -> 0 <= j < 512 ->
    let E1 := ld64 h (t + 8 * j) in any_bit E1 PDE64_PRESENT = true -> leaves E E1 = true;
  rg_table : forall p, L p = Some 1%nat -> exists i, 0 <= i < 512 /\ any_bit (ld64 h (p + 8 * i)) PDE64_PRESENT = true
}.

(** ** The merged entry *)

Definition mergeable (h : heap) (pt : Z) : Prop :=
  let F := ld64 h pt in
  (F .& PDE64_ADDR_MASK) .& 0x1FFFFF = 0 /\
  forall e, 0 <= e < 512 ->
    ld64 h (pt + 8 * e) .& MERGE_MASK = F .& MERGE_MASK /\
    ld64 h (pt + 8 * e) .& PDE64_ADDR_MASK = F .& PDE64_ADDR_MASK + 4096 * e.

Definition merged_entry (F : Z) (dirty : bool) : Z :=
  let E := F .& PDE64_ADDR_MASK .| (F .& MERGE_MASK) .| PDE64_PS .| PDE64_PRESENT in
  if dirty then E .| PDE64_DIRTY else E.

Lemma any_bit_mask F mask b : any_bit (F .& mask) b = any_bit F (mask .& b).
Proof. unfold any_bit. by rewrite Z.land_assoc. Qed.

Lemma same_rights E F b : E .& MERGE_MASK = F .& MERGE_MASK -> MERGE_MASK .& b = b -> any_bit E b = any_bit F b.
Proof. intros H Hb. by rewrite <- Hb, <- !any_bit_mask, H. Qed.

Lemma merged_bit F d b : b .& PDE64_FLAGS = b -> PDE64_DIRTY .& b = 0 ->
  any_bit (merged_entry F d) b = any_bit F (MERGE_MASK .& b) || any_bit (PDE64_PS .| PDE64_PRESENT) b.
Proof.
  intros Hb Hd. assert (any_bit (F .& PDE64_ADDR_MASK) b = false) as Ha.
  { rewrite any_bit_mask, <- Hb, (Z.land_comm b), Z.land_assoc. change (PDE64_ADDR_MASK .& PDE64_FLAGS) with 0.
    unfold any_bit. by rewrite Z.land_0_l, Z.land_0_r. }
  assert (any_bit PDE64_DIRTY b = false) as Hdirty by (unfold any_bit; by rewrite Hd).
  unfold merged_entry. destruct d; rewrite !any_bit_lor, Ha, any_bit_mask, ?Hdirty, ?orb_false_r, ?orb_assoc; done.
Qed.

(** The rights and the address of the entries of a mergeable table are those of the merged
    entry. *)
Lemma merged_present F d : any_bit (merged_entry F d) PDE64_PRESENT = true.
Proof. rewrite merged_bit by done. apply orb_true_r. Qed.
Lemma merged_ps F d : any_bit (merged_entry F d) PDE64_PS = true.
Proof. rewrite merged_bit by done. apply orb_true_r. Qed.
Lemma merged_right E F d b : E .& MERGE_MASK = F .& MERGE_MASK ->
  MERGE_MASK .& b = b -> b .& PDE64_FLAGS = b -> PDE64_DIRTY .& b = 0 -> (PDE64_PS .| PDE64_PRESENT) .& b = 0 ->
  any_bit (merged_entry F d) b = any_bit E b.
Proof.
  intros H Hb Hf Hd H0. rewrite merged_bit, Hb, (same_rights E F) by done.
  unfold any_bit at 2. rewrite H0. apply orb_false_r.
Qed.
Lemma grant_merged E F d a : E .& MERGE_MASK = F .& MERGE_MASK -> grant (merged_entry F d) a = grant E a.
Proof. intros H. unfold grant. by rewrite !(merged_right E) by done. Qed.

Lemma frame_mod x : x mod 4096 = 0 -> frame x = x mod 2 ^ 52.
Proof.
  intros Hx. unfold frame. change FRAME_MASK with ((2 ^ 52 - 1) .& (2 ^ 52 - 2 ^ 12)).
  rewrite Z.land_assoc, land_ones_mod, land_high_mask by (try (apply Z.mod_pos_bound); lia).
  change (2 ^ 12) with 4096. rewrite Z.mul_comm. symmetry. apply Z.div_exact; [done|].
  rewrite Z.mod_mod_divide; [done|]. by exists (2 ^ 40).
Qed.

(** Adding an offset below 2MB to an aligned address does not carry into the higher bits. *)
Lemma aligned_mod x : x mod 2 ^ 21 = 0 -> (x mod 2 ^ 52) mod 2 ^ 21 = 0 /\
  forall e, 0 <= e < 512 -> (x + 4096 * e) mod 2 ^ 52 = x mod 2 ^ 52 + 4096 * e.
Proof.
  intros Hx. assert ((x mod 2 ^ 52) mod 2 ^ 21 = 0) as H0.
  { rewrite Z.mod_mod_divide; [done|]. by exists (2 ^ 31). }
  split; [done|]. intros e He. rewrite Zplus_mod, (Z.mod_small (4096 * e)) by lia. apply Z.mod_small.
  pose proof (Z.mod_pos_bound x (2 ^ 52) ltac:(lia)) as Hb. revert H0 Hb. generalize (x mod 2 ^ 52). intros y H0 Hb.
  change (2 ^ 21) with 2097152 in *. change (2 ^ 52) with 4503599627370496 in *. dlia.
Qed.

Lemma frame_addr E : frame E = (E .& PDE64_ADDR_MASK) mod 2 ^ 52.
Proof.
  rewrite <- frame_mod; [unfold frame; rewrite <- Z.land_assoc; f_equal|].
  rewrite <- land_ones12, <- Z.land_assoc. change (PDE64_ADDR_MASK .& 0xFFF) with 0. apply Z.land_0_r.
Qed.

Lemma frame_merged F d : frame (merged_entry F d) = frame F.
Proof.
  assert (forall b, b .& FRAME_MASK = 0 -> forall x, (x .| b) .& FRAME_MASK = x .& FRAME_MASK) as Hb.
  { intros b Hb x. by rewrite Z.land_lor_distr_l, Hb, Z.lor_0_r. }
  unfold frame, merged_entry. destruct d; rewrite ?(Hb PDE64_DIRTY), (Hb PDE64_PRESENT), (Hb PDE64_PS), Hb by
    first [done | rewrite <- Z.land_assoc; change (MERGE_MASK .& FRAME_MASK) with 0; apply Z.land_0_r];
    by rewrite <- Z.land_assoc.
Qed.

(** The address of entry [e] of a mergeable table. *)
Lemma merged_frame h pt e d : mergeable h pt -> 0 <= e < 512 ->
  frame (ld64 h (pt + 8 * e)) = frame (merged_entry (ld64 h pt) d) + 4096 * e.
Proof.
  intros [Hal Hent] He. destruct (Hent e He) as [_ Ha].
  rewrite frame_merged, !frame_addr, Ha. rewrite (land_ones_mod _ 21) in Hal by lia.
  by apply aligned_mod.
Qed.

Lemma merged_aligned h pt d : mergeable h pt -> leaf_aligned 2 (merged_entry (ld64 h pt) d) = true.
Proof.
  intros [Hal _]. unfold leaf_aligned. apply Z.eqb_eq. rewrite frame_merged, frame_addr.
  rewrite (land_ones_mod _ 21) in Hal by lia. rewrite (land_ones_mod _ 21) by lia. by apply aligned_mod.
Qed.

(** ** Merging keeps the translations *)

Section merged.
Context (L : Z -> option nat) (m : vMemory) (h0 : heap) (Hlv : leveled L m h0).

(** A directory entry that was replaced. *)
Definition replaced (E E' : Z) : Prop :=
  any_bit E PDE64_PRESENT = true /\ any_bit E PDE64_PS = false /\
  exists pt d, page_at m (frame E) = Ok pt /\ mergeable h0 pt /\ E' = merged_entry (ld64 h0 pt) d.

(** The heap while merging: only entries of directories are replaced. *)
Definition merging (h : heap) : Prop := forall q, aligned8 q ->
  ld64 h q = ld64 h0 q \/
  exists p i, L p = Some 2%nat /\ 0 <= i < 512 /\ q = p + 8 * i /\ replaced (ld64 h0 q) (ld64 h q).

Lemma entry_aligned8 p n i : L p = Some n -> aligned8 (p + 8 * i).
Proof. intros Hp%(lv_aligned _ _ _ Hlv). unfold aligned8. dlia. Qed.

Lemma same_table p p' n n' i i' : L p = Some n -> L p' = Some n' -> 0 <= i < 512 -> 0 <= i' < 512 ->
  p + 8 * i = p' + 8 * i' -> n = n' /\ i = i'.
Proof.
  intros Hp Hp' Hi Hi' Hq.
  assert (p = p') as <-; [|split; [congruence|lia]].
  eapply (page_disjoint p p' (p + 8 * i)); [by eapply lv_aligned..| |]; unfold in_page; lia.
Qed.

Lemma merging_entry h p n i : merging h -> L p = Some n -> 0 <= i < 512 ->
  ld64 h (p + 8 * i) = ld64 h0 (p + 8 * i) \/ n = 2%nat /\ replaced (ld64 h0 (p + 8 * i)) (ld64 h (p + 8 * i)).
Proof.
  intros Hm Hp Hi. destruct (Hm (p + 8 * i)) as [|(p'&i'&Hp'&Hi'&Hq&Hr)]; [by eapply entry_aligned8|by left|].
  right. destruct (same_table p p' n 2 i i') as [-> _]; done.
Qed.

Lemma access_le_refl a : access_le a a.
Proof. unfold access_le. rewrite !implb_same. done. Qed.
Lemma grant_le E a a' : access_le a a' -> access_le (grant E a) (grant E a').
Proof.
  intros (Hp&Hw&Hu&Hx). unfold grant, access_le. cbn. split; [done|].
  destruct (any_bit E PDE64_RW), (any_bit E PDE64_USER), (any_bit E PDE64_NX); done.
Qed.
Lemma grant_le_self E a : access_le (grant E a) a.
Proof.
  unfold grant, access_le. cbn. split; [done|].
  destruct (any_bit E PDE64_RW), (any_bit E PDE64_USER), (any_bit E PDE64_NX); cbn; rewrite ?implb_same; done.
Qed.

(** The translation through a page table that was merged, and through the 2MB entry. *)
Lemma translate_replaced h p v : replaced (ld64 h0 (p + 8 * table_index 2 v)) (ld64 h (p + 8 * table_index 2 v)) ->
  exists pt d, page_at m (frame (ld64 h0 (p + 8 * table_index 2 v))) = Ok pt /\ mergeable h0 pt /\
    translate 2 m h0 p v = grant (ld64 h0 (p + 8 * table_index 2 v)) <$> translate 1 m h0 pt v /\
    translate 2 m h p v =
      (let E := ld64 h0 (pt + 8 * table_index 1 v) in
       match page_at m (frame E) with
       | Ok q => Some (grant E (full q)) | Err _ => None end) /\
    ld64 h (p + 8 * table_index 2 v) = merged_entry (ld64 h0 pt) d.
Proof.
  intros (Hp&Hps&pt&d&Hpt&Hmg&HE). exists pt, d. split_and!; [done|done| | |done].
  - cbn [translate hw_leaf]. by rewrite Hp, Hps, Hpt.
  - pose proof (table_index_bound 1 v) as Hj. destruct (proj2 Hmg _ Hj) as [Hbits _].
    cbn [translate hw_leaf]. rewrite HE, merged_present, merged_ps, merged_aligned by done. cbn [negb].
    rewrite (merged_frame h0 pt _ d Hmg Hj). change (leaf_index 2 v) with (table_index 1 v).
    destruct (page_at m (frame (merged_entry _ _) + _)) as [q|]; [|done].
    by rewrite (grant_merged (ld64 h0 (pt + 8 * table_index 1 v))).
Qed.

(** The translation through a page table. *)
Lemma translate_pt pt v : translate 1 m h0 pt v =
  (let E := ld64 h0 (pt + 8 * table_index 1 v) in
   if any_bit E PDE64_PRESENT then
     match page_at m (frame E) with Ok q => Some (grant E (full q)) | Err _ => None end
   else None).
Proof.
  cbn [translate hw_leaf leaf_aligned leaf_index]. rewrite Z.mul_0_r, Z.add_0_r.
  by destruct (any_bit (ld64 h0 (pt + 8 * table_index 1 v)) PDE64_PRESENT).
Qed.

(** A present entry that is not a leaf leads to a table of the next level. *)
Lemma next_table p n i t : L p = Some (S (S n)) -> 0 <= i < 512 -> any_bit (ld64 h0 (p + 8 * i)) PDE64_PRESENT = true ->
  hw_leaf (S (S n)) (ld64 h0 (p + 8 * i)) = false -> page_at m (frame (ld64 h0 (p + 8 * i))) = Ok t -> L t = Some (S n).
Proof. intros Hp Hi HP Hl. by apply (lv_next _ _ _ Hlv _ _ _ Hp Hi HP Hl). Qed.

Definition no_less (a a' : option Access) : Prop :=
  match a with Some x => exists x', a' = Some x' /\ access_le x x' | None => True end.

Lemma no_less_refl a : no_less a a.
Proof. destruct a; cbn; eauto using access_le_refl. Qed.

(** No translation is lost. *)
Lemma merging_no_less h n p v : merging h -> L p = Some n -> no_less (translate n m h0 p v) (translate n m h p v).
Proof.
  intros Hm. revert p. induction n as [|n IH]; intros p Hp; [done|].
  pose proof (table_index_bound (S n) v) as Hi.
  destruct (merging_entry h p (S n) _ Hm Hp Hi) as [HE|[[= ->] Hr]].
  - cbn [translate]. rewrite HE. set (E := ld64 h0 _).
    destruct (any_bit E PDE64_PRESENT) eqn:HP; [|done]. cbn [negb].
    destruct (hw_leaf (S n) E) eqn:Hl; [apply no_less_refl|].
    destruct (page_at m (frame E)) as [t|] eqn:Ht; [|done].
    destruct n as [|n]; [done|]. pose proof (IH t (next_table p n _ t Hp Hi HP Hl Ht)) as Hle.
    destruct (translate (S n) m h0 t v) as [x|]; [|done]. destruct Hle as (x'&->&Hx). eexists. by split; [|apply grant_le].
  - destruct (translate_replaced h p v Hr) as (pt&d&Hpt&Hmg&->&->&_). rewrite translate_pt. cbv zeta.
    destruct (any_bit (ld64 h0 (pt + _)) _); [|done].
    destruct (page_at m (frame (ld64 h0 (pt + _)))); [|done]. cbn. eexists. split; [done|]. apply grant_le_self.
Qed.

Lemma grant_leaves E E1 p : leaves E E1 = true -> grant E (grant E1 (full p)) = grant E1 (full p).
Proof.
  unfold leaves, grant. intros [[H1 H2]%andb_true_iff H3]%andb_true_iff. cbn. f_equal.
  - by destruct (any_bit E1 PDE64_RW), (any_bit E PDE64_RW).
  - by destruct (any_bit E1 PDE64_USER), (any_bit E PDE64_USER).
  - by destruct (any_bit E1 PDE64_NX), (any_bit E PDE64_NX).
Qed.

(** On regular tables nothing changes. *)
Lemma merging_same h n p v : regular L m h0 -> merging h -> L p = Some n -> translate n m h p v = translate n m h0 p v.
Proof.
  intros Hreg Hm. revert p. induction n as [|n IH]; intros p Hp; [done|].
  pose proof (table_index_bound (S n) v) as Hi.
  destruct (merging_entry h p (S n) _ Hm Hp Hi) as [HE|[[= ->] Hr]].
  - cbn [translate]. rewrite HE. set (E := ld64 h0 _).
    destruct (any_bit E PDE64_PRESENT) eqn:HP; [|done]. destruct (hw_leaf (S n) E) eqn:Hl; [done|].
    destruct (page_at m (frame E)) as [t|] eqn:Ht; [|done]. destruct n as [|n]; [done|].
    by rewrite (IH t (next_table p n _ t Hp Hi HP Hl Ht)).
  - pose proof Hr as (HP&Hps&_). destruct (translate_replaced h p v Hr) as (pt&d&Hpt&[_ Hent]&->&->&_).
    rewrite translate_pt. cbv zeta. pose proof (next_table p 0 _ pt Hp Hi HP Hps Hpt) as Hlv1.
    destruct (rg_table _ _ _ Hreg pt Hlv1) as (j&Hj&HPj). pose proof (table_index_bound 1 v) as Hk.
    assert (any_bit (ld64 h0 (pt + 8 * table_index 1 v)) PDE64_PRESENT = true) as HPk.
    { rewrite (same_rights _ (ld64 h0 (pt + 8 * j))); [done| |done]. by rewrite (proj1 (Hent _ Hk)), (proj1 (Hent _ Hj)). }
    rewrite HPk.
    destruct (page_at m (frame (ld64 h0 (pt + _)))); [|done]. cbn [fmap option_fmap option_map]. 
    by rewrite grant_leaves by (by eapply (rg_directory _ _ _ Hreg p)).
Qed.
End merged.

(** ** The code replaces only such entries *)

Lemma wp_sum_range (I : VM -> Prop) n lo body acc X s : I s ->
  (forall i t, lo <= i < lo + Z.of_nat n -> I t -> wp (body i) (fun _ t' => I t') X t) ->
  wp (sum_range n lo body acc) (fun _ t => I t) X s.
Proof.
  revert lo acc s. induction n as [|n IH]; intros lo acc s Hs Hstep; cbn [sum_range]; [by apply wp_ret|].
  apply wp_bind. eapply wp_mono; [apply Hstep; [lia|done]| |done]. intros d t Ht. apply IH; [done|].
  intros i t' Hi. apply Hstep. lia.
Qed.

(** A scan that ends without [break] has seen entries with the same bits and consecutive
    addresses. *)
Lemma merge_scan_wp n pt e fe ea a al s X : 0 <= ea -> ea + 4096 * Z.of_nat n < W64 ->
  wp (merge_scan n pt e fe ea a al)
    (fun r t => t = s /\ (fst (fst r) = true -> forall j, e <= j < e + Z.of_nat n ->
       ld64 (h_heap (vhost s)) (pt + 8 * j) .& MERGE_MASK = fe /\
       ld64 (h_heap (vhost s)) (pt + 8 * j) .& PDE64_ADDR_MASK = ea + 4096 * (j - e + 1))) X s.
Proof.
  revert e ea a al. induction n as [|n IH]; intros e ea a al H0 Hw; cbn [merge_scan].
  { apply wp_ret. split; [done|]. intros _ j Hj. lia. }
  apply wp_bind, wp_rd. destruct (Z.eqb_spec (ld64 (h_heap (vhost s)) (pt + 8 * e) .& MERGE_MASK) fe) as [He|]; cbn [negb]; [|by apply wp_ret].
  rewrite add64_small by (unfold u64; lia).
  destruct (Z.eqb_spec (ld64 (h_heap (vhost s)) (pt + 8 * e) .& PDE64_ADDR_MASK) (ea + 0x1000)) as [Ha|]; cbn [negb]; [|by apply wp_ret].
  assert (forall a' al', wp (merge_scan n pt (e + 1) fe (ea + 0x1000) a' al')
    (fun r t => t = s /\ (fst (fst r) = true -> forall j, e <= j < e + Z.of_nat (S n) ->
       ld64 (h_heap (vhost s)) (pt + 8 * j) .& MERGE_MASK = fe /\
       ld64 (h_heap (vhost s)) (pt + 8 * j) .& PDE64_ADDR_MASK = ea + 4096 * (j - e + 1))) X s) as Hrest.
  { intros a' al'. eapply wp_mono; [apply IH; lia| |done]. intros r t [-> Hr]. split; [done|]. intros Hok j Hj.
    destruct (decide (j = e)) as [->|]; [split; [done|lia]|]. destruct (Hr Hok j ltac:(lia)) as [? ->]. split; [done|lia]. }
  by destruct (any_bit _ PDE64_DIRTY).
Qed.

Lemma addr_bound E : 0 <= E .& PDE64_ADDR_MASK < 2 ^ 63.
Proof.
  change PDE64_ADDR_MASK with (PDE64_ADDR_MASK .& (2 ^ 63 - 1)). rewrite Z.land_assoc, land_ones_mod by lia.
  by apply Z.mod_pos_bound.
Qed.

Section code.
Context (L : Z -> option nat) (s0 : VM) (Hlv : leveled L (vm s0) (h_heap (vhost s0))).
Local Abbreviation m := (vm s0).
Local Abbreviation h0 := (h_heap (vhost s0)).

(** The state between two steps of the walk. *)
Definition merge_inv (s : VM) : Prop := exists h, s = with_heap s0 h /\ merging L m h0 h.

Lemma merging_write h pd k E' : merging L m h0 h -> L pd = Some 2%nat -> 0 <= k < 512 ->
  replaced m h0 (ld64 h0 (pd + 8 * k)) E' -> merging L m h0 (st64 h (pd + 8 * k) E').
Proof.
  intros Hm Hp Hk Hr q Hq. destruct (decide (q = pd + 8 * k)) as [->|Hne].
  - right. exists pd, k. rewrite ld64_st64_same. done.
  - rewrite ld64_st64_other by (try (by eapply (entry_aligned8 L m h0 Hlv)); done). by apply Hm.
Qed.

(** What the code reads of a table: entries of directories that are not 2MB pages, and all
    other entries, are still the original ones. *)
Lemma merging_read h p n i : merging L m h0 h -> L p = Some n -> 0 <= i < 512 ->
  n <> 2%nat \/ any_bit (ld64 h (p + 8 * i)) PDE64_PS = false -> ld64 h (p + 8 * i) = ld64 h0 (p + 8 * i).
Proof.
  intros Hm Hp Hi Hor. destruct (merging_entry L m h0 Hlv h p n i Hm Hp Hi) as [|[-> (_&_&pt&d&_&_&HE)]]; [done|].
  destruct Hor as [|Hps]; [done|]. by rewrite HE, merged_ps in Hps.
Qed.

(** The table an entry leads to, as the code computes its address. *)
Lemma code_next p n i t : L p = Some (S (S n)) -> 0 <= i < 512 -> any_bit (ld64 h0 (p + 8 * i)) PDE64_PRESENT = true ->
  hw_leaf (S (S n)) (ld64 h0 (p + 8 * i)) = false -> page_at m (target (S (S n)) (ld64 h0 (p + 8 * i))) = Ok t ->
  L t = Some (S n) /\ page_at m (frame (ld64 h0 (p + 8 * i))) = Ok t.
Proof.
  intros Hp Hi HP Hl. destruct (lv_next _ _ _ Hlv _ _ _ Hp Hi HP Hl) as [H52 Hnext]. cbv zeta in H52, Hnext.
  rewrite <- (frame_target _ _ H52). auto.
Qed.

(** The entries of the page table the scan has read, in the original heap. *)
Lemma scanned_mergeable h pt : merging L m h0 h -> L pt = Some 1%nat ->
  (ld64 h pt .& PDE64_ADDR_MASK) .& 0x1FFFFF = 0 ->
  (forall j, 1 <= j < 512 -> ld64 h (pt + 8 * j) .& MERGE_MASK = ld64 h pt .& MERGE_MASK /\
     ld64 h (pt + 8 * j) .& PDE64_ADDR_MASK = ld64 h pt .& PDE64_ADDR_MASK + 4096 * j) ->
  mergeable h0 pt /\ ld64 h pt = ld64 h0 pt.
Proof.
  intros Hm Hpt Hal Hent.
  assert (forall j, 0 <= j < 512 -> ld64 h (pt + 8 * j) = ld64 h0 (pt + 8 * j)) as Heq.
  { intros j Hj. apply (merging_read h pt 1); auto. }
  assert (ld64 h pt = ld64 h0 pt) as H0.
  { pose proof (Heq 0 ltac:(lia)) as H. by rewrite Z.mul_0_r, Z.add_0_r in H. }
  split; [|done]. rewrite H0 in Hal, Hent. split; [done|]. intros e He. destruct (decide (e = 0)) as [->|].
  - rewrite !Z.mul_0_r, !Z.add_0_r. done.
  - rewrite <- Heq by done. apply Hent. lia.
Qed.

Lemma merge_pd_entry_wp mid pd k pd_base s : merge_inv s -> L pd = Some 2%nat -> 0 <= k < 512 ->
  wp (merge_pd_entry mid pd k pd_base) (fun _ s' => merge_inv s') (fun _ s' => merge_inv s') s.
Proof.
  intros (h&->&Hm) Hpd Hk. unfold merge_pd_entry. apply wp_bind, wp_rd. cbn [vhost h_heap with_heap].
  destruct (any_bit (ld64 h (pd + 8 * k)) PDE64_PRESENT) eqn:HP; cbn [negb]; [|apply wp_ret; by exists h].
  destruct (any_bit (ld64 h (pd + 8 * k)) PDE64_PS) eqn:Hps; [apply wp_ret; by exists h|].
  pose proof (merging_read h pd 2 k Hm Hpd Hk (or_intror Hps)) as HE. rewrite HE in *.
  unfold pt_from_index. apply wp_bind, wp_resolve; [|intros; by exists h]. intros pt Hpt.
  destruct (code_next pd 0 k pt Hpd Hk HP Hps Hpt) as [HLpt Hfr].
  apply wp_bind, wp_rd. cbn [vhost h_heap with_heap].
  destruct (Z.eqb_spec ((ld64 h pt .& PDE64_ADDR_MASK) .& 0x1FFFFF) 0) as [Hal|]; cbn [negb]; [|apply wp_ret; by exists h].
  pose proof (addr_bound (ld64 h pt)) as Hb.
  apply wp_bind. eapply wp_mono; [apply (merge_scan_wp 511 pt 1 _ _ _ _ _ (fun _ _ => False)); lia| |done].
  intros [[can a] al] t [-> Hscan]. cbn [fst vhost h_heap with_heap] in Hscan.
  destruct can; cbn [andb]; [|apply wp_ret; by exists h].
  destruct (mid || negb a || al); [|apply wp_ret; by exists h].
  destruct (scanned_mergeable h pt Hm HLpt Hal) as [Hmg HF].
  { intros j Hj. destruct (Hscan eq_refl j ltac:(lia)) as [? ->]. split; [done|lia]. }
  rewrite HF. assert (forall d, replaced m h0 (ld64 h0 (pd + 8 * k)) (merged_entry (ld64 h0 pt) d)) as Hr.
  { intros d. split_and!; [done..|]. eauto 10. }
  pose proof (merging_write h pd k _ Hm Hpd Hk (Hr false)) as Hm1.
  apply wp_bind, wp_wr. apply wp_bind. destruct a; cbn [when].
  - apply wp_bind, wp_rd, wp_wr, wp_ret. cbn [vhost h_heap with_heap]. rewrite ld64_st64_same.
    eexists. split; [done|]. apply (merging_write _ pd k (merged_entry (ld64 h0 pt) true)); auto.
  - apply wp_ret, wp_ret. by eexists.
Qed.

(** The entries of the two upper levels, as the walk finds them. *)
Lemma merge_step n p i pm body s : merge_inv s -> L p = Some (S (S (S n))) -> 0 <= i < 512 ->
  (S (S (S n)) = 3%nat \/ S (S (S n)) = 4%nat) ->
  pm = target (S (S (S n))) (ld64 (h_heap (vhost s)) (p + 8 * i)) ->
  any_bit (ld64 (h_heap (vhost s)) (p + 8 * i)) PDE64_PRESENT = true ->
  (forall t, L t = Some (S (S n)) -> wp (body t) (fun _ s' => merge_inv s') (fun _ s' => merge_inv s') s) ->
  wp (let! t := resolve pm in body t : M VM Z) (fun _ s' => merge_inv s') (fun _ s' => merge_inv s') s.
Proof.
  intros (h&->&Hm) Hp Hi Hn -> HP Hbody. cbn [vhost h_heap with_heap] in *.
  rewrite (merging_read h p _ i Hm Hp Hi) in * by (left; lia).
  apply wp_bind, wp_resolve; [|intros; by exists h]. intros t Ht. apply Hbody.
  apply (code_next p (S n) i t Hp Hi HP); [|done].
  destruct Hn as [[= ->]|[= ->]]; [|done]. by apply (lv_1gb _ _ _ Hlv).
Qed.

Lemma merge_wp mid : wp (paging_merge_leaf_pages_into_hugepages mid)
  (fun _ s' => merge_inv s') (fun _ s' => merge_inv s') s0.
Proof.
  assert (merge_inv s0) as H0 by (exists h0; split; [by destruct s0 as [[]]|by left]).
  apply wp_bind, wp_get. apply wp_bind, wp_resolve; [|done]. intros pml4 Hroot%(lv_root _ _ _ Hlv).
  apply wp_sum_range; [done|]. intros i t Hi Ht. apply wp_bind, wp_rd.
  destruct (any_bit _ _) eqn:HP; [|by apply wp_ret]. unfold pdpt_from_index.
  apply (merge_step 1 pml4 i); [done|done|lia|auto|done|done|]. intros pdpt Hpdpt.
  apply wp_sum_range; [done|]. clear t Ht HP. intros j t Hj Ht. apply wp_bind, wp_rd.
  destruct (any_bit _ _) eqn:HP; [|by apply wp_ret]. unfold pd_from_index.
  apply (merge_step 0 pdpt j); [done|done|lia|auto|done|done|]. intros pd Hpd.
  apply wp_sum_range; [done|]. clear t Ht HP. intros k t Hk Ht. by apply merge_pd_entry_wp.
Qed.
End code.

(** C26: merging page tables into 2MB pages, whether it returns or throws half way, takes no
    translation away: every virtual address still reaches the same page with at least the
    rights it had.  On regular tables (directories leave the rights their page tables give, and
    no page table is without a present entry) every address translates exactly as before,
    rights and faults included.  Only entries of directories change, so no data does. *)
Theorem merge_keeps_translation L s mid : leveled L (vm s) (h_heap (vhost s)) ->
  let kept s' :=
    (forall v, no_less (translation s v) (translation s' v)) /\
    (regular L (vm s) (h_heap (vhost s)) -> forall v, translation s' v = translation s v) /\
    vm s' = vm s /\
    (forall q, aligned8 q -> (forall p i, L p = Some 2%nat -> 0 <= i < 512 -> q <> p + 8 * i) ->
       ld64 (h_heap (vhost s')) q = ld64 (h_heap (vhost s)) q) in
  wp (paging_merge_leaf_pages_into_hugepages mid) (fun _ s' => kept s') (fun _ s' => kept s') s.
Proof.
  intros Hlv kept. assert (forall s', merge_inv L s s' -> kept s') as Hkept.
  { intros s' (h&->&Hm). unfold kept, translation. cbn [vm vhost h_heap with_heap]. split_and!; [| |done|].
    - intros v. destruct (page_at _ _) as [r|] eqn:Hr; [|done]. by apply (merging_no_less L (vm s) _ Hlv), (lv_root _ _ _ Hlv).
    - intros Hreg v. destruct (page_at _ _) as [r|] eqn:Hr; [|done].
      by apply (merging_same L (vm s) _ Hlv), (lv_root _ _ _ Hlv).
    - intros q Hq Hno. destruct (Hm q Hq) as [|(p&i&Hp&Hi&->&_)]; [done|]. by destruct (Hno p i). }
  eapply wp_mono; [by apply merge_wp|intros ? s' H; by apply Hkept..].
Qed.

(** ** Checking the conditions of concrete tables *)

Section check.
Context (tables : gmap Z nat) (m : vMemory) (h : heap).

Definition entries_of (p : Z) : list Z := map (fun i => ld64 h (p + 8 * Z.of_nat i)) (seq 0 512).

Definition leveled_entry (n : nat) (E : Z) : bool :=
  negb (any_bit E PDE64_PRESENT) ||
  (match n with
   | S (S n') => hw_leaf n E ||
      (target n E <? 2 ^ 52) && match page_at m (frame E) with Ok t => bool_decide (tables !! t = Some (S n')) | Err _ => true end
   | _ => true
   end && (negb (n =? 3)%nat || negb (any_bit E PDE64_PS))).

Definition leveledb : bool :=
  match page_at m (page_tables m) with Ok r => bool_decide (tables !! r = Some 4%nat) | Err _ => true end &&
  forallb (fun '(p, n) => (p mod 4096 =? 0) && forallb (leveled_entry n) (entries_of p)) (map_to_list tables).

Definition regularb : bool :=
  forallb (fun '(p, n) =>
    match n with
    | 2%nat => forallb (fun E => negb (any_bit E PDE64_PRESENT) || any_bit E PDE64_PS ||
        match page_at m (frame E) with
        | Ok t => forallb (fun E1 => negb (any_bit E1 PDE64_PRESENT) || leaves E E1) (entries_of t)
        | Err _ => true
        end) (entries_of p)
    | 1%nat => existsb (fun E => any_bit E PDE64_PRESENT) (entries_of p)
    | _ => true
    end) (map_to_list tables).

Lemma entries_of_in p i : 0 <= i < 512 -> In (ld64 h (p + 8 * i)) (entries_of p).
Proof.
  intros Hi. apply in_map_iff. exists (Z.to_nat i). rewrite Z2Nat.id by lia. split; [done|]. apply in_seq. lia.
Qed.

Lemma in_tables (f : Z * nat -> bool) p n : forallb f (map_to_list tables) = true -> tables !! p = Some n -> f (p, n) = true.
Proof. intros Hf Hp. rewrite forallb_forall in Hf. by apply Hf, list_elem_of_In, elem_of_map_to_list. Qed.

Lemma leveledb_sound : leveledb = true -> leveled (fun p => tables !! p) m h.
Proof.
  unfold leveledb. intros [Hr Ht]%andb_true_iff.
  assert (forall p n, tables !! p = Some n -> p mod 4096 = 0 /\ forall i, 0 <= i < 512 ->
    any_bit (ld64 h (p + 8 * i)) PDE64_PRESENT = true -> leveled_entry n (ld64 h (p + 8 * i)) = true) as Hent.
  { intros p n Hp. apply (in_tables _ _ _ Ht) in Hp. apply andb_true_iff in Hp as [Ha%Z.eqb_eq He].
    split; [done|]. intros i Hi _. rewrite forallb_forall in He. by apply He, entries_of_in. }
  split.
  - intros r HR. rewrite HR in Hr. by apply bool_decide_eq_true in Hr.
  - intros p n Hp. by apply (Hent p n).
  - intros p n i Hp Hi E HP Hl. pose proof (proj2 (Hent _ _ Hp) i Hi HP) as He. fold E in He.
    unfold leveled_entry in He. rewrite HP in He. change (negb true) with false in He. cbn [orb] in He.
    apply andb_true_iff in He as [He _]. rewrite Hl in He. cbn [orb] in He. apply andb_true_iff in He as [H52%Z.ltb_lt He].
    split; [done|]. intros t Hpt. rewrite Hpt in He. by apply bool_decide_eq_true in He.
  - intros p i Hp Hi HP. pose proof (proj2 (Hent _ _ Hp) i Hi HP) as He. unfold leveled_entry in He. rewrite HP in He.
    change (negb true) with false in He. cbn [orb] in He. apply andb_true_iff in He as [_ He]. by apply negb_true_iff in He.
Qed.

Lemma regularb_sound : regularb = true -> regular (fun p => tables !! p) m h.
Proof.
  intros Ht. split.
  - intros p i t j Hp Hi E HP Hps Hpt Hj E1 HP1. pose proof (in_tables _ _ _ Ht Hp) as He. cbn beta iota in He.
    rewrite forallb_forall in He. specialize (He _ (entries_of_in p i Hi)). fold E in He.
    rewrite HP, Hps, Hpt in He. cbn [negb orb] in He. rewrite forallb_forall in He.
    specialize (He _ (entries_of_in t j Hj)). fold E1 in He. by rewrite HP1 in He.
  - intros p Hp. pose proof (in_tables _ _ _ Ht Hp) as He. cbn beta iota in He. apply existsb_exists in He as (E&Hin&HP).
    apply in_map_iff in Hin as (i&<-&Hi%in_seq). exists (Z.of_nat i). split; [lia|done].
Qed.
End check.

(** ** A small machine *)

(** The machine of PageSetup without a program: the second 2MB are mapped by one page table. *)
Definition demo_plain : VM :=
  su_vm (snd (setup_amd64_paging [] 0 [] true false (mkSU (mkVM (mkHost ∅ [(0x10000000, 0x400000)] ∅) demo_memory) demo_maps 0))).
Definition demo_host (a : Z) : Z := ptr demo_memory + a.
Definition demo_tables : gmap Z nat :=
  <[demo_host PT_ADDR := 4%nat]> (<[demo_host (PT_ADDR + 0x1000) := 3%nat]> (<[demo_host (PT_ADDR + 0x3000) := 2%nat]>
  (<[demo_host (PT_ADDR + 0x2000) := 1%nat]> (<[demo_host (PT_ADDR + 0x7000) := 1%nat]>
  (<[demo_host (PT_ADDR + 0x4000) := 3%nat]> (<[demo_host (PT_ADDR + 0x5000) := 2%nat]> {[demo_host (PT_ADDR + 0x6000) := 1%nat]})))))).

Lemma demo_leveled : leveled (fun p => demo_tables !! p) (vm demo_plain) (h_heap (vhost demo_plain)).
Proof. apply leveledb_sound. vm_compute. reflexivity. Qed.

Lemma demo_regular : regular (fun p => demo_tables !! p) (vm demo_plain) (h_heap (vhost demo_plain)).
Proof. apply regularb_sound. vm_compute. reflexivity. Qed.

Lemma merge_keeps_translation_witness :
  wp (paging_merge_leaf_pages_into_hugepages false)
    (fun _ s' => forall v, translation s' v = translation demo_plain v)
    (fun _ s' => forall v, translation s' v = translation demo_plain v) demo_plain.
Proof.
  pose proof (merge_keeps_translation (fun p => demo_tables !! p) demo_plain false demo_leveled) as H.
  revert H. generalize demo_regular. generalize demo_plain. intros s Hreg H. eapply wp_mono; [exact H| |].
  - intros n s' (_&Hsame&_). exact (Hsame Hreg).
  - intros e s' (_&Hsame&_). exact (Hsame Hreg).
Defined.

(** It merges one page table, and a page in its middle keeps its translation. *)
Definition demo_page (s : VM) (v : Z) : option Z := a_page <$> translation s v.
Example demo_merged : let (r, s) := paging_merge_leaf_pages_into_hugepages false demo_plain in
  r = Ok 512 /\ demo_page s 0x300000 = Some (demo_host 0x300000) /\
  any_bit (ld64 (h_heap (vhost s)) (demo_host (PT_ADDR + 0x3000 + 8))) PDE64_PS = true.
Proof. vm_compute. auto. Qed.

(** *** Tables that are not regular *)

(** The table of the second 2MB with every entry changed by [f]. *)
Definition demo_second (f : Z -> Z) : VM :=
  with_heap demo_plain (store_words (h_heap (vhost demo_plain)) (demo_host (PT_ADDR + 0x7000))
    (map f (load_words (h_heap (vhost demo_plain)) (demo_host (PT_ADDR + 0x7000)) 512))).

(** The comment says that all entries must be present, but only that they are alike is checked:
    2MB of pages that were not present become present. *)
Example merge_maps_absent_pages :
  let s := demo_second (fun E => E .& not64 PDE64_PRESENT) in
  let (r, s') := paging_merge_leaf_pages_into_hugepages false s in
  r = Ok 512 /\ translation s 0x300000 = None /\
  translation s' 0x300000 = Some (mkAccess (demo_host 0x300000) true true false).
Proof. vm_compute. auto. Qed.

(** The rights of the directory entry are lost: pages under a read-only directory entry become
    writable. *)
Example merge_drops_directory_rights :
  let pde := demo_host (PT_ADDR + 0x3000 + 8) in
  let s := with_heap demo_plain (st64 (h_heap (vhost demo_plain)) pde
             (ld64 (h_heap (vhost demo_plain)) pde .& not64 PDE64_RW)) in
  let (r, s') := paging_merge_leaf_pages_into_hugepages false s in
  r = Ok 512 /\ (a_write <$> translation s 0x300000) = Some false /\ (a_write <$> translation s' 0x300000) = Some true.
Proof. vm_compute. auto. Qed.
