(* ===== verification/PageMap.v ===== *)
(** * What the page tables of a new machine map

    The tables that [setup_amd64_paging] (PageSetup) builds for any memory size, base address and
    program.  Tables are pages of main memory, from the page at PT_ADDR on; a word of main memory
    is named by its index.  An invariant describes the tables between the phases of the setup;
    from it follow the identity mapping, what user mode can reach, and the shape of the tables
    that preparing a master for forks relies on. *)
From stdpp Require Import base tactics list numbers strings gmap.
From Stdlib Require Import ZArith Lia Bool.
From S2P Require Import Prelude MMap Host MemoryBanks VMemory Paging ForkIsolation MakeCow PageSetup GuestStores Merge.
Local Open Scope Z_scope.

(** ** Bits of entries *)

Lemma land_lor_off E X b : X .& b = 0 -> (E .| X) .& b = E .& b.
Proof. intros H. by rewrite Z.land_lor_distr_l, H, Z.lor_0_r. Qed.
Lemma land_not_off E X b : X .& b = b -> (E .& X) .& b = E .& b.
Proof. intros H. by rewrite <- Z.land_assoc, H. Qed.

(** The address of an entry and the bits that the code never sets by itself. *)
Definition same_target (E E' : Z) : Prop :=
  E' .& PDE64_ADDR_MASK = E .& PDE64_ADDR_MASK /\ any_bit E' PDE64_CLONEABLE = any_bit E PDE64_CLONEABLE /\
  any_bit E' PDE64_USER = any_bit E PDE64_USER /\ any_bit E' PDE64_PS = any_bit E PDE64_PS.

Lemma protect_same E r w x : same_target E (protect_entry E r w x).
Proof.
  unfold same_target, any_bit, protect_entry.
  destruct r, w, x; repeat (first [rewrite land_lor_off by reflexivity | rewrite land_not_off by reflexivity]); done.
Qed.

Lemma any_bit_clear E X b : X .& b = 0 -> any_bit (E .& X) b = false.
Proof. intros H. unfold any_bit. by rewrite <- Z.land_assoc, H, Z.land_0_r. Qed.
Lemma any_bit_off E X b : X .& b = 0 -> any_bit (E .| X) b = any_bit E b.
Proof. intros H. unfold any_bit. by rewrite land_lor_off. Qed.
Lemma any_bit_not_off E X b : X .& b = b -> any_bit (E .& X) b = any_bit E b.
Proof. intros H. unfold any_bit. by rewrite land_not_off. Qed.

(** Protecting an entry takes rights away, and gives none. *)
Lemma protect_rights E r w x :
  any_bit (protect_entry E r w x) PDE64_PRESENT = any_bit E PDE64_PRESENT && r /\
  any_bit (protect_entry E r w x) PDE64_RW = any_bit E PDE64_RW && w.
Proof.
  unfold protect_entry. destruct r, w, x; rewrite ?andb_true_r, ?andb_false_r; split;
    repeat (first [rewrite any_bit_off by reflexivity | rewrite any_bit_not_off by reflexivity | rewrite any_bit_clear by reflexivity]); done.
Qed.

(** Addresses put together with [|] from parts that do not overlap. *)
Lemma lor_add a b k : 0 <= k -> 0 <= b < 2 ^ k -> a * 2 ^ k .| b = a * 2 ^ k + b.
Proof.
  intros Hk Hb. rewrite <- Z.add_nocarry_lor; [done|]. apply Z.bits_inj'. intros n Hn. rewrite Z.land_spec, Z.bits_0.
  destruct (decide (n < k)); [by rewrite Z.mul_pow2_bits_low by lia|].
  assert (Z.testbit b n = false) as ->; [|apply andb_false_r].
  destruct (decide (b = 0)) as [->|]; [apply Z.bits_0|].
  apply Z.bits_above_log2; [lia|]. enough (Z.log2 b < k) by lia. apply Z.log2_lt_pow2; lia.
Qed.

Lemma shl64_small a k : 0 <= k -> 0 <= a -> a * 2 ^ k < W64 -> a .<< k = a * 2 ^ k.
Proof.
  intros Hk Ha Hb. unfold shl64. rewrite Z.shiftl_mul_pow2 by done. apply wrap64_small. unfold u64.
  assert (0 <= a * 2 ^ k) by (apply Z.mul_nonneg_nonneg; lia). lia.
Qed.

(** An entry of flags and an address. *)
Lemma flags_addr f a : 0 <= a < 2 ^ 63 -> a mod 4096 = 0 -> f .& PDE64_FLAGS = f ->
  (f .| a) .& PDE64_ADDR_MASK = a /\ forall b, b .& PDE64_FLAGS = b -> any_bit (f .| a) b = any_bit f b.
Proof.
  intros Ha Hal Hf. rewrite Z.lor_comm. split; [by apply entry_target|]. intros b Hb. by apply entry_any_bit.
Qed.

(** ** Main memory as words *)

(** The memory of a machine that is set up: nothing but main memory, 2MB aligned, with room for
    the first tables, in the lower 512GB. *)
Record setup_room (m : vMemory) : Prop := {
  sr_base : 0 <= physbase m /\ physbase m mod 2 ^ 21 = 0 /\ physbase m mod 2 ^ 30 <= 2 ^ 30 - 2 ^ 22;
  sr_size : 2 ^ 21 <= size m /\ size m mod 4096 = 0 /\ physbase m + size m <= 2 ^ 39;
  sr_host : 0 < ptr m /\ ptr m mod 4096 = 0 /\ ptr m + size m < 2 ^ 63;
  sr_root : page_tables m = physbase m + PT_ADDR;
  sr_safe : physbase m <= safebase m;
  sr_banks : m_mem (banks m) = [];
  sr_maps : mmap_ranges m = [];
  sr_remote : remote m = None }.

Lemma page_at_eq m addr : page_at m addr =
  if within m addr PAGE_SIZE then Ok (main_at m addr)
  else match bank_lookup m addr PAGE_SIZE with
       | Some p => Ok p
       | None =>
           match mmap_lookup m addr with
           | Some p => Ok p
           | None =>
               match remote m with
               | Some r => page_at r addr
               | None => Err (MemoryException "Memory::page_at() invalid region" addr 4096 false)
               end
           end
       end.
Proof. by destruct m. Qed.

Section room.
Context (m : vMemory) (Hm : setup_room m).
Local Abbreviation P := (physbase m).
Local Abbreviation R := (ptr m).

(** The numbers the setup computes. *)
Definition PD_PAGES : Z := (size m + (2 ^ 30 - 1)) / 2 ^ 30.
Definition giga : Z := physbase m / 2 ^ 30.
Definition base2 : Z := physbase m / 2 ^ 21 mod 512.
(** The address of page [t] of main memory, and its host pointer. *)
Definition paddr (t : Z) : Z := physbase m + 4096 * t.
Definition word (w : Z) : Z := ptr m + 8 * w.

Lemma pd_pages_bounds : 1 <= PD_PAGES /\ giga + PD_PAGES <= 512 /\ 0 <= giga /\ (PD_PAGES + 15) * 4096 + 4096 <= size m /\
  0 <= base2 <= 510 /\ physbase m = giga * 2 ^ 30 + base2 * 2 ^ 21.
Proof.
  destruct Hm. unfold PD_PAGES, giga, base2. change (2 ^ 21) with 2097152 in *. change (2 ^ 22) with 4194304 in *.
  change (2 ^ 30) with 1073741824 in *. change (2 ^ 39) with 549755813888 in *. dlia.
Qed.

Lemma within_spec a n : 0 <= a < W64 -> 0 < n <= 4096 ->
  within m a n = true <-> P <= a /\ a + n <= P + size m.
Proof.
  intros Ha Hn. destruct Hm. unfold within. rewrite (add64_small P) by (unfold u64; lia).
  rewrite !andb_true_iff, !Z.leb_le. destruct (decide (a + n < W64)).
  - rewrite add64_small by (unfold u64; lia). lia.
  - unfold add64, wrap64. rewrite (Z.mod_eq (a + n) W64) by lia. assert ((a + n) / W64 = 1) as -> by dlia. lia.
Qed.

Lemma main_at_eq a : P <= a < P + size m -> main_at m a = R + (a - P).
Proof. intros Ha. destruct Hm. unfold main_at. rewrite sub64_small, add64_small by (unfold u64; lia). done. Qed.

Lemma no_bank a n : bank_lookup m a n = None.
Proof. unfold bank_lookup. by rewrite (sr_banks _ Hm). Qed.

Lemma page_at_room a p : 0 <= a < W64 -> page_at m a = Ok p -> P <= a /\ a + 4096 <= P + size m /\ p = R + (a - P).
Proof.
  intros Ha. rewrite page_at_eq, no_bank, (sr_remote _ Hm). unfold mmap_lookup. rewrite (sr_maps _ Hm). cbn [List.find].
  destruct (within m a PAGE_SIZE) eqn:E; [|done]. apply within_spec in E; [|done|unfold PAGE_SIZE; lia].
  unfold PAGE_SIZE in E. intros [= <-]. rewrite main_at_eq by lia. lia.
Qed.

Lemma page_at_page t : 0 <= t -> 4096 * t + 4096 <= size m -> page_at m (paddr t) = Ok (R + 4096 * t).
Proof.
  intros Ht Hs. unfold paddr. destruct Hm. rewrite page_at_main.
  - rewrite main_at_eq by lia. f_equal. lia.
  - unfold in_main. apply within_spec; unfold PAGE_SIZE; lia.
Qed.

Lemma at_page t : 0 <= t -> t < 2 ^ 50 -> at_ m (paddr t) 8 =
  (if 4096 * t + 4096 <=? size m then Ok (R + 4096 * t) else Err (MemoryException "Memory::at() invalid region" (paddr t) 8 false)).
Proof.
  intros Ht Ht'. destruct Hm. unfold at_. destruct (Z.leb_spec (4096 * t + 4096) (size m)).
  - rewrite (proj2 (within_spec (paddr t) 8 ltac:(unfold paddr; lia) ltac:(lia))) by (unfold paddr; lia).
    unfold paddr. rewrite main_at_eq by lia. f_equal. lia.
  - destruct (within m (paddr t) 8) eqn:E; [|by rewrite no_bank].
    apply within_spec in E; unfold paddr in *; [dlia|lia..].
Qed.
End room.

(** ** Virtual addresses *)

(** The page of a virtual address, of which the walk uses 48 bits. *)
Definition page_of (v : Z) : Z := (v mod 2 ^ 48) / 4096 * 4096.

Lemma table_index_div n v : (1 <= n)%nat -> table_index n v = v / 2 ^ (12 + 9 * Z.of_nat (pred n)) mod 512.
Proof.
  intros Hn. unfold table_index. rewrite Z.shiftr_div_pow2 by lia. change 511 with (2 ^ 9 - 1). by rewrite land_ones_mod by lia.
Qed.

Lemma page_of_indices v :
  page_of v = table_index 4 v * 2 ^ 39 + table_index 3 v * 2 ^ 30 + table_index 2 v * 2 ^ 21 + table_index 1 v * 2 ^ 12.
Proof.
  rewrite !table_index_div by lia. cbn [pred]. change (12 + 9 * Z.of_nat 3) with 39. change (12 + 9 * Z.of_nat 2) with 30.
  change (12 + 9 * Z.of_nat 1) with 21. change (12 + 9 * Z.of_nat 0) with 12.
  assert (forall a k, 0 <= k -> v / 2 ^ k mod 2 ^ (9 + a) = v / 2 ^ k mod 512 + 512 * (v / 2 ^ (k + 9) mod 2 ^ a) \/ a < 0) as Hs.
  { intros a k Hk. destruct (decide (a < 0)); [by right|left]. rewrite Z.pow_add_r by lia. change (2 ^ 9) with 512.
    rewrite Z.rem_mul_r by lia. rewrite Z.pow_add_r, <- Z.div_div by lia. done. }
  assert (page_of v = v / 2 ^ 12 mod 2 ^ 36 * 4096) as ->.
  { unfold page_of. f_equal. change (2 ^ 48) with (2 ^ 12 * 2 ^ 36). rewrite Z.rem_mul_r by lia.
    change (2 ^ 12) with 4096. rewrite (Z.mul_comm 4096), Z.div_add by lia.
    rewrite (Z.div_small (v mod 4096)) by (apply Z.mod_pos_bound; lia). lia. }
  destruct (Hs 27 12) as [H1|]; [lia| |lia]. destruct (Hs 18 21) as [H2|]; [lia| |lia]. destruct (Hs 9 30) as [H3|]; [lia| |lia].
  change (9 + 27) with 36 in H1. change (12 + 9) with 21 in H1. change (9 + 18) with 27 in H2. change (21 + 9) with 30 in H2.
  change (9 + 9) with 18 in H3. change (30 + 9) with 39 in H3. change (2 ^ 9) with 512 in H3. rewrite H1, H2, H3.
  generalize (v / 2 ^ 12 mod 512) (v / 2 ^ 21 mod 512) (v / 2 ^ 30 mod 512) (v / 2 ^ 39 mod 512). lia.
Qed.

(** The page of main memory that holds the address itself, after [K] pages of tables. *)
Definition own_page (m : vMemory) (K v : Z) (a : Access) : Prop :=
  physbase m + 4096 * K <= page_of v /\ page_of v + 4096 <= physbase m + size m /\ a_page a = ptr m + (page_of v - physbase m).
(** What user mode may do: use memory after the tables, and read two pages before them. *)
Definition user_safe (m : vMemory) (K v : Z) (a : Access) : Prop :=
  a_user a = true -> own_page m K v a \/ a_write a = false /\ (a_page a = ptr m + USER_ASM_ADDR \/ a_page a = ptr m + VSYS_ADDR).

(** ** Steps of the setup *)

Lemma su_eta s : s = mkSU (with_heap (su_vm s) (h_heap (vhost (su_vm s)))) (su_mm s) (free_page s).
Proof. by destruct s as [[[] ?] ? ?]. Qed.

Section setup.
Context (s0 : SU).
Local Abbreviation m := (vm (su_vm s0)).
Local Abbreviation h0 := (h_heap (vhost (su_vm s0))).
Context (Hm : setup_room m).
Local Abbreviation N := (PD_PAGES m).
Local Abbreviation B := (base2 m).

(** Only the tables and [free_page] change. *)
Definition st (h : heap) (f : Z) : SU := mkSU (with_heap (su_vm s0) h) (su_mm s0) f.
Definition wd (h : heap) (w : Z) : Z := ld64 h (word m w).

Lemma word_aligned w : aligned8 (word m w).
Proof. destruct Hm. unfold aligned8, word. dlia. Qed.

Lemma wd_st h w v w' : wd (st64 h (word m w) v) w' = if decide (w' = w) then v else wd h w'.
Proof.
  unfold wd. case_decide as E; [subst; apply ld64_st64_same|]. apply ld64_st64_other; [apply word_aligned..|]. unfold word. lia.
Qed.

Lemma word_of q : aligned8 q -> q = word m ((q - ptr m) / 8).
Proof. intros Hq. pose proof (word_aligned 0) as H0. unfold aligned8, word in *. dlia. Qed.

Lemma wp_at_idx t i Q X h f : Q (ld64 h (t + 8 * i)) (st h f) -> wp (at_idx t i) Q X (st h f).
Proof. done. Qed.
Lemma wp_set_idx t i v w Q X h f : t + 8 * i = word m w -> Q tt (st (st64 h (word m w) v) f) -> wp (set_idx_ t i v) Q X (st h f).
Proof. intros <-. done. Qed.
Lemma wp_host_at a (Q : Z -> SU -> Prop) (X : exn -> SU -> Prop) h f :
  match at_ m a 8 with Ok p => Q p (st h f) | Err e => X e (st h f) end -> wp (host_at a) Q X (st h f).
Proof. unfold wp, host_at, on_vm, bind, get, lift, st, with_heap. cbn. by destruct (at_ m a 8). Qed.
Lemma wp_take Q X h f : Q f (st h (f ⊕ 0x1000)) -> wp take_free_page Q X (st h f).
Proof. done. Qed.

(** A loop that fills consecutive words. *)
Lemma wp_fill T idx base n lo g h f (Q : unit -> SU -> Prop) X : (forall i, T + 8 * idx i = word m (base + i)) ->
  (forall h', (forall w, wd h' w = if decide (base + lo <= w < base + lo + Z.of_nat n) then g (w - base) else wd h w) ->
     Q tt (st h' f)) ->
  wp (for_range n lo (fun i => set_idx_ T (idx i) (g i))) Q X (st h f).
Proof.
  intros HT HQ. apply (wp_for_range (fun k s => exists h', s = st h' f /\
    forall w, wd h' w = if decide (base + lo <= w < base + k) then g (w - base) else wd h w)).
  - exists h. split; [done|]. intros w. by rewrite decide_False by lia.
  - intros i t Hi (h'&->&Hh'). apply (wp_set_idx _ _ _ (base + i)); [done|].
    eexists. split; [done|]. intros w. rewrite wd_st, Hh'. repeat case_decide; subst; try lia; try done. f_equal. lia.
  - intros t (h'&->&Hh'). apply HQ. intros w. rewrite Hh'. by replace (base + (lo + Z.of_nat n)) with (base + lo + Z.of_nat n) by lia.
Qed.

Lemma word_idx w i : word m w + 8 * i = word m (w + i).
Proof. unfold word. lia. Qed.

(** ** The tables between the phases *)

(** The address that page table [x] of the directories maps at its entry [j]. *)
Definition mapped_at (x j : Z) : Z := giga m * 2 ^ 30 + x * 2 ^ 21 + j * 2 ^ 12.
Definition open_entry (E : Z) : Prop :=
  any_bit E PDE64_PRESENT = true /\ any_bit E PDE64_RW = true /\ any_bit E PDE64_USER = true.
Definition pml4_entry (i : Z) : Z :=
  if i =? 0 then USER_RW .| paddr m 10 else if i =? 511 then PDE64_PRESENT .| PDE64_USER .| paddr m (12 + N) else 0.
Definition pdpt_entry (i : Z) : Z :=
  if (giga m <=? i) && (i <? giga m + N) then USER_RW .| paddr m (12 + (i - giga m)) else 0.
(** A 2MB page of the identity mapping, an entry of a page table of it, and an entry of the first
    page table below the tables. *)
Definition pde_ok (full : bool) (x E : Z) : Prop :=
  E .& PDE64_ADDR_MASK = mapped_at x 0 /\ any_bit E PDE64_CLONEABLE = false /\ any_bit E PDE64_PS = true /\
  (full = true -> open_entry E).
Definition pte_ok (full : bool) (x j E : Z) : Prop :=
  E .& PDE64_ADDR_MASK = mapped_at x j /\ any_bit E PDE64_CLONEABLE = false /\ (full = true -> open_entry E).
Definition low_ok (j E : Z) : Prop :=
  any_bit E PDE64_CLONEABLE = false /\
  (any_bit E PDE64_PRESENT = true -> E .& PDE64_ADDR_MASK = paddr m j /\
     (any_bit E PDE64_USER = true -> j = 5 /\ any_bit E PDE64_RW = false)).

(** [fp] is the number of the next free page; [tab x] the page that holds the page table of
    directory entry [x]. *)
Record tables (full : bool) (h : heap) (fp : Z) (tab : Z -> option Z) : Prop := {
  tb_free : N + 16 <= fp /\ 4096 * fp <= size m;
  tb_root : forall i, 0 <= i < 512 -> wd h (512 * 9 + i) = pml4_entry i;
  tb_giga : forall i, 0 <= i < 512 -> wd h (512 * 10 + i) = pdpt_entry i;
  tb_table : forall x t, 0 <= x < 512 * N -> tab x = Some t ->
    wd h (512 * 12 + x) = USER_RW .| paddr m t /\ (x = B /\ t = 11 \/ B < x /\ N + 15 <= t < fp);
  tb_leaf : forall x, 0 <= x < 512 * N -> tab x = None ->
    x < B /\ wd h (512 * 12 + x) = 0 \/ B < x /\ pde_ok full x (wd h (512 * 12 + x));
  tb_entry : forall x t j, 0 <= x < 512 * N -> x <> B -> tab x = Some t -> 0 <= j < 512 -> pte_ok full x j (wd h (512 * t + j));
  tb_low : forall j, 0 <= j < 9 -> low_ok j (wd h (512 * 11 + j));
  tb_inj : forall x y t, 0 <= x < 512 * N -> 0 <= y < 512 * N -> tab x = Some t -> tab y = Some t -> x = y;
  tb_base : tab B = Some 11;
  tb_vs : forall w, 512 * (12 + N) <= w < 512 * (15 + N) -> wd h w = 0;
  tb_frame : forall w, ~ (512 * 9 <= w < 512 * fp) -> wd h w = wd h0 w }.

(** *** Entries the code writes *)

Lemma mapped_at_bounds x j : 0 <= x < 512 * N -> 0 <= j < 512 -> 0 <= mapped_at x j < 2 ^ 39 /\ mapped_at x j mod 4096 = 0.
Proof.
  intros Hx Hj. pose proof (pd_pages_bounds m Hm). unfold mapped_at. change (2 ^ 30) with 1073741824. change (2 ^ 21) with 2097152.
  change (2 ^ 12) with 4096. change (2 ^ 39) with 549755813888. dlia.
Qed.

Lemma paddr_bounds t : 0 <= t -> 4096 * t <= size m -> 0 <= paddr m t < 2 ^ 63 /\ paddr m t mod 4096 = 0.
Proof. intros Ht Hs. destruct Hm. unfold paddr. change (2 ^ 21) with 2097152 in *. dlia. Qed.

Lemma table_entry_bits t : 0 <= t -> 4096 * t <= size m ->
  (USER_RW .| paddr m t) .& PDE64_ADDR_MASK = paddr m t /\
  forall b, b .& PDE64_FLAGS = b -> any_bit (USER_RW .| paddr m t) b = any_bit USER_RW b.
Proof. intros Ht Hs. destruct (paddr_bounds t Ht Hs). by apply flags_addr. Qed.

Lemma pte_flags full x j f : 0 <= x < 512 * N -> 0 <= j < 512 -> f .& PDE64_FLAGS = f -> any_bit f PDE64_CLONEABLE = false ->
  (full = true -> open_entry f) -> pte_ok full x j (f .| mapped_at x j).
Proof.
  intros Hx Hj Hf Hc Ho. destruct (mapped_at_bounds x j Hx Hj). destruct (flags_addr f (mapped_at x j)) as [Ha Hb]; [lia|done|done|].
  split_and!; [done|by rewrite Hb|]. intros Hfull. destruct (Ho Hfull) as (H1&H2&H3). by split_and!; rewrite Hb.
Qed.

Lemma pde_flags full x f : 0 <= x < 512 * N -> f .& PDE64_FLAGS = f -> any_bit f PDE64_CLONEABLE = false ->
  any_bit f PDE64_PS = true -> (full = true -> open_entry f) -> pde_ok full x (f .| mapped_at x 0).
Proof.
  intros Hx Hf Hc Hps Ho. destruct (pte_flags full x 0 f Hx ltac:(lia) Hf Hc Ho) as (H1&H2&H3).
  destruct (mapped_at_bounds x 0 Hx ltac:(lia)). destruct (flags_addr f (mapped_at x 0)) as [Ha Hb]; [lia|done|done|].
  split_and!; [done..|by rewrite Hb|done].
Qed.

(** The address of a 4K page of the first gigabyte, as the code puts it together. *)
Lemma lor_mapped x j : 0 <= x < 512 -> 0 <= j < 512 -> (giga m .<< 30) .| (x .<< 21) .| (j .<< 12) = mapped_at x j.
Proof.
  intros Hx Hj. pose proof (pd_pages_bounds m Hm). unfold mapped_at.
  assert (2 ^ 30 = 512 * 2 ^ 21 /\ 2 ^ 21 = 512 * 2 ^ 12 /\ 2 ^ 12 = 4096) as (E1&E2&E3) by done.
  rewrite !shl64_small by lia. rewrite lor_add by lia.
  replace (giga m * 2 ^ 30 + x * 2 ^ 21) with ((giga m * 512 + x) * 2 ^ 21) by lia. rewrite lor_add by lia. lia.
Qed.

(** *** Splitting a 2MB page *)

Definition with_tab (tab : Z -> option Z) (x t : Z) : Z -> option Z := fun y => if decide (y = x) then Some t else tab y.

Lemma tables_split full h fp tab x h' : tables full h fp tab -> 0 <= x < 512 * N -> tab x = None -> B < x ->
  4096 * fp + 4096 <= size m ->
  (forall w, wd h' w = if decide (512 * fp <= w < 512 * fp + 512) then wd h' w
                       else if decide (w = 512 * 12 + x) then USER_RW .| paddr m fp else wd h w) ->
  (forall j, 0 <= j < 512 -> pte_ok full x j (wd h' (512 * fp + j))) ->
  tables full h' (fp + 1) (with_tab tab x fp).
Proof.
  intros [] Hx Htx HBx Hfp Hh' Hnew. pose proof (pd_pages_bounds m Hm).
  assert (forall w, w <> 512 * 12 + x -> ~ (512 * fp <= w < 512 * fp + 512) -> wd h' w = wd h w) as Hsame.
  { intros w H1 H2. rewrite Hh'. by rewrite decide_False, decide_False by done. }
  unfold with_tab. split.
  - lia.
  - intros i Hi. rewrite Hsame by lia. auto.
  - intros i Hi. rewrite Hsame by lia. auto.
  - intros y t Hy. case_decide as E; intros Ht.
    + injection Ht as <-. subst y. rewrite Hh'. rewrite decide_False, decide_True by lia. split; [done|]. right. lia.
    + rewrite Hsame by lia. destruct (tb_table0 y t Hy Ht) as [-> ?]. split; [done|lia].
  - intros y Hy. case_decide as E; [done|]. intros Ht. rewrite Hsame by lia. auto.
  - intros y t j Hy HyB. case_decide as E; intros Ht Hj.
    + injection Ht as <-. subst y. auto.
    + destruct (tb_table0 y t Hy Ht) as [_ [?|?]]; [lia|]. rewrite Hsame by lia. eauto.
  - intros j Hj. rewrite Hsame by lia. auto.
  - intros y z t Hy Hz. repeat case_decide; intros Hty Htz; simplify_eq; try done; [..|by eauto].
    + destruct (tb_table0 z t Hz Htz) as [_ ?]. lia.
    + destruct (tb_table0 y t Hy Hty) as [_ ?]. lia.
  - case_decide; [lia|done].
  - intros w Hw. rewrite Hsame by lia. auto.
  - intros w Hw. rewrite Hsame by lia. apply tb_frame0. lia.
Qed.

(** Errors of the code itself may leave the tables in any state. *)
Context (X : exn -> SU -> Prop) (HX : forall e s, defined_exn e -> X e s).

Lemma paddr_next fp : 0 <= fp -> 4096 * fp + 4096 <= size m -> paddr m fp ⊕ 0x1000 = paddr m (fp + 1).
Proof. intros H0 Hfp. destruct Hm. unfold paddr. rewrite add64_small by (unfold u64; lia). lia. Qed.

Lemma host_at_page t Q h f : 0 <= t < 2 ^ 50 -> (4096 * t + 4096 <= size m -> Q (word m (512 * t)) (st h f)) ->
  wp (host_at (paddr m t)) Q X (st h f).
Proof.
  intros Ht HQ. apply wp_host_at. rewrite at_page by (done || lia). destruct (Z.leb_spec (4096 * t + 4096) (size m)).
  - replace (ptr m + 4096 * t) with (word m (512 * t)) by (unfold word; lia). auto.
  - by apply HX.
Qed.

Lemma split_2mb_wp full h fp tab x ef (Q : unit -> SU -> Prop) : tables full h fp tab -> 0 <= x < 512 -> tab x = None -> B < x ->
  ef .& PDE64_FLAGS = ef -> any_bit ef PDE64_CLONEABLE = false -> (full = true -> open_entry ef) ->
  (forall h', tables full h' (fp + 1) (with_tab tab x fp) -> Q tt (st h' (paddr m (fp + 1)))) ->
  wp (split_2mb (word m (512 * 12)) x (giga m) ef) Q X (st h (paddr m fp)).
Proof.
  intros Htb Hx Htx HBx Hf Hc Ho HQ. pose proof (pd_pages_bounds m Hm). pose proof (tb_free _ _ _ _ Htb). destruct Hm.
  unfold split_2mb. apply wp_bind, wp_get. cbn [free_page st].
  apply wp_bind, (wp_set_idx _ _ _ (512 * 12 + x)); [unfold word; lia|].
  apply wp_bind, host_at_page; [lia|]. intros Hroom.
  apply wp_bind, (wp_fill _ (fun i => i) (512 * fp)); [intros; apply word_idx|]. intros h' Hh'. change (Z.of_nat 512) with 512 in Hh'.
  apply wp_bind, wp_take, wp_ret. rewrite paddr_next by lia. apply HQ. eapply tables_split; [done|lia|done|done|done| |].
  - intros w. rewrite Hh', wd_st. repeat case_decide; try lia; done.
  - intros j Hj. rewrite Hh', decide_True by lia. replace (512 * fp + j - 512 * fp) with j by lia.
    rewrite lor_mapped by lia. apply pte_flags; [lia|done|done|done|done].
Qed.

(** *** Changing the protection of an entry *)

Lemma pte_protect x j E r w e : pte_ok false x j E -> pte_ok false x j (protect_entry E r w e).
Proof.
  intros (Ha&Hc&_). destruct (protect_same E r w e) as (Ha'&Hc'&_). split_and!; [by rewrite Ha'|by rewrite Hc'|done].
Qed.
Lemma low_protect j E r w e : low_ok j E -> low_ok j (protect_entry E r w e).
Proof.
  intros [Hc Hp]. destruct (protect_same E r w e) as (Ha'&Hc'&Hu'&_). destruct (protect_rights E r w e) as [HP HR].
  split; [by rewrite Hc'|]. rewrite HP, HR, Ha', Hu'. intros [HP' _]%andb_true_iff. destruct (Hp HP') as [? Hu]. split; [done|].
  intros [? ->]%Hu. done.
Qed.

Lemma tables_protect h fp tab x t j E : tables false h fp tab -> 0 <= x < 512 * N -> tab x = Some t -> 0 <= j < 512 ->
  (forall x' j', pte_ok false x' j' (wd h (512 * t + j)) -> pte_ok false x' j' E) ->
  (forall j', low_ok j' (wd h (512 * t + j)) -> low_ok j' E) ->
  tables false (st64 h (word m (512 * t + j)) E) fp tab.
Proof.
  intros Htb Hx Ht Hj Hpte Hlow. pose proof (pd_pages_bounds m Hm). destruct Htb.
  destruct (tb_table0 x t Hx Ht) as [_ Hwhere].
  split; [done|..|done|done| |].
  - intros i Hi. rewrite wd_st, decide_False by lia. auto.
  - intros i Hi. rewrite wd_st, decide_False by lia. auto.
  - intros y t' Hy Hy'. rewrite wd_st, decide_False by lia. auto.
  - intros y Hy Hy'. rewrite wd_st, decide_False by lia. auto.
  - intros y t' i Hy HyB Hy' Hi. rewrite wd_st. case_decide as E'; [|eauto].
    apply Hpte. rewrite <- E'. eauto.
  - intros i Hi. rewrite wd_st. case_decide as E'; [|auto]. apply Hlow. rewrite <- E'. auto.
  - intros w Hw. rewrite wd_st, decide_False by lia. auto.
  - intros w Hw. rewrite wd_st, decide_False by lia. auto.
Qed.

Lemma leaf_entry_ok x r w e : 0 <= x < 512 -> pde_ok false x (leaf_entry ((giga m .<< 30) .| (x .<< 21)) r w e).
Proof.
  intros Hx. pose proof (pd_pages_bounds m Hm).
  assert ((giga m .<< 30) .| (x .<< 21) = mapped_at x 0) as ->.
  { rewrite <- lor_mapped by lia. change (0 .<< 12) with 0. by rewrite Z.lor_0_r. }
  destruct (mapped_at_bounds x 0) as [H1 H2]; [lia..|].
  destruct (flags_addr (PDE64_PRESENT .| PDE64_USER .| PDE64_NX .| PDE64_PS) (mapped_at x 0)) as [Ha Hb]; [lia|done|done|].
  set (E := _ .| mapped_at x 0) in *. unfold leaf_entry. fold E. split_and!; [..|done].
  - rewrite <- Ha. destruct r, w, e; repeat (first [rewrite land_lor_off by reflexivity | rewrite land_not_off by reflexivity]); done.
  - transitivity (any_bit E PDE64_CLONEABLE); [|by rewrite (Hb PDE64_CLONEABLE eq_refl)].
    destruct r, w, e; repeat (first [rewrite any_bit_off by reflexivity | rewrite any_bit_not_off by reflexivity]); done.
  - transitivity (any_bit E PDE64_PS); [|by rewrite (Hb PDE64_PS eq_refl)].
    destruct r, w, e; repeat (first [rewrite any_bit_off by reflexivity | rewrite any_bit_not_off by reflexivity]); done.
Qed.

Lemma tables_leaf h fp tab x E : tables false h fp tab -> 0 <= x < 512 * N -> tab x = None -> B < x -> pde_ok false x E ->
  tables false (st64 h (word m (512 * 12 + x)) E) fp tab.
Proof.
  intros Htb Hx Htx HB HE. pose proof (pd_pages_bounds m Hm). destruct Htb. split; [done|..|done|done| |].
  - intros i Hi. rewrite wd_st, decide_False by lia. auto.
  - intros i Hi. rewrite wd_st, decide_False by lia. auto.
  - intros y t Hy Hy'. rewrite wd_st, decide_False by (intros ?; assert (y = x) by lia; congruence). auto.
  - intros y Hy Hy'. rewrite wd_st. case_decide as E'; [|auto]. right. assert (y = x) as -> by lia. done.
  - intros y t i Hy HyB Hy' Hi. destruct (tb_table0 y t Hy Hy') as [_ ?]. rewrite wd_st, decide_False by lia. eauto.
  - intros i Hi. rewrite wd_st, decide_False by lia. auto.
  - intros w Hw. rewrite wd_st, decide_False by lia. auto.
  - intros w Hw. rewrite wd_st, decide_False by lia. auto.
Qed.

(** What the directory entry [x] says about the table behind it. *)
Lemma directory_entry full h fp tab x : tables full h fp tab -> 0 <= x < 512 * N ->
  if any_bit (wd h (512 * 12 + x)) PDE64_PS then tab x = None /\ B < x /\ pde_ok full x (wd h (512 * 12 + x))
  else (exists t, tab x = Some t /\ wd h (512 * 12 + x) .& PDE64_ADDR_MASK = paddr m t /\ 0 <= t < fp) \/
       wd h (512 * 12 + x) = 0 /\ x < B.
Proof.
  intros Htb Hx. pose proof (pd_pages_bounds m Hm). destruct Htb. destruct (tab x) as [t|] eqn:Ht.
  - destruct (tb_table0 x t Hx Ht) as [-> Hw]. destruct (table_entry_bits t) as [Ha Hb]; [lia..|].
    rewrite (Hb PDE64_PS eq_refl). left. exists t. split_and!; [done|done|lia|lia].
  - destruct (tb_leaf0 x Hx Ht) as [[? ->]|[? Hp]]; [by right|]. by rewrite (proj1 (proj2 (proj2 Hp))).
Qed.

Definition in_setup (s : SU) : Prop := exists h fp tab, s = st h (paddr m fp) /\ tables false h fp tab.

Lemma tables_small full h fp tab : tables full h fp tab -> 0 <= fp < 2 ^ 50.
Proof. intros []. pose proof (pd_pages_bounds m Hm). destruct Hm. lia. Qed.

Lemma segment_page_wp sh addr end_ r w e s : in_setup s -> 0 <= addr < 2 ^ 62 ->
  wp (segment_page (word m (512 * 12)) (giga m) sh addr end_ r w e)
    (fun a s' => in_setup s' /\ (a = addr + 4096 \/ a = addr + 2 ^ 21)) X s.
Proof.
  intros (h&fp&tab&->&Htb) Haddr. pose proof (pd_pages_bounds m Hm). unfold segment_page.
  pose proof (index_bound addr 21) as Hx. set (x := (addr .>> 21) .& 511) in *.
  apply wp_bind, wp_at_idx. replace (word m (512 * 12) + 8 * x) with (word m (512 * 12 + x)) by (unfold word; lia).
  fold (wd h (512 * 12 + x)). pose proof (directory_entry false h fp tab x Htb ltac:(lia)) as Hd.
  apply wp_if; intros Hc.
  - rewrite !andb_true_iff, Z.eqb_eq in Hc. destruct Hc as [_ Hps%Z.eqb_eq].
    assert (any_bit (wd h (512 * 12 + x)) PDE64_PS = true) as Hps' by (unfold any_bit; by rewrite Hps).
    rewrite Hps' in Hd. destruct Hd as (Ht&HB&_).
    apply wp_bind, (wp_set_idx _ _ _ (512 * 12 + x)); [unfold word; lia|]. apply wp_ret.
    rewrite add64_small by (unfold u64; lia). split; [|by right].
    eexists _, fp, tab. split; [done|]. apply tables_leaf; [done|lia|done|done|]. by apply leaf_entry_ok.
  - clear Hc. apply wp_bind.
    eapply (wp_mono _ (fun _ s => exists h fp tab, s = st h (paddr m fp) /\ tables false h fp tab /\
      any_bit (wd h (512 * 12 + x)) PDE64_PS = false) _ X); [|clear h fp tab Htb Hd|done].
    + apply wp_when; intros Hps; rewrite Hps in Hd; [|by eauto 10]. destruct Hd as (Ht&HB&_).
      eapply split_2mb_wp; [done|lia|done|done|done|done|done|]. intros h' Htb'.
      exists h', (fp + 1), (with_tab tab x fp). split_and!; [done|done|].
      destruct (tb_table _ _ _ _ Htb' x fp) as [-> _]; [lia|unfold with_tab; by rewrite decide_True|].
      pose proof (tb_free _ _ _ _ Htb). destruct (table_entry_bits fp) as [_ Hb]; [lia..|]. by rewrite (Hb PDE64_PS eq_refl).
    + intros [] s (h&fp&tab&->&Htb&Hps). pose proof (directory_entry false h fp tab x Htb ltac:(lia)) as Hd. rewrite Hps in Hd.
      apply wp_bind, wp_at_idx. replace (word m (512 * 12) + 8 * x) with (word m (512 * 12 + x)) by (unfold word; lia).
      fold (wd h (512 * 12 + x)). destruct Hd as [(t&Ht&->&Htr)|[-> HxB]].
      * pose proof (tables_small _ _ _ _ Htb). apply wp_bind, host_at_page; [lia|]. intros _.
        pose proof (index_bound addr 12) as Hj. set (j := (addr .>> 12) .& 511) in *.
        apply wp_bind, wp_at_idx. replace (word m (512 * t) + 8 * j) with (word m (512 * t + j)) by (unfold word; lia).
        fold (wd h (512 * t + j)). apply wp_bind, (wp_set_idx _ _ _ (512 * t + j)); [unfold word; lia|]. apply wp_ret.
        rewrite add64_small by (unfold u64; lia). split; [|by left]. eexists _, fp, tab. split; [done|].
        apply (tables_protect h fp tab x); [done|lia|done|done|intros; by apply pte_protect|intros; by apply low_protect].
      * apply wp_bind, wp_host_at. assert (at_ m (0 .& PDE64_ADDR_MASK) 8 = Err (MemoryException "Memory::at() invalid region" 0 8 false)) as ->; [|by apply HX].
        change (0 .& PDE64_ADDR_MASK) with 0. unfold at_. destruct (within m 0 8) eqn:Ew; [|by rewrite no_bank].
        apply within_spec in Ew; [|done|lia..]. lia.
Qed.

Lemma segment_pages_wp sh r w e end_ fuel addr s : in_setup s -> 0 <= addr -> end_ < 2 ^ 61 -> end_ - addr <= 4096 * Z.of_nat fuel ->
  wp (segment_pages (word m (512 * 12)) (giga m) sh fuel addr end_ r w e) (fun _ s' => in_setup s') X s.
Proof.
  revert addr s. induction fuel as [|fuel IH]; intros addr s Hs Ha He Hf; cbn [segment_pages];
    destruct (Z.ltb_spec addr end_); try (by apply wp_ret); [lia|].
  apply wp_bind. eapply wp_mono; [by apply segment_page_wp; [|lia]| |done].
  intros a t [Ht Ha']. apply IH; [done|lia..].
Qed.

Lemma load_segment_wp sh ib hdr s : in_setup s ->
  wp (load_segment_pages (word m (512 * 12)) (giga m) sh ib hdr) (fun _ s' => in_setup s') X s.
Proof.
  intros Hs. unfold load_segment_pages. apply wp_when; intros _; [|done]. apply wp_bind, wp_get.
  assert (vm (su_vm s) = m) as -> by (by destruct Hs as (h&fp&tab&->&_)).
  destruct (safely_within m (ib ⊕ p_vaddr hdr) (p_filesz hdr)) eqn:Hw; cbn [negb]; [|by apply wp_throw, HX].
  set (la := ib ⊕ p_vaddr hdr) in *. assert (u64 la) as Hla by apply wrap64_u64.
  unfold safely_within in Hw. apply andb_true_iff in Hw as [_ Hw%Z.leb_le].
  assert (u64 (la ⊕ p_filesz hdr)) as Hu by apply wrap64_u64. destruct Hm. rewrite (add64_small (physbase m)) in Hw by (unfold u64; lia).
  rewrite (add64_small (la ⊕ p_filesz hdr)) by (unfold u64 in *; lia).
  assert (forall y, u64 y -> y .& not64 0xFFF = y / 4096 * 4096) as Hal by (intros y Hy; by apply (land_not_ones y 12)).
  rewrite !Hal by (unfold u64 in *; lia). unfold u64 in *. apply segment_pages_wp; [done|dlia..].
Qed.

Lemma segments_wp sh ib phdrs s : in_setup s ->
  wp (for_each phdrs (load_segment_pages (word m (512 * 12)) (giga m) sh ib)) (fun _ s' => in_setup s') X s.
Proof.
  revert s. induction phdrs as [|hdr phdrs IH]; intros s Hs; cbn [for_each]; [by apply wp_ret|].
  apply wp_bind. eapply wp_mono; [by apply load_segment_wp| |done]. intros [] t Ht. by apply IH.
Qed.

(** *** The identity mapping *)

Definition pd_fill (i : Z) : Z := PDE64_PRESENT .| PDE64_PS .| heap_flags m .| ((giga m .<< 30) ⊕ (i .<< 21)).

Lemma heap_flags_bits f : f = PDE64_PRESENT .| heap_flags m \/ f = PDE64_PRESENT .| PDE64_PS .| heap_flags m ->
  f .& PDE64_FLAGS = f /\ any_bit f PDE64_CLONEABLE = false /\ open_entry f.
Proof. unfold heap_flags, open_entry. intros [->| ->]; by destruct (executable_heap m). Qed.

Lemma pd_fill_ok full i : 0 <= i < 512 * N -> pde_ok full i (pd_fill i).
Proof.
  intros Hi. pose proof (pd_pages_bounds m Hm). unfold pd_fill.
  assert ((giga m .<< 30) ⊕ (i .<< 21) = mapped_at i 0) as ->.
  { unfold mapped_at. rewrite !shl64_small, add64_small by (unfold u64; lia). lia. }
  destruct (heap_flags_bits (PDE64_PRESENT .| PDE64_PS .| heap_flags m)) as (?&?&?); [by right|].
  apply pde_flags; [done|done|done| |done]. unfold heap_flags. by destruct (executable_heap m).
Qed.

(** The second loop of [setup_heap]. *)
Lemma split_all_wp full h fp tab n : tables full h fp tab -> n = 512 * N ->
  wp (for_range (Z.to_nat (Z.min n 512 - (B + 2))) (B + 2) (fun i =>
       let! s := get in
       when (free_page s <? MAX_FREE_PAGE)
         (let! e := at_idx (word m (512 * 12)) i in
          when (any_bit e PDE64_PS) (split_2mb (word m (512 * 12)) i (giga m) (PDE64_PRESENT .| heap_flags m)))))
    (fun _ s => exists h fp tab, s = st h (paddr m fp) /\ tables full h fp tab) X (st h (paddr m fp)).
Proof.
  intros Htb ->. pose proof (pd_pages_bounds m Hm).
  apply (wp_for_range (fun _ s => exists h fp tab, s = st h (paddr m fp) /\ tables full h fp tab)); [by eauto 10| |done].
  clear h fp tab Htb. intros i s Hi (h&fp&tab&->&Htb). apply wp_bind, wp_get. apply wp_when; intros _; [|by eauto 10].
  apply wp_bind, wp_at_idx. replace (word m (512 * 12) + 8 * i) with (word m (512 * 12 + i)) by (unfold word; lia).
  fold (wd h (512 * 12 + i)). pose proof (directory_entry full h fp tab i Htb ltac:(lia)) as Hd.
  apply wp_when; intros Hps; rewrite Hps in Hd; [|by eauto 10]. destruct Hd as (Ht&HB&_).
  destruct (heap_flags_bits (PDE64_PRESENT .| heap_flags m)) as (?&?&?); [by left|].
  eapply split_2mb_wp; [done|lia|done|done|done|done|done|]. eauto 10.
Qed.

(** ** The first phase *)

Context (Hzero : forall w, 512 * 9 <= w < 512 * (15 + N) -> wd h0 w = 0).

Lemma setup_numbers :
  (size m ⊕ (2 ^ 30 - 1)) .>> 30 = N /\ 0x3000 ⊕ mul64 N 0x1000 = 4096 * (3 + N) /\
  (physbase m .>> 30) .& 511 = giga m /\ (physbase m .>> 21) .& 511 = B /\ page_tables m = paddr m 9.
Proof.
  pose proof (pd_pages_bounds m Hm) as (?&?&?&?&?&?). destruct Hm. split_and!.
  - rewrite add64_small by (unfold u64; lia). by rewrite Z.shiftr_div_pow2 by lia.
  - rewrite mul64_small, add64_small by (unfold u64; lia). lia.
  - rewrite Z.shiftr_div_pow2 by lia. change 511 with (2 ^ 9 - 1). rewrite land_ones_mod by lia. apply Z.mod_small. fold (giga m). lia.
  - rewrite Z.shiftr_div_pow2 by lia. change 511 with (2 ^ 9 - 1). by rewrite land_ones_mod by lia.
  - rewrite sr_root0. unfold paddr, PT_ADDR. lia.
Qed.

Lemma paddr_add t c : 0 <= t -> 0 <= c -> 4096 * (t + c) <= size m -> paddr m t ⊕ (4096 * c) = paddr m (t + c).
Proof. intros. destruct Hm. unfold paddr. rewrite add64_small by (unfold u64; lia). lia. Qed.

Definition first_tab (x : Z) : option Z := if decide (x = B) then Some 11 else if decide (x = B + 1) then Some (N + 15) else None.


(** The words after the first phase, in the reverse order of the stores. *)
Definition first_word (w : Z) : Z :=
  if decide (512 * 12 + (B + 2) <= w < 512 * 12 + 512 * N) then pd_fill (w - 512 * 12)
  else if decide (512 * (15 + N) <= w < 512 * (15 + N) + 512) then
    USER_RW .| PDE64_NX .| ((giga m .<< 30) ⊕ ((B + 1) .<< 21) ⊕ ((w - 512 * (15 + N)) .<< 12))
  else if decide (w = 512 * 12 + (B + 1)) then USER_RW .| paddr m (15 + N)
  else if decide (w = 512 * 11 + 5) then PDE64_PRESENT .| PDE64_USER .| PDE64_G .| paddr m 5
  else if decide (w = 512 * 11 + 4) then 0
  else if decide (w = 512 * 11 + 3) then PDE64_PRESENT .| PDE64_RW .| PDE64_NX .| paddr m 3
  else if decide (w = 512 * 11 + 2) then PDE64_PRESENT .| PDE64_G .| paddr m 2
  else if decide (w = 512 * 11 + 7) then PDE64_PRESENT .| PDE64_G .| PDE64_NX .| paddr m 7
  else if decide (w = 512 * 11 + 6) then PDE64_PRESENT .| PDE64_G .| PDE64_NX .| paddr m 6
  else if decide (w = 512 * 11 + 1) then PDE64_PRESENT .| PDE64_RW .| PDE64_NX .| paddr m 1
  else if decide (w = 512 * 11 + 0) then 0
  else if decide (w = 512 * 12 + B) then USER_RW .| paddr m 11
  else if decide (512 * 10 + giga m <= w < 512 * 10 + giga m + N) then USER_RW .| paddr m (12 + (w - (512 * 10 + giga m)))
  else if decide (w = 512 * 9 + 511) then PDE64_PRESENT .| PDE64_USER .| paddr m (12 + N)
  else if decide (w = 512 * 9 + 0) then USER_RW .| paddr m 10
  else wd h0 w.

(** Decide where a word is; [lia] excludes the other places. *)
Local Ltac find_word := unfold first_word; repeat (case_decide; try lia); try done.

Lemma low_flags f j : f .& PDE64_FLAGS = f -> any_bit f PDE64_CLONEABLE = false -> 0 <= j < 9 ->
  (any_bit f PDE64_USER = true -> j = 5 /\ any_bit f PDE64_RW = false) -> low_ok j (f .| paddr m j).
Proof.
  intros Hf Hc Hj Hu. pose proof (pd_pages_bounds m Hm). destruct (paddr_bounds j) as [H1 H2]; [lia..|].
  destruct (flags_addr f (paddr m j) H1 H2 Hf) as [Ha Hb]. split; [by rewrite Hb|]. intros _. split; [done|].
  rewrite !Hb by done. done.
Qed.

Lemma low_zero j : low_ok j 0.
Proof. by split. Qed.

Lemma first_tables h : (forall w, wd h w = first_word w) -> tables true h (N + 16) first_tab.
Proof.
  intros Hw. pose proof (pd_pages_bounds m Hm) as (HN1&HG&HG0&Hroom&HB&HP). unfold first_tab. split.
  - lia.
  - intros i Hi. rewrite Hw. unfold pml4_entry. destruct (Z.eqb_spec i 0) as [->|]; [find_word|].
    destruct (Z.eqb_spec i 511) as [->|]; [find_word|]. rewrite <- (Hzero (512 * 9 + i)) by lia. find_word.
  - intros i Hi. rewrite Hw. unfold pdpt_entry. destruct (Z.leb_spec (giga m) i), (Z.ltb_spec i (giga m + N)); cbn [andb].
    1: find_word; do 2 f_equal; lia.
    all: rewrite <- (Hzero (512 * 10 + i)) by lia; find_word.
  - intros x t Hx. repeat case_decide; intros [= <-]; subst; (split; [|lia]); rewrite Hw; find_word; do 2 f_equal; lia.
  - intros x Hx. repeat case_decide; [done..|]. intros _. rewrite Hw.
    destruct (decide (x < B)).
    + left. split; [done|]. rewrite <- (Hzero (512 * 12 + x)) by lia. find_word.
    + right. split; [lia|]. replace (first_word (512 * 12 + x)) with (pd_fill x); [by apply pd_fill_ok|].
      find_word. f_equal. lia.
  - intros x t j Hx HxB. repeat case_decide; intros [= <-] Hj; subst; [done|]. rewrite Hw.
    replace (first_word (512 * (N + 15) + j)) with (USER_RW .| PDE64_NX .| mapped_at (B + 1) j); [by apply pte_flags|].
    find_word. f_equal. unfold mapped_at. rewrite !shl64_small by lia.
    rewrite (add64_small (giga m * 2 ^ 30)), add64_small by (unfold u64; lia). lia.
  - intros j Hj. rewrite Hw. assert (j = 0 \/ j = 1 \/ j = 2 \/ j = 3 \/ j = 4 \/ j = 5 \/ j = 6 \/ j = 7 \/ j = 8) as Hj' by lia.
    destruct_or! Hj'; subst; find_word; try apply low_zero; try (apply low_flags; [done|done|lia|done]).
    rewrite Hzero by lia. apply low_zero.
  - intros x y t Hx Hy. repeat case_decide; intros; simplify_eq; lia.
  - by rewrite decide_True.
  - intros w Hw'. rewrite Hw, <- (Hzero w) by lia. find_word.
  - intros w Hw'. rewrite Hw. find_word.
Qed.

(** ** The last phase *)

(** The words at the end: the vsyscall page, and the first 2MB after [K] pages of tables. *)
Definition last_word (h : heap) (K w : Z) : Z :=
  if decide (512 * 11 + K <= w < 512 * 11 + 512) then USER_RW .| PDE64_NX .| (giga m .<< 30) .| (B .<< 21) .| ((w - 512 * 11) .<< 12)
  else if decide (512 * 11 + 9 <= w < 512 * 11 + K) then PDE64_PRESENT .| PDE64_G .| PDE64_NX
  else if decide (w = 512 * (14 + N) + 0) then PDE64_PRESENT .| PDE64_USER .| PDE64_G .| paddr m 6
  else if decide (w = 512 * (13 + N) + 507) then PDE64_PRESENT .| PDE64_USER .| PDE64_G .| paddr m (14 + N)
  else if decide (w = 512 * (12 + N) + 511) then PDE64_PRESENT .| PDE64_USER .| PDE64_G .| paddr m (13 + N)
  else wd h w.

Record finished (full : bool) (h : heap) (K : Z) : Prop := {
  fn_K : N + 16 <= K < 512;
  fn_tables : exists h1 tab, tables full h1 K tab /\ forall w, wd h w = last_word h1 K w }.

Lemma walk_check_wp a cb (Q : unit -> SU -> Prop) h f : (forall b ep sz, wp (cb b ep sz) Q X (st h f)) -> 
  wp (page_at_walk su_vm a cb false) Q X (st h f).
Proof.
  intros Hcb. assert (forall b, wp (table_at su_vm b) (fun _ s => s = st h f) X (st h f)) as Htab.
  { intros b. unfold table_at. apply wp_bind, wp_get, wp_lift. cbn [su_vm st vm with_heap].
    rewrite page_at_eq, no_bank, (sr_remote _ Hm) by done. unfold mmap_lookup. rewrite (sr_maps _ Hm).
    destruct (within _ _ _); [done|by apply HX]. }
  assert (forall msg b sz, wp (page_at_missing false msg b sz) Q X (st h f)) as Hmiss by (intros; by apply wp_throw, HX).
  unfold page_at_walk. apply wp_bind, wp_get. apply wp_bind. eapply wp_mono; [apply Htab| |done]. intros pml4 s ->.
  apply wp_bind, wp_gets. apply wp_if; intros _; [|done]. unfold pdpt_from_index.
  apply wp_bind. eapply wp_mono; [apply Htab| |done]. intros pdpt s ->.
  apply wp_bind, wp_gets. apply wp_if; intros _; [|done]. unfold pd_from_index.
  apply wp_bind. eapply wp_mono; [apply Htab| |done]. intros pd s ->.
  apply wp_bind, wp_gets. apply wp_if; intros _; [|done]. unfold pt_from_index. apply wp_if; intros _; [done|].
  apply wp_bind. eapply wp_mono; [apply Htab| |done]. intros pt s ->.
  apply wp_bind, wp_gets. apply wp_if; intros _; [unfold pte_from_index; apply Hcb|done].
Qed.

Lemma low_area_wp h K (Q : unit -> SU -> Prop) : N + 16 <= K < 512 ->
  (forall h', (forall w, wd h' w = if decide (512 * 11 + K <= w < 512 * 11 + 512) then USER_RW .| PDE64_NX .| (giga m .<< 30) .| (B .<< 21) .| ((w - 512 * 11) .<< 12)
     else if decide (512 * 11 + 9 <= w < 512 * 11 + K) then PDE64_PRESENT .| PDE64_G .| PDE64_NX else wd h w) -> Q tt (st h' (paddr m K))) ->
  wp (setup_low_area (word m (512 * 11)) (giga m) B) Q X (st h (paddr m K)).
Proof.
  intros HK HQ. pose proof (pd_pages_bounds m Hm) as (HN1&HG&HG0&Hroom&HB&HP). unfold setup_low_area. apply wp_bind, wp_get.
  cbn [free_page st].
  assert ((paddr m K .>> 12) .& 511 = K) as ->.
  { rewrite Z.shiftr_div_pow2 by lia. change 511 with (2 ^ 9 - 1). rewrite land_ones_mod by lia. unfold paddr.
    change (2 ^ 12) with 4096. change (2 ^ 9) with 512. change (2 ^ 30) with 1073741824 in *. change (2 ^ 21) with 2097152 in *. dlia. }
  change (PT_ADDR .>> 12) with 9. apply wp_bind.
  apply (wp_fill _ (fun i => i) (512 * 11) _ _ (fun _ => PDE64_PRESENT .| PDE64_G .| PDE64_NX)); [intros; apply word_idx|]. intros h1 Hh1.
  apply (wp_fill _ (fun i => i) (512 * 11)); [intros; apply word_idx|]. intros h2 Hh2. apply HQ. intros w. rewrite Hh2, Hh1.
  replace (512 * 11 + K + Z.of_nat (Z.to_nat (512 - K))) with (512 * 11 + 512) by lia.
  replace (512 * 11 + 9 + Z.of_nat (Z.to_nat (K - 9))) with (512 * 11 + K) by lia. done.
Qed.

Lemma low_area_any h f : wp (setup_low_area (word m (512 * 11)) (giga m) B) (fun _ s => exists h', s = st h' f) X (st h f).
Proof.
  unfold setup_low_area. apply wp_bind, wp_get. apply wp_bind.
  apply (wp_fill _ (fun i => i) (512 * 11) _ _ (fun _ => PDE64_PRESENT .| PDE64_G .| PDE64_NX)); [intros; apply word_idx|]. intros h1 _.
  apply (wp_fill _ (fun i => i) (512 * 11)); [intros; apply word_idx|]. eauto.
Qed.

Definition no_load (phdrs : list Elf64_Phdr) : bool := forallb (fun h => negb (p_type h =? PT_LOAD)) phdrs.

Lemma tables_weaken full h fp tab : tables full h fp tab -> tables false h fp tab.
Proof.
  intros []. split; auto.
  - intros x Hx Ht. destruct (tb_leaf0 x Hx Ht) as [?|(?&?&?&?&_)]; [by left|right]. by split_and!.
  - intros x t j Hx HB Ht Hj. destruct (tb_entry0 x t j Hx HB Ht Hj) as (?&?&_). by split_and!.
Qed.

Lemma segments_full sh ib phdrs h fp tab : tables true h fp tab ->
  wp (for_each phdrs (load_segment_pages (word m (512 * 12)) (giga m) sh ib))
    (fun _ s => exists h' fp' tab', s = st h' (paddr m fp') /\ tables (no_load phdrs) h' fp' tab') X (st h (paddr m fp)).
Proof.
  intros Htb. destruct (no_load phdrs) eqn:Hn.
  - enough (wp (for_each phdrs (load_segment_pages (word m (512 * 12)) (giga m) sh ib)) (fun _ s => s = st h (paddr m fp)) X (st h (paddr m fp))) as H.
    { eapply wp_mono; [exact H| |done]. intros [] s ->. eauto 10. }
    induction phdrs as [|hdr phdrs IH]; cbn [for_each]; [by apply wp_ret|].
    cbn [no_load forallb] in Hn. apply andb_true_iff in Hn as [Hh Hn]. apply negb_true_iff in Hh.
    unfold load_segment_pages. rewrite Hh. cbn [when]. apply wp_bind, wp_ret. auto.
  - apply segments_wp. exists h, fp, tab. split; [done|]. by eapply tables_weaken.
Qed.

Lemma setup_lowpage_wp h f (Q : unit -> SU -> Prop) :
  (forall h', (forall w, wd h' w =
     if decide (w = 512 * 11 + 5) then PDE64_PRESENT .| PDE64_USER .| PDE64_G .| paddr m 5
     else if decide (w = 512 * 11 + 4) then 0
     else if decide (w = 512 * 11 + 3) then PDE64_PRESENT .| PDE64_RW .| PDE64_NX .| paddr m 3
     else if decide (w = 512 * 11 + 2) then PDE64_PRESENT .| PDE64_G .| paddr m 2
     else if decide (w = 512 * 11 + 7) then PDE64_PRESENT .| PDE64_G .| PDE64_NX .| paddr m 7
     else if decide (w = 512 * 11 + 6) then PDE64_PRESENT .| PDE64_G .| PDE64_NX .| paddr m 6
     else if decide (w = 512 * 11 + 1) then PDE64_PRESENT .| PDE64_RW .| PDE64_NX .| paddr m 1
     else if decide (w = 512 * 11 + 0) then 0 else wd h w) -> Q tt (st h' f)) ->
  wp (setup_lowpage (word m (512 * 11)) (physbase m)) Q X (st h f).
Proof.
  intros HQ. pose proof (pd_pages_bounds m Hm) as (HN1&HG&HG0&Hroom&HB&HP).
  assert (forall t, 0 <= t < 10 -> physbase m ⊕ (4096 * t) = paddr m t) as Hp.
  { intros t Ht. destruct Hm. unfold paddr. apply add64_small. unfold u64. lia. }
  unfold setup_lowpage.
  apply wp_bind, (wp_set_idx _ _ _ (512 * 11 + 0)); [unfold word; lia|].
  apply wp_bind, (wp_set_idx _ _ _ (512 * 11 + 1)); [unfold word; lia|].
  apply wp_bind, (wp_set_idx _ _ _ (512 * 11 + 6)); [unfold word; lia|].
  apply wp_bind, (wp_set_idx _ _ _ (512 * 11 + 7)); [unfold word; lia|].
  apply wp_bind, (wp_set_idx _ _ _ (512 * 11 + 2)); [unfold word; change (INTR_ASM_ADDR .>> 12) with 2; lia|].
  apply wp_bind, (wp_set_idx _ _ _ (512 * 11 + 3)); [unfold word; change (IST_ADDR .>> 12) with 3; lia|].
  apply wp_bind, (wp_set_idx _ _ _ (512 * 11 + 4)); [unfold word; change (IST_ADDR .>> 12) with 3; lia|].
  apply (wp_set_idx _ _ _ (512 * 11 + 5)); [unfold word; change (USER_ASM_ADDR .>> 12) with 5; lia|].
  apply HQ. intros w. rewrite !wd_st, <- !Hp by lia. done.
Qed.

(** The stores of the last phase, and the checks. *)
Definition last_phase : M SU Z :=
  set_idx_ (word m (512 * 9) + 4096 * (3 + N)) 511 (PDE64_PRESENT .| PDE64_USER .| PDE64_G .| paddr m (13 + N)) ;;;
  set_idx_ (word m (512 * 9) + 4096 * (3 + N) + 0x1000) 507 (PDE64_PRESENT .| PDE64_USER .| PDE64_G .| paddr m (14 + N)) ;;;
  set_idx_ (word m (512 * 9) + 4096 * (3 + N) + 0x2000) 0 (PDE64_PRESENT .| PDE64_USER .| PDE64_G .| (physbase m ⊕ VSYS_ADDR)) ;;;
  setup_low_area (word m (512 * 11)) (giga m) B ;;;
  let! s := get in
  if physbase m ⊕ 2 ^ 21 <=? free_page s then throw (MachineException "Pagetable setup exceeded 2MB limit" 0)
  else
    page_at_walk su_vm (physbase m ⊕ 0x1000) (fun addr ep sz =>
      let! entry := on_vm (rd ep) in
      if negb (addr =? physbase m ⊕ 0x1000) || negb (sz =? PAGE_SIZE)
         || negb (entry .& PDE64_ADDR_MASK =? physbase m ⊕ 0x1000)
      then throw (MachineException "Corrupted kernel-page during paging initialization" 0) else ret tt) false ;;;
    ret (free_page s).

Lemma last_phase_wp full h fp tab : tables full h fp tab ->
  wp last_phase (fun r s => exists h K, s = st h (paddr m K) /\ r = paddr m K /\ finished full h K) X (st h (paddr m fp)).
Proof.
  intros Htb. pose proof (pd_pages_bounds m Hm) as (HN1&HG&HG0&Hroom&HB&HP). pose proof (tb_free _ _ _ _ Htb) as [Hfp Hsz].
  assert (physbase m ⊕ 2 ^ 21 = paddr m 512 /\ physbase m ⊕ VSYS_ADDR = paddr m 6) as [E1 E2].
  { destruct Hm. unfold paddr, VSYS_ADDR. rewrite !add64_small by (unfold u64; lia). split; lia. }
  unfold last_phase. rewrite E1, E2.
  apply wp_bind, (wp_set_idx _ _ _ (512 * (12 + N) + 511)); [unfold word; lia|].
  apply wp_bind, (wp_set_idx _ _ _ (512 * (13 + N) + 507)); [unfold word; lia|].
  apply wp_bind, (wp_set_idx _ _ _ (512 * (14 + N) + 0)); [unfold word; lia|]. apply wp_bind.
  destruct (decide (fp < 512)) as [HK|HK].
  - apply low_area_wp; [lia|]. intros h' Hh'. apply wp_bind, wp_get. cbn [free_page st].
    rewrite (proj2 (Z.leb_gt _ _)) by (unfold paddr; lia). apply wp_bind, walk_check_wp.
    intros b ep sz. apply wp_bind. change (wp (on_vm (rd ep)) ?Q _ _) with (Q (ld64 h' ep) (st h' (paddr m fp))). cbn beta.
    apply wp_if; intros _; [by apply wp_throw, HX|]. apply wp_ret, wp_ret. exists h', fp. split_and!; [done|done|].
    split; [lia|]. exists h, tab. split; [done|]. intros w. by rewrite Hh', !wd_st.
  - eapply wp_mono; [apply low_area_any| |done]. intros [] s (h'&->). apply wp_bind, wp_get. cbn [free_page st].
    rewrite (proj2 (Z.leb_le _ _)) by (unfold paddr; lia). by apply wp_throw, HX.
Qed.

Lemma setup_wp phdrs ib sh sa :
  wp (setup_amd64_paging phdrs ib [] sh sa)
    (fun r s => exists h K, s = st h (paddr m K) /\ r = paddr m K /\ finished (no_load phdrs) h K) X s0.
Proof.
  pose proof (pd_pages_bounds m Hm) as (HN1&HG&HG0&Hroom&HB&HP). destruct setup_numbers as (EN&Eend&Eg&Eb&Er).
  match goal with |- wp ?a ?b ?c _ => cut (wp a b c (st h0 (free_page s0))); [unfold st; by rewrite <- su_eta|] end.
  unfold setup_amd64_paging. apply wp_bind, wp_get. cbn [su_vm st with_heap vm]. cbv zeta.
  rewrite EN, Eend, Eg, Eb, Er. apply wp_bind, host_at_page; [lia|]. intros _.
  replace (paddr m 9 ⊕ 0x1000) with (paddr m 10) by (symmetry; apply (paddr_add 9 1); lia).
  replace (paddr m 9 ⊕ 0x2000) with (paddr m 11) by (symmetry; apply (paddr_add 9 2); lia).
  replace (paddr m 9 ⊕ 4096 * (3 + N)) with (paddr m (12 + N)) by (rewrite paddr_add by lia; f_equal; lia).
  replace (paddr m (12 + N) ⊕ 0x1000) with (paddr m (13 + N)) by (rewrite (paddr_add _ 1) by lia; f_equal; lia).
  replace (paddr m (12 + N) ⊕ 0x2000) with (paddr m (14 + N)) by (rewrite (paddr_add _ 2) by lia; f_equal; lia).
  replace (paddr m (12 + N) ⊕ 0x3000) with (paddr m (15 + N)) by (rewrite (paddr_add _ 3) by lia; f_equal; lia).
  replace (word m (512 * 9) + 0x3000) with (word m (512 * 12)) by (unfold word; lia).
  replace (word m (512 * 9) + 0x2000) with (word m (512 * 11)) by (unfold word; lia).
  apply wp_bind, wp_put. fold (st h0 (paddr m (15 + N))).
  apply wp_bind, (wp_set_idx _ _ _ (512 * 9 + 0)); [unfold word; lia|].
  apply wp_bind, (wp_set_idx _ _ _ (512 * 9 + 511)); [unfold word; lia|].
  apply wp_bind, (wp_fill _ (fun i => giga m + i) (512 * 10 + giga m)); [intros; unfold word; lia|]. intros h1 Hh1.
  rewrite Z2Nat.id in Hh1 by lia. rewrite Z.add_0_r in Hh1.
  apply wp_bind, (wp_set_idx _ _ _ (512 * 12 + B)); [apply word_idx|].
  apply wp_bind, setup_lowpage_wp. intros h2 Hh2. apply wp_bind, wp_get. cbn [free_page st].
  apply wp_bind, (wp_set_idx _ _ _ (512 * 12 + (B + 1))); [apply word_idx|].
  apply wp_bind, host_at_page; [lia|]. intros _.
  apply wp_bind, (wp_fill _ (fun i => i) (512 * (15 + N))); [intros; apply word_idx|]. intros h3 Hh3. rewrite Z.add_0_r in Hh3.
  change (Z.of_nat 512) with 512 in Hh3.
  apply wp_bind, wp_take. rewrite paddr_next by lia. replace (15 + N + 1) with (N + 16) by lia.
  unfold setup_heap. apply wp_bind. apply wp_bind.
  apply (wp_fill _ (fun i => i) (512 * 12) _ _ pd_fill); [intros; apply word_idx|]. intros h4 Hh4.
  assert (tables true h4 (N + 16) first_tab) as Htb.
  { apply first_tables. intros w. rewrite Hh4, Hh3, wd_st, Hh2, wd_st, Hh1, !wd_st.
    replace (512 * 12 + (B + 2) + Z.of_nat (Z.to_nat (512 * N - (B + 2)))) with (512 * 12 + 512 * N) by lia.
    unfold first_word. repeat (case_decide; [done|]). case_decide; [|done].
    do 2 f_equal. rewrite mul64_small by (unfold u64; lia). change 0x3000 with (4096 * 3). rewrite (paddr_add 9 3) by lia.
    rewrite (Z.mul_comm (w - _)). by rewrite paddr_add by lia. }
  eapply (wp_mono _ (fun _ s => exists h fp tab, s = st h (paddr m fp) /\ tables true h fp tab) _ X); [| |done].
  { apply wp_when; intros _; [by eapply split_all_wp|by eauto 10]. }
  intros [] s (h5&fp5&tab5&->&Htb5). apply wp_bind. eapply wp_mono; [exact (segments_full sh ib phdrs _ _ _ Htb5)| |done].
  intros [] s (h6&fp6&tab6&->&Htb6). apply wp_bind, wp_ret. exact (last_phase_wp _ _ _ _ Htb6).
Qed.

(** ** What the finished tables say *)

Section results.
Context (full : bool) (h : heap) (K : Z) (Hfin : finished full h K).

(** The entries of the low page table at the end. *)
Definition low_final (j E : Z) : Prop :=
  any_bit E PDE64_CLONEABLE = false /\
  (any_bit E PDE64_PRESENT = true ->
     (E .& PDE64_ADDR_MASK = paddr m j /\
      (any_bit E PDE64_USER = true -> K <= j \/ j = 5 /\ any_bit E PDE64_RW = false)) \/
     any_bit E PDE64_USER = false).

(** The tables, level by level. *)
Record view (tab : Z -> option Z) : Prop := {
  vw_root : forall i, 0 <= i < 512 -> wd h (512 * 9 + i) = pml4_entry i;
  vw_giga : forall i, 0 <= i < 512 -> wd h (512 * 10 + i) = pdpt_entry i;
  vw_table : forall x t, 0 <= x < 512 * N -> tab x = Some t ->
    wd h (512 * 12 + x) = USER_RW .| paddr m t /\ (x = B /\ t = 11 \/ B < x /\ N + 15 <= t < K);
  vw_leaf : forall x, 0 <= x < 512 * N -> tab x = None ->
    x < B /\ wd h (512 * 12 + x) = 0 \/ B < x /\ pde_ok full x (wd h (512 * 12 + x));
  vw_entry : forall x t j, 0 <= x < 512 * N -> x <> B -> tab x = Some t -> 0 <= j < 512 -> pte_ok full x j (wd h (512 * t + j));
  vw_low : forall j, 0 <= j < 512 -> low_final j (wd h (512 * 11 + j));
  vw_user : forall j, K <= j < 512 -> wd h (512 * 11 + j) = USER_RW .| PDE64_NX .| mapped_at B j;
  vw_vpdpt : forall i, 0 <= i < 512 -> wd h (512 * (12 + N) + i) =
    if i =? 511 then PDE64_PRESENT .| PDE64_USER .| PDE64_G .| paddr m (13 + N) else 0;
  vw_vpd : forall i, 0 <= i < 512 -> wd h (512 * (13 + N) + i) =
    if i =? 507 then PDE64_PRESENT .| PDE64_USER .| PDE64_G .| paddr m (14 + N) else 0;
  vw_vpt : forall i, 0 <= i < 512 -> wd h (512 * (14 + N) + i) =
    if i =? 0 then PDE64_PRESENT .| PDE64_USER .| PDE64_G .| paddr m 6 else 0;
  vw_frame : forall w, ~ (512 * 9 <= w < 512 * K) -> wd h w = wd h0 w }.

Lemma mapped_base j : mapped_at B j = paddr m j.
Proof.
  pose proof (pd_pages_bounds m Hm) as (_&_&_&_&_&HP). unfold mapped_at, paddr. rewrite HP. change (2 ^ 12) with 4096. lia.
Qed.

Local Ltac last_place Hw := rewrite Hw; unfold last_word; repeat (case_decide; try lia); try done.

Lemma finished_view : exists tab, view tab /\ tab B = Some 11.
Proof.
  destruct Hfin as [HK (h1&tab&Htb&Hw)]. exists tab. pose proof (pd_pages_bounds m Hm) as (HN1&HG&HG0&Hroom&HB&HP).
  split; [|apply Htb].
  assert (forall j, K <= j < 512 -> wd h (512 * 11 + j) = USER_RW .| PDE64_NX .| mapped_at B j) as Huser.
  { intros j Hj. last_place Hw. replace (512 * 11 + j - 512 * 11) with j by lia.
    rewrite <- !Z.lor_assoc, (Z.lor_assoc (giga m .<< 30)), lor_mapped by lia. by rewrite !Z.lor_assoc. }
  destruct Htb. split.
  - intros i Hi. rewrite <- tb_root0 by done. last_place Hw.
  - intros i Hi. rewrite <- tb_giga0 by done. last_place Hw.
  - intros x t Hx Ht. destruct (tb_table0 x t Hx Ht) as [<- ?]. split; [last_place Hw|done].
  - intros x Hx Ht. destruct (tb_leaf0 x Hx Ht) as [[? He]|[? He]]; [left|right]; (split; [done|]).
    + rewrite <- He. last_place Hw.
    + replace (wd h (512 * 12 + x)) with (wd h1 (512 * 12 + x)); [done|]. last_place Hw.
  - intros x t j Hx HxB Ht Hj. destruct (tb_table0 x t Hx Ht) as [_ ?].
    replace (wd h (512 * t + j)) with (wd h1 (512 * t + j)); [eauto|]. last_place Hw.
  - intros j Hj. destruct (decide (K <= j)).
    + rewrite Huser by lia. destruct (mapped_at_bounds B j) as [H1 H2]; [lia..|].
      destruct (flags_addr (USER_RW .| PDE64_NX) (mapped_at B j)) as [Ha Hb]; [lia|done|done|].
      split; [by rewrite Hb|]. intros _. left. rewrite Ha, mapped_base. split; [done|]. by left.
    + destruct (decide (9 <= j)).
      * replace (wd h (512 * 11 + j)) with (PDE64_PRESENT .| PDE64_G .| PDE64_NX) by last_place Hw. split; [done|]. by right.
      * replace (wd h (512 * 11 + j)) with (wd h1 (512 * 11 + j)) by last_place Hw.
        destruct (tb_low0 j) as [Hc Hp]; [lia|]. split; [done|]. intros HP'. left. destruct (Hp HP') as [? Hu].
        split; [done|]. intros [-> ?]%Hu. by right.
  - done.
  - intros i Hi. destruct (Z.eqb_spec i 511) as [->|]; [last_place Hw|]. rewrite <- (tb_vs0 (512 * (12 + N) + i)) by lia. last_place Hw.
  - intros i Hi. destruct (Z.eqb_spec i 507) as [->|]; [last_place Hw|]. rewrite <- (tb_vs0 (512 * (13 + N) + i)) by lia. last_place Hw.
  - intros i Hi. destruct (Z.eqb_spec i 0) as [->|]; [last_place Hw|]. rewrite <- (tb_vs0 (512 * (14 + N) + i)) by lia. last_place Hw.
  - intros w Hw'. rewrite <- tb_frame0 by done. last_place Hw.
Qed.

(** *** The shape that preparing for forks needs *)

Lemma entry_in_zero n own sub : entry_in (fun _ => True) n own m sub 0.
Proof. intros Hw. by destruct n as [|[|[|[|[|n]]]]]. Qed.

(** An entry that leads to a table in main memory. *)
Lemma entry_in_table n own f t sub : (2 <= n <= 4)%nat -> 0 <= f < 4096 -> f .& PDE64_FLAGS = f ->
  any_bit f PDE64_PRESENT = true -> any_bit f PDE64_PS = false -> (cow_able f = true -> own = true) ->
  0 <= t -> 4096 * t + 4096 <= size m -> sub (cow_able f) (word m (512 * t)) ->
  entry_in (fun _ => True) n own m sub (f .| paddr m t).
Proof.
  intros Hn Hf1 Hf HP Hps Hown Ht Hsz Hsub _. destruct (paddr_bounds t Ht) as [Ha Hal]; [lia|].
  destruct (flags_addr f (paddr m t) Ha Hal Hf) as [Htarget Hb]. rewrite (Hb PDE64_PRESENT eq_refl).
  assert (cow_able (f .| paddr m t) = cow_able f) as -> by (unfold cow_able; by rewrite !Hb).
  split_and!; [done|done|done|intros _; by rewrite (Hb PDE64_PS eq_refl)|]. intros _.
  assert (target n (f .| paddr m t) = paddr m t) as ->.
  { destruct n as [|[|[|[|[|n]]]]]; try lia; [done|done|]. unfold target. change 0xFFF with (2 ^ 12 - 1).
    assert (f .| paddr m t = paddr m t + f) as ->.
    { rewrite Z.lor_comm. pose proof (lor_add (paddr m t / 4096) f 12 ltac:(lia) Hf1) as Hl.
      replace (paddr m t / 4096 * 2 ^ 12) with (paddr m t) in Hl by (change (2 ^ 12) with 4096; dlia). done. }
    rewrite land_not_ones by (unfold u64; lia). change (2 ^ 12) with 4096. dlia. }
  destruct Hm. split.
  - unfold in_main. apply within_spec; [done|lia|unfold PAGE_SIZE; lia|]. unfold paddr, PAGE_SIZE. lia.
  - rewrite main_at_eq by (done || unfold paddr; lia). replace (ptr m + (paddr m t - physbase m)) with (word m (512 * t)); [done|].
    unfold word, paddr. lia.
Qed.

Lemma entry_in_leaf n own sub E : (n = 1%nat \/ n = 2%nat /\ any_bit E PDE64_PS = true) -> any_bit E PDE64_CLONEABLE = false ->
  (cow_able E = true -> own = true) -> entry_in (fun _ => True) n own m sub E.
Proof.
  intros Hn Hc Hown Hw.
  assert (any_bit E PDE64_PRESENT = true).
  { destruct Hn as [->|[-> _]]; unfold walkable in Hw; rewrite any_bit_lor_r, Hc in Hw; by rewrite orb_false_r in Hw. }
  split_and!; [done|done|done|by destruct Hn as [->|[-> _]]|]. by destruct Hn as [->|[-> Hps]]; [|unfold leaf; rewrite Hps].
Qed.

Lemma pte_not_cloneable x j E : pte_ok full x j E -> any_bit E PDE64_CLONEABLE = false.
Proof. by intros (_&?&_). Qed.

Lemma finished_mapped : mapped 4 true m h (word m (512 * 9)).
Proof.
  destruct finished_view as (tab&[]&HtabB). pose proof (fn_K _ _ _ Hfin). pose proof (pd_pages_bounds m Hm) as (HN1&HG&HG0&Hroom&HB&HP).
  assert (4096 * K <= size m) as HKs by (destruct Hfin as [_ (?&?&[]&_)]; lia).
  assert (mapped 1 false m h (word m (512 * (14 + N)))) as Mvt.
  { intros i Hi. rewrite word_idx. fold (wd h (512 * (14 + N) + i)). rewrite vw_vpt0 by done.
    destruct (i =? 0); [|apply entry_in_zero]. destruct (paddr_bounds 6) as [Ha Hal]; [lia..|].
    destruct (flags_addr (PDE64_PRESENT .| PDE64_USER .| PDE64_G) (paddr m 6) Ha Hal eq_refl) as [_ Hb].
    apply entry_in_leaf; [by left|by rewrite Hb|]. unfold cow_able. by rewrite !Hb. }
  assert (mapped 2 false m h (word m (512 * (13 + N)))) as Mvd.
  { intros i Hi. rewrite word_idx. fold (wd h (512 * (13 + N) + i)). rewrite vw_vpd0 by done.
    destruct (i =? 507); [|apply entry_in_zero]. apply entry_in_table; done || lia. }
  assert (mapped 3 false m h (word m (512 * (12 + N)))) as Mvp.
  { intros i Hi. rewrite word_idx. fold (wd h (512 * (12 + N) + i)). rewrite vw_vpdpt0 by done.
    destruct (i =? 511); [|apply entry_in_zero]. apply entry_in_table; done || lia. }
  assert (forall x t, 0 <= x < 512 * N -> tab x = Some t -> mapped 1 true m h (word m (512 * t))) as Mt.
  { intros x t Hx Ht i Hi. rewrite word_idx. fold (wd h (512 * t + i)). apply entry_in_leaf; [by left| |done].
    destruct (decide (x = B)) as [->|]; [|by eapply pte_not_cloneable, vw_entry0].
    rewrite HtabB in Ht. injection Ht as <-. by apply vw_low0. }
  assert (forall n, 0 <= n < N -> mapped 2 true m h (word m (512 * (12 + n)))) as Md.
  { intros n Hn i Hi. rewrite word_idx. replace (512 * (12 + n) + i) with (512 * 12 + (512 * n + i)) by lia.
    set (x := 512 * n + i). fold (wd h (512 * 12 + x)). assert (0 <= x < 512 * N) as Hx by lia.
    destruct (tab x) as [t|] eqn:Ht.
    - destruct (vw_table0 x t Hx Ht) as [-> ?]. apply entry_in_table; try (done || lia). by eapply Mt.
    - destruct (vw_leaf0 x Hx Ht) as [[_ ->]|[_ (_&?&?&_)]]; [apply entry_in_zero|]. apply entry_in_leaf; auto. }
  assert (mapped 3 true m h (word m (512 * 10))) as Mp.
  { intros i Hi. rewrite word_idx. fold (wd h (512 * 10 + i)). rewrite vw_giga0 by done. unfold pdpt_entry.
    destruct (Z.leb_spec (giga m) i), (Z.ltb_spec i (giga m + N)); cbn [andb]; try apply entry_in_zero.
    apply entry_in_table; try (done || lia). apply Md. lia. }
  intros i Hi. rewrite word_idx. fold (wd h (512 * 9 + i)). rewrite vw_root0 by done. unfold pml4_entry.
  destruct (i =? 0); [apply entry_in_table; done || lia|]. destruct (i =? 511); [|apply entry_in_zero].
  apply entry_in_table; done || lia.
Qed.

(** *** Translations *)

Lemma translate_zero n t v : wd h (512 * t + table_index (S n) v) = 0 -> translate (S n) m h (word m (512 * t)) v = None.
Proof. intros H0. cbn [translate]. rewrite word_idx. fold (wd h (512 * t + table_index (S n) v)). by rewrite H0. Qed.

Lemma translate_table n t0 f t v : (1 <= n <= 3)%nat -> wd h (512 * t0 + table_index (S n) v) = f .| paddr m t ->
  f .& PDE64_FLAGS = f -> any_bit f PDE64_PRESENT = true -> any_bit f PDE64_PS = false -> 0 <= t -> 4096 * t + 4096 <= size m ->
  translate (S n) m h (word m (512 * t0)) v = grant f <$> translate n m h (word m (512 * t)) v.
Proof.
  intros Hn HE Hf HP Hps Ht Hsz. destruct (paddr_bounds t Ht) as [Ha Hal]; [lia|].
  destruct (flags_addr f (paddr m t) Ha Hal Hf) as [Htarget Hb]. cbn [translate]. rewrite word_idx.
  fold (wd h (512 * t0 + table_index (S n) v)). rewrite HE, (Hb PDE64_PRESENT eq_refl), HP. cbn [negb].
  assert (hw_leaf (S n) (f .| paddr m t) = false) as ->.
  { destruct n as [|[|[|[|n]]]]; try lia; unfold hw_leaf; rewrite ?(Hb PDE64_PS eq_refl); done. }
  assert (frame (f .| paddr m t) = paddr m t) as ->.
  { rewrite frame_addr, Htarget. apply Z.mod_small. destruct Hm. unfold paddr in *. lia. }
  rewrite page_at_page by (done || lia). replace (ptr m + 4096 * t) with (word m (512 * t)) by (unfold word; lia).
  destruct (translate n m h (word m (512 * t)) v) as [a|]; [|done]. cbn. f_equal. unfold grant. by rewrite !Hb.
Qed.

Lemma translate_pte t v a : translate 1 m h (word m (512 * t)) v = Some a ->
  let E := wd h (512 * t + table_index 1 v) in
  any_bit E PDE64_PRESENT = true /\ page_at m (frame E) = Ok (a_page a) /\ a = grant E (Merge.full (a_page a)).
Proof.
  rewrite translate_pt. cbv zeta. rewrite word_idx. fold (wd h (512 * t + table_index 1 v)).
  destruct (any_bit _ PDE64_PRESENT); [|done]. destruct (page_at m _) as [p|]; [|done]. by intros [= <-].
Qed.

Lemma K_bounds : N + 16 <= K < 512 /\ 4096 * K <= size m.
Proof. destruct Hfin as [? (?&?&[]&_)]. lia. Qed.

Lemma frame_small E a : E .& PDE64_ADDR_MASK = a -> 0 <= a < 2 ^ 52 -> frame E = a.
Proof. intros <- Ha. rewrite frame_addr. by apply Z.mod_small. Qed.

Lemma grant_flags_true f a : any_bit f PDE64_RW = true -> any_bit f PDE64_USER = true -> any_bit f PDE64_NX = false -> grant f a = a.
Proof. intros H1 H2 H3. unfold grant. rewrite H1, H2, H3. by destruct a. Qed.

(** A page of the identity mapping behind the first 2MB. *)
Lemma identity_own x j v p a : B < x < 512 * N -> 0 <= j < 512 -> page_of v = mapped_at x j ->
  page_at m (mapped_at x j) = Ok p -> a_page a = p -> own_page m K v a.
Proof.
  intros Hx Hj Hv Hp Ha. pose proof K_bounds. pose proof (pd_pages_bounds m Hm) as (HN1&HG&HG0&Hroom&HB&HP).
  destruct (mapped_at_bounds x j) as [Hb _]; [lia..|].
  destruct (page_at_room m Hm (mapped_at x j) p) as (H1&H2&->); [lia|done|].
  unfold own_page. rewrite Hv. split_and!; [|done|done]. rewrite HP. unfold mapped_at. lia.
Qed.

(** The low page table. *)
Lemma low_safe tab v a : view tab -> page_of v = mapped_at B (table_index 1 v) ->
  translate 1 m h (word m (512 * 11)) v = Some a -> user_safe m K v a.
Proof.
  intros Hv Hpage Ht. pose proof K_bounds. pose proof (pd_pages_bounds m Hm) as (HN1&HG&HG0&Hroom&HB&HP).
  destruct (translate_pte 11 v a Ht) as (HP1&Hp&Ha). pose proof (table_index_bound 1 v) as Hj.
  set (j := table_index 1 v) in *. set (E := wd h (512 * 11 + j)) in *.
  destruct (vw_low _ Hv j Hj) as [_ Hlow]. fold E in Hlow.
  unfold user_safe. assert (a_user a = any_bit E PDE64_USER /\ a_write a = any_bit E PDE64_RW) as [-> Hw].
  { rewrite Ha. cbn. by rewrite !andb_true_r. }
  intros Hu. destruct (Hlow HP1) as [[Hta Hcase]|?]; [|congruence].
  pose proof (sr_size _ Hm). destruct (paddr_bounds j) as [Hb1 _]; [lia..|]. assert (0 <= paddr m j < 2 ^ 52) as Hb by (destruct Hm; unfold paddr in *; lia).
  rewrite (frame_small E _ Hta Hb) in Hp. rewrite (page_at_page m Hm) in Hp by lia. injection Hp as Hp.
  rewrite mapped_base in Hpage. destruct (Hcase Hu) as [HK|[Hj5 Hrw]].
  - left. unfold own_page. rewrite Hpage. unfold paddr. destruct Hm. split_and!; [lia|lia|lia].
  - right. split; [by rewrite Hw|]. left. rewrite <- Hp, Hj5. unfold USER_ASM_ADDR. lia.
Qed.

(** Under a directory of the identity mapping. *)
Lemma directory_safe tab n v a : view tab -> tab B = Some 11 -> 0 <= n < N ->
  page_of v = mapped_at (512 * n + table_index 2 v) (table_index 1 v) ->
  translate 2 m h (word m (512 * (12 + n))) v = Some a -> user_safe m K v a.
Proof.
  intros Hv HtB Hn Hpage. pose proof K_bounds. pose proof (pd_pages_bounds m Hm) as (HN1&HG&HG0&Hroom&HB&HP).
  pose proof (table_index_bound 2 v) as Hi. pose proof (table_index_bound 1 v) as Hj. set (x := 512 * n + table_index 2 v) in *.
  assert (512 * (12 + n) + table_index 2 v = 512 * 12 + x) as Ew by lia. assert (0 <= x < 512 * N) as Hx by lia.
  destruct (tab x) as [t|] eqn:Ht.
  - destruct (vw_table _ Hv x t Hx Ht) as [HE Hwhere]. rewrite <- Ew in HE.
    rewrite (translate_table 1 (12 + n) USER_RW t) by (done || lia).
    destruct (translate 1 m h (word m (512 * t)) v) as [a'|] eqn:Ha'; [|done]. cbn. rewrite grant_flags_true by done. intros [= ->].
    destruct Hwhere as [[HxB ->]|[HxB Htr]]; [eapply low_safe; [done| |done]; by rewrite <- HxB|].
    destruct (translate_pte t v a Ha') as (HP1&Hp&_). destruct (vw_entry _ Hv x t (table_index 1 v) Hx ltac:(lia) Ht Hj) as (Hta&_).
    destruct (mapped_at_bounds x (table_index 1 v) Hx Hj) as [Hb _].
    rewrite (frame_small _ _ Hta) in Hp by lia. intros _. left. eapply identity_own; [|exact Hj|exact Hpage|exact Hp|done]; lia.
  - destruct (vw_leaf _ Hv x Hx Ht) as [[_ H0]|[HxB (Hta&_&Hps&_)]].
    { rewrite translate_zero; [done|]. by rewrite Ew. }
    cbn [translate hw_leaf]. rewrite word_idx, Ew. fold (wd h (512 * 12 + x)). rewrite Hps.
    destruct (any_bit (wd h (512 * 12 + x)) PDE64_PRESENT); [|done]. cbn [negb]. destruct (leaf_aligned _ _); [|done].
    destruct (mapped_at_bounds x 0 Hx ltac:(lia)) as [Hb _]. rewrite (frame_small _ _ Hta) by lia.
    change (leaf_index 2 v) with (table_index 1 v).
    replace (mapped_at x 0 + 4096 * table_index 1 v) with (mapped_at x (table_index 1 v)) by (unfold mapped_at; change (2 ^ 12) with 4096; lia).
    destruct (page_at m _) as [p|] eqn:Hp; [|done]. intros [= <-] _. left. eapply identity_own; [|exact Hj|exact Hpage|exact Hp|done]; lia.
Qed.

(** The vsyscall page. *)
Lemma vsyscall_safe tab v a : view tab -> translate 3 m h (word m (512 * (12 + N))) v = Some a -> user_safe m K v a.
Proof.
  intros Hv. pose proof K_bounds. pose proof (pd_pages_bounds m Hm) as (HN1&HG&HG0&Hroom&HB&HP).
  pose proof (vw_vpdpt _ Hv _ (table_index_bound 3 v)) as E3. pose proof (vw_vpd _ Hv _ (table_index_bound 2 v)) as E2.
  pose proof (vw_vpt _ Hv _ (table_index_bound 1 v)) as E1.
  destruct (table_index 3 v =? 511); [|by rewrite translate_zero].
  rewrite (translate_table 2 (12 + N) (PDE64_PRESENT .| PDE64_USER .| PDE64_G) (13 + N)) by (done || lia).
  destruct (table_index 2 v =? 507); [|by rewrite translate_zero].
  rewrite (translate_table 1 (13 + N) (PDE64_PRESENT .| PDE64_USER .| PDE64_G) (14 + N)) by (done || lia).
  destruct (table_index 1 v =? 0); [|by rewrite translate_zero].
  destruct (translate 1 m h (word m (512 * (14 + N))) v) as [a1|] eqn:Ha1; [|done]. cbn. intros [= <-] _. right. cbn. split; [done|]. right.
  destruct (translate_pte (14 + N) v a1 Ha1) as (_&Hp&_). rewrite E1 in Hp. destruct (paddr_bounds 6) as [Ha Hal]; [lia..|].
  destruct (flags_addr (PDE64_PRESENT .| PDE64_USER .| PDE64_G) (paddr m 6) Ha Hal eq_refl) as [Hta _].
  rewrite (frame_small _ _ Hta), (page_at_page m Hm) in Hp by (destruct Hm; unfold paddr in *; lia). injection Hp as <-.
  unfold VSYS_ADDR. lia.
Qed.

Lemma finished_safe v a : translation (with_heap (su_vm s0) h) v = Some a -> user_safe m K v a.
Proof.
  destruct finished_view as (tab&Hv&HtB). pose proof K_bounds. pose proof (pd_pages_bounds m Hm) as (HN1&HG&HG0&Hroom&HB&HP).
  destruct setup_numbers as (_&_&_&_&Er). unfold translation. cbn [vm with_heap vhost h_heap]. rewrite Er, page_at_page by (done || lia).
  replace (ptr m + 4096 * 9) with (word m (512 * 9)) by (unfold word; lia).
  pose proof (page_of_indices v) as Hpage.
  pose proof (vw_root _ Hv _ (table_index_bound 4 v)) as E4. pose proof (vw_giga _ Hv _ (table_index_bound 3 v)) as E3.
  unfold pml4_entry in E4. destruct (Z.eqb_spec (table_index 4 v) 0) as [H4|].
  - rewrite (translate_table 3 9 USER_RW 10) by (done || lia). destruct (translate 3 _ _ _ _) as [a3|] eqn:Ha3; [|done].
    cbn. rewrite grant_flags_true by done. intros [= ->]. unfold pdpt_entry in E3.
    destruct (Z.leb_spec (giga m) (table_index 3 v)), (Z.ltb_spec (table_index 3 v) (giga m + N)); cbn [andb] in E3;
      [|by rewrite translate_zero in Ha3..].
    rewrite (translate_table 2 10 USER_RW (12 + (table_index 3 v - giga m))) in Ha3 by (done || lia).
    destruct (translate 2 _ _ _ _) as [a2|] eqn:Ha2; [|done]. cbn in Ha3. rewrite grant_flags_true in Ha3 by done. injection Ha3 as ->.
    eapply directory_safe; [done|done| |  |exact Ha2]; [lia|]. rewrite Hpage, H4. unfold mapped_at. lia.
  - destruct (table_index 4 v =? 511); [|by rewrite translate_zero].
    rewrite (translate_table 3 9 (PDE64_PRESENT .| PDE64_USER) (12 + N)) by (done || lia).
    destruct (translate 3 _ _ _ _) as [a3|] eqn:Ha3; [|done]. cbn. intros [= <-] Hu. pose proof (vsyscall_safe tab v a3 Hv Ha3) as Hs.
    cbn in Hu |- *. destruct (Hs Hu) as [?|[_ ?]]; [by left|by right].
Qed.

(** *** Every page after the tables is there, when no segment is protected *)

Lemma page_at_own v : physbase m <= page_of v -> page_of v + 4096 <= physbase m + size m -> exists p, page_at m (page_of v) = Ok p.
Proof.
  intros H1 H2. exists (main_at m (page_of v)). apply page_at_main. destruct Hm.
  unfold in_main. apply within_spec; [done|lia|unfold PAGE_SIZE; lia|]. unfold PAGE_SIZE. lia.
Qed.

Definition opened (o : option Access) : Prop := exists a, o = Some a /\ a_user a = true /\ a_write a = true.

Lemma grant_open E p : open_entry E -> a_user (grant E (Merge.full p)) = true /\ a_write (grant E (Merge.full p)) = true.
Proof. intros (_&H1&H2). cbn. by rewrite H1, H2. Qed.

Lemma pte_opened t v : open_entry (wd h (512 * t + table_index 1 v)) -> wd h (512 * t + table_index 1 v) .& PDE64_ADDR_MASK = page_of v ->
  page_of v < 2 ^ 52 -> (exists p, page_at m (page_of v) = Ok p) -> opened (translate 1 m h (word m (512 * t)) v).
Proof.
  intros Ho Ha Hlt [p Hp]. rewrite translate_pt. cbv zeta. rewrite word_idx. fold (wd h (512 * t + table_index 1 v)).
  rewrite (proj1 Ho), (frame_small _ _ Ha), Hp by (split; [apply Z.mul_nonneg_nonneg; [apply Z.div_pos; [by apply Z.mod_pos_bound|done]|done]|done]).
  eexists. split; [done|]. by apply grant_open.
Qed.

Lemma opened_grant f o : any_bit f PDE64_RW = true -> any_bit f PDE64_USER = true -> opened o -> opened (grant f <$> o).
Proof. intros H1 H2 (a&->&?&?). eexists. split; [done|]. cbn. by rewrite H1, H2. Qed.

Lemma directory_opened tab n v : full = true -> view tab -> tab B = Some 11 -> 0 <= n < N ->
  page_of v = mapped_at (512 * n + table_index 2 v) (table_index 1 v) ->
  physbase m + 4096 * K <= page_of v -> page_of v + 4096 <= physbase m + size m ->
  opened (translate 2 m h (word m (512 * (12 + n))) v).
Proof.
  intros Hfull Hv HtB Hn Hpage Hlo Hhi. pose proof K_bounds. pose proof (pd_pages_bounds m Hm) as (HN1&HG&HG0&Hroom&HB&HP).
  destruct (page_at_own v) as [p Hp]; [lia|done|].
  pose proof (table_index_bound 2 v) as Hi. pose proof (table_index_bound 1 v) as Hj. set (x := 512 * n + table_index 2 v) in *.
  assert (512 * (12 + n) + table_index 2 v = 512 * 12 + x) as Ew by lia. assert (0 <= x < 512 * N) as Hx by lia.
  assert (B < x \/ x = B /\ K <= table_index 1 v) as Hxj.
  { rewrite Hpage, HP in Hlo. unfold mapped_at in Hlo. change (2 ^ 12) with 4096 in Hlo. lia. }
  destruct (mapped_at_bounds x (table_index 1 v) Hx Hj) as [Hb _]. rewrite <- Hpage in Hb.
  destruct (tab x) as [t|] eqn:Ht.
  - destruct (vw_table _ Hv x t Hx Ht) as [HE Hwhere]. rewrite <- Ew in HE.
    rewrite (translate_table 1 (12 + n) USER_RW t) by (done || lia). apply opened_grant; [done|done|].
    destruct Hwhere as [[HxB ->]|[HxB Htr]].
    + pose proof (vw_user _ Hv (table_index 1 v) ltac:(lia)) as HE1. rewrite <- HxB, <- Hpage in HE1.
      destruct (flags_addr (USER_RW .| PDE64_NX) (page_of v)) as [Hta Hbits]; [lia|unfold page_of; apply Z.mod_mul; done|done|].
      apply pte_opened; [|by rewrite HE1|lia|by exists p]. rewrite HE1. unfold open_entry. by rewrite !Hbits.
    + destruct (vw_entry _ Hv x t (table_index 1 v) Hx ltac:(lia) Ht Hj) as (Hta&_&Ho).
      apply pte_opened; [by apply Ho|by rewrite Hta|lia|by exists p].
  - destruct (vw_leaf _ Hv x Hx Ht) as [[? _]|[HxB (Hta&_&Hps&Ho)]]; [lia|].
    cbn [translate hw_leaf]. rewrite word_idx, Ew. fold (wd h (512 * 12 + x)). rewrite Hps, (proj1 (Ho Hfull)). cbn [negb].
    destruct (mapped_at_bounds x 0 Hx ltac:(lia)) as [Hb0 _].
    assert (frame (wd h (512 * 12 + x)) = mapped_at x 0) as Ef by (apply frame_small; [done|lia]).
    unfold leaf_aligned. rewrite Ef. change (2 ^ 21 - 1) with (2 ^ 21 - 1). rewrite land_ones_mod by lia.
    assert (mapped_at x 0 mod 2 ^ 21 = 0) as ->.
    { unfold mapped_at. change (2 ^ 30) with (512 * 2 ^ 21). rewrite Z.mul_0_l, Z.add_0_r, Z.mul_assoc, <- Z.mul_add_distr_r. apply Z.mod_mul. done. }
    change (0 =? 0) with true. cbn beta iota. change (leaf_index 2 v) with (table_index 1 v).
    replace (mapped_at x 0 + 4096 * table_index 1 v) with (page_of v) by (rewrite Hpage; unfold mapped_at; change (2 ^ 12) with 4096; lia).
    rewrite Hp. eexists. split; [done|]. by apply grant_open, Ho.
Qed.

Lemma finished_complete v : full = true -> physbase m + 4096 * K <= page_of v -> page_of v + 4096 <= physbase m + size m ->
  page_of v < (giga m + N) * 2 ^ 30 ->
  exists a, translation (with_heap (su_vm s0) h) v = Some a /\ a_user a = true /\ a_write a = true /\ own_page m K v a.
Proof.
  intros Hfull Hlo Hhi Htop. enough (opened (translation (with_heap (su_vm s0) h) v)) as (a&Ha&Hu&Hw).
  { exists a. split_and!; [done..|]. destruct (finished_safe v a Ha Hu) as [?|[? _]]; [done|congruence]. }
  destruct finished_view as (tab&Hv&HtB). pose proof K_bounds. pose proof (pd_pages_bounds m Hm) as (HN1&HG&HG0&Hroom&HB&HP).
  destruct setup_numbers as (_&_&_&_&Er). unfold translation. cbn [vm with_heap vhost h_heap]. rewrite Er, page_at_page by (done || lia).
  replace (ptr m + 4096 * 9) with (word m (512 * 9)) by (unfold word; lia).
  pose proof (page_of_indices v) as Hpage. pose proof (table_index_bound 4 v). pose proof (table_index_bound 3 v).
  pose proof (table_index_bound 2 v). pose proof (table_index_bound 1 v).
  assert (2 ^ 39 = 512 * 2 ^ 30 /\ 2 ^ 30 = 512 * 2 ^ 21 /\ 2 ^ 21 = 512 * 2 ^ 12) as (P1&P2&P3) by done.
  assert (table_index 4 v = 0) as H4 by lia. assert (giga m <= table_index 3 v < giga m + N) as Hg by lia.
  pose proof (vw_root _ Hv _ (table_index_bound 4 v)) as E4. pose proof (vw_giga _ Hv _ (table_index_bound 3 v)) as E3.
  unfold pml4_entry in E4. rewrite H4 in E4 at 2. change (0 =? 0) with true in E4. cbn beta iota in E4.
  unfold pdpt_entry in E3. rewrite (proj2 (Z.leb_le _ _)), (proj2 (Z.ltb_lt _ _)) in E3 by lia. cbn [andb] in E3.
  rewrite (translate_table 3 9 USER_RW 10) by (done || lia). apply opened_grant; [done|done|].
  rewrite (translate_table 2 10 USER_RW (12 + (table_index 3 v - giga m))) by (done || lia). apply opened_grant; [done|done|].
  eapply directory_opened; [done|done|done|lia| |done|done]. rewrite Hpage, H4. unfold mapped_at. lia.
Qed.

Lemma finished_frame q : aligned8 q -> ~ (ptr m + PT_ADDR <= q < ptr m + 4096 * K) -> ld64 h q = ld64 h0 q.
Proof.
  intros Hq Hout. destruct finished_view as (tab&Hv&_). rewrite (word_of q Hq).
  apply (vw_frame _ Hv). pose proof (word_of q Hq) as Ew. unfold word, PT_ADDR in *. lia.
Qed.
End results.
End setup.

(** The first tables are built in memory that reads as zero. *)
Definition table_area_clear (m : vMemory) (h : heap) : Prop :=
  forall q, aligned8 q -> ptr m + PT_ADDR <= q < ptr m + 4096 * (15 + PD_PAGES m) -> ld64 h q = 0.


(** ** A small machine *)

Definition new_machine (m : vMemory) : SU := mkSU (mkVM (mkHost ∅ [(ptr m, size m)] ∅) m) demo_maps 0.

Lemma demo_room : setup_room demo_memory.
Proof. split; first [done | vm_compute; split_and!; congruence]. Qed.


(** *** What the setup does not do *)

Definition tables_of (m : vMemory) (phdrs : list Elf64_Phdr) (split_all : bool) : VM :=
  su_vm (snd (setup_amd64_paging phdrs 0 [] true split_all (new_machine m))).
Definition sized (n : Z) : vMemory :=
  mkVMem [] 0 0x100000 PT_ADDR 0 0x10000000 n true (-1) n true false true false false
    (mkBanks [] 5 ARENA_BASE_ADDRESS ARENA_BASE_ADDRESS FIRST_BANK_IDX 0 0 2048) [] [] MMAP_PHYS_BASE MMAP_PHYS_BASE [] false false 0 None.
Definition rights (s : VM) (v : Z) : option (bool * bool) := (fun a => (a_write a, a_exec a)) <$> translation s v.

(** The last loop over the first 2MB overwrites the protection of a segment there: code that may
    be loaded at 1MB becomes writable and cannot be executed. *)
Example low_segment_unprotected : let text := mkPhdr PT_LOAD (PF_R + PF_X) 0 0x100000 0x1000 0x1000 in
  safely_within (sized 0x400000) 0x100000 0x1000 = true /\
  rights (tables_of (sized 0x400000) [text] false) 0x100000 = Some (true, false).
Proof. vm_compute. auto. Qed.

(** The index of the directory entry is taken modulo 512: the protection of a segment in the second
    gigabyte is applied to pages of the first one. *)
Example high_segment_misplaced : let text := mkPhdr PT_LOAD (PF_R + PF_X) 0 0x40400000 0x1000 0x1000 in
  let s := tables_of (sized 0x80000000) [text] false in
  rights s 0x40400000 = Some (true, false) /\ rights s 0x400000 = Some (false, true).
Proof. vm_compute. auto. Qed.
