(* ===== verification/MemCalls.v ===== *)
(** * System calls on memory

    The handlers mmap, mprotect, munmap, brk, mremap, msync, mincore and madvise of
    lib/tinykvm/linux/system_calls.cpp, and [Machine::mmap_backed_area] and
    [has_mmap_backed_area] (machine_utils.cpp), which map a file of the host into the guest.

    [Machine] puts together the memory of [VMemory], the address-space allocator of [MMap] and
    the program break.  It implements the interface [GuestMemory] that the handlers of [Threads]
    and [FdCalls] use.  What the host answers about files is the class [HostFiles]. *)
From stdpp Require Import base tactics list numbers strings gmap.
From Stdlib Require Import ZArith Lia Bool.
From S2P Require Import Prelude MMap Host MemoryBanks VMemory Paging ForkIsolation MakeCow PageSetup Fork Cpu Fds FdCalls GuestCopy.
Import MachineMaps.
Local Open Scope Z_scope.

Record Machine := mkMachine {
  mvm : VM;
  maps : mm_state;
  m_brk_address : Z;
  m_brk_end_address : Z;
  m_relocate_fixed_mmap : bool }.

Definition on_vm {A} (m : M VM A) : M Machine A :=
  fun s => let (r, v) := m (mvm s) in
           (r, mkMachine v (maps s) (m_brk_address s) (m_brk_end_address s) (m_relocate_fixed_mmap s)).
Definition on_maps {A} (m : M mm_state A) : M Machine A :=
  fun s => let (r, v) := m (maps s) in
           (r, mkMachine (mvm s) v (m_brk_address s) (m_brk_end_address s) (m_relocate_fixed_mmap s)).
Definition set_brk_address (a : Z) : M Machine unit :=
  modify (fun s => mkMachine (mvm s) (maps s) a (m_brk_end_address s) (m_relocate_fixed_mmap s)).

(** Files of the host, by real descriptor. *)
Class HostFiles := {
  (** [st_size] of [fstat], or failure. *)
  file_size : Z -> option Z;
  (** [preadv(fd, buffers, cnt, offset)] for buffers of [len] bytes in all: the bytes read. *)
  file_read : Z -> list Buffer -> Z -> option (list Z);
  (** The contents of a private mapping of [len] bytes at [offset]; [None] if the host refuses. *)
  file_map : Z -> Z -> Z -> option (list Z);
  (** The name under /proc/self/fd, or the made-up one. *)
  file_name : Z -> string }.

Section calls.
Context `{os : HostOS} `{hf : HostFds} `{files_of_host : HostFiles}.

(** *** File mappings *)

(** The bytes go to the buffers in order. *)
Fixpoint scatter (data : list Z) (l : list Buffer) : M VM unit :=
  match l with
  | [] => ret tt
  | (p, n) :: l' => put_bytes p (take (Z.to_nat n) data) ;;; scatter (drop (Z.to_nat n) data) l'
  end.
(** [preadv] into guest memory; false on failure. *)
Definition host_preadv (fd : Z) (l : list Buffer) (off : Z) : M VM bool :=
  match file_read fd l off with
  | Some data => scatter data l ;;; ret true
  | None => ret false
  end.

Definition MASK_2M : Z := 0x1FFFFF.

(** The loop that points the entries of the range at the new physical memory. *)
Fixpoint redirect_loop (fuel : nat) (i size_memory phys_base virt_base : Z) : M VM unit :=
  if size_memory <=? i then ret tt
  else
    match fuel with
    | O => throw OutOfFuel
    | S fuel' =>
        let phys := phys_base ⊕ i in
        let virt := virt_base ⊕ i in
        let! w := writable_page_at virt (PDE64_USER .| 1) default_wpo in
        if wp_page w =? 0 then
          throw (MemoryException "Failed to allocate writable page for mmap" virt PAGE_SIZE false)
        else
          let! e := rd (wp_entry w) in
          if negb (wp_size w =? PAGE_SIZE) && negb ((e .& PDE64_ADDR_MASK) .& (wp_size w - 1) =? 0) then
            throw (MemoryException "Unaligned page for mmap (cannot use)" virt (wp_size w) false)
          else
            wr (wp_entry w) (e .& not64 PDE64_ADDR_MASK) ;;;
            let! e := rd (wp_entry w) in
            wr (wp_entry w) (e .| (phys .& PDE64_ADDR_MASK)) ;;;
            set_dirty w ;;;
            redirect_loop fuel' (i ⊕ wp_size w) size_memory phys_base virt_base
    end.

(** Mapping the part of the file that fills whole 2MB pages; false if the host refuses. *)
Definition map_file_pages (fd off virt_base size_memory : Z) : M VM bool :=
  match file_map fd off size_memory with
  | None => ret false
  | Some data =>
      let! real_addr := on_vhost (host_mmap size_memory false) in
      if real_addr =? MAP_FAILED then ret false
      else
        put_bytes real_addr data ;;;
        let! region_idx := allocate_region_idx in
        let! s := get in
        let phys := mmap_physical (vm s) in
        on_vhost (install_memory region_idx phys real_addr size_memory) ;;;
        upd (fun m => set_mmap_ranges m (mmap_ranges m ++
          [mkVirtualMem phys real_addr virt_base size_memory 0 region_idx (file_name fd)])) ;;;
        redirect_loop (Z.to_nat (size_memory / PAGE_SIZE)) 0 size_memory phys virt_base ;;;
        upd (fun m => set_mmap_physical m ((phys ⊕ size_memory ⊕ MASK_2M) .& not64 MASK_2M)) ;;;
        ret true
  end.

(** After the part before the first 2MB boundary. *)
Definition map_aligned (fd off virt_base sz : Z) : M VM bool :=
  let size_memory := sz .& not64 MASK_2M in
  let! ok := (if 0 <? size_memory then map_file_pages fd off virt_base size_memory else ret true) in
  if negb ok then ret false
  else
    when (size_memory <? sz)
      (let! buffers := writable_buffers_from_range (virt_base ⊕ size_memory) (sz - size_memory) in
       let! _ := host_preadv fd buffers (off + size_memory) in ret tt) ;;;
    ret true.

(** [off] is a 32-bit integer here, and [prot] has no effect ([set_protections] returns at once). *)
Definition mmap_backed_area (fd off virt_base size_bytes : Z) : M VM bool :=
  match file_size fd with
  | None => ret false
  | Some file_sz =>
      if (off <? 0) || (file_sz <=? off) then ret false
      else
        let size_bytes := Z.min size_bytes (file_sz - off) in
        if virt_base .& MASK_2M =? 0 then map_aligned fd off virt_base size_bytes
        else
          let aligned_base := (virt_base ⊕ MASK_2M) .& not64 MASK_2M in
          let prealigned_size := Z.min (aligned_base ⊖ virt_base) size_bytes in
          if 0 <? prealigned_size then
            let! buffers := writable_buffers_from_range virt_base prealigned_size in
            let! ok := host_preadv fd buffers off in
            if negb ok then throw (MemoryException "preadv64 failed" virt_base prealigned_size false)
            else
              let sz := size_bytes - prealigned_size in
              if sz =? 0 then ret true
              else map_aligned fd (int32 (off + prealigned_size)) aligned_base sz
          else map_aligned fd off virt_base size_bytes
  end.

Definition has_mmap_backed_area (m : vMemory) (addr sz : Z) : bool :=
  existsb (fun range => overlaps range addr sz) (mmap_ranges m).

(** *** The interface of the other handlers *)

#[global] Instance machine_memory : GuestMemory Machine := {
  guest_write addr data := on_vm (copy_to_guest addr data false);
  guest_read addr len := on_vm (copy_from_guest addr len);
  guest_mmap bytes := on_maps (mmap_allocate bytes false);
  guest_copy dst src len := on_vm (let! s := get in copy_from_machine dst (vm s) src len) }.

(** *** The handlers *)

Variable cb : Callbacks.
(** [m_mmap_func], with the arguments in the order the handlers pass them. *)
Variable mmap_func : Z -> Z -> Z -> Z -> Z -> Z -> P (G := Machine) unit.

Abbreviation P := (P (G := Machine)).

Definition MAP_FIXED : Z := 0x10.
Definition MAP_ANON : Z := 0x20.
Definition MAP_FAILED_RAX : Z := W64 - 1.
Definition ENOMEM : Z := 12.
Definition ENOSYS : Z := 38.

Definition is_fixed (flags : Z) : bool := any_bit flags MAP_FIXED.

(** mmap of a file. *)
Definition mmap_file (address length flags prot : Z) : P unit :=
  let! s := get in
  let r := regs s in
  let voff := r9 r in
  let! real_fd := fd_translate cb (int32 (r8 r)) in
  let! s := get in
  let m := mem s in
  let backed := mmap_backed_files (vm (mvm m)) in
  let read_length := rsi r in
  let is_somewhat_large := 0x400000 <=? read_length in
  let! dst :=
    (if negb (address =? 0) && (mmap_start (maps m) <? address ⊕ length) then
       on_mem (on_maps (mmap_fixed_allocate address length (is_fixed flags)))
     else if negb (address =? 0) && (address <? m_heap_address (maps m)) then ret address
     else on_mem (on_maps (mmap_allocate length (backed && is_somewhat_large)))) in
  let! mapped :=
    (if backed && (mmap_start (maps m) <=? dst) && is_somewhat_large && negb (m_forked (vm (mvm m))) then
       on_mem (on_vm (mmap_backed_area real_fd (int32 voff) dst read_length))
     else ret false) in
  let! result :=
    (if mapped then ret dst
     else
       let! buffers := on_mem (on_vm (writable_buffers_from_range dst read_length)) in
       let! ok := on_mem (on_vm (host_preadv real_fd buffers voff)) in
       ret (if ok then dst else MAP_FAILED_RAX)) in
  return_rax result ;;;
  mmap_func address length flags prot real_fd voff.

Definition sys_mmap : P unit :=
  let! s := get in
  let r := regs s in
  let address := rdi r .& not64 PageMask in
  let length := round_up (rsi r) PageMask in
  let prot := int32 (rdx r) in
  let flags := r10 r in
  if 0 <=? int32 (r8 r) then mmap_file address length flags prot
  else
    let m := mem s in
    let start := mmap_start (maps m) in
    let cur := mmap_current (maps m) in
    let! result :=
      (if negb (address =? 0) && (m_heap_address (maps m) <=? address) && (address ⊕ length <=? start) then
         if is_fixed flags then ret address else on_mem (on_maps (mmap_allocate length false))
       else if negb (address =? 0) && (start <=? address) && (address ⊕ length <=? cur) then
         on_mem (on_maps (mmap_fixed_allocate address length (is_fixed flags)))
       else if negb (address =? 0) && (cur <? address ⊕ length) && negb (m_relocate_fixed_mmap m) then
         on_mem (on_maps (mmap_fixed_allocate address length (is_fixed flags)))
       else on_mem (on_maps (mmap_allocate length false))) in
    when (any_bit flags MAP_ANON && negb (result =? MAP_FAILED_RAX)) (on_mem (on_vm (memzero result length))) ;;;
    return_rax result ;;;
    mmap_func address length flags prot (-1) 0.

Definition sys_mprotect : P unit :=
  let! s := get in
  return_rax 0 ;;;
  mmap_func (rdi (regs s)) (rsi (regs s)) 0 (int32 (rdx (regs s))) (-1) 0.

Definition sys_munmap : P unit :=
  let! s := get in
  let old_base := rdi (regs s) .& not64 PageMask in
  let old_size := round_up (rsi (regs s)) PageMask in
  let! _ := on_mem (on_maps (mmap_unmap old_base old_size)) in
  return_rax 0.

Definition sys_brk : P unit :=
  let! s := get in
  let old_brk := m_brk_address (mem s) in
  let new_brk := rdi (regs s) in
  if new_brk <? old_brk then return_rax old_brk
  else
    let new_brk := Z.min new_brk (m_brk_end_address (mem s)) in
    on_mem (set_brk_address new_brk) ;;;
    return_rax new_brk.

Definition MREMAP_MAYMOVE : Z := 1.
Definition MREMAP_FIXED : Z := 2.
Definition MREMAP_DONTUNMAP : Z := 4.

Definition sys_mremap : P unit :=
  let! s := get in
  let r := regs s in
  let current := mmap_current (maps (mem s)) in
  let old_addr := rdi r .& not64 PageMask in
  let old_len := rsi r in
  let new_len := rdx r in
  let old_page_len := round_up old_len PageMask in
  let new_page_len := round_up new_len PageMask in
  let flags := uint32 (r10 r) in
  if any_bit flags MREMAP_FIXED then return_rax MAP_FAILED_RAX
  else if old_addr ⊕ old_page_len =? current then
    if old_addr ⊕ new_page_len <? old_addr then throw (MachineException "mremap: overflow" 0)
    else
      on_mem (on_maps (assign_current (old_addr ⊕ new_page_len))) ;;;
      return_rax old_addr
  else if any_bit flags MREMAP_MAYMOVE then
    let! new_addr := on_mem (on_maps (mmap_allocate new_len false)) in
    on_mem (on_vm (let! v := get in copy_from_machine new_addr (vm v) old_addr old_len)) ;;;
    when (negb (any_bit flags MREMAP_DONTUNMAP))
      (let! _ := on_mem (on_maps (mmap_unmap old_addr old_len)) in ret tt) ;;;
    return_rax new_addr
  else return_rax (- ENOMEM).

Definition sys_msync : P unit := return_rax 0.
Definition sys_mincore : P unit := return_rax (- ENOSYS).

Definition MADV_DONTNEED : Z := 4.
Definition sys_madvise : P unit :=
  let! s := get in
  when (rdx (regs s) =? MADV_DONTNEED) (on_mem (on_vm (memzero (rdi (regs s)) (rsi (regs s))))) ;;;
  return_rax 0.
End calls.

(** ** A guest that maps and unmaps memory *)

Section guest.
Context `{os : HostOS} `{hf : HostFds} `{files_of_host : HostFiles}.
Variable cb : Callbacks.
Variable mmap_func : Z -> Z -> Z -> Z -> Z -> Z -> P (G := Machine) unit.
Implicit Types (s : FdOS (G := Machine)) (live : list MMapCache.Range).

(** What the address-space theorems look at. *)
Record view := mkView { v_maps : mm_state; v_brk : Z; v_brk_end : Z }.
Definition view_of s : view := mkView (maps (mem s)) (m_brk_address (mem s)) (m_brk_end_address (mem s)).

(** The embedder's callback does not allocate guest address space or set registers (the default
    one is empty). *)
Hypothesis callback_quiet : forall a b c d e f s,
  wp (mmap_func a b c d e f) (fun _ s' => view_of s' = view_of s /\ regs s' = regs s)
    (fun _ s' => view_of s' = view_of s /\ regs s' = regs s) s.

(** [live] are the ranges the guest got from anonymous mmap calls and has not unmapped.  The
    guest computes between calls ([gs_run]); any of the calls can throw. *)
Inductive guest_step : FdOS (G := Machine) * list MMapCache.Range -> FdOS (G := Machine) * list MMapCache.Range -> Prop :=
| gs_run s s' live : view_of s' = view_of s -> guest_step (s, live) (s', live)
| gs_mmap s live s' : int32 (r8 (regs s)) < 0 -> rdi (regs s) = 0 -> 0 < rsi (regs s) ->
    mmap_current (maps (mem s)) + rsi (regs s) + 2 * PageSize <= W64 ->
    sys_mmap cb mmap_func s = (Ok tt, s') ->
    guest_step (s, live) (s', MMapCache.mkRange (rax (regs s')) (round_up (rsi (regs s)) PageMask) :: live)
| gs_mmap_throw s live e s' : int32 (r8 (regs s)) < 0 -> rdi (regs s) = 0 -> 0 < rsi (regs s) ->
    mmap_current (maps (mem s)) + rsi (regs s) + 2 * PageSize <= W64 ->
    sys_mmap cb mmap_func s = (Err e, s') -> guest_step (s, live) (s', live)
| gs_munmap s l1 q l2 s' : rdi (regs s) = MMapCache.addr q -> round_up (rsi (regs s)) PageMask = MMapCache.size q ->
    sys_munmap s = (Ok tt, s') -> guest_step (s, l1 ++ q :: l2) (s', l1 ++ l2)
| gs_brk s live r s' : sys_brk s = (r, s') -> guest_step (s, live) (s', live)
| gs_mprotect s live r s' : sys_mprotect mmap_func s = (r, s') -> guest_step (s, live) (s', live)
| gs_madvise s live r s' : sys_madvise s = (r, s') -> guest_step (s, live) (s', live).

Lemma wp_on_mem_maps {A} (m : M mm_state A) (Q : A -> FdOS -> Prop) X s :
  wp m (fun a st => Q a (mkFdOS (regs s) (files s) (mkMachine (mvm (mem s)) st (m_brk_address (mem s)) (m_brk_end_address (mem s)) (m_relocate_fixed_mmap (mem s)))))
       (fun e st => X e (mkFdOS (regs s) (files s) (mkMachine (mvm (mem s)) st (m_brk_address (mem s)) (m_brk_end_address (mem s)) (m_relocate_fixed_mmap (mem s)))))
     (maps (mem s)) ->
  wp (on_mem (on_maps m)) Q X s.
Proof. unfold wp, on_mem, on_maps. by destruct (m (maps (mem s))) as [[]]. Qed.
Lemma wp_on_mem_vm {A} (m : M VM A) (Q : A -> FdOS -> Prop) (X : exn -> FdOS -> Prop) s :
  (forall a s', regs s' = regs s -> view_of s' = view_of s -> Q a s') -> (forall e s', view_of s' = view_of s -> X e s') ->
  wp (on_mem (on_vm m)) Q X s.
Proof. intros HQ HX. unfold wp, on_mem, on_vm. destruct (m (mvm (mem s))) as [[]]; [by apply HQ|by apply HX]. Qed.

Lemma wp_eq {A} (m : M mm_state A) st : wp m (fun a t => m st = (Ok a, t)) (fun e t => m st = (Err e, t)) st.
Proof. unfold wp. by destruct (m st) as [[]]. Qed.

(** An anonymous mapping without an address is one [mmap_allocate]. *)
Lemma sys_mmap_wp s : int32 (r8 (regs s)) < 0 -> rdi (regs s) = 0 ->
  let len := round_up (rsi (regs s)) PageMask in
  let same_brk s' := v_brk (view_of s') = v_brk (view_of s) /\ v_brk_end (view_of s') = v_brk_end (view_of s) in
  wp (sys_mmap cb mmap_func)
    (fun _ s' => same_brk s' /\ exists a, mmap_allocate len false (maps (mem s)) = (Ok a, maps (mem s')) /\ rax (regs s') = a mod W64)
    (fun _ s' => same_brk s' /\ exists r, mmap_allocate len false (maps (mem s)) = (r, maps (mem s'))) s.
Proof.
  intros Hfd Ha. cbn zeta. unfold sys_mmap. wp_step. wp_step. rewrite (proj2 (Z.leb_gt _ _)) by done.
  rewrite Ha. change (0 .& not64 PageMask) with 0. cbn [Z.eqb negb andb]. cbn zeta. wp_step.
  apply wp_on_mem_maps. eapply wp_mono; [apply wp_eq| |]; cbn beta.
  - intros a st E. wp_step. 
    set (s1 := mkFdOS _ _ _).
    assert (forall s2, regs s2 = regs s1 -> view_of s2 = view_of s1 ->
      wp (return_rax a ;;; mmap_func 0 (round_up (rsi (regs s)) PageMask) (r10 (regs s)) (int32 (rdx (regs s))) (-1) 0)
        (fun _ s' => (v_brk (view_of s') = v_brk (view_of s) /\ v_brk_end (view_of s') = v_brk_end (view_of s)) /\
           exists a, mmap_allocate (round_up (rsi (regs s)) PageMask) false (maps (mem s)) = (Ok a, maps (mem s')) /\ rax (regs s') = a mod W64)
        (fun _ s' => (v_brk (view_of s') = v_brk (view_of s) /\ v_brk_end (view_of s') = v_brk_end (view_of s)) /\
           exists r, mmap_allocate (round_up (rsi (regs s)) PageMask) false (maps (mem s)) = (r, maps (mem s'))) s2) as Htail.
    { intros s2 Hr Hv. wp_step. unfold return_rax. wp_step. eapply wp_mono; [apply callback_quiet| |].
      - intros _ s' [Hv' Hr']. simpl in Hv', Hr'. unfold view_of in *. simpl in *. simplify_eq/=.
        split; [split; congruence|]. exists a. split; [congruence|]. by rewrite Hr'.
      - intros _ s' [Hv' Hr']. unfold view_of in *. simpl in *. simplify_eq/=. split; [split; congruence|]. exists (Ok a). congruence. }
    apply wp_when; [intros _|intros _; by apply Htail].
    apply wp_on_mem_vm; [intros _ s2 Hr Hv; by apply Htail|].
    intros e s2 Hv. unfold view_of in *. simplify_eq/=. split; [split; congruence|]. exists (Ok a). congruence.
  - intros e st E. simpl. split; [done|]. by eexists.
Qed.

(** The invariant of the run: the mapped ranges are those of a client of the allocator, and the
    break stays in its own area below the mmap area. *)
Definition guest_inv (brk0 : Z) (p : FdOS (G := Machine) * list MMapCache.Range) : Prop :=
  client_inv (v_maps (view_of p.1), p.2) /\
  brk0 <= v_brk (view_of p.1) <= v_brk_end (view_of p.1) /\ v_brk_end (view_of p.1) <= m_heap_address (v_maps (view_of p.1)).

Lemma guest_inv_view brk0 s s' live : view_of s' = view_of s -> guest_inv brk0 (s, live) -> guest_inv brk0 (s', live).
Proof. intros E. unfold guest_inv. cbn [fst snd]. by rewrite E. Qed.

Lemma allocated_heap bytes st r st' : mmap_allocate bytes false st = (r, st') -> m_heap_address st' = m_heap_address st.
Proof. intros E. pose proof (wp_run _ _ _ _ _ _ (same_config_allocate st bytes false) E) as H. by destruct r; destruct H. Qed.

Lemma page_round_up b : 0 < b -> b + 2 * PageSize <= W64 ->
  0 < round_up b PageMask /\ round_up b PageMask < b + PageSize /\ round_up (round_up b PageMask) PageMask = round_up b PageMask.
Proof.
  intros Hb Hw. destruct (round_up_page b) as [H1 H2]; [unfold MMap.PageSize in *; lia..|].
  change PageMask with MMap.PageMask in *. unfold MMap.PageSize in *. split_and!; [lia|lia|].
  destruct (round_up_page (round_up b MMap.PageMask)) as [H3 H4]; [lia|unfold MMap.PageSize; lia|]. unfold MMap.PageSize in *. dlia.
Qed.

Lemma guest_step_inv brk0 p p' : guest_step p p' -> guest_inv brk0 p -> guest_inv brk0 p'.
Proof.
  intros Hstep. destruct Hstep as [s s' live Hv|s live s' Hfd Ha Hl Hw E|s live e s' Hfd Ha Hl Hw E|s l1 q l2 s' Ha Hl E|s live r s' E|s live r s' E|s live r s' E].
  - by apply guest_inv_view.
  - intros (Hc&Hb&He). destruct (page_round_up (rsi (regs s))) as (H1&H2&H3); [done|destruct (inv_cur _ (ci_inv _ Hc)); unfold mmap_current in *; simpl in *; lia|].
    destruct (wp_run _ _ _ _ _ _ (sys_mmap_wp s Hfd Ha) E) as ((Hb1&Hb2)&a&Em&Er).
    pose proof (client_inv_run_allocate _ _ _ _ _ Hc H1 ltac:(unfold mmap_current in *; simpl in *; lia) Em) as Hc'.
    unfold guest_inv. simpl in *. rewrite Hb1, Hb2, (allocated_heap _ _ _ _ Em). split_and!; [|lia..].
    change MMap.PageMask with PageMask in Hc'. rewrite H3 in Hc'. rewrite Er, Z.mod_small; [done|].
    pose proof (ci_live _ Hc') as Hq. apply Forall_cons in Hq as [Hq _]. destruct (inv_cur _ (ci_inv _ Hc')). pose proof (inv_start _ (ci_inv _ Hc')). unfold MMapCache.within_bounds in Hq. simpl in *. lia.
  - intros (Hc&Hb&He). destruct (page_round_up (rsi (regs s))) as (H1&H2&H3); [done|destruct (inv_cur _ (ci_inv _ Hc)); unfold mmap_current in *; simpl in *; lia|].
    destruct (wp_run _ _ _ _ _ _ (sys_mmap_wp s Hfd Ha) E) as ((Hb1&Hb2)&r&Em).
    pose proof (client_inv_run_allocate _ _ _ _ _ Hc H1 ltac:(unfold mmap_current in *; simpl in *; lia) Em) as Hc'.
    unfold guest_inv. simpl in *. rewrite Hb1, Hb2, (allocated_heap _ _ _ _ Em). split_and!; [|lia..].
    destruct r; [by eapply client_inv_drop|done].
  - intros (Hc&Hb&He). unfold sys_munmap, bind, get in E. rewrite Ha in E. change PageMask with MMap.PageMask in *. rewrite Hl in E.
    assert (MMapCache.addr q .& not64 MMap.PageMask = MMapCache.addr q) as Eq.
    { pose proof (ci_live _ Hc) as Hq. pose proof (ci_aligned _ Hc) as Hqa. simpl in Hq, Hqa. rewrite Forall_app, Forall_cons in Hq, Hqa.
      destruct Hq as (_&Hq&_), Hqa as (_&Hqa&_). destruct (inv_cur _ (ci_inv _ Hc)). pose proof (inv_start _ (ci_inv _ Hc)). simpl in *. unfold MMapCache.within_bounds in Hq. change MMap.PageMask with (2 ^ 12 - 1); rewrite land_not_ones by (unfold u64; lia); unfold MMap.PageSize in *; dlia. }
    rewrite Eq in E. unfold on_mem, on_maps, return_rax, modify in E.
    destruct (mmap_unmap (MMapCache.addr q) (MMapCache.size q) (maps (mem s))) as [[b|e] st'] eqn:Em; [|done]. simplify_eq/=.
    unfold guest_inv. simpl. split_and!; [|lia..|].
    + eapply client_inv_run_unmap; [exact Hc|exact Em].
    + destruct (wp_run _ _ _ _ _ _ (same_config_unmap (maps (mem s)) (MMapCache.addr q) (MMapCache.size q)) Em) as [-> _]. done.
  - intros (Hc&Hb&He). unfold sys_brk, bind, get in E. simpl in *.
    destruct (Z.ltb_spec (rdi (regs s)) (m_brk_address (mem s))); unfold return_rax, on_mem, set_brk_address, modify in E; simplify_eq/=;
      unfold guest_inv; simpl; split_and!; done || lia.
  - unfold sys_mprotect, bind, get, return_rax, modify in E.
    pose proof (wp_run _ _ _ _ _ _ (callback_quiet _ _ _ _ _ _ _) E) as Hq. apply guest_inv_view. destruct r; by destruct Hq as [-> _].
  - unfold sys_madvise in E. apply guest_inv_view.
    assert (wp (when (rdx (regs s) =? MADV_DONTNEED) (on_mem (on_vm (memzero (rdi (regs s)) (rsi (regs s))))) ;;; return_rax 0)
      (fun _ s' => view_of s' = view_of s) (fun _ s' => view_of s' = view_of s) s) as H.
    { wp_step. apply wp_when; [intros _; apply wp_on_mem_vm; [intros _ s2 _ Hv|done]|intros _]; unfold return_rax; wp_step; done. }
    apply (wp_run _ _ _ _ _ _ H) in E. by destruct r.
Qed.
End guest.


(** ** On the small machine *)

#[local] Existing Instance Fork.demo_host.
#[local] Existing Instance Fds.demo_host.
#[local] Instance demo_files : HostFiles := {
  file_size _ := Some 6;
  file_read fd l off := if fd <? 0 then None else Some (drop (Z.to_nat off) [1; 2; 3; 4; 5; 6]);
  file_map _ _ _ := None;
  file_name _ := "file" }.

Definition demo_cb : Callbacks := mkCallbacks None None None None None None None.
Definition no_callback (_ _ _ _ _ _ : Z) : P (G := Machine) unit := ret tt.
(** The fork, with its heap at 0x300000 and its break below. *)
Definition demo_machine : Machine := mkMachine demo_fork (fresh_maps 0x300000) 0x2f0000 0x300000 true.
Definition call6 (a b c d e f : Z) : x86regs := mkRegs 0 0 0 c b a 0 0 e f d 0 0 0 0 0 0 0.
Definition demo_os (m : Machine) : FdOS (G := Machine) := mkFdOS (call6 0 0 0 0 0 0) demo_table m.
Definition with_call (r : x86regs) (s : FdOS (G := Machine)) : FdOS (G := Machine) := mkFdOS r (files s) (mem s).
(** mmap of [len] anonymous bytes; munmap, mremap. *)
Definition do_mmap (addr len flags : Z) (s : FdOS) : result unit * FdOS :=
  sys_mmap demo_cb no_callback (with_call (call6 addr len 3 flags (W64 - 1) 0) s).
Definition do_mremap (addr old new flags : Z) (s : FdOS) : FdOS :=
  snd (sys_mremap (with_call (call6 addr old new flags 0 0) s)).
Definition used (s : FdOS) : list MMapCache.Range := MMapCache.m_used_ranges (cache (maps (mem s))).
Definition unused (s : FdOS) : list MMapCache.Range := MMapCache.m_free_ranges (cache (maps (mem s))).

(** A guest that asks for 0x1800 bytes gets two pages. *)
Definition demo_start : FdOS (G := Machine) := demo_os demo_machine.
Definition demo_asking : FdOS (G := Machine) := with_call (call6 0 0x1800 3 0x22 (W64 - 1) 0) demo_start.
Definition demo_given : FdOS (G := Machine) := snd (sys_mmap demo_cb no_callback demo_asking).
Lemma demo_given_range : rax (regs demo_given) = 0x300000.
Proof. vm_compute. reflexivity. Qed.
Lemma demo_guest_run : rtc (guest_step demo_cb no_callback) (demo_start, []) (demo_given, [MMapCache.mkRange (rax (regs demo_given)) 0x2000]).
Proof.
  apply (rtc_l _ _ (demo_asking, [])); [by apply gs_run|]. apply rtc_once, (gs_mmap _ _ demo_asking [] demo_given);
    [vm_compute; reflexivity|reflexivity|vm_compute; reflexivity|vm_compute; congruence|].
  unfold demo_given. apply run_pair. vm_compute. reflexivity.
Qed.
Lemma demo_guest_inv : guest_inv (m_brk_address (mem demo_start)) (demo_start, []).
Proof. split; [apply client_inv_fresh; [unfold u64; lia|reflexivity]|vm_compute; intuition congruence]. Qed.


(** [mremap] of the last mapping only moves the end of the mmap area: after shrinking it, the
    used range is still recorded in full, and the next mmap throws because of it. *)
Example mremap_shrink_blocks_mmap :
  let s := do_mremap 0x300000 0x3000 0x1000 1 (snd (do_mmap 0 0x3000 0x22 (demo_os demo_machine))) in
  mmap_current (maps (mem s)) = 0x301000 /\ used s = [MMapCache.mkRange 0x300000 0x3000] /\
  fst (do_mmap 0 0x1000 0x22 s) = Err (MemoryException "MMapCache: Collision detected after incrementing current" 0x301000 0x1000 false).
Proof. split_and!; vm_compute; reflexivity. Qed.

(** [mremap] that moves a mapping unmaps the length it was given, not rounded to pages: the free
    list gets a range that is not a multiple of the page size. *)
Example mremap_frees_part_of_page :
  let s := snd (do_mmap 0 0x1000 0x22 (snd (do_mmap 0 0x2000 0x22 (demo_os demo_machine)))) in
  let s' := do_mremap 0x300000 0x1800 0x3000 1 s in
  rax (regs s') = 0x303000 /\ unused s' = [MMapCache.mkRange 0x300000 0x1800].
Proof. split_and!; vm_compute; reflexivity. Qed.

(** A descriptor that does not exist translates to -1 and cannot be read: mmap returns MAP_FAILED, but the range stays allocated. *)
Example failed_file_mmap_keeps_range :
  let s := with_call (call6 0 0x1000 3 2 3 0) (demo_os demo_machine) in
  let s' := snd (sys_mmap demo_cb no_callback s) in
  rax (regs s') = MAP_FAILED_RAX /\ used s' = [MMapCache.mkRange 0x300000 0x1000].
Proof. split_and!; vm_compute; reflexivity. Qed.
