(* ===== verification/Rsp.v ===== *)
(** * The GDB remote-protocol stub

    lib/tinykvm/rsp_client.cpp: [RSPClient], which talks to a debugger over a socket.  Packets
    are read by [process_one], dispatched by [process_data] and answered through [send] and
    [sendf].  Bytes are numbers below 256.

    The socket is what the two sides have written, and whether it is open; the debugged machine
    is the class [Debuggee] (registers, memory, running, and files of the host for the vFile
    requests).  [sscanf] and [printf] are modelled for the conversions the code uses.  A packet
    longer than the buffer it is built in is [Undefined]. *)
From stdpp Require Import base tactics list numbers strings gmap.
From Stdlib Require Import ZArith Lia Bool Ascii.
From S2P Require Import Prelude Cpu VMemory.
Local Open Scope Z_scope.

(** The bytes of a string literal. *)
Definition str (s : string) : list Z := map (fun c => Z.of_N (N_of_ascii c)) (String.list_ascii_of_string s).

(** ** Numbers as text *)

(** [lut[d & 0xF]] *)
Definition lut (d : Z) : Z := let d := d .& 0xF in if d <? 10 then 48 + d else 87 + d.
Definition hex_byte (v : Z) : list Z := [lut (v .>> 4); lut v].
Definition hex_bytes (l : list Z) : list Z := concat (map hex_byte l).

Definition digit (c : Z) : option Z :=
  if (48 <=? c) && (c <=? 57) then Some (c - 48)
  else if (97 <=? c) && (c <=? 102) then Some (c - 87)
  else if (65 <=? c) && (c <=? 70) then Some (c - 55)
  else None.
Definition digit_in (base c : Z) : option Z :=
  match digit c with Some d => if d <? base then Some d else None | None => None end.
(** The digits at the front, and the rest; at most [width] of them. *)
Fixpoint scan_digits (base : Z) (width : nat) (acc : Z) (l : list Z) : Z * list Z :=
  match width, l with
  | S w, c :: l' => match digit_in base c with Some d => scan_digits base w (base * acc + d) l' | None => (acc, l) end
  | _, _ => (acc, l)
  end.
Definition is_space (c : Z) : bool := (c =? 32) || ((9 <=? c) && (c <=? 13)).
Fixpoint skip_spaces (l : list Z) : list Z :=
  match l with c :: l' => if is_space c then skip_spaces l' else l | [] => [] end.
Definition scan_sign (l : list Z) : bool * list Z :=
  match l with 45 :: l' => (true, l') | 43 :: l' => (false, l') | _ => (false, l) end.
(** The prefix 0x of a hexadecimal number, when a digit follows. *)
Definition scan_0x (base : Z) (l : list Z) : list Z :=
  match l with
  | 48 :: x :: c :: l' =>
      if (base =? 16) && ((x =? 120) || (x =? 88)) && (match digit_in 16 c with Some _ => true | None => false end)
      then c :: l' else l
  | _ => l
  end.
(** One conversion of [sscanf]: the value as [strtoul] gives it (64 bits, saturated), and the
    rest of the input; [None] when nothing matches. *)
Definition scan_number (base : Z) (width : nat) (l : list Z) : option (Z * list Z) :=
  let l := skip_spaces l in
  let (neg, l) := scan_sign l in
  let l := scan_0x base l in
  match l with
  | c :: _ =>
      match digit_in base c with
      | Some _ =>
          let (v, l') := scan_digits base width 0 l in
          let v := Z.min v (W64 - 1) in
          Some (if neg then wrap64 (- v) else v, l')
      | None => None
      end
  | [] => None
  end.
Abbreviation any_width := (64%nat).
(** A literal of the format. *)
Fixpoint scan_literal (lit l : list Z) : option (list Z) :=
  match lit, l with
  | [], _ => Some l
  | c :: lit', d :: l' => if c =? d then scan_literal lit' l' else None
  | _ :: _, [] => None
  end.
(** The number after the literal [lit]. *)
Definition scan_after (lit : list Z) (base : Z) (l : list Z) : option (Z * list Z) :=
  match scan_literal lit l with Some l' => scan_number base any_width l' | None => None end.

(** [%x], [%lx], [%llo], [%d]: digits without leading zeros. *)
Fixpoint to_digits (fuel : nat) (base v : Z) (acc : list Z) : list Z :=
  match fuel with
  | O => acc
  | S f => let acc := lut (v mod base) :: acc in if v / base =? 0 then acc else to_digits f base (v / base) acc
  end.
Definition print_base (base v : Z) : list Z := to_digits 64 base v [].
Definition print_hex (v : Z) : list Z := print_base 16 v.
Definition print_int (v : Z) : list Z := if v <? 0 then 45 :: print_base 10 (- v) else print_base 10 v.
(** [%02x] of an [int] *)
Definition print_02x (v : Z) : list Z :=
  let l := print_hex (v mod 2 ^ 32) in if (length l <? 2)%nat then 48 :: l else l.

(** C strings end at the first zero. *)
Fixpoint c_str (l : list Z) : list Z :=
  match l with [] => [] | c :: l' => if c =? 0 then [] else c :: c_str l' end.
(** [strncmp(s, buffer, n) == 0], for a literal of at least [n] characters *)
Definition begins_n (n : nat) (s : string) (l : list Z) : bool := bool_decide (take n (str s) = take n l).
Definition begins (s : string) (l : list Z) : bool := begins_n (length (str s)) s l.

(** [%[^,]] *)
Fixpoint take_until_comma (l : list Z) : list Z :=
  match l with [] => [] | c :: l' => if c =? 44 then [] else c :: take_until_comma l' end.

(** [buffer[0]]; of an empty string it is the terminating zero. *)
Definition first_byte (l : list Z) : Z := match l with c :: _ => c | [] => 0 end.

(** ** The debugged machine *)

Class Debuggee (G : Type) := {
  d_regs : M G x86regs;
  d_set_regs : x86regs -> M G unit;
  (** The 416 bytes of [tinykvm_x86fpuregs]. *)
  d_fpu : M G (list Z);
  (** Selectors of CS, SS, DS and ES; the bases of FS and GS. *)
  d_selectors : M G (list Z);
  d_fsgs : M G (Z * Z);
  (** [exception_extra_offset(current_exception)] *)
  d_exception_offset : M G Z;
  (** [unsafe_copy_from_guest] and [copy_to_guest] *)
  d_read : Z -> Z -> M G (list Z);
  d_write : Z -> list Z -> M G unit;
  d_stopped : M G bool;
  (** [run_with_breakpoints]: the reason of the exit. *)
  d_run : list Z -> M G Z;
  d_step : M G unit;
  (** [main_memory().mmap_ranges] *)
  d_mmap_ranges : M G (list VirtualMem);
  (** open, pread, close and fstat on the host: a result or an error number. *)
  d_open : list Z -> Z -> Z -> M G (Z + Z);
  d_pread : Z -> Z -> Z -> M G (list Z + Z);
  d_close : Z -> M G (Z + Z);
  d_fstat : Z -> M G (list Z + Z) }.

(** ** The socket *)

Record Sock := mkSock {
  s_open : bool;             (* the descriptor is open here *)
  s_peer : bool;             (* the debugger still takes data *)
  s_out : list Z;            (* what was written *)
  s_in : list (list Z);      (* what the next reads find; an empty one is a failure *)
  s_closes : Z }.            (* calls of close on the descriptor *)

Section client.
Context {G : Type} `{dbg : Debuggee G}.

Record RSPClient := mkRSP {
  target : G;
  sock : Sock;
  m_closed : bool;
  buffer : list Z;
  m_bp : list Z;             (* std::array of four *)
  bp_iterator : Z;
  m_breaklimit : Z;
  m_filename : string }.

Definition R := M RSPClient.

Definition set_sock (c : RSPClient) x := mkRSP (target c) x (m_closed c) (buffer c) (m_bp c) (bp_iterator c) (m_breaklimit c) (m_filename c).
Definition set_closed (c : RSPClient) x := mkRSP (target c) (sock c) x (buffer c) (m_bp c) (bp_iterator c) (m_breaklimit c) (m_filename c).
Definition set_buffer (c : RSPClient) x := mkRSP (target c) (sock c) (m_closed c) x (m_bp c) (bp_iterator c) (m_breaklimit c) (m_filename c).
Definition set_bp (c : RSPClient) x i := mkRSP (target c) (sock c) (m_closed c) (buffer c) x i (m_breaklimit c) (m_filename c).
Definition on_target {A} (m : M G A) : R A :=
  fun c => let (r, g) := m (target c) in
           (r, mkRSP g (sock c) (m_closed c) (buffer c) (m_bp c) (bp_iterator c) (m_breaklimit c) (m_filename c)).
Definition the_buffer : R (list Z) := gets buffer.

(** [write], [read] and [close] on the socket. *)
Definition sock_write (l : list Z) : R bool :=
  let! c := get in
  let k := sock c in
  if s_open k && s_peer k then
    put (set_sock c (mkSock (s_open k) (s_peer k) (s_out k ++ l) (s_in k) (s_closes k))) ;;; ret true
  else ret false.
Definition sock_read (n : nat) : R (list Z) :=
  let! c := get in
  let k := sock c in
  if s_open k then
    match s_in k with
    | [] => ret []
    | d :: rest =>
        let rest := if (n <? length d)%nat then drop n d :: rest else rest in
        put (set_sock c (mkSock (s_open k) (s_peer k) (s_out k) rest (s_closes k))) ;;; ret (take n d)
    end
  else ret [].
Definition sock_close : R unit :=
  modify (fun c => let k := sock c in set_sock c (mkSock false (s_peer k) (s_out k) (s_in k) (s_closes k + 1))).


(** ** Packets *)

Definition PACKET_SIZE : Z := 2000.

Definition must_escape (c : Z) : bool := (c =? 36) || (c =? 35) || (c =? 42) || (c =? 125).
(** The loop: the bytes, and the checksum so far. *)
Fixpoint forge_loop (csum : Z) (data : list Z) : list Z * Z :=
  match data with
  | [] => ([], csum)
  | c :: data' =>
      if must_escape c then
        let c := Z.lxor c 0x20 in
        let (l, s) := forge_loop ((csum + 125 + c) mod 256) data' in (125 :: c :: l, s)
      else let (l, s) := forge_loop ((csum + c) mod 256) data' in (c :: l, s)
  end.
Definition forge_packet (data : list Z) : list Z :=
  let (l, csum) := forge_loop 0 data in 36 :: l ++ [35; lut (csum .>> 4); lut csum].

Definition close_now : R unit := modify (fun c => set_closed c true) ;;; sock_close.

(** What [send] and [sendf] do with the packet in their buffer. *)
Definition transmit (packet : list Z) : R bool :=
  let! ok := sock_write packet in
  if negb ok then close_now ;;; ret false
  else
    let! ack := sock_read 1 in
    match ack with
    | [] => close_now ;;; ret false
    | b :: _ => ret (b =? 43)
    end.
Definition send_bytes (data : list Z) : R bool :=
  let packet := forge_packet data in
  if PACKET_SIZE <? Z.of_nat (length packet) then throw (Undefined "packet does not fit the buffer")
  else transmit packet.
(** [send(str)]: up to the terminating zero. *)
Definition send (data : list Z) : R unit := let! _ := send_bytes (c_str data) in ret tt.
Definition send_s (s : string) : R unit := send (str s).
(** [sendf]: the formatted text must fit 4 + 2 * PACKET_SIZE, otherwise the length is -1 and
    [write] fails. *)
Definition sendf (data : list Z) : R unit :=
  let data := c_str data in
  let n := Z.of_nat (length data) in
  if (0 <? n) && (n <? 4 + 2 * PACKET_SIZE) then let! _ := send_bytes data in ret tt
  else close_now.

Definition reply_ack : R unit := let! _ := sock_write [43] in ret tt.
Definition reply_ok : R unit := send_s "OK".
Definition interrupt : R unit := send_s "S05".
Definition kill : R unit := sock_close.

(** ** Requests *)

(** The callback for a stopped machine. *)
Variable on_stopped : option (R unit).

Definition report_status : R unit :=
  let! stopped := on_target d_stopped in
  if negb stopped then send_s "S05"
  else match on_stopped with Some f => f | None => send_s "S05" end.

Definition handle_query : R unit :=
  let! b := the_buffer in
  if begins "qSupported" b then
    sendf (str "PacketSize=" ++ print_hex PACKET_SIZE ++ str ";swbreak-;hwbreak+;qXfer:libraries:read+;")
  else if begins_n 2 "qAttached" b then send_s "0"
  else if begins "qC" b then send_s "QC0"
  else if begins "qOffsets" b then
    let! ranges := on_target d_mmap_ranges in
    let! c := get in
    let offset := match List.find (fun v => bool_decide (v_filename v = m_filename c)) ranges with
                  | Some v => v_virtbase v | None => 0 end in
    sendf (str "TextSeg=" ++ print_hex offset)
  else if begins "qfThreadInfo" b then send_s "m0"
  else if begins "qsThreadInfo" b then send_s "l"
  else if begins "qSymbol::" b then send_s "OK"
  else send_s "".

Definition KVM_EXIT_DEBUG : Z := 4.
Fixpoint continue_loop (n : nat) (bp : list Z) : R unit :=
  let! stopped := on_target d_stopped in
  if stopped then ret tt
  else
    let! reason := on_target (d_run bp) in
    if reason =? KVM_EXIT_DEBUG then ret tt
    else match n with O => ret tt | S n' => continue_loop n' bp end.

(** A handler that stops the request itself returns false. *)
Definition at_breakpoint : R bool :=
  let! r := on_target d_regs in
  let! c := get in
  ret (existsb (fun bp => bp =? rip r) (m_bp c)).

Definition handle_continue : R unit :=
  let! hit := at_breakpoint in
  if hit then send_s "S05"
  else
    let! c := get in
    let! ok := try_catch (continue_loop (Z.to_nat (m_breaklimit c)) (m_bp c) ;;; ret true) (send_s "S11" ;;; ret false) in
    if ok then report_status else ret tt.

Definition handle_step : R unit :=
  let! hit := at_breakpoint in
  if hit then send_s "S05"
  else
    let! ok := try_catch
      (let! stopped := on_target d_stopped in
       if negb stopped then on_target d_step ;;; ret true else send_s "S00" ;;; ret false)
      (send_s "S11" ;;; ret false) in
    if ok then report_status else ret tt.

Definition handle_breakpoint : R unit :=
  let! b := the_buffer in
  (** [sscanf(&buffer[1], "%1u,%lx", &type, &addr)] *)
  let addr := match scan_number 10 1 (c_str (drop 1 b)) with
              | Some (_, l) => match scan_after (str ",") 16 l with Some (v, _) => v | None => 0 end
              | None => 0 end in
  (if first_byte b =? 90 then
     modify (fun c => set_bp c (<[Z.to_nat (bp_iterator c) := addr]> (m_bp c)) ((bp_iterator c + 1) mod 4))
   else modify (fun c => set_bp c (map (fun bp => if bp =? addr then 0 else bp) (m_bp c)) (bp_iterator c))) ;;;
  reply_ok.

(** The files of the host, for the debugger. *)
Definition handle_file_open : R unit :=
  let! b := the_buffer in
  (** [sscanf(..., "vFile:open:%511[^,],%d,%o", filename, &flags, &mode)] *)
  let l := drop (length (str "vFile:open:")) (c_str b) in
  let name := take 511 (take_until_comma l) in
  match scan_literal (str "vFile:open:") (c_str b), name, scan_after (str ",") 10 (drop (length name) l) with
  | Some _, _ :: _, Some (flags, rest) =>
      match scan_after (str ",") 8 rest with
      | Some (mode, _) =>
          let! r := on_target (d_open name (int32 flags) (int32 mode)) in
          match r with
          | inl fd => sendf (str "F" ++ print_int fd)
          | inr _ => send_s ""
          end
      | None => send_s "F01"
      end
  | _, _, _ => send_s "F01"
  end.

Definition handle_file_pread : R unit :=
  let! b := the_buffer in
  (** [sscanf(..., "vFile:pread:%d,0,%x,%lx", &fd, &bufsize, &offset)] *)
  match scan_after (str "vFile:pread:") 10 (c_str b) with
  | Some (fd, l) =>
      match scan_after (str ",0,") 16 l with
      | Some (bufsize, l) =>
          match scan_after (str ",") 16 l with
          | Some (offset, _) =>
              if uint32 bufsize <? 4096 then
                let! r := on_target (d_pread (int32 fd) (uint32 bufsize) offset) in
                match r with
                | inr e => sendf (str "F" ++ print_02x (- e))
                | inl data => sendf (str "F00;" ++ hex_bytes data)
                end
              else send_s "F01"
          | None => send_s "F01"
          end
      | None => send_s "F01"
      end
  | None => send_s "F01"
  end.

Definition handle_file_close : R unit :=
  let! b := the_buffer in
  match scan_after (str "vFile:close:") 10 (c_str b) with
  | Some (fd, _) =>
      let! r := on_target (d_close (int32 fd)) in
      sendf (str "F" ++ print_02x (match r with inl v => v | inr e => - e end))
  | None => send_s "F01"
  end.

(** The fields are printed in octal with a leading zero. *)
Definition print_fields (l : list Z) : list Z :=
  match map (fun v => 48 :: print_base 8 v) l with
  | [] => []
  | f :: fs => f ++ concat (map (fun g => 44 :: g) fs)
  end.
Definition handle_file_fstat : R unit :=
  let! b := the_buffer in
  match scan_after (str "vFile:fstat:") 10 (c_str b) with
  | Some (fd, _) =>
      let! r := on_target (d_fstat (int32 fd)) in
      match r with
      | inl st => sendf (str "F00;" ++ print_fields st)
      | inr e => sendf (str "F" ++ print_02x (- e))
      end
  | None => send_s "F01"
  end.

Definition handle_executing : R unit :=
  let! b := the_buffer in
  if begins "vCont?" b then send_s "vCont;c;s"
  else if begins "vCont;c" b then handle_continue
  else if begins "vCont;s" b then handle_step
  else if begins "vKill" b then kill
  else if begins "vMustReplyEmpty" b then send_s ""
  else if begins "vFile:setfs" b then send_s ""
  else if begins "vFile:open" b then handle_file_open
  else if begins "vFile:pread" b then handle_file_pread
  else if begins "vFile:close" b then handle_file_close
  else if begins "vFile:fstat" b then handle_file_fstat
  else send_s "".

Definition handle_multithread : R unit := reply_ok.

(** *** Memory *)

(** [sscanf(s, "<c>%lx,%x", &addr, &len)]: both start at zero. *)
Definition scan_range (c : string) (l : list Z) : option Z * option Z :=
  match scan_after (str c) 16 l with
  | Some (addr, l') =>
      match scan_after (str ",") 16 l' with
      | Some (len, _) => (Some addr, Some (uint32 len))
      | None => (Some addr, None)
      end
  | None => (None, None)
  end.

Fixpoint read_bytes_loop (n : nat) (addr : Z) : R (list Z) :=
  match n with
  | O => ret []
  | S n' =>
      let! val := on_target (d_read addr 1) in
      let! rest := read_bytes_loop n' (addr ⊕ 1) in
      ret (hex_byte (first_byte val) ++ rest)
  end.
Definition handle_readmem : R unit :=
  let! b := the_buffer in
  let '(addr, len) := scan_range "m" (c_str b) in
  let addr := default 0 addr in
  let len := default 0 len in
  if 8192 <=? len then send_s "E01"
  else
    let! data := try_catch (let! d := read_bytes_loop (Z.to_nat len) addr in ret (Some d)) (send_s "E11" ;;; ret None) in
    match data with Some d => send d | None => ret tt end.

(** The loop of [handle_writemem]: [i] is the position in the data, also of the address. *)
Fixpoint write_bytes_loop (addr i rlen : Z) (bin : list Z) : R unit :=
  match bin with
  | [] => ret tt
  | c :: bin' =>
      if rlen <=? i then ret tt
      else
        match bin' with
        | e :: bin'' =>
            if (c =? 123) && (i + 1 <? rlen) then
              on_target (d_write (addr ⊕ (i + 1)) [Z.lxor e 0x20]) ;;; write_bytes_loop addr (i + 2) rlen bin''
            else on_target (d_write (addr ⊕ i) [c]) ;;; write_bytes_loop addr (i + 1) rlen bin'
        | [] => on_target (d_write (addr ⊕ i) [c]) ;;; write_bytes_loop addr (i + 1) rlen bin'
        end
  end.
(** What follows the first colon. *)
Fixpoint after_colon (l : list Z) : option (list Z) :=
  match l with [] => None | c :: l' => if c =? 58 then Some l' else after_colon l' end.
Definition handle_writemem : R unit :=
  let! b := the_buffer in
  match scan_range "X" (c_str b) with
  | (None, _) => send_s "E01"
  | (Some addr, len) =>
      match after_colon b with
      | None => send_s "E01"
      | Some bin =>
          let rlen := Z.min (default 0 len) (Z.of_nat (length bin)) in
          try_catch (write_bytes_loop addr 0 rlen bin ;;; reply_ok) (send_s "E11")
      end
  end.

(** *** Registers *)

(** [putreg]: the bytes of a register in memory order, while there is room. *)
Definition putreg (n : nat) (v : Z) : list Z := hex_bytes (le_bytes n v).

(** [reg_at]: the numbering of the debugger. *)
Definition reg_at (r : x86regs) (idx : Z) : option Z :=
  nth_error [rax r; rbx r; rcx r; rdx r; rsi r; rdi r; rbp r; rsp r; r8 r; r9 r; r10 r; r11 r; r12 r; r13 r; r14 r; r15 r; rip r]
    (Z.to_nat idx).
Definition set_reg_at (r : x86regs) (idx v : Z) : x86regs :=
  let f i old := if idx =? i then v else old in
  mkRegs (f 0 (rax r)) (f 1 (rbx r)) (f 2 (rcx r)) (f 3 (rdx r)) (f 4 (rsi r)) (f 5 (rdi r)) (f 7 (rsp r)) (f 6 (rbp r))
    (f 8 (r8 r)) (f 9 (r9 r)) (f 10 (r10 r)) (f 11 (r11 r)) (f 12 (r12 r)) (f 13 (r13 r)) (f 14 (r14 r)) (f 15 (r15 r))
    (f 16 (rip r)) (rflags r).
(** The registers as they lie in [tinykvm_x86regs]. *)
Definition reg_array (r : x86regs) : list Z :=
  [rax r; rbx r; rcx r; rdx r; rsi r; rdi r; rsp r; rbp r; r8 r; r9 r; r10 r; r11 r; r12 r; r13 r; r14 r; r15 r; rip r; rflags r].

(** [reg32_at], as values: flags, selectors, and the low halves of the FS and GS bases. *)
Definition reg32_at (r : x86regs) (idx : Z) : R Z :=
  let! sel := on_target d_selectors in
  if idx =? 17 then ret (uint32 (rflags r))
  else if idx =? 22 then let! b := on_target d_fsgs in ret (uint32 (fst b))
  else if idx =? 23 then let! b := on_target d_fsgs in ret (uint32 (snd b))
  else ret (uint32 (nth (Z.to_nat (idx - 18)) sel 0)).

(** Byte ranges of [tinykvm_x86fpuregs]. *)
Definition fpu_at (fpu : list Z) (off n : nat) : list Z := take n (drop off fpu).
Definition FPR : nat := 0.
Definition FCW : nat := 128.
Definition FSW : nat := 130.
Definition FTWX : nat := 132.
Definition LAST_OPCODE : nat := 134.
Definition XMM : nat := 152.
Definition MXCSR : nat := 408.

Definition handle_readreg : R unit :=
  let! b := the_buffer in
  let idx := match scan_after (str "p") 16 (c_str b) with Some (v, _) => uint32 v | None => 0 end in
  if 59 <? idx then send_s "E01"
  else
    let! val :=
      (if 18 <=? idx then
         let! fpu := on_target d_fpu in
         if idx <=? 26 then ret (fpu_at fpu (FPR + 16 * Z.to_nat (idx - 18)) 16)
         else if (31 <=? idx) && (idx <? 39) then ret (fpu_at fpu (FPR + 16 * Z.to_nat (idx - 31)) 16)
         else if (39 <=? idx) && (idx <? 55) then ret (fpu_at fpu (XMM + 16 * Z.to_nat (idx - 39)) 16)
         else if (idx =? 56) || (idx =? 57) then ret (le_bytes 4 0)
         else if idx =? 58 then let! f := on_target d_fsgs in ret (le_bytes 8 (fst f))
         else if idx =? 59 then let! f := on_target d_fsgs in ret (le_bytes 8 (snd f))
         else ret (fpu_at fpu (FCW + 2 * Z.to_nat (idx - 26)) 4)
       else
         let! r := on_target d_regs in
         ret (le_bytes 8 (nth (Z.to_nat idx) (reg_array r) 0))) in
    send (hex_bytes val).

(** [__builtin_bswap64] *)
Definition bswap64 (v : Z) : Z := le_value (rev (le_bytes 8 v)).

Definition handle_writereg : R unit :=
  let! b := the_buffer in
  (** [sscanf(..., "P%x=%lx", &idx, &value)] *)
  let '(idx, value) :=
    match scan_after (str "P") 16 (c_str b) with
    | Some (i, l) => (uint32 i, match scan_after (str "=") 16 l with Some (v, _) => v | None => 0 end)
    | None => (0, 0)
    end in
  let value := bswap64 value in
  if idx <? 17 then
    let! r := on_target d_regs in
    on_target (d_set_regs (set_reg_at r idx value)) ;;;
    send_s "OK"
  else if idx <? 24 then
    let! r := on_target d_regs in
    let! _ := reg32_at r idx in
    let r' := if idx =? 17 then
                mkRegs (rax r) (rbx r) (rcx r) (rdx r) (rsi r) (rdi r) (rsp r) (rbp r) (r8 r) (r9 r) (r10 r) (r11 r)
                  (r12 r) (r13 r) (r14 r) (r15 r) (rip r) (rflags r - uint32 (rflags r) + uint32 value)
              else r in
    on_target (d_set_regs r') ;;;
    send_s "OK"
  else send_s "E01".

Definition IST_END_ADDR : Z := 0x5000.
(** One of the 17 first registers: on an exception stack RIP and RSP are those of the frame, in a
    system call RIP is in RCX. *)
Definition gpr_for_report (r : x86regs) (i : Z) : R (list Z) :=
  let on_ist := (IST_ADDR <=? rsp r) && (rsp r <? IST_END_ADDR) in
  let! offset := (if on_ist then on_target d_exception_offset else ret 0) in
  if on_ist && (i =? 16) then
    let! v := on_target (d_read (rsp r ⊕ offset) 8) in ret (putreg 8 (le_value v))
  else if on_ist && (i =? 7) then
    let! v := on_target (d_read (rsp r ⊕ offset ⊕ 24) 8) in ret (putreg 8 (le_value v))
  else if (INTR_ASM_ADDR <=? rip r) && (rip r <? IST_ADDR) && (i =? 16) then ret (putreg 8 (rcx r))
  else ret (putreg 8 (default 0 (reg_at r i))).
Fixpoint map_concat (f : Z -> R (list Z)) (l : list Z) : R (list Z) :=
  match l with
  | [] => ret []
  | i :: l' => let! x := f i in let! y := map_concat f l' in ret (x ++ y)
  end.

Definition report_gprs : R unit :=
  let! r := on_target d_regs in
  let! gprs := map_concat (gpr_for_report r) (seqZ 0 17) in
  let! segs := map_concat (fun i => let! v := reg32_at r i in ret (putreg 4 v)) (seqZ 17 7) in
  let! fpu := on_target d_fpu in
  let field off n := putreg 4 (le_value (fpu_at fpu off n)) in
  let fprs := concat (map (fun i => hex_bytes (fpu_at fpu (FPR + 16 * Z.to_nat i) 10)) (seqZ 0 8)) in
  let ctrl := field FCW 2%nat ++ field FSW 2%nat ++ field FTWX 1%nat ++ putreg 4 0 ++ putreg 4 0 ++ putreg 4 0 ++ putreg 4 0
              ++ field LAST_OPCODE 2%nat in
  let xmms := concat (map (fun i => hex_bytes (fpu_at fpu (XMM + 16 * Z.to_nat i) 16)) (seqZ 0 16)) in
  send (gprs ++ segs ++ fprs ++ ctrl ++ xmms ++ field MXCSR 4%nat).

(** ** Dispatch *)

Definition process_data : R unit :=
  let! b := the_buffer in
  let c := first_byte b in
  if c =? 113 then handle_query               (* q *)
  else if c =? 99 then handle_continue        (* c *)
  else if c =? 115 then handle_step           (* s *)
  else if c =? 103 then report_gprs           (* g *)
  else if (c =? 68) || (c =? 107) then kill   (* D, k *)
  else if c =? 72 then handle_multithread     (* H *)
  else if c =? 109 then handle_readmem        (* m *)
  else if c =? 112 then handle_readreg        (* p *)
  else if c =? 80 then handle_writereg        (* P *)
  else if c =? 118 then handle_executing      (* v *)
  else if c =? 88 then handle_writemem        (* X *)
  else if (c =? 90) || (c =? 122) then handle_breakpoint
  else if c =? 63 then report_status          (* ? *)
  else ret tt.

(** The loop over the bytes of one read.  After '#' the two digits of the checksum are skipped. *)
Fixpoint process_bytes (skip : nat) (l : list Z) : R unit :=
  match l with
  | [] => ret tt
  | c :: l' =>
      match skip with
      | S k => process_bytes k l'
      | O =>
          let! b := the_buffer in
          if bool_decide (b = []) && (c =? 43) then process_bytes 0 l'
          else if c =? 36 then modify (fun s => set_buffer s []) ;;; process_bytes 0 l'
          else if c =? 35 then
            reply_ack ;;;
            process_data ;;;
            modify (fun s => set_buffer s []) ;;;
            process_bytes 2 l'
          else
            modify (fun s => set_buffer s (b ++ [c])) ;;;
            if PACKET_SIZE <=? Z.of_nat (length b) + 1 then ret tt else process_bytes 0 l'
      end
  end.

Definition process_one : R bool :=
  let! tmp := sock_read 1024 in
  match tmp with
  | [] => close_now ;;; ret false
  | _ => process_bytes 0 tmp ;;; ret true
  end.

(** [~RSPClient] *)
Definition RSPClient_destroy : R unit :=
  let! c := get in when (negb (m_closed c)) sock_close.
End client.

(** ** The other side: how a debugger reads a packet *)

Fixpoint unescape (l : list Z) : option (list Z) :=
  match l with
  | [] => Some []
  | 125 :: l' =>
      match l' with
      | [] => None
      | c :: l'' => match unescape l'' with Some r => Some (Z.lxor c 0x20 :: r) | None => None end
      end
  | c :: l' => match unescape l' with Some r => Some (c :: r) | None => None end
  end.
(** Run-length encoding: [*] and a count stand for repetitions of the byte before, [count - 29] of
    them.  It is expanded before escapes are looked at. *)
Fixpoint expand (prev : option Z) (l : list Z) : option (list Z) :=
  match l with
  | [] => Some []
  | c :: l' =>
      if c =? 42 then
        match prev, l' with
        | Some p, n :: l'' =>
            if 32 <=? n then match expand prev l'' with Some r => Some (replicate (Z.to_nat (n - 29)) p ++ r) | None => None end
            else None
        | _, _ => None
        end
      else match expand (Some c) l' with Some r => Some (c :: r) | None => None end
  end.
Fixpoint split_at (c : Z) (l : list Z) : option (list Z * list Z) :=
  match l with
  | [] => None
  | d :: l' => if d =? c then Some ([], l') else match split_at c l' with Some (a, b) => Some (d :: a, b) | None => None end
  end.
Definition sum_bytes (l : list Z) : Z := fold_left Z.add l 0.
(** A packet is [$body#xx] with the sum of the body modulo 256 in two hexadecimal digits. *)
Definition decode_packet (l : list Z) : option (list Z) :=
  match l with
  | 36 :: l' =>
      match split_at 35 l' with
      | Some (body, [h; d]) =>
          match digit h, digit d with
          | Some x, Some y => if (16 * x + y =? sum_bytes body mod 256) && negb (existsb (Z.eqb 36) body)
                         then match expand None body with Some l => unescape l | None => None end else None
          | _, _ => None
          end
      | _ => None
      end
  | _ => None
  end.
(** Pairs of hexadecimal digits. *)
Fixpoint decode_hex (l : list Z) : option (list Z) :=
  match l with
  | [] => Some []
  | h :: d :: l' =>
      match digit h, digit d, decode_hex l' with
      | Some x, Some y, Some r => Some (16 * x + y :: r)
      | _, _, _ => None
      end
  | _ => None
  end.


Section packets.

Lemma lut_digit d : digit (lut d) = Some (d mod 16).
Proof.
  unfold lut. change 0xF with (2 ^ 4 - 1). rewrite land_ones_mod by lia. change (2 ^ 4) with 16.
  pose proof (Z.mod_pos_bound d 16 ltac:(lia)) as H. set (x := d mod 16) in *. clearbody x.
  unfold digit. destruct (Z.ltb_spec x 10).
  - rewrite (proj2 (Z.leb_le _ _)), (proj2 (Z.leb_le _ _)) by lia. simpl. f_equal. lia.
  - rewrite (proj2 (Z.leb_gt (87 + x) 57)) by lia. rewrite andb_false_r.
    rewrite (proj2 (Z.leb_le 97 _)), (proj2 (Z.leb_le _ 102)) by lia. simpl. f_equal. lia.
Qed.
Lemma hex_byte_decode b l : byte b -> decode_hex (hex_byte b ++ l) = match decode_hex l with Some r => Some (b :: r) | None => None end.
Proof.
  intros [Hb1 Hb2]. unfold hex_byte. cbn [app decode_hex]. rewrite !lut_digit, Z.shiftr_div_pow2 by lia. change (2 ^ 4) with 16.
  destruct (decode_hex l); [|done]. do 2 f_equal. rewrite (Z.mod_small (b / 16)) by dlia. dlia.
Qed.
Lemma hex_bytes_decode l : Forall byte l -> decode_hex (hex_bytes l) = Some l.
Proof.
  unfold hex_bytes. induction 1 as [|b l Hb _ IH]; [done|]. cbn [map concat]. by rewrite hex_byte_decode, IH.
Qed.

Lemma sum_bytes_cons x l : sum_bytes (x :: l) = x + sum_bytes l.
Proof.
  unfold sum_bytes. cbn [fold_left].
  assert (forall a, fold_left Z.add l a = a + fold_left Z.add l 0) as H.
  { induction l as [|y l IH]; intros a; cbn [fold_left]; [lia|]. rewrite IH, (IH (0 + y)). lia. }
  rewrite H. lia.
Qed.

(** The loop of [forge_packet]: what it emits has no packet delimiters and no run-lengths, decodes
    to the data, and its sum is the checksum. *)
Lemma forge_loop_spec data csum : Forall byte data -> 0 <= csum ->
  let '(l, s) := forge_loop csum data in
  s mod 256 = (csum + sum_bytes l) mod 256 /\ unescape l = Some data /\ Forall (fun c => c <> 35 /\ c <> 36 /\ c <> 42) l /\
  (length l <= 2 * length data)%nat.
Proof.
  intros Hd. revert csum. induction Hd as [|c data Hc _ IH]; intros csum Hs; cbn [forge_loop].
  - unfold sum_bytes. simpl. split_and!; try done. f_equal. lia.
  - destruct (must_escape c) eqn:Ee.
    + specialize (IH ((csum + 125 + Z.lxor c 32) mod 256) (proj1 (Z.mod_pos_bound _ 256 ltac:(lia)))).
      destruct (forge_loop _ data) as [l s]. destruct IH as (H1&H2&H3&H4). split_and!.
      * rewrite H1, !sum_bytes_cons, Zplus_mod_idemp_l. f_equal. lia.
      * cbn [unescape]. rewrite H2. do 2 f_equal. by rewrite Z.lxor_assoc, Z.lxor_nilpotent, Z.lxor_0_r.
      * constructor; [lia|]. constructor; [|done]. unfold must_escape in Ee.
        rewrite !orb_true_iff, !Z.eqb_eq in Ee. destruct Ee as [[[->| ->]| ->]| ->]; by vm_compute.
      * simpl. lia.
    + specialize (IH ((csum + c) mod 256) (proj1 (Z.mod_pos_bound _ 256 ltac:(lia)))).
      destruct (forge_loop _ data) as [l s]. destruct IH as (H1&H2&H3&H4).
      unfold must_escape in Ee. rewrite !orb_false_iff, !Z.eqb_neq in Ee. split_and!.
      * rewrite H1, !sum_bytes_cons, Zplus_mod_idemp_l. f_equal. lia.
      * cbn [unescape]. rewrite H2. destruct Ee as [_ Ee]. destruct c as [|p|]; try done.
        do 7 (destruct p as [p|p|]; try done).
      * constructor; [lia|done].
      * simpl. lia.
Qed.

Lemma split_at_body l rest : Forall (fun c => c <> 35 /\ c <> 36 /\ c <> 42) l -> split_at 35 (l ++ 35 :: rest) = Some (l, rest).
Proof.
  induction 1 as [|c l [Hc _] _ IH]; [done|]. cbn [app split_at]. rewrite (proj2 (Z.eqb_neq _ _)) by done. by rewrite IH.
Qed.
Lemma no_dollar l : Forall (fun c => c <> 35 /\ c <> 36 /\ c <> 42) l -> existsb (Z.eqb 36) l = false.
Proof. induction 1 as [|c l (_&Hc&_) _ IH]; [done|]. cbn [existsb]. rewrite (proj2 (Z.eqb_neq _ _)) by done. done. Qed.
Lemma no_runs l prev : Forall (fun c => c <> 35 /\ c <> 36 /\ c <> 42) l -> expand prev l = Some l.
Proof.
  intros H. revert prev. induction H as [|c l (_&_&Hc) _ IH]; intros prev; [done|]. cbn [expand].
  rewrite (proj2 (Z.eqb_neq c 42)) by done. by rewrite IH.
Qed.

Lemma packet_decodes data : Forall byte data ->
  decode_packet (forge_packet data) = Some data /\ Z.of_nat (length (forge_packet data)) <= 2 * Z.of_nat (length data) + 4.
Proof.
  intros Hd. pose proof (forge_loop_spec data 0 Hd ltac:(lia)) as H. unfold forge_packet.
  destruct (forge_loop 0 data) as [l s]. destruct H as (H1&H2&H3&H4). split.
  - cbn [decode_packet]. rewrite split_at_body by done. rewrite !lut_digit, Z.shiftr_div_pow2 by lia. change (2 ^ 4) with 16.
    rewrite no_dollar, no_runs by done. rewrite <- (Z.add_0_l (sum_bytes l)), <- H1.
    assert (16 * ((s / 16) mod 16) + s mod 16 = s mod 256) as -> by dlia. by rewrite Z.eqb_refl.
  - simpl. rewrite length_app. simpl. lia.
Qed.
End packets.

(** The decoder on the packet of the protocol's documentation, and on one with an escape. *)
Example decoder_reads :
  decode_packet (str "$0* #7a") = Some (str "0000") /\ decode_packet (str "$}]#da") = Some (str "}") /\ decode_packet (str "$* #4a") = None.
Proof. split_and!; vm_compute; reflexivity. Qed.

(** C28: whatever the data, the packet that [forge_packet] makes of it is accepted by a debugger,
    which expands run-lengths and undoes escapes, and decodes to exactly the data: delimiters,
    escapes and the mark of run-lengths are escaped, the checksum is right, and the packet is at
    most 4 bytes longer than twice the data. *)
Theorem packet_roundtrip data : Forall byte data ->
  decode_packet (forge_packet data) = Some data /\ Z.of_nat (length (forge_packet data)) <= 2 * Z.of_nat (length data) + 4.
Proof. apply packet_decodes. Qed.

Lemma packet_roundtrip_witness : Forall byte (str "a#b$c*}") /\
  decode_packet (forge_packet (str "a#b$c*}")) = Some (str "a#b$c*}") /\
  Z.of_nat (length (forge_packet (str "a#b$c*}"))) <= 2 * Z.of_nat (length (str "a#b$c*}")) + 4.
Proof.
  assert (Forall byte (str "a#b$c*}")) as H by (unfold str, byte; simpl; repeat constructor; lia).
  split; [exact H|]. exact (packet_roundtrip (str "a#b$c*}") H).
Defined.

(** ** Reading packets *)

Section reading.
Context {G : Type} `{dbg : Debuggee G}.
Variable on_stopped : option (R (G := G) unit).

Lemma process_bytes_cons x l (c : RSPClient (G := G)) :
  process_bytes on_stopped 0 (x :: l) c =
    if bool_decide (buffer c = []) && (x =? 43) then process_bytes on_stopped 0 l c
    else if x =? 36 then process_bytes on_stopped 0 l (set_buffer c [])
    else if x =? 35 then
      (reply_ack ;;; process_data on_stopped ;;; modify (fun c => set_buffer c []) ;;; process_bytes on_stopped 2 l) c
    else if PACKET_SIZE <=? Z.of_nat (length (buffer c)) + 1 then (Ok tt, set_buffer c (buffer c ++ [x]))
    else process_bytes on_stopped 0 l (set_buffer c (buffer c ++ [x])).
Proof.
  cbn [process_bytes]. unfold bind at 1, the_buffer, gets. destruct (_ && _); [done|]. destruct (x =? 36); [done|].
  destruct (x =? 35); [done|]. unfold bind, modify. by destruct (_ <=? _).
Qed.

Lemma collect_payload (c : RSPClient (G := G)) payload rest :
  Forall (fun x => x <> 35 /\ x <> 36) payload -> buffer c <> [] \/ head payload <> Some 43 ->
  Z.of_nat (length (buffer c) + length payload) < PACKET_SIZE ->
  process_bytes on_stopped 0 (payload ++ 35 :: rest) c =
  process_bytes on_stopped 0 (35 :: rest) (set_buffer c (buffer c ++ payload)).
Proof.
  intros Hp. revert c. induction Hp as [|x payload [Hx1 Hx2] _ IH]; intros c Hb Hl.
  - rewrite app_nil_r. by destruct c.
  - cbn [app]. rewrite process_bytes_cons.
    assert (bool_decide (buffer c = []) && (x =? 43) = false) as ->.
    { destruct (Z.eqb_spec x 43) as [->|]; [|by rewrite andb_false_r]. rewrite andb_true_r. apply bool_decide_eq_false. by destruct Hb. }
    rewrite (proj2 (Z.eqb_neq x 36)), (proj2 (Z.eqb_neq x 35)) by done. cbn [length] in Hl.
    rewrite (proj2 (Z.leb_gt _ _)) by lia. rewrite IH.
    + cbn [set_buffer buffer]. by rewrite <- app_assoc.
    + left. simpl. by destruct (buffer c).
    + simpl. rewrite length_app. simpl. lia.
Qed.
End reading.

(** However a packet [$payload#xx] follows what came before, as long as the payload is
    shorter than the packet size, holds no delimiter and does not start with '+', reading it
    acknowledges it and hands exactly its payload to the dispatcher, once; the client then goes
    on with what follows the two checksum digits, with an empty buffer. *)
Theorem packet_dispatched_once {G} `{dbg : Debuggee G} (on_stopped : option (R (G := G) unit)) (c : RSPClient (G := G)) payload h l rest :
  Forall (fun x => x <> 35 /\ x <> 36) payload -> head payload <> Some 43 -> Z.of_nat (length payload) < PACKET_SIZE ->
  process_bytes on_stopped 0 (36 :: payload ++ 35 :: h :: l :: rest) c =
  (modify (fun c => set_buffer c payload) ;;; reply_ack ;;; process_data on_stopped ;;;
   modify (fun c => set_buffer c []) ;;; process_bytes on_stopped 0 rest) c.
Proof.
  intros Hp Hh Hl. rewrite process_bytes_cons, andb_false_r. cbn [Z.eqb Pos.eqb].
  rewrite collect_payload; [|done|by right|done]. cbn [buffer set_buffer app]. by rewrite process_bytes_cons, andb_false_r.
Qed.

(** ** Numbers round trip *)

Section numbers.

(** The value of digits, most significant first. *)
Fixpoint digits_value (base acc : Z) (l : list Z) : Z :=
  match l with [] => acc | c :: l' => digits_value base (base * acc + default 0 (digit c)) l' end.

Lemma digits_value_app base acc l c :
  digits_value base acc (l ++ [c]) = base * digits_value base acc l + default 0 (digit c).
Proof. revert acc. induction l as [|d l IH]; intros acc; cbn [app digits_value]; [done|]. apply IH. Qed.

Lemma to_digits_app fuel base v acc : to_digits fuel base v acc = to_digits fuel base v [] ++ acc.
Proof.
  revert v acc. induction fuel as [|f IH]; intros v acc; cbn [to_digits]; [done|].
  destruct (_ =? 0); [done|]. rewrite IH, (IH _ [_]), <- app_assoc. done.
Qed.

Definition base_digit (base : Z) (c : Z) : Prop := exists d, digit_in base c = Some d.
Lemma lut_base_digit base v : 0 < base <= 16 -> base_digit base (lut (v mod base)) /\ digit (lut (v mod base)) = Some (v mod base).
Proof.
  intros Hb. pose proof (Z.mod_pos_bound v base ltac:(lia)). unfold base_digit, digit_in. rewrite lut_digit.
  rewrite (Z.mod_small (v mod base)) by lia. rewrite (proj2 (Z.ltb_lt _ _)) by lia. eauto.
Qed.

Lemma to_digits_spec fuel base v : 2 <= base <= 16 -> 0 <= v < base ^ Z.of_nat fuel -> (0 < fuel)%nat ->
  digits_value base 0 (to_digits fuel base v []) = v /\ Forall (base_digit base) (to_digits fuel base v []) /\
  (0 < length (to_digits fuel base v []) <= fuel)%nat.
Proof.
  intros Hb. revert v. induction fuel as [|f IH]; intros v Hv Hf; [lia|]. cbn [to_digits].
  destruct (lut_base_digit base v ltac:(lia)) as [Hd1 Hd2]. destruct (Z.eqb_spec (v / base) 0) as [E|E].
  - cbn [digits_value length]. rewrite Hd2. split_and!; [|by repeat constructor|lia|lia]. simpl.
    pose proof (Z.div_mod v base ltac:(lia)). lia.
  - rewrite to_digits_app. assert (f <> 0%nat) as Hf0.
    { intros ->. simpl in Hv. apply E, Z.div_small. lia. }
    rewrite Nat2Z.inj_succ, Z.pow_succ_r in Hv by lia.
    destruct (IH (v / base)) as (H1&H2&H3&H4); [split; [apply Z.div_pos; lia|apply Z.div_lt_upper_bound; lia]|lia|].
    rewrite digits_value_app, H1, Hd2, length_app. cbn [length default]. split_and!; [|apply Forall_app; split; [done|by repeat constructor]|lia|lia].
    pose proof (Z.div_mod v base ltac:(lia)). simpl. lia.
Qed.

Lemma scan_digits_all base acc l rest w : Forall (base_digit base) l -> (length l <= w)%nat ->
  (match rest with [] => True | c :: _ => digit_in base c = None end) ->
  scan_digits base w acc (l ++ rest) = (digits_value base acc l, rest).
Proof.
  intros Hl. revert acc w. induction Hl as [|c l [d Hd] _ IH]; intros acc w Hw Hr.
  - destruct w, rest; cbn [app scan_digits digits_value]; try done. by rewrite Hr.
  - destruct w as [|w]; [simpl in Hw; lia|]. cbn [app scan_digits digits_value]. rewrite Hd.
    assert (digit c = Some d) as -> by (unfold digit_in in Hd; destruct (digit c); [destruct (_ <? _); congruence|done]).
    apply IH; [simpl in Hw; lia|done].
Qed.

Lemma digit_no_space base c d : digit_in base c = Some d -> is_space c = false /\ c <> 45 /\ c <> 43 /\ 48 <= c.
Proof.
  unfold digit_in. destruct (digit c) eqn:E; [|done]. intros _. unfold digit in E. unfold is_space.
  destruct ((48 <=? c) && (c <=? 57)) eqn:E1; [lia|]. destruct ((97 <=? c) && (c <=? 102)) eqn:E2; [lia|].
  destruct ((65 <=? c) && (c <=? 70)) eqn:E3; [lia|done].
Qed.

(** Digits that are not taken for a 0x prefix. *)
Definition no_prefix (l rest : list Z) : Prop :=
  match l ++ rest with 48 :: x :: _ => x <> 120 /\ x <> 88 | _ => True end.
Lemma scan_number_digits base l rest : Forall (base_digit base) l -> (0 < length l <= any_width)%nat ->
  (match rest with [] => True | c :: _ => digit_in base c = None end) -> no_prefix l rest ->
  0 <= digits_value base 0 l < W64 ->
  scan_number base any_width (l ++ rest) = Some (digits_value base 0 l, rest).
Proof.
  intros Hl Hlen Hr Hx Hv. unfold scan_number. destruct l as [|c l]; [simpl in Hlen; lia|].
  pose proof Hl as Hl0. apply Forall_cons in Hl0 as [[d Hd] _]. destruct (digit_no_space _ _ _ Hd) as (H1&H2&H3&H4).
  cbn [app skip_spaces]. rewrite H1.
  assert (scan_sign (c :: l ++ rest) = (false, c :: l ++ rest)) as ->.
  { unfold scan_sign. destruct c as [|p|p]; [lia| |lia]. do 6 (destruct p as [p|p|]; try done). }
  assert (scan_0x base (c :: l ++ rest) = c :: l ++ rest) as ->.
  { unfold scan_0x, no_prefix in *. cbn [app] in Hx. destruct (decide (c = 48)) as [->|Hc].
    - destruct (l ++ rest) as [|x [|y l']]; try done. destruct Hx as [Hx1 Hx2].
      rewrite (proj2 (Z.eqb_neq x 120)), (proj2 (Z.eqb_neq x 88)) by done. by rewrite andb_false_r.
    - destruct c as [|p|p]; [lia| |lia]. do 6 (destruct p as [p|p|]; try done). }
  rewrite Hd. change (c :: l ++ rest) with ((c :: l) ++ rest).
  rewrite scan_digits_all by (done || lia). by rewrite Z.min_l by lia.
Qed.

(** A number printed in hexadecimal is read back. *)
Lemma scan_print_hex v rest : u64 v -> (match rest with [] => True | c :: _ => digit_in 16 c = None /\ c <> 120 /\ c <> 88 end) ->
  scan_number 16 any_width (print_hex v ++ rest) = Some (v, rest).
Proof.
  intros Hv Hr. unfold print_hex, print_base.
  destruct (to_digits_spec 64 16 v) as (H1&H2&H3); [lia|unfold u64 in *; lia|lia|].
  set (l := to_digits 64 16 v []) in *. rewrite scan_number_digits; [by rewrite H1|done|done| | |by rewrite H1].
  - destruct rest; [done|tauto].
  - unfold no_prefix. destruct l as [|c [|x l]]; cbn [app]; [simpl in H3; lia| |].
    + destruct (decide (c = 48)) as [->|]; [destruct rest; [done|tauto]|].
      destruct c as [|p|p]; try done. do 6 (destruct p as [p|p|]; try done).
    + apply Forall_cons in H2 as [_ H2]. apply Forall_cons in H2 as [[d Hd] _].
      assert (x <> 120 /\ x <> 88) by (split; intros ->; vm_compute in Hd; done).
      destruct c as [|p|p]; try done. do 6 (destruct p as [p|p|]; try done).
Qed.
End numbers.

(** ** Reading memory *)

Section memory.
Context {G : Type} `{dbg : Debuggee G}.

Lemma c_str_id l : Forall (fun c => c <> 0) l -> c_str l = l.
Proof. induction 1 as [|c l Hc _ IH]; [done|]. cbn [c_str]. rewrite (proj2 (Z.eqb_neq _ _)) by done. by rewrite IH. Qed.

Lemma forge_length data : Forall (fun c => must_escape c = false) data -> length (forge_packet data) = (length data + 4)%nat.
Proof.
  intros Hd. unfold forge_packet.
  assert (forall s, length (fst (forge_loop s data)) = length data) as H.
  { induction Hd as [|c l Hc _ IH]; intros s; [done|]. cbn [forge_loop]. rewrite Hc.
    destruct (forge_loop _ l) as [l' s'] eqn:E. simpl. specialize (IH ((s + c) mod 256)). rewrite E in IH. simpl in IH. by rewrite IH. }
  specialize (H 0). destruct (forge_loop 0 data). simpl in *. rewrite length_app, H. simpl. lia.
Qed.

Lemma lut_plain d : lut d <> 0 /\ must_escape (lut d) = false.
Proof.
  unfold lut. change 0xF with (2 ^ 4 - 1). rewrite land_ones_mod by lia. change (2 ^ 4) with 16.
  pose proof (Z.mod_pos_bound d 16 ltac:(lia)). unfold must_escape. destruct (Z.ltb_spec (d mod 16) 10); lia.
Qed.
Lemma hex_bytes_plain l : Forall (fun c => c <> 0) (hex_bytes l) /\ Forall (fun c => must_escape c = false) (hex_bytes l) /\
  length (hex_bytes l) = (2 * length l)%nat.
Proof.
  unfold hex_bytes. induction l as [|b l (IH1&IH2&IH3)]; [done|]. cbn [map concat hex_byte app].
  destruct (lut_plain (b .>> 4)), (lut_plain b). split_and!; [by repeat constructor..|simpl; lia].
Qed.

Lemma read_bytes_loop_ok c addr bs : u64 addr ->
  (forall i b, bs !! i = Some b -> d_read (addr ⊕ Z.of_nat i) 1 (target c) = (Ok [b], target c)) ->
  read_bytes_loop (length bs) addr c = (Ok (hex_bytes bs), c).
Proof.
  revert addr. induction bs as [|b bs IH]; intros addr Ha Hr; [done|]. cbn [length read_bytes_loop].
  assert (addr ⊕ Z.of_nat 0 = addr) as E0 by (unfold add64, wrap64, u64 in *; rewrite Z.add_0_r; apply Z.mod_small; lia).
  specialize (Hr 0%nat b eq_refl) as H0. rewrite E0 in H0. unfold bind at 1, on_target. rewrite H0.
  replace (mkRSP _ _ _ _ _ _ _ _) with c by by destruct c. unfold bind at 1. rewrite IH; [done|apply wrap64_u64|].
  intros i b' Hi. rewrite <- (Hr (S i) b') by done. f_equal. unfold add64, wrap64. rewrite Zplus_mod_idemp_l. f_equal. lia.
Qed.

Lemma digit_nonzero c : base_digit 16 c -> c <> 0.
Proof. intros [d Hd]. apply digit_no_space in Hd. lia. Qed.
Lemma print_hex_digits v : u64 v -> Forall (base_digit 16) (print_hex v).
Proof. intros Hv. apply (to_digits_spec 64 16 v); [lia|unfold u64 in *; lia|lia]. Qed.

Lemma scan_range_ok ch addr len : str ch = [first_byte (str ch)] -> first_byte (str ch) <> 0 -> u64 addr -> 0 <= len < 2 ^ 32 ->
  scan_range ch (c_str (str ch ++ print_hex addr ++ str "," ++ print_hex len)) = (Some addr, Some len).
Proof.
  intros Hch Hnz Ha Hl. assert (u64 len) as Hl64 by (unfold u64; lia). rewrite c_str_id.
  - unfold scan_range, scan_after. rewrite Hch. cbn [app scan_literal]. rewrite Z.eqb_refl.
    rewrite scan_print_hex; [|done|by vm_compute]. cbn [scan_literal str app String.list_ascii_of_string map].
    change (Z.of_N (N_of_ascii ",")) with 44. rewrite Z.eqb_refl.
    rewrite <- (app_nil_r (print_hex len)), scan_print_hex by done. unfold uint32. by rewrite Z.mod_small.
  - rewrite Hch. constructor; [done|]. apply Forall_app. split; [|constructor; [done|]];
      (eapply Forall_impl; [by apply print_hex_digits|apply digit_nonzero]).
Qed.
End memory.

(** C29: a debugger that asks for [len] bytes of readable memory gets them, as a packet that
    decodes to their hexadecimal form, if [len] is at most 998; from 999 on the reply is written
    past the end of the packet buffer on the stack, until 8192, from where on the request is
    refused. *)
Theorem readmem_bounds {G} `{dbg : Debuggee G} (c : RSPClient (G := G)) addr bs : u64 addr -> Forall byte bs ->
  Z.of_nat (length bs) < 2 ^ 32 ->
  buffer c = str "m" ++ print_hex addr ++ str "," ++ print_hex (Z.of_nat (length bs)) ->
  (forall i b, bs !! i = Some b -> d_read (addr ⊕ Z.of_nat i) 1 (target c) = (Ok [b], target c)) ->
  if Z.of_nat (length bs) <=? 998 then
    exists packet, decode_packet packet = Some (hex_bytes bs) /\ decode_hex (hex_bytes bs) = Some bs /\
      handle_readmem c = (let! _ := transmit packet in ret tt) c
  else if Z.of_nat (length bs) <? 8192 then handle_readmem c = (Err (Undefined "packet does not fit the buffer"), c)
  else handle_readmem c = send_s "E01" c.
Proof.
  intros Ha Hbs Hlen Hbuf Hr. destruct (hex_bytes_plain bs) as (H1&H2&H3).
  assert (Forall byte (hex_bytes bs)) as Hby.
  { apply Forall_forall. intros x Hx. rewrite Forall_forall in H1. unfold byte.
    apply list_elem_of_In, in_concat in Hx as (l&Hl&Hx). apply in_map_iff in Hl as (b&<-&_).
    assert (forall d, 0 <= lut d < 256) as Hlut.
    { intros d. unfold lut. change 0xF with (2 ^ 4 - 1). rewrite land_ones_mod by lia. change (2 ^ 4) with 16.
      pose proof (Z.mod_pos_bound d 16 ltac:(lia)). destruct (_ <? _); lia. }
    destruct Hx as [<-|[<-|[]]]; apply Hlut. }
  assert (handle_readmem c = if 8192 <=? Z.of_nat (length bs) then send_s "E01" c else send (hex_bytes bs) c) as ->.
  { unfold handle_readmem, bind at 1, the_buffer, gets. rewrite Hbuf, scan_range_ok by (done || lia). cbn [from_option id].
    destruct (_ <=? _); [done|]. unfold bind at 1, try_catch, catch. rewrite Nat2Z.id.
    assert ((let! d := read_bytes_loop (length bs) addr in ret (Some d)) c = (Ok (Some (hex_bytes bs)), c)) as ->; [|done].
    unfold bind. by rewrite read_bytes_loop_ok. }
  unfold send, send_bytes. rewrite c_str_id by done. rewrite forge_length, H3 by done. unfold PACKET_SIZE.
  destruct (Z.leb_spec (Z.of_nat (length bs)) 998).
  - exists (forge_packet (hex_bytes bs)). rewrite (proj2 (Z.leb_gt _ _)), (proj2 (Z.ltb_ge _ _)) by lia.
    split_and!; [by apply packet_decodes|by apply hex_bytes_decode|done].
  - destruct (Z.ltb_spec (Z.of_nat (length bs)) 8192).
    + by rewrite (proj2 (Z.leb_gt _ _)), (proj2 (Z.ltb_lt _ _)) by lia.
    + by rewrite (proj2 (Z.leb_le _ _)) by lia.
Qed.

(** ** Writing registers *)

Section registers.
Context {G : Type} `{dbg : Debuggee G}.

Lemma digits_value_hex acc b l : byte b -> digits_value 16 acc (hex_byte b ++ l) = digits_value 16 (256 * acc + b) l.
Proof.
  intros [Hb1 Hb2]. unfold hex_byte. cbn [app digits_value]. rewrite !lut_digit, Z.shiftr_div_pow2 by lia. change (2 ^ 4) with 16.
  cbn [from_option id]. f_equal. rewrite (Z.mod_small (b / 16)) by dlia. dlia.
Qed.
Lemma le_value_app l1 l2 : le_value (l1 ++ l2) = le_value l1 + 256 ^ Z.of_nat (length l1) * le_value l2.
Proof.
  induction l1 as [|b l1 IH]; cbn [app le_value length]; [rewrite Z.mul_1_l; lia|].
  rewrite IH, Nat2Z.inj_succ, Z.pow_succ_r by lia. lia.
Qed.
Lemma digits_value_hex_bytes acc l : Forall byte l ->
  digits_value 16 acc (hex_bytes l) = 256 ^ Z.of_nat (length l) * acc + le_value (rev l).
Proof.
  intros Hl. revert acc. unfold hex_bytes. induction Hl as [|b l Hb Hl IH]; intros acc.
  - cbn [map concat digits_value length rev le_value]. change (256 ^ Z.of_nat 0) with 1. lia.
  - cbn [map concat rev length]. rewrite digits_value_hex, IH by done. rewrite le_value_app, length_rev.
    cbn [le_value]. rewrite Nat2Z.inj_succ, Z.pow_succ_r by lia. lia.
Qed.
Lemma le_bytes_value l : Forall byte l -> le_bytes (length l) (le_value l) = l.
Proof.
  induction 1 as [|b l [Hb1 Hb2] _ IH]; [done|]. cbn [length le_bytes le_value].
  replace ((b + 256 * le_value l) / 256) with (le_value l) by dlia. rewrite IH. f_equal. dlia.
Qed.
Lemma bswap64_spec v : u64 v -> bswap64 (le_value (rev (le_bytes 8 v))) = v.
Proof.
  intros Hv. unfold bswap64. assert (Forall byte (rev (le_bytes 8 v))) as Hb by (apply Forall_rev, le_bytes_byte).
  replace 8%nat with (length (rev (le_bytes 8 v))) at 1 by (by rewrite length_rev, length_le_bytes).
  rewrite le_bytes_value by done. rewrite rev_involutive. apply le_value_bytes. unfold u64 in Hv. simpl. lia.
Qed.

Lemma scan_hex_bytes l : Forall byte l -> (0 < length l <= 8)%nat ->
  scan_number 16 any_width (hex_bytes l) = Some (le_value (rev l), []).
Proof.
  intros Hl Hn. destruct (hex_bytes_plain l) as (_&_&Hlen).
  assert (Forall (base_digit 16) (hex_bytes l)) as Hd.
  { clear. unfold hex_bytes. induction l as [|b l IH]; [done|]. cbn [map concat hex_byte app].
    assert (forall d, base_digit 16 (lut d)) as H.
    { intros d. unfold base_digit, digit_in. rewrite lut_digit. pose proof (Z.mod_pos_bound d 16 ltac:(lia)).
      rewrite (proj2 (Z.ltb_lt _ _)) by lia. eauto. }
    repeat constructor; auto. }
  assert (digits_value 16 0 (hex_bytes l) = le_value (rev l)) as Ev by (rewrite digits_value_hex_bytes by done; lia).
  rewrite <- (app_nil_r (hex_bytes l)), scan_number_digits; [by rewrite Ev|done|lia|done| |].
  - unfold no_prefix. rewrite app_nil_r. destruct (hex_bytes l) as [|c [|x r]]; try done.
    + by destruct c as [|p|p]; try done; do 6 (destruct p as [p|p|]; try done).
    + apply Forall_cons in Hd as [_ Hd]. apply Forall_cons in Hd as [[d Hx] _].
      assert (x <> 120 /\ x <> 88) by (split; intros ->; vm_compute in Hx; done).
      destruct c as [|p|p]; try done. do 6 (destruct p as [p|p|]; try done).
  - rewrite Ev. pose proof (le_value_range (rev l) ltac:(by apply Forall_rev)) as Hr. rewrite length_rev in Hr.
    assert (256 ^ Z.of_nat (length l) <= 256 ^ 8) by (apply Z.pow_le_mono_r; lia). change (256 ^ 8) with W64 in *. lia.
Qed.

Lemma reg_at_set r idx v j : 0 <= idx < 17 -> 0 <= j < 17 ->
  reg_at (set_reg_at r idx v) j = if j =? idx then Some v else reg_at r j.
Proof.
  intros Hi Hj. assert (exists k, j = Z.of_nat k /\ (k < 17)%nat) as (k&->&Hk) by (exists (Z.to_nat j); lia).
  unfold reg_at, set_reg_at. rewrite Nat2Z.id.
  do 17 (destruct k as [|k]; [cbn [nth_error rax rbx rcx rdx rsi rdi rbp rsp r8 r9 r10 r11 r12 r13 r14 r15 rip];
    rewrite (Z.eqb_sym _ idx); by destruct (idx =? _)|]). lia.
Qed.
End registers.

(** A debugger that writes the 64-bit value [v] to general register [idx], in the byte order
    of the protocol, changes exactly that register of the machine, in the numbering in which the
    registers are reported, to [v], and is answered OK. *)
Theorem writereg_sets {G} `{dbg : Debuggee G} (c : RSPClient (G := G)) r idx v : 0 <= idx < 17 -> u64 v ->
  buffer c = str "P" ++ print_hex idx ++ str "=" ++ hex_bytes (le_bytes 8 v) ->
  d_regs (target c) = (Ok r, target c) ->
  handle_writereg c = (on_target (d_set_regs (set_reg_at r idx v)) ;;; send_s "OK") c /\
  forall j, 0 <= j < 17 -> reg_at (set_reg_at r idx v) j = if j =? idx then Some v else reg_at r j.
Proof.
  intros Hi Hv Hbuf Hr. split; [|intros j Hj; by apply reg_at_set].
  unfold handle_writereg, bind at 1, the_buffer, gets. rewrite Hbuf. assert (u64 idx) as Hi64 by (unfold u64; lia).
  rewrite c_str_id.
  - unfold scan_after at 1. cbn [str app scan_literal String.list_ascii_of_string map]. change (Z.of_N (N_of_ascii "P")) with 80.
    rewrite Z.eqb_refl. rewrite scan_print_hex; [|done|by vm_compute].
    unfold scan_after. cbn [str app scan_literal String.list_ascii_of_string map]. change (Z.of_N (N_of_ascii "=")) with 61.
    rewrite Z.eqb_refl, scan_hex_bytes; [|apply le_bytes_byte|by rewrite length_le_bytes; lia]. cbn beta iota zeta.
    assert (uint32 idx = idx) as -> by (unfold uint32; rewrite Z.mod_small; lia).
    rewrite bswap64_spec by done. rewrite (proj2 (Z.ltb_lt _ _)) by lia.
    unfold bind at 1, on_target at 1. rewrite Hr. by replace (mkRSP _ _ _ _ _ _ _ _) with c by by destruct c.
  - constructor; [done|]. apply Forall_app. split; [eapply Forall_impl; [by apply print_hex_digits|apply digit_nonzero]|].
    constructor; [done|]. apply hex_bytes_plain.
Qed.

(** ** A small debugged machine: registers and some bytes *)

Record demo_target := mkDemo { dt_regs : x86regs; dt_mem : gmap Z Z }.
#[local] Instance demo_debuggee : Debuggee demo_target := {
  d_regs := gets dt_regs;
  d_set_regs r := modify (fun g => mkDemo r (dt_mem g));
  d_fpu := ret (replicate 416 0);
  d_selectors := ret [0x33; 0x2b; 0x2b; 0x2b];
  d_fsgs := ret (0, 0);
  d_exception_offset := ret 0;
  d_read a n := gets (fun g => map (fun i => default 0 (dt_mem g !! (a + i))) (seqZ 0 n));
  d_write a l := modify (fun g => mkDemo (dt_regs g) (foldr (fun p m => <[a + Z.of_nat (fst p) := snd p]> m) (dt_mem g) (zip (seq 0 (length l)) l)));
  d_stopped := ret false;
  d_run _ := ret KVM_EXIT_DEBUG;
  d_step := ret tt;
  d_mmap_ranges := ret [];
  d_open _ _ _ := ret (inr 2);
  d_pread _ _ _ := ret (inr 9);
  d_close _ := ret (inr 9);
  d_fstat _ := ret (inr 9) }.

Definition demo_regs : x86regs := mkRegs 1 2 3 4 5 6 0x7000 0x8000 9 10 11 12 13 14 15 16 0x401000 2.
Definition demo_client (packets : list Z) : RSPClient (G := demo_target) :=
  mkRSP (mkDemo demo_regs {[ 0x1000 := 0xAB; 0x1001 := 0x24 ]}) (mkSock true true [] [packets; [43]] 0) false [] [0; 0; 0; 0] 0 1000 "".
Definition demo_request (payload : list Z) : list Z := 36 :: payload ++ [35; 48; 48].
(** What the client answers to one request. *)
Definition answer (payload : list Z) : RSPClient (G := demo_target) := snd (process_one None (demo_client (demo_request payload))).

Example demo_read_memory : s_out (sock (answer (str "m1000,2"))) = 43 :: forge_packet (str "ab24").
Proof. vm_compute. reflexivity. Qed.

Lemma packet_dispatched_once_witness :
  Forall (fun x => x <> 35 /\ x <> 36) (str "m1000,2") /\
  process_bytes None 0 (36 :: str "m1000,2" ++ 35 :: 48 :: 48 :: [43]) (demo_client []) =
  (modify (fun c => set_buffer c (str "m1000,2")) ;;; reply_ack ;;; process_data None ;;;
   modify (fun c => set_buffer c []) ;;; process_bytes None 0 [43]) (demo_client []).
Proof.
  assert (Forall (fun x => x <> 35 /\ x <> 36) (str "m1000,2")) as H by (unfold str; simpl; repeat constructor; lia).
  split; [exact H|].
  apply (packet_dispatched_once None (demo_client []) (str "m1000,2") 48 48 [43] H); [by vm_compute|vm_compute; reflexivity].
Defined.

(** A client that asks for [n] bytes of untouched memory. *)
Definition demo_reading (n : Z) : RSPClient (G := demo_target) :=
  mkRSP (mkDemo demo_regs ∅) (mkSock true true [] [[43]] 0) false
    (str "m" ++ print_hex 0x1000 ++ str "," ++ print_hex n) [0; 0; 0; 0] 0 1000 "".
(** 1000 bytes are two too many. *)
Lemma readmem_bounds_witness :
  handle_readmem (demo_reading 1000) = (Err (Undefined "packet does not fit the buffer"), demo_reading 1000).
Proof.
  apply (readmem_bounds (demo_reading 1000) 0x1000 (replicate 1000 0)).
  - unfold u64. lia.
  - apply Forall_forall. intros x Hx. apply elem_of_replicate in Hx as [-> _]. unfold byte. lia.
  - rewrite length_replicate. lia.
  - reflexivity.
  - intros i b Hi. apply lookup_replicate in Hi as [-> Hi]. reflexivity.
Defined.

Lemma writereg_sets_witness :
  let c := set_buffer (demo_client []) (str "P" ++ print_hex 6 ++ str "=" ++ hex_bytes (le_bytes 8 0x12345678)) in
  handle_writereg c = (on_target (d_set_regs (set_reg_at demo_regs 6 0x12345678)) ;;; send_s "OK") c /\
  forall j, 0 <= j < 17 -> reg_at (set_reg_at demo_regs 6 0x12345678) j = if j =? 6 then Some 0x12345678 else reg_at demo_regs j.
Proof.
  intros c. apply (writereg_sets c demo_regs 6 0x12345678); [lia|unfold u64; lia|reflexivity|reflexivity].
Defined.

(** Register 6 is RBP when it is written or reported with the others, but reading it alone gives
    the seventh field of the structure, RSP. *)
Example readreg_swaps_rsp_rbp :
  reg_at demo_regs 6 = Some 0x8000 /\ s_out (sock (answer (str "p6"))) = (43 :: forge_packet (hex_bytes (le_bytes 8 0x7000))).
Proof. split; vm_compute; reflexivity. Qed.

(** The debugger escapes '#' as '}' followed by 3; the client only looks for '{', so both bytes
    are written as they are. *)
Example writemem_keeps_escapes :
  unescape [0x7d; 3] = Some [0x23] /\
  dt_mem (target (answer (str "X1000,2:" ++ [0x7d; 3]))) = {[ 0x1000 := 0x7d; 0x1001 := 3 ]}.
Proof. split; vm_compute; reflexivity. Qed.

(** A checksum that does not match is not noticed. *)
Example checksum_ignored :
  decode_packet (demo_request (str "m1000,2")) = None /\ s_out (sock (answer (str "m1000,2"))) = (43 :: forge_packet (str "ab24")).
Proof. split; vm_compute; reflexivity. Qed.

(** After a kill request the client does not count as closed, and the destructor closes the
    descriptor a second time. *)
Example kill_closes_twice :
  let c := answer (str "k") in
  m_closed c = false /\ s_closes (sock (snd (RSPClient_destroy c))) = 2.
Proof. split; vm_compute; reflexivity. Qed.
