(* ===== verification/RspServer.v ===== *)
(** * The listening socket of the GDB stub

    [class RSP] of lib/tinykvm/rsp_client.cpp: its constructor, [accept] and destructor, over a
    host that answers each socket call.  The theorem: no path, with any answers, leaves a descriptor
    open that nobody holds. *)
From stdpp Require Import base tactics list numbers strings gmap.
From Stdlib Require Import ZArith Lia Bool.
From S2P Require Import Prelude.
Local Open Scope Z_scope.

(** [setsockopt] fails with a result other than zero, the others with a negative one. *)
Class SocketHost := {
  sh_socket : gset Z -> Z;
  sh_setsockopt : Z -> string -> Z;
  sh_bind : Z -> Z -> Z;
  sh_listen : Z -> Z -> Z;
  sh_select : Z -> Z -> Z;
  sh_accept : gset Z -> Z -> Z }.

(** A descriptor that is returned is new; closing one that is not open does nothing. *)
Class SocketLaws (sh : SocketHost) : Prop := {
  socket_fresh fds : 0 <= sh_socket fds -> sh_socket fds ∉ fds;
  accept_fresh fds fd : 0 <= sh_accept fds fd -> sh_accept fds fd ∉ fds }.

(** The descriptors of the host, the listener's, and the flag of the vCPU that it clears. *)
Record Listener := mkListener { host_fds : gset Z; server_fd : Z; vcpu_stopped : bool }.

Section server.
Context `{sh : SocketHost}.

Definition sock_open (fd : Z) : M Listener unit :=
  when (0 <=? fd) (modify (fun s => mkListener ({[fd]} ∪ host_fds s) (server_fd s) (vcpu_stopped s))).
Definition sock_close (fd : Z) : M Listener unit :=
  modify (fun s => mkListener (host_fds s ∖ {[fd]}) (server_fd s) (vcpu_stopped s)).
Definition failed {A} (fd : Z) (msg : string) : M Listener A := sock_close fd ;;; throw (RuntimeError msg).

(** [RSP(filename, cpu, port)] *)
Definition RSP_new (port : Z) : M Listener unit :=
  let! s := get in
  let fd := sh_socket (host_fds s) in
  sock_open fd ;;;
  modify (fun s => mkListener (host_fds s) fd (vcpu_stopped s)) ;;;
  if negb (sh_setsockopt fd "SO_REUSEADDR | SO_REUSEPORT" =? 0) then failed fd "Failed to enable REUSEADDR/PORT"
  else if sh_bind fd (port mod 2 ^ 16) <? 0 then failed fd "GDB listener failed to bind to port"
  else if sh_listen fd 2 <? 0 then failed fd "GDB listener failed to listen on port"
  else modify (fun s => mkListener (host_fds s) (server_fd s) false).

(** [accept(timeout_secs)]: the descriptor of a new [RSPClient], or none. *)
Definition RSP_accept (timeout_secs : Z) : M Listener (option Z) :=
  let! s := get in
  if sh_select (server_fd s) timeout_secs <=? 0 then ret None
  else
    let sockfd := sh_accept (host_fds s) (server_fd s) in
    sock_open sockfd ;;;
    if sockfd <? 0 then ret None
    else if negb (sh_setsockopt sockfd "TCP_NODELAY" =? 0) then sock_close sockfd ;;; ret None
    else if negb (sh_setsockopt sockfd "SO_RCVTIMEO | SO_SNDTIMEO" =? 0) then sock_close sockfd ;;; ret None
    else ret (Some sockfd).

Definition RSP_delete : M Listener unit := let! s := get in sock_close (server_fd s).

(** ** Nothing leaks *)
Context {laws : SocketLaws sh}.

Lemma open_wp fd (Q : unit -> Listener -> Prop) X s :
  Q tt (mkListener (if 0 <=? fd then {[fd]} ∪ host_fds s else host_fds s) (server_fd s) (vcpu_stopped s)) -> wp (sock_open fd) Q X s.
Proof.
  intros HQ. unfold sock_open. apply wp_when; intros E; rewrite E in HQ; [by apply wp_modify|]. by destruct s.
Qed.

Lemma close_fresh (l : gset Z) fd : fd ∉ l -> (if 0 <=? fd then {[fd]} ∪ l else l) ∖ {[fd]} = l.
Proof. intros Hfd. destruct (0 <=? fd); set_solver. Qed.

(** A listener holds its descriptor when it was made, and none when that failed; its destructor
    gives it back. *)
Lemma RSP_new_keeps port s : (0 <= sh_socket (host_fds s) \/ sh_socket (host_fds s) ∉ host_fds s) ->
  wp (RSP_new port)
    (fun _ t => vcpu_stopped t = false /\ wp RSP_delete (fun _ u => host_fds u = host_fds s) (fun _ _ => False) t)
    (fun e t => defined_exn e /\ host_fds t = host_fds s) s.
Proof.
  intros Hneg. assert (sh_socket (host_fds s) ∉ host_fds s) as Hfd by (destruct Hneg; [by apply socket_fresh|done]).
  unfold RSP_new, failed, RSP_delete. apply wp_bind, wp_get. apply wp_bind, open_wp. apply wp_bind, wp_modify.
  repeat (apply wp_if; intros _; [apply wp_bind, wp_modify, wp_throw; split; [done|by apply close_fresh]|]).
  apply wp_modify. split; [done|]. apply wp_bind, wp_get, wp_modify. by apply close_fresh.
Qed.

(** Accepting adds the descriptor it returns, and nothing else. *)
Lemma RSP_accept_keeps timeout s :
  wp (RSP_accept timeout) (fun r t => host_fds t = (match r with Some fd => {[fd]} | None => ∅ end) ∪ host_fds s /\ server_fd t = server_fd s)
    (fun _ _ => False) s.
Proof.
  unfold RSP_accept. apply wp_bind, wp_get. apply wp_if; intros _; [apply wp_ret; split; [set_solver|done]|].
  apply wp_bind, open_wp. apply wp_if; intros Hneg.
  - apply wp_ret. apply Z.ltb_lt in Hneg. rewrite (proj2 (Z.leb_gt _ _) Hneg). split; [cbn; set_solver|done].
  - apply Z.ltb_ge in Hneg. assert (sh_accept (host_fds s) (server_fd s) ∉ host_fds s) as Hfd by by apply accept_fresh.
    repeat (apply wp_if; intros _; [apply wp_bind, wp_modify, wp_ret; split; [cbn [host_fds]; rewrite close_fresh by done; set_solver|done]|]).
    apply wp_ret. rewrite (proj2 (Z.leb_le _ _) Hneg). done.
Qed.
End server.
