(* ===== verification/Elf.v ===== *)
(** * Loading ELF programs

    lib/tinykvm/machine_elf.cpp and util/elf.hpp: checking the headers, loading the segments,
    laying out stack, break and heap, relocation, and symbol lookup.

    A binary is a list of bytes.  Every access of the code to the binary goes through
    [get_bytes], so that a read outside of it, which the code does not always exclude, is
    [Undefined].  [elf.h] (the format) is a list of offsets and constants. *)
From stdpp Require Import base tactics list numbers strings gmap.
From Stdlib Require Import ZArith Lia Bool.
From S2P Require Import Prelude MMap Host MemoryBanks VMemory Paging ForkIsolation MakeCow PageSetup Fork Cpu Fds FdCalls GuestCopy MemCalls Rsp.
Import MachineMaps.
Local Open Scope Z_scope.

(** ** The format *)

Definition bin_size (bin : list Z) : Z := Z.of_nat (length bin).
Definition get_bytes (bin : list Z) (off n : Z) : result (list Z) :=
  if (0 <=? off) && (off + n <=? bin_size bin) then Ok (take (Z.to_nat n) (drop (Z.to_nat off) bin))
  else Err (Undefined "read outside the binary").

(** The little-endian field of [n] bytes at offset [off] of a structure. *)
Definition field (l : list Z) (off n : nat) : Z := le_value (take n (drop off l)).

Record Elf64_Ehdr := mkEhdr {
  e_ident : list Z; e_type : Z; e_entry : Z; e_phoff : Z; e_shoff : Z; e_phnum : Z; e_shnum : Z; e_shstrndx : Z }.
Definition sizeof_Ehdr : Z := 64.
Definition parse_ehdr (l : list Z) : Elf64_Ehdr :=
  mkEhdr (take 16 l) (field l 16 2) (field l 24 8) (field l 32 8) (field l 40 8) (field l 56 2) (field l 60 2) (field l 62 2).
Definition sizeof_Phdr : Z := 56.
Definition parse_phdr (l : list Z) : Elf64_Phdr :=
  mkPhdr (field l 0 4) (field l 4 4) (field l 8 8) (field l 16 8) (field l 32 8) (field l 40 8).
Record Elf64_Shdr := mkShdr { sh_name : Z; sh_offset : Z; sh_size : Z }.
Definition sizeof_Shdr : Z := 64.
Definition parse_shdr (l : list Z) : Elf64_Shdr := mkShdr (field l 0 4) (field l 24 8) (field l 32 8).
Record Elf64_Sym := mkSym { st_name : Z; st_info : Z; st_value : Z; st_size : Z }.
Definition sizeof_Sym : Z := 24.
Definition parse_sym (l : list Z) : Elf64_Sym := mkSym (field l 0 4) (field l 4 1) (field l 8 8) (field l 16 8).
Record Elf64_Rela := mkRela { r_offset : Z; r_info : Z; r_addend : Z }.
Definition sizeof_Rela : Z := 24.
Definition parse_rela (l : list Z) : Elf64_Rela := mkRela (field l 0 8) (field l 8 8) (field l 16 8).

Definition ET_EXEC : Z := 2.
Definition ET_DYN : Z := 3.
Definition PT_INTERP : Z := 3.
Definition PT_PHDR : Z := 6.
Definition ELFCLASS64 : Z := 2.
Definition STT_FUNC : Z := 2.
Definition R_X86_64_RELATIVE : Z := 8.
Definition R_X86_64_IRELATIVE : Z := 37.
Definition ELF64_R_TYPE (info : Z) : Z := info .& 0xFFFFFFFF.

Definition validate_header (h : Elf64_Ehdr) : bool :=
  let at_ i := nth i (e_ident h) 0 in
  if negb (at_ 0%nat =? 0x7F) || negb (at_ 1%nat =? 69) || negb (at_ 2%nat =? 76) || negb (at_ 3%nat =? 70) then false
  else at_ 4%nat =? ELFCLASS64.

(** ** The machine while it is loaded *)

Record Image := mkImage {
  im : Machine;
  m_binary : list Z;
  m_image_base : Z;
  m_start_address : Z;
  m_stack_address : Z }.

Record LoadOptions := mkLoadOptions { dylink_address_hint : Z; heap_address_hint : Z; stack_size : Z }.

Definition set_image_base (s : Image) x := mkImage (im s) (m_binary s) x (m_start_address s) (m_stack_address s).
Definition set_binary (s : Image) x := mkImage (im s) x (m_image_base s) (m_start_address s) (m_stack_address s).
Definition set_start_address (s : Image) x := mkImage (im s) (m_binary s) (m_image_base s) x (m_stack_address s).
Definition set_stack_address (s : Image) x := mkImage (im s) (m_binary s) (m_image_base s) (m_start_address s) x.
Definition on_machine {A} (m : M Machine A) : M Image A :=
  fun s => let (r, x) := m (im s) in (r, mkImage x (m_binary s) (m_image_base s) (m_start_address s) (m_stack_address s)).
Definition on_memory {A} (m : M VM A) : M Image A := on_machine (on_vm m).
Definition heap_address (s : Image) : Z := m_heap_address (maps (im s)).
Definition set_heap_address (a : Z) : M Image unit := on_machine (on_maps (modify (fun st => mkMM (cache st) a))).
Definition set_brk (a b : Z) : M Image unit :=
  on_machine (modify (fun s => mkMachine (mvm s) (maps s) a b (m_relocate_fixed_mmap s))).

Section loader.

(** ** Headers *)

(** [elf_offset<T>(binary, ofs)]: [ofs] is signed. *)
Definition elf_offset (bin : list Z) (ofs n : Z) : result (list Z) :=
  if (2 ^ 63 <=? ofs) || (bin_size bin <? ofs + n) then Err (MachineException "Invalid ELF offset" ofs)
  else get_bytes bin ofs n.

(** [phdr[0]], ..., [phdr[n-1]] *)
Fixpoint read_phdrs (bin : list Z) (off : Z) (n : nat) : result (list Elf64_Phdr) :=
  match n with
  | O => Ok []
  | S n' =>
      match get_bytes bin off sizeof_Phdr with
      | Err e => Err e
      | Ok l => match read_phdrs bin (off + sizeof_Phdr) n' with Ok hs => Ok (parse_phdr l :: hs) | Err e => Err e end
      end
  end.

Record DynamicElf := mkDynamicElf { interpreter : list Z; is_dynamic : bool }.
Definition has_interpreter (d : DynamicElf) : bool := negb (bool_decide (interpreter d = [])).

Definition is_dynamic_elf (bin : list Z) : result DynamicElf :=
  if bin_size bin <? sizeof_Ehdr then Err (MachineException "ELF binary too short" 0)
  else
    match get_bytes bin 0 sizeof_Ehdr with
    | Err e => Err e
    | Ok l =>
        let elf := parse_ehdr l in
        if bin_size bin <? e_phoff elf ⊕ sizeof_Phdr * e_phnum elf then Err (MachineException "ELF binary too short" 0)
        else
          match read_phdrs bin (e_phoff elf) (Z.to_nat (e_phnum elf)) with
          | Err e => Err e
          | Ok phdrs =>
              let interp :=
                match List.find (fun h => p_type h =? PT_INTERP) phdrs with
                | None => Ok []
                | Some h =>
                    if bin_size bin <? p_offset h ⊕ p_filesz h then Err (MachineException "ELF interpreter section too short" 0)
                    else get_bytes bin (p_offset h) (p_filesz h)
                end in
              match interp with
              | Err e => Err e
              | Ok i =>
                  if (e_type elf =? ET_DYN) || (e_type elf =? ET_EXEC)
                  then Ok (mkDynamicElf i ((e_type elf =? ET_DYN) || negb (bool_decide (i = []))))
                  else Err (MachineException "Invalid ELF type: Not a static or dynamic executable" 0)
              end
          end
    end.

(** ** Segments *)

Definition MAX_LOADABLE_SEGMENTS : Z := 16.

Definition elf_load_ph (bin : list Z) (h : Elf64_Phdr) : M Image unit :=
  let len := p_filesz h in
  let! s := get in
  if (bin_size bin <=? p_offset h) || (p_offset h ⊕ len <=? p_offset h) then
    if len =? 0 then ret tt else throw (MachineException "Bogus ELF program segment offset" (p_offset h))
  else if bin_size bin <? p_offset h ⊕ len then throw (MachineException "Not enough room for ELF program segment" len)
  else
    let load_address := m_image_base s ⊕ p_vaddr h in
    if load_address ⊕ len <? load_address then throw (MachineException "Bogus ELF segment virtual base" (p_vaddr h))
    else if load_address <? m_image_base s then throw (MachineException "Bogus ELF segment virtual base" (p_vaddr h))
    else if safely_within (vm (mvm (im s))) load_address len then
      let! dst := lift (at_ (vm (mvm (im s))) load_address 8) in
      let! data := lift (get_bytes bin (p_offset h) len) in
      on_memory (put_bytes dst data)
    else throw (MachineException "Unsafe PT_LOAD segment or executable too big" load_address).

(** The test for overlapping segments. *)
Definition segments_overlap (hdr ph : Elf64_Phdr) : bool :=
  (p_type ph =? PT_LOAD) && (p_vaddr ph <? p_vaddr hdr ⊕ p_filesz hdr) && (p_vaddr hdr <=? p_vaddr ph ⊕ p_filesz ph).

(** The loop over the program headers, [done] are those before; returns the start of the image. *)
Fixpoint load_headers (bin : list Z) (seen rest : list Elf64_Phdr) (seg image_begin : Z) : M Image Z :=
  match rest with
  | [] => ret image_begin
  | hdr :: rest' =>
      if (p_type hdr =? PT_LOAD) && existsb (segments_overlap hdr) seen then
        throw (MachineException "Overlapping ELF segments" (p_vaddr hdr))
      else
        let! seg :=
          (if p_type hdr =? PT_LOAD then
             if MAX_LOADABLE_SEGMENTS <? seg + 1 then throw (MachineException "Too many loadable segments" 0)
             else elf_load_ph bin hdr ;;; ret (seg + 1)
           else ret seg) in
        let endm := p_vaddr hdr ⊕ p_memsz hdr in
        let! s := get in
        when (heap_address s <? endm) (set_heap_address endm) ;;;
        load_headers bin (seen ++ [hdr]) rest' seg (Z.min image_begin (m_image_base s ⊕ p_vaddr hdr))
  end.

(** ** Sections and symbols *)

(** [strcmp(&binary[off], name) == 0] *)
Fixpoint cstr_eq (bin : list Z) (off : Z) (name : list Z) : result bool :=
  match get_bytes bin off 1 with
  | Err e => Err e
  | Ok l =>
      match name with
      | [] => Ok (first_byte l =? 0)
      | c :: name' => if first_byte l =? c then cstr_eq bin (off + 1) name' else Ok false
      end
  end.

(** The first of [n] entries of a table whose name is [name]. *)
Fixpoint find_named {T} (bin : list Z) (parse : list Z -> T) (name_of : T -> Z) (entsize strings : Z)
    (off : Z) (n : nat) (name : list Z) : result (option T) :=
  match n with
  | O => Ok None
  | S n' =>
      match get_bytes bin off entsize with
      | Err e => Err e
      | Ok l =>
          let t := parse l in
          match cstr_eq bin (strings + name_of t) name with
          | Err e => Err e
          | Ok true => Ok (Some t)
          | Ok false => find_named bin parse name_of entsize strings (off + entsize) n' name
          end
      end
  end.

Definition section_by_name (bin : list Z) (name : list Z) : result (option Elf64_Shdr) :=
  match elf_offset bin 0 sizeof_Ehdr with
  | Err e => Err e
  | Ok l =>
      let ehdr := parse_ehdr l in
      match elf_offset bin (e_shoff ehdr) sizeof_Shdr with
      | Err e => Err e
      | Ok _ =>
          match get_bytes bin (e_shoff ehdr + sizeof_Shdr * e_shstrndx ehdr) sizeof_Shdr with
          | Err e => Err e
          | Ok sl =>
              let strings := sh_offset (parse_shdr sl) in
              match elf_offset bin strings 1 with
              | Err e => Err e
              | Ok _ => find_named bin parse_shdr sh_name sizeof_Shdr strings (e_shoff ehdr) (Z.to_nat (e_shnum ehdr)) name
              end
          end
      end
  end.

Definition and_then {A B} (r : result A) (f : A -> result B) : result B := match r with Ok a => f a | Err e => Err e end.

(** The symbol table and the offset of its strings: [None] if a section is missing. *)
Definition symbol_table (bin : list Z) : result (option (Elf64_Shdr * Z)) :=
  and_then (section_by_name bin (str ".symtab")) (fun sym_hdr =>
  match sym_hdr with
  | None => Ok None
  | Some sh =>
      and_then (section_by_name bin (str ".strtab")) (fun str_hdr =>
      match str_hdr with
      | None => Ok None
      | Some st =>
          (** [elf_sym_index(binary, sym_hdr, 0)] *)
          if sh_size sh / sizeof_Sym <=? 0 then Err (Undefined "assertion in elf_sym_index")
          else and_then (elf_offset bin (sh_offset sh) sizeof_Sym) (fun _ =>
               and_then (elf_offset bin (sh_offset st) 1) (fun _ => Ok (Some (sh, sh_offset st))))
      end)
  end).

Definition resolve_symbol (bin name : list Z) : result (option Elf64_Sym) :=
  if bool_decide (bin = []) then Ok None
  else
    and_then (symbol_table bin) (fun t =>
    match t with
    | None => Ok None
    | Some (sh, strtab) =>
        find_named bin parse_sym st_name sizeof_Sym strtab (sh_offset sh) (Z.to_nat (sh_size sh / sizeof_Sym)) name
    end).

Definition address_of (s : Image) (name bin : list Z) : result Z :=
  let bin := if bool_decide (bin = []) then m_binary s else bin in
  and_then (resolve_symbol bin name) (fun sym =>
  Ok (match sym with Some y => m_image_base s ⊕ st_value y | None => 0 end)).
Definition AddressOf (name bin : list Z) : result Z :=
  and_then (resolve_symbol bin name) (fun sym => Ok (match sym with Some y => st_value y | None => 0 end)).

(** The name of a symbol: the bytes up to the terminating zero, which must be in the binary. *)
Fixpoint cstring_in (l : list Z) : result (list Z) :=
  match l with
  | [] => Err (Undefined "read outside the binary")
  | c :: l' => if c =? 0 then Ok [] else and_then (cstring_in l') (fun r => Ok (c :: r))
  end.
Definition symbol_name (bin : list Z) (off : Z) : result (list Z) :=
  if (0 <=? off) && (off <? bin_size bin) then cstring_in (drop (Z.to_nat off) bin) else Err (Undefined "read outside the binary").
(** [snprintf(result, 2048, "%s + 0x%lX", ...)] and the string of the length it returns. *)
Definition upper (c : Z) : Z := if (97 <=? c) && (c <=? 102) then c - 32 else c.
Definition describe (bin : list Z) (strtab : Z) (y : Elf64_Sym) (offset : Z) : result (list Z) :=
  and_then (symbol_name bin (strtab + st_name y)) (fun name =>
  let text := name ++ str " + 0x" ++ map upper (print_hex offset) in
  if 2048 <? Z.of_nat (length text) then Err (Undefined "name does not fit the buffer") else Ok text).

(** The loop over the symbols: the exact match, or else the second best. *)
Fixpoint resolve_loop (bin : list Z) (strtab off : Z) (n : nat) (rip : Z) (best : option Elf64_Sym) : result (list Z) :=
  match n with
  | O =>
      match best with
      | Some y => describe bin strtab y (rip ⊖ st_value y)
      | None => Ok (str "(unknown)")
      end
  | S n' =>
      and_then (get_bytes bin off sizeof_Sym) (fun l =>
      let y := parse_sym l in
      if any_bit (st_info y) STT_FUNC then
        if (st_value y <=? rip) && (rip <? st_value y ⊕ st_size y) then describe bin strtab y (rip ⊖ st_value y)
        else
          let best' := if (st_value y <=? rip) && (st_value y <? match best with Some b => st_value b | None => W64 - 1 end)
                       then Some y else best in
          resolve_loop bin strtab (off + sizeof_Sym) n' rip best'
      else resolve_loop bin strtab (off + sizeof_Sym) n' rip best)
  end.
Definition resolve (s : Image) (rip : Z) (bin : list Z) : result (list Z) :=
  let bin := if bool_decide (bin = []) then m_binary s else bin in
  if bool_decide (bin = []) then Ok (str "(no binary)")
  else
    and_then (section_by_name bin (str ".symtab")) (fun sym_hdr =>
    match sym_hdr with
    | None => Ok (str "(no symbols)")
    | Some _ =>
        and_then (section_by_name bin (str ".strtab")) (fun str_hdr =>
        match str_hdr with
        | None => Ok (str "(no strings)")
        | Some _ =>
            if rip <? m_image_base s then Ok (str "(error: rip < image base)")
            else
              and_then (symbol_table bin) (fun t =>
              match t with
              | None => Ok []
              | Some (sh, strtab) =>
                  resolve_loop bin strtab (sh_offset sh) (Z.to_nat (sh_size sh / sizeof_Sym)) (rip ⊖ m_image_base s) None
              end)
        end)
    end).

(** ** Relocation *)

(** [elf_offset_array<T>(binary, ofs, count)]: the sum of the test can wrap around. *)
Definition elf_offset_array (bin : list Z) (ofs count n : Z) : result unit :=
  if (2 ^ 63 <=? ofs) || (bin_size bin <? ofs ⊕ mul64 count n) then Err (MachineException "Invalid ELF offset" ofs) else Ok tt.

(** A 64-bit word of guest memory, of any alignment. *)
Definition guest_word (addr : Z) : M Image Z :=
  let! s := get in
  let! p := lift (safely_at (vm (mvm (im s))) addr 8) in
  let! b := on_memory (bytes_at p 8) in
  ret (le_value b).
Definition set_guest_word (addr v : Z) : M Image unit :=
  let! s := get in
  let! p := lift (safely_at (vm (mvm (im s))) addr 8) in
  on_memory (put_bytes p (le_bytes 8 v)).

Fixpoint rela_loop (bin : list Z) (off : Z) (n : nat) : M Image unit :=
  match n with
  | O => ret tt
  | S n' =>
      let! l := lift (get_bytes bin off sizeof_Rela) in
      let r := parse_rela l in
      let rtype := ELF64_R_TYPE (r_info r) in
      (if negb (rtype =? R_X86_64_RELATIVE) && negb (rtype =? R_X86_64_IRELATIVE) then ret tt
       else
         let! s := get in
         let addr := m_image_base s ⊕ r_offset r in
         when (safely_within (vm (mvm (im s))) addr 8) (set_guest_word addr (m_image_base s ⊕ r_addend r))) ;;;
      rela_loop bin (off + sizeof_Rela) n'
  end.
Definition relocate_section (section_name sym_section : list Z) : M Image bool :=
  let! s := get in
  let! rela := lift (section_by_name (m_binary s) section_name) in
  match rela with
  | None => ret false
  | Some rela =>
      let! dyn_hdr := lift (section_by_name (m_binary s) sym_section) in
      match dyn_hdr with
      | None => ret false
      | Some _ =>
          let rela_ents := sh_size rela / sizeof_Rela in
          if 600000 <? rela_ents then throw (MachineException "Too many relocations" rela_ents)
          else
            let! _ := lift (elf_offset_array (m_binary s) (sh_offset rela) rela_ents sizeof_Rela) in
            rela_loop (m_binary s) (sh_offset rela) (Z.to_nat rela_ents) ;;;
            ret true
      end
  end.

(** [__builtin_ctzll] of a number that is not zero. *)
Definition ctz (v : Z) : Z := Z.log2 (Z.land v (- v)).
(** One RELR relocation: the word moves with the image. *)
Definition relr_apply (msg : string) (addr : Z) : M Image unit :=
  let! s := get in
  if safely_within (vm (mvm (im s))) addr 8 then
    let! w := guest_word addr in set_guest_word addr (w ⊕ m_image_base s)
  else throw (MachineException msg addr).
(** [while (bits != 0)]: at most 63 bits. *)
Fixpoint relr_bits (fuel : nat) (bits base : Z) : M Image unit :=
  if bits =? 0 then ret tt
  else
    match fuel with
    | O => throw OutOfFuel
    | S fuel' =>
        relr_apply "RELR relocation bitmap target out of bounds" (base ⊕ ctz bits * 8) ;;;
        relr_bits fuel' (bits .& (bits - 1)) base
    end.
Fixpoint relr_loop (entries : list Z) (base : Z) : M Image unit :=
  match entries with
  | [] => ret tt
  | entry :: rest =>
      if entry .& 1 =? 0 then
        let! s := get in
        let base := m_image_base s ⊕ entry in
        relr_apply "RELR relocation target out of bounds" base ;;;
        relr_loop rest (base ⊕ 8)
      else if base =? 0 then throw (MachineException "Malformed RELR sequence" entry)
      else
        relr_bits 63 (entry .>> 1) base ;;;
        relr_loop rest (base ⊕ 63 * 8)
  end.
Fixpoint read_words (bin : list Z) (off : Z) (n : nat) : result (list Z) :=
  match n with
  | O => Ok []
  | S n' => and_then (get_bytes bin off 8) (fun l => and_then (read_words bin (off + 8) n') (fun r => Ok (le_value l :: r)))
  end.
Definition relocate_relr_section (section_name : list Z) : M Image bool :=
  let! s := get in
  let! relr := lift (section_by_name (m_binary s) section_name) in
  match relr with
  | None => ret false
  | Some relr =>
      if negb (sh_size relr mod 8 =? 0) then throw (MachineException "Malformed RELR section" (sh_size relr))
      else
        let relr_ents := sh_size relr / 8 in
        let! _ := lift (elf_offset_array (m_binary s) (sh_offset relr) relr_ents 8) in
        let! entries := lift (read_words (m_binary s) (sh_offset relr) (Z.to_nat relr_ents)) in
        relr_loop entries 0 ;;;
        ret true
  end.

Definition dynamic_linking : M Image unit :=
  let! _ := relocate_relr_section (str ".relr.dyn") in
  let! _ := relocate_section (str ".rela.dyn") (str ".dynsym") in
  ret tt.

(** ** The loader *)

Definition BRK_MAX : Z := 0x22000.

(** After the segments: heap, stack and break. *)
Definition layout_memory (o : LoadOptions) (image_begin : Z) : M Image unit :=
  let! s := get in
  let heap := (heap_address s ⊕ m_image_base s ⊕ PageMask) .& not64 PageMask in
  let heap := if heap <? heap_address_hint o then heap_address_hint o else heap in
  let STACK_SIZE := uint32 ((stack_size o ⊕ PageMask) .& not64 PageMask) in
  let stack := heap ⊕ STACK_SIZE in
  let brk_end := (stack ⊕ BRK_MAX ⊕ 0x1FFFFF) .& not64 0x1FFFFF in
  modify (fun s => set_stack_address s stack) ;;;
  set_brk stack brk_end ;;;
  set_heap_address brk_end ;;;
  on_machine (on_maps (assign_current brk_end)).

Definition elf_loader (bin : list Z) (o : LoadOptions) : M Image unit :=
  if bin_size bin <? sizeof_Ehdr then throw (MachineException "ELF binary too short" 0)
  else
    let! l := lift (get_bytes bin 0 sizeof_Ehdr) in
    let elf := parse_ehdr l in
    if negb (validate_header elf) then throw (MachineException "Invalid ELF header! Not a 64-bit program?" 0)
    else
      let! dyn := lift (is_dynamic_elf bin) in
      if has_interpreter dyn then throw (MachineException "ELF w/interpreter must be loaded by the interpreter itself" 0)
      else
        modify (fun s => set_image_base s (if is_dynamic dyn then dylink_address_hint o else 0)) ;;;
        let n := e_phnum elf in
        if n <=? 0 then throw (MachineException "ELF with no program-headers" 0)
        else if 64 <=? n then throw (MachineException "ELF with too many program-headers" 0)
        else if bin_size bin <? e_phoff elf ⊕ n * sizeof_Phdr then throw (MachineException "ELF program-headers are outside the binary" 0)
        else if e_phoff elf ⊕ n * sizeof_Phdr <? e_phoff elf then throw (MachineException "ELF program-header location is bogus" 0)
        else if negb (e_phoff elf mod 8 =? 0) then throw (MachineException "ELF program-headers are misaligned" 0)
        else
          modify (fun s => set_binary s bin) ;;;
          let! phdrs := lift (read_phdrs bin (e_phoff elf) (Z.to_nat n)) in
          modify (fun s => set_start_address s (m_image_base s ⊕ e_entry elf)) ;;;
          set_heap_address 0 ;;;
          let! image_begin := load_headers bin [] phdrs 0 (W64 - 1) in
          layout_memory o image_begin ;;;
          when (is_dynamic dyn) dynamic_linking.
End loader.

(** ** What the loader does with a static program *)

(** The memory of a machine that is about to be loaded: nothing but main memory. *)
Record loadable (m : vMemory) : Prop := {
  la_ptr : 0 < ptr m;
  la_phys : 0 <= physbase m /\ 0 <= size m /\ physbase m + size m < 2 ^ 63;
  la_host : ptr m + size m < 2 ^ 63;
  la_safe : physbase m <= safebase m;
  la_banks : m_mem (banks m) = [] }.

(** Bytes and words of the host outside of the main memory that a guest may use. *)
Definition outside_same (m : vMemory) (h h' : heap) : Prop :=
  (forall q, ~ (ptr m + (safebase m - physbase m) <= q < ptr m + size m) -> ld8 h' q = ld8 h q) /\
  (forall q, aligned8 q -> q + 8 <= ptr m + (safebase m - physbase m) \/ ptr m + size m <= q -> ld64 h' q = ld64 h q).
(** The segment lies in the memory that a guest may use, and holds the bytes of the file. *)
Definition in_memory (m : vMemory) (h : Elf64_Phdr) : Prop :=
  safebase m <= p_vaddr h /\ p_vaddr h + p_filesz h <= physbase m + size m.
Definition placed (bin : list Z) (m : vMemory) (hp : heap) (h : Elf64_Phdr) : Prop :=
  p_type h = PT_LOAD -> 0 < p_filesz h -> in_memory m h /\
  forall i, 0 <= i < p_filesz h ->
    ld8 hp (ptr m + (p_vaddr h + i - physbase m)) = nth (Z.to_nat (p_offset h + i)) bin 0.

Definition phdr_ok (h : Elf64_Phdr) : Prop :=
  u64 (p_offset h) /\ u64 (p_vaddr h) /\ u64 (p_filesz h) /\ u64 (p_memsz h).

Definition image_with_heap (s : Image) (hp : heap) : Image :=
  mkImage (mkMachine (with_heap (mvm (im s)) hp) (maps (im s)) (m_brk_address (im s)) (m_brk_end_address (im s)) (m_relocate_fixed_mmap (im s)))
    (m_binary s) (m_image_base s) (m_start_address s) (m_stack_address s).

Section loading.

Lemma field_range l off n : Forall byte l -> 0 <= field l off n < 256 ^ Z.of_nat n.
Proof.
  intros Hl. unfold field. set (t := take n (drop off l)).
  assert (Forall byte t) as Ht by (apply Forall_take, Forall_drop, Hl).
  pose proof (le_value_range t Ht) as Hr. assert (length t <= n)%nat by (unfold t; rewrite length_take; lia).
  assert (256 ^ Z.of_nat (length t) <= 256 ^ Z.of_nat n) by (apply Z.pow_le_mono_r; lia). lia.
Qed.
Lemma parse_phdr_ok l : Forall byte l -> phdr_ok (parse_phdr l).
Proof. intros Hl. unfold phdr_ok, u64. simpl. pose proof (fun o => field_range l o 8 Hl) as H. simpl in H. split_and!; apply H. Qed.

Lemma get_bytes_ok bin off n : 0 <= off -> off + n <= bin_size bin ->
  get_bytes bin off n = Ok (take (Z.to_nat n) (drop (Z.to_nat off) bin)).
Proof. intros. unfold get_bytes. rewrite (proj2 (Z.leb_le _ _)), (proj2 (Z.leb_le _ _)) by lia. done. Qed.
Lemma get_bytes_bytes bin off n l : Forall byte bin -> get_bytes bin off n = Ok l -> Forall byte l.
Proof. intros Hb. unfold get_bytes. destruct (_ && _); [|done]. intros [= <-]. by apply Forall_take, Forall_drop. Qed.

Lemma read_phdrs_ok bin off n : Forall byte bin -> 0 <= off -> off + sizeof_Phdr * Z.of_nat n <= bin_size bin ->
  exists hs, read_phdrs bin off n = Ok hs /\ Forall phdr_ok hs.
Proof.
  intros Hb. revert off. unfold sizeof_Phdr. induction n as [|n IH]; intros off Ho Hl; cbn [read_phdrs]; [by exists []|].
  destruct (get_bytes bin off sizeof_Phdr) as [l|] eqn:E; [|rewrite get_bytes_ok in E by (unfold sizeof_Phdr; lia); done].
  destruct (IH (off + sizeof_Phdr)) as (hs&->&Hhs); [unfold sizeof_Phdr; lia..|].
  eexists. split; [done|]. constructor; [|done]. by eapply parse_phdr_ok, get_bytes_bytes.
Qed.

(** [safely_within] without wrap-around. *)
Lemma safely_within_spec m a n : loadable m -> u64 a -> 0 <= n -> u64 (a + n) -> safely_within m a n = true ->
  safebase m <= a /\ a + n <= physbase m + size m.
Proof.
  intros [] Ha Hn Hw. unfold safely_within. rewrite andb_true_iff, !Z.leb_le.
  rewrite !add64_small by (unfold u64 in *; lia). done.
Qed.
Lemma at_main m a n p : loadable m -> u64 a -> physbase m <= a -> a <= physbase m + size m -> 0 <= n <= 64 ->
  at_ m a n = Ok p -> p = ptr m + (a - physbase m).
Proof.
  intros [] Ha H1 H2 Hn. unfold at_. destruct (within m a n).
  - intros [= <-]. unfold main_at, add64, sub64, wrap64.
    rewrite (Z.mod_small (a - physbase m)) by lia. rewrite Z.mod_small by lia. done.
  - unfold bank_lookup. rewrite la_banks0. done.
Qed.

Lemma elf_load_ph_wp bin h s : let m := vm (mvm (im s)) in loadable m -> m_image_base s = 0 -> phdr_ok h -> Forall byte bin ->
  wp (elf_load_ph bin h)
    (fun _ s' => exists hp, s' = image_with_heap s hp /\
       outside_same m (h_heap (vhost (mvm (im s)))) hp /\
       (p_type h = PT_LOAD -> placed bin m hp h) /\
       (forall q, ~ (0 < p_filesz h /\ in_memory m h /\ ptr m + (p_vaddr h - physbase m) <= q < ptr m + (p_vaddr h - physbase m) + p_filesz h) ->
          ld8 hp q = ld8 (h_heap (vhost (mvm (im s)))) q))
    (fun e _ => defined_exn e) s.
Proof.
  intros m Hm Hb (Ho&Hv&Hf&Hmz) Hbin. unfold elf_load_ph. wp_step. wp_step. wp_step.
  { wp_step; [|by wp_step]. wp_step. exists (h_heap (vhost (mvm (im s)))). split_and!; [|done| |done].
    - destruct s as [[[[] ?] ? ? ? ?] ? ? ? ?]. done.
    - intros _ _ Hp. lia. }
  wp_step; [by apply wp_throw|]. rewrite Hb.
  assert (0 ⊕ p_vaddr h = p_vaddr h) as -> by (apply add64_small; rewrite ?Z.add_0_l; exact Hv).
  wp_step; [by apply wp_throw|]. wp_step; [by apply wp_throw|]. wp_step; [|by apply wp_throw].
  apply orb_false_iff in H as [Hr1 Hr2]. rewrite Z.leb_gt in Hr1, Hr2. rewrite Z.ltb_ge in H0, H1.
  assert (p_offset h ⊕ p_filesz h = p_offset h + p_filesz h) as E1.
  { unfold add64, wrap64 in *. destruct (Z_lt_dec (p_offset h + p_filesz h) W64); [apply Z.mod_small; unfold u64 in *; lia|].
    replace (p_offset h + p_filesz h) with (p_offset h + p_filesz h - W64 + 1 * W64) in Hr2 by lia.
    rewrite Z.mod_add, Z.mod_small in Hr2 by (unfold u64 in *; lia). unfold u64 in *; lia. }
  assert (p_vaddr h ⊕ p_filesz h = p_vaddr h + p_filesz h /\ u64 (p_vaddr h + p_filesz h)) as [E2 Hw].
  { unfold add64, wrap64 in *. destruct (Z_lt_dec (p_vaddr h + p_filesz h) W64).
    - split; [apply Z.mod_small; unfold u64 in *; lia|unfold u64 in *; lia].
    - exfalso. replace (p_vaddr h + p_filesz h) with (p_vaddr h + p_filesz h - W64 + 1 * W64) in H1 by lia.
      rewrite Z.mod_add, Z.mod_small in H1 by (unfold u64 in *; lia). unfold u64 in *; lia. }
  rewrite E1 in *. destruct (safely_within_spec m _ _ Hm Hv (proj1 Hf) Hw H3) as [Hs1 Hs2].
  wp_step. apply wp_lift. destruct (at_ _ _ 8) as [dst|e] eqn:Ed.
  2:{ fold m in Ed. unfold at_ in Ed. destruct (within _ _ 8); [done|]. unfold bank_lookup in Ed. rewrite (la_banks _ Hm) in Ed. by simplify_eq/=. }
  apply (at_main m) in Ed; [|done|done|destruct Hm; lia|unfold u64 in *; lia|lia]. subst dst.
  wp_step. apply wp_lift. rewrite get_bytes_ok by (unfold u64 in *; lia).
  set (data := take _ _).
  assert (Z.of_nat (length data) = p_filesz h) as Hlen.
  { unfold data. rewrite length_take, length_drop. unfold bin_size, u64 in *. lia. }
  unfold wp, on_memory, on_machine, on_vm, put_bytes, on_pages, on_vhost, on_heap, modify. simpl.
  eexists. split; [done|]. fold m.
  assert (forall q, ld8 (store_bytes (h_heap (vhost (mvm (im s)))) (ptr m + (p_vaddr h - physbase m)) data) q =
    if decide (ptr m + (p_vaddr h - physbase m) <= q < ptr m + (p_vaddr h - physbase m) + p_filesz h)
    then nth (Z.to_nat (q - (ptr m + (p_vaddr h - physbase m)))) data 0 mod 256 else ld8 (h_heap (vhost (mvm (im s)))) q) as Hld.
  { intros q. rewrite ld8_store_bytes, Hlen. done. }
  destruct Hm. split_and!.
  - split; [intros q Hq; rewrite Hld; rewrite decide_False; [done|]; lia|].
    intros q Hq Hd. apply ld64_store_bytes_other; [done|]. rewrite Hlen. lia.
  - intros _ _ Hpos. split; [split; lia|]. intros i Hi. rewrite Hld, decide_True by lia.
    replace (ptr m + (p_vaddr h + i - physbase m) - (ptr m + (p_vaddr h - physbase m))) with i by lia.
    unfold data. rewrite nth_firstn, (proj2 (Nat.ltb_lt _ _)), nth_skipn by lia.
    rewrite <- Z2Nat.inj_add by (unfold u64 in *; lia). apply Z.mod_small.
    rewrite Forall_forall in Hbin. apply Hbin, list_elem_of_In, nth_In. unfold bin_size, u64 in *. lia.
  - intros q Hq. rewrite Hld. rewrite decide_False; [done|]. intros Hc. apply Hq. unfold in_memory. lia.
Qed.

Definition heap_of (s : Image) : heap := h_heap (vhost (mvm (im s))).
(** The state between two headers. *)
Definition loaded_so_far (bin : list Z) (m : vMemory) (h0 : heap) (start : Z) (seen : list Elf64_Phdr) (s : Image) : Prop :=
  vm (mvm (im s)) = m /\ m_image_base s = 0 /\ m_binary s = bin /\ m_start_address s = start /\
  outside_same m h0 (heap_of s) /\ Forall (placed bin m (heap_of s)) seen.

(** Segments that passed the test do not overlap. *)
Lemma placed_other bin m h ph hp hp' : loadable m -> phdr_ok h -> phdr_ok ph ->
  (forall q, ~ (0 < p_filesz h /\ in_memory m h /\ ptr m + (p_vaddr h - physbase m) <= q < ptr m + (p_vaddr h - physbase m) + p_filesz h) ->
     ld8 hp' q = ld8 hp q) ->
  segments_overlap h ph = false -> placed bin m hp ph -> placed bin m hp' ph.
Proof.
  intros Hm Hh Hph Hsame Ho Hp Ht Hz. destruct (Hp Ht Hz) as [Hin Hb]. split; [done|]. intros i Hi. rewrite Hsame; [by apply Hb|].
  intros (H1&[H2 H3]&H4). destruct Hin as [H5 H6]. unfold segments_overlap in Ho. rewrite Ht, Z.eqb_refl in Ho. simpl in Ho.
  destruct Hm as [_ ? _ ? _]. unfold phdr_ok, u64 in *.
  rewrite !add64_small in Ho by (unfold u64; lia). rewrite andb_false_iff, Z.ltb_ge, Z.leb_gt in Ho. lia.
Qed.

Lemma load_headers_wp bin m h0 start : loadable m -> Forall byte bin -> forall rest seen seg ib s,
  Forall phdr_ok (seen ++ rest) -> loaded_so_far bin m h0 start seen s ->
  wp (load_headers bin seen rest seg ib) (fun _ s' => loaded_so_far bin m h0 start (seen ++ rest) s') (fun e _ => defined_exn e) s.
Proof.
  intros Hm Hbin. induction rest as [|h rest IH]; intros seen seg ib s Hok Hs; cbn [load_headers].
  - wp_step. by rewrite app_nil_r.
  - destruct (_ && existsb _ _) eqn:Eo; [by apply wp_throw|].
    replace (seen ++ h :: rest) with ((seen ++ [h]) ++ rest) in * by by rewrite <- app_assoc.
    assert (phdr_ok h) as Hh by (rewrite !Forall_app in Hok; destruct Hok as [[_ Hh] _]; by inversion_clear Hh).
    assert (Forall phdr_ok seen) as Hseen by (rewrite !Forall_app in Hok; tauto).
    assert (forall seg s', loaded_so_far bin m h0 start (seen ++ [h]) s' ->
      wp (let endm := p_vaddr h ⊕ p_memsz h in
          let! s := get in
          when (heap_address s <? endm) (set_heap_address endm) ;;;
          load_headers bin (seen ++ [h]) rest seg (Z.min ib (m_image_base s ⊕ p_vaddr h)))
        (fun _ s' => loaded_so_far bin m h0 start ((seen ++ [h]) ++ rest) s') (fun e _ => defined_exn e) s') as Htail.
    { intros seg' s' Hs'. cbn zeta. wp_step. wp_step. wp_step. apply wp_when; intros _; [|by apply IH].
      unfold set_heap_address, on_machine, on_maps, modify, wp. simpl. apply IH; [done|]. exact Hs'. }
    destruct Hs as (Hvm&Hb&Hbi&Hst&Hout&Hpl). wp_step. destruct (p_type h =? PT_LOAD) eqn:Et.
    + destruct (_ <? _); [by apply wp_throw|]. wp_step. eapply wp_mono; [apply elf_load_ph_wp; [by rewrite Hvm|done..]| |done].
      intros _ s' (hp&->&H1&H2&H3). wp_step. apply Htail. rewrite Hvm in *.
      assert (outside_same m h0 hp) as Hout'
        by (destruct Hout as [Ho1 Ho2], H1 as [H11 H12]; split; intros; [rewrite H11 by done; by apply Ho1|rewrite H12 by done; by apply Ho2]).
      split_and!; try done. apply Forall_app. split; [|constructor; [|done]; apply H2; lia].
      rewrite Forall_forall in *. intros ph Hph. eapply placed_other; [done|done|by apply Hseen|exact H3| |by apply Hpl].
      simpl in Eo. destruct (segments_overlap h ph) eqn:E; [|done]. exfalso.
      assert (existsb (segments_overlap h) seen = true) by (apply existsb_exists; exists ph; split; [by apply list_elem_of_In|done]). congruence.
    + wp_step. apply Htail. split_and!; try done. apply Forall_app. split; [done|]. constructor; [|done]. intros ?. lia.
Qed.
End loading.

(** Sizes in the headers whose sums fit 64 bits; the code does not check them before it uses the
    program headers. *)
Definition static_program (bin : list Z) : Prop := forall l, get_bytes bin 0 sizeof_Ehdr = Ok l ->
  let e := parse_ehdr l in
  e_type e <> ET_DYN /\ e_phoff e + sizeof_Phdr * e_phnum e < W64 /\
  forall hs h, read_phdrs bin (e_phoff e) (Z.to_nat (e_phnum e)) = Ok hs -> h ∈ hs -> p_type h = PT_INTERP ->
    p_offset h + p_filesz h < W64.

(** Break, stack and heap after loading. *)
Definition laid_out (s : Image) : Prop :=
  m_brk_address (im s) = m_stack_address s /\ m_brk_end_address (im s) = heap_address s /\
  mmap_current (maps (im s)) = heap_address s /\ heap_address s mod 2 ^ 21 = 0 /\
  (m_stack_address s + BRK_MAX + 2 ^ 21 < W64 -> m_stack_address s + BRK_MAX <= heap_address s).

Section loader_facts.

Lemma layout_memory_wp o ib s (Q : unit -> Image -> Prop) X :
  (forall s', vm (mvm (im s')) = vm (mvm (im s)) -> m_image_base s' = m_image_base s -> m_binary s' = m_binary s ->
     heap_of s' = heap_of s -> m_start_address s' = m_start_address s ->
     laid_out s' -> Q tt s') -> wp (layout_memory o ib) Q X s.
Proof.
  intros HQ. unfold layout_memory. wp_step. wp_step.
  set (heap := if _ <? _ then _ else _). set (stack := heap ⊕ _). set (e := (stack ⊕ BRK_MAX ⊕ 0x1FFFFF) .& not64 0x1FFFFF).
  unfold wp, bind, modify, set_brk, set_heap_address, on_machine, on_maps, assign_current, on_cache, modify. simpl.
  apply HQ; try done. unfold laid_out, mmap_current, heap_address. simpl.
  assert (u64 stack) as Hs by apply wrap64_u64. split_and!; try done.
  - unfold e. change 0x1FFFFF with (2 ^ 21 - 1). rewrite land_not_ones by (apply wrap64_u64 || lia). apply Z.mod_mul. lia.
  - intros Hw. unfold e. unfold BRK_MAX in *. rewrite (add64_small stack) by (unfold u64 in *; lia).
    rewrite add64_small by (unfold u64 in *; lia). change 0x1FFFFF with (2 ^ 21 - 1).
    rewrite land_not_ones by (unfold u64 in *; lia). dlia.
Qed.

Lemma dynamic_elf_static bin l : static_program bin -> Forall byte bin -> get_bytes bin 0 sizeof_Ehdr = Ok l ->
  match is_dynamic_elf bin with Ok d => is_dynamic d = has_interpreter d | Err e => defined_exn e end.
Proof.
  intros Hst Hb El. unfold is_dynamic_elf. destruct (_ <? sizeof_Ehdr); [done|]. rewrite El.
  destruct (Hst l El) as (Ht&Hw&Hi). destruct (bin_size bin <? _) eqn:Es; [done|]. apply Z.ltb_ge in Es.
  assert (Forall byte l) as Hl by by eapply get_bytes_bytes.
  pose proof (field_range l 32 8 Hl) as Hoff. pose proof (field_range l 56 2 Hl) as Hnum. simpl in Hoff, Hnum.
  cbn [parse_ehdr e_phoff e_phnum] in *. unfold sizeof_Phdr in *. rewrite add64_small in Es by (unfold u64; lia).
  destruct (read_phdrs_ok bin (field l 32 8) (Z.to_nat (field l 56 2))) as (hs&Ehs&Hhs); [done|lia|unfold sizeof_Phdr; lia|].
  rewrite Ehs. destruct (List.find _ hs) as [h|] eqn:Ef.
  - apply List.find_some in Ef as [Hin Hpt]. apply list_elem_of_In in Hin. apply Z.eqb_eq in Hpt.
    rewrite Forall_forall in Hhs. destruct (Hhs h Hin) as (Ho&_&Hf&_). specialize (Hi hs h Ehs Hin Hpt).
    destruct (bin_size bin <? _) eqn:Ei; [done|]. apply Z.ltb_ge in Ei. rewrite add64_small in Ei by (unfold u64 in *; lia).
    rewrite get_bytes_ok by (unfold u64 in *; lia). set (i := take _ _). destruct (_ || _); [|done].
    unfold has_interpreter. simpl. by rewrite (proj2 (Z.eqb_neq _ _)).
  - destruct (_ || _); [|done]. unfold has_interpreter. simpl. by rewrite (proj2 (Z.eqb_neq _ _)).
Qed.
End loader_facts.

Lemma elf_loader_wp bin o s : loadable (vm (mvm (im s))) -> Forall byte bin -> static_program bin ->
  wp (elf_loader bin o)
    (fun _ s' => vm (mvm (im s')) = vm (mvm (im s)) /\ m_image_base s' = 0 /\ m_binary s' = bin /\ exists e phdrs, get_bytes bin 0 sizeof_Ehdr = Ok e /\
       read_phdrs bin (e_phoff (parse_ehdr e)) (Z.to_nat (e_phnum (parse_ehdr e))) = Ok phdrs /\
       Forall (placed bin (vm (mvm (im s))) (heap_of s')) phdrs /\
       outside_same (vm (mvm (im s))) (heap_of s) (heap_of s') /\
       m_start_address s' = e_entry (parse_ehdr e) /\ laid_out s')
    (fun e _ => defined_exn e) s.
Proof.
  intros Hm Hb Hst. unfold elf_loader. destruct (_ <? sizeof_Ehdr) eqn:Esz; [by apply wp_throw|]. apply Z.ltb_ge in Esz.
  destruct (get_bytes bin 0 sizeof_Ehdr) as [l|] eqn:El; [|rewrite get_bytes_ok in El by lia; done].
  wp_step. apply wp_lift. wp_step; [by apply wp_throw|]. wp_step. apply wp_lift.
  pose proof (dynamic_elf_static bin l Hst Hb El) as Hdyn.
  destruct (is_dynamic_elf bin) as [d|e]; [|done]. destruct (has_interpreter d) eqn:Ehi; [by apply wp_throw|].
  rewrite Hdyn. wp_step. wp_step. set (e := parse_ehdr l) in *.
  wp_step; [by apply wp_throw|]. wp_step; [by apply wp_throw|]. wp_step; [by apply wp_throw|]. wp_step; [by apply wp_throw|].
  wp_step; [by apply wp_throw|]. wp_step. wp_step. wp_step. apply wp_lift.
  destruct (Hst l El) as (_&Hw&_). fold e in Hw. assert (Forall byte l) as Hl by by eapply get_bytes_bytes.
  pose proof (field_range l 32 8 Hl) as Hoff. pose proof (field_range l 24 8 Hl) as Hent. simpl in Hoff, Hent.
  rewrite Z.ltb_ge in *. rewrite Z.leb_gt in *. unfold sizeof_Phdr in *.
  rewrite add64_small in H2 by (unfold u64; cbn in *; lia).
  destruct (read_phdrs_ok bin (e_phoff e) (Z.to_nat (e_phnum e))) as (hs&Ehs&Hhs); [done|cbn; lia|unfold sizeof_Phdr; lia|].
  rewrite Ehs. wp_step. wp_step. wp_step. unfold set_heap_address, on_machine, on_maps, modify, wp at 1. cbn beta iota zeta.
  wp_step. eapply wp_mono; [apply (load_headers_wp bin (vm (mvm (im s))) (heap_of s) (e_entry e) Hm Hb); [exact Hhs|]| |done].
  { split_and!; try done. simpl. apply add64_small. rewrite Z.add_0_l. unfold u64. cbn. lia. }
  intros ib s' (Hvm&Hbase&Hbin&Hstart&Hout&Hpl). wp_step. apply layout_memory_wp.
  intros s'' Hvm' Hib' Hbin' Hheap Hstart' Hlay. apply wp_ret. rewrite Hvm', Hib', Hbin'. split_and!; [done..|].
  eexists _, _. rewrite Hheap, Hstart', Hstart. by split_and!.
Qed.

(** C30: whatever the bytes of a static program whose header sums fit 64 bits ([static_program]: the
    end of the program headers, the end of the interpreter's name), loading it either throws one of
    the loader's own exceptions or succeeds, and never reads outside the binary or writes outside
    the main memory that a guest may use.  On success every loadable segment lies in the memory a guest may use and holds the
    bytes of the file, also after the segments that were loaded later; the entry point is that of
    the header, and stack, break, heap and the end of the mmap area are laid out in this order.
    When the sum wraps around, the loader reads outside the binary ([phdr_offset_wraps]). *)
Theorem elf_loader_loads bin o s : loadable (vm (mvm (im s))) -> Forall byte bin -> static_program bin ->
  wp (elf_loader bin o)
    (fun _ s' => exists e phdrs, get_bytes bin 0 sizeof_Ehdr = Ok e /\
       read_phdrs bin (e_phoff (parse_ehdr e)) (Z.to_nat (e_phnum (parse_ehdr e))) = Ok phdrs /\
       Forall (placed bin (vm (mvm (im s))) (heap_of s')) phdrs /\
       outside_same (vm (mvm (im s))) (heap_of s) (heap_of s') /\
       m_start_address s' = e_entry (parse_ehdr e) /\ laid_out s')
    (fun e _ => defined_exn e) s.
Proof. intros Hm Hb Hst. eapply wp_mono; [by apply elf_loader_wp| |done]. intros _ s' (_&_&_&H). exact H. Qed.

(** ** RELR relocations, as the format defines them *)

Inductive relr_op := Target (msg : string) (addr : Z) | Malformed (entry : Z).
(** An even entry is an address; an odd one a bitmap of the 63 words that follow. *)
Fixpoint relr_ops (image_base : Z) (entries : list Z) (base : Z) : list relr_op :=
  match entries with
  | [] => []
  | e :: rest =>
      if Z.even e then
        Target "RELR relocation target out of bounds" (image_base ⊕ e) :: relr_ops image_base rest (image_base ⊕ e ⊕ 8)
      else if base =? 0 then [Malformed e]
      else
        map (fun k => Target "RELR relocation bitmap target out of bounds" (base ⊕ 8 * k))
          (filter (fun k => Z.testbit e (k + 1) = true) (seqZ 0 63))
        ++ relr_ops image_base rest (base ⊕ 504)
  end.
Definition relr_exec (op : relr_op) : M Image unit :=
  match op with
  | Target msg addr => relr_apply msg addr
  | Malformed e => throw (MachineException "Malformed RELR sequence" e)
  end.

Section relr.

(** The lowest set bit. *)
Lemma lowest_bit v j : 0 < v -> 0 <= j -> Z.testbit v j = true -> (forall i, 0 <= i < j -> Z.testbit v i = false) ->
  v - 1 = Z.lor (Z.clearbit v j) (Z.ones j).
Proof.
  intros Hv Hj Hb Hlow. assert (Z.clearbit v j = v - 2 ^ j) as E.
  { rewrite Z.clearbit_spec'. symmetry. apply Z.sub_nocarry_ldiff. apply Z.bits_inj'. intros n Hn.
    rewrite Z.ldiff_spec, Z.pow2_bits_eqb, Z.bits_0 by done. destruct (Z.eqb_spec j n) as [<-|]; [by rewrite Hb|done]. }
  rewrite <- Z.add_nocarry_lor.
  - rewrite E, Z.ones_equiv. lia.
  - apply Z.bits_inj'. intros n Hn. rewrite Z.land_spec, Z.clearbit_eqb, Z.bits_0 by done.
    destruct (Z_lt_dec n j).
    + by rewrite Hlow by lia.
    + rewrite Z.ones_spec_high by lia. by rewrite andb_false_r.
Qed.
Lemma clear_lowest v j : 0 < v -> 0 <= j -> Z.testbit v j = true -> (forall i, 0 <= i < j -> Z.testbit v i = false) ->
  v .& (v - 1) = Z.clearbit v j /\ ctz v = j.
Proof.
  intros Hv Hj Hb Hlow. pose proof (lowest_bit v j Hv Hj Hb Hlow) as E.
  assert (forall n, 0 <= n -> Z.testbit (v - 1) n = (Z.testbit v n && negb (j =? n)) || (n <? j)) as Hbits.
  { intros n Hn. rewrite E, Z.lor_spec, Z.clearbit_eqb by done. f_equal. destruct (Z.ltb_spec n j).
    - by rewrite Z.ones_spec_low by lia.
    - by rewrite Z.ones_spec_high by lia. }
  split.
  - apply Z.bits_inj'. intros n Hn. rewrite Z.land_spec, Hbits, Z.clearbit_eqb by done.
    destruct (Z.ltb_spec n j); [by rewrite Hlow by lia|]. rewrite orb_false_r. by destruct (Z.testbit v n).
  - unfold ctz. replace (- v) with (Z.lnot (v - 1)) by (unfold Z.lnot; lia).
    assert (Z.land v (Z.lnot (v - 1)) = 2 ^ j) as ->; [|by apply Z.log2_pow2].
    apply Z.bits_inj'. intros n Hn. rewrite Z.land_spec, Z.lnot_spec, Hbits, Z.pow2_bits_eqb by done.
    destruct (Z.eqb_spec j n) as [<-|Hne].
    + rewrite Hb, Z.ltb_irrefl. done.
    + destruct (Z.ltb_spec n j); [by rewrite Hlow by lia|]. by destruct (Z.testbit v n).
Qed.

Lemma filter_ext_in {A} (P Q : A -> Prop) `{!forall x, Decision (P x), !forall x, Decision (Q x)} (l : list A) :
  (forall x, x ∈ l -> P x <-> Q x) -> filter P l = filter Q l.
Proof.
  induction l as [|x l IH]; intros Heq; [done|]. rewrite !filter_cons, IH by (intros y Hy; apply Heq; by right).
  destruct (decide (P x)) as [Hp|Hp], (decide (Q x)) as [Hq|Hq]; try done; exfalso; specialize (Heq x (list_elem_of_here _ _)); tauto.
Qed.
Lemma for_each_app {S A} (l1 l2 : list A) (f : A -> M S unit) s :
  for_each (l1 ++ l2) f s = (for_each l1 f ;;; for_each l2 f) s.
Proof.
  revert s. induction l1 as [|x l1 IH]; intros s; cbn [app for_each]; [done|]. unfold bind in *.
  destruct (f x s) as [[] s']; [by rewrite IH|done].
Qed.

Lemma relr_bits_ref n fuel j bits base s : 0 <= j -> 0 <= bits -> Z.of_nat n = 63 - j -> (n <= fuel)%nat ->
  (forall i, 0 <= i < j -> Z.testbit bits i = false) -> (forall i, 63 <= i -> Z.testbit bits i = false) ->
  relr_bits fuel bits base s =
  for_each (map (fun k => Target "RELR relocation bitmap target out of bounds" (base ⊕ 8 * k))
    (filter (fun k => Z.testbit bits k = true) (seqZ j (Z.of_nat n)))) relr_exec s.
Proof.
  revert fuel j bits s. induction n as [|n IH]; intros fuel j bits s Hj Hb Hn Hf Hlow Hhigh.
  - assert (bits = 0) as ->.
    { apply Z.bits_inj'. intros i Hi. rewrite Z.bits_0. destruct (Z_lt_dec i j); [apply Hlow|apply Hhigh]; lia. }
    by destruct fuel.
  - rewrite Nat2Z.inj_succ, seqZ_cons by lia. rewrite Z.pred_succ.
    assert (Z.testbit bits j = false -> forall i, 0 <= i < Z.succ j -> Z.testbit bits i = false) as Hskip.
    { intros E i Hi. destruct (decide (i = j)) as [->|]; [done|apply Hlow; lia]. }
    destruct (Z.testbit bits j) eqn:E.
    + assert (0 < bits) as Hpos.
      { destruct (Z.eq_dec bits 0) as [->|]; [by rewrite Z.bits_0 in E|lia]. }
      destruct (clear_lowest bits j) as [Ec Et]; try done.
      rewrite filter_cons_True by done. cbn [map for_each relr_exec]. destruct fuel as [|fuel]; [lia|]. cbn [relr_bits].
      rewrite (proj2 (Z.eqb_neq _ _)) by lia. rewrite Ec, Et, (Z.mul_comm j 8). unfold bind.
      destruct (relr_apply _ (base ⊕ 8 * j) s) as [[] s']; [|done]. rewrite (IH fuel (Z.succ j)); try lia.
      * f_equal. f_equal. apply filter_ext_in. intros k Hk. apply elem_of_seqZ in Hk. rewrite Z.clearbit_eqb by lia.
        rewrite (proj2 (Z.eqb_neq j k)) by lia. by rewrite andb_true_r.
      * rewrite Z.clearbit_spec'. apply Z.ldiff_nonneg. lia.
      * intros i Hi. rewrite Z.clearbit_eqb by lia. destruct (Z.eqb_spec j i); [by rewrite andb_false_r|]. rewrite Hlow by lia. done.
      * intros i Hi. rewrite Z.clearbit_eqb by lia. by rewrite Hhigh.
    + rewrite filter_cons_False by congruence. apply (IH fuel (Z.succ j)); try done; try lia. by apply Hskip.
Qed.

Lemma on_memory_base {A} (m : M VM A) s : m_image_base (snd (on_memory m s)) = m_image_base s.
Proof. unfold on_memory, on_machine, on_vm. by destruct (m (mvm (im s))) as [[]]. Qed.
Lemma bind_base {A B} (m : M Image A) (k : A -> M Image B) s :
  m_image_base (snd (m s)) = m_image_base s -> (forall a s', m_image_base (snd (k a s')) = m_image_base s') ->
  m_image_base (snd (bind m k s)) = m_image_base s.
Proof. intros H Hk. unfold bind. destruct (m s) as [[a|e] s']; [by rewrite Hk|done]. Qed.
Lemma guest_word_base a s : m_image_base (snd (guest_word a s)) = m_image_base s.
Proof.
  apply bind_base; [done|]. intros s1 s2. apply bind_base; [done|]. intros p s3. apply bind_base; [apply on_memory_base|done].
Qed.
Lemma set_guest_word_base a v s : m_image_base (snd (set_guest_word a v s)) = m_image_base s.
Proof. apply bind_base; [done|]. intros s1 s2. apply bind_base; [done|]. intros p s3. apply on_memory_base. Qed.
Lemma relr_exec_base op s : m_image_base (snd (relr_exec op s)) = m_image_base s.
Proof.
  destruct op as [msg a|]; [|done]. apply bind_base; [done|]. intros s1 s2. destruct (safely_within _ _ _); [|done].
  apply bind_base; [apply guest_word_base|]. intros w s3. apply set_guest_word_base.
Qed.
Lemma for_each_base l s : m_image_base (snd (for_each l relr_exec s)) = m_image_base s.
Proof.
  revert s. induction l as [|op l IH]; intros s; cbn [for_each]; [done|]. apply bind_base; [apply relr_exec_base|]. intros _. apply IH.
Qed.

Lemma even_land e : (e .& 1 =? 0) = Z.even e.
Proof.
  change 1 with (Z.ones 1). rewrite Z.land_ones by lia. change (2 ^ 1) with 2. rewrite Zmod_even. by destruct (Z.even e).
Qed.
Lemma relr_loop_ref entries base s : Forall u64 entries ->
  relr_loop entries base s = for_each (relr_ops (m_image_base s) entries base) relr_exec s.
Proof.
  intros He. revert base s. induction He as [|e entries [He1 He2] _ IH]; intros base s; cbn [relr_loop relr_ops]; [done|].
  rewrite even_land. destruct (Z.even e).
  - unfold bind at 1, get. cbn [for_each relr_exec]. unfold bind.
    pose proof (relr_exec_base (Target "RELR relocation target out of bounds" (m_image_base s ⊕ e)) s) as Hb. cbn [relr_exec] in Hb.
    destruct (relr_apply _ _ s) as [[] s']; [|done]. simpl in Hb. by rewrite IH, Hb.
  - destruct (base =? 0); [done|]. rewrite for_each_app. unfold bind.
    rewrite (relr_bits_ref 63 63 0) by
      (lia || (apply Z.shiftr_nonneg; lia) || (intros i Hi; lia) ||
       (intros i Hi; rewrite Z.shiftr_spec by lia; destruct (Z.eq_dec e 0) as [->|]; [apply Z.bits_0|
          apply Z.bits_above_log2; [lia|]; enough (Z.log2 e < 64) by lia; apply Z.log2_lt_pow2; lia])).
    rewrite (filter_ext_in (fun k => Z.testbit (e .>> 1) k = true) (fun k => Z.testbit e (k + 1) = true)).
    2:{ intros k Hk. apply elem_of_seqZ in Hk. by rewrite Z.shiftr_spec by lia. }
    change (Z.of_nat 63) with 63. change (63 * 8) with 504.
    set (l := map _ _). pose proof (for_each_base l s) as Hb. destruct (for_each l relr_exec s) as [[] s']; [|done].
    simpl in Hb. by rewrite IH, Hb.
Qed.
End relr.

(** C31: the relocation loop, which finds the bits of each bitmap with count-trailing-zeros and
    clears them one by one, applies exactly the relocations that the RELR format encodes, in
    order: the address of an even entry, and for an odd entry the words of the following 63 whose
    bit is set; a bitmap before the first address is rejected. *)
Theorem relr_loop_decodes entries s : Forall u64 entries ->
  relr_loop entries 0 s = for_each (relr_ops (m_image_base s) entries 0) relr_exec s.
Proof. apply relr_loop_ref. Qed.

(** ** A small program *)

Definition demo_ehdr (phoff phnum entry : Z) : list Z :=
  [0x7F; 69; 76; 70; 2; 1; 1; 0; 0; 0; 0; 0; 0; 0; 0; 0] ++ le_bytes 2 ET_EXEC ++ le_bytes 2 62 ++ le_bytes 4 1 ++
  le_bytes 8 entry ++ le_bytes 8 phoff ++ le_bytes 8 0 ++ le_bytes 4 0 ++ le_bytes 2 64 ++ le_bytes 2 56 ++ le_bytes 2 phnum ++
  le_bytes 2 64 ++ le_bytes 2 0 ++ le_bytes 2 0.
Definition demo_phdr (type flags off vaddr filesz memsz : Z) : list Z :=
  le_bytes 4 type ++ le_bytes 4 flags ++ le_bytes 8 off ++ le_bytes 8 vaddr ++ le_bytes 8 vaddr ++ le_bytes 8 filesz ++
  le_bytes 8 memsz ++ le_bytes 8 4096.
(** Two segments of four bytes. *)
Definition demo_binary : list Z :=
  demo_ehdr 64 2 0x200000 ++ demo_phdr PT_LOAD 5 176 0x200000 4 4 ++ demo_phdr PT_LOAD 6 180 0x202000 4 0x1000 ++
  [1; 2; 3; 4; 5; 6; 7; 8].
Definition demo_image : Image :=
  mkImage (mkMachine (mkVM (mkHost ∅ [(0x10000000, 0x400000)] ∅) demo_memory) (fresh_maps 0) 0 0 true) [] 0 0 0.
Definition demo_load_options : LoadOptions := mkLoadOptions 0x200000 0 0x4000.
Definition demo_loaded : Image := snd (elf_loader demo_binary demo_load_options demo_image).

Lemma demo_binary_bytes : Forall byte demo_binary.
Proof. apply (bool_decide_unpack _). vm_compute. exact I. Qed.
Lemma demo_static : static_program demo_binary.
Proof.
  intros l Hl. assert (l = take 64 demo_binary) as -> by (vm_compute in Hl |- *; congruence).
  split_and!; [vm_compute; congruence|vm_compute; reflexivity|].
  intros hs h Hhs Hin Hp. vm_compute in Hhs. injection Hhs as <-. 
  rewrite !elem_of_cons, elem_of_nil in Hin. destruct Hin as [->|[->|[]]]; vm_compute in Hp; discriminate.
Qed.
Lemma demo_loadable : loadable (vm (mvm (im demo_image))).
Proof. constructor; vm_compute; intuition congruence. Qed.

Lemma elf_loader_loads_witness :
  (fst (elf_loader demo_binary demo_load_options demo_image) = Ok tt /\ heap_address demo_loaded = 0x400000) /\
  wp (elf_loader demo_binary demo_load_options)
    (fun _ s' => exists e phdrs, get_bytes demo_binary 0 sizeof_Ehdr = Ok e /\
       read_phdrs demo_binary (e_phoff (parse_ehdr e)) (Z.to_nat (e_phnum (parse_ehdr e))) = Ok phdrs /\
       Forall (placed demo_binary (vm (mvm (im demo_image))) (heap_of s')) phdrs /\
       outside_same (vm (mvm (im demo_image))) (heap_of demo_image) (heap_of s') /\
       m_start_address s' = e_entry (parse_ehdr e) /\ laid_out s')
    (fun e _ => defined_exn e) demo_image.
Proof.
  split; [split; vm_compute; reflexivity|].
  exact (elf_loader_loads demo_binary demo_load_options demo_image demo_loadable demo_binary_bytes demo_static).
Defined.

(** Words 0x200000, 0x200008 and 0x200018 are relocated. *)
Lemma relr_loop_decodes_witness :
  relr_ops 0x100000 [0x100000; 11] 0 =
    [Target "RELR relocation target out of bounds" 0x200000; Target "RELR relocation bitmap target out of bounds" 0x200008;
     Target "RELR relocation bitmap target out of bounds" 0x200018] /\
  relr_loop [0x100000; 11] 0 (set_image_base demo_loaded 0x100000) =
    for_each (relr_ops 0x100000 [0x100000; 11] 0) relr_exec (set_image_base demo_loaded 0x100000).
Proof.
  split; [vm_compute; reflexivity|].
  apply (relr_loop_decodes [0x100000; 11] (set_image_base demo_loaded 0x100000)). repeat constructor; unfold u64; lia.
Defined.

(** Program headers "at" 2^64 - 56: the test in [is_dynamic_elf] wraps around, and the headers
    are read from outside the binary, before [elf_loader] rejects them. *)
Example phdr_offset_wraps : fst (elf_loader (demo_ehdr (W64 - 56) 1 0) demo_load_options demo_image) = Err (Undefined "read outside the binary").
Proof. vm_compute. reflexivity. Qed.

(** [resolve] without an exact match: of the functions before the address it names the one that is
    farthest away. *)
Definition demo_symbols : list Z :=
  let sym name value := le_bytes 4 name ++ [2; 0; 0; 0] ++ le_bytes 8 value ++ le_bytes 8 4 in
  sym 0 0x1000 ++ sym 2 0x2000 ++ str "a" ++ [0] ++ str "b" ++ [0].
Example resolve_names_farthest : resolve_loop demo_symbols 48 0 2 0x2010 None = Ok (str "a + 0x1010").
Proof. vm_compute. reflexivity. Qed.

(** A loaded program is where the guest of [MemCalls] starts. *)
Lemma laid_out_guest_inv s os : maps (im s) = mkMM (MMapCache.set_current MMapCache.empty_cache (heap_address s)) (heap_address s) ->
  u64 (heap_address s) -> laid_out s -> m_stack_address s + BRK_MAX + 2 ^ 21 < W64 -> mem os = im s ->
  guest_inv (m_brk_address (im s)) (os, []).
Proof.
  intros Em Hu (H1&H2&H3&H4&H5) Hw Eos. unfold guest_inv, view_of. cbn [fst snd v_maps v_brk v_brk_end]. rewrite Eos, Em.
  split_and!; [apply (client_inv_fresh (heap_address s)); [done|unfold MMap.PageSize; dlia]|lia|rewrite H1, H2; unfold BRK_MAX in *; lia|].
  simpl. lia.
Qed.
