(* ===== verification/Identity.v ===== *)
(** * Copies on a machine that is not copy-on-write

    Before it is made forkable a machine runs on page tables in its own main memory that map a
    range of pages to themselves (amd64/paging.cpp, [setup_amd64_paging]).  On such a range
    [copy_to_guest] and [copy_from_guest] (machine_utils.cpp) are plain stores and loads: a copy
    never throws, changes exactly the bytes it is given, and can be read back.  Besides, only
    dirty bits of entries are set. *)
From stdpp Require Import base tactics list numbers strings gmap.
From Stdlib Require Import ZArith Lia Bool.
From S2P Require Import Prelude Host MemoryBanks VMemory Paging ForkIsolation MakeCow PageSetup Fork Cpu GuestCopy.
Local Open Scope Z_scope.

(** ** Identity-mapped pages *)

(** The host words of the range [lo, hi) of main memory are apart from the word at [p]. *)
Definition apart (m : vMemory) (lo hi p : Z) : bool :=
  (p mod 8 =? 0) && ((p + 8 <=? main_at m lo) || (main_at m lo + (hi - lo) <=? p)).

(** A present entry that a write goes through without copying. *)
Definition plain_entry (E : Z) : bool := any_bit E PDE64_PRESENT && negb (is_copy_on_write E).

(** The walk for the page [a] meets plain entries of tables in main memory, outside of the range,
    and ends at [a] itself, writable for the user. *)
Definition ident_page (m : vMemory) (lo hi : Z) (h : heap) (a : Z) : bool :=
  let ok t := within m t PAGE_SIZE in
  let p4 := main_at m (page_tables m) + 8 * index_from_pml4_entry a in
  let e4 := ld64 h p4 in
  let t3 := e4 .& not64 0xFFF in
  let p3 := main_at m t3 + 8 * index_from_pdpt_entry a in
  let e3 := ld64 h p3 in
  let t2 := e3 .& PDE64_ADDR_MASK in
  let p2 := main_at m t2 + 8 * index_from_pd_entry a in
  let e2 := ld64 h p2 in
  let t1 := e2 .& PDE64_ADDR_MASK in
  ok (page_tables m) && apart m lo hi p4 && plain_entry e4 && ok t3 && apart m lo hi p3 && plain_entry e3 &&
  ok t2 && apart m lo hi p2 && plain_entry e2 && ok t1 &&
  (if any_bit e2 PDE64_PS then
     is_flagged_page (expectedUsermodeFlags m) e2 && (main_at m t1 + index_from_pt_entry a * PAGE_SIZE =? main_at m a)
   else
     let p1 := main_at m t1 + 8 * index_from_pt_entry a in
     let e1 := ld64 h p1 in
     apart m lo hi p1 && plain_entry e1 && is_flagged_page (expectedUsermodeFlags m) e1 && ok a &&
     (e1 .& PDE64_ADDR_MASK =? a)).

(** A range of such pages in the part of main memory that programs use. *)
Record ident_region (lo hi : Z) (s : VM) : Prop := {
  ir_lo : lo mod 4096 = 0;
  ir_hi : hi mod 4096 = 0;
  ir_ptr : 0 < ptr (vm s) /\ ptr (vm s) + size (vm s) < 2 ^ 63;
  ir_phys : 0 <= physbase (vm s) /\ 0 <= size (vm s) /\ physbase (vm s) + size (vm s) < 2 ^ 63;
  ir_safe : physbase (vm s) <= safebase (vm s) /\ safebase (vm s) <= lo /\ hi <= physbase (vm s) + size (vm s);
  ir_pages : forall a, lo <= a < hi -> a mod 4096 = 0 -> ident_page (vm s) lo hi (h_heap (vhost s)) a = true }.

(** The byte at a guest address of main memory, and ranges of them. *)
Definition guest_byte (s : VM) (a : Z) : Z := ld8 (h_heap (vhost s)) (ptr (vm s) + (a - physbase (vm s))).

(** Entries of the tables may get their dirty bit. *)
Definition marked (E E' : Z) : Prop := E' = E \/ E' = E .| PDE64_DIRTY.
Definition tables_marked (m : vMemory) (lo hi : Z) (h h' : heap) : Prop :=
  forall p, apart m lo hi p = true -> marked (ld64 h p) (ld64 h' p).

Section marking.

Lemma marked_land E E' b : PDE64_DIRTY .& b = 0 -> marked E E' -> E' .& b = E .& b.
Proof. intros Hb [-> | ->]; [done|]. by rewrite Z.land_lor_distr_l, Hb, Z.lor_0_r. Qed.
Lemma marked_any_bit E E' b : PDE64_DIRTY .& b = 0 -> marked E E' -> any_bit E' b = any_bit E b.
Proof. intros. unfold any_bit. by rewrite (marked_land E E'). Qed.
Lemma marked_plain E E' : marked E E' -> plain_entry E' = plain_entry E.
Proof.
  intros. unfold plain_entry, is_copy_on_write. by rewrite (marked_any_bit E E'), (marked_land E E').
Qed.
Lemma marked_flagged m E E' : marked E E' ->
  is_flagged_page (expectedUsermodeFlags m) E' = is_flagged_page (expectedUsermodeFlags m) E.
Proof.
  intros. unfold is_flagged_page. rewrite (marked_land E E'); [done| |done].
  unfold expectedUsermodeFlags. by destruct (executable_heap m).
Qed.
Lemma marked_trans E1 E2 E3 : marked E1 E2 -> marked E2 E3 -> marked E1 E3.
Proof.
  intros [-> | ->] [-> | ->]; [by left|by right|by right|right]. by rewrite <- Z.lor_assoc, Z.lor_diag.
Qed.

Lemma tables_marked_refl m lo hi h : tables_marked m lo hi h h.
Proof. intros p _. by left. Qed.
Lemma tables_marked_trans m lo hi h1 h2 h3 :
  tables_marked m lo hi h1 h2 -> tables_marked m lo hi h2 h3 -> tables_marked m lo hi h1 h3.
Proof. intros H1 H2 p Hp. eapply marked_trans; [by apply H1|by apply H2]. Qed.

(** Dirty bits do not change a walk. *)
Lemma ident_page_marked m lo hi h h' a : tables_marked m lo hi h h' ->
  ident_page m lo hi h a = true -> ident_page m lo hi h' a = true.
Proof.
  intros Hm. unfold ident_page. rewrite !andb_true_iff. intros [[[[[[[[[[H4 A4] P4] H3] A3] P3] H2] A2] P2] H1] Hl].
  set (p4 := main_at m (page_tables m) + _) in *. pose proof (Hm p4 A4) as M4.
  rewrite (marked_land (ld64 h p4) (ld64 h' p4)) by done. set (p3 := main_at m (_ .& not64 0xFFF) + _) in *.
  pose proof (Hm p3 A3) as M3. rewrite (marked_land (ld64 h p3) (ld64 h' p3)) by done.
  set (p2 := main_at m (ld64 h p3 .& _) + _) in *. pose proof (Hm p2 A2) as M2.
  rewrite (marked_land (ld64 h p2) (ld64 h' p2)) by done. set (t1 := ld64 h p2 .& _) in *.
  rewrite (marked_plain _ _ M4), (marked_plain _ _ M3), (marked_plain _ _ M2), (marked_any_bit _ _ PDE64_PS eq_refl M2).
  split_and!; try done. destruct (any_bit (ld64 h p2) PDE64_PS).
  - by rewrite (marked_flagged m _ _ M2).
  - rewrite !andb_true_iff in Hl. destruct Hl as [[[[A1 P1] F1] K1] T1]. pose proof (Hm _ A1) as M1.
    rewrite (marked_plain _ _ M1), (marked_flagged m _ _ M1), (marked_land _ _ PDE64_ADDR_MASK eq_refl M1).
    by rewrite A1, P1, F1, K1, T1.
Qed.
End marking.

(** ** The page that a write gets *)

Section ident.
Context `{os : HostOS}.
Implicit Types (s : VM) (a : Z).

Lemma ident_writable lo hi s a o : ident_page (vm s) lo hi (h_heap (vhost s)) a = true ->
  exists ep sz, writable_page_at a (expectedUsermodeFlags (vm s)) o s = (Ok (mkWritablePage (main_at (vm s) a) ep sz), s) /\
    apart (vm s) lo hi ep = true.
Proof.
  unfold ident_page. rewrite !andb_true_iff. intros [[[[[[[[[[H4 A4] P4] H3] A3] P3] H2] A2] P2] H1] Hl].
  unfold plain_entry in P4, P3, P2. rewrite andb_true_iff, negb_true_iff in P4, P3, P2.
  destruct P4 as [P4 C4], P3 as [P3 C3], P2 as [P2 C2].
  unfold writable_page_at, resolve, rd, bind, get, gets, lift, ret. rewrite page_at_main by exact H4. cbn [fst snd].
  rewrite P4. unfold pdpt_from_index. rewrite page_at_main by exact H3. rewrite C4.
  unfold wpa_pdpt, resolve, rd, bind, get, gets, lift, ret. rewrite P3. unfold pd_from_index.
  rewrite page_at_main by exact H2. rewrite C3.
  unfold wpa_pd, resolve, rd, bind, get, gets, lift, ret.
  assert (forall E b, any_bit E PDE64_PRESENT = true -> any_bit E (PDE64_PRESENT .| b) = true) as Hor.
  { intros E b. unfold any_bit. rewrite !negb_true_iff, !Z.eqb_neq, Z.land_lor_distr_r. intros Hn Hz.
    apply Hn. by apply Z.lor_eq_0_iff in Hz as [? _]. }
  rewrite Hor by done. unfold pt_from_index. rewrite P2. rewrite page_at_main by exact H1. rewrite C2.
  change (not64 0x8000000000000FFF) with PDE64_ADDR_MASK.
  unfold wpa_pd_settled, resolve, rd, bind, get, gets, lift, ret.
  destruct (any_bit _ PDE64_PS).
  - rewrite andb_true_iff, Z.eqb_eq in Hl. destruct Hl as [Hf Hp]. rewrite Hf. cbn [negb]. rewrite page_at_main by exact H1.
    rewrite Hp. eauto.
  - rewrite !andb_true_iff, Z.eqb_eq in Hl. destruct Hl as [[[[A1 P1] F1] K1] T1].
    unfold plain_entry in P1. rewrite andb_true_iff, negb_true_iff in P1. destruct P1 as [P1 C1].
    unfold wpa_pt, resolve, rd, bind, get, gets, lift, ret. rewrite Hor by done.
    rewrite P1.
    change (not64 0x8000000000000FFF) with PDE64_ADDR_MASK. rewrite T1, page_at_main by exact K1. rewrite C1, F1. eauto.
Qed.

(** The bytes [l] have been stored at [a]; besides, dirty bits. *)
Definition written (lo hi : Z) (s s' : VM) (a : Z) (l : list Z) : Prop :=
  (exists h, s' = with_heap s h /\ tables_marked (vm s) lo hi (h_heap (vhost s)) h) /\
  forall b, lo <= b < hi ->
    guest_byte s' b = if decide (a <= b < a + Z.of_nat (length l)) then nth (Z.to_nat (b - a)) l 0 else guest_byte s b.

Lemma ident_region_heap lo hi s h : ident_region lo hi s -> tables_marked (vm s) lo hi (h_heap (vhost s)) h ->
  ident_region lo hi (with_heap s h).
Proof.
  intros [] Hm. constructor; try done. intros a Ha Hal. eapply ident_page_marked; [exact Hm|]. by apply ir_pages0.
Qed.
Lemma written_region lo hi s s' a l : ident_region lo hi s -> written lo hi s s' a l -> ident_region lo hi s'.
Proof. intros Hr [(h&->&Hm) _]. by apply ident_region_heap. Qed.

Lemma main_at_ident lo hi s a : ident_region lo hi s -> lo <= a <= hi -> main_at (vm s) a = ptr (vm s) + (a - physbase (vm s)).
Proof.
  intros [] Ha. unfold main_at, add64, sub64, wrap64.
  rewrite (Z.mod_small (a - physbase (vm s))) by lia. rewrite Z.mod_small by lia. done.
Qed.

Lemma apart_byte lo hi s p b : ident_region lo hi s -> apart (vm s) lo hi p = true -> lo <= b < hi ->
  (ptr (vm s) + (b - physbase (vm s))) / 8 <> p / 8.
Proof.
  intros Hr. unfold apart. rewrite andb_true_iff, orb_true_iff, Z.eqb_eq, !Z.leb_le.
  intros [Hal Hp] Hb Heq. rewrite (main_at_ident lo hi s lo) in Hp by (done || lia). dlia.
Qed.

Lemma copy_chunk_ident lo hi s data z c a : ident_region lo hi s -> Forall byte data ->
  ck_page c mod 4096 = 0 -> lo <= ck_page c < hi -> 0 <= ck_offset c -> 0 < ck_size c -> ck_offset c + ck_size c <= 4096 ->
  0 <= ck_pos c -> ck_pos c + ck_size c <= Z.of_nat (length data) -> a = ck_page c + ck_offset c ->
  wp (copy_chunk_to data z c) (fun _ s' => written lo hi s s' a (slice data c)) (fun _ _ => False) s.
Proof.
  intros Hr Hd Hpg Hin Ho Hs Hf Hp Hl ->. unfold copy_chunk_to. wp_step. wp_step.
  destruct (ident_writable lo hi s (ck_page c) (mkWPO z (ck_size c =? PAGE_SIZE))) as (ep&sz&Hw&Hep); [by apply ir_pages|].
  wp_step. unfold wp at 1. rewrite Hw. wp_step. unfold set_dirty. cbn [wp_entry wp_page]. wp_step. apply wp_rd. apply wp_wr. apply wp_on_pages.
  set (l := slice data c). assert (Z.of_nat (length l) = ck_size c) as Elen.
  { unfold l, slice. rewrite length_take, length_drop. lia. }
  rewrite (main_at_ident lo hi s) by (done || lia). cbn [with_heap vhost h_heap vm].
  set (h1 := st64 _ ep _). set (p := ptr (vm s) + (ck_page c - physbase (vm s)) + ck_offset c).
  assert (tables_marked (vm s) lo hi (h_heap (vhost s)) (store_bytes h1 p l)) as Hm.
  { intros q Hq. assert (aligned8 q) as Hq8 by (unfold apart, aligned8 in *; lia).
    rewrite ld64_store_bytes_other; [|done|].
    - unfold h1. destruct (decide (q = ep)) as [->|Hne]; [right; by rewrite ld64_st64_same|left].
      apply ld64_st64_other; [unfold apart, aligned8 in *; lia|done|done].
    - unfold apart in Hq. rewrite (main_at_ident lo hi s lo) in Hq by (done || lia). rewrite Elen.
      pose proof (ir_lo _ _ _ Hr). pose proof (ir_hi _ _ _ Hr). 
      assert (ck_page c + 4096 <= hi) by dlia. unfold p. lia. }
  split; [by exists (store_bytes h1 p l)|].
  intros b Hb. unfold guest_byte. cbn [with_heap vhost h_heap vm]. rewrite ld8_store_bytes, Elen.
  destruct (decide (p <= _ < _)) as [Hc|Hc]; unfold p in Hc.
  - rewrite decide_True by lia. unfold p.
    replace (ptr (vm s) + (b - physbase (vm s)) - (ptr (vm s) + (ck_page c - physbase (vm s)) + ck_offset c))
      with (b - (ck_page c + ck_offset c)) by lia. apply Z.mod_small.
    assert (Forall byte l) as Hbl by (by apply Forall_take, Forall_drop). rewrite Forall_forall in Hbl. apply Hbl, list_elem_of_In, nth_In. lia.
  - rewrite decide_False by lia. unfold h1, ld8, ld64, st64. rewrite lookup_insert_ne; [done|].
    intros E. by apply (apart_byte lo hi s ep b).
Qed.

Lemma written_trans lo hi s1 s2 s3 a l1 l2 : written lo hi s1 s2 a l1 -> written lo hi s2 s3 (a + Z.of_nat (length l1)) l2 ->
  written lo hi s1 s3 a (l1 ++ l2).
Proof.
  intros [(h1&->&M1) B1] [(h2&->&M2) B2]. split; [exists h2; split; [done|by eapply tables_marked_trans]|].
  intros b Hb. rewrite B2, length_app by done. destruct (decide (a + _ <= b < _)) as [Hc|Hc].
  - rewrite decide_True by lia. rewrite app_nth2 by lia. f_equal. lia.
  - rewrite B1 by done. destruct (decide (a <= b < a + Z.of_nat (length l1))); [|by rewrite decide_False by lia].
    rewrite decide_True by lia. rewrite app_nth1 by lia. done.
Qed.

Lemma copy_chunks_ident lo hi data z n : Forall byte data -> forall s a len pos, ident_region lo hi s ->
  lo <= a -> a + len <= hi -> 0 <= len -> (Z.to_nat len <= n)%nat -> 0 <= pos -> pos + len = Z.of_nat (length data) ->
  wp (for_each (chunks n a len pos) (copy_chunk_to data z))
    (fun _ s' => written lo hi s s' a (drop (Z.to_nat pos) data)) (fun _ _ => False) s.
Proof.
  intros Hd. induction n as [|n IH]; intros s a len pos Hr Ha Hh Hl Hn Hp Hend; cbn [chunks].
  { rewrite drop_ge by lia. apply wp_ret. split; [exists (h_heap (vhost s)); split; [|apply tables_marked_refl]; by destruct s as [[] ?]|].
    intros b Hb. rewrite decide_False by (simpl; lia). done. }
  destruct (len =? 0) eqn:E.
  { rewrite drop_ge by lia. apply wp_ret. split; [exists (h_heap (vhost s)); split; [|apply tables_marked_refl]; by destruct s as [[] ?]|].
    intros b Hb. rewrite decide_False by (simpl; lia). done. }
  pose proof (first_size a len) as Hf. set (sz := Z.min _ len) in *. cbn [for_each]. wp_step.
  assert (u64 a) as Hu by (destruct Hr; unfold u64; lia). pose proof (page_offset a Hu) as Hpo.
  pose proof (Z.mod_pos_bound a 4096) as Hm. rewrite <- offset_of_mod in Hm.
  pose proof (ir_lo _ _ _ Hr). assert (page_of a mod 4096 = 0) by (rewrite page_of_div by done; dlia).
  eapply wp_mono; [apply (copy_chunk_ident lo hi s data z _ a); simpl; try done; unfold sz, PAGE_SIZE in *; try lia| |done].
  { rewrite page_of_div in * by done. dlia. }
  intros ? s1 Hw. cbn beta in Hw. remember (slice _ _) as l1 eqn:Hl1 in Hw. assert (Z.of_nat (length l1) = sz) as El.
  { subst l1. unfold slice. simpl. rewrite length_take, length_drop. lia. }
  assert (a ⊕ sz = a + sz) as -> by (apply add64_small; destruct Hr; unfold u64; lia).
  eapply wp_mono; [apply IH; [by eapply written_region|lia..]| |done].
  intros ? s2 Hw2. cbn beta in Hw2. replace (drop (Z.to_nat pos) data) with (l1 ++ drop (Z.to_nat (pos + sz)) data).
  - eapply written_trans; [exact Hw|]. by rewrite El.
  - subst l1. unfold slice. simpl. rewrite Z2Nat.inj_add, <- drop_drop by lia. apply take_drop.
Qed.

(** Copying to the range stores exactly the data. *)
Lemma copy_to_ident lo hi s a data z : ident_region lo hi s -> Forall byte data ->
  lo <= a -> a + Z.of_nat (length data) <= hi ->
  wp (copy_to_guest a data z) (fun _ s' => written lo hi s s' a data) (fun _ _ => False) s.
Proof.
  intros. unfold copy_to_guest, page_chunks. eapply wp_mono; [apply copy_chunks_ident; (done || lia)|done|done].
Qed.

(** Copying from the range loads the bytes. *)
Lemma copy_from_ident lo hi s a n : ident_region lo hi s -> uses_cow_memory (vm s) = false -> lo <= a -> a + Z.of_nat n <= hi ->
  copy_from_guest a (Z.of_nat n) s = (Ok (load_bytes (h_heap (vhost s)) (ptr (vm s) + (a - physbase (vm s))) n), s).
Proof.
  intros Hr Hc Ha Hh. assert (safely_within (vm s) a (Z.of_nat n) = true) as Hs.
  { unfold safely_within. destruct Hr. rewrite !add64_small by (unfold u64; lia). lia. }
  unfold copy_from_guest, bytes_at, bind, get, gets, lift. rewrite Hc, Hs. cbn [orb negb].
  assert (safely_at_const (vm s) a (Z.of_nat n) = Ok (main_at (vm s) a)) as ->.
  { destruct (vm s). cbn [safely_at_const] in *. by rewrite Hs. }
  rewrite (main_at_ident lo hi s) by (done || lia). by rewrite Nat2Z.id.
Qed.
End ident.
