(* ===== verification/Env.v ===== *)
(** * The initial stack and calls into the guest

    lib/tinykvm/machine_env.cpp: the arguments, environment and auxiliary vector of a Linux
    program.  The stack operations of machine.cpp ([stack_push], [stack_push_cstr],
    [setup_registers]) and the calls of machine_inline.hpp ([setup_call], [prepare_vmresume],
    [setup_clone]), with [enter_usermode] (vcpu.cpp) and the entry points of amd64/usercode.hpp.

    The random bytes of the canary and the host's auxiliary vector are parameters. *)
From stdpp Require Import base tactics list numbers strings gmap.
From Stdlib Require Import ZArith Lia Bool.
From S2P Require Import Prelude MMap Host MemoryBanks VMemory Paging ForkIsolation MakeCow PageSetup Fork Cpu Fds FdCalls GuestCopy MemCalls Elf Identity.
Import MachineMaps.
Local Open Scope Z_scope.

(** ** The vCPU, as far as calls set it up *)

Record Vcpu := mkVcpu { v_regs : x86regs; cs_selector : Z; cs_dpl : Z; ss_selector : Z; ss_dpl : Z }.
Record Proc := mkProc { image : Image; m_just_reset : bool; vcpu : Vcpu }.

Definition zero_regs : x86regs := mkRegs 0 0 0 0 0 0 0 0 0 0 0 0 0 0 0 0 0 0.

Definition usercode_entry : Z := 0x10.
Definition usercode_rexit : Z := 0x20.
Definition usercode_preserving_entry : Z := 0x2c.
Definition usercode_remote_disconnect : Z := 0x3e.
Definition usercode_cpuid : Z := 0x50.
Definition translated (m : vMemory) (offset : Z) : Z := physbase m ⊕ USER_ASM_ADDR ⊕ offset.
Definition entry_address (m : vMemory) : Z := translated m usercode_entry.
Definition preserving_entry_address (m : vMemory) : Z := translated m usercode_preserving_entry.
Definition exit_address (m : vMemory) : Z := translated m usercode_rexit.

(** [regs.rflags = 2 | (3 << 12)] *)
Definition user_rflags : Z := 2 .| Z.shiftl 3 12.

Definition put_regs (f : x86regs -> x86regs) : M Proc unit :=
  modify (fun s => mkProc (image s) (m_just_reset s)
    (mkVcpu (f (v_regs (vcpu s))) (cs_selector (vcpu s)) (cs_dpl (vcpu s)) (ss_selector (vcpu s)) (ss_dpl (vcpu s)))).
Definition set_just_reset (b : bool) : M Proc unit := modify (fun s => mkProc (image s) b (vcpu s)).
Definition on_image {A} (m : M Image A) : M Proc A :=
  fun s => let (r, i) := m (image s) in (r, mkProc i (m_just_reset s) (vcpu s)).

Definition set_rip (r : x86regs) (v : Z) : x86regs :=
  mkRegs (rax r) (rbx r) (rcx r) (rdx r) (rsi r) (rdi r) (rsp r) (rbp r)
    (r8 r) (r9 r) (r10 r) (r11 r) (r12 r) (r13 r) (r14 r) (r15 r) v (rflags r).
Definition set_rflags (r : x86regs) (v : Z) : x86regs :=
  mkRegs (rax r) (rbx r) (rcx r) (rdx r) (rsi r) (rdi r) (rsp r) (rbp r)
    (r8 r) (r9 r) (r10 r) (r11 r) (r12 r) (r13 r) (r14 r) (r15 r) (rip r) v.
Definition set_r15 (r : x86regs) (v : Z) : x86regs :=
  mkRegs (rax r) (rbx r) (rcx r) (rdx r) (rsi r) (rdi r) (rsp r) (rbp r)
    (r8 r) (r9 r) (r10 r) (r11 r) (r12 r) (r13 r) (r14 r) v (rip r) (rflags r).
Definition set_rbp (r : x86regs) (v : Z) : x86regs :=
  mkRegs (rax r) (rbx r) (rcx r) (rdx r) (rsi r) (rdi r) (rsp r) v
    (r8 r) (r9 r) (r10 r) (r11 r) (r12 r) (r13 r) (r14 r) (r15 r) (rip r) (rflags r).

Definition enter_usermode : M Proc unit :=
  modify (fun s => if cs_dpl (vcpu s) =? 0 then mkProc (image s) (m_just_reset s) (mkVcpu (v_regs (vcpu s)) 0x2B 3 0x23 3) else s).

Section env.
Context `{os : HostOS}.

(** ** Pushing data *)

(** [sp &= ~0x7] and [rsp &= ~0xF] *)
Definition align8_down (sp : Z) : Z := sp .& not64 7.
Definition align16_down (sp : Z) : Z := sp .& not64 0xF.
Definition blen (l : list Z) : Z := Z.of_nat (length l).

Definition stack_push (sp : Z) (data : list Z) : M Image Z :=
  let sp := align8_down (sp ⊖ blen data) in
  on_memory (copy_to_guest sp data true) ;;; ret sp.

(** [stack_push_cstr(sp, string, length)]: [string] is the buffer the pointer points into. *)
Definition stack_push_cstr (sp : Z) (string : list Z) (length : Z) : M Image Z :=
  let sp := align8_down (sp ⊖ (length ⊕ 1)) in
  match string !! Z.to_nat length with
  | None => throw (Undefined "read past the end of the string")
  | Some c =>
      (if c =? 0 then on_memory (copy_to_guest sp (take (Z.to_nat (length + 1)) string) true)
       else
         on_memory (copy_to_guest sp (take (Z.to_nat length) string) true) ;;;
         on_memory (copy_to_guest (sp ⊕ length) [0] true)) ;;;
      ret sp
  end.

(** A vector of 64-bit values in memory. *)
Definition words (l : list Z) : list Z := concat (map (le_bytes 8) l).

(** ** Arguments of a program *)

Fixpoint push_strings (sp : Z) (strings : list (list Z)) (vec : list Z) : M Image (Z * list Z) :=
  match strings with
  | [] => ret (sp, vec)
  | str :: strings' =>
      let! sp := stack_push sp (str ++ [0]) in
      push_strings sp strings' (vec ++ [sp])
  end.

(** [setup_argv(rsp, args, env)]; returns the new stack pointer. *)
Definition setup_argv (rsp : Z) (args env : list (list Z)) : M Image Z :=
  let argv := [Z.of_nat (length args)] in
  let! (rsp, argv) := push_strings rsp args argv in
  let argv := argv ++ [0] in
  let! (rsp, argv) := push_strings rsp env argv in
  let argv := argv ++ [0] in
  let argsize := 8 * Z.of_nat (length argv) in
  let rsp := align16_down (rsp ⊖ argsize) in
  on_memory (copy_to_guest rsp (words argv) false) ;;;
  ret rsp.

(** *** [setup_linux] *)

(** The host's auxiliary vector, and which of AT_HWCAP3 and AT_HWCAP4 its headers define. *)
Context (getauxval : Z -> Z) (hwcap_keys : list Z).

Definition push_down (dst : Z) (data : list Z) : M Image Z :=
  let dst := align8_down (dst ⊖ blen data) in
  on_memory (copy_to_guest dst data false) ;;; ret dst.

Definition push_arg (vec : list Z) (dst : Z) (str : list Z) : M Image (list Z * Z) :=
  let dst := align8_down (dst ⊖ (blen str + 1)) in
  on_memory (copy_to_guest dst (str ++ [0]) false) ;;;
  ret (vec ++ [dst], dst).
Fixpoint push_args (vec : list Z) (dst : Z) (strings : list (list Z)) : M Image (list Z * Z) :=
  match strings with
  | [] => ret (vec, dst)
  | str :: strings' =>
      let! (vec, dst) := push_arg vec dst str in
      push_args vec dst strings'
  end.

Definition push_aux (vec : list Z) (aux : Z * Z) : list Z := vec ++ [fst aux; snd aux].

Definition AT_NULL : Z := 0.
Definition AT_PHDR : Z := 3.
Definition AT_PHENT : Z := 4.
Definition AT_PHNUM : Z := 5.
Definition AT_PAGESZ : Z := 6.
Definition AT_BASE : Z := 7.
Definition AT_ENTRY : Z := 9.
Definition AT_PLATFORM : Z := 15.
Definition AT_HWCAP : Z := 16.
Definition AT_HWCAP2 : Z := 26.
Definition AT_RANDOM : Z := 25.

(** The auxiliary vector in the order the code pushes it. *)
Definition auxv (phdr phnum base entry platform canary : Z) : list (Z * Z) :=
  let host key := (key, getauxval key) in
  [(AT_PAGESZ, PAGE_SIZE); (17, 100); (AT_PHDR, phdr); (AT_PHENT, sizeof_Phdr); (AT_PHNUM, phnum);
   (AT_BASE, base); (AT_ENTRY, entry); host AT_HWCAP; host AT_HWCAP2] ++ map host hwcap_keys ++
  [(11, 1000); (12, 0); (13, 0); (14, 0); (23, 0); (AT_PLATFORM, platform); host 51;
   host 19; host 20; host 43; host 42; host 41; host 40; host 45; host 44; host 47; host 46; host 21;
   (AT_RANDOM, canary); (AT_NULL, 0)].

(** The loop that looks for a PT_PHDR header. *)
Fixpoint find_phdr (bin : list Z) (off image_base : Z) (n : nat) : result Z :=
  match n with
  | O => Ok 0
  | S n' =>
      match get_bytes bin off sizeof_Phdr with
      | Err e => Err e
      | Ok l => if p_type (parse_phdr l) =? PT_PHDR then Ok (image_base ⊕ p_vaddr (parse_phdr l))
                else find_phdr bin (off + sizeof_Phdr) image_base n'
      end
  end.

Definition platform_name : list Z := [120; 56; 54; 95; 54; 52; 0].  (* x86_64 *)

Definition setup_linux (canary : list Z) (rsp : Z) (args env : list (list Z)) : M Image Z :=
  let! dst := push_down rsp canary in
  let canary_addr := dst in
  let! dst := push_down dst platform_name in
  let platform_addr := dst in
  let! s := get in
  let! eh := lift (elf_offset (m_binary s) 0 sizeof_Ehdr) in
  let binary_ehdr := parse_ehdr eh in
  let! _ := lift (elf_offset (m_binary s) (e_phoff binary_ehdr) sizeof_Phdr) in
  let phdr_count := e_phnum binary_ehdr in
  let! found := lift (find_phdr (m_binary s) (e_phoff binary_ehdr) (m_image_base s) (Z.to_nat phdr_count)) in
  let! (phdr_location, dst) :=
    (if found =? 0 then
       let dst := align16_down (dst ⊖ phdr_count * sizeof_Phdr) in
       let! data := lift (get_bytes (m_binary s) (e_phoff binary_ehdr) (phdr_count * sizeof_Phdr)) in
       on_memory (copy_to_guest dst data false) ;;;
       ret (dst, dst)
     else ret (found, dst)) in
  let! (argv, dst) := push_args [Z.of_nat (length args)] dst args in
  let argv := argv ++ [0] in
  let! (argv, dst) := push_args argv dst env in
  let argv := argv ++ [0] in
  let entry_address := m_image_base s ⊕ e_entry binary_ehdr in
  let base_address := entry_address .& not64 0xFFFFFF in
  let argv := fold_left push_aux (auxv phdr_location phdr_count base_address entry_address platform_addr canary_addr) argv in
  let argsize := 8 * Z.of_nat (length argv) in
  let dst := align16_down (dst ⊖ argsize) in
  on_memory (copy_to_guest dst (words argv) false) ;;;
  ret dst.

(** [setup_registers(regs)] *)
Definition setup_registers (s : Image) (r : x86regs) : x86regs :=
  set_rsp (set_rip (set_rflags r user_rflags) (m_start_address s)) (m_stack_address s).

(** The overloads that start from fresh registers. *)
Definition setup_linux_regs (canary : list Z) (args env : list (list Z)) : M Proc unit :=
  let! s := get in
  put_regs (fun _ => setup_registers (image s) zero_regs) ;;;
  let! s := get in
  let! sp := on_image (setup_linux canary (rsp (v_regs (vcpu s))) args env) in
  put_regs (fun r => set_rsp r sp).
(** Here the registers are a local variable, stored at the end. *)
Definition setup_argv_regs (args env : list (list Z)) : M Proc unit :=
  let! s := get in
  let r := setup_registers (image s) zero_regs in
  let! sp := on_image (setup_argv (rsp r) args env) in
  put_regs (fun _ => set_rsp r sp).

(** ** Calls *)

(** An argument of [vmcall]: an integer, a [std::string] or C string, or a structure. *)
Inductive VmArg := IntArg (v : Z) | StringArg (s : list Z) | PodArg (bytes : list Z).

(** The register of the argument with this number. *)
Definition set_arg (n : nat) (v : Z) (r : x86regs) : option x86regs :=
  match n with
  | 0%nat => Some (mkRegs (rax r) (rbx r) (rcx r) (rdx r) (rsi r) v (rsp r) (rbp r) (r8 r) (r9 r) (r10 r) (r11 r) (r12 r) (r13 r) (r14 r) (r15 r) (rip r) (rflags r))
  | 1%nat => Some (mkRegs (rax r) (rbx r) (rcx r) (rdx r) v (rdi r) (rsp r) (rbp r) (r8 r) (r9 r) (r10 r) (r11 r) (r12 r) (r13 r) (r14 r) (r15 r) (rip r) (rflags r))
  | 2%nat => Some (mkRegs (rax r) (rbx r) (rcx r) v (rsi r) (rdi r) (rsp r) (rbp r) (r8 r) (r9 r) (r10 r) (r11 r) (r12 r) (r13 r) (r14 r) (r15 r) (rip r) (rflags r))
  | 3%nat => Some (set_rcx r v)
  | 4%nat => Some (mkRegs (rax r) (rbx r) (rcx r) (rdx r) (rsi r) (rdi r) (rsp r) (rbp r) v (r9 r) (r10 r) (r11 r) (r12 r) (r13 r) (r14 r) (r15 r) (rip r) (rflags r))
  | 5%nat => Some (mkRegs (rax r) (rbx r) (rcx r) (rdx r) (rsi r) (rdi r) (rsp r) (rbp r) (r8 r) v (r10 r) (r11 r) (r12 r) (r13 r) (r14 r) (r15 r) (rip r) (rflags r))
  | _ => None
  end.
Definition get_arg (n : nat) (r : x86regs) : Z := nth n [rdi r; rsi r; rdx r; rcx r; r8 r; r9 r] 0.

(** [stack_push(regs.rsp, ...)] *)
Definition push_rsp (data : list Z) : M Proc Z :=
  let! s := get in
  let! sp := on_image (stack_push (rsp (v_regs (vcpu s))) data) in
  put_regs (fun r => set_rsp r sp) ;;;
  ret sp.

Fixpoint push_call_args (iargs : nat) (args : list VmArg) : M Proc unit :=
  match args with
  | [] => ret tt
  | arg :: args' =>
      match set_arg iargs 0 zero_regs with
      | None => throw (MachineException "Too many vmcall arguments" 0)
      | Some _ =>
          let! v := (match arg with
                     | IntArg v => ret (wrap64 v)
                     | StringArg str => push_rsp (str ++ [0])
                     | PodArg bytes => push_rsp bytes
                     end) in
          put_regs (fun r => default r (set_arg iargs v r)) ;;;
          push_call_args (S iargs) args'
      end
  end.

Definition setup_call (addr sp : Z) (args : list VmArg) : M Proc unit :=
  let! s := get in
  let m := vm (mvm (im (image s))) in
  put_regs (fun _ => set_rflags zero_regs user_rflags) ;;;
  (if m_just_reset s then
     set_just_reset false ;;;
     put_regs (fun r => set_rip (set_r15 r addr) (entry_address m))
   else put_regs (fun r => set_rip r addr)) ;;;
  put_regs (fun r => set_rsp r sp) ;;;
  push_call_args 0 args ;;;
  put_regs (fun r => set_rsp r (align16_down (rsp r))) ;;;
  let! _ := push_rsp (le_bytes 8 (exit_address m)) in
  enter_usermode.

(** [prepare_vmresume(fsbase, reload_pagetables)] *)
Definition prepare_vmresume (fsbase : Z) (reload_pagetables : bool) : M Proc unit :=
  put_regs (fun r => set_rsp r (rsp r ⊖ 40)) ;;;
  let! s := get in
  let r := v_regs (vcpu s) in
  on_image (on_memory (copy_to_guest (rsp r) (words [r11 r; rcx r; fsbase; rax r; rip r]) false)) ;;;
  put_regs (fun r => set_rip (set_rax r (if reload_pagetables then 0x1F777 else 0x1F707))
    (preserving_entry_address (vm (mvm (im (image s)))))).

(** The part of [vmresume] before the vCPU runs. *)
Definition vmresume_setup : M Proc unit :=
  let! s := get in
  when (m_just_reset s) (set_just_reset false ;;; prepare_vmresume 0 true) ;;;
  enter_usermode.

Definition setup_clone (m : vMemory) (r : x86regs) (stack : Z) : x86regs :=
  set_rsp (set_rbp (set_rip (set_r15 (set_rflags r user_rflags) (rip r)) (entry_address m)) 0) stack.
End env.

(** ** What is on the stack *)

(** The guest, or the machine for it, reads the bytes [l] at [a]. *)
Definition reads (s : VM) (a : Z) (l : list Z) : Prop := copy_from_guest a (Z.of_nat (length l)) s = (Ok l, s).
(** A string argument: bytes and a terminator. *)
Definition string_at (s : VM) (p : Z) (str : list Z) : Prop := reads s p (str ++ [0]).

Definition stored (s : VM) (a : Z) (l : list Z) : Prop :=
  forall i, (i < length l)%nat -> guest_byte s (a + Z.of_nat i) = nth i l 0.

(** The stack between [dst] and [top] holds the blocks; above [top] it is as in [s0]. *)
Record stack_state (lo hi top : Z) (s0 s : VM) (dst : Z) (blocks : list (Z * list Z)) : Prop := {
  ss_region : ident_region lo hi s;
  ss_vm : vm s = vm s0;
  ss_range : lo <= dst <= top /\ top <= hi;
  ss_blocks : Forall (fun b => dst <= fst b /\ fst b + blen (snd b) <= top /\ stored s (fst b) (snd b)) blocks;
  ss_above : forall b, top <= b < hi -> guest_byte s b = guest_byte s0 b }.

Definition with_vm (s : Image) (v : VM) : Image :=
  mkImage (mkMachine v (maps (im s)) (m_brk_address (im s)) (m_brk_end_address (im s)) (m_relocate_fixed_mmap (im s)))
    (m_binary s) (m_image_base s) (m_start_address s) (m_stack_address s).

Section stack.
Context `{os : HostOS}.
Context (lo hi top : Z) (s0 : VM).
Notation stack_state := (stack_state lo hi top s0).

Lemma stack_start : ident_region lo hi s0 -> lo <= top <= hi -> stack_state s0 top [].
Proof. intros. constructor; try done; lia. Qed.

Lemma stored_reads s a l : ident_region lo hi s -> uses_cow_memory (vm s) = false -> lo <= a -> a + blen l <= hi ->
  stored s a l -> reads s a l.
Proof.
  intros Hr Hc Ha Hh Hs. unfold reads. rewrite (copy_from_ident lo hi) by done. f_equal. f_equal.
  apply (nth_ext _ _ 0 0); rewrite length_load_bytes; [done|]. intros i Hi. rewrite nth_load_bytes by done.
  rewrite <- Hs by done. unfold guest_byte. f_equal. lia.
Qed.
Lemma block_reads s dst blocks a l : stack_state s dst blocks -> uses_cow_memory (vm s0) = false -> (a, l) ∈ blocks -> reads s a l.
Proof.
  intros Hs Hc Hin. pose proof (ss_blocks _ _ _ _ _ _ _ Hs) as Hb. rewrite Forall_forall in Hb.
  destruct (Hb _ Hin) as (H1&H2&H3). simpl in *. pose proof (ss_range _ _ _ _ _ _ _ Hs).
  apply stored_reads; [apply Hs|by rewrite (ss_vm _ _ _ _ _ _ _ Hs)|lia|lia|done].
Qed.

(** Data copied below the blocks is one more block. *)
Lemma push_block s dst blocks a data z : stack_state s dst blocks -> Forall byte data ->
  lo <= a -> a + blen data <= dst ->
  wp (copy_to_guest a data z) (fun _ s' => stack_state s' a ((a, data) :: blocks)) (fun _ _ => False) s.
Proof.
  intros [Hr Ev Hrg Hb Hab] Hd Ha Hl. eapply wp_mono; [apply (copy_to_ident lo hi); (done || unfold blen in *; lia)| |done].
  intros [] s' Hw. pose proof (written_region _ _ _ _ _ _ Hr Hw) as Hr'. destruct Hw as [(h&->&Hm) Hby]. unfold blen in *.
  constructor; [done|done|lia| |].
  - constructor.
    + simpl. split_and!; [lia|unfold blen in *; lia|]. intros i Hi. rewrite Hby by lia. rewrite decide_True by lia. f_equal. lia.
    + eapply Forall_impl; [exact Hb|]. simpl. intros [b l] (H1&H2&H3). simpl in *. split_and!; [lia|done|].
      intros i Hi. unfold blen in *. rewrite Hby by lia. rewrite decide_False by lia. by apply H3.
  - intros b Hb'. rewrite Hby, decide_False by lia. by apply Hab.
Qed.

Lemma wp_on_memory {A} (m : M VM A) (Q : A -> Image -> Prop) (X : exn -> Image -> Prop) s :
  wp m (fun a v => Q a (with_vm s v)) (fun e v => X e (with_vm s v)) (mvm (im s)) -> wp (on_memory m) Q X s.
Proof. unfold wp, on_memory, on_machine, on_vm. by destruct (m _) as [[] ?]. Qed.

(** Aligning moves the pointer down by less than the alignment. *)
Lemma align8_down_spec x : u64 x -> x - 8 < align8_down x <= x /\ align8_down x mod 8 = 0.
Proof. intros Hx. unfold align8_down. change 7 with (2 ^ 3 - 1). rewrite land_not_ones by (done || lia). change (2 ^ 3) with 8. dlia. Qed.
Lemma align16_down_spec x : u64 x -> x - 16 < align16_down x <= x /\ align16_down x mod 16 = 0.
Proof. intros Hx. unfold align16_down. change 0xF with (2 ^ 4 - 1). rewrite land_not_ones by (done || lia). change (2 ^ 4) with 16. dlia. Qed.

(** The state of the image between pushes: nothing but the memory has changed. *)
Definition pushed (i0 : Image) (dst : Z) (blocks : list (Z * list Z)) (s : Image) : Prop :=
  stack_state (mvm (im s)) dst blocks /\ s = with_vm i0 (mvm (im s)).

Lemma with_vm_twice s v w : with_vm (with_vm s v) w = with_vm s w.
Proof. done. Qed.
Lemma pushed_start i0 : mvm (im i0) = s0 -> ident_region lo hi s0 -> lo <= top <= hi -> pushed i0 top [] i0.
Proof. intros E Hr Ht. split; [rewrite E; by apply stack_start|]. destruct i0 as [[] ? ? ? ?]. done. Qed.

Lemma push_pushed i0 s dst blocks a data z (Q : unit -> Image -> Prop) X : pushed i0 dst blocks s -> Forall byte data ->
  lo <= a -> a + blen data <= dst -> (forall s', pushed i0 a ((a, data) :: blocks) s' -> Q tt s') ->
  wp (on_memory (copy_to_guest a data z)) Q X s.
Proof.
  intros [Hs ->] Hd Ha Hl HQ. apply wp_on_memory. eapply wp_mono; [by eapply push_block| |done].
  intros [] v Hv. apply HQ. by split.
Qed.

(** Where a pushed block lands. *)
Lemma below dst n : 0 <= lo -> hi <= 2 ^ 63 -> dst <= hi -> 0 <= n -> lo + n <= dst -> u64 (dst ⊖ n) /\ dst ⊖ n = dst - n.
Proof. intros. rewrite sub64_small by (unfold u64; lia). unfold u64. lia. Qed.

Lemma pushed_range i0 dst blocks s : pushed i0 dst blocks s -> 0 <= lo <= dst /\ dst <= top <= hi /\ hi < 2 ^ 63.
Proof. intros [[Hr _ Hd _ _] _]. destruct Hr. lia. Qed.

Definition str_room (strings : list (list Z)) : Z := Z.of_nat (sum_list_with (fun str => length str + 8)%nat strings).

(** Pushing one string, with either [zeroes] option. *)
Lemma push_one i0 s dst blocks str z (Q : unit -> Image -> Prop) X : pushed i0 dst blocks s -> Forall byte str ->
  lo + blen str + 8 <= dst ->
  (forall a s', a = align8_down (dst ⊖ (blen str + 1)) -> pushed i0 a ((a, str ++ [0]) :: blocks) s' -> dst - (blen str + 8) <= a -> Q tt s') ->
  wp (on_memory (copy_to_guest (align8_down (dst ⊖ (blen str + 1))) (str ++ [0]) z)) Q X s.
Proof.
  intros Hp Hb Hl HQ. pose proof (pushed_range _ _ _ _ Hp). unfold blen in *.
  destruct (below dst (Z.of_nat (length str) + 1)) as [Hu E]; [lia..|]. rewrite E in *.
  destruct (align8_down_spec _ Hu) as [Ha _].
  eapply push_pushed; [exact Hp|by apply Forall_app; split; [|repeat constructor]|lia| |].
  - unfold blen. rewrite length_app. simpl. lia.
  - intros s' Hs'. eapply HQ; [done|done|lia].
Qed.

(** What a loop over strings leaves: pointers to blocks that hold them. *)
Definition strings_pushed (i0 : Image) (dst : Z) (blocks : list (Z * list Z)) (strings : list (list Z)) (vec vec' : list Z) (dst' : Z)
    (s' : Image) : Prop :=
  exists ptrs blocks', vec' = vec ++ ptrs /\ Forall2 (fun p str => (p, str ++ [0]) ∈ blocks') ptrs strings /\
    (forall b, b ∈ blocks -> b ∈ blocks') /\ pushed i0 dst' blocks' s' /\ dst - str_room strings <= dst'.

Lemma strings_pushed_cons i0 dst blocks str strings vec a vec' dst' s' : dst - (blen str + 8) <= a ->
  strings_pushed i0 a ((a, str ++ [0]) :: blocks) strings (vec ++ [a]) vec' dst' s' ->
  strings_pushed i0 dst blocks (str :: strings) vec vec' dst' s'.
Proof.
  intros Ha (ptrs&bl&->&H2&H3&H4&H5). exists (a :: ptrs), bl. split_and!; [by rewrite <- app_assoc| | |done|].
  - constructor; [|done]. apply H3. left.
  - intros b Hb. apply H3. by right.
  - unfold str_room, blen in *. simpl. lia.
Qed.
Lemma strings_pushed_nil i0 dst blocks vec s : pushed i0 dst blocks s -> strings_pushed i0 dst blocks [] vec vec dst s.
Proof. intros H. exists [], blocks. split_and!; [by rewrite app_nil_r|constructor|done|done|unfold str_room; simpl; lia]. Qed.

Lemma push_args_ok i0 strings : Forall (Forall byte) strings -> forall s dst blocks vec, pushed i0 dst blocks s ->
  lo + str_room strings <= dst ->
  wp (push_args vec dst strings) (fun r s' => strings_pushed i0 dst blocks strings vec (fst r) (snd r) s') (fun _ _ => False) s.
Proof.
  induction 1 as [|str strings Hb _ IH]; intros s dst blocks vec Hp Hl; cbn [push_args].
  - apply wp_ret. by apply strings_pushed_nil.
  - unfold str_room in Hl. simpl in Hl. fold (str_room strings) in Hl.
    wp_step. unfold push_arg. wp_step. eapply push_one; [exact Hp|done|unfold str_room, blen in *; lia|].
    intros a s' -> Hp' Ha. wp_step. eapply wp_mono; [apply IH; [exact Hp'|unfold str_room, blen in *; lia]| |done].
    intros [vec' d'] s'' Hs. by eapply strings_pushed_cons.
Qed.
Lemma push_strings_ok i0 strings : Forall (Forall byte) strings -> forall s dst blocks vec, pushed i0 dst blocks s ->
  lo + str_room strings <= dst ->
  wp (push_strings dst strings vec) (fun r s' => strings_pushed i0 dst blocks strings vec (snd r) (fst r) s') (fun _ _ => False) s.
Proof.
  induction 1 as [|str strings Hb _ IH]; intros s dst blocks vec Hp Hl; cbn [push_strings].
  - apply wp_ret. by apply strings_pushed_nil.
  - unfold str_room in Hl. simpl in Hl. fold (str_room strings) in Hl.
    wp_step. unfold stack_push. wp_step. replace (blen (str ++ [0])) with (blen str + 1) by (unfold blen; rewrite length_app; simpl; lia).
    eapply push_one; [exact Hp|done|unfold str_room, blen in *; lia|].
    intros a s' -> Hp' Ha. wp_step. eapply wp_mono; [apply IH; [exact Hp'|unfold str_room, blen in *; lia]| |done].
    intros [d' vec'] s'' Hs. by eapply strings_pushed_cons.
Qed.

Lemma words_byte l : Forall byte (words l).
Proof. unfold words. induction l; cbn [map concat]; [constructor|]. apply Forall_app. split; [apply le_bytes_byte|done]. Qed.
Lemma words_length l : blen (words l) = 8 * Z.of_nat (length l).
Proof. unfold blen, words. induction l; [done|]. cbn [map concat length]. rewrite length_app, length_le_bytes. lia. Qed.

(** The vector of pointers is pushed last, 16-byte aligned. *)
Lemma push_vector i0 s dst blocks vec z (Q : unit -> Image -> Prop) X : pushed i0 dst blocks s ->
  lo + 8 * Z.of_nat (length vec) + 16 <= dst ->
  (forall a s', a = align16_down (dst ⊖ 8 * Z.of_nat (length vec)) -> pushed i0 a ((a, words vec) :: blocks) s' ->
     a mod 16 = 0 -> a <= dst - 8 * Z.of_nat (length vec) -> Q tt s') ->
  wp (on_memory (copy_to_guest (align16_down (dst ⊖ 8 * Z.of_nat (length vec))) (words vec) z)) Q X s.
Proof.
  intros Hp Hl HQ. pose proof (pushed_range _ _ _ _ Hp).
  destruct (below dst (8 * Z.of_nat (length vec))) as [Hu E]; [lia..|]. rewrite E in *.
  destruct (align16_down_spec _ Hu) as [Ha1 Ha2].
  eapply push_pushed; [exact Hp|apply words_byte|lia|rewrite words_length; lia|].
  intros s' Hs'. eapply HQ; [done|done|done|lia].
Qed.

Lemma push_down_ok i0 s dst blocks data : pushed i0 dst blocks s -> Forall byte data -> lo + blen data + 8 <= dst ->
  wp (push_down dst data) (fun a s' => pushed i0 a ((a, data) :: blocks) s' /\ dst - blen data - 8 <= a) (fun _ _ => False) s.
Proof.
  intros Hp Hb Hl. pose proof (pushed_range _ _ _ _ Hp). unfold push_down. wp_step.
  destruct (below dst (blen data)) as [Hu E]; [unfold blen in *; lia..|]. rewrite E in *.
  destruct (align8_down_spec _ Hu) as [Ha _].
  eapply push_pushed; [exact Hp|done|lia|lia|]. intros s' Hs'. wp_step. split; [done|lia].
Qed.
End stack.

Section linux.
Context `{os : HostOS}.
Context (getauxval : Z -> Z) (hwcap_keys : list Z).

Definition flat (aux : list (Z * Z)) : list Z := concat (map (fun e => [fst e; snd e]) aux).
Lemma fold_push_aux aux vec : fold_left push_aux aux vec = vec ++ flat aux.
Proof.
  revert vec. induction aux as [|e aux IH]; intros vec; [by rewrite app_nil_r|]. simpl. rewrite IH. unfold push_aux, flat. simpl.
  by rewrite <- app_assoc.
Qed.
Lemma length_flat aux : length (flat aux) = (2 * length aux)%nat.
Proof. unfold flat. induction aux; simpl; lia. Qed.
Lemma length_auxv a b c d e f : length (auxv getauxval hwcap_keys a b c d e f) = (29 + length hwcap_keys)%nat.
Proof. unfold auxv. rewrite !length_app, length_map. simpl. lia. Qed.

(** Stack space that is enough for [setup_linux]. *)
Definition linux_room (canary : list Z) (args env : list (list Z)) (phnum : Z) : Z :=
  blen canary + 8 + 15 + phnum * sizeof_Phdr + 16 + str_room args + str_room env +
  8 * (3 + Z.of_nat (length args) + Z.of_nat (length env) + 2 * (29 + Z.of_nat (length hwcap_keys))) + 16.

(** The vector at the stack pointer of a new program. *)
Definition start_vector (args : list (list Z)) (argv envp : list Z) (aux : list (Z * Z)) : list Z :=
  Z.of_nat (length args) :: argv ++ [0] ++ envp ++ [0] ++ flat aux.

Lemma find_phdr_ok bin base n off : Forall byte bin -> 0 <= off -> off + sizeof_Phdr * Z.of_nat n <= bin_size bin ->
  exists a, find_phdr bin off base n = Ok a.
Proof.
  intros Hb. revert off. unfold sizeof_Phdr. induction n as [|n IH]; intros off Ho Hl; cbn [find_phdr]; [by exists 0|].
  rewrite get_bytes_ok by (unfold sizeof_Phdr; lia). destruct (_ =? PT_PHDR); [eauto|]. apply IH; unfold sizeof_Phdr; lia.
Qed.

Lemma Forall2_string_at lo hi top s0 s dst blocks ptrs strings : stack_state lo hi top s0 s dst blocks ->
  uses_cow_memory (vm s0) = false -> Forall2 (fun p str => (p, str ++ [0]) ∈ blocks) ptrs strings -> Forall2 (string_at s) ptrs strings.
Proof. intros Hs Hc HF. eapply Forall2_impl; [exact HF|]. intros p str Hin. by eapply block_reads. Qed.

(** The headers are in the file. *)
Lemma elf_headers bin eh : get_bytes bin 0 sizeof_Ehdr = Ok eh -> 0 < e_phnum (parse_ehdr eh) -> 0 <= e_phoff (parse_ehdr eh) < 2 ^ 63 ->
  e_phoff (parse_ehdr eh) + sizeof_Phdr * e_phnum (parse_ehdr eh) <= bin_size bin ->
  elf_offset bin 0 sizeof_Ehdr = Ok eh /\ exists ph, elf_offset bin (e_phoff (parse_ehdr eh)) sizeof_Phdr = Ok ph.
Proof.
  intros E Hn Ho Hl. unfold elf_offset. split.
  - rewrite E. assert (0 + sizeof_Ehdr <= bin_size bin) by (unfold get_bytes in E; destruct (_ && _) eqn:Eb in E; [lia|done]).
    by rewrite (proj2 (Z.ltb_ge (bin_size _) _)) by done.
  - rewrite (proj2 (Z.leb_gt _ _)), (proj2 (Z.ltb_ge (bin_size _) _)), get_bytes_ok by (unfold sizeof_Phdr in *; lia). by eexists.
Qed.

(** The step that makes the program headers available. *)
Definition phdr_at (bin : list Z) (off n found phdr : Z) (blocks : list (Z * list Z)) : Prop :=
  if found =? 0 then exists data, get_bytes bin off (n * sizeof_Phdr) = Ok data /\ (phdr, data) ∈ blocks else phdr = found.

Lemma push_phdrs lo hi top s0 i0 s dst blocks bin off n found :
  pushed lo hi top s0 i0 dst blocks s -> Forall byte bin -> 0 <= off -> 0 <= n -> off + sizeof_Phdr * n <= bin_size bin ->
  lo + n * sizeof_Phdr + 16 <= dst ->
  wp (if found =? 0 then
        let dst := align16_down (dst ⊖ n * sizeof_Phdr) in
        let! data := lift (get_bytes bin off (n * sizeof_Phdr)) in
        on_memory (copy_to_guest dst data false) ;;;
        ret (dst, dst)
      else ret (found, dst))
    (fun r s' => exists blocks', pushed lo hi top s0 i0 (snd r) blocks' s' /\ (forall b, b ∈ blocks -> b ∈ blocks') /\
       phdr_at bin off n found (fst r) blocks' /\ dst - n * sizeof_Phdr - 16 <= snd r)
    (fun _ _ => False) s.
Proof.
  intros Hp Hb Ho Hn Hl Hd. unfold phdr_at. destruct (found =? 0); [|apply wp_ret; exists blocks; split_and!; (done || unfold sizeof_Phdr; simpl; lia)].
  cbn zeta. wp_step. rewrite get_bytes_ok by (unfold sizeof_Phdr in *; lia). apply wp_lift. wp_step. set (data := take _ _).
  assert (blen data = n * sizeof_Phdr) as Elen.
  { unfold data, blen, bin_size, sizeof_Phdr in *. rewrite length_take, length_drop. lia. }
  pose proof (pushed_range _ _ _ _ _ _ _ _ Hp).
  destruct (below lo hi dst (n * sizeof_Phdr)) as [Hu E]; [unfold sizeof_Phdr in *; lia..|]. rewrite E in *.
  destruct (align16_down_spec _ Hu) as [Ha _].
  eapply push_pushed; [exact Hp|by apply Forall_take, Forall_drop|lia|lia|].
  intros s' Hs'. wp_step. eexists. split_and!; [exact Hs'|intros b Hin; by right| |simpl; lia].
  eexists. split; [done|]. left.
Qed.
End linux.

(** C32: with room on the stack, in pages that are mapped to themselves, [setup_linux] always
    returns, and leaves what the System V ABI promises a new program: at the 16-byte aligned
    stack pointer the argument count, the pointers to the arguments, a null, the pointers to the
    environment, a null, and the auxiliary vector; every pointer points to its string with a
    terminator; AT_RANDOM points to the canary, AT_PLATFORM to the name, AT_PHDR to the program
    headers of the file (or to where the file says they are loaded).  Memory above the old stack
    pointer and everything else of the machine is unchanged. *)
Theorem setup_linux_layout `{os : HostOS} getauxval hwcap_keys lo hi canary sp args env s eh :
  ident_region lo hi (mvm (im s)) -> uses_cow_memory (vm (mvm (im s))) = false ->
  Forall byte canary -> Forall (Forall byte) args -> Forall (Forall byte) env -> Forall byte (m_binary s) ->
  get_bytes (m_binary s) 0 sizeof_Ehdr = Ok eh ->
  0 < e_phnum (parse_ehdr eh) -> e_phoff (parse_ehdr eh) < 2 ^ 63 ->
  e_phoff (parse_ehdr eh) + sizeof_Phdr * e_phnum (parse_ehdr eh) <= bin_size (m_binary s) ->
  sp <= hi -> lo + linux_room hwcap_keys canary args env (e_phnum (parse_ehdr eh)) <= sp ->
  wp (setup_linux getauxval hwcap_keys canary sp args env)
    (fun sp' s' => let v' := mvm (im s') in
       sp' mod 16 = 0 /\ lo <= sp' < sp /\ s' = with_vm s v' /\
       (forall b, sp <= b < hi -> guest_byte v' b = guest_byte (mvm (im s)) b) /\
       exists argv envp phdr platform random,
         let h := parse_ehdr eh in
         let entry := m_image_base s ⊕ e_entry h in
         reads v' sp' (words (start_vector args argv envp
           (auxv getauxval hwcap_keys phdr (e_phnum h) (entry .& not64 0xFFFFFF) entry platform random))) /\
         Forall2 (string_at v') argv args /\ Forall2 (string_at v') envp env /\
         reads v' random canary /\ reads v' platform platform_name /\
         exists found, find_phdr (m_binary s) (e_phoff h) (m_image_base s) (Z.to_nat (e_phnum h)) = Ok found /\
           if found =? 0
           then exists data, get_bytes (m_binary s) (e_phoff h) (e_phnum h * sizeof_Phdr) = Ok data /\ reads v' phdr data
           else phdr = found)
    (fun _ _ => False) s.
Proof.
  intros Hr Hc Hcan Hargs Henv Hbin Eeh Hn Hoff Hph Hsp Hroom.
  assert (0 <= str_room args /\ 0 <= str_room env /\ 0 <= blen canary) as (?&?&?) by (unfold str_room, blen; lia).
  assert (0 <= e_phoff (parse_ehdr eh)) as Hoff0 by (apply (field_range eh 32 8); by eapply get_bytes_bytes).
  destruct (elf_headers (m_binary s) eh) as [E1 [ph E2]]; [done..|].
  destruct (find_phdr_ok (m_binary s) (m_image_base s) (Z.to_nat (e_phnum (parse_ehdr eh))) (e_phoff (parse_ehdr eh))) as [found Ef];
    [done|done|rewrite Z2Nat.id by lia; done|].
  unfold linux_room in Hroom. assert (0 <= e_phnum (parse_ehdr eh) * sizeof_Phdr) by (unfold sizeof_Phdr; lia).
  assert (pushed lo hi sp (mvm (im s)) s sp [] s) as Hp0 by (apply pushed_start; [done|done|lia]).
  unfold setup_linux. wp_step. eapply wp_mono; [eapply push_down_ok; [exact Hp0|done|lia]| |done].
  intros random s1 [Hp1 Hr1]. wp_step.
  eapply wp_mono; [eapply push_down_ok; [exact Hp1|apply (bool_decide_unpack _); exact I|change (blen platform_name) with 7; lia]| |done].
  intros platform s2 [Hp2 Hr2]. change (blen platform_name) with 7 in Hr2. wp_step. wp_step. wp_step.
  assert (m_binary s2 = m_binary s /\ m_image_base s2 = m_image_base s) as [-> ->] by (destruct Hp2 as [_ ->]; done).
  rewrite E1. apply wp_lift. cbn beta iota. wp_step. rewrite E2. apply wp_lift. cbn beta iota. wp_step. rewrite Ef. apply wp_lift. cbn beta iota.
  wp_step. eapply wp_mono; [eapply push_phdrs; [exact Hp2|done|done|lia|done|lia]| |done].
  intros [phdr dst] s3 (blocks&Hp3&Hin3&Hph3&Hr3). cbn [fst snd] in *.
  wp_step. eapply wp_mono; [eapply push_args_ok; [exact Hargs|exact Hp3|lia]| |done].
  intros [vec1 d1] s4 (argv&blocks4&E4&HF4&Hin4&Hp4&Hr4). cbn [fst snd] in *. subst vec1.
  wp_step. eapply wp_mono; [eapply push_args_ok; [exact Henv|exact Hp4|lia]| |done].
  intros [vec2 d2] s5 (envp&blocks5&E5&HF5&Hin5&Hp5&Hr5). cbn [fst snd] in *. subst vec2. rewrite fold_push_aux.
  set (aux := auxv _ _ _ _ _ _ _ _). 
  set (vec := (((_ ++ argv) ++ _) ++ envp) ++ _). 
  assert (vec ++ flat aux = start_vector args argv envp aux) as -> by (unfold vec, start_vector; rewrite <- !app_assoc; done).
  assert (length (start_vector args argv envp aux) = 3 + length args + length env + 2 * (29 + length hwcap_keys))%nat as Elen.
  { unfold start_vector. cbn [length]. rewrite !length_app, length_flat. unfold aux. rewrite length_auxv.
    rewrite (Forall2_length _ _ _ HF4), (Forall2_length _ _ _ HF5). simpl. lia. }
  wp_step. eapply push_vector; [exact Hp5|lia|]. intros sp' s6 -> Hp6 Hal Hlow. wp_step.
  pose proof (pushed_range _ _ _ _ _ _ _ _ Hp5). pose proof (pushed_range _ _ _ _ _ _ _ _ Hp6) as Hrg. destruct Hp6 as [Hs6 E6].
  split_and!; [done|lia|lia|done|apply Hs6|].
  assert (forall b, b ∈ blocks4 -> b ∈ (align16_down (d2 ⊖ 8 * Z.of_nat (length (start_vector args argv envp aux))), words (start_vector args argv envp aux)) :: blocks5) as Hin
    by (intros b Hb; right; by apply Hin5).
  exists argv, envp, phdr, platform, random. cbn zeta. split_and!.
  - eapply block_reads; [exact Hs6|done|left].
  - eapply Forall2_string_at; [exact Hs6|done|]. eapply Forall2_impl; [exact HF4|]. intros; by apply Hin.
  - eapply Forall2_string_at; [exact Hs6|done|]. eapply Forall2_impl; [exact HF5|]. intros; by right.
  - eapply block_reads; [exact Hs6|done|]. apply Hin, Hin4, Hin3. right. left.
  - eapply block_reads; [exact Hs6|done|]. apply Hin, Hin4, Hin3. left.
  - exists found. split; [done|]. unfold phdr_at in Hph3. destruct (found =? 0); [|done].
    destruct Hph3 as (data&Ed&Hd). exists data. split; [done|]. eapply block_reads; [exact Hs6|done|]. by apply Hin, Hin4.
Qed.

(** ** Calling a function of the guest *)

Section call.
Context `{os : HostOS}.
Context (lo hi top : Z) (s0 : VM) (i0 : Image).
Notation pushed := (pushed lo hi top s0 i0).

(** The registers a call does not use for arguments, and not the stack pointer. *)
Definition other_regs (r : x86regs) : list Z := [rax r; rbx r; rbp r; r10 r; r11 r; r12 r; r13 r; r14 r; r15 r; rip r; rflags r].

Lemma set_arg_spec n v r : match set_arg n v r with
  | Some r' => get_arg n r' = v /\ (forall i, i <> n -> get_arg i r' = get_arg i r) /\ other_regs r' = other_regs r /\ rsp r' = rsp r /\ (n < 6)%nat
  | None => (6 <= n)%nat
  end.
Proof.
  do 6 (destruct n as [|n]; [unfold get_arg; simpl; split_and!; [done| |done|done|lia]; intros i Hi;
    do 6 (destruct i as [|i]; [done|]); done|]).
  simpl. lia.
Qed.
Lemma set_arg_none n v r v' r' : set_arg n v r = None -> set_arg n v' r' = None.
Proof. do 6 (destruct n as [|n]; [done|]). done. Qed.

Lemma wp_put_regs f (Q : unit -> Proc -> Prop) X s :
  Q tt (mkProc (image s) (m_just_reset s) (mkVcpu (f (v_regs (vcpu s))) (cs_selector (vcpu s)) (cs_dpl (vcpu s)) (ss_selector (vcpu s)) (ss_dpl (vcpu s)))) ->
  wp (put_regs f) Q X s.
Proof. done. Qed.
Lemma wp_on_image {A} (m : M Image A) (Q : A -> Proc -> Prop) X s :
  wp m (fun a i => Q a (mkProc i (m_just_reset s) (vcpu s))) (fun e i => X e (mkProc i (m_just_reset s) (vcpu s))) (image s) ->
  wp (on_image m) Q X s.
Proof. unfold wp, on_image. by destruct (m _) as [[] ?]. Qed.

(** What the argument is, at the address or with the value [v]. *)
Definition arg_block (blocks : list (Z * list Z)) (v : Z) (arg : VmArg) : Prop :=
  match arg with IntArg x => v = wrap64 x | StringArg str => (v, str ++ [0]) ∈ blocks | PodArg bytes => (v, bytes) ∈ blocks end.
Definition arg_bytes (arg : VmArg) : list Z :=
  match arg with IntArg _ => [] | StringArg str => str ++ [0] | PodArg bytes => bytes end.
Definition args_room (args : list VmArg) : Z := Z.of_nat (sum_list_with (fun a => length (arg_bytes a) + 8)%nat args).

Lemma push_rsp_ok p dst blocks data (Q : Z -> Proc -> Prop) X : pushed dst blocks (image p) -> rsp (v_regs (vcpu p)) = dst ->
  Forall byte data -> lo + blen data + 8 <= dst ->
  (forall a i, pushed a ((a, data) :: blocks) i -> a = align8_down (dst ⊖ blen data) -> dst - blen data - 8 <= a ->
     Q a (mkProc i (m_just_reset p) (mkVcpu (set_rsp (v_regs (vcpu p)) a) (cs_selector (vcpu p)) (cs_dpl (vcpu p)) (ss_selector (vcpu p)) (ss_dpl (vcpu p))))) ->
  wp (push_rsp data) Q X p.
Proof.
  intros Hp Er Hb Hl HQ. unfold push_rsp. wp_step. wp_step. rewrite Er. wp_step. apply wp_on_image.
  pose proof (pushed_range _ _ _ _ _ _ _ _ Hp). destruct (below lo hi dst (blen data)) as [Hu E]; [unfold blen in *; lia..|].
  destruct (align8_down_spec (dst ⊖ blen data) Hu) as [Ha _].
  unfold stack_push. set (a := align8_down (dst ⊖ blen data)) in *. rewrite E in Ha. wp_step. eapply push_pushed; [exact Hp|done|lia|lia|]. intros i Hi. wp_step.
  apply wp_bind, wp_put_regs, wp_ret. apply HQ; [done|done|lia].
Qed.

(** The state while arguments are pushed. *)
Definition args_pushed (n : nat) (args : list VmArg) (p : Proc) (dst : Z) (blocks : list (Z * list Z)) (p' : Proc) : Prop :=
  exists blocks', pushed (rsp (v_regs (vcpu p'))) blocks' (image p') /\ (forall b, b ∈ blocks -> b ∈ blocks') /\
    dst - args_room args <= rsp (v_regs (vcpu p')) /\ m_just_reset p' = m_just_reset p /\
    (cs_selector (vcpu p'), cs_dpl (vcpu p'), ss_selector (vcpu p'), ss_dpl (vcpu p')) =
      (cs_selector (vcpu p), cs_dpl (vcpu p), ss_selector (vcpu p), ss_dpl (vcpu p)) /\
    other_regs (v_regs (vcpu p')) = other_regs (v_regs (vcpu p)) /\
    (forall i, (i < n)%nat -> get_arg i (v_regs (vcpu p')) = get_arg i (v_regs (vcpu p))) /\
    forall i arg, args !! i = Some arg -> arg_block blocks' (get_arg (n + i) (v_regs (vcpu p'))) arg.

Lemma args_pushed_cons n arg args p p1 dst dst1 blocks blocks1 v p' :
  dst - (blen (arg_bytes arg) + 8) <= dst1 -> (forall b, b ∈ blocks -> b ∈ blocks1) -> arg_block blocks1 v arg -> (n < 6)%nat ->
  m_just_reset p1 = m_just_reset p ->
  (cs_selector (vcpu p1), cs_dpl (vcpu p1), ss_selector (vcpu p1), ss_dpl (vcpu p1)) =
      (cs_selector (vcpu p), cs_dpl (vcpu p), ss_selector (vcpu p), ss_dpl (vcpu p)) ->
  other_regs (v_regs (vcpu p1)) = other_regs (v_regs (vcpu p)) ->
  get_arg n (v_regs (vcpu p1)) = v -> (forall i, i <> n -> get_arg i (v_regs (vcpu p1)) = get_arg i (v_regs (vcpu p))) ->
  args_pushed (S n) args p1 dst1 blocks1 p' -> args_pushed n (arg :: args) p dst blocks p'.
Proof.
  intros Hd Hin Hv Hn Ej Ec Eo Ev Eg (bl&H1&H2&H3&H4&H5&H6&H7&H8). exists bl. split_and!; [done|by auto| | |congruence|congruence| |].
  - unfold args_room, blen in *. simpl. lia.
  - congruence.
  - intros i Hi. rewrite H7, Eg by lia. done.
  - intros [|i] a; simpl.
    + intros [= <-]. rewrite Nat.add_0_r, H7, Ev by lia. destruct arg; simpl in *; auto.
    + intros Ha. replace (n + S i)%nat with (S n + i)%nat by lia. by apply H8.
Qed.

Lemma push_call_args_ok args : Forall (fun a => Forall byte (arg_bytes a)) args -> forall n p blocks,
  pushed (rsp (v_regs (vcpu p))) blocks (image p) -> lo + args_room args <= rsp (v_regs (vcpu p)) -> (n <= 6)%nat ->
  wp (push_call_args n args) (fun _ p' => (n + length args <= 6)%nat /\ args_pushed n args p (rsp (v_regs (vcpu p))) blocks p')
    (fun e _ => e = MachineException "Too many vmcall arguments" 0 /\ (6 < n + length args)%nat) p.
Proof.
  induction 1 as [|arg args Hb _ IH]; intros n p blocks Hp Hl Hn; cbn [push_call_args].
  { apply wp_ret. split; [simpl; lia|]. exists blocks. split_and!; try done. unfold args_room. simpl. lia. }
  destruct (set_arg n 0 zero_regs) as [x|] eqn:Ex.
  2:{ apply wp_throw. split; [done|]. pose proof (set_arg_spec n 0 zero_regs) as H. rewrite Ex in H. simpl. lia. }
  assert (n < 6)%nat as Hn6 by (pose proof (set_arg_spec n 0 zero_regs) as H; rewrite Ex in H; apply H). clear x Ex.
  unfold args_room in Hl. simpl in Hl. fold (args_room args) in Hl.
  assert (forall v dst1 blocks1 p1, pushed dst1 blocks1 (image p1) -> rsp (v_regs (vcpu p1)) = dst1 ->
    rsp (v_regs (vcpu p)) - (blen (arg_bytes arg) + 8) <= dst1 -> (forall b, b ∈ blocks -> b ∈ blocks1) -> arg_block blocks1 v arg ->
    m_just_reset p1 = m_just_reset p ->
    (cs_selector (vcpu p1), cs_dpl (vcpu p1), ss_selector (vcpu p1), ss_dpl (vcpu p1)) =
      (cs_selector (vcpu p), cs_dpl (vcpu p), ss_selector (vcpu p), ss_dpl (vcpu p)) ->
    other_regs (v_regs (vcpu p1)) = other_regs (v_regs (vcpu p)) ->
    (forall i, get_arg i (v_regs (vcpu p1)) = get_arg i (v_regs (vcpu p))) ->
    wp (put_regs (fun r => default r (set_arg n v r)) ;;; push_call_args (S n) args)
      (fun _ p' => (n + length (arg :: args) <= 6)%nat /\ args_pushed n (arg :: args) p (rsp (v_regs (vcpu p))) blocks p')
      (fun e _ => e = MachineException "Too many vmcall arguments" 0 /\ (6 < n + length (arg :: args))%nat) p1) as Hnext.
  { intros v dst1 blocks1 p1 Hp1 Er1 Hd1 Hin1 Hv1 Ej1 Ec1 Eo1 Eg1. apply wp_bind, wp_put_regs.
    pose proof (set_arg_spec n v (v_regs (vcpu p1))) as Hs. destruct (set_arg n v (v_regs (vcpu p1))) as [r'|]; [|lia].
    destruct Hs as (S1&S2&S3&S4&_). cbn [default from_option id].
    set (p2 := mkProc _ _ _). assert (rsp (v_regs (vcpu p2)) = dst1) as Er2 by (simpl; congruence).
    eapply wp_mono; [apply (IH (S n) p2 blocks1); [rewrite Er2; exact Hp1|rewrite Er2; unfold args_room, blen in *; lia|lia]| |].
    - intros _ p' [Hlen Ha]. split; [simpl; lia|]. rewrite Er2 in Ha.
      eapply (args_pushed_cons n arg args p p2); try done; [simpl; congruence|].
      intros i Hi. simpl. rewrite S2 by done. apply Eg1.
    - intros e _ [-> Hlen]. split; [done|simpl; lia]. }
  wp_step. destruct arg as [x|str|bytes].
  - wp_step. eapply Hnext; try done. simpl. unfold blen. simpl. lia.
  - eapply push_rsp_ok; [exact Hp|done|exact Hb|unfold blen; simpl in *; lia|]. intros a i Hi _ Ha. eapply Hnext; try done.
    + simpl. lia.
    + intros b Hin. by right.
    + left.
  - eapply push_rsp_ok; [exact Hp|done|exact Hb|unfold blen; simpl in *; lia|]. intros a i Hi _ Ha. eapply Hnext; try done.
    + simpl. lia.
    + intros b Hin. by right.
    + left.
Qed.
End call.

(** An argument in its register: the value, or the address of a copy. *)
Definition passed (s : VM) (v : Z) (arg : VmArg) : Prop :=
  match arg with IntArg x => v = wrap64 x | StringArg str => string_at s v str | PodArg bytes => reads s v bytes end.


(** The machine is ready to run the function. *)
Definition call_ready (lo hi addr sp : Z) (args : list VmArg) (p p' : Proc) : Prop :=
  let m := vm (mvm (im (image p))) in let v' := mvm (im (image p')) in let r := v_regs (vcpu p') in
  (forall i arg, args !! i = Some arg -> passed v' (get_arg i r) arg) /\
  reads v' (rsp r) (le_bytes 8 (exit_address m)) /\ rsp r mod 16 = 8 /\ lo <= rsp r < sp /\
  other_regs r = [0; 0; 0; 0; 0; 0; 0; 0; if m_just_reset p then addr else 0;
                  if m_just_reset p then entry_address m else addr; user_rflags] /\
  m_just_reset p' = false /\
  (cs_dpl (vcpu p) = 0 \/ cs_dpl (vcpu p) = 3 -> cs_dpl (vcpu p') = 3) /\
  forall b, sp <= b < hi -> guest_byte v' b = guest_byte (mvm (im (image p))) b.

Section calls.
Context `{os : HostOS}.

Lemma pushed_lower lo hi top s0 i0 dst dst' blocks s : pushed lo hi top s0 i0 dst blocks s -> lo <= dst' <= dst ->
  pushed lo hi top s0 i0 dst' blocks s.
Proof.
  intros [[H1 H2 H3 H4 H5] H6] Hd. split; [|done]. constructor; try done; [lia|].
  eapply Forall_impl; [exact H4|]. intros b (?&?&?). split_and!; (done || lia).
Qed.
Lemma align8_of_16 x : u64 x -> x mod 16 = 0 -> 8 <= x -> align8_down (x ⊖ 8) = x - 8.
Proof.
  intros Hu Hx H8. rewrite sub64_small by (unfold u64 in *; lia). unfold align8_down. change 7 with (2 ^ 3 - 1).
  rewrite land_not_ones by (unfold u64 in *; lia). change (2 ^ 3) with 8. dlia.
Qed.

(** The registers before the arguments. *)
Definition call_regs (p : Proc) (addr sp : Z) : x86regs :=
  set_rsp (if m_just_reset p then set_rip (set_r15 (set_rflags zero_regs user_rflags) addr) (entry_address (vm (mvm (im (image p)))))
           else set_rip (set_rflags zero_regs user_rflags) addr) sp.
Lemma setup_call_start addr sp args p Q X :
  wp (push_call_args 0 args ;;; put_regs (fun r => set_rsp r (align16_down (rsp r))) ;;;
      let! _ := push_rsp (le_bytes 8 (exit_address (vm (mvm (im (image p)))))) in enter_usermode) Q X
    (mkProc (image p) false (mkVcpu (call_regs p addr sp) (cs_selector (vcpu p)) (cs_dpl (vcpu p)) (ss_selector (vcpu p)) (ss_dpl (vcpu p)))) ->
  wp (setup_call addr sp args) Q X p.
Proof.
  intros H. unfold setup_call. wp_step. wp_step. wp_step. apply wp_put_regs. wp_step. unfold call_regs in H.
  destruct (m_just_reset p) eqn:Ej.
  - wp_step. apply wp_modify. apply wp_put_regs. wp_step. apply wp_put_regs. exact H.
  - apply wp_put_regs. wp_step. apply wp_put_regs. exact H.
Qed.
End calls.

(** C33: on a machine that writes to its own main memory (no copy-on-write memory, so no fork),
    whose stack is mapped to itself, [setup_call] with up to six arguments and room on the stack
    sets up a System V call: the arguments in their registers, strings and structures as copies on
    the stack, the return address (the guest's exit code) at a stack pointer that is 8 modulo 16,
    user mode, and all other registers zero but the instruction pointer: the function, or while
    [m_just_reset] is set the entry code, with the function in R15.  With more arguments it throws,
    and nothing else is thrown.  Memory above the stack is unchanged.  On a fork a push can run out
    of pages, and can zero the rest of its page ([stack_push_zeroes_page]). *)
Theorem setup_call_abi `{os : HostOS} lo hi addr sp args p :
  let m := vm (mvm (im (image p))) in
  ident_region lo hi (mvm (im (image p))) -> uses_cow_memory m = false ->
  Forall (fun a => Forall byte (arg_bytes a)) args -> sp <= hi -> lo + args_room args + 32 <= sp ->
  wp (setup_call addr sp args) (fun _ p' => (length args <= 6)%nat /\ call_ready lo hi addr sp args p p')
    (fun e _ => e = MachineException "Too many vmcall arguments" 0 /\ (6 < length args)%nat) p.
Proof.
  cbn zeta. intros Hr Hc Hb Hsp Hroom. assert (0 <= args_room args) by (unfold args_room; lia).
  assert (pushed lo hi sp (mvm (im (image p))) (image p) sp [] (image p)) as Hp0 by (apply pushed_start; [done|done|lia]).
  assert (rsp (call_regs p addr sp) = sp) as Esp by (by unfold call_regs; destruct (m_just_reset p)).
  apply setup_call_start. wp_step.
  eapply wp_mono; [eapply push_call_args_ok; [done|cbn [v_regs vcpu image]; rewrite Esp; exact Hp0|cbn [v_regs vcpu]; rewrite Esp; lia|lia]| |done].
  intros _ p1 [Hlen (blocks&Hp1&_&Hd1&Ej1&Ec1&Eo1&_&Ha1)]. cbn [v_regs vcpu] in Hd1, Eo1. rewrite Esp in Hd1.
  wp_step. apply wp_put_regs. pose proof (pushed_range _ _ _ _ _ _ _ _ Hp1) as Hrg.
  destruct (align16_down_spec (rsp (v_regs (vcpu p1)))) as [Hal1 Hal2]; [unfold u64; lia|].
  eapply (pushed_lower _ _ _ _ _ _ (align16_down (rsp (v_regs (vcpu p1))))) in Hp1; [|lia].
  wp_step. eapply push_rsp_ok; [exact Hp1|done|apply le_bytes_byte|unfold blen; rewrite length_le_bytes; lia|].
  intros a i Hi Ea Hla. apply wp_modify. unfold blen in Ea. rewrite length_le_bytes in Ea.
  change (Z.of_nat 8) with 8 in Ea. rewrite align8_of_16 in Ea by (unfold u64; lia). pose proof (pushed_range _ _ _ _ _ _ _ _ Hi). destruct Hi as [Hi Ei].
  split; [done|]. injection Ec1 as _ Ed _ _. cbn [v_regs vcpu cs_dpl] in *.
  assert (forall cs d ss d', (cs_dpl (vcpu p) = 0 \/ cs_dpl (vcpu p) = 3 -> d = 3) ->
    call_ready lo hi addr sp args p (mkProc i (m_just_reset p1) (mkVcpu (set_rsp (set_rsp (v_regs (vcpu p1)) (align16_down (rsp (v_regs (vcpu p1))))) a) cs d ss d'))) as Hready.
  { intros cs d ss d' Hd. unfold call_ready. cbn [v_regs vcpu image set_rsp rsp cs_dpl m_just_reset]. split_and!; [| |dlia|lia|lia| |done|exact Hd|apply Hi].
    - intros k arg Hk. specialize (Ha1 k arg Hk). simpl in Ha1. 
      assert (get_arg k (set_rsp (set_rsp (v_regs (vcpu p1)) (align16_down (rsp (v_regs (vcpu p1))))) a) = get_arg k (v_regs (vcpu p1))) as -> by done.
      destruct arg; [done|..]; eapply block_reads; (exact Hi || exact Hc || by right).
    - eapply block_reads; [exact Hi|exact Hc|left].
    - transitivity (other_regs (v_regs (vcpu p1))); [done|]. rewrite Eo1. unfold call_regs. by destruct (m_just_reset p). }
  unfold enter_usermode. cbn [vcpu cs_dpl image m_just_reset]. rewrite Ed.
  destruct (cs_dpl (vcpu p) =? 0) eqn:Ez; apply Hready; lia.
Qed.

(** ** Running them *)

(** A range whose pages pass the check. *)
Lemma ident_region_check lo n s : lo mod 4096 = 0 -> 0 <= n ->
  (0 < ptr (vm s) /\ ptr (vm s) + size (vm s) < 2 ^ 63) /\ (0 <= physbase (vm s) /\ 0 <= size (vm s) /\ physbase (vm s) + size (vm s) < 2 ^ 63) /\
  (physbase (vm s) <= safebase (vm s) /\ safebase (vm s) <= lo /\ lo + 4096 * n <= physbase (vm s) + size (vm s)) ->
  forallb (fun k => ident_page (vm s) lo (lo + 4096 * n) (h_heap (vhost s)) (lo + 4096 * k)) (seqZ 0 n) = true ->
  ident_region lo (lo + 4096 * n) s.
Proof.
  intros Hlo Hn (H1&H2&H3) Hall. constructor; try done; [dlia|]. intros a Ha Hal. rewrite forallb_forall in Hall.
  replace a with (lo + 4096 * ((a - lo) / 4096)) by dlia. apply Hall, list_elem_of_In, elem_of_seqZ. dlia.
Qed.

Section demo.
#[local] Existing Instance Fork.demo_host.

(** The machine of PageSetup with a small program, and four pages of stack. *)
Definition demo_stack_image : Image :=
  mkImage (mkMachine demo_vm (fresh_maps 0x300000) 0x2f0000 0x300000 true) demo_binary 0 0x200000 0x208000.
Definition demo_args : list (list Z) := [[97; 46; 111]; [45; 118]].
Definition demo_env : list (list Z) := [[65; 61; 49]].
Definition demo_canary : list Z := seqZ 1 16.
Definition demo_aux (key : Z) : Z := key + 1.
Definition demo_hwcaps : list Z := [29].

Lemma demo_region : ident_region 0x204000 0x208000 demo_vm.
Proof. apply (ident_region_check 0x204000 4); [done|done|vm_compute; intuition congruence|vm_compute; reflexivity]. Qed.

Lemma setup_linux_layout_witness :
  (exists sp', fst (setup_linux demo_aux demo_hwcaps demo_canary 0x208000 demo_args demo_env demo_stack_image) = Ok sp') /\
  wp (setup_linux demo_aux demo_hwcaps demo_canary 0x208000 demo_args demo_env)
    (fun sp' s' => sp' mod 16 = 0 /\ exists argv, Forall2 (string_at (mvm (im s'))) argv demo_args) (fun _ _ => False) demo_stack_image.
Proof.
  split; [eexists; vm_compute; reflexivity|].
  eapply wp_mono; [eapply (setup_linux_layout demo_aux demo_hwcaps 0x204000 0x208000 demo_canary 0x208000 demo_args demo_env demo_stack_image)| |done].
  - exact demo_region.
  - reflexivity.
  - apply (bool_decide_unpack _). vm_compute. exact I.
  - apply (bool_decide_unpack _). vm_compute. exact I.
  - apply (bool_decide_unpack _). vm_compute. exact I.
  - exact demo_binary_bytes.
  - vm_compute. reflexivity.
  - vm_compute. reflexivity.
  - vm_compute. reflexivity.
  - vm_compute. discriminate.
  - lia.
  - vm_compute. discriminate.
  - intros sp' s' (H1&_&_&_&argv&_&_&_&_&_&H2&_). split; [exact H1|]. exists argv. exact H2.
Defined.

Definition demo_call_args : list VmArg := [IntArg (-1); StringArg [104; 105]; PodArg [1; 2; 3; 4]].
Definition demo_proc : Proc := mkProc demo_stack_image true (mkVcpu zero_regs 8 0 16 0).
Definition demo_called : Proc := snd (setup_call 0x200000 0x208000 demo_call_args demo_proc).

Lemma setup_call_abi_witness :
  fst (setup_call 0x200000 0x208000 demo_call_args demo_proc) = Ok tt /\
  (rsp (v_regs (vcpu demo_called)) = 0x207fe8 /\ rdi (v_regs (vcpu demo_called)) = W64 - 1 /\ rsi (v_regs (vcpu demo_called)) = 0x207ff8) /\
  wp (setup_call 0x200000 0x208000 demo_call_args)
    (fun _ p' => (length demo_call_args <= 6)%nat /\ call_ready 0x204000 0x208000 0x200000 0x208000 demo_call_args demo_proc p')
    (fun e _ => e = MachineException "Too many vmcall arguments" 0 /\ (6 < length demo_call_args)%nat) demo_proc.
Proof.
  split; [vm_compute; reflexivity|]. split; [split_and!; vm_compute; reflexivity|].
  apply setup_call_abi.
  - exact demo_region.
  - reflexivity.
  - repeat constructor; unfold byte; lia.
  - lia.
  - vm_compute. discriminate.
Defined.
End demo.

(** On a fork, [stack_push] asks for a zeroed page: what the master had on the same page of the
    stack, above the stack pointer, is gone. *)
Example stack_push_zeroes_page :
  let s := mkImage (mkMachine demo_full_fork (fresh_maps 0x300000) 0x2f0000 0x300000 true) demo_binary 0 0x200000 0x208000 in
  fst (copy_from_guest 0x204000 4 (mvm (im s))) = Ok [9; 8; 7; 6] /\
  fst (copy_from_guest 0x204000 4 (mvm (im (snd (stack_push (os := Fork.demo_host) 0x204800 [1] s))))) = Ok [0; 0; 0; 0].
Proof. split; vm_compute; reflexivity. Qed.
