(* ===== verification/CpuTables.v ===== *)
(** * Tables and registers of the virtual CPUs

    lib/tinykvm/amd64/gdt.cpp, idt.cpp, tss.cpp and usercode.cpp, and the initialisation of
    vCPUs in vcpu.cpp: the segment descriptors, interrupt gates, task state segments and code
    that [Machine::setup_long_mode] writes into guest memory, and the special registers and
    MSRs that [vCPU::init] and [vCPU::smp_init] give to KVM.

    A table is written to host memory as bytes, in the layout of the packed structures.  The
    theorem reads them back the way the processor does. *)
From stdpp Require Import base tactics list numbers strings gmap.
From Stdlib Require Import ZArith Lia Bool.
From S2P Require Import Prelude MMap Host MemoryBanks VMemory Paging ForkIsolation MakeCow PageSetup Fork Cpu GuestCopy Env.
Local Open Scope Z_scope.

(** ** Fixed addresses of the kernel area *)
Definition GDT_ADDR : Z := 0x1600.
Definition TSS_ADDR : Z := 0x1700.
Definition IDT_ADDR : Z := 0x1800.
Definition INTR_ASM_ADDR : Z := 0x2000.
Definition TSS_SMP_ADDR : Z := 0x7000.
Definition TSS_SMP_STACK : Z := 240.

(** ** Code that is copied to the guest

    [interrupts] (builtin/kernel_assembly.h) and [usercode] (usercode.cpp) *)
Definition interrupts : list Z := [
  64; 0; 179; 1; 32; 2; 8; 0; 187; 1; 0; 0; 0; 0; 0; 0; 0; 0; 0; 0; 0; 0; 0; 0; 0; 0; 0; 0; 0; 0; 0; 0;
  0; 0; 0; 0; 0; 0; 0; 0; 0; 0; 0; 0; 0; 0; 0; 0; 0; 0; 0; 0; 0; 0; 0; 0; 0; 0; 0; 0; 0; 0; 0; 0;
  61; 158; 0; 0; 0; 116; 58; 61; 228; 0; 0; 0; 15; 132; 237; 0; 0; 0; 131; 248; 9; 15; 132; 63; 1; 0; 0; 61; 119; 247; 1; 0;
  15; 132; 107; 1; 0; 0; 61; 120; 247; 1; 0; 15; 132; 80; 1; 0; 0; 61; 7; 247; 1; 0; 15; 132; 94; 1; 0; 0; 231; 0; 72; 15;
  7; 15; 1; 203; 86; 81; 82; 72; 129; 255; 2; 16; 0; 0; 117; 27; 185; 0; 1; 0; 192; 137; 240; 72; 193; 238; 32; 137; 242; 15; 48; 72;
  49; 192; 90; 89; 94; 15; 1; 202; 72; 15; 7; 72; 129; 255; 3; 16; 0; 0; 117; 22; 185; 0; 1; 0; 192; 15; 50; 72; 193; 226; 32; 72;
  9; 194; 72; 137; 6; 72; 49; 192; 235; 216; 231; 0; 235; 212; 15; 49; 72; 193; 226; 32; 72; 9; 208; 72; 43; 5; 74; 255; 255; 255; 138; 13;
  88; 255; 255; 255; 132; 201; 120; 5; 72; 211; 224; 235; 5; 247; 217; 72; 211; 232; 139; 13; 64; 255; 255; 255; 72; 247; 225; 72; 193; 232; 32; 72;
  193; 226; 32; 72; 9; 208; 72; 3; 5; 35; 255; 255; 255; 195; 139; 13; 0; 255; 255; 255; 133; 201; 117; 23; 185; 0; 77; 86; 75; 72; 141; 5;
  236; 254; 255; 255; 72; 137; 194; 72; 193; 234; 32; 137; 192; 15; 48; 139; 13; 223; 254; 255; 255; 139; 21; 221; 254; 255; 255; 72; 1; 208; 195; 15;
  1; 203; 83; 81; 82; 72; 129; 254; 0; 0; 16; 0; 114; 50; 232; 123; 255; 255; 255; 72; 49; 201; 72; 133; 255; 117; 5; 232; 174; 255; 255; 255;
  72; 49; 210; 187; 0; 202; 154; 59; 72; 247; 243; 72; 1; 200; 72; 137; 6; 72; 137; 86; 8; 90; 89; 91; 15; 1; 202; 49; 192; 72; 15; 7;
  72; 199; 192; 242; 255; 255; 255; 72; 15; 7; 90; 89; 91; 15; 1; 202; 184; 228; 0; 0; 0; 231; 0; 72; 15; 7; 231; 0; 73; 131; 248; 255;
  116; 14; 15; 1; 203; 80; 15; 32; 216; 15; 34; 216; 88; 15; 1; 202; 72; 15; 7; 184; 96; 0; 0; 0; 231; 0; 195; 184; 179; 1; 0; 0;
  195; 231; 0; 243; 72; 15; 174; 208; 15; 32; 216; 15; 34; 216; 72; 15; 7; 15; 32; 216; 15; 34; 216; 72; 15; 7; 72; 15; 7; 80; 87; 15;
  32; 215; 139; 68; 36; 16; 231; 142; 15; 1; 63; 95; 72; 133; 192; 117; 7; 88; 72; 131; 196; 8; 72; 207; 243; 72; 15; 174; 208; 81; 72; 15;
  183; 5; 4; 254; 255; 255; 72; 139; 76; 36; 48; 15; 1; 203; 72; 137; 1; 15; 1; 202; 89; 88; 72; 131; 196; 8; 72; 207; 231; 161; 72; 207;
  231; 128; 72; 207; 144; 144; 144; 144; 231; 129; 72; 207; 144; 144; 144; 144; 231; 130; 72; 207; 144; 144; 144; 144; 231; 131; 72; 207; 144; 144; 144; 144;
  231; 132; 72; 207; 144; 144; 144; 144; 231; 133; 72; 207; 144; 144; 144; 144; 231; 134; 72; 207; 144; 144; 144; 144; 231; 135; 72; 207; 144; 144; 144; 144;
  231; 136; 235; 142; 144; 144; 144; 144; 231; 137; 72; 207; 144; 144; 144; 144; 231; 138; 233; 123; 255; 255; 255; 144; 231; 139; 233; 115; 255; 255; 255; 144;
  231; 140; 233; 107; 255; 255; 255; 144; 231; 141; 233; 99; 255; 255; 255; 144; 233; 72; 255; 255; 255; 144; 144; 144; 231; 143; 72; 207; 144; 144; 144; 144;
  231; 144; 72; 207; 144; 144; 144; 144; 231; 145; 233; 67; 255; 255; 255; 144; 231; 146; 72; 207; 144; 144; 144; 144; 231; 147; 72; 207; 144; 144; 144; 144;
  231; 148; 72; 207; 144; 144; 144; 144; 233; 79; 255; 255; 255].

Definition usercode : list Z := [
  16; 0; 32; 0; 44; 0; 62; 0; 80; 0; 0; 0; 144; 144; 144; 144; 73; 137; 205; 184; 119; 247; 1; 0; 15; 5; 76; 137; 233; 65; 255; 231;
  72; 137; 199; 184; 255; 255; 0; 0; 231; 0; 235; 247; 15; 5; 65; 91; 89; 88; 72; 133; 192; 116; 5; 243; 72; 15; 174; 208; 88; 195; 80; 80;
  65; 83; 81; 184; 120; 247; 1; 0; 15; 5; 89; 65; 91; 88; 195; 144; 0; 0; 0; 0; 0; 0; 0; 0; 0; 0; 0; 0; 0; 0; 0; 0;
  1; 0; 0; 0; 0; 0; 0; 0; 0; 0; 0; 0; 0; 0; 0; 0; 2; 0; 0; 0; 0; 0; 0; 0; 0; 0; 0; 0; 0; 0; 0; 0;
  3; 0; 0; 0; 0; 0; 0; 0; 0; 0; 0; 0; 0; 0; 0; 0; 4; 0; 0; 0; 0; 0; 0; 0; 0; 0; 0; 0; 0; 0; 0; 0;
  5; 0; 0; 0; 0; 0; 0; 0; 0; 0; 0; 0; 0; 0; 0; 0; 6; 0; 0; 0; 0; 0; 0; 0; 0; 0; 0; 0; 0; 0; 0; 0;
  7; 0; 0; 0; 0; 0; 0; 0; 0; 0; 0; 0; 0; 0; 0; 0; 8; 0; 0; 0; 0; 0; 0; 0; 0; 0; 0; 0; 0; 0; 0; 0;
  9; 0; 0; 0; 0; 0; 0; 0; 0; 0; 0; 0; 0; 0; 0; 0; 10; 0; 0; 0; 0; 0; 0; 0; 0; 0; 0; 0; 0; 0; 0; 0;
  11; 0; 0; 0; 0; 0; 0; 0; 0; 0; 0; 0; 0; 0; 0; 0; 12; 0; 0; 0; 0; 0; 0; 0; 0; 0; 0; 0; 0; 0; 0; 0;
  13; 0; 0; 0; 0; 0; 0; 0; 0; 0; 0; 0; 0; 0; 0; 0; 14; 0; 0; 0; 0; 0; 0; 0; 0; 0; 0; 0; 0; 0; 0; 0;
  15; 0; 0; 0; 0; 0; 0; 0; 0; 0; 0; 0; 0; 0; 0; 0; 16; 0; 0; 0; 0; 0; 0; 0; 0; 0; 0; 0; 0; 0; 0; 0].

Definition u16_at (l : list Z) (off : nat) : Z := le_value (take 2 (drop off l)).
(** [iasm_header] *)
Definition vm64_syscall : Z := u16_at interrupts 0.
Definition vm64_exception : Z := u16_at interrupts 4.
Definition vm64_except_size : Z := u16_at interrupts 6.
Definition translated_vm_syscall (m : vMemory) : Z := physbase m ⊕ INTR_ASM_ADDR ⊕ vm64_syscall.

(** ** Segment descriptors (gdt.cpp) *)

Record GDT_entry := mkGDT { limit_lo : Z; base_lo : Z; access : Z; limit_hi : Z; gflags : Z; base_hi : Z }.
Definition GDT_bytes (e : GDT_entry) : list Z := le_bytes 8
  (limit_lo e mod 2 ^ 16 + 2 ^ 16 * (base_lo e mod 2 ^ 24) + 2 ^ 40 * (access e mod 2 ^ 8) +
   2 ^ 48 * (limit_hi e mod 2 ^ 4) + 2 ^ 52 * (gflags e mod 2 ^ 4) + 2 ^ 56 * (base_hi e mod 2 ^ 8)).
Definition GDT_ACCESS_TSS : Z := 0x09.
Definition GDT_ACCESS_CODE : Z := 0x9A.
Definition GDT_ACCESS_DATA : Z := 0x92.
Definition GDT_ACCESS_CODE3 : Z := 0xFA.
Definition GDT_ACCESS_DATA3 : Z := 0xF2.
Definition FLAGS_X64_PAGE : Z := 0xA.
Definition FLAGS_X64_TSS : Z := 0x4.

Definition GDT_write_segment (area flags : Z) (h : heap) : heap :=
  store_bytes h area (GDT_bytes (mkGDT 0xFFFF 0 flags 0xF FLAGS_X64_PAGE 0)).
Definition GDT_write_TSS_segment (area tss_addr size : Z) (h : heap) : heap :=
  store_bytes h area (GDT_bytes (mkGDT size (tss_addr .& 0xFFFFFF) GDT_ACCESS_TSS 0 FLAGS_X64_TSS (tss_addr .>> 24))).
Definition memset0 (p n : Z) (h : heap) : heap := store_bytes h p (repeat 0 (Z.to_nat n)).

Definition setup_amd64_segments (gdt_ptr : Z) (h : heap) : heap :=
  let h := memset0 gdt_ptr 8 h in
  let h := GDT_write_segment (gdt_ptr + 0x8) GDT_ACCESS_CODE h in
  let h := GDT_write_segment (gdt_ptr + 0x10) GDT_ACCESS_DATA h in
  let h := memset0 (gdt_ptr + 0x18) 8 h in
  let h := GDT_write_segment (gdt_ptr + 0x20) GDT_ACCESS_DATA3 h in
  let h := GDT_write_segment (gdt_ptr + 0x28) GDT_ACCESS_CODE3 h in
  memset0 (gdt_ptr + 0x30) 8 h.

(** ** Special registers *)

Record kvm_segment := mkSeg {
  sg_base : Z; sg_limit : Z; sg_selector : Z; sg_type : Z; sg_present : Z; sg_dpl : Z; sg_db : Z; sg_s : Z; sg_l : Z; sg_g : Z }.
Record kvm_dtable := mkDtable { dt_base : Z; dt_limit : Z }.
Record kvm_sregs := mkSregs {
  s_cs : kvm_segment; s_ds : kvm_segment; s_es : kvm_segment; s_fs : kvm_segment; s_gs : kvm_segment; s_ss : kvm_segment;
  s_tr : kvm_segment; s_gdt : kvm_dtable; s_idt : kvm_dtable; s_cr0 : Z; s_cr3 : Z; s_cr4 : Z; s_efer : Z }.
Definition zero_seg : kvm_segment := mkSeg 0 0 0 0 0 0 0 0 0 0.
Definition zero_sregs : kvm_sregs := mkSregs zero_seg zero_seg zero_seg zero_seg zero_seg zero_seg zero_seg
  (mkDtable 0 0) (mkDtable 0 0) 0 0 0 0.
Definition seg_with_base (s : kvm_segment) (b : Z) : kvm_segment :=
  mkSeg b (sg_limit s) (sg_selector s) (sg_type s) (sg_present s) (sg_dpl s) (sg_db s) (sg_s s) (sg_l s) (sg_g s).

Definition sizeof_GDT_entry : Z := 8.
Definition setup_amd64_segment_regs (gdt_addr : Z) (r : kvm_sregs) : kvm_sregs :=
  let data := mkSeg 0 0xffffffff 0x23 3 1 3 0 1 1 1 in
  mkSregs (mkSeg 0 0xffffffff 0x2B 11 1 3 0 1 1 1) data data (s_fs r) (s_gs r) data (s_tr r)
    (mkDtable gdt_addr (sizeof_GDT_entry * 7 - 1)) (s_idt r) (s_cr0 r) (s_cr3 r) (s_cr4 r) (s_efer r).

(** ** Interrupt gates (idt.cpp) *)

Record IDTentry := mkIDT { offset_1 : Z; selector : Z; ist : Z; type_attr : Z; offset_2 : Z; offset_3 : Z; zero2 : Z }.
Definition IDT_bytes (e : IDTentry) : list Z :=
  le_bytes 2 (offset_1 e) ++ le_bytes 2 (selector e) ++ le_bytes 1 (ist e) ++ le_bytes 1 (type_attr e) ++
  le_bytes 2 (offset_2 e) ++ le_bytes 4 (offset_3 e) ++ le_bytes 4 (zero2 e).
Definition IDT_GATE_INTR : Z := 0x0e.
Definition IDT_CPL0 : Z := 0x00.
Definition IDT_PRESENT : Z := 0x80.
Definition sizeof_IDT : Z := 33 * 16.

(** [addr_helper] splits the address. *)
Definition set_entry (handler segment_sel attributes : Z) : IDTentry :=
  mkIDT (handler mod 2 ^ 16) segment_sel 1 attributes (handler / 2 ^ 16 mod 2 ^ 16) (handler / 2 ^ 32 mod 2 ^ 32) 0.
Definition set_exception_handler (area vec handler : Z) (h : heap) : heap :=
  store_bytes h (area + 16 * vec) (IDT_bytes (set_entry handler 0x8 (IDT_PRESENT .| IDT_CPL0 .| IDT_GATE_INTR))).

(** The loop over the vectors; [continue] does not advance the offset. *)
Fixpoint exception_loop (vecs : list Z) (area offset : Z) (h : heap) : Z * heap :=
  match vecs with
  | [] => (offset, h)
  | i :: vecs' =>
      if i =? 15 then exception_loop vecs' area offset h
      else exception_loop vecs' area (offset ⊕ vm64_except_size) (set_exception_handler area i offset h)
  end.
Definition setup_amd64_exceptions (addr area except_area : Z) (h : heap) : heap :=
  let (offset, h) := exception_loop (seqZ 0 21) area (addr ⊕ vm64_exception) h in
  let h := set_exception_handler area 32 (offset ⊕ vm64_except_size) h in
  store_bytes h except_area interrupts.

Definition setup_amd64_exception_regs (addr : Z) (r : kvm_sregs) : kvm_sregs :=
  mkSregs (s_cs r) (s_ds r) (s_es r) (s_fs r) (s_gs r) (s_ss r) (s_tr r) (s_gdt r)
    (mkDtable addr (sizeof_IDT - 1)) (s_cr0 r) (s_cr3 r) (s_cr4 r) (s_efer r).

(** [exceptions]: the names of the exceptions and whether the CPU pushes an error code;
    [std::array::at] throws for others. *)
Definition exceptions : list (string * bool) := [
  ("Divide-by-zero Error", false); ("Debug", false); ("Non-Maskable Interrupt", false); ("Breakpoint", false);
  ("Overflow", false); ("Bound Range Exceeded", false); ("Invalid Opcode", false); ("Device Not Available", false);
  ("Double Fault", true); ("Reserved", false); ("Invalid TSS", true); ("Segment Not Present", true);
  ("Stack-Segment Fault", true); ("General Protection Fault", true); ("Page Fault", true); ("Reserved", false);
  ("x87 Floating-point Exception", false); ("Alignment Check", true); ("Machine Check", false);
  ("SIMD Floating-point Exception", false); ("Virtualization Exception", false); ("Reserved", false);
  ("Reserved", false); ("Reserved", false); ("Reserved", false); ("Reserved", false); ("Reserved", false);
  ("Reserved", false); ("Reserved", false); ("Reserved", false); ("Security Exception", false); ("Reserved", false);
  ("Reserved", false); ("Execution Timeout", false)]%string.
Definition amd64_exception (intr : Z) : result (string * bool) :=
  match exceptions !! Z.to_nat intr with Some e => Ok e | None => Err OutOfRange end.
Definition amd64_exception_name (intr : Z) : result string :=
  match amd64_exception intr with Ok e => Ok (fst e) | Err x => Err x end.
Definition amd64_exception_code (intr : Z) : result bool :=
  match amd64_exception intr with Ok e => Ok (snd e) | Err x => Err x end.

(** ** Task state segments (tss.cpp) *)

Definition sizeof_TSS : Z := 104.
Definition TSS_RSP0 : Z := 4.
Definition TSS_RSP1 : Z := 12.
Definition TSS_RSP2 : Z := 20.
Definition TSS_IST1 : Z := 36.
Definition TSS_IST2 : Z := 44.
Definition TSS_IOMAP : Z := 102.
Definition tss_sel : Z := 0x30.
Definition st_u64 (p v : Z) (h : heap) : heap := store_bytes h p (le_bytes 8 v).
Definition st_u16 (p v : Z) (h : heap) : heap := store_bytes h p (le_bytes 2 v).

Definition host_ptr (addr : Z) : M VM Z := let! s := get in lift (at_ (vm s) addr 8).

Definition setup_amd64_tss : M VM unit :=
  let! s := get in
  let tss_base := physbase (vm s) ⊕ TSS_ADDR in
  let ist_base := physbase (vm s) ⊕ IST_ADDR in
  let! tss := host_ptr tss_base in
  on_pages (memset0 tss sizeof_TSS) ;;;
  on_pages (st_u64 (tss + TSS_RSP0) (ist_base ⊕ 0x1000)) ;;;
  on_pages (st_u64 (tss + TSS_RSP1) 0) ;;;
  on_pages (st_u64 (tss + TSS_RSP2) 0) ;;;
  on_pages (st_u64 (tss + TSS_IST1) (ist_base ⊕ 0x1000)) ;;;
  on_pages (st_u64 (tss + TSS_IST2) (ist_base ⊕ 0x800)) ;;;
  on_pages (st_u16 (tss + TSS_IOMAP) 104) ;;;
  let! gdt_ptr := host_ptr (physbase (vm s) ⊕ GDT_ADDR) in
  on_pages (GDT_write_TSS_segment (gdt_ptr + tss_sel) tss_base (sizeof_TSS - 1)).

(** [tss[c]] *)
Definition setup_tss_at (tss rsp0 : Z) (h : heap) : heap :=
  let h := st_u64 (tss + TSS_RSP0) rsp0 h in
  let h := st_u64 (tss + TSS_RSP1) 0 h in
  let h := st_u64 (tss + TSS_RSP2) 0 h in
  let h := st_u64 (tss + TSS_IST1) rsp0 h in
  st_u16 (tss + TSS_IOMAP) 104 h.
Definition setup_amd64_tss_smp : M VM unit :=
  let! s := get in
  let ist_base := physbase (vm s) ⊕ IST_ADDR in
  let! smp_tss_ptr := host_ptr (physbase (vm s) ⊕ TSS_SMP_ADDR) in
  on_pages (fun h => fold_left (fun h c =>
    setup_tss_at (smp_tss_ptr + sizeof_TSS * c) (ist_base ⊕ TSS_SMP_STACK * (c + 1)) h) (seqZ 0 17) h).

Definition setup_amd64_tss_regs (tss_addr : Z) (r : kvm_sregs) : kvm_sregs :=
  mkSregs (s_cs r) (s_ds r) (s_es r) (s_fs r) (s_gs r) (s_ss r)
    (mkSeg tss_addr (sizeof_TSS - 1) tss_sel 11 1 3 0 0 0 0) (s_gdt r) (s_idt r) (s_cr0 r) (s_cr3 r) (s_cr4 r) (s_efer r).

(** [Machine::setup_long_mode] before the page tables are built; the address of the
    remote-disconnect code is stored in 16 bits. *)
Definition setup_cpu_tables : M VM unit :=
  let! s := get in
  let base := physbase (vm s) in
  let! idt := host_ptr (base ⊕ IDT_ADDR) in
  let! iasm := host_ptr (base ⊕ INTR_ASM_ADDR) in
  on_pages (setup_amd64_exceptions (base ⊕ INTR_ASM_ADDR) idt iasm) ;;;
  let! gdt := host_ptr (base ⊕ GDT_ADDR) in
  on_pages (setup_amd64_segments gdt) ;;;
  setup_amd64_tss ;;;
  setup_amd64_tss_smp ;;;
  let! user := host_ptr (base ⊕ USER_ASM_ADDR) in
  on_pages (fun h => store_bytes h user usercode) ;;;
  let! page := resolve (base ⊕ INTR_ASM_ADDR) in
  on_pages (st_u16 (page + 10) (translated (vm s) usercode_remote_disconnect)).

Definition setup_long_mode `{os : HostOS} (phdrs : list Elf64_Phdr) (image_base : Z) (remappings : list VirtualRemapping)
    (split_hugepages_ split_all : bool) : M SU unit :=
  PageSetup.on_vm setup_cpu_tables ;;;
  let! kernel_end := setup_amd64_paging phdrs image_base remappings split_hugepages_ split_all in
  PageSetup.on_vm (upd (fun m => set_m_kernel_end m kernel_end)).

(** ** Initialising a vCPU (vcpu.cpp) *)

Definition bit (n : Z) : Z := Z.shiftl 1 n.
(** amd64.hpp *)
Definition CR0_boot : Z := 1 .| bit 1 .| bit 4 .| bit 5 .| bit 18 .| bit 31 .| bit 16.  (* PE MP ET NE AM PG WP *)
Definition CR4_boot : Z := bit 5 .| bit 9 .| bit 10 .| bit 18 .| bit 16.               (* PAE OSFXSR OSXMMEXCPT OSXSAVE FSGSBASE *)
Definition CR4_UMIP : Z := bit 11.
Definition CR4_SMEP : Z := bit 20.
Definition CR4_SMAP : Z := bit 21.
Definition EFER_boot : Z := 1 .| bit 8 .| bit 10 .| bit 11.                             (* SCE LME LMA NXE *)
Definition AMD64_MSR_STAR : Z := 0xC0000081.
Definition AMD64_MSR_LSTAR : Z := 0xC0000082.

(** What KVM and the CPU of the host answer. *)
Class KvmCpu := {
  kvm_create_vcpu : Z -> option Z;          (* KVM_CREATE_VCPU *)
  kvm_create_timer : option Z;              (* timer_create *)
  kvm_map_run : bool;                       (* mmap of kvm_run *)
  kvm_set_cpuid : bool;                     (* KVM_SET_CPUID2 *)
  kvm_get_xcr0 : option Z;                  (* KVM_GET_XCRS *)
  kvm_set_xcrs : Z -> bool;                 (* KVM_SET_XCRS *)
  kvm_set_msrs : list (Z * Z) -> Z;         (* KVM_SET_MSRS: how many were set *)
  kvm_set_mp_state : bool;                  (* KVM_SET_MP_STATE *)
  cpuid7_ebx : Z; cpuid7_ecx : Z; has_avx512f : bool }.

(** A vCPU, and the statics [minit] and [master_xregs] that all of them share. *)
Record CpuState := mkCpuState {
  fd : option Z; cpu_id : Z; last_fault : Z; timer : option Z; run_map : option bool (* mapped, or MAP_FAILED *);
  sregs : kvm_sregs; xcr0 : option Z; msrs : list (Z * Z); runnable : bool;
  minit : bool; master_xcr0 : option Z }.
Definition set_ids (s : CpuState) i := mkCpuState (fd s) i 0 (timer s) (run_map s) (sregs s) (xcr0 s) (msrs s) (runnable s) (minit s) (master_xcr0 s).
Definition set_cpu_id (s : CpuState) i := mkCpuState (fd s) i (last_fault s) (timer s) (run_map s) (sregs s) (xcr0 s) (msrs s) (runnable s) (minit s) (master_xcr0 s).
Definition set_fd (s : CpuState) x := mkCpuState x (cpu_id s) (last_fault s) (timer s) (run_map s) (sregs s) (xcr0 s) (msrs s) (runnable s) (minit s) (master_xcr0 s).
Definition set_timer (s : CpuState) x := mkCpuState (fd s) (cpu_id s) (last_fault s) x (run_map s) (sregs s) (xcr0 s) (msrs s) (runnable s) (minit s) (master_xcr0 s).
Definition set_run_map (s : CpuState) x := mkCpuState (fd s) (cpu_id s) (last_fault s) (timer s) x (sregs s) (xcr0 s) (msrs s) (runnable s) (minit s) (master_xcr0 s).
Definition set_special_registers (s : CpuState) x := mkCpuState (fd s) (cpu_id s) (last_fault s) (timer s) (run_map s) x (xcr0 s) (msrs s) (runnable s) (minit s) (master_xcr0 s).
Definition set_xcr0 (s : CpuState) x := mkCpuState (fd s) (cpu_id s) (last_fault s) (timer s) (run_map s) (sregs s) x (msrs s) (runnable s) (minit s) (master_xcr0 s).
Definition set_msrs (s : CpuState) x := mkCpuState (fd s) (cpu_id s) (last_fault s) (timer s) (run_map s) (sregs s) (xcr0 s) x (runnable s) (minit s) (master_xcr0 s).
Definition set_runnable (s : CpuState) x := mkCpuState (fd s) (cpu_id s) (last_fault s) (timer s) (run_map s) (sregs s) (xcr0 s) (msrs s) x (minit s) (master_xcr0 s).
Definition set_minit (s : CpuState) x := mkCpuState (fd s) (cpu_id s) (last_fault s) (timer s) (run_map s) (sregs s) (xcr0 s) (msrs s) (runnable s) true x.

Section init.
Context `{kvm : KvmCpu}.

Definition C := M CpuState.
Definition machine_exception {A} (msg : string) : C A := throw (MachineException msg 0).
Definition require (b : bool) (msg : string) : C unit := if b then ret tt else machine_exception msg.

Definition create_vcpu (id : Z) : C unit :=
  match kvm_create_vcpu id with
  | Some x => modify (fun s => set_fd s (Some x))
  | None => machine_exception "Failed to KVM_CREATE_VCPU"
  end.
Definition create_vcpu_timer : C unit :=
  match kvm_create_timer with
  | Some x => modify (fun s => set_timer s (Some x))
  | None => machine_exception "Unable to create timeout timer"
  end.
Definition map_kvm_run : C unit :=
  modify (fun s => set_run_map s (Some kvm_map_run)) ;;;
  require kvm_map_run "Failed to create KVM run-time mapped memory".

Definition vcpu_table_addr (m : vMemory) (id : Z) : Z := translated m usercode_cpuid ⊕ 16 * id.

Definition has (flags n : Z) : bool := Z.testbit flags n.
Definition boot_cr4 : Z :=
  let cr4 := CR4_boot in
  let cr4 := if has cpuid7_ecx 2 then cr4 .| CR4_UMIP else cr4 in
  let cr4 := if has cpuid7_ebx 7 then cr4 .| CR4_SMEP else cr4 in
  if has cpuid7_ebx 20 then cr4 .| CR4_SMAP else cr4.
Definition master_sregs (m : vMemory) (id : Z) : kvm_sregs :=
  let base := physbase m in
  let r := mkSregs zero_seg zero_seg zero_seg zero_seg zero_seg zero_seg zero_seg (mkDtable 0 0) (mkDtable 0 0)
    CR0_boot (base ⊕ PT_ADDR) boot_cr4 EFER_boot in
  let r := setup_amd64_segment_regs (base ⊕ GDT_ADDR) r in
  let r := mkSregs (s_cs r) (s_ds r) (s_es r) (s_fs r) (seg_with_base (s_gs r) (vcpu_table_addr m id)) (s_ss r) (s_tr r)
    (s_gdt r) (s_idt r) (s_cr0 r) (s_cr3 r) (s_cr4 r) (s_efer r) in
  setup_amd64_exception_regs (base ⊕ IDT_ADDR) (setup_amd64_tss_regs (base ⊕ TSS_ADDR) r).

Definition load_xcrs : C unit :=
  let! s := get in
  when (negb (minit s))
    (modify (fun s => set_minit s (master_xcr0 s)) ;;;
     match kvm_get_xcr0 with
     | None => machine_exception "KVM_GET_XCRS failed"
     | Some v => modify (fun s => set_minit s (Some (let v := v .| 7 in if has_avx512f then v .| 0xE0 else v)))
     end).
Definition set_xcrs : C unit :=
  let! s := get in
  let v := default 0 (master_xcr0 s) in
  require (kvm_set_xcrs v) "KVM_SET_XCRS failed" ;;;
  modify (fun s => set_xcr0 s (Some v)).
Definition syscall_msrs (m : vMemory) : list (Z * Z) :=
  [(AMD64_MSR_STAR, (0x8 .<< 32) .| (0x1B .<< 48)); (AMD64_MSR_LSTAR, translated_vm_syscall m)].
Definition load_msrs (l : list (Z * Z)) : C unit :=
  require (Z.of_nat (length l) <=? kvm_set_msrs l) "KVM_SET_MSRS: failed to set STAR/LSTAR" ;;;
  modify (fun s => set_msrs s l).

Definition vCPU_init (id : Z) (m : vMemory) : C unit :=
  modify (fun s => set_ids s id) ;;;
  let! s := get in
  when (bool_decide (fd s = None)) (create_vcpu id) ;;;
  when (bool_decide (timer s = None)) create_vcpu_timer ;;;
  when (bool_decide (run_map s = None)) (map_kvm_run ;;; require kvm_set_cpuid "KVM_SET_CPUID2 failed") ;;;
  when (negb (m_forked m))
    (require (has cpuid7_ebx 0) "CPU does not support FS/GS base (too old?)" ;;;
     modify (fun s => set_special_registers s (master_sregs m id))) ;;;
  load_xcrs ;;;
  set_xcrs ;;;
  load_msrs (syscall_msrs m ++ (if m_forked m then [] else [(0x4b564d00, 0x2010); (0x4b564d01, 0x2021)])).

(** [main] are the special registers of the machine's first vCPU. *)
Definition smp_sregs (m : vMemory) (id : Z) (main : kvm_sregs) : kvm_sregs :=
  mkSregs (s_cs main) (s_ds main) (s_es main) (s_fs main) (seg_with_base (s_gs main) (vcpu_table_addr m id)) (s_ss main)
    (seg_with_base (s_tr main) (physbase m ⊕ TSS_SMP_ADDR ⊕ (id - 1) * sizeof_TSS)) (s_gdt main) (s_idt main)
    (s_cr0 main .& not64 CR0_WP) (page_tables m) (s_cr4 main) (s_efer main).
Definition smp_init (id : Z) (m : vMemory) (main : kvm_sregs) : C unit :=
  modify (fun s => set_cpu_id s id) ;;;
  create_vcpu id ;;;
  create_vcpu_timer ;;;
  map_kvm_run ;;;
  require kvm_set_mp_state "KVM_SET_MP_STATE failed" ;;;
  modify (fun s => set_runnable s true) ;;;
  require kvm_set_cpuid "KVM_SET_CPUID2 failed" ;;;
  set_xcrs ;;;
  load_msrs (syscall_msrs m) ;;;
  modify (fun s => set_special_registers s (smp_sregs m id main)).
End init.

(** ** Writes to the kernel area *)

(** A write: where, relative to the start of main memory, and which bytes. *)
Definition write : Type := Z * list Z.
Definition apply_writes (B : Z) (l : list write) (h : heap) : heap :=
  fold_left (fun h w => store_bytes h (B + fst w) (snd w)) l h.
Definition clear_of (o n : Z) (w : Z * nat) : bool := (o + n <=? fst w) || (fst w + Z.of_nat (snd w) <=? o).
Definition shape (l : list write) : list (Z * nat) := map (fun w => (fst w, length (snd w))) l.

Lemma apply_writes_app B l1 l2 h : apply_writes B (l1 ++ l2) h = apply_writes B l2 (apply_writes B l1 h).
Proof. apply fold_left_app. Qed.

Lemma apply_writes_cons B o bs l h : apply_writes B ((o, bs) :: l) h = apply_writes B l (store_bytes h (B + o) bs).
Proof. done. Qed.

Lemma ld8_apply_writes B l h q : forallb (clear_of q 1) (shape l) = true ->
  ld8 (apply_writes B l h) (B + q) = ld8 h (B + q).
Proof.
  revert h. induction l as [|[o bs] l IH]; intros h Hc; [done|]. cbn [shape map forallb fst snd] in Hc.
  apply andb_true_iff in Hc as [Hc1 Hc2]. rewrite apply_writes_cons, (IH _ Hc2).
  rewrite ld8_store_bytes, decide_False; [done|]. unfold clear_of in Hc1. cbn [fst snd] in *. lia.
Qed.

Lemma clear_of_sub o n q l : o <= q < o + n -> forallb (clear_of o n) l = true -> forallb (clear_of q 1) l = true.
Proof. intros Hq. rewrite !forallb_forall. intros H x Hx. specialize (H x Hx). unfold clear_of in *. lia. Qed.

Lemma ld64_apply_writes B l h q : aligned8 (B + q) -> forallb (clear_of q 8) (shape l) = true ->
  ld64 (apply_writes B l h) (B + q) = ld64 h (B + q).
Proof.
  intros Hq. revert h. induction l as [|[o bs] l IH]; intros h Hc; [done|]. cbn [shape map forallb fst snd] in Hc.
  apply andb_true_iff in Hc as [Hc1 Hc2]. rewrite apply_writes_cons, (IH _ Hc2). apply ld64_store_bytes_other; [done|].
  unfold clear_of in Hc1. cbn [fst snd] in *. lia.
Qed.

(** The bytes of a write are there at the end if no later write touches them. *)
Lemma byte_written B l i o bs h k : l !! i = Some (o, bs) -> (k < length bs)%nat ->
  forallb (clear_of (o + Z.of_nat k) 1) (drop (S i) (shape l)) = true ->
  ld8 (apply_writes B l h) (B + (o + Z.of_nat k)) = nth k bs 0 mod 256.
Proof.
  intros Hi Hk Hc. rewrite <- (take_drop_middle l i (o, bs) Hi), apply_writes_app, apply_writes_cons.
  rewrite ld8_apply_writes.
  - rewrite ld8_store_bytes, decide_True by lia. do 2 f_equal. lia.
  - unfold shape in *. by rewrite <- skipn_map.
Qed.

Lemma bytes_written B l i o bs h : l !! i = Some (o, bs) -> Forall byte bs ->
  forallb (clear_of o (Z.of_nat (length bs))) (drop (S i) (shape l)) = true ->
  load_bytes (apply_writes B l h) (B + o) (length bs) = bs.
Proof.
  intros Hi Hb Hc. apply (nth_ext _ _ 0 0); [apply length_load_bytes|]. intros k Hk. rewrite length_load_bytes in Hk.
  rewrite nth_load_bytes by done. rewrite <- Z.add_assoc.
  rewrite (byte_written B l i o bs h k Hi Hk) by (eapply clear_of_sub; [|exact Hc]; lia).
  apply Z.mod_small. rewrite Forall_forall in Hb. apply Hb, list_elem_of_In, nth_In. done.
Qed.

(** ** The writes of [setup_cpu_tables] *)

Definition gate_bytes (handler : Z) : list Z := IDT_bytes (set_entry handler 0x8 (IDT_PRESENT .| IDT_CPL0 .| IDT_GATE_INTR)).
(** The next stub is number [n]. *)
Fixpoint gate_writes (first n : Z) (vecs : list Z) : list write :=
  match vecs with
  | [] => []
  | i :: vecs' => if i =? 15 then gate_writes first n vecs'
                  else (IDT_ADDR + 16 * i, gate_bytes (first + 8 * n)) :: gate_writes first (n + 1) vecs'
  end.
Definition seg_bytes (flags : Z) : list Z := GDT_bytes (mkGDT 0xFFFF 0 flags 0xF FLAGS_X64_PAGE 0).
Definition tss_writes (tss rsp0 : Z) : list write :=
  [(tss + TSS_RSP0, le_bytes 8 rsp0); (tss + TSS_RSP1, le_bytes 8 0); (tss + TSS_RSP2, le_bytes 8 0);
   (tss + TSS_IST1, le_bytes 8 rsp0); (tss + TSS_IOMAP, le_bytes 2 104)].
Definition exc_writes (base : Z) : list write :=
  gate_writes (base + INTR_ASM_ADDR + 0x220) 0 (seqZ 0 21) ++
  [(IDT_ADDR + 16 * 32, gate_bytes (base + INTR_ASM_ADDR + 0x220 + 8 * 21)); (INTR_ASM_ADDR, interrupts)].
Definition seg_writes : list write :=
  [(GDT_ADDR, repeat 0 8); (GDT_ADDR + 0x8, seg_bytes GDT_ACCESS_CODE); (GDT_ADDR + 0x10, seg_bytes GDT_ACCESS_DATA);
   (GDT_ADDR + 0x18, repeat 0 8); (GDT_ADDR + 0x20, seg_bytes GDT_ACCESS_DATA3); (GDT_ADDR + 0x28, seg_bytes GDT_ACCESS_CODE3);
   (GDT_ADDR + 0x30, repeat 0 8)].
Definition main_tss_writes (base : Z) : list write :=
  [(TSS_ADDR, repeat 0 (Z.to_nat sizeof_TSS));
   (TSS_ADDR + TSS_RSP0, le_bytes 8 (base + IST_ADDR + 0x1000)); (TSS_ADDR + TSS_RSP1, le_bytes 8 0);
   (TSS_ADDR + TSS_RSP2, le_bytes 8 0); (TSS_ADDR + TSS_IST1, le_bytes 8 (base + IST_ADDR + 0x1000));
   (TSS_ADDR + TSS_IST2, le_bytes 8 (base + IST_ADDR + 0x800)); (TSS_ADDR + TSS_IOMAP, le_bytes 2 104);
   (GDT_ADDR + tss_sel, GDT_bytes (mkGDT (sizeof_TSS - 1) ((base + TSS_ADDR) .& 0xFFFFFF) GDT_ACCESS_TSS 0 FLAGS_X64_TSS
     ((base + TSS_ADDR) .>> 24)))].
Definition smp_writes (base : Z) (cs : list Z) : list write :=
  concat (map (fun c => tss_writes (TSS_SMP_ADDR + sizeof_TSS * c) (base + IST_ADDR + TSS_SMP_STACK * (c + 1))) cs).
Definition code_writes (base : Z) : list write :=
  [(USER_ASM_ADDR, usercode); (INTR_ASM_ADDR + 10, le_bytes 2 (base + USER_ASM_ADDR + usercode_remote_disconnect))].
Definition table_writes (base : Z) : list write :=
  exc_writes base ++ seg_writes ++ main_tss_writes base ++ smp_writes base (seqZ 0 17) ++ code_writes base.

(** Main memory that holds the kernel area. *)
Record kernel_room (m : vMemory) : Prop := {
  kr_base : 0 <= physbase m;
  kr_size : PT_ADDR <= size m;
  kr_phys : physbase m + size m < W64;
  kr_ptr : 0 <= ptr m;
  kr_host : ptr m + size m < W64 }.

Lemma kernel_at m off n : kernel_room m -> 0 <= off -> 0 <= n -> off + n <= PT_ADDR ->
  at_ m (physbase m ⊕ off) n = Ok (ptr m + off).
Proof.
  intros [] H0 Hn H. unfold PT_ADDR in *. unfold at_, within, main_at.
  rewrite !(add64_small (physbase m)), add64_small, sub64_small by (unfold u64; lia).
  replace (physbase m <=? physbase m + off) with true by lia.
  replace (physbase m + off + n <=? physbase m + size m) with true by lia.
  replace (physbase m + off <=? physbase m + off + n) with true by lia. cbn [andb].
  rewrite add64_small by (unfold u64; lia). f_equal. lia.
Qed.

Lemma on_pages_wp f (Q : unit -> VM -> Prop) X s :
  Q tt (mkVM (mkHost (f (h_heap (vhost s))) (h_live (vhost s)) (h_slots (vhost s))) (vm s)) -> wp (on_pages f) Q X s.
Proof. done. Qed.

Lemma exception_loop_writes B vecs first n h : 0 <= first + 8 * n -> first + 8 * n + 8 * Z.of_nat (length vecs) < W64 ->
  exception_loop vecs (B + IDT_ADDR) (first + 8 * n) h =
    (first + 8 * (n + Z.of_nat (length (gate_writes first n vecs))), apply_writes B (gate_writes first n vecs) h).
Proof.
  revert n h. induction vecs as [|i vecs IH]; intros n h H0 H1; cbn [exception_loop gate_writes length]; [f_equal; lia|].
  cbn [length] in H1. destruct (i =? 15); [by rewrite IH by lia|].
  change vm64_except_size with 8. rewrite add64_small by (unfold u64; lia).
  replace (first + 8 * n + 8) with (first + 8 * (n + 1)) by lia. rewrite IH by lia.
  cbn [length]. f_equal; [lia|]. rewrite apply_writes_cons. unfold set_exception_handler. by rewrite Z.add_assoc.
Qed.

#[local] Opaque store_bytes le_bytes interrupts usercode.

Lemma exceptions_writes B base h : 0 <= base -> base + PT_ADDR < W64 ->
  setup_amd64_exceptions (base + INTR_ASM_ADDR) (B + IDT_ADDR) (B + INTR_ASM_ADDR) h = apply_writes B (exc_writes base) h.
Proof.
  intros H0 H1. unfold setup_amd64_exceptions, exc_writes, PT_ADDR, INTR_ASM_ADDR in *.
  change vm64_exception with 0x220. change vm64_except_size with 8. generalize interrupts as code. intros code.
  rewrite add64_small by (unfold u64; lia).
  replace (base + 8192 + 544) with (base + 8192 + 544 + 8 * 0) at 1 by lia.
  rewrite exception_loop_writes by (rewrite ?length_seqZ; lia).
  assert (length (gate_writes (base + 8192 + 544) 0 (seqZ 0 21)) = 20%nat) as -> by reflexivity.
  rewrite add64_small by (unfold u64; lia). rewrite apply_writes_app, !apply_writes_cons. unfold set_exception_handler, gate_bytes.
  rewrite !(Z.add_assoc B). replace (base + 8192 + 544 + 8 * (0 + Z.of_nat 20) + 8) with (base + 8192 + 544 + 8 * 21) by lia.
  reflexivity.
Qed.

Lemma segments_writes B h : setup_amd64_segments (B + GDT_ADDR) h = apply_writes B seg_writes h.
Proof. unfold seg_writes. rewrite !apply_writes_cons, !(Z.add_assoc B). reflexivity. Qed.

Lemma fold_left_step {A B} (f : A -> B -> A) x l a : fold_left f (x :: l) a = fold_left f l (f a x).
Proof. reflexivity. Qed.

Lemma tss_at_writes B t rsp0 h : setup_tss_at (B + t) rsp0 h = apply_writes B (tss_writes t rsp0) h.
Proof. unfold tss_writes, setup_tss_at, st_u64, st_u16. rewrite !apply_writes_cons, !(Z.add_assoc B). reflexivity. Qed.

Lemma smp_tss_writes B base cs h : Forall (fun c => 0 <= c < 17) cs -> 0 <= base -> base + PT_ADDR < W64 ->
  fold_left (fun h c => setup_tss_at (B + TSS_SMP_ADDR + sizeof_TSS * c) (base + IST_ADDR ⊕ TSS_SMP_STACK * (c + 1)) h) cs h =
  apply_writes B (smp_writes base cs) h.
Proof.
  intros Hc H0 H1. unfold PT_ADDR in H1. revert h. induction Hc as [|c cs Hc _ IH]; intros h; [done|].
  unfold smp_writes in *. rewrite fold_left_step, map_cons, concat_cons, apply_writes_app, <- tss_at_writes, <- IH, Z.add_assoc.
  rewrite add64_small by (unfold u64, TSS_SMP_STACK, IST_ADDR; lia). reflexivity.
Qed.

Definition with_heap_of (s : VM) (h : heap) : VM := mkVM (mkHost h (h_live (vhost s)) (h_slots (vhost s))) (vm s).

Lemma tss_run s : kernel_room (vm s) -> setup_amd64_tss s =
  (Ok tt, with_heap_of s (apply_writes (ptr (vm s)) (main_tss_writes (physbase (vm s))) (h_heap (vhost s)))).
Proof.
  intros Hr. unfold setup_amd64_tss, host_ptr, bind, get, lift. cbn [vm].
  rewrite (kernel_at _ TSS_ADDR) by (done || (unfold TSS_ADDR, PT_ADDR; lia)).
  unfold on_pages, on_vhost, on_heap, modify. cbn [vm vhost].
  rewrite (kernel_at _ GDT_ADDR) by (done || (unfold GDT_ADDR, PT_ADDR; lia)).
  destruct Hr. unfold PT_ADDR, TSS_ADDR, GDT_ADDR, IST_ADDR in *.
  rewrite !add64_small by (unfold u64; (rewrite ?add64_small by (unfold u64; lia)); lia).
  unfold main_tss_writes. rewrite !apply_writes_cons, !(Z.add_assoc (ptr (vm s))). reflexivity.
Qed.

Lemma wp_of_run {S A} (m : M S A) Q X s a s' : m s = (Ok a, s') -> Q a s' -> wp m Q X s.
Proof. unfold wp. by intros ->. Qed.

Lemma host_ptr_run s off : kernel_room (vm s) -> 0 <= off -> off + 8 <= PT_ADDR ->
  host_ptr (physbase (vm s) ⊕ off) s = (Ok (ptr (vm s) + off), s).
Proof. intros. unfold host_ptr, bind, get, lift. by rewrite kernel_at. Qed.

Lemma kernel_page s off : kernel_room (vm s) -> 0 <= off -> off + PAGE_SIZE <= PT_ADDR ->
  resolve (physbase (vm s) ⊕ off) s = (Ok (ptr (vm s) + off), s).
Proof.
  intros Hr H0 H1. unfold resolve, bind, get, lift. f_equal.
  assert (within (vm s) (physbase (vm s) ⊕ off) PAGE_SIZE = true) as E.
  { destruct Hr. unfold within, PAGE_SIZE, PT_ADDR in *.
    rewrite (add64_small (physbase (vm s)) off), add64_small, add64_small by (unfold u64; lia).
    replace (physbase (vm s) <=? physbase (vm s) + off) with true by lia.
    replace (physbase (vm s) + off + 4096 <=? physbase (vm s) + size (vm s)) with true by lia.
    by replace (physbase (vm s) + off <=? physbase (vm s) + off + 4096) with true by lia. }
  pose proof (kernel_at (vm s) off PAGE_SIZE Hr H0 ltac:(done) H1) as Ha. unfold at_ in Ha. rewrite E in Ha.
  destruct (vm s). unfold page_at. by rewrite E.
Qed.

Lemma smp_wp s (Q : unit -> VM -> Prop) X : kernel_room (vm s) ->
  Q tt (with_heap_of s (apply_writes (ptr (vm s)) (smp_writes (physbase (vm s)) (seqZ 0 17)) (h_heap (vhost s)))) ->
  wp setup_amd64_tss_smp Q X s.
Proof.
  intros Hr HQ. unfold setup_amd64_tss_smp. wp_step. wp_step. wp_step.
  eapply wp_of_run; [by apply host_ptr_run|]. apply on_pages_wp. destruct Hr.
  rewrite (add64_small (physbase (vm s))) by (unfold u64, IST_ADDR, PT_ADDR in *; lia).
  rewrite smp_tss_writes; [exact HQ|apply Forall_forall; intros c; rewrite elem_of_seqZ; lia|done|unfold PT_ADDR in *; lia].
Qed.

(** The rules on states that differ from [s] in the heap only. *)
Section rules.
Variable s : VM.
Hypothesis Hr : kernel_room (vm s).
Implicit Types (Q : unit -> VM -> Prop).

Lemma ptr_rule off h (Q : Z -> VM -> Prop) X : 0 <= off -> off + 8 <= PT_ADDR ->
  Q (ptr (vm s) + off) (with_heap_of s h) -> wp (host_ptr (physbase (vm s) ⊕ off)) Q X (with_heap_of s h).
Proof. intros H0 H1. apply wp_of_run, (host_ptr_run (with_heap_of s h)); done. Qed.
Lemma page_rule off h (Q : Z -> VM -> Prop) X : 0 <= off -> off + PAGE_SIZE <= PT_ADDR ->
  Q (ptr (vm s) + off) (with_heap_of s h) -> wp (resolve (physbase (vm s) ⊕ off)) Q X (with_heap_of s h).
Proof. intros H0 H1. apply wp_of_run, (kernel_page (with_heap_of s h)); done. Qed.
Lemma pages_rule f h Q X : Q tt (with_heap_of s (f h)) -> wp (on_pages f) Q X (with_heap_of s h).
Proof. done. Qed.
Lemma tss_rule h Q X : Q tt (with_heap_of s (apply_writes (ptr (vm s)) (main_tss_writes (physbase (vm s))) h)) ->
  wp setup_amd64_tss Q X (with_heap_of s h).
Proof. apply wp_of_run, (tss_run (with_heap_of s h) Hr). Qed.
Lemma smp_rule h Q X : Q tt (with_heap_of s (apply_writes (ptr (vm s)) (smp_writes (physbase (vm s)) (seqZ 0 17)) h)) ->
  wp setup_amd64_tss_smp Q X (with_heap_of s h).
Proof. intros HQ. by apply (smp_wp (with_heap_of s h)). Qed.

Lemma tables_wp Q X :
  Q tt (with_heap_of s (apply_writes (ptr (vm s)) (table_writes (physbase (vm s))) (h_heap (vhost s)))) ->
  wp setup_cpu_tables Q X s.
Proof.
  intros HQ. pose proof Hr as []. replace s with (with_heap_of s (h_heap (vhost s))) at 1 by (by destruct s as [[] ?]).
  unfold setup_cpu_tables. wp_step. wp_step. cbn [vm with_heap_of].
  wp_step. apply ptr_rule; [done..|]. wp_step. apply ptr_rule; [done..|]. wp_step. apply pages_rule.
  rewrite (add64_small (physbase (vm s)) INTR_ASM_ADDR) by (unfold u64, INTR_ASM_ADDR, PT_ADDR in *; lia).
  rewrite exceptions_writes by (done || (unfold PT_ADDR in *; lia)).
  wp_step. apply ptr_rule; [done..|]. wp_step. apply pages_rule. rewrite segments_writes.
  wp_step. apply tss_rule. wp_step. apply smp_rule. wp_step. apply ptr_rule; [done..|].
  wp_step. apply pages_rule. wp_step.
  replace (physbase (vm s) + INTR_ASM_ADDR) with (physbase (vm s) ⊕ INTR_ASM_ADDR) by (rewrite add64_small; [done|unfold u64, INTR_ASM_ADDR, PT_ADDR in *; lia]).
  apply page_rule; [done..|]. apply pages_rule. unfold table_writes in HQ. rewrite !apply_writes_app in HQ.
  unfold code_writes in HQ. rewrite !apply_writes_cons, Z.add_assoc in HQ. unfold st_u16, translated.
  rewrite (add64_small (physbase (vm s)) USER_ASM_ADDR), add64_small
    by (unfold u64, USER_ASM_ADDR, usercode_remote_disconnect, PT_ADDR in *; lia).
  exact HQ.
Qed.
End rules.
#[local] Transparent store_bytes le_bytes interrupts usercode.

(** ** Reading the tables as the processor does *)

(** An interrupt gate of 16 bytes. *)
Record Gate := mkGate { g_present : bool; g_dpl : Z; g_type : Z; g_selector : Z; g_ist : Z; g_offset : Z }.
Definition decode_gate (l : list Z) : Gate :=
  let attr := nth 5 l 0 in
  mkGate (Z.testbit attr 7) (attr / 32 mod 4) (attr mod 16) (u16_at l 2) (nth 4 l 0 mod 8)
    (u16_at l 0 + 2 ^ 16 * u16_at l 6 + 2 ^ 32 * field32 l 8).
(** A code or data segment descriptor of 8 bytes. *)
Record Segment := mkSegment { sd_present : bool; sd_dpl : Z; sd_code : bool; sd_writable_or_readable : bool; sd_long : bool; sd_base : Z }.
Definition decode_segment (l : list Z) : Segment :=
  let access := nth 5 l 0 in
  mkSegment (Z.testbit access 7) (access / 32 mod 4) (Z.testbit access 3) (Z.testbit access 1) (Z.testbit (nth 6 l 0) 5)
    (le_value (take 3 (drop 2 l)) + 2 ^ 24 * nth 7 l 0).

(** The port to which a handler sends: it may start with the instructions of the page-fault
    handler ([push], [mov rdi, cr2], [mov eax, [rsp+16]]) and jumps. *)
Fixpoint out_port (fuel : nat) (code : Z -> Z) (pc : Z) : option Z :=
  match fuel with
  | O => None
  | S fuel' =>
      let b := code pc in
      if b =? 0xE7 then Some (code (pc + 1))
      else if b =? 0xE9 then
        let rel := le_value [code (pc + 1); code (pc + 2); code (pc + 3); code (pc + 4)] in
        out_port fuel' code (pc + 5 + (if rel <? 2 ^ 31 then rel else rel - 2 ^ 32))
      else if (b =? 0x50) || (b =? 0x57) then out_port fuel' code (pc + 1)
      else if (b =? 0x0F) && (code (pc + 1) =? 0x20) then out_port fuel' code (pc + 3)
      else if (b =? 0x8B) && (code (pc + 1) =? 0x44) then out_port fuel' code (pc + 4)
      else None
  end.

Lemma out_port_ext fuel f g pc : (forall x, f x = g x) -> out_port fuel f pc = out_port fuel g pc.
Proof.
  intros E. revert pc. induction fuel as [|fuel IH]; intros pc; [done|]. cbn [out_port]. rewrite !E, !IH. done.
Qed.

Lemma decode_gate_bytes a : u64 a -> decode_gate (gate_bytes a) = mkGate true 0 0xE 8 1 a.
Proof.
  intros Ha. unfold u64 in Ha. unfold decode_gate, gate_bytes, IDT_bytes, set_entry, u16_at, field32.
  cbn -[Z.add Z.mul Z.modulo Z.div Z.pow Z.testbit]. f_equal. dlia.
Qed.

(** The vectors with a gate, and the exception the host is told about. *)
Definition gate_vectors : list Z := seqZ 0 15 ++ seqZ 16 5 ++ [32].
Definition stub_of (v : Z) : Z := if v <? 15 then v else if v <? 21 then v - 1 else 21.
Definition reported (v : Z) : Z := if v <? 15 then v else if v <? 21 then v - 1 else 33.

Definition write_index (v : Z) : nat := Z.to_nat (if v <? 15 then v else if v <? 21 then v - 1 else 20).

Lemma gates_in_place base : Forall (fun v =>
  table_writes base !! write_index v = Some (IDT_ADDR + 16 * v, gate_bytes (base + INTR_ASM_ADDR + 0x220 + 8 * stub_of v)))
  gate_vectors.
Proof. repeat constructor. Qed.

Lemma tables_clear base : Forall (fun v =>
  forallb (clear_of (IDT_ADDR + 16 * v) 16) (drop (S (write_index v)) (shape (table_writes base))) = true) gate_vectors.
Proof. repeat constructor. Qed.

(** ** What the tables say *)
Section boot.
Variables (base B : Z) (h : heap).
Hypotheses (Hbase : 0 <= base) (Hend : base + PT_ADDR < W64).
Let H : heap := apply_writes B (table_writes base) h.

Lemma gate_at v : v ∈ gate_vectors ->
  decode_gate (load_bytes H (B + (IDT_ADDR + 16 * v)) 16) = mkGate true 0 0xE 8 1 (base + INTR_ASM_ADDR + (0x220 + 8 * stub_of v)).
Proof.
  intros Hv. pose proof (gates_in_place base) as Hg. pose proof (tables_clear base) as Hc. rewrite Forall_forall in Hg, Hc.
  pose proof (bytes_written B _ _ _ _ h (Hg v Hv)) as Hw. cbn [length] in Hw. unfold H.
  change (length (gate_bytes (base + INTR_ASM_ADDR + 544 + 8 * stub_of v))) with 16%nat in Hw. rewrite Hw; [| |by apply Hc].
  - rewrite <- Z.add_assoc. apply decode_gate_bytes.
    assert (Forall (fun v => (0 <=? stub_of v) && (stub_of v <=? 21) = true) gate_vectors) as Hs by repeat constructor.
    rewrite Forall_forall in Hs. specialize (Hs v Hv). unfold u64, PT_ADDR, INTR_ASM_ADDR in *. lia.
  - unfold gate_bytes, IDT_bytes. repeat (apply Forall_app; split); apply le_bytes_byte.
Qed.

Lemma handler_code pc : 12 <= pc < 717 -> ld8 H (B + (INTR_ASM_ADDR + pc)) = nth (Z.to_nat pc) interrupts 0.
Proof.
  intros Hpc. replace (INTR_ASM_ADDR + pc) with (INTR_ASM_ADDR + Z.of_nat (Z.to_nat pc)) by lia. unfold H.
  rewrite (byte_written B _ 21 INTR_ASM_ADDR interrupts h (Z.to_nat pc)); [|reflexivity|change (length interrupts) with 717%nat; lia|].
  - apply Z.mod_small. assert (Forall byte interrupts) as Hb by (apply (bool_decide_unpack _); vm_compute; exact I).
    rewrite Forall_forall in Hb. apply Hb, list_elem_of_In, nth_In. change (length interrupts) with 717%nat. lia.
  - apply (clear_of_sub (INTR_ASM_ADDR + 12) 705); [lia|reflexivity].
Qed.

Lemma code_reports (f : Z -> Z) v : (forall pc, 12 <= pc < 717 -> f pc = nth (Z.to_nat pc) interrupts 0) -> v ∈ gate_vectors ->
  out_port 8 f (0x220 + 8 * stub_of v) = Some (128 + reported v).
Proof.
  intros Hf Hv. set (g pc := if (12 <=? pc) && (pc <? 717) then nth (Z.to_nat pc) interrupts 0 else f pc).
  rewrite (out_port_ext 8 f g) by (intros pc; unfold g; destruct (_ && _) eqn:E; [apply Hf; lia|done]).
  revert v Hv. rewrite <- Forall_forall. unfold g. repeat constructor.
Qed.
Lemma handler_reports v : v ∈ gate_vectors ->
  out_port 8 (fun pc => ld8 H (B + (INTR_ASM_ADDR + pc))) (0x220 + 8 * stub_of v) = Some (128 + reported v).
Proof. apply code_reports. intros pc. apply handler_code. Qed.

Lemma segment_bytes i o flags : table_writes base !! i = Some (GDT_ADDR + o, seg_bytes flags) ->
  forallb (clear_of (GDT_ADDR + o) 8) (drop (S i) (shape (table_writes base))) = true ->
  load_bytes H (B + (GDT_ADDR + o)) 8 = seg_bytes flags.
Proof. intros Hi Hc. apply (bytes_written B _ i (GDT_ADDR + o) (seg_bytes flags) h Hi); [apply le_bytes_byte|done]. Qed.

Lemma field_written i o v : table_writes base !! i = Some (o, le_bytes 8 v) -> u64 v ->
  forallb (clear_of o 8) (drop (S i) (shape (table_writes base))) = true ->
  field64 (load_bytes H (B + o) 8) 0 = v.
Proof.
  intros Hi Hv Hc. unfold field64, H. pose proof (bytes_written B _ i o (le_bytes 8 v) h Hi (le_bytes_byte 8 v)) as Hw.
  rewrite length_le_bytes in Hw. rewrite Hw by done. rewrite drop_0, take_ge by (rewrite length_le_bytes; lia).
  apply le_value_bytes. done.
Qed.

Lemma smp_stacks id : 1 <= id <= 17 ->
  field64 (load_bytes H (B + (TSS_SMP_ADDR + sizeof_TSS * (id - 1) + TSS_IST1)) 8) 0 = base + IST_ADDR + TSS_SMP_STACK * id.
Proof.
  intros Hid. apply (field_written (Z.to_nat (40 + 5 * (id - 1)))); [|unfold u64, PT_ADDR, IST_ADDR, TSS_SMP_STACK in *; lia|];
    assert (id ∈ seqZ 1 17) as Hin by (apply elem_of_seqZ; lia); clear Hid; revert id Hin; rewrite <- Forall_forall;
    repeat constructor.
Qed.

Lemma tables_clear_of q n : 0 <= n -> q + n <= GDT_ADDR \/ TSS_SMP_ADDR + 17 * sizeof_TSS <= q ->
  forallb (clear_of q n) (shape (table_writes base)) = true.
Proof.
  intros Hn Hq.
  assert (forallb (fun w => (GDT_ADDR <=? fst w) && (fst w + Z.of_nat (snd w) <=? TSS_SMP_ADDR + 17 * sizeof_TSS))
    (shape (table_writes base)) = true) as Hin by reflexivity.
  rewrite forallb_forall in *. intros w Hw. specialize (Hin w Hw). unfold clear_of. lia.
Qed.
Lemma tables_inside q : q < GDT_ADDR \/ TSS_SMP_ADDR + 17 * sizeof_TSS <= q -> ld8 H (B + q) = ld8 h (B + q).
Proof. intros Hq. apply ld8_apply_writes, tables_clear_of; lia. Qed.
Lemma words_inside q : aligned8 (B + q) -> q + 8 <= GDT_ADDR \/ TSS_SMP_ADDR + 17 * sizeof_TSS <= q -> ld64 H (B + q) = ld64 h (B + q).
Proof. intros Ha Hq. apply ld64_apply_writes; [done|]. by apply tables_clear_of. Qed.
End boot.

(** ** Initialised vCPUs *)
Section started.
Context `{kvm : KvmCpu}.

Definition kvm_error (e : exn) : Prop := exists msg, e = MachineException msg 0.

Lemma require_wp b msg (Q : unit -> CpuState -> Prop) c :
  (b = true -> Q tt c) -> wp (require b msg) Q (fun e _ => kvm_error e) c.
Proof. unfold require, machine_exception. intros HQ. wp_step; wp_step; [by apply HQ|by exists msg]. Qed.

(** The registers the vCPU starts with; those of a fork are set when it is put into
    copy-on-write mode. *)
Definition started (id : Z) (m : vMemory) (c c' : CpuState) : Prop :=
  cpu_id c' = id /\ last_fault c' = 0 /\ fd c' <> None /\ timer c' <> None /\
  sregs c' = (if m_forked m then sregs c else master_sregs m id) /\
  msrs c' = syscall_msrs m ++ (if m_forked m then [] else [(0x4b564d00, 0x2010); (0x4b564d01, 0x2021)]).

Lemma vCPU_init_wp id m c : wp (vCPU_init id m) (fun _ c' => started id m c c') (fun e _ => kvm_error e) c.
Proof.
  unfold vCPU_init, create_vcpu, create_vcpu_timer, map_kvm_run, load_xcrs, set_xcrs, load_msrs, machine_exception.
  destruct c as [f i l t r sr x ms ru mi mx].
  repeat first [apply require_wp; intros ? | wp_step; cbn beta iota; cbn [set_ids set_minit fd timer run_map minit] in *].
  all: try by eexists.
  all: rewrite ?bool_decide_eq_false in *; unfold started; destruct (m_forked m); try discriminate; split_and!; try done; congruence.
Qed.

(** ** The theorem *)

(** The descriptor a selector names. *)
Definition segment_at (bytes : Z -> nat -> list Z) (sel : Z) : Segment := decode_segment (bytes (GDT_ADDR + 8 * (sel / 8)) 8%nat).
(** The selectors that SYSCALL and SYSRET load, by the STAR register. *)
Definition syscall_cs (star : Z) : Z := star / 2 ^ 32 mod 2 ^ 16.
Definition sysret_cs (star : Z) : Z := star / 2 ^ 48 mod 2 ^ 16 + 16.
Definition msr (l : list (Z * Z)) (i : Z) : option Z := snd <$> List.find (fun e => fst e =? i) l.

(** The registers of a vCPU fit the tables: its gates, its task segment, and the code and
    stack segments of user mode and of system calls. *)
Definition fits (m : vMemory) (bytes : Z -> nat -> list Z) (c : CpuState) : Prop :=
  let r := sregs c in
  s_idt r = mkDtable (physbase m + IDT_ADDR) (33 * 16 - 1) /\ dt_base (s_gdt r) = physbase m + GDT_ADDR /\
  sg_base (s_tr r) = physbase m + TSS_ADDR /\ s_cr3 r = physbase m + PT_ADDR /\
  (sg_selector (s_cs r) mod 4 = 3 /\ sg_selector (s_ss r) mod 4 = 3 /\ sg_selector (s_cs r) / 8 * 8 <= dt_limit (s_gdt r)) /\
  segment_at bytes (sg_selector (s_cs r)) = mkSegment true (sg_dpl (s_cs r)) true true true 0 /\
  segment_at bytes (sg_selector (s_ss r)) = mkSegment true (sg_dpl (s_ss r)) false true true 0 /\
  msr (msrs c) AMD64_MSR_LSTAR = Some (physbase m + INTR_ASM_ADDR + 0x40) /\
  exists star, msr (msrs c) AMD64_MSR_STAR = Some star /\
    segment_at bytes (syscall_cs star) = mkSegment true 0 true true true 0 /\
    segment_at bytes (syscall_cs star + 8) = mkSegment true 0 false true true 0 /\
    sysret_cs star = sg_selector (s_cs r) /\ sysret_cs star - 8 = sg_selector (s_ss r).

Lemma decode_segs :
  decode_segment (seg_bytes GDT_ACCESS_CODE) = mkSegment true 0 true true true 0 /\
  decode_segment (seg_bytes GDT_ACCESS_DATA) = mkSegment true 0 false true true 0 /\
  decode_segment (seg_bytes GDT_ACCESS_CODE3) = mkSegment true 3 true true true 0 /\
  decode_segment (seg_bytes GDT_ACCESS_DATA3) = mkSegment true 3 false true true 0.
Proof. vm_compute. done. Qed.

(** It is enough that four descriptors are read back. *)
Definition segments_in (bytes : Z -> nat -> list Z) : Prop :=
  bytes (GDT_ADDR + 8 * 1) 8%nat = seg_bytes GDT_ACCESS_CODE /\ bytes (GDT_ADDR + 8 * 2) 8%nat = seg_bytes GDT_ACCESS_DATA /\
  bytes (GDT_ADDR + 8 * 4) 8%nat = seg_bytes GDT_ACCESS_DATA3 /\ bytes (GDT_ADDR + 8 * 5) 8%nat = seg_bytes GDT_ACCESS_CODE3.

Lemma tables_segments base B h : 0 <= base -> base + PT_ADDR < W64 ->
  segments_in (fun a n => load_bytes (apply_writes B (table_writes base) h) (B + a) n).
Proof.
  intros H0 H1. split_and!.
  - exact (segment_bytes base B h 23 (8 * 1) GDT_ACCESS_CODE eq_refl eq_refl).
  - exact (segment_bytes base B h 24 (8 * 2) GDT_ACCESS_DATA eq_refl eq_refl).
  - exact (segment_bytes base B h 26 (8 * 4) GDT_ACCESS_DATA3 eq_refl eq_refl).
  - exact (segment_bytes base B h 27 (8 * 5) GDT_ACCESS_CODE3 eq_refl eq_refl).
Qed.

Lemma master_fits_segments base bytes m c c' : 0 <= base -> base + PT_ADDR < W64 -> physbase m = base -> m_forked m = false ->
  segments_in bytes -> started 0 m c c' -> fits m bytes c'.
Proof.
  intros H0 H1 Eb Ef (Hk&Hd&Hud&Huc) (_&_&_&_&Er&Em). unfold fits. rewrite Er, Em, Ef.
  unfold master_sregs, setup_amd64_exception_regs, setup_amd64_tss_regs, setup_amd64_segment_regs, syscall_msrs, translated_vm_syscall.
  cbn [s_idt s_gdt s_tr s_cr3 s_cs s_ss dt_base dt_limit sg_base sg_selector sg_dpl]. rewrite Eb.
  change vm64_syscall with 0x40.
  rewrite !(add64_small base) by (unfold u64, PT_ADDR, IDT_ADDR, GDT_ADDR, TSS_ADDR, INTR_ASM_ADDR in *; lia).
  rewrite (add64_small (base + INTR_ASM_ADDR)) by (unfold u64, PT_ADDR, INTR_ASM_ADDR in *; lia).
  unfold segment_at. change (0x2B / 8) with 5. change (0x23 / 8) with 4. rewrite Huc, Hud.
  destruct decode_segs as (Dk & Dd & Duc & Dud). rewrite Duc, Dud.
  split_and!; try reflexivity; [by apply Z.leb_le|]. exists (0x8 .<< 32 .| 0x1B .<< 48). split; [reflexivity|]. unfold syscall_cs, sysret_cs.
  change ((0x8 .<< 32 .| 0x1B .<< 48) / 2 ^ 32 mod 2 ^ 16) with 8. change ((8 + 8) / 8) with 2. change (8 / 8) with 1.
  rewrite Hk, Hd, Dk, Dd. split_and!; reflexivity.
Qed.

Lemma master_fits base B h m c c' : 0 <= base -> base + PT_ADDR < W64 -> physbase m = base -> m_forked m = false ->
  started 0 m c c' -> fits m (fun a n => load_bytes (apply_writes B (table_writes base) h) (B + a) n) c'.
Proof. intros H0 H1 Eb Ef. apply (master_fits_segments base); [done..|]. by apply tables_segments. Qed.

(** C37: [setup_cpu_tables] leaves tables in guest memory that the processor reads as
    intended, and the registers a new vCPU gets fit them.  Every vector from 0 to 20 but 15, and
    the timer's, has a present interrupt gate for the kernel, on the interrupt stack, whose
    handler sends a number to the host ([reported]): the vector's own up to 14, 33 for the timer,
    but from 16 to 20 that of the vector before it (see the findings).  The interrupt stacks of the vCPUs are 240 bytes apart.  Nothing
    outside the kernel area changes.  [vCPU::init] either throws because KVM refuses
    something, or leaves the first vCPU (number 0) of a master with gate table, task segment, user-mode and system-call
    segments that are found in the tables with the privilege they should have. *)
Theorem boot_tables s : kernel_room (vm s) -> m_forked (vm s) = false ->
  wp setup_cpu_tables
    (fun _ s' =>
       let bytes a n := load_bytes (h_heap (vhost s')) (ptr (vm s) + a) n in
       vm s' = vm s /\
       (forall v, v ∈ gate_vectors -> exists pc,
          decode_gate (bytes (IDT_ADDR + 16 * v) 16%nat) = mkGate true 0 0xE 8 1 (physbase (vm s) + INTR_ASM_ADDR + pc) /\
          out_port 8 (fun pc => ld8 (h_heap (vhost s')) (ptr (vm s) + (INTR_ASM_ADDR + pc))) pc = Some (128 + reported v)) /\
       field64 (bytes (TSS_ADDR + TSS_IST1) 8%nat) 0 = physbase (vm s) + IST_ADDR + 0x1000 /\
       (forall id, 1 <= id <= 17 ->
          field64 (bytes (TSS_SMP_ADDR + sizeof_TSS * (id - 1) + TSS_IST1) 8%nat) 0 = physbase (vm s) + IST_ADDR + TSS_SMP_STACK * id) /\
       (forall q, q < GDT_ADDR \/ TSS_SMP_ADDR + 17 * sizeof_TSS <= q ->
          ld8 (h_heap (vhost s')) (ptr (vm s) + q) = ld8 (h_heap (vhost s)) (ptr (vm s) + q)) /\
       forall c, wp (vCPU_init 0 (vm s')) (fun _ c' => fits (vm s) bytes c') (fun e _ => kvm_error e) c)
    (fun _ _ => False) s.
Proof.
  intros Hr Hf. pose proof Hr as []. apply tables_wp; [done|]. cbn [with_heap_of vm vhost h_heap].
  assert (physbase (vm s) + PT_ADDR < W64) as He by lia. split_and!; [done| | | | |].
  - intros v Hv. eexists. split; [by apply gate_at|by apply handler_reports].
  - apply (field_written _ _ _ 33); [done|unfold u64, PT_ADDR, IST_ADDR in *; lia|done].
  - intros id Hid. by apply smp_stacks.
  - intros q Hq. by apply tables_inside.
  - intros c. eapply wp_mono; [apply vCPU_init_wp| |done]. intros u c' Hc. by apply (master_fits (physbase (vm s)) _ _ (vm s) c).
Qed.
End started.

(** ** Examples *)

Definition demo_kvm : KvmCpu := Build_KvmCpu (fun id => Some (id + 3)) (Some 7) true true (Some 1) (fun _ => true)
  (fun l => Z.of_nat (length l)) true (bit 0 .| bit 7 .| bit 20) (bit 2) false.
Definition demo_boot : VM := mkVM (mkHost ∅ [(0x10000000, 0x400000)] ∅) demo_memory.

#[local] Existing Instance demo_kvm.

Lemma boot_tables_witness : kernel_room (vm demo_boot) /\
  wp setup_cpu_tables (fun _ s' => forall c, wp (vCPU_init 0 (vm s')) (fun _ c' =>
    fits demo_memory (fun a n => load_bytes (h_heap (vhost s')) (0x10000000 + a) n) c') (fun e _ => kvm_error e) c)
    (fun _ _ => False) demo_boot.
Proof.
  assert (kernel_room (vm demo_boot)) as Hr by (constructor; vm_compute; done). split; [done|].
  eapply wp_mono; [apply (@boot_tables demo_kvm demo_boot Hr eq_refl)| |done].
  intros u s' (_ & _ & _ & _ & _ & Hc). exact Hc.
Defined.

(** The exception of vector 19 arrives as number 18, which is that of a machine check. *)
Example simd_exception_misnamed : reported 19 = 18 /\ amd64_exception_name 18 = Ok "Machine Check"%string /\
  amd64_exception_name 19 = Ok "SIMD Floating-point Exception"%string.
Proof. done. Qed.
(** The constants of usercode.hpp are those of the code. *)
Example usercode_header : u16_at usercode 0 = usercode_entry /\ u16_at usercode 2 = usercode_rexit /\
  u16_at usercode 4 = usercode_preserving_entry /\ u16_at usercode 6 = usercode_remote_disconnect /\
  field32 usercode 8 = usercode_cpuid.
Proof. done. Qed.
(** In a machine whose memory does not start at zero the address of the disconnect code does
    not fit the 16 bits it is stored in. *)
Example remote_return_truncated : le_value (le_bytes 2 (0x40000000 + USER_ASM_ADDR + usercode_remote_disconnect)) = 0x503E.
Proof. done. Qed.
(** When mapping [kvm_run] fails once, a later [init] of the same vCPU takes it for mapped. *)
Example failed_map_is_kept :
  let kvm_bad := Build_KvmCpu (fun id => Some 3) (Some 7) false true (Some 1) (fun _ => true) (fun l => Z.of_nat (length l))
    true 1 0 false in
  let c0 := mkCpuState None 0 0 None None zero_sregs None [] false false None in
  fst (@vCPU_init kvm_bad 0 demo_memory c0) = Err (MachineException "Failed to create KVM run-time mapped memory" 0) /\
  fst (@vCPU_init kvm_bad 0 demo_memory (snd (@vCPU_init kvm_bad 0 demo_memory c0))) = Ok tt.
Proof. split; vm_compute; reflexivity. Qed.
