(* ===== verification/Smp.v ===== *)
(** * Calls on several vCPUs

    lib/tinykvm/smp.cpp: a machine starts a function on several vCPUs at once.  Every vCPU has a
    thread with a queue of tasks (util/threadpool.h, with one worker); the registers of a call
    are in an array that the last vCPU to finish deletes, found by a shared counter.

    The threads interleave: the main thread and each worker take steps in any order, and a step
    is one access to what they share (a queue, the counter, the list of arrays, an array).
    A step that would touch a deleted array or an element outside of one is an error.  Taking a
    task and reading its registers is one step: it makes no difference what others do in between.
    The vCPU's run itself ([VcpuRun]) is a step with an arbitrary result. *)
From stdpp Require Import base tactics list list_numbers numbers strings gmap relations.
From Stdlib Require Import ZArith Lia Bool.
From S2P Require Import Prelude Cpu.
Local Open Scope Z_scope.

(** [MPvCPU_data]; the registers are not initialised. *)
Record MPvCPU_data := mkMPData { d_vcpu : option nat; d_ticks : Z; d_regs : option x86regs }.
Definition new_data : MPvCPU_data := mkMPData None 0 None.

(** A task of a vCPU's thread: a call, with the array and the index of its data, or something
    else ([smp_init], a message). *)
Inductive task := Exec (a i : nat) | Other.
(** What a worker is doing: a call, another task, or (as the last to finish a call) taking over
    the list of arrays and deleting them. *)
Inductive worker_state := Idle | Running (regs : x86regs) (ticks : Z) | Busy | Clear | Free (l : list nat).

(** [MPvCPU]: the queue and worker of its thread pool, and RDI of its vCPU. *)
Record MPvCPU := mkMPvCPU { tasks : list task; worker : worker_state; c_rdi : Z }.
(** The new vCPU's first task is [smp_init]. *)
Definition new_cpu : MPvCPU := mkMPvCPU [Other] Idle 0.

Inductive call_kind := timed_smpcall | timed_smpcall_array | timed_smpcall_clone.
(** A call in progress: its array, the number of vCPUs, the ticks, and the registers that
    [setup_call] or [setup_clone] makes for each vCPU, or its exception. *)
Record call := mkCall { k_kind : call_kind; k_array : nat; k_cpus : nat; k_ticks : Z; k_regs : nat -> result x86regs }.

(** Where the main thread is. *)
Inductive main_pc :=
| Outside                                      (* not in a function of SMP *)
| Allocated (k : call)                         (* before the counter is raised *)
| Filling (k : call) (c : nat)                 (* the loop, at vCPU [c] *)
| Sending (k : call) (c : nat)                 (* before [async_exec] *)
| Waiting (c : nat)                            (* [wait], for vCPU [c] *)
| Gathering (n c : nat) (sent : bool) (acc : list Z).  (* a message to vCPU [c] of [n] *)

(** [SMP].  [arrays] are the arrays that exist; [waited] says that nothing was started since
    the last [wait]; [results] is what [gather_return_values] returned last. *)
Record SMP := mkSMP {
  m_cpus : list MPvCPU; m_smp_active : Z; m_smp_data : list nat;
  arrays : gmap nat (list MPvCPU_data); next_array : nat; pc : main_pc; waited : bool; results : list Z }.
Definition smp_init_state : SMP := mkSMP [] 0 [] ∅ 0 Outside true [].

Definition set_pc (s : SMP) (p : main_pc) : SMP :=
  mkSMP (m_cpus s) (m_smp_active s) (m_smp_data s) (arrays s) (next_array s) p (waited s) (results s).
Definition set_cpus (s : SMP) (l : list MPvCPU) : SMP :=
  mkSMP l (m_smp_active s) (m_smp_data s) (arrays s) (next_array s) (pc s) (waited s) (results s).
Definition set_active (s : SMP) (v : Z) : SMP :=
  mkSMP (m_cpus s) v (m_smp_data s) (arrays s) (next_array s) (pc s) (waited s) (results s).
Definition set_data (s : SMP) (l : list nat) : SMP :=
  mkSMP (m_cpus s) (m_smp_active s) l (arrays s) (next_array s) (pc s) (waited s) (results s).
Definition set_arrays (s : SMP) (a : gmap nat (list MPvCPU_data)) : SMP :=
  mkSMP (m_cpus s) (m_smp_active s) (m_smp_data s) a (next_array s) (pc s) (waited s) (results s).
Definition set_waited (s : SMP) (b : bool) : SMP :=
  mkSMP (m_cpus s) (m_smp_active s) (m_smp_data s) (arrays s) (next_array s) (pc s) b (results s).
Definition set_results (s : SMP) (l : list Z) : SMP :=
  mkSMP (m_cpus s) (m_smp_active s) (m_smp_data s) (arrays s) (next_array s) (pc s) (waited s) l.
Definition set_worker (s : SMP) (c : nat) (x : MPvCPU) (w : worker_state) : SMP :=
  set_cpus s (<[c := mkMPvCPU (tasks x) w (c_rdi x)]> (m_cpus s)).

(** ** The main thread *)

Definition prepare_cpus (num_cpus : nat) (cpus : list MPvCPU) : list MPvCPU :=
  cpus ++ replicate (num_cpus - length cpus) new_cpu.

(** [prepare_cpus] and [smp_allocate_vcpu_data] *)
Definition start_call (kind : call_kind) (num_cpus : nat) (ticks : Z) (regs : nat -> result x86regs) (s : SMP) : SMP :=
  let a := next_array s in
  mkSMP (prepare_cpus num_cpus (m_cpus s)) (m_smp_active s) (m_smp_data s ++ [a])
    (<[a := replicate num_cpus new_data]> (arrays s)) (S a) (Allocated (mkCall kind a num_cpus ticks regs)) false (results s).

(** The bound of the loop: [num_cpus] in the template, [m_cpus.size()] in the two others. *)
Definition loop_end (k : call) (s : SMP) : nat :=
  match k_kind k with timed_smpcall => k_cpus k | _ => length (m_cpus s) end.

Definition use_after_free {A} : result A := Err (Undefined "use of a deleted array").
Definition out_of_range {A} : result A := Err (Undefined "element outside of an array").

(** [data[c].vcpu = ...; data[c].ticks = ...; setup_call(data[c].regs, ...)]; an exception
    leaves the function. *)
Definition fill (k : call) (c : nat) (s : SMP) : result SMP :=
  if (c <? loop_end k s)%nat then
    match arrays s !! k_array k with
    | None => use_after_free
    | Some d =>
        if (c <? length d)%nat then
          let put r := set_arrays s (<[k_array k := <[c := mkMPData (Some c) (k_ticks k) r]> d]> (arrays s)) in
          match k_regs k c with
          | Ok regs => Ok (set_pc (put (Some regs)) (Sending k c))
          | Err _ => Ok (set_pc (put None) Outside)
          end
        else out_of_range
    end
  else Ok (set_pc s Outside).

(** The limit of a thread pool's queue. *)
Definition max_queue_size : nat := 100.
(** [thpool.enqueue] of vCPU [c], or [None] while it waits for room. *)
Definition enqueue (c : nat) (t : task) (s : SMP) : option SMP :=
  match m_cpus s !! c with
  | Some x => if (length (tasks x) <? max_queue_size)%nat
              then Some (set_cpus s (<[c := mkMPvCPU (tasks x ++ [t]) (worker x) (c_rdi x)]> (m_cpus s)))
              else None
  | None => None
  end.

(** Nothing in flight *)
Definition quiet (x : MPvCPU) : bool :=
  match tasks x, worker x with [], Idle => true | _, _ => false end.

Inductive start :=
| StartCall (kind : call_kind) (num_cpus : nat) (ticks : Z) (regs : nat -> result x86regs)
| StartWait
| StartGather (cpus : nat).

(** [SMP::wait], at vCPU [c] *)
Definition wait_step (c : nat) (s : SMP) : option (result SMP) :=
  match m_cpus s !! c with
  | Some x => if quiet x then Some (Ok (set_pc s (Waiting (S c)))) else None
  | None => Some (Ok (set_waited (set_pc s Outside) true))
  end.

(** [gather_return_values]: a message to each of [n] vCPUs, which is waited for.  It is the last
    task of the queue, as only this thread adds any, so it has run when nothing is in flight. *)
Definition gather_start (cpus : nat) (s : SMP) : SMP :=
  let n := if (cpus =? 0)%nat || (length (m_cpus s) <? cpus)%nat then length (m_cpus s) else cpus in
  set_pc s (Gathering n 0 false []).
Definition gather_step (n c : nat) (sent : bool) (acc : list Z) (s : SMP) : option (result SMP) :=
  if sent then
    match m_cpus s !! c with
    | Some x => if quiet x then Some (Ok (set_pc s (Gathering n (S c) false (acc ++ [c_rdi x])))) else None
    | None => None
    end
  else if (c <? n)%nat then
    match enqueue c Other s with Some s' => Some (Ok (set_pc s' (Gathering n c true acc))) | None => None end
  else Some (Ok (set_results (set_pc s Outside) acc)).

(** The next step of the main thread, [None] if it cannot go on; outside of the functions of
    SMP it starts one. *)
Definition main_step (what : start) (s : SMP) : option (result SMP) :=
  match pc s with
  | Outside =>
      match what with
      | StartCall kind n ticks regs => if (n =? 0)%nat then None else Some (Ok (start_call kind n ticks regs s))
      | StartWait => Some (Ok (set_pc s (Waiting 0)))
      | StartGather n => Some (Ok (gather_start n s))
      end
  | Allocated k => Some (Ok (set_pc (set_active s (m_smp_active s + Z.of_nat (k_cpus k))) (Filling k 0)))
  | Filling k c => Some (fill k c s)
  | Sending k c =>
      match enqueue c (Exec (k_array k) c) s with Some s' => Some (Ok (set_pc s' (Filling k (S c)))) | None => None end
  | Waiting c => wait_step c s
  | Gathering n c sent acc => gather_step n c sent acc s
  end.

(** ** The workers *)

(** The task of [async_exec]: up to the run *)
Definition async_exec (c : nat) (x : MPvCPU) (a i : nat) (rest : list task) (s : SMP) : result SMP :=
  match arrays s !! a with
  | None => use_after_free
  | Some d =>
      match d !! i with
      | Some (mkMPData (Some _) ticks (Some regs)) =>
          Ok (set_cpus s (<[c := mkMPvCPU rest (Running regs ticks) (c_rdi x)]> (m_cpus s)))
      | Some _ => Err (Undefined "data that was not set")
      | None => out_of_range
      end
  end.

(** [decrement_smp_count] after the run, which left [rdi] in RDI: the counter, ... *)
Definition decrement_smp_count (c : nat) (x : MPvCPU) (rdi : Z) (s : SMP) : SMP :=
  let v := m_smp_active s in
  set_active (set_cpus s (<[c := mkMPvCPU (tasks x) (if v =? 1 then Clear else Idle) rdi]> (m_cpus s))) (v - 1).
(** ... the list of arrays, ... *)
Definition take_smp_data (c : nat) (x : MPvCPU) (s : SMP) : SMP := set_data (set_worker s c x (Free (m_smp_data s))) [].
(** ... and one array after the other. *)
Definition delete_smp_data (c : nat) (x : MPvCPU) (l : list nat) (s : SMP) : result SMP :=
  match l with
  | [] => Ok (set_worker s c x Idle)
  | a :: l' =>
      match arrays s !! a with
      | None => use_after_free
      | Some _ => Ok (set_arrays (set_worker s c x (Free l')) (base.delete a (arrays s)))
      end
  end.

(** The next step of the worker of vCPU [c]; [rdi] is what a run leaves in RDI. *)
Definition worker_step (c : nat) (rdi : Z) (s : SMP) : option (result SMP) :=
  match m_cpus s !! c with
  | None => None
  | Some x =>
      match worker x with
      | Idle =>
          match tasks x with
          | [] => None
          | Other :: l => Some (Ok (set_cpus s (<[c := mkMPvCPU l Busy (c_rdi x)]> (m_cpus s))))
          | Exec a i :: l => Some (async_exec c x a i l s)
          end
      | Busy => Some (Ok (set_worker s c x Idle))
      | Running _ _ => Some (Ok (decrement_smp_count c x rdi s))
      | Clear => Some (Ok (take_smp_data c x s))
      | Free l => Some (delete_smp_data c x l s)
      end
  end.

(** ** Runs *)

(** How the functions are to be used: a call starts only when the one before was waited for, and
    the variants that loop over all vCPUs ask for at least as many as there are.  [throws] says
    whether [setup_call] may throw. *)
Definition careful (throws : bool) (what : start) (s : SMP) : Prop :=
  match what with
  | StartCall kind n _ regs =>
      pc s = Outside ->
      waited s = true /\ (kind = timed_smpcall \/ (length (m_cpus s) <= n)%nat) /\
      (throws = false -> forall c, exists r, regs c = Ok r)
  | _ => True
  end.

Inductive smp_step (throws : bool) (s s' : SMP) : Prop :=
| step_main what : careful throws what s -> main_step what s = Some (Ok s') -> smp_step throws s s'
| step_worker c rdi : worker_step c rdi s = Some (Ok s') -> smp_step throws s s'.

(** ** What is still to be done *)

Definition is_exec (t : task) : bool := match t with Exec _ _ => true | Other => false end.
Fixpoint execs (l : list task) : nat :=
  match l with [] => 0 | t :: l' => (if is_exec t then 1 else 0) + execs l' end%nat.
Definition cpu_pending (x : MPvCPU) : nat := (execs (tasks x) + match worker x with Running _ _ => 1 | _ => 0 end)%nat.
Definition pending (l : list MPvCPU) : nat := sum_list_with cpu_pending l.
Definition remaining (p : main_pc) : nat :=
  match p with Filling k c | Sending k c => k_cpus k - c | _ => 0 end%nat.
Definition clearing (w : worker_state) : Prop := match w with Clear | Free _ => True | _ => False end.
Definition in_call (p : main_pc) : Prop := match p with Allocated _ | Filling _ _ | Sending _ _ => True | _ => False end.
Definition calm (x : MPvCPU) : Prop := cpu_pending x = 0%nat /\ ~ clearing (worker x).

(** The data of a call is there. *)
Definition ready (m : gmap nat (list MPvCPU_data)) (a i : nat) : Prop :=
  exists d v t r, m !! a = Some d /\ d !! i = Some (mkMPData (Some v) t (Some r)).
Definition has_array (m : gmap nat (list MPvCPU_data)) (k : call) : Prop :=
  exists d, m !! k_array k = Some d /\ length d = k_cpus k.

Definition call_ok (throws : bool) (s : SMP) (k : call) (c : nat) : Prop :=
  loop_end k s = k_cpus k /\ (k_cpus k <= length (m_cpus s))%nat /\ (throws = false -> forall c, exists r, k_regs k c = Ok r) /\
  (forall c' x i, m_cpus s !! c' = Some x -> Exec (k_array k) i ∈ tasks x -> (i < c)%nat).

Definition pc_ok (throws : bool) (s : SMP) : Prop :=
  match pc s with
  | Allocated k => call_ok throws s k 0 /\ k_cpus k <> 0%nat /\ pending (m_cpus s) = 0%nat /\ has_array (arrays s) k
  | Filling k c => call_ok throws s k c /\ (c <= k_cpus k)%nat /\ ((c < k_cpus k)%nat -> has_array (arrays s) k)
  | Sending k c => call_ok throws s k c /\ (c < k_cpus k)%nat /\ has_array (arrays s) k /\ ready (arrays s) (k_array k) c
  | Waiting c => forall c' x, (c' < c)%nat -> m_cpus s !! c' = Some x -> calm x
  | _ => True
  end.

Record inv (throws : bool) (s : SMP) : Prop := {
  i_count : Z.of_nat (pending (m_cpus s) + remaining (pc s)) <= m_smp_active s;
  i_exact : throws = false -> m_smp_active s = Z.of_nat (pending (m_cpus s) + remaining (pc s));
  i_tasks : forall c x a i, m_cpus s !! c = Some x -> Exec a i ∈ tasks x -> ready (arrays s) a i;
  i_nodup : NoDup (m_smp_data s);
  i_live : forall a, a ∈ m_smp_data s -> is_Some (arrays s !! a);
  i_owned : forall a, is_Some (arrays s !! a) -> (a < next_array s)%nat /\
    (a ∈ m_smp_data s \/ exists c x l, m_cpus s !! c = Some x /\ worker x = Free l /\ a ∈ l);
  i_clear : forall c x, m_cpus s !! c = Some x -> clearing (worker x) ->
    m_smp_active s = 0 /\ (forall k, pc s <> Allocated k) /\
    (forall c' x', m_cpus s !! c' = Some x' -> clearing (worker x') -> c' = c) /\
    (forall l, worker x = Free l -> m_smp_data s = [] /\ NoDup l /\ forall a, a ∈ l -> is_Some (arrays s !! a));
  i_left : m_smp_data s <> [] ->
    0 < m_smp_active s \/ (exists k, pc s = Allocated k) \/ exists c x, m_cpus s !! c = Some x /\ worker x = Clear;
  i_pc : pc_ok throws s;
  i_waited : waited s = true -> forall c x, m_cpus s !! c = Some x -> calm x;
  i_outside : waited s = true -> ~ in_call (pc s) }.

Lemma pending_insert l c x y : l !! c = Some x ->
  (pending (<[c := y]> l) + cpu_pending x = pending l + cpu_pending y)%nat.
Proof.
  revert c. induction l as [|z l IH]; intros [|c] H; [done..| |]; simpl in H; simplify_eq; unfold pending in *; simpl; [lia|].
  specialize (IH c H). lia.
Qed.
Lemma pending_app l l' : pending (l ++ l') = (pending l + pending l')%nat.
Proof. unfold pending. induction l as [|x l IH]; simpl; lia. Qed.
Lemma pending_new n : pending (replicate n new_cpu) = 0%nat.
Proof. unfold pending. induction n as [|n IH]; [done|]. simpl. rewrite IH. done. Qed.
Lemma pending_zero l c x : pending l = 0%nat -> l !! c = Some x -> cpu_pending x = 0%nat.
Proof.
  revert c. induction l as [|z l IH]; intros [|c] H E; [done..| |]; simpl in E; simplify_eq; unfold pending in *; simpl in H; [lia|].
  eapply IH; [|done]. lia.
Qed.
Lemma pending_le l c x : l !! c = Some x -> (cpu_pending x <= pending l)%nat.
Proof.
  revert c. induction l as [|z l IH]; intros [|c] E; [done..| |]; simpl in E; simplify_eq; unfold pending in *; simpl; [lia|].
  specialize (IH c E). lia.
Qed.
Lemma execs_app l l' : execs (l ++ l') = (execs l + execs l')%nat.
Proof. induction l as [|t l IH]; simpl; lia. Qed.
Lemma execs_zero l a i : execs l = 0%nat -> Exec a i ∉ l.
Proof. induction l as [|t l IH]; simpl; intros H; [set_solver|]. destruct t; simpl in *; [lia|]. set_solver. Qed.
Lemma pending_no_exec l c x a i : pending l = 0%nat -> l !! c = Some x -> Exec a i ∉ tasks x.
Proof. intros Hp Hx. apply execs_zero. pose proof (pending_zero _ _ _ Hp Hx) as H. unfold cpu_pending in H. lia. Qed.
Lemma all_calm l : (forall c x, l !! c = Some x -> calm x) -> pending l = 0%nat.
Proof.
  induction l as [|z l IH]; intros H; [done|]. unfold pending in *. simpl. destruct (H 0%nat z eq_refl) as [-> _].
  apply IH. intros c x Hx. by apply (H (S c)).
Qed.
Lemma quiet_calm x : quiet x = true -> calm x.
Proof. unfold quiet, calm, cpu_pending. destruct (tasks x), (worker x); try done. intros _. by split; [|intros []]. Qed.

(** A lookup in an updated list of vCPUs. *)
Lemma insert_inv (l : list MPvCPU) c x y c' z : l !! c = Some x -> <[c := y]> l !! c' = Some z ->
  c' = c /\ z = y \/ c' <> c /\ l !! c' = Some z.
Proof.
  intros Hx H. destruct (decide (c' = c)) as [->|N]; [left|right]; split; [done| |done|].
  - rewrite list_lookup_insert_eq in H by by eapply lookup_lt_Some. by simplify_eq.
  - by rewrite list_lookup_insert_ne in H.
Qed.
Lemma insert_here (l : list MPvCPU) c x y : l !! c = Some x -> <[c := y]> l !! c = Some y.
Proof. intros H. apply list_lookup_insert_eq. by eapply lookup_lt_Some. Qed.

(** ** Preservation *)

Section preservation.
Context (throws : bool).
Implicit Types (s : SMP).

(** The facts about a call in progress depend on the tasks and the number of vCPUs only. *)
Lemma call_ok_cpus s l k c : length l = length (m_cpus s) ->
  (forall c' x i, l !! c' = Some x -> Exec (k_array k) i ∈ tasks x -> exists x', m_cpus s !! c' = Some x' /\ Exec (k_array k) i ∈ tasks x') ->
  call_ok throws s k c -> call_ok throws (set_cpus s l) k c.
Proof.
  intros Hl Ht (H1&H2&H3&H4). unfold call_ok, loop_end in *. cbn [m_cpus set_cpus]. rewrite Hl. split_and!; try done.
  intros c' x i Hx Hi. destruct (Ht _ _ _ Hx Hi) as (x'&Hx'&Hi'). by eapply H4.
Qed.

(** A vCPU changes from [x] to [y]. *)
Lemma pc_ok_swap s c x y : pc_ok throws s -> m_cpus s !! c = Some x -> (forall a i, Exec a i ∈ tasks y -> Exec a i ∈ tasks x) ->
  (cpu_pending y <= cpu_pending x)%nat -> (calm x -> calm y) -> pc_ok throws (set_cpus s (<[c := y]> (m_cpus s))).
Proof.
  intros Hpc Hx Ht Hp Hc. pose proof (pending_insert _ _ _ y Hx) as Hpe. unfold pc_ok in *. cbn [pc set_cpus m_cpus arrays].
  assert (forall k n, call_ok throws s k n -> call_ok throws (set_cpus s (<[c := y]> (m_cpus s))) k n) as Hok.
  { intros k n. apply call_ok_cpus; [by rewrite length_insert|]. intros c' z i Hz Hi.
    destruct (insert_inv _ _ _ _ _ _ Hx Hz) as [[-> ->]|[_ Hz']]; [exists x; auto|exists z; auto]. }
  destruct (pc s) as [|k|k n|k n|n|]; try done.
  - destruct Hpc as (?&?&?&?). split_and!; [auto|done|lia|done].
  - destruct Hpc as (?&?&?). auto.
  - destruct Hpc as (?&?&?&?). auto.
  - intros c' z Hlt Hz. destruct (insert_inv _ _ _ _ _ _ Hx Hz) as [[-> ->]|[_ Hz']]; eauto.
Qed.

Lemma inv_swap s c x y : inv throws s -> m_cpus s !! c = Some x -> (forall a i, Exec a i ∈ tasks y -> Exec a i ∈ tasks x) ->
  cpu_pending y = cpu_pending x -> (clearing (worker y) -> worker y = worker x) -> (worker x = Clear -> worker y = Clear) ->
  (forall l, worker x = Free l -> l = [] \/ worker y = worker x) ->
  inv throws (set_cpus s (<[c := y]> (m_cpus s))).
Proof.
  intros [] Hx Ht Hp Hc Hn Hf. pose proof (pending_insert _ _ _ y Hx) as Hpe.
  assert (forall c' z, <[c := y]> (m_cpus s) !! c' = Some z -> clearing (worker z) ->
    exists z', m_cpus s !! c' = Some z' /\ worker z' = worker z) as Hcl.
  { intros c' z Hz Hzc. destruct (insert_inv _ _ _ _ _ _ Hx Hz) as [[-> ->]|[? ?]]; [|by exists z]. exists x. rewrite Hc; done. }
  assert (forall c' z, m_cpus s !! c' = Some z -> worker z = Clear \/ (exists a l, worker z = Free (a :: l)) ->
    exists z', <[c := y]> (m_cpus s) !! c' = Some z' /\ worker z' = worker z) as Hback.
  { intros c' z Hz Hwz. destruct (decide (c' = c)) as [->|N]; [|exists z; by rewrite list_lookup_insert_ne].
    rewrite Hx in Hz. simplify_eq. exists y. split; [by eapply insert_here|].
    destruct Hwz as [Hwz|(a&l&Hwz)]; [by rewrite (Hn Hwz)|]. by destruct (Hf _ Hwz). }
  constructor; cbn [m_cpus m_smp_active m_smp_data arrays next_array pc waited set_cpus]; try done.
  - lia.
  - intros Hth. specialize (i_exact0 Hth). lia.
  - intros c' z a i Hz Hi. destruct (insert_inv _ _ _ _ _ _ Hx Hz) as [[-> ->]|[_ Hz']]; eauto.
  - intros a Ha. destruct (i_owned0 a Ha) as [H1 [H2|(c'&z&l&Hz&Hw&Hl)]]; (split; [done|]); [by left|]. right.
    destruct l as [|b l]; [by apply elem_of_nil in Hl|]. destruct (Hback _ _ Hz) as (z'&Hz'&Hw'); [eauto|].
    exists c', z', (b :: l). split_and!; [done|congruence|done].
  - intros c' z Hz Hzc. destruct (Hcl _ _ Hz Hzc) as (z'&Hz'&Hw). rewrite <- Hw in Hzc |- *.
    destruct (i_clear0 _ _ Hz' Hzc) as (H1&H2&H3&H4). split_and!; try done.
    intros c2 z2 Hz2 Hzc2. destruct (Hcl _ _ Hz2 Hzc2) as (z2'&Hz2'&Hw2). eapply H3; [done|]. by rewrite Hw2.
  - intros Hd. destruct (i_left0 Hd) as [?|[?|(c'&z&Hz&Hw)]]; [auto..|]. right. right.
    destruct (Hback _ _ Hz) as (z'&Hz'&Hw'); [auto|]. exists c', z'. split; [done|congruence].
  - apply (pc_ok_swap s c x y); [done|done|done|lia|]. intros [? Hnc]. split; [lia|]. intros Hy. apply Hnc. by rewrite <- Hc.
  - intros Hw c' z Hz. destruct (insert_inv _ _ _ _ _ _ Hx Hz) as [[-> ->]|[_ Hz']]; [|by eapply i_waited0].
    destruct (i_waited0 Hw _ _ Hx) as [? Hnc]. split; [lia|]. intros Hy. apply Hnc. by rewrite <- Hc.
Qed.

(** The last step of a run: the counter goes down, and the one who brings it to zero clears. *)
Lemma inv_finish s c x rdi regs ticks : inv throws s -> m_cpus s !! c = Some x -> worker x = Running regs ticks ->
  inv throws (set_active (set_cpus s (<[c := mkMPvCPU (tasks x) (if m_smp_active s =? 1 then Clear else Idle) rdi]> (m_cpus s)))
    (m_smp_active s - 1)).
Proof.
  intros [] Hx Hw. set (y := mkMPvCPU _ _ _). pose proof (pending_insert _ _ _ y Hx) as Hpe.
  assert (cpu_pending x = S (cpu_pending y)) as Hp.
  { unfold cpu_pending. rewrite Hw. subst y. simpl. destruct (_ =? 1); lia. }
  pose proof (pending_le _ _ _ Hx) as Hle.
  assert (forall c' z, m_cpus s !! c' = Some z -> ~ clearing (worker z)) as Hnc.
  { intros c' z Hz Hzc. destruct (i_clear0 _ _ Hz Hzc) as (H1&_). lia. }
  assert (forall k, pc s <> Allocated k) as Hna.
  { intros k Hk. unfold pc_ok in i_pc0. rewrite Hk in i_pc0. destruct i_pc0 as (_&_&H0&_). lia. }
  assert (forall c' z, <[c := y]> (m_cpus s) !! c' = Some z -> clearing (worker z) -> c' = c /\ z = y /\ m_smp_active s = 1) as Hcl.
  { intros c' z Hz Hzc. destruct (insert_inv _ _ _ _ _ _ Hx Hz) as [[-> ->]|[? ?]]; [|by exfalso; eapply Hnc].
    split_and!; [done|done|]. subst y. simpl in Hzc. by destruct (Z.eqb_spec (m_smp_active s) 1). }
  constructor; cbn [m_cpus m_smp_active m_smp_data arrays next_array pc waited set_cpus set_active]; try done.
  - lia.
  - intros Hth. specialize (i_exact0 Hth). lia.
  - intros c' z a i Hz Hi. destruct (insert_inv _ _ _ _ _ _ Hx Hz) as [[-> ->]|[_ Hz']]; eauto.
  - intros a Ha. destruct (i_owned0 a Ha) as [H1 [H2|(c'&z&l&Hz&Hwz&Hl)]]; (split; [done|]); [by left|].
    exfalso. apply (Hnc _ _ Hz). by rewrite Hwz.
  - intros c' z Hz Hzc. destruct (Hcl _ _ Hz Hzc) as (->&->&Ha). split_and!; [lia|done| |].
    + intros c2 z2 Hz2 Hzc2. by destruct (Hcl _ _ Hz2 Hzc2).
    + intros l Hl. subst y. simpl in Hl. by rewrite Ha in Hl.
  - intros Hd. destruct (Z.eqb_spec (m_smp_active s) 1) as [E|E].
    + right. right. exists c, y. split; [by eapply insert_here|]. done.
    + destruct (i_left0 Hd) as [?|[(k&Hk)|(c'&z&Hz&Hwz)]]; [left; lia|by destruct (Hna k)|].
      exfalso. apply (Hnc _ _ Hz). by rewrite Hwz.
  - apply (pc_ok_swap s c x y); [done|done|done|lia|]. intros [H0 _]. lia.
  - intros Hwt c' z Hz. destruct (i_waited0 Hwt _ _ Hx) as [H0 _]. lia.
Qed.

(** Taking over the list of arrays. *)
Lemma inv_take s c x : inv throws s -> m_cpus s !! c = Some x -> worker x = Clear ->
  inv throws (set_data (set_worker s c x (Free (m_smp_data s))) []).
Proof.
  intros [] Hx Hw. set (y := mkMPvCPU (tasks x) (Free (m_smp_data s)) (c_rdi x)). pose proof (pending_insert _ _ _ y Hx) as Hpe.
  assert (cpu_pending y = cpu_pending x) as Hp by (unfold cpu_pending; by rewrite Hw).
  destruct (i_clear0 _ _ Hx ltac:(by rewrite Hw)) as (H1&H2&H3&_).
  assert (forall c' z, <[c := y]> (m_cpus s) !! c' = Some z -> clearing (worker z) -> c' = c /\ z = y) as Hcl.
  { intros c' z Hz Hzc. destruct (insert_inv _ _ _ _ _ _ Hx Hz) as [?|[N Hz']]; [done|]. destruct N. by eapply H3. }
  unfold set_worker. fold y.
  constructor; cbn [m_cpus m_smp_active m_smp_data arrays next_array pc waited set_cpus set_data]; try done.
  - lia.
  - intros Hth. specialize (i_exact0 Hth). lia.
  - intros c' z a i Hz Hi. destruct (insert_inv _ _ _ _ _ _ Hx Hz) as [[-> ->]|[_ Hz']]; [by eapply (i_tasks0 c x)|eauto].
  - constructor.
  - intros a Ha. by apply elem_of_nil in Ha.
  - intros a Ha. destruct (i_owned0 a Ha) as [Hn Ho]. split; [done|]. right. exists c, y, (m_smp_data s).
    split_and!; [by eapply insert_here|done|]. destruct Ho as [?|(c'&z&l&Hz&Hwz&Hl)]; [done|].
    assert (c' = c) as -> by (eapply H3; [done|by rewrite Hwz]). rewrite Hx in Hz. simplify_eq. by rewrite Hw in Hwz.
  - intros c' z Hz Hzc. destruct (Hcl _ _ Hz Hzc) as [-> ->]. split_and!; [done|done| |].
    + intros c2 z2 Hz2 Hzc2. by destruct (Hcl _ _ Hz2 Hzc2).
    + intros l [= <-]. by split_and!.
  - apply (pc_ok_swap s c x y); [done|done|done|lia|]. intros [_ H0]. by rewrite Hw in H0.
  - intros Hwt. destruct (i_waited0 Hwt _ _ Hx) as [_ H0]. by rewrite Hw in H0.
Qed.

(** When nothing is to be sent the arrays do not matter. *)
Lemma pc_ok_arrays s m : pc_ok throws s -> remaining (pc s) = 0%nat -> (forall k, pc s <> Allocated k) -> pc_ok throws (set_arrays s m).
Proof.
  unfold pc_ok. cbn [pc set_arrays m_cpus arrays]. destruct (pc s) as [|k|k n|k n|n|]; simpl; try done.
  - intros _ _ H. by destruct (H k).
  - intros (H1&H2&H3) Hr _. split_and!; [done|done|lia].
  - intros (H1&H2&H3) Hr _. lia.
Qed.

(** Deleting an array. *)
Lemma inv_delete_array s c x a l : inv throws s -> m_cpus s !! c = Some x -> worker x = Free (a :: l) ->
  inv throws (set_arrays (set_worker s c x (Free l)) (base.delete a (arrays s))).
Proof.
  intros [] Hx Hw. set (y := mkMPvCPU (tasks x) (Free l) (c_rdi x)). pose proof (pending_insert _ _ _ y Hx) as Hpe.
  assert (cpu_pending y = cpu_pending x) as Hp by (unfold cpu_pending; by rewrite Hw).
  destruct (i_clear0 _ _ Hx ltac:(by rewrite Hw)) as (H1&H2&H3&H4). destruct (H4 _ Hw) as (Hd&[Hal Hnd]%NoDup_cons&Hlive).
  assert (forall c' z, <[c := y]> (m_cpus s) !! c' = Some z -> clearing (worker z) -> c' = c /\ z = y) as Hcl.
  { intros c' z Hz Hzc. destruct (insert_inv _ _ _ _ _ _ Hx Hz) as [?|[N Hz']]; [done|]. destruct N. by eapply H3. }
  assert (pending (<[c := y]> (m_cpus s)) = 0%nat /\ remaining (pc s) = 0%nat) as [Hp0 Hr0] by lia.
  unfold set_worker. fold y.
  constructor; cbn [m_cpus m_smp_active m_smp_data arrays next_array pc waited set_cpus set_arrays]; try done.
  - lia.
  - intros Hth. specialize (i_exact0 Hth). lia.
  - intros c' z a' i Hz Hi. by destruct (pending_no_exec _ _ _ a' i Hp0 Hz).
  - rewrite Hd. intros a' Ha. by apply elem_of_nil in Ha.
  - intros a' [z [Hne Hz]%lookup_delete_Some]. destruct (i_owned0 a' ltac:(eauto)) as [Hn Ho]. split; [done|]. right.
    exists c, y, l. split_and!; [by eapply insert_here|done|]. destruct Ho as [Ho|(c'&z'&l'&Hz'&Hwz&Hl)].
    + rewrite Hd in Ho. by apply elem_of_nil in Ho.
    + assert (c' = c) as -> by (eapply H3; [done|by rewrite Hwz]). rewrite Hx in Hz'. simplify_eq.
      rewrite Hw in Hwz. simplify_eq. apply elem_of_cons in Hl as [->|]; done.
  - intros c' z Hz Hzc. destruct (Hcl _ _ Hz Hzc) as [-> ->]. split_and!; [done|done| |].
    + intros c2 z2 Hz2 Hzc2. by destruct (Hcl _ _ Hz2 Hzc2).
    + intros l' [= <-]. split_and!; [done|done|]. intros a' Ha'. rewrite lookup_delete_ne; [apply Hlive; set_solver|set_solver].
  - apply (pc_ok_arrays (set_cpus s (<[c := y]> (m_cpus s)))); [|done|done].
    apply (pc_ok_swap s c x y); [done|done|done|lia|]. intros [_ H0]. by rewrite Hw in H0.
  - intros Hwt. destruct (i_waited0 Hwt _ _ Hx) as [_ H0]. by rewrite Hw in H0.
Qed.

Lemma worker_step_inv s c rdi : inv throws s ->
  match worker_step c rdi s with Some (Ok s') => inv throws s' | Some (Err _) => False | None => True end.
Proof.
  intros Hinv. unfold worker_step, async_exec, delete_smp_data. destruct (m_cpus s !! c) as [x|] eqn:Hx; [|done].
  destruct (worker x) as [|regs ticks| | |l] eqn:Hw.
  - destruct (tasks x) as [|[a i|] l] eqn:Ht; [done| |].
    + destruct (i_tasks _ _ Hinv _ _ a i Hx ltac:(rewrite Ht; set_solver)) as (d&v&t&r&Hd&Hi). rewrite Hd, Hi.
      apply (inv_swap s c x); [done|done|intros a' i'; rewrite Ht; simpl; set_solver| |by intros []|by rewrite Hw|by rewrite Hw].
      unfold cpu_pending. rewrite Ht, Hw. simpl. lia.
    + apply (inv_swap s c x); [done|done|intros a' i'; rewrite Ht; simpl; set_solver| |by intros []|by rewrite Hw|by rewrite Hw].
      unfold cpu_pending. rewrite Ht, Hw. simpl. lia.
  - by eapply inv_finish.
  - apply (inv_swap s c x); [done|done|done| |by intros []|by rewrite Hw|by rewrite Hw]. unfold cpu_pending. rewrite Hw. simpl. lia.
  - by apply inv_take.
  - destruct l as [|a l].
    + apply (inv_swap s c x); [done|done|done| |by intros []|by rewrite Hw|rewrite Hw; intros l [= <-]; by left].
      unfold cpu_pending. rewrite Hw. simpl. lia.
    + destruct (i_clear _ _ Hinv _ _ Hx ltac:(by rewrite Hw)) as (_&_&_&H4). destruct (H4 _ Hw) as (_&_&Hlive).
      destruct (Hlive a ltac:(set_solver)) as [d Hd]. rewrite Hd. by apply inv_delete_array.
Qed.

(** The main thread moves on, without a call in progress before or after. *)
Lemma inv_pc s p w r : inv throws s -> remaining p = remaining (pc s) -> (forall k, pc s <> Allocated k) -> (forall k, p <> Allocated k) ->
  pc_ok throws (set_pc s p) -> (w = true -> forall c x, m_cpus s !! c = Some x -> calm x) -> ~ in_call p ->
  inv throws (set_results (set_waited (set_pc s p) w) r).
Proof.
  intros [] Hr Hn Hn' Hpc Hw Hic.
  constructor; cbn [m_cpus m_smp_active m_smp_data arrays next_array pc waited set_pc set_waited set_results]; rewrite ?Hr; try done.
  - intros c x Hx Hc. destruct (i_clear0 c x Hx Hc) as (?&?&?&?). by split_and!.
  - intros Hd. destruct (i_left0 Hd) as [?|[(k&Hk)|?]]; [auto|by destruct (Hn k)|auto].
Qed.

Lemma has_array_lookup m k d : m !! k_array k = Some d -> has_array m k -> length d = k_cpus k.
Proof. intros Hd (d'&Hd'&Hl). congruence. Qed.

(** While there is something to send nobody clears. *)
Lemma sending_no_clear s c x : inv throws s -> (0 < remaining (pc s))%nat -> m_cpus s !! c = Some x -> ~ clearing (worker x).
Proof. intros [] Hr Hx Hc. destruct (i_clear0 _ _ Hx Hc) as (H1&_). lia. Qed.

(** One element of the array of the call is written, before its task exists. *)
Lemma inv_write s k c d v p : inv throws s -> pc s = Filling k c -> (c < k_cpus k)%nat -> arrays s !! k_array k = Some d ->
  (remaining p <= remaining (pc s))%nat -> (throws = false -> remaining p = remaining (pc s)) -> (forall k, p <> Allocated k) ->
  pc_ok throws (set_pc (set_arrays s (<[k_array k := <[c := v]> d]> (arrays s))) p) ->
  inv throws (set_pc (set_arrays s (<[k_array k := <[c := v]> d]> (arrays s))) p).
Proof.
  intros Hinv Hpc Hc Hd Hr Hre Hna Hpcok. pose proof Hinv as [].
  assert (0 < remaining (pc s))%nat as Hrem by (rewrite Hpc; simpl; lia).
  assert (waited s = true -> False) as Hnw by (intros Hw; apply (i_outside0 Hw); by rewrite Hpc).
  assert (forall a, is_Some (<[k_array k := <[c := v]> d]> (arrays s) !! a) <-> is_Some (arrays s !! a)) as Hsome.
  { intros a. destruct (decide (a = k_array k)) as [->|N]; [rewrite lookup_insert_eq, Hd; by split|by rewrite lookup_insert_ne]. }
  constructor; cbn [m_cpus m_smp_active m_smp_data arrays next_array pc waited set_pc set_arrays]; try done.
  - lia.
  - intros Hth. specialize (i_exact0 Hth). rewrite Hre by done. lia.
  - intros c' x a i Hx Hi. destruct (i_tasks0 c' x a i Hx Hi) as (d'&v'&t&r&Hd'&Hi'). destruct (decide (a = k_array k)) as [->|N].
    + unfold pc_ok in i_pc0. rewrite Hpc in i_pc0. destruct i_pc0 as ((_&_&_&Hlt)&_). specialize (Hlt _ _ _ Hx Hi).
      rewrite Hd in Hd'. simplify_eq. exists (<[c := v]> d'), v', t, r. split; [by rewrite lookup_insert_eq|].
      rewrite list_lookup_insert_ne by lia. done.
    + exists d', v', t, r. by rewrite lookup_insert_ne.
  - intros a Ha. apply Hsome. auto.
  - intros a Ha. apply i_owned0. by apply Hsome.
  - intros c' x Hx Hcl. by destruct (sending_no_clear s c' x Hinv Hrem Hx).
  - intros Hdn. left. lia.
Qed.

Lemma fill_inv s k c : inv throws s -> pc s = Filling k c -> match fill k c s with Ok s' => inv throws s' | Err _ => False end.
Proof.
  intros Hinv Hpc. pose proof (i_pc _ _ Hinv) as Hok. unfold pc_ok in Hok. rewrite Hpc in Hok. destruct Hok as ((Hle&Hn&Hth&Ht)&Hc&Ha).
  unfold fill. rewrite Hle. destruct (c <? k_cpus k)%nat eqn:Elt.
  - apply Nat.ltb_lt in Elt. pose proof (Ha Elt) as (d&Hd&Hl). rewrite Hd, Hl, (proj2 (Nat.ltb_lt _ _) Elt).
    assert (forall v, has_array (<[k_array k := <[c := v]> d]> (arrays s)) k) as Hha.
    { intros v. exists (<[c := v]> d). rewrite lookup_insert_eq, length_insert. done. }
    destruct (k_regs k c) as [r|e] eqn:Er.
    + eapply inv_write; [done|done|done|done|by rewrite Hpc|by rewrite Hpc|done|].
      split_and!; [done|done|apply Hha|]. exists (<[c := mkMPData (Some c) (k_ticks k) (Some r)]> d), c, (k_ticks k), r.
      cbn [arrays set_pc set_arrays]. rewrite lookup_insert_eq. split; [done|]. apply list_lookup_insert_eq. lia.
    + eapply inv_write; [done|done|done|done|simpl; lia| |done|done].
      intros E. destruct (Hth E c) as [r Hr]. congruence.
  - apply Nat.ltb_ge in Elt. apply (inv_pc s Outside (waited s) (results s)); [done|rewrite Hpc; simpl; lia|by rewrite Hpc|done|done|apply (i_waited _ _ Hinv)|by intros []].
Qed.

Lemma enqueue_spec c t s s' : enqueue c t s = Some s' -> exists x, m_cpus s !! c = Some x /\
  s' = set_cpus s (<[c := mkMPvCPU (tasks x ++ [t]) (worker x) (c_rdi x)]> (m_cpus s)).
Proof. unfold enqueue. destruct (m_cpus s !! c) as [x|]; [|done]. destruct (_ <? _)%nat; [|done]. intros [= <-]. by exists x. Qed.

Lemma inv_message c s s' : inv throws s -> enqueue c Other s = Some s' -> inv throws s' /\ pc s' = pc s /\ waited s' = waited s.
Proof.
  intros Hinv (x&Hx&->)%enqueue_spec. split; [|done]. apply (inv_swap s c x); [done|done| | |done|done|by right].
  - intros a i. simpl. set_solver.
  - unfold cpu_pending. simpl. rewrite execs_app. simpl. lia.
Qed.

Lemma inv_send s k c s' : inv throws s -> pc s = Sending k c -> enqueue c (Exec (k_array k) c) s = Some s' ->
  inv throws (set_pc s' (Filling k (S c))).
Proof.
  intros Hinv Hpc (x&Hx&->)%enqueue_spec. pose proof Hinv as []. unfold pc_ok in i_pc0. rewrite Hpc in i_pc0.
  destruct i_pc0 as ((Hle&Hn&Hth&Ht)&Hc&Ha&Hrd). set (y := mkMPvCPU _ _ _). pose proof (pending_insert _ _ _ y Hx) as Hpe.
  assert (cpu_pending y = S (cpu_pending x)) as Hp by (unfold cpu_pending; subst y; simpl; rewrite execs_app; simpl; lia).
  assert (remaining (Filling k (S c)) = pred (remaining (pc s)) /\ (0 < remaining (pc s))%nat) as [Hr Hrp] by (rewrite Hpc; simpl; lia).
  assert (forall c' z, <[c := y]> (m_cpus s) !! c' = Some z -> ~ clearing (worker z)) as Hncl.
  { intros c' z Hz. destruct (insert_inv _ _ _ _ _ _ Hx Hz) as [[-> ->]|[_ Hz']];
      [exact (sending_no_clear s c x Hinv Hrp Hx)|exact (sending_no_clear s c' z Hinv Hrp Hz')]. }
  assert (forall c' z a i, <[c := y]> (m_cpus s) !! c' = Some z -> Exec a i ∈ tasks z ->
    (exists z', m_cpus s !! c' = Some z' /\ Exec a i ∈ tasks z') \/ (a = k_array k /\ i = c)) as Htasks.
  { intros c' z a i Hz Hi. destruct (insert_inv _ _ _ _ _ _ Hx Hz) as [[-> ->]|[_ Hz']]; [|left; eauto].
    subst y. simpl in Hi. apply elem_of_app in Hi as [Hi|Hi%list_elem_of_singleton]; [left; eauto|right]. by simplify_eq. }
  constructor; cbn [m_cpus m_smp_active m_smp_data arrays next_array pc waited set_pc set_cpus]; try done.
  - lia.
  - intros E. specialize (i_exact0 E). lia.
  - intros c' z a i Hz Hi. destruct (Htasks _ _ _ _ Hz Hi) as [(z'&?&?)|[-> ->]]; eauto.
  - intros a Hsa. destruct (i_owned0 a Hsa) as [H1 [H2|(c'&z&l&Hz&Hw&Hl)]]; (split; [done|]); [by left|].
    exfalso. eapply (sending_no_clear s c' z); [done|done|done|by rewrite Hw].
  - intros c' z Hz Hcl. by destruct (Hncl _ _ Hz).
  - intros Hd. left. lia.
  - split_and!; [|done|done].
    unfold call_ok, loop_end in *. cbn [m_cpus set_pc set_cpus]. rewrite length_insert. split_and!; [done|done|done|].
    intros c' z i Hz Hi. destruct (Htasks _ _ _ _ Hz Hi) as [(z'&Hz'&Hi')|[_ ->]]; [|lia]. specialize (Ht _ _ _ Hz' Hi'). lia.
  - intros Hw. destruct (i_outside0 Hw). by rewrite Hpc.
  - intros Hw. destruct (i_outside0 Hw). by rewrite Hpc.
Qed.

Lemma inv_start s kind n ticks regs : n <> 0%nat -> inv throws s -> pc s = Outside -> careful throws (StartCall kind n ticks regs) s ->
  inv throws (start_call kind n ticks regs s).
Proof.
  intros Hn0 Hinv Hpc Hcare. destruct (Hcare Hpc) as (Hw&Hk&Hth). pose proof Hinv as []. specialize (i_waited0 Hw).
  assert (forall c x, prepare_cpus n (m_cpus s) !! c = Some x -> calm x) as Hcalm.
  { intros c x [Hx|[_ Hx]]%lookup_app_Some; [by eapply i_waited0|]. apply lookup_replicate in Hx as [-> _]. split; [done|by intros []]. }
  pose proof (all_calm _ Hcalm) as Hp0.
  assert (forall a, a ∈ m_smp_data s -> (a < next_array s)%nat) as Hlt by (intros a Ha; apply i_owned0; auto).
  constructor; cbn [m_cpus m_smp_active m_smp_data arrays next_array pc waited start_call remaining]; try done.
  - lia.
  - intros E. rewrite (i_exact0 E), Hpc, Hp0. simpl. rewrite (all_calm _ i_waited0). done.
  - intros c x a i Hx Hi. by destruct (pending_no_exec _ _ _ a i Hp0 Hx).
  - apply NoDup_app. split_and!; [done| |apply NoDup_singleton]. intros a Ha ->%list_elem_of_singleton. specialize (Hlt _ Ha). lia.
  - intros a [Ha| ->%list_elem_of_singleton]%elem_of_app; [|by rewrite lookup_insert_eq].
    rewrite lookup_insert_ne; [auto|]. specialize (Hlt _ Ha). lia.
  - intros a Ha. destruct (decide (a = next_array s)) as [->|N]; [split; [lia|left; set_solver]|].
    rewrite lookup_insert_ne in Ha by done. destruct (i_owned0 a Ha) as [H1 [H2|(c&x&l&Hx&Hwx&_)]].
    + split; [lia|left; set_solver].
    + exfalso. destruct (i_waited0 _ _ Hx) as [_ Hc]. apply Hc. by rewrite Hwx.
  - intros c x Hx Hc. by destruct (Hcalm _ _ Hx).
  - intros _. right. left. eauto.
  - split_and!; [|done|done|].
    + unfold call_ok, loop_end. cbn [k_kind k_cpus k_array k_regs m_cpus start_call]. unfold prepare_cpus. rewrite length_app, length_replicate.
      split_and!; [|lia|done|].
      * destruct Hk as [->|Hk]; [done|]. destruct kind; lia.
      * intros c' x i Hx Hi. by destruct (pending_no_exec _ _ _ (next_array s) i Hp0 Hx).
    + exists (replicate n new_data). cbn [k_array k_cpus arrays start_call]. by rewrite lookup_insert_eq, length_replicate.
Qed.

Lemma inv_add s k : inv throws s -> pc s = Allocated k ->
  inv throws (set_pc (set_active s (m_smp_active s + Z.of_nat (k_cpus k))) (Filling k 0)).
Proof.
  intros [] Hpc. unfold pc_ok in i_pc0. rewrite Hpc in i_pc0. destruct i_pc0 as ((Hle&Hn&Hth&Ht)&Hn0&Hp0&Ha). rewrite Hpc in *. simpl in *.
  assert (forall c x, m_cpus s !! c = Some x -> ~ clearing (worker x)) as Hnc.
  { intros c x Hx Hc. destruct (i_clear0 _ _ Hx Hc) as (_&Hna&_). by apply (Hna k). }
  constructor; cbn [m_cpus m_smp_active m_smp_data arrays next_array pc waited set_pc set_active remaining]; try done.
  - lia.
  - intros E. specialize (i_exact0 E). lia.
  - intros c x Hx Hc. by destruct (Hnc _ _ Hx).
  - intros Hd. left. destruct (i_left0 Hd) as [?|[_|(c&x&Hx&Hw)]]; [lia|lia|exfalso; apply (Hnc _ _ Hx); by rewrite Hw].
  - split_and!; [done|lia|done].
Qed.

Lemma main_step_inv s what : inv throws s -> careful throws what s ->
  match main_step what s with Some (Ok s') => inv throws s' | Some (Err _) => False | None => True end.
Proof.
  intros Hinv Hcare. pose proof (i_pc _ _ Hinv) as Hok. pose proof (i_waited _ _ Hinv) as Hwt. unfold main_step, wait_step, gather_step.
  unfold pc_ok in Hok. destruct (pc s) as [|k|k c|k c|c|n c [] acc] eqn:Hpc.
  - destruct what as [kind n ticks regs| |n].
    + destruct (n =? 0)%nat eqn:En; [done|]. apply Nat.eqb_neq in En. by apply inv_start.
    + apply (inv_pc s (Waiting 0) (waited s) (results s)); [done|by rewrite Hpc|by rewrite Hpc|done| |done|by intros []].
      intros c' x Hlt. lia.
    + apply (inv_pc s (Gathering _ 0 false []) (waited s) (results s)); [done|by rewrite Hpc|by rewrite Hpc|done|done|done|by intros []].
  - by apply inv_add.
  - pose proof (fill_inv s k c Hinv Hpc) as Hf. by destruct (fill k c s).
  - destruct (enqueue _ _ _) as [s'|] eqn:Eq; [|done]. by eapply inv_send.
  - destruct (m_cpus s !! c) as [x|] eqn:Hx.
    + destruct (quiet x) eqn:Eq; [|done].
      apply (inv_pc s (Waiting (S c)) (waited s) (results s)); [done|by rewrite Hpc|by rewrite Hpc|done| |done|by intros []].
      intros c' z Hlt Hz. destruct (decide (c' = c)) as [->|N]; [|eapply (Hok c'); [lia|done]].
      cbn [m_cpus set_pc] in Hz. rewrite Hx in Hz. simplify_eq. by apply quiet_calm.
    + apply (inv_pc s Outside true (results s)); [done|by rewrite Hpc|by rewrite Hpc|done|done| |by intros []].
      intros _ c' z Hz. apply (Hok c'); [|done]. apply lookup_lt_Some in Hz. apply lookup_ge_None in Hx. lia.
  - destruct (m_cpus s !! c) as [x|]; [|done]. destruct (quiet x); [|done].
    apply (inv_pc s (Gathering _ _ false _) (waited s) (results s)); [done|by rewrite Hpc|by rewrite Hpc|done|done|done|by intros []].
  - destruct (c <? n)%nat.
    + destruct (enqueue _ _ _) as [s'|] eqn:Eq; [|done]. destruct (inv_message _ _ _ Hinv Eq) as (Hinv'&Hpc'&_).
      apply (inv_pc s' (Gathering n c true acc) (waited s') (results s'));
        [done|by rewrite Hpc', Hpc|by rewrite Hpc', Hpc|done|done|apply (i_waited _ _ Hinv')|by intros []].
    + apply (inv_pc s Outside (waited s) acc); [done|by rewrite Hpc|by rewrite Hpc|done|done|done|by intros []].
Qed.

Lemma inv_init : inv throws smp_init_state.
Proof.
  constructor; simpl; try done; try (by intros ? ? ?%lookup_nil_Some).
  - constructor.
  - intros a Ha. by apply elem_of_nil in Ha.
  - intros a [? Ha]. by rewrite lookup_empty in Ha.
  - by intros _ [].
Qed.

Lemma reachable_inv s : rtc (smp_step throws) smp_init_state s -> inv throws s.
Proof.
  intros H. apply (rtc_ind_r (R := smp_step throws) (inv throws) smp_init_state); [apply inv_init| |done].
  intros t t' _ [what Hc E|c rdi E] Hinv.
  - pose proof (main_step_inv t what Hinv Hc) as Hm. by rewrite E in Hm.
  - pose proof (worker_step_inv t c rdi Hinv) as Hm. by rewrite E in Hm.
Qed.

Lemma inv_quiet s : inv throws s -> throws = false -> waited s = true -> m_smp_active s = 0 /\ m_smp_data s = [] /\ arrays s = ∅.
Proof.
  intros [] E Hw. specialize (i_waited0 Hw). pose proof (all_calm _ i_waited0) as Hp.
  assert (remaining (pc s) = 0%nat) as Hr by (specialize (i_outside0 Hw); destruct (pc s); simpl in *; tauto).
  assert (m_smp_active s = 0) as Ha by (rewrite (i_exact0 E); lia).
  assert (forall c x, m_cpus s !! c = Some x -> ~ clearing (worker x)) as Hnc by (intros c x Hx; apply (i_waited0 c x Hx)).
  assert (m_smp_data s = []) as Hd.
  { destruct (decide (m_smp_data s = [])) as [?|N]; [done|]. destruct (i_left0 N) as [?|[(k&Hk)|(c&x&Hx&Hwx)]]; [lia| |].
    - destruct (i_outside0 Hw). by rewrite Hk.
    - destruct (Hnc _ _ Hx). by rewrite Hwx. }
  split_and!; [done|done|]. apply map_empty. intros a. destruct (arrays s !! a) as [d|] eqn:Ea; [|done]. exfalso.
  destruct (i_owned0 a ltac:(eauto)) as [_ [Hin|(c&x&l&Hx&Hwx&_)]].
  - rewrite Hd in Hin. by apply elem_of_nil in Hin.
  - apply (Hnc _ _ Hx). by rewrite Hwx.
Qed.
End preservation.

(** C39: calls on several vCPUs never touch deleted memory.  However the main thread and the
    workers interleave, as long as every call is waited for before the next one starts and the
    array and clone variants use all vCPUs: no step reads or writes an array that was deleted,
    an element outside of it or one that was not set, and no array is deleted twice, also when
    setting up a call throws in the middle; a vCPU that has something to do can always take a
    step, so a [wait] is never stuck; and if no call threw, after a [wait] the counter is zero
    and every array has been deleted. *)
Theorem smp_calls_safe throws s : rtc (smp_step throws) smp_init_state s ->
  (forall what e, careful throws what s -> main_step what s <> Some (Err e)) /\
  (forall c rdi e, worker_step c rdi s <> Some (Err e)) /\
  (forall c x rdi, m_cpus s !! c = Some x -> quiet x = false -> exists s', worker_step c rdi s = Some (Ok s')) /\
  (throws = false -> waited s = true -> m_smp_active s = 0 /\ m_smp_data s = [] /\ arrays s = ∅).
Proof.
  intros Hrun%reachable_inv. split_and!.
  - intros what e Hc E. pose proof (main_step_inv throws s what Hrun Hc) as H. by rewrite E in H.
  - intros c rdi e E. pose proof (worker_step_inv throws s c rdi Hrun) as H. by rewrite E in H.
  - intros c x rdi Hx Hq. pose proof (worker_step_inv throws s c rdi Hrun) as H.
    destruct (worker_step c rdi s) as [[s'|e]|] eqn:E; [by eauto|done|]. exfalso. clear H. unfold worker_step, async_exec, delete_smp_data in E. rewrite Hx in E.
    unfold quiet in Hq. destruct (worker x) as [| | | |[]], (tasks x) as [|[] ?]; try done; repeat case_match; done.
  - by apply inv_quiet.
Qed.

(** ** Schedules *)

Inductive actor := Main (what : start) | Worker (c : nat).
Fixpoint run_schedule (l : list actor) (s : SMP) : option (result SMP) :=
  match l with
  | [] => Some (Ok s)
  | a :: l' =>
      match (match a with Main what => main_step what s | Worker c => worker_step c 7 s end) with
      | Some (Ok s') => run_schedule l' s'
      | r => r
      end
  end.

Definition zero_regs : x86regs := mkRegs 0 0 0 0 0 0 0 0 0 0 0 0 0 0 0 0 0 0.
Definition good_call (kind : call_kind) (n : nat) : actor := Main (StartCall kind n 0 (fun _ => Ok zero_regs)).
(** The main thread goes on. *)
Definition go : actor := Main StartWait.

(** A call on one vCPU, from the start to the end of [wait]. *)
Definition demo_call : list actor :=
  [good_call timed_smpcall 1; go; go; go; go] ++ repeat (Worker 0) 7 ++ [go; go; go].

Example call_and_wait : exists s, run_schedule demo_call smp_init_state = Some (Ok s) /\
  waited s = true /\ m_smp_active s = 0 /\ arrays s = ∅ /\ map c_rdi (m_cpus s) = [7].
Proof. eexists. split; [vm_compute; reflexivity|]. vm_compute. done. Qed.

(** A schedule without new calls is a run. *)
Lemma schedule_run throws l s s' : Forall (fun a => match a with Main (StartCall _ _ _ _) => False | _ => True end) l ->
  run_schedule l s = Some (Ok s') -> rtc (smp_step throws) s s'.
Proof.
  revert s. induction l as [|a l IH]; intros s Hl Hr; simpl in Hr; [by simplify_eq|].
  apply Forall_cons in Hl as [Ha Hl]. destruct a as [what|c].
  - destruct (main_step what s) as [[t|]|] eqn:E; try done. eapply rtc_l; [|by apply IH].
    eapply step_main; [|exact E]. by destruct what.
  - destruct (worker_step c 7 s) as [[t|]|] eqn:E; try done. eapply rtc_l; [|by apply IH]. by eapply step_worker.
Qed.

(** The state in which the worker is about to delete the array. *)
Definition demo_started : SMP := start_call timed_smpcall 1 0 (fun _ => Ok zero_regs) smp_init_state.
Definition demo_rest : list actor := repeat go 4 ++ repeat (Worker 0) 5.
Definition demo_clearing : SMP := match run_schedule demo_rest demo_started with Some (Ok s) => s | _ => demo_started end.

Lemma demo_reachable : rtc (smp_step false) smp_init_state demo_clearing.
Proof.
  eapply rtc_l; [apply (step_main _ _ demo_started (StartCall timed_smpcall 1 0 (fun _ => Ok zero_regs))); [|reflexivity]|].
  { intros _. split_and!; [done|by left|]. intros _ c. by exists zero_regs. }
  apply (schedule_run _ demo_rest); [repeat constructor|]. vm_compute. reflexivity.
Qed.

Lemma smp_calls_safe_witness : rtc (smp_step false) smp_init_state demo_clearing /\ is_Some (arrays demo_clearing !! 0%nat) /\
  (forall c rdi e, worker_step c rdi demo_clearing <> Some (Err e)).
Proof.
  split_and!; [exact demo_reachable|vm_compute; by eexists|].
  exact (proj1 (proj2 (smp_calls_safe false demo_clearing demo_reachable))).
Defined.

(** Without waiting: the second call has its array in the list, but has not raised the counter
    yet, when the first call ends; its worker deletes both arrays. *)
Example second_call_uses_deleted_array :
  run_schedule ([good_call timed_smpcall 1; go; go; go; go] ++ repeat (Worker 0) 3 ++ [good_call timed_smpcall 1] ++
    repeat (Worker 0) 4 ++ [go; go]) smp_init_state = Some use_after_free.
Proof. vm_compute. reflexivity. Qed.

(** The array variant goes through all vCPUs, the array has one element per vCPU of the call. *)
Example array_call_overruns :
  run_schedule ([good_call timed_smpcall 2; go; go; go; go; go; go] ++ repeat (Worker 0) 4 ++ repeat (Worker 1) 7 ++
    [go; go; go; go; good_call timed_smpcall_array 1; go; go; go; go]) smp_init_state = Some out_of_range.
Proof. vm_compute. reflexivity. Qed.

(** A call that throws while it is set up leaves the counter raised: its array is never deleted. *)
Example throwing_call_leaks : exists s,
  run_schedule ([Main (StartCall timed_smpcall 1 0 (fun _ => Err (MachineException "setup_call" 0))); go; go] ++
    repeat (Worker 0) 2 ++ [go; go; go]) smp_init_state = Some (Ok s) /\
  waited s = true /\ m_smp_active s = 1 /\ m_smp_data s = [0%nat].
Proof. eexists. split; [vm_compute; reflexivity|]. vm_compute. done. Qed.
