(* ===== verification/Snapshot.v ===== *)
(** * Saving and loading the state of a machine

    lib/tinykvm/machine_state.cpp: [save_snapshot_state_now] writes the state of a machine that is
    not in its memory (registers, addresses, threads, the metadata of descriptors) behind the
    memory, in a file that is mapped; [load_snapshot_state] restores it in a new process.

    The area is a header and a map from byte offsets to the structures written there by
    [next<T>]; reading a structure where another (or none) was written is [Undefined].  The
    special and floating-point registers are structures of KVM that are only copied, so their
    types are parameters. *)
From stdpp Require Import base tactics list numbers strings gmap sorting.
From Stdlib Require Import ZArith Lia Bool.
From S2P Require Import Prelude MMap Host MemoryBanks Cpu Threads Fds.
Local Open Scope Z_scope.

(** ** The area *)

(** [epoll_event] is a number, as in [Fds]. *)
Inductive item :=
| ColdStartAccessedRange (start end_ : Z)
| ColdStartThreads (count : Z) (current_tid : option Z)   (* not set without threads *)
| ColdStartThreadState (t : Z) (regs : x86regs) (fsbase clear_tid : Z)
| ColdStartFds (epoll_entries socket_pairs next_vfd : Z)
| ColdStartEpollEntry (epoll_fds shared_epoll_fds vfd : Z)
| ColdStartEpollFd (vfd event : Z)
| ColdStartSharedEpollFd (vfd : Z)
| ColdStartSocketPair (vfd1 vfd2 : Z) (type : SocketType).

Definition sizeof (i : item) : Z :=
  match i with
  | ColdStartAccessedRange _ _ => 16
  | ColdStartThreads _ _ => 16
  | ColdStartThreadState _ _ _ _ => 168
  | ColdStartFds _ _ _ => 24
  | ColdStartEpollEntry _ _ _ => 24
  | ColdStartEpollFd _ _ => 16
  | ColdStartSharedEpollFd _ => 4
  | ColdStartSocketPair _ _ _ => 12
  end.
Definition sizeof_SnapshotState : Z := 968.
(** [ColdStartStateSize()], that is [2UL << 20] *)
Definition Size : Z := 0x200000.
Definition MAGIC : Z := 0x564D4353.

Section snapshot.
(** [kvm_sregs] and [tinykvm_x86fpuregs] *)
Context {SR FP : Type}.

(** The members that [SnapshotState] and [Machine] have in common. *)
Record Plain := mkPlain {
  p_regs : x86regs; p_sregs : SR; p_fpu : FP;
  p_prepped : bool; p_forked : bool; p_just_reset : bool; p_relocate : bool;
  p_image_base : Z; p_stack : Z; p_heap : Z; p_brk : Z; p_brk_end : Z; p_start : Z; p_kernel_end : Z;
  p_mmap_current : Z; p_main_memory_writes : bool; p_page_tables : Z }.
Definition set_p_regs (p : Plain) (r : x86regs) (s : SR) : Plain :=
  mkPlain r s (p_fpu p) (p_prepped p) (p_forked p) (p_just_reset p) (p_relocate p) (p_image_base p) (p_stack p) (p_heap p)
    (p_brk p) (p_brk_end p) (p_start p) (p_kernel_end p) (p_mmap_current p) (p_main_memory_writes p) (p_page_tables p).

(** [SnapshotState] without what follows it, and the whole area. *)
Record Header := mkHeader { magic : Z; size : Z; plain : Plain; num_access_ranges : Z }.
Record Area := mkArea { header : Header; cells : gmap Z item }.

(** The machine: [mmap_current] is the bump pointer of its mmap cache; [host_fds] is the host a
    descriptor table is created on. *)
Record Snap := mkSnap {
  m_plain : Plain;
  m_mt : option MultiThreading;
  m_fdm : option FileDescriptors;
  host_fds : fd_host }.
Definition set_plain (s : Snap) x := mkSnap x (m_mt s) (m_fdm s) (host_fds s).
Definition set_mt (s : Snap) x := mkSnap (m_plain s) x (m_fdm s) (host_fds s).
Definition set_fdm (s : Snap) x := mkSnap (m_plain s) (m_mt s) x (host_fds s).

Context `{os : HostFds}.
(** Whether KVM_GET_FPU and KVM_SET_FPU succeed; uninitialised members of a new thread. *)
Context (fpu_get_ok fpu_set_ok : bool) (junk : Junk).

(** In the order of a [std::map]. *)
Definition ordered {A} (m : gmap Z A) : list (Z * A) :=
  omap (fun k => (fun a => (k, a)) <$> m !! k) (merge_sort Z.le (elements (dom m))).

(** ** Saving *)

(** The machine, the area being written, and [current]. *)
Record Saving := mkSaving { sv_machine : Snap; sv_area : Area; sv_cur : Z }.
Definition put_header (f : Header -> Header) : M Saving unit :=
  modify (fun s => mkSaving (sv_machine s) (mkArea (f (header (sv_area s))) (cells (sv_area s))) (sv_cur s)).

(** [*state.next<T>(current) = i] *)
Definition emit (i : item) : M Saving unit :=
  let! s := get in
  let c := sv_cur s + sizeof i in
  if Size <? c then throw (RuntimeError "Out of bounds access on SnapshotState")
  else put (mkSaving (sv_machine s) (mkArea (header (sv_area s)) (<[sv_cur s := i]> (cells (sv_area s)))) c).

Definition emit_range (start end_ : Z) : M Saving unit :=
  emit (ColdStartAccessedRange start end_) ;;;
  put_header (fun h => mkHeader (magic h) (size h) (plain h) ((num_access_ranges h + 1) mod 2 ^ 32)).

(** The loop over the pages to populate, with [current_begin] and [current_end]. *)
Fixpoint save_ranges (kernel_end : Z) (pages : list (Z * Z)) (begin end_ : Z) : M Saving unit :=
  match pages with
  | [] => when (negb (end_ =? begin)) (emit_range begin end_)
  | (addr, size) :: pages' =>
      if (ARENA_BASE_ADDRESS <=? addr) || (addr <? kernel_end) then save_ranges kernel_end pages' begin end_
      else if end_ =? addr then save_ranges kernel_end pages' begin (end_ ⊕ size)
      else
        when (negb (end_ =? begin)) (emit_range begin end_) ;;;
        save_ranges kernel_end pages' addr (addr ⊕ size)
  end.

(** [m_mt->gettid()] *)
Definition gettid (m : MultiThreading) : result Z :=
  match m_current m with
  | Some t => match m_threads m !! t with
              | Some th => Ok (tid th)
              | None => Err (Undefined "pointer to an erased thread")
              end
  | None => Err (Undefined "null pointer to a thread")
  end.

Definition save_threads (mt : option MultiThreading) : M Saving unit :=
  match mt with
  | Some m =>
      let! t := lift (gettid m) in
      emit (ColdStartThreads (Z.of_nat (base.size (m_threads m))) (Some t)) ;;;
      for_each (ordered (m_threads m)) (fun e =>
        emit (ColdStartThreadState (fst e) (stored_regs (snd e)) (fsbase (snd e)) (clear_tid (snd e))))
  | None => emit (ColdStartThreads 0 None)
  end.

(** What is recorded of a pair: nothing of one that cannot be made again. *)
Definition saved_pair (sp : SocketPair) : SocketPair :=
  match type sp with INVALID | DUPFD => mkPair (-1) (-1) INVALID | _ => sp end.

Definition entry_of (f : FileDescriptors) (p : Z) : EpollEntry := default EpollEntry_new (epoll_store f !! p).

Definition save_epoll (vfd : Z) (e : EpollEntry) : M Saving unit :=
  emit (ColdStartEpollEntry (Z.of_nat (base.size (epoll_fds e))) (Z.of_nat (base.size (shared_epoll_fds e))) vfd) ;;;
  for_each (map_order (epoll_fds e)) (fun m => emit (ColdStartEpollFd (fst m) (snd m))) ;;;
  for_each (set_order (shared_epoll_fds e)) (fun v => emit (ColdStartSharedEpollFd v)).

Definition save_fd_state (f : FileDescriptors) : M Saving unit :=
  emit (ColdStartFds (Z.of_nat (base.size (m_epoll_fds f))) (Z.of_nat (length (m_sockets f))) (m_next_fd f)) ;;;
  for_each (m_sockets f) (fun sp => let p := saved_pair sp in emit (ColdStartSocketPair (vfd1 p) (vfd2 p) (type p))) ;;;
  for_each (ordered (m_epoll_fds f)) (fun e => save_epoll (fst e) (entry_of f (snd e))).

(** [catch] blocks: a [MachineException], which a [MemoryException] is, becomes a runtime error;
    the area is marked invalid. *)
Definition invalidate : M Saving unit := put_header (fun h => mkHeader 0 (size h) (plain h) (num_access_ranges h)).
Definition save_failed (e : exn) : M Saving unit :=
  match e with
  | MachineException msg _ | MachineTimeoutException msg _ | MemoryException msg _ _ _ =>
      invalidate ;;; throw (RuntimeError ("Failed to get snapshot state: " ++ msg))
  | _ => invalidate ;;; throw e
  end.

(** [fds()] *)
Definition fds : M Snap FileDescriptors :=
  let! s := get in
  match m_fdm s with
  | Some f => ret f
  | None =>
      match FileDescriptors_new (p_forked (m_plain s)) (host_fds s) (mkFds ∅ 0 "" 0 0 0 0 ∅ ∅ 0 [] false (host_fds s)) with
      | (Ok _, f) => put (set_fdm s (Some f)) ;;; ret f
      | (Err e, _) => throw e
      end
  end.

(** The first structure is reserved before [fds()] is called. *)
Definition save_fds : M Saving unit :=
  let! st := get in
  if Size <? sv_cur st + 24 then throw (RuntimeError "Out of bounds access on SnapshotState")
  else
    let! f := (fun st => let (r, m) := fds (sv_machine st) in (r, mkSaving m (sv_area st) (sv_cur st))) in
    save_fd_state f.

Definition save_body (s : Snap) (populate_pages : list (Z * Z)) : M Saving unit :=
  let p := m_plain s in
  put_header (fun h => mkHeader MAGIC 0 (set_p_regs (plain h) (p_regs p) (p_sregs p)) (num_access_ranges h)) ;;;
  (if fpu_get_ok then ret tt else throw (MachineException "KVM_GET_FPU failed" 0)) ;;;
  put_header (fun h => mkHeader (magic h) (size h) p 0) ;;;
  save_ranges (p_kernel_end p) populate_pages 0 0 ;;;
  save_threads (m_mt s) ;;;
  save_fds ;;;
  let! st := get in
  let sz := sv_cur st mod 2 ^ 32 in
  put_header (fun h => mkHeader (magic h) sz (plain h) (num_access_ranges h)) ;;;
  if (sz <? sizeof_SnapshotState) || (Size <? sz) then throw (RuntimeError "Snapshot state size was invalid") else ret tt.

(** [save_snapshot_state_now(populate_pages)], on the machine and its area, if it has one; the
    descriptor table is created on first use. *)
Definition save_snapshot_state_now (populate_pages : list (Z * Z)) : M (Snap * option Area) unit := fun st =>
  let (s, oa) := st in
  if p_forked (m_plain s) then (Err (RuntimeError "Cannot save snapshot state of a forked VM"), st)
  else
    match oa with
    | None => (Err (RuntimeError "No snapshot state area allocated"), st)
    | Some a =>
        let (r, t) := catch (save_body s populate_pages) save_failed (mkSaving s a sizeof_SnapshotState) in
        (r, (sv_machine t, Some (sv_area t)))
    end.

(** ** Loading *)

Record Loading := mkLoading { ld_machine : Snap; ld_cur : Z }.
Definition on_snap (f : Snap -> Snap) : M Loading unit := modify (fun s => mkLoading (f (ld_machine s)) (ld_cur s)).
Definition on_fds {A} (m : M FileDescriptors A) : M Loading A := fun s =>
  match m_fdm (ld_machine s) with
  | Some f => let (r, f') := m f in (r, mkLoading (set_fdm (ld_machine s) (Some f')) (ld_cur s))
  | None => (Err (Undefined "no descriptor table"), s)
  end.
(** Operations of [MultiThreading]; they only touch the threads. *)
Definition on_threads {A} (m : M (OS unit) A) : M Loading A := fun s =>
  let (r, o) := m (mkOS (p_regs (m_plain (ld_machine s))) 0 false (m_mt (ld_machine s)) Signals_new tt) in
  (r, mkLoading (set_mt (ld_machine s) (Threads.m_mt o)) (ld_cur s)).

(** [state.next<T>(current)]; [want] picks the structure. *)
Definition fetch {A} (a : Area) (sz : Z) (want : item -> option A) : M Loading A :=
  let! s := get in
  let c := ld_cur s + sz in
  put (mkLoading (ld_machine s) c) ;;;
  if Size <? c then throw (RuntimeError "Out of bounds access on SnapshotState")
  else
    match cells a !! ld_cur s with
    | Some i => match want i with Some x => ret x | None => throw (Undefined "another structure") end
    | None => throw (Undefined "nothing was written here")
    end.

(** Populating pages is a hint to the host. *)
Definition load_range (a : Area) : M Loading unit :=
  let! _ := fetch a 16 (fun i => match i with ColdStartAccessedRange b e => Some (b, e) | _ => None end) in ret tt.

Definition load_thread (a : Area) : M Loading unit :=
  let! t := fetch a 168 (fun i => match i with ColdStartThreadState t r f c => Some (mkThread t r f c) | _ => None end) in
  on_threads (create_tid junk (tid t)) ;;;
  on_threads (modify_mt junk (fun m => Threads.set_threads m
    (alter (fun th => mkThread (tid th) (stored_regs t) (fsbase t) (clear_tid t)) (tid t) (m_threads m)))).

Definition load_threads (a : Area) : M Loading unit :=
  let! t := fetch a 16 (fun i => match i with ColdStartThreads n c => Some (n, c) | _ => None end) in
  when (0 <? fst t)
    (on_threads (let! _ := threads junk in ret tt) ;;;
     for_range (Z.to_nat (fst t)) 0 (fun _ => load_thread a) ;;;
     on_threads (set_to_and_suspend_others junk (default 0 (snd t)))).

Definition load_pair (a : Area) : M Loading unit :=
  let! sp := fetch a 12 (fun i => match i with ColdStartSocketPair x y ty => Some (mkPair x y ty) | _ => None end) in
  on_fds (add_socket_pair sp) ;;;
  on_fds (create_socket_pairs_from sp).

Definition upd_entry (p : Z) (f : EpollEntry -> EpollEntry) : M FileDescriptors unit :=
  upd_fds (fun s => set_epoll s (m_epoll_fds s) (alter f p (epoll_store s)) (next_epoll s)).

(** A machine that is being constructed has no callback yet that finds a master's descriptors. *)
Definition load_epoll (a : Area) : M Loading unit :=
  let! ce := fetch a 24 (fun i => match i with ColdStartEpollEntry n m v => Some (n, m, v) | _ => None end) in
  let vfd := snd ce in
  let! p := on_fds (get_epoll_entry_for_vfd vfd) in
  for_range (Z.to_nat (fst (fst ce))) 0 (fun _ =>
    let! m := fetch a 16 (fun i => match i with ColdStartEpollFd v e => Some (v, e) | _ => None end) in
    on_fds (upd_entry p (fun en => mkEpoll (<[fst m := snd m]> (epoll_fds en)) (shared_epoll_fds en)))) ;;;
  for_range (Z.to_nat (snd (fst ce))) 0 (fun _ =>
    let! v := fetch a 4 (fun i => match i with ColdStartSharedEpollFd v => Some v | _ => None end) in
    on_fds (upd_entry p (fun en => mkEpoll (epoll_fds en) ({[v]} ∪ shared_epoll_fds en)))) ;;;
  let! en := on_fds (gets (fun f => entry_of f p)) in
  on_fds (create_epoll_entry_from None vfd en).

Definition load_fds (a : Area) : M Loading unit :=
  let! t := fetch a 24 (fun i => match i with ColdStartFds n m v => Some (n, m, v) | _ => None end) in
  let! _ := (fun s => let (r, m) := fds (ld_machine s) in (r, mkLoading m (ld_cur s))) in
  on_fds (set_vfd_start (snd t)) ;;;
  for_range (Z.to_nat (snd (fst t))) 0 (fun _ => load_pair a) ;;;
  for_range (Z.to_nat (fst (fst t))) 0 (fun _ => load_epoll a).

Definition load_body (a : Area) : M Loading unit :=
  let p := plain (header a) in
  on_snap (fun s => set_plain s (set_p_regs (m_plain s) (p_regs p) (p_sregs p))) ;;;
  (if fpu_set_ok then ret tt else throw (MachineException "KVM_SET_FPU failed" 0)) ;;;
  on_snap (fun s => set_plain s p) ;;;
  for_range (Z.to_nat (num_access_ranges (header a))) 0 (fun _ => load_range a) ;;;
  load_threads a ;;;
  load_fds a.

(** [load_snapshot_state()]; only a [MachineException] is turned into the result false. *)
Definition load_snapshot_state (a : option Area) : M Snap bool :=
  match a with
  | None => ret false
  | Some a =>
      let h := header a in
      if negb (magic h =? MAGIC) then ret false
      else
        let! s := get in
        if p_forked (m_plain s) then throw (RuntimeError "Cannot load snapshot state into a forked VM")
        else if (size h <? sizeof_SnapshotState) || (Size <? size h) then throw (RuntimeError "Invalid snapshot state size")
        else
          match load_body a (mkLoading s sizeof_SnapshotState) with
          | (Ok _, l) => put (ld_machine l) ;;; ret true
          | (Err (MachineException _ _ | MachineTimeoutException _ _ | MemoryException _ _ _ _), l) => put (ld_machine l) ;;; ret false
          | (Err e, l) => put (ld_machine l) ;;; throw e
          end
  end.

(** [get_snapshot_state_user_area()]: the offset of the area for the embedder. *)
Definition get_snapshot_state_user_area (a : option Area) : option Z :=
  match a with
  | None => None
  | Some a => if negb (magic (header a) =? MAGIC) then None
              else if (size (header a) <? sizeof_SnapshotState) || (Size <? size (header a)) then None
              else Some (size (header a))
  end.
End snapshot.

Arguments Plain : clear implicits.
Arguments Header : clear implicits.
Arguments Area : clear implicits.
Arguments Snap : clear implicits.
Arguments Saving : clear implicits.
Arguments Loading : clear implicits.

(** ** What is written can be read *)

Fixpoint total (l : list item) : Z := match l with [] => 0 | i :: l' => sizeof i + total l' end.
(** The structures [l], one after the other from offset [c]. *)
Fixpoint holds (m : gmap Z item) (c : Z) (l : list item) : Prop :=
  match l with [] => True | i :: l' => m !! c = Some i /\ holds m (c + sizeof i) l' end.

Section layout.
Lemma sizeof_pos i : 4 <= sizeof i.
Proof. destruct i; simpl; lia. Qed.
Lemma total_nonneg l : 0 <= total l.
Proof. induction l as [|i l IH]; simpl; [lia|]. pose proof (sizeof_pos i). lia. Qed.
Lemma total_app l1 l2 : total (l1 ++ l2) = total l1 + total l2.
Proof. induction l1 as [|i l1 IH]; simpl; [done|]. lia. Qed.
Lemma holds_app m c l1 l2 : holds m c (l1 ++ l2) <-> holds m c l1 /\ holds m (c + total l1) l2.
Proof.
  revert c. induction l1 as [|i l1 IH]; intros c; simpl; [rewrite Z.add_0_r; tauto|]. rewrite IH.
  rewrite Z.add_assoc. tauto.
Qed.
Lemma holds_insert m c l k i : k < c \/ c + total l <= k -> holds m c l -> holds (<[k := i]> m) c l.
Proof.
  revert c. induction l as [|j l IH]; intros c Hk; cbn [holds]; [done|]. intros [H1 H2]. cbn [total] in Hk.
  pose proof (sizeof_pos j). pose proof (total_nonneg l). split; [rewrite lookup_insert_ne by lia; done|]. apply IH; [lia|done].
Qed.
End layout.

Section saving.
Context {SR FP : Type} `{os : HostFds} {laws : HostFdLaws os}.
Context (fpu_get_ok : bool).
Notation Saving := (Saving SR FP).
Notation Snap := (Snap SR FP).
Implicit Types (st : Saving) (s : Snap).

Definition is_range (i : item) : bool := match i with ColdStartAccessedRange _ _ => true | _ => false end.
Definition ranges (l : list item) : Z := Z.of_nat (length (List.filter is_range l)).
Lemma ranges_app l1 l2 : ranges (l1 ++ l2) = ranges l1 + ranges l2.
Proof. unfold ranges. rewrite List.filter_app, length_app. lia. Qed.

(** The writer is inside the area, and the count of ranges is not beyond what has been written. *)
Definition inside st : Prop :=
  sizeof_SnapshotState <= sv_cur st <= Size /\ 0 <= num_access_ranges (header (sv_area st)) /\
  16 * num_access_ranges (header (sv_area st)) + sizeof_SnapshotState <= sv_cur st.

(** The structures [l] have been appended; the machine may have got its descriptor table. *)
Definition wrote (l : list item) st st' : Prop :=
  let h := header (sv_area st) in let h' := header (sv_area st') in
  sv_cur st' = sv_cur st + total l /\ inside st' /\ holds (cells (sv_area st')) (sv_cur st) l /\
  (forall c k, c + total k <= sv_cur st -> holds (cells (sv_area st)) c k -> holds (cells (sv_area st')) c k) /\
  (magic h' = magic h /\ size h' = size h /\ plain h' = plain h) /\ num_access_ranges h' = num_access_ranges h + ranges l /\
  sv_machine st' = sv_machine st.

Definition writes (m : M Saving unit) (l : list item) : Prop :=
  forall st, inside st -> wp m (fun _ st' => wrote l st st') (fun _ _ => True) st.

Lemma wrote_nil st : inside st -> wrote [] st st.
Proof. intros Hi. unfold wrote. simpl. split_and!; (done || (unfold ranges; simpl; lia)). Qed.
Lemma wrote_trans l1 l2 st1 st2 st3 : wrote l1 st1 st2 -> wrote l2 st2 st3 -> wrote (l1 ++ l2) st1 st3.
Proof.
  intros (C1&I1&H1&K1&(M1&S1&P1)&N1&E1) (C2&I2&H2&K2&(M2&S2&P2)&N2&E2). unfold wrote. cbn zeta.
  rewrite total_app, ranges_app. split_and!; [lia|done..| | |congruence|congruence|congruence|lia|congruence].
  - apply holds_app. split; [apply K2; [lia|done]|by rewrite <- C1].
  - intros c k Hk Hh. apply K2; [pose proof (total_nonneg l1); lia|]. apply K1; [lia|done].
Qed.
Lemma writes_nil : writes (ret tt) [].
Proof. intros st Hi. apply wp_ret. by apply wrote_nil. Qed.
Lemma writes_bind m1 m2 l1 l2 : writes m1 l1 -> writes m2 l2 -> writes (m1 ;;; m2) (l1 ++ l2).
Proof.
  intros H1 H2 st Hi. wp_step. eapply wp_mono; [by apply H1| |done]. intros [] st1 W1.
  eapply wp_mono; [apply H2; apply W1| |done]. intros [] st2 W2. by eapply wrote_trans.
Qed.
Lemma writes_for_each {A} (f : A -> M Saving unit) (g : A -> list item) l : (forall x, writes (f x) (g x)) -> writes (for_each l f) (l ≫= g).
Proof. intros H. induction l as [|x l IH]; cbn [for_each mbind list_bind]; [apply writes_nil|]. by apply writes_bind. Qed.

Lemma writes_emit i : is_range i = false -> writes (emit i) [i].
Proof.
  intros Hr st ((Hc1&Hc2)&Hn1&Hn2). unfold emit. wp_step. wp_step. wp_step; [by apply wp_throw|]. apply wp_put.
  pose proof (sizeof_pos i). unfold wrote, inside. cbn [sv_cur sv_area sv_machine header cells holds total]. unfold ranges. simpl. rewrite Hr. simpl.
  split_and!; try done; try lia.
  - by rewrite lookup_insert_eq.
  - intros c k Hk Hh. apply holds_insert; [lia|done].
Qed.
Lemma writes_range b e : writes (emit_range b e) [ColdStartAccessedRange b e].
Proof.
  intros st ((Hc1&Hc2)&Hn1&Hn2). unfold emit_range, emit. wp_step. wp_step. wp_step. wp_step; [by apply wp_throw|]. apply wp_put.
  apply wp_modify. unfold wrote, inside in *. simpl in *. unfold ranges, Size, sizeof_SnapshotState in *. simpl in *.
  rewrite Z.mod_small by lia. split_and!; try done; try lia.
  - by rewrite lookup_insert_eq.
  - intros c k Hk Hh. apply holds_insert; [lia|done].
Qed.

(** The ranges: some structures, all of them ranges. *)
Lemma writes_ranges ke pages b e st : inside st ->
  wp (save_ranges ke pages b e) (fun _ st' => exists l, Forall (fun i => is_range i = true) l /\ wrote l st st') (fun _ _ => True) st.
Proof.
  revert b e st. induction pages as [|[addr sz] pages IH]; intros b e st Hi; cbn [save_ranges].
  - destruct (negb (e =? b)); cbn [when].
    + eapply wp_mono; [by apply writes_range| |done]. intros [] st' W. eexists. split; [|exact W]. by constructor.
    + apply wp_ret. exists []. split; [done|by apply wrote_nil].
  - destruct (_ || _); [by apply IH|]. destruct (e =? addr); [by apply IH|]. wp_step. destruct (negb (e =? b)); cbn [when].
    + eapply wp_mono; [by apply writes_range| |done]. intros [] st1 W1. eapply wp_mono; [apply IH; apply W1| |done].
      intros [] st2 (l&Hl&W2). eexists. split; [|by eapply wrote_trans]. constructor; done.
    + apply wp_ret. by apply IH.
Qed.

(** The structures of threads and descriptors. *)
Definition thread_item (e : Z * Thread) : item := ColdStartThreadState (fst e) (stored_regs (snd e)) (fsbase (snd e)) (clear_tid (snd e)).
Definition pair_item (sp : SocketPair) : item := let p := saved_pair sp in ColdStartSocketPair (vfd1 p) (vfd2 p) (type p).
Definition epoll_items (vfd : Z) (e : EpollEntry) : list item :=
  ColdStartEpollEntry (Z.of_nat (base.size (epoll_fds e))) (Z.of_nat (base.size (shared_epoll_fds e))) vfd ::
  map (fun m => ColdStartEpollFd (fst m) (snd m)) (map_order (epoll_fds e)) ++
  map ColdStartSharedEpollFd (set_order (shared_epoll_fds e)).
Definition thread_items (mt : option MultiThreading) (t : Z) : list item :=
  match mt with
  | Some m => ColdStartThreads (Z.of_nat (base.size (m_threads m))) (Some t) :: map thread_item (ordered (m_threads m))
  | None => [ColdStartThreads 0 None]
  end.
Definition fd_items (f : FileDescriptors) : list item :=
  ColdStartFds (Z.of_nat (base.size (m_epoll_fds f))) (Z.of_nat (length (m_sockets f))) (m_next_fd f) ::
  map pair_item (m_sockets f) ++ (ordered (m_epoll_fds f) ≫= fun e => epoll_items (fst e) (entry_of f (snd e))).

Lemma writes_map {A} (f : A -> item) l : (forall x, is_range (f x) = false) -> writes (for_each l (fun x => emit (f x))) (map f l).
Proof.
  intros Hf. induction l as [|x l IH]; cbn [for_each map]; [apply writes_nil|].
  apply (writes_bind _ _ [f x]); [by apply writes_emit|done].
Qed.
Lemma writes_fds f : writes (save_fd_state f) (fd_items f).
Proof.
  unfold save_fd_state, fd_items. apply (writes_bind _ _ [_]); [by apply writes_emit|].
  apply writes_bind; [by apply writes_map|]. apply writes_for_each. intros e. unfold save_epoll, epoll_items.
  apply (writes_bind _ _ [_]); [by apply writes_emit|]. apply writes_bind; by apply writes_map.
Qed.

(** The area after a save: the header, the structures, and where they end. *)
Record saved_area (s : Snap) (f : FileDescriptors) (a : Area SR FP) : Prop := {
  sa_magic : magic (header a) = MAGIC;
  sa_plain : plain (header a) = m_plain s;
  sa_items : exists rl t, Forall (fun i => is_range i = true) rl /\ num_access_ranges (header a) = Z.of_nat (length rl) /\
    (forall m, m_mt s = Some m -> gettid m = Ok t) /\
    let l := rl ++ thread_items (m_mt s) t ++ fd_items f in
    holds (cells a) sizeof_SnapshotState l /\ size (header a) = sizeof_SnapshotState + total l /\ size (header a) <= Size }.

Lemma ranges_all l : Forall (fun i => is_range i = true) l -> ranges l = Z.of_nat (length l).
Proof. unfold ranges. induction 1 as [|i l Hi _ IH]; [done|]. cbn [List.filter]. rewrite Hi. cbn [length]. lia. Qed.
Lemma ranges_none l : Forall (fun i => is_range i = false) l -> ranges l = 0.
Proof. unfold ranges. induction 1 as [|i l Hi _ IH]; [done|]. cbn [List.filter]. by rewrite Hi. Qed.
Lemma thread_items_ranges mt t : ranges (thread_items mt t) = 0.
Proof. apply ranges_none. destruct mt; simpl; repeat constructor. apply Forall_map, Forall_true. done. Qed.
Lemma fd_items_ranges f : ranges (fd_items f) = 0.
Proof.
  apply ranges_none. constructor; [done|]. apply Forall_app. split; [apply Forall_map, Forall_true; done|].
  apply Forall_bind, Forall_true. intros e. constructor; [done|]. apply Forall_app. split; apply Forall_map, Forall_true; done.
Qed.

Lemma writes_threads mt st : inside st ->
  wp (save_threads mt) (fun _ st' => exists t, (forall m, mt = Some m -> gettid m = Ok t) /\ wrote (thread_items mt t) st st') (fun _ _ => True) st.
Proof.
  intros Hi. unfold save_threads, thread_items. destruct mt as [m|].
  - wp_step. apply wp_lift. destruct (gettid m) as [t|e] eqn:E; [|done].
    assert (forall n, writes (emit (ColdStartThreads n (Some t)) ;;; for_each (ordered (m_threads m)) (fun e => emit (thread_item e)))
      ([ColdStartThreads n (Some t)] ++ map thread_item (ordered (m_threads m)))) as Hw
      by (intros n; apply writes_bind; [by apply writes_emit|by apply writes_map]).
    eapply wp_mono; [by apply Hw| |done]. intros [] st' W. exists t. split; [by intros ? [= <-]|exact W].
  - eapply wp_mono; [by apply writes_emit| |done]. intros [] st' W. exists 0. by split.
Qed.

Lemma fds_wp s : wp fds (fun f s' => s' = set_fdm s (Some f)) (fun e _ => exists msg, e = RuntimeError msg) s.
Proof.
  unfold fds. wp_step. wp_step. destruct (m_fdm s) as [f|] eqn:E.
  - apply wp_ret. destruct s. simpl in *. by rewrite E.
  - destruct (FileDescriptors_new _ _ _) as [[[]|e] f] eqn:En; [by wp_steps|]. wp_step.
    assert (wp (FileDescriptors_new (p_forked (m_plain s)) (host_fds s)) (fun _ _ => True) (fun e _ => exists msg, e = RuntimeError msg)
      (mkFds ∅ 0 "" 0 0 0 0 ∅ ∅ 0 [] false (host_fds s))) as Hw.
    { unfold FileDescriptors_new, host_dup, host_new, fails, runtime_error, upd_host, upd_fds.
      repeat (wp_step || case_decide || (destruct (new_fd _ _)) || (eexists; reflexivity) || exact I). }
    unfold wp in Hw. by rewrite En in Hw.
Qed.

Lemma save_body_ok pages s a0 : wp (save_body fpu_get_ok s pages)
  (fun _ st => exists f, sv_machine st = set_fdm s (Some f) /\ saved_area s f (sv_area st)) (fun _ _ => True) (mkSaving s a0 sizeof_SnapshotState).
Proof.
  unfold save_body. wp_step. apply wp_modify. wp_step. destruct fpu_get_ok; [|by apply wp_throw]. wp_step. wp_step. apply wp_modify.
  cbn [sv_area sv_cur sv_machine header cells magic size plain num_access_ranges]. set (st0 := mkSaving _ _ _).
  assert (inside st0) as Hi0 by (unfold st0, inside, sizeof_SnapshotState, Size; simpl; lia).
  wp_step. eapply wp_mono; [by apply writes_ranges| |done]. intros [] st1 (rl&Hrl&W1).
  wp_step. eapply wp_mono; [apply writes_threads; apply W1| |done]. intros [] st2 (t&Ht&W2).
  wp_step. unfold save_fds. wp_step. wp_step. wp_step; [by apply wp_throw|]. wp_step.
  pose proof (fds_wp (sv_machine st2)) as Hf. unfold wp at 1. unfold wp in Hf.
  destruct (fds (sv_machine st2)) as [[f|e] s'] eqn:Ef; [|done]. rewrite Hf. cbn beta.
  set (st2' := mkSaving _ _ _). assert (inside st2') as Hi2 by apply W2.
  eapply wp_mono; [by apply writes_fds| |done]. intros [] st3 W3. wp_step. wp_step. wp_step. apply wp_modify. wp_step; [by apply wp_throw|]. apply wp_ret.
  exists f. cbn [sv_machine sv_area header cells]. destruct W1 as (C1&_&H1&K1&(M1&S1&P1)&N1&E1), W2 as (C2&_&H2&K2&(M2&S2&P2)&N2&E2),
    W3 as (C3&I3&H3&K3&(M3&S3&P3)&N3&E3). subst st2'. cbn [sv_machine sv_area sv_cur] in *.
  assert (sv_cur st3 mod 2 ^ 32 = sv_cur st3) as Em by (apply Z.mod_small; destruct I3; unfold sizeof_SnapshotState, Size in *; lia).
  split; [rewrite E3, E2, E1; done|]. constructor; cbn [header magic plain size num_access_ranges].
  - rewrite M3, M2, M1. done.
  - rewrite P3, P2, P1. done.
  - exists rl, t. rewrite N3, N2, N1, ranges_all, thread_items_ranges, fd_items_ranges by done.
    split_and!; [done|simpl; lia|done| |rewrite Em, !total_app; change (sv_cur st0) with sizeof_SnapshotState in C1; lia|rewrite Em; apply I3].
    change (sv_cur st0) with sizeof_SnapshotState in *. rewrite !holds_app. split_and!.
    + apply K3; [pose proof (total_nonneg (thread_items (m_mt s) t)); lia|]. apply K2; [lia|done].
    + apply K3; [lia|]. by rewrite <- C1.
    + rewrite <- C1, <- C2. done.
Qed.
End saving.

(** ** Loading what was saved *)

Definition runtime_exn {T} (e : exn) (_ : T) : Prop := exists msg, e = RuntimeError msg.

(** *** Descriptor tables: what the loader's calls leave alone *)

Section descriptors.
Context `{os : HostFds} {laws : HostFdLaws os}.
Implicit Types (f : FileDescriptors).

(** The recorded metadata stays; entries stay, too. *)
Definition keeps f f' : Prop :=
  (m_epoll_fds f' = m_epoll_fds f /\ epoll_store f' = epoll_store f /\ next_epoll f' = next_epoll f) /\
  m_sockets f' = m_sockets f /\ m_forked_machine f' = m_forked_machine f /\
  forall v, is_Some (m_fds f !! v) -> is_Some (m_fds f' !! v).
(** The entries of [vs] exist, and if their numbers were below the next one it is still the next. *)
Definition managed_vfds (vs : list Z) f f' : Prop :=
  keeps f f' /\ (forall v, v ∈ vs -> is_Some (m_fds f' !! v)) /\
  ((forall v, v ∈ vs -> v < m_next_fd f) -> m_next_fd f' = m_next_fd f).

Lemma keeps_refl f : keeps f f.
Proof. by split_and!. Qed.
Lemma keeps_trans f1 f2 f3 : keeps f1 f2 -> keeps f2 f3 -> keeps f1 f3.
Proof.
  intros ((A1&A2&A3)&A4&A5&A6) ((B1&B2&B3)&B4&B5&B6). split_and!; try congruence. auto.
Qed.
Lemma managed_nil f : managed_vfds [] f f.
Proof. split_and!; [apply keeps_refl|intros v []%elem_of_nil|done]. Qed.
Lemma managed_trans vs1 vs2 f1 f2 f3 : managed_vfds vs1 f1 f2 -> managed_vfds vs2 f2 f3 -> managed_vfds (vs1 ++ vs2) f1 f3.
Proof.
  intros (K1&M1&N1) (K2&M2&N2). split_and!; [by eapply keeps_trans| |].
  - intros v [Hv|Hv]%elem_of_app; [apply K2; auto|auto].
  - intros Hv. rewrite N2; [apply N1|rewrite N1]; intros; apply Hv, elem_of_app; auto.
Qed.
Lemma managed_host f h : managed_vfds [] f (set_fhost f h).
Proof. split_and!; [by split_and!|intros v []%elem_of_nil|done]. Qed.

Lemma host_new_frame rq f : wp (host_new rq) (fun _ f' => managed_vfds [] f f') runtime_exn f.
Proof. unfold host_new, fails, upd_host, upd_fds. wp_step. wp_step. destruct (new_fd _ _); wp_steps; apply managed_host. Qed.
Lemma host_dup_frame fd f : wp (host_dup fd) (fun _ f' => managed_vfds [] f f') runtime_exn f.
Proof.
  unfold host_dup. wp_step. wp_step. case_decide; [apply host_new_frame|]. unfold fails, upd_host, upd_fds. wp_steps. apply managed_host.
Qed.
Lemma host_pair_frame rq f : wp (host_pair rq) (fun _ f' => managed_vfds [] f f') runtime_exn f.
Proof.
  unfold host_pair, fails, upd_host, upd_fds. wp_step. wp_step. destruct (new_fd _ _); [destruct (new_fd _ _)|]; wp_steps; apply managed_host.
Qed.
Lemma host_close_frame fd f : wp (host_close fd) (fun _ f' => managed_vfds [] f f') runtime_exn f.
Proof. unfold host_close, fails, upd_host, upd_fds. wp_step. wp_step. case_decide; wp_steps; apply managed_host. Qed.
Lemma epoll_ctl_frame epfd op fd f : wp (host_epoll_ctl epfd op fd) (fun _ f' => managed_vfds [] f f') runtime_exn f.
Proof.
  unfold host_epoll_ctl, fails, set_interest, upd_host, upd_fds. wp_step. wp_step.
  repeat first [case_decide | destruct (epoll_refusal _ _ _ _) | destruct (_ =? _) | progress wp_steps]; first [exact (managed_nil f) | exact (managed_host f _)].
Qed.

Lemma manage_as_frame v fd w f : v < INT_MAX -> wp (manage_as v fd w) (fun _ f' => managed_vfds [v] f f') runtime_exn f.
Proof.
  intros Hmax. unfold manage_as, check_limits, runtime_error. destruct (fd <=? 2); [wp_step; by eexists|]. wp_step. wp_step. wp_step.
  assert (forall msg f (Q : unit -> FileDescriptors -> Prop), wp (let! _ := host_close fd in throw (RuntimeError msg)) Q runtime_exn f) as Hcl.
  { intros msg g Q. wp_step. eapply wp_mono; [apply host_close_frame| |done]. intros z g' _. wp_step. by eexists. }
  destruct (_ && _); [apply Hcl|]. destruct (_ <=? _); [apply Hcl|]. wp_step. wp_step. apply room_wp; [intros _|lia].
  unfold upd_fds. wp_steps.
  split_and!; [split_and!; try done| |].
  - intros x Hx. simpl. destruct (decide (x = v)) as [->|]; [rewrite lookup_insert_eq; eauto|by rewrite lookup_insert_ne].
  - intros x ->%list_elem_of_singleton. simpl. rewrite lookup_insert_eq. eauto.
  - intros Hv. simpl. specialize (Hv v). rewrite list_elem_of_singleton in Hv. specialize (Hv eq_refl). lia.
Qed.

Lemma create_pairs_frame sp f : (forall v, v ∈ pair_vfds sp -> v < INT_MAX) -> wp (create_socket_pairs_from sp) (fun _ f' => managed_vfds (pair_vfds sp) f f') runtime_exn f.
Proof.
  intros Hmax. assert (forall rq msg, pair_vfds sp = [vfd1 sp; vfd2 sp] -> wp (let! p := host_pair rq in
      match p with
      | None => throw (RuntimeError msg)
      | Some (a, b) => manage_as (vfd1 sp) a true ;;; manage_as (vfd2 sp) b true
      end) (fun _ f' => managed_vfds (pair_vfds sp) f f') runtime_exn f) as Hpair.
  { intros rq msg Hp. rewrite Hp in Hmax |- *. wp_step. eapply wp_mono; [apply host_pair_frame| |done]. intros [[a b]|] f1 M1; [|wp_step; by eexists].
    wp_step. eapply wp_mono; [apply manage_as_frame, Hmax; set_solver| |done]. intros [] f2 M2. eapply wp_mono; [apply manage_as_frame, Hmax; set_solver| |done].
    intros [] f3 M3. apply (managed_trans [] [vfd1 sp; vfd2 sp] f f1); [done|]. by eapply (managed_trans [vfd1 sp] [vfd2 sp]). }
  unfold create_socket_pairs_from, runtime_error. destruct (type sp) eqn:Ety.
  - wp_step. unfold pair_vfds. rewrite Ety. apply managed_nil.
  - apply Hpair. unfold pair_vfds. by rewrite Ety.
  - apply Hpair. unfold pair_vfds. by rewrite Ety.
  - wp_step. eapply wp_mono; [apply host_new_frame| |done]. intros fd f1 M1. destruct (fd <? 0); [wp_step; by eexists|].
    eapply wp_mono; [apply manage_as_frame, Hmax; unfold pair_vfds; rewrite Ety; set_solver| |done]. intros [] f2 M2. unfold pair_vfds. rewrite Ety. by apply (managed_trans [] [vfd1 sp] f f1).
  - wp_step. eapply wp_mono; [apply host_dup_frame| |done]. intros fd f1 M1. destruct (fd <? 0); [wp_step; by eexists|].
    eapply wp_mono; [apply manage_as_frame, Hmax; unfold pair_vfds; rewrite Ety; set_solver| |done]. intros [] f2 M2. unfold pair_vfds. rewrite Ety. by apply (managed_trans [] [vfd2 sp] f f1).
  - wp_step. eapply wp_mono; [apply manage_as_frame, Hmax; unfold pair_vfds; rewrite Ety; set_solver| |done]. intros [] f1 M1. unfold upd_fds. wp_steps.
    unfold pair_vfds. rewrite Ety. apply (managed_trans [vfd1 sp] [] f f1); [done|].
    split_and!; [split_and!; try done| |]; simpl; [|intros v []%elem_of_nil|done].
    intros v [x Hx]. destruct (decide (vfd1 sp = v)) as [->|Hne]; [rewrite lookup_alter_eq, Hx|rewrite lookup_alter_ne, Hx by done]; by eexists.
Qed.

(** Without a master, translating is a look-up. *)
Lemma translate_none v f : translate None v f = (Ok (default (-1) (real_fd <$> m_fds f !! v)), f).
Proof.
  unfold translate, bind, get. destruct (base.size _); cbn [translate_fuel]; unfold bind, get; by destruct (m_fds f !! v).
Qed.

Lemma create_epoll_frame vfd e f : vfd < INT_MAX -> wp (create_epoll_entry_from None vfd e) (fun _ f' => managed_vfds [vfd] f f') runtime_exn f.
Proof.
  intros Hmax. unfold create_epoll_entry_from, runtime_error. wp_step. eapply wp_mono; [apply host_new_frame| |done]. intros fd f1 M1.
  destruct (fd <? 0); [wp_step; by eexists|]. wp_step. eapply wp_mono; [by apply manage_as_frame| |done]. intros [] f2 M2.
  apply (wp_for_each (fun _ f' => managed_vfds [vfd] f f')).
  - by apply (managed_trans [] [vfd] f f1).
  - intros dn x rest f3 _ M3. wp_step. unfold wp at 1. rewrite translate_none. apply wp_when; [intros _|done].
    wp_step. eapply wp_mono; [apply epoll_ctl_frame| |done]. intros r f4 M4. destruct (r <? 0); [wp_step; by eexists|].
    wp_step. by apply (managed_trans [vfd] [] f f3).
  - done.
Qed.

Lemma new_table forked h f0 : wp (FileDescriptors_new forked h)
  (fun _ f => m_epoll_fds f = ∅ /\ epoll_store f = ∅ /\ m_sockets f = [] /\ m_forked_machine f = forked) runtime_exn f0.
Proof.
  unfold FileDescriptors_new, runtime_error. wp_step. apply wp_modify. set (f := mkFds _ _ _ _ _ _ _ _ _ _ _ _ _).
  wp_step. eapply wp_mono; [apply host_dup_frame| |done]. intros a f1 (K1&_).
  wp_step. eapply wp_mono; [apply host_dup_frame| |done]. intros b f2 (K2&_).
  wp_step. eapply wp_mono; [apply host_dup_frame| |done]. intros c f3 (K3&_).
  destruct (_ || _); [wp_step; by eexists|]. unfold upd_fds. wp_step. simpl.
  destruct (keeps_trans _ _ _ (keeps_trans _ _ _ K1 K2) K3) as ((->&->&_)&->&->&_). done.
Qed.
End descriptors.

Section loading.
Context {SR FP : Type} `{os : HostFds} {laws : HostFdLaws os}.
Context (junk : Junk) (a : Area SR FP).
Notation Loading := (Loading SR FP).
Notation Snap := (Snap SR FP).
Implicit Types (st : Loading) (s : Snap).

(** The structures ahead of the reader. *)
Definition reading (l : list item) st : Prop := holds (cells a) (ld_cur st) l /\ ld_cur st + total l <= Size.

Lemma fetch_wp {A} sz (want : item -> option A) i x l st (Q : A -> Loading -> Prop) X :
  reading (i :: l) st -> sizeof i = sz -> want i = Some x ->
  (forall st', ld_machine st' = ld_machine st -> reading l st' -> Q x st') -> wp (fetch a sz want) Q X st.
Proof.
  intros [[H1 H2] Hs] <- Hw HQ. unfold fetch. wp_step. wp_step. wp_step. wp_step. cbn [total] in Hs. pose proof (total_nonneg l).
  rewrite (proj2 (Z.ltb_ge _ _)) by lia. rewrite H1, Hw. wp_step. apply HQ; [done|]. split; [done|simpl; lia].
Qed.

(** A counted loop that consumes the structures of the elements of a list. *)
Lemma consume {A} (xs : list A) (g : A -> list item) body (I : list A -> Snap -> Prop) l lo st (Q : unit -> Loading -> Prop) X :
  reading ((xs ≫= g) ++ l) st -> I [] (ld_machine st) ->
  (forall d x r l' st', xs = d ++ x :: r -> I d (ld_machine st') -> reading (g x ++ l') st' ->
     wp body (fun _ st'' => reading l' st'' /\ I (d ++ [x]) (ld_machine st'')) X st') ->
  (forall st', reading l st' -> I xs (ld_machine st') -> Q tt st') ->
  wp (for_range (length xs) lo (fun _ => body)) Q X st.
Proof.
  intros Hr H0 Hstep Hend.
  assert (forall r d lo st, xs = d ++ r -> reading ((r ≫= g) ++ l) st -> I d (ld_machine st) ->
    wp (for_range (length r) lo (fun _ => body)) Q X st) as Hgen; [|by apply (Hgen xs [])].
  induction r as [|x r IH]; intros d lo' st' E Hr' Hd; cbn [length for_range].
  - apply wp_ret, Hend; [done|]. by rewrite E, app_nil_r.
  - cbn [mbind list_bind] in Hr'. rewrite <- app_assoc in Hr'. wp_step. eapply wp_mono; [by eapply Hstep| |done].
    intros [] st'' [Hr'' Hd'']. eapply IH; [|exact Hr''|exact Hd'']. by rewrite E, <- app_assoc.
Qed.

Lemma bind_single {A} (l : list A) : (l ≫= fun x => [x]) = l.
Proof. induction l as [|x l IH]; [done|]. change (x :: (l ≫= fun x => [x]) = x :: l). by rewrite IH. Qed.
Lemma list_fmap_bind_single {A B} (f : A -> B) (l : list A) : (l ≫= fun x => [f x]) = map f l.
Proof. induction l as [|x l IH]; [done|]. change (f x :: (l ≫= fun x => [f x]) = f x :: map f l). by rewrite IH. Qed.
Lemma load_ranges_wp rl l st (Q : unit -> Loading -> Prop) X : Forall (fun i => is_range i = true) rl -> reading (rl ++ l) st ->
  (forall st', ld_machine st' = ld_machine st -> reading l st' -> Q tt st') ->
  wp (for_range (length rl) 0 (fun _ => load_range a)) Q X st.
Proof.
  intros Hrl Hr HQ. assert (rl ≫= (fun i => [i]) = rl) as E by apply bind_single.
  apply (consume rl (fun i => [i]) _ (fun _ m => m = ld_machine st) l); [by rewrite E|done| |].
  - intros d x r l' st' -> Hm Hx. apply Forall_app in Hrl as [_ Hrl]. inversion_clear Hrl as [|? ? Hi _].
    destruct x as [b e| | | | | | |]; try done. unfold load_range. wp_step.
    eapply fetch_wp; [exact Hx|done|done|]. intros st'' Em Hr'. wp_step. by rewrite Em.
  - intros st' Hr' Hm. by apply HQ.
Qed.

(** *** Threads *)

Lemma elem_ordered {A} (m : gmap Z A) k x : (k, x) ∈ ordered m <-> m !! k = Some x.
Proof.
  unfold ordered. rewrite list_elem_of_omap. split.
  - intros (k' & _ & He). destruct (m !! k') as [e'|] eqn:E; simpl in He; [|done]. by injection He as <- <-.
  - intros He. exists k. rewrite He. split; [|done]. rewrite merge_sort_Permutation. apply elem_of_elements, elem_of_dom. eauto.
Qed.
Lemma ordered_keys {A} (m : gmap Z A) : (ordered m).*1 = merge_sort Z.le (elements (dom m)).
Proof.
  unfold ordered. set (l := merge_sort _ _).
  assert (forall k, k ∈ l -> is_Some (m !! k)) as Hl.
  { intros k Hk. apply elem_of_dom, elem_of_elements. by rewrite <- (merge_sort_Permutation Z.le). }
  induction l as [|k l IH]; [done|]. destruct (Hl k) as [x Hx]; [left|]. simpl. rewrite Hx. simpl. f_equal. apply IH.
  intros k' Hk'. apply Hl. by right.
Qed.
Lemma ordered_nodup {A} (m : gmap Z A) : NoDup (ordered m).*1.
Proof. rewrite ordered_keys, merge_sort_Permutation. apply NoDup_elements. Qed.
Lemma length_ordered {A} (m : gmap Z A) : length (ordered m) = base.size m.
Proof.
  rewrite <- (length_fmap fst), ordered_keys. rewrite (Permutation_length (merge_sort_Permutation Z.le _)).
  change (length (elements (dom m))) with (base.size (dom m)). apply size_dom.
Qed.

(** The threads loaded so far: the saved ones, and the main thread that always exists. *)
Definition threads_so_far (m : MultiThreading) (d : list (Z * Thread)) s0 s : Prop :=
  exists cur, s = set_mt s0 (Some cur) /\ thread_counter cur = 1 /\
    forall t, m_threads cur !! t = if decide (t ∈ d.*1) then m_threads m !! t else if decide (t = 1) then Some (Thread_new junk 1 0 0) else None.

(** A table of threads that can be saved: also one that was loaded, whose counter is wrong. *)
Record saveable (m : MultiThreading) : Prop := {
  sv_keys : forall t th, m_threads m !! t = Some th -> tid th = t;
  sv_main : is_Some (m_threads m !! 1);
  sv_current : is_Some (m_current m) }.
Lemma mt_inv_saveable m : mt_inv m -> saveable m.
Proof.
  intros Hm. constructor; [intros t th H; by apply (mi_keys _ Hm)|by apply mi_main|].
  destruct (mi_queue _ Hm) as (c&->&_). by eexists.
Qed.

(** The threads [m] as they are loaded: every thread that is not running is queued, in the order
    of their numbers, and the counter starts again. *)
Definition threads_restored (mt mt' : option MultiThreading) : Prop :=
  match mt with
  | None => mt' = None
  | Some m => exists m', mt' = Some m' /\ m_threads m' = m_threads m /\ m_current m' = m_current m /\
                (forall t, t ∈ m_suspended m' <-> m_current m <> Some t /\ is_Some (m_threads m !! t)) /\
                NoDup (m_suspended m') /\ Sorted Z.le (m_suspended m') /\ thread_counter m' = 1
  end.

Lemma load_thread_wp m s0 d t th r l st : saveable m -> ordered (m_threads m) = d ++ (t, th) :: r ->
  threads_so_far m d s0 (ld_machine st) -> reading (thread_item (t, th) :: l) st ->
  wp (load_thread junk a) (fun _ st' => reading l st' /\ threads_so_far m (d ++ [(t, th)]) s0 (ld_machine st')) runtime_exn st.
Proof.
  intros Hm Eo (cur&Es&Ec&Hcur) Hr.
  assert (m_threads m !! t = Some th) as Hth by (apply elem_ordered; rewrite Eo; apply elem_of_app; right; left).
  pose proof (sv_keys _ Hm _ _ Hth) as Ht.
  assert (t ∉ d.*1) as Hnew.
  { pose proof (ordered_nodup (m_threads m)) as Hn. rewrite Eo, fmap_app in Hn. apply NoDup_app in Hn as (_&Hd&_).
    intros Hin. eapply Hd; [exact Hin|]. left. }
  unfold load_thread. wp_step. eapply fetch_wp; [exact Hr|done|done|]. intros st' Em Hr'. cbn [tid stored_regs fsbase clear_tid fst snd].
  rewrite Es in Em. destruct st' as [s' c']. cbn [ld_machine] in Em. subst s'.
  unfold wp, bind, on_threads, create_tid, modify_mt, threads, Threads.set_mt, get, bind, ret, modify. cbn.
  split; [done|]. eexists. split; [done|]. split; [done|]. intros k. cbn [m_threads Threads.set_threads]. unfold try_emplace.
  pose proof (Hcur t) as Hct. rewrite decide_False in Hct by done. rewrite fmap_app. cbn [fmap list_fmap fst].
  assert (forall old : gmap Z Thread, old !! t = Some (Thread_new junk t 0 0) -> (forall k, k <> t -> old !! k = m_threads cur !! k) ->
    alter (fun th0 => mkThread (tid th0) (stored_regs th) (fsbase th) (clear_tid th)) t old !! k =
      (if decide (k ∈ d.*1 ++ [t]) then m_threads m !! k else if decide (k = 1) then Some (Thread_new junk 1 0 0) else None)) as Hfin.
  { intros old Ho Hk. destruct (decide (k = t)) as [->|Hne].
    - rewrite lookup_alter_eq, Ho, decide_True by (apply elem_of_app; right; left). rewrite Hth. simpl. f_equal. rewrite <- Ht. by destruct th.
    - rewrite lookup_alter_ne, Hk, Hcur by done. destruct (decide (k ∈ d.*1)).
      + by rewrite decide_True by (apply elem_of_app; by left).
      + rewrite (decide_False (P := k ∈ d.*1 ++ [t])); [done|]. intros [?|?%list_elem_of_singleton]%elem_of_app; done. }
  destruct (m_threads cur !! t) as [x|] eqn:Ex.
  - destruct (decide (t = 1)) as [->|]; [|done]. injection Hct as ->. apply Hfin; [done|]. done.
  - apply Hfin; [by rewrite lookup_insert_eq|]. intros k' Hk'. by rewrite lookup_insert_ne.
Qed.

(** All threads loaded. *)
Lemma threads_loaded m s0 s : saveable m -> threads_so_far m (ordered (m_threads m)) s0 s ->
  exists cur, s = set_mt s0 (Some cur) /\ thread_counter cur = 1 /\ m_threads cur = m_threads m.
Proof.
  intros Hm (cur&Es&Ec&Hc). exists cur. split_and!; [done|done|]. apply map_eq. intros k. rewrite Hc.
  assert (k ∈ (ordered (m_threads m)).*1 <-> is_Some (m_threads m !! k)) as Hk.
  { rewrite ordered_keys, merge_sort_Permutation, elem_of_elements. apply elem_of_dom. }
  case_decide as Hin; [done|]. rewrite Hk in Hin. destruct (m_threads m !! k) eqn:E; [by destruct Hin|].
  rewrite decide_False; [done|]. intros ->. destruct (sv_main _ Hm) as [? ?]. congruence.
Qed.
Lemma StronglySorted_filter (P : Z -> Prop) `{!forall x, Decision (P x)} l : StronglySorted Z.le l -> StronglySorted Z.le (filter P l).
Proof.
  induction 1 as [|x l _ IH Hx]; [constructor|]. rewrite filter_cons. destruct (decide (P x)); [|done].
  constructor; [done|]. rewrite !Forall_forall in Hx |- *. intros y [_ Hy]%list_elem_of_filter. by apply Hx.
Qed.

Lemma suspended_others m c :
  let l := filter (fun o => o <> c) (merge_sort Z.le (elements (dom (m_threads m)))) in
  (forall t, t ∈ l <-> Some c <> Some t /\ is_Some (m_threads m !! t)) /\ NoDup l /\ Sorted Z.le l.
Proof.
  intros l. split_and!.
  - intros x. unfold l. rewrite list_elem_of_filter, merge_sort_Permutation, elem_of_elements, elem_of_dom. intuition congruence.
  - apply NoDup_filter. rewrite merge_sort_Permutation. apply NoDup_elements.
  - apply StronglySorted_Sorted, StronglySorted_filter, Sorted_StronglySorted; [exact _|]. apply Sorted_merge_sort. exact _.
Qed.

Lemma wp_on_threads {A} (m : M (OS unit) A) (Q : A -> Loading -> Prop) X st r o :
  m (mkOS (p_regs (m_plain (ld_machine st))) 0 false (m_mt (ld_machine st)) Signals_new tt) = (Ok r, o) ->
  Q r (mkLoading (set_mt (ld_machine st) (Threads.m_mt o)) (ld_cur st)) -> wp (on_threads m) Q X st.
Proof. intros E HQ. unfold wp, on_threads. by rewrite E. Qed.

Lemma load_threads_wp mt t l st (Q : unit -> Loading -> Prop) : (forall m, mt = Some m -> saveable m /\ gettid m = Ok t) ->
  m_mt (ld_machine st) = None -> reading (thread_items mt t ++ l) st ->
  (forall st' mt', threads_restored mt mt' -> ld_machine st' = set_mt (ld_machine st) mt' -> reading l st' -> Q tt st') ->
  wp (load_threads junk a) Q runtime_exn st.
Proof.
  intros Hmt Hnone Hr HQ. unfold load_threads. destruct mt as [m|].
  2:{ wp_step. eapply fetch_wp; [exact Hr|done|done|]. intros st' Em Hr'. cbn [fst Z.ltb Z.compare when]. wp_step.
      apply (HQ _ None); [done| |done]. rewrite Em, <- Hnone. by destruct (ld_machine st). }
  destruct (Hmt m eq_refl) as [Hm Hg]. unfold gettid in Hg. destruct (sv_current _ Hm) as [c Hc]. rewrite Hc in Hg.
  destruct (m_threads m !! c) as [th|] eqn:Hth; [|done]. injection Hg as Hg. pose proof (sv_keys _ Hm _ _ Hth) as Et. assert (t = c) as -> by congruence.
  wp_step. cbn [thread_items app] in Hr. eapply fetch_wp; [exact Hr|done|done|]. intros [s' cu] Em Hr'. cbn [ld_machine fst snd] in *. subst s'.
  assert (0 < Z.of_nat (base.size (m_threads m))) as Hpos.
  { rewrite <- (length_ordered (m_threads m)). destruct (sv_main _ Hm) as [x Hx]. apply elem_ordered in Hx.
    destruct (ordered (m_threads m)); [by apply elem_of_nil in Hx|simpl; lia]. }
  apply wp_when; [intros _|lia]. wp_step.
  eapply wp_on_threads; [unfold threads, bind, get; cbn [ld_machine Threads.m_mt]; rewrite Hnone; reflexivity|]. cbn [ld_machine ld_cur Threads.m_mt].
  wp_step. rewrite Nat2Z.id, <- length_ordered.
  eapply (consume (ordered (m_threads m)) (fun e => [thread_item e]) _ (fun d s => threads_so_far m d (ld_machine st) s) l).
  - rewrite list_fmap_bind_single. exact Hr'.
  - eexists. split; [done|]. split; [done|]. intros k. cbn. destruct (decide (k = 1)) as [->|]; [by rewrite lookup_singleton_eq|by rewrite lookup_singleton_ne].
  - intros d [k x] r l' st' Eo Hd Hx. by eapply load_thread_wp.
  - intros [s2 cu2] Hr2 Hd. cbn [ld_machine] in Hd. destruct (threads_loaded _ _ _ Hm Hd) as (cur&->&Ec&Et').
    unfold on_threads, wp, set_to_and_suspend_others, modify_mt, threads, Threads.set_mt, bind, get, ret, modify. cbn.
    eapply HQ; [|done|done]. eexists. split; [done|]. cbn [m_threads m_current m_suspended thread_counter].
    rewrite Et', Hth, Hc. pose proof (suspended_others m c) as (?&?&?). by split_and!.
Qed.

(** *** Descriptors *)

Lemma wp_assoc {S A B C} (m : M S A) (k : A -> M S B) (j : B -> M S C) Q X (s : S) :
  wp (bind (bind m k) j) Q X s -> wp (bind m (fun x => bind (k x) j)) Q X s.
Proof. unfold wp, bind. by destruct (m s) as [[] ?]. Qed.
Lemma wp_on_fds {A} (m : M FileDescriptors A) (Q : A -> Loading -> Prop) st f : m_fdm (ld_machine st) = Some f ->
  wp m (fun r f' => Q r (mkLoading (set_fdm (ld_machine st) (Some f')) (ld_cur st))) runtime_exn f -> wp (on_fds m) Q runtime_exn st.
Proof. intros E. unfold wp, on_fds. rewrite E. by destruct (m f) as [[] ?]. Qed.

Lemma length_map_order (m : gmap Z Z) : length (map_order m) = base.size m.
Proof.
  assert (map_order m ≡ₚ map_to_list m) as HP.
  { apply NoDup_Permutation; [apply map_order_nodup|apply NoDup_map_to_list|]. intros [k v]. by rewrite map_order_elements, elem_of_map_to_list. }
  rewrite (Permutation_length HP). apply length_map_to_list.
Qed.
Lemma length_set_order (o : gset Z) : length (set_order o) = base.size o.
Proof.
  assert (set_order o ≡ₚ elements o) as HP.
  { apply NoDup_Permutation; [apply set_order_nodup|apply NoDup_elements|]. intros k. by rewrite set_order_elements, elem_of_elements. }
  by rewrite (Permutation_length HP).
Qed.

Definition with_entry (f : FileDescriptors) (p : Z) (en : EpollEntry) : FileDescriptors :=
  set_epoll f (m_epoll_fds f) (<[p := en]> (epoll_store f)) (next_epoll f).
Lemma upd_entry_run f p en g : upd_entry p g (with_entry f p en) = (Ok tt, with_entry f p (g en)).
Proof.
  unfold upd_entry, upd_fds, modify, with_entry. cbn [m_epoll_fds epoll_store next_epoll set_epoll].
  assert (alter g p (<[p := en]> (epoll_store f)) = <[p := g en]> (epoll_store f)) as ->; [|done].
  apply map_eq. intros k. destruct (decide (k = p)) as [->|]; [by rewrite lookup_alter_eq, !lookup_insert_eq|].
  by rewrite lookup_alter_ne, !lookup_insert_ne by done.
Qed.

(** The members of an epoll entry, loaded into the entry [p]. *)
Lemma load_members_wp e f p s0 l st (Q : unit -> Loading -> Prop) :
  ld_machine st = set_fdm s0 (Some (with_entry f p EpollEntry_new)) ->
  reading (map (fun m => ColdStartEpollFd (fst m) (snd m)) (map_order (epoll_fds e)) ++
           map ColdStartSharedEpollFd (set_order (shared_epoll_fds e)) ++ l) st ->
  (forall st', ld_machine st' = set_fdm s0 (Some (with_entry f p e)) -> reading l st' -> Q tt st') ->
  wp (for_range (base.size (epoll_fds e)) 0 (fun _ =>
        let! m := fetch a 16 (fun i => match i with ColdStartEpollFd v e => Some (v, e) | _ => None end) in
        on_fds (upd_entry p (fun en => mkEpoll (<[fst m := snd m]> (epoll_fds en)) (shared_epoll_fds en)))) ;;;
      for_range (base.size (shared_epoll_fds e)) 0 (fun _ =>
        let! v := fetch a 4 (fun i => match i with ColdStartSharedEpollFd v => Some v | _ => None end) in
        on_fds (upd_entry p (fun en => mkEpoll (epoll_fds en) ({[v]} ∪ shared_epoll_fds en))))) Q runtime_exn st.
Proof.
  intros Es Hr HQ. wp_step. rewrite <- length_map_order, <- length_set_order.
  eapply (consume (map_order (epoll_fds e)) (fun m => [ColdStartEpollFd (fst m) (snd m)]) _
    (fun d s => exists em, s = set_fdm s0 (Some (with_entry f p (mkEpoll em ∅))) /\ forall k v, em !! k = Some v <-> (k, v) ∈ d)).
  - rewrite list_fmap_bind_single. exact Hr.
  - exists ∅. split; [done|]. intros k v. rewrite lookup_empty, elem_of_nil. done.
  - intros d [k v] r l' st' Ed (em&Em&Hem) Hx. wp_step. eapply fetch_wp; [exact Hx|done|done|]. intros st'' Ex Hr'. cbn [fst snd].
    eapply wp_on_fds; [by rewrite Ex, Em|]. unfold wp. rewrite upd_entry_run. cbn [epoll_fds shared_epoll_fds ld_machine ld_cur].
    split; [done|]. exists (<[k := v]> em). split; [by rewrite Ex, Em|]. intros k' v'. rewrite elem_of_app, list_elem_of_singleton.
    destruct (decide (k' = k)) as [->|Hne].
    + rewrite lookup_insert_eq. split; [intros [= ->]; by right|]. intros [Hd|[= ->]]; [|done].
      assert (epoll_fds e !! k = Some v) as E1 by (apply map_order_elements; rewrite Ed; apply elem_of_app; right; left).
      assert (epoll_fds e !! k = Some v') as E2 by (apply map_order_elements; rewrite Ed; apply elem_of_app; by left). congruence.
    + rewrite lookup_insert_ne, Hem by done. split; [tauto|]. intros [?|[= ->]]; done.
  - intros st1 Hr1 (em&Em&Hem). assert (em = epoll_fds e) as ->.
    { apply map_eq. intros k. apply option_eq. intros v. rewrite Hem. apply map_order_elements. }
    eapply (consume (set_order (shared_epoll_fds e)) (fun v => [ColdStartSharedEpollFd v]) _
      (fun d s => exists sh, s = set_fdm s0 (Some (with_entry f p (mkEpoll (epoll_fds e) sh))) /\ forall v, v ∈ sh <-> v ∈ d)).
    + rewrite list_fmap_bind_single. exact Hr1.
    + exists ∅. split; [done|]. intros v. rewrite elem_of_nil. set_solver.
    + intros d v r l' st' Ed (sh&Esh&Hsh) Hx. wp_step. eapply fetch_wp; [exact Hx|done|done|]. intros st'' Ex Hr'.
      eapply wp_on_fds; [by rewrite Ex, Esh|]. unfold wp. rewrite upd_entry_run. cbn [epoll_fds shared_epoll_fds ld_machine ld_cur].
      split; [done|]. exists ({[v]} ∪ sh). split; [by rewrite Ex, Esh|]. intros w. rewrite elem_of_union, elem_of_singleton, Hsh, elem_of_app, list_elem_of_singleton. tauto.
    + intros st2 Hr2 (sh&Esh&Hsh). assert (sh = shared_epoll_fds e) as -> by (apply set_eq; intros v; rewrite Hsh; apply set_order_elements).
      apply HQ; [|done]. rewrite Esh. by destruct e.
Qed.

Context (f : FileDescriptors).
(** The recorded numbers of [f] are below its next one, which is an [int]. *)
Definition recorded : list Z := (map saved_pair (m_sockets f) ≫= pair_vfds) ++ (ordered (m_epoll_fds f)).*1.
Definition in_order : Prop := m_next_fd f <= INT_MAX /\ forall v, v ∈ recorded -> v < m_next_fd f.

(** The metadata of the descriptors is as saved, and the recorded numbers are in use again. *)
Definition fds_restored (f' : FileDescriptors) : Prop :=
  m_sockets f' = map saved_pair (m_sockets f) /\ m_next_fd f' = m_next_fd f /\
  (forall v, entry_of f' <$> m_epoll_fds f' !! v = entry_of f <$> m_epoll_fds f !! v) /\
  forall v, v ∈ recorded -> is_Some (m_fds f' !! v).

Definition pairs_so_far (d : list SocketPair) s0 s : Prop :=
  exists f', s = set_fdm s0 (Some f') /\ m_sockets f' = map saved_pair d /\ m_forked_machine f' = false /\
    m_epoll_fds f' = ∅ /\ m_next_fd f' = m_next_fd f /\ forall v, v ∈ (map saved_pair d ≫= pair_vfds) -> is_Some (m_fds f' !! v).

Lemma load_pair_wp d sp r l s0 st : in_order -> m_sockets f = d ++ sp :: r -> pairs_so_far d s0 (ld_machine st) ->
  reading (pair_item sp :: l) st ->
  wp (load_pair a) (fun _ st' => reading l st' /\ pairs_so_far (d ++ [sp]) s0 (ld_machine st')) runtime_exn st.
Proof.
  intros Ho Ed (f'&Es&Hs&Hf&He&Hn&Hv) Hr. unfold load_pair. wp_step. eapply fetch_wp; [exact Hr|done|done|]. intros st1 E1 Hr1.
  replace (mkPair (vfd1 (saved_pair sp)) (vfd2 (saved_pair sp)) (type (saved_pair sp))) with (saved_pair sp) by by destruct (saved_pair sp).
  wp_step. eapply wp_on_fds; [by rewrite E1, Es|]. unfold add_socket_pair. wp_step. wp_step. rewrite Hf.
  destruct (_ <=? _)%nat; [unfold runtime_error; wp_step; by eexists|]. unfold upd_fds. wp_step.
  assert (forall v, v ∈ pair_vfds (saved_pair sp) -> v < m_next_fd f) as Hrec.
  { intros v Hin. apply Ho. unfold recorded. apply elem_of_app. left. apply list_elem_of_bind. exists (saved_pair sp). split; [done|].
    apply list_elem_of_In, in_map, list_elem_of_In. rewrite Ed. apply elem_of_app. right. left. }
  eapply wp_on_fds; [done|]. eapply wp_mono; [apply create_pairs_frame; intros v Hin%Hrec; destruct Ho; lia| |done].
  intros [] f2 (K&M&N). split; [exact Hr1|].
  cbn [ld_machine]. exists f2. split; [by rewrite E1, Es|]. destruct K as ((K1&K2&K3)&K4&K5&K6). simpl in *.
  rewrite K4, K5, K1, Hs, map_app. split_and!; [done|done|done| |].
  - rewrite N; [done|]. intros v Hin. rewrite Hn. by apply Hrec.
  - intros v. rewrite bind_app, elem_of_app. intros [Hin|Hin]; [apply K6, Hv, Hin|]. cbn in Hin. rewrite app_nil_r in Hin. by apply M.
Qed.

Definition epolls_so_far (d : list (Z * Z)) s0 s : Prop :=
  exists f', s = set_fdm s0 (Some f') /\ m_sockets f' = map saved_pair (m_sockets f) /\ m_next_fd f' = m_next_fd f /\
    (forall v, v ∈ (map saved_pair (m_sockets f) ≫= pair_vfds) ++ d.*1 -> is_Some (m_fds f' !! v)) /\
    (forall v p, m_epoll_fds f' !! v = Some p -> p < next_epoll f') /\
    forall v, entry_of f' <$> m_epoll_fds f' !! v = if decide (v ∈ d.*1) then entry_of f <$> m_epoll_fds f !! v else None.

Lemma load_epoll_wp d v p0 r l s0 st : in_order -> ordered (m_epoll_fds f) = d ++ (v, p0) :: r -> epolls_so_far d s0 (ld_machine st) ->
  reading (epoll_items v (entry_of f p0) ++ l) st ->
  wp (load_epoll a) (fun _ st' => reading l st' /\ epolls_so_far (d ++ [(v, p0)]) s0 (ld_machine st')) runtime_exn st.
Proof.
  intros Ho Ed (f'&Es&Hs&Hn&Hv&Hp&He) Hr. set (e := entry_of f p0) in *.
  assert (m_epoll_fds f !! v = Some p0) as Hvp by (apply elem_ordered; rewrite Ed; apply elem_of_app; right; left).
  assert (v ∉ d.*1) as Hnew.
  { pose proof (ordered_nodup (m_epoll_fds f)) as Hnd. rewrite Ed, fmap_app in Hnd. apply NoDup_app in Hnd as (_&Hd&_).
    intros Hin. eapply Hd; [exact Hin|]. left. }
  assert (m_epoll_fds f' !! v = None) as Hvn.
  { pose proof (He v) as H. rewrite decide_False in H by done. by destruct (m_epoll_fds f' !! v). }
  unfold load_epoll. wp_step. unfold epoll_items in Hr. cbn [app] in Hr. rewrite <- app_assoc in Hr.
  eapply fetch_wp; [exact Hr|done|done|]. intros st1 E1 Hr1. cbn [fst snd]. rewrite !Nat2Z.id.
  wp_step. eapply wp_on_fds; [by rewrite E1, Es|]. unfold get_epoll_entry_for_vfd, upd_fds. wp_step. wp_step. rewrite Hvn. wp_step. wp_step. wp_step.
  set (p := next_epoll f'). set (f1 := set_epoll f' (<[v := p]> (m_epoll_fds f')) (epoll_store f') (p + 1)).
  apply wp_assoc.
  wp_step. eapply (load_members_wp e f1 p s0 l); [by rewrite E1, Es|exact Hr1|]. intros st2 E2 Hr2.
  wp_step. eapply wp_on_fds; [by rewrite E2|]. wp_step. unfold entry_of at 1. cbn [with_entry set_epoll epoll_store]. rewrite lookup_insert_eq. cbn [default from_option id].
  assert (v < m_next_fd f) as Hrec.
  { apply Ho. unfold recorded. apply elem_of_app. right. rewrite Ed, fmap_app. apply elem_of_app. right. left. }
  eapply wp_on_fds; [done|]. eapply wp_mono; [apply create_epoll_frame; destruct Ho; lia| |done]. intros [] f2 (K&M&N). split; [exact Hr2|].
  destruct K as ((K1&K2&K3)&K4&K5&K6). simpl in *. exists f2. split; [by rewrite E2|]. rewrite K4, K1, K3. split_and!; [done| | | |].
  - rewrite N; [done|]. intros x ->%list_elem_of_singleton. by rewrite Hn.
  - intros x. rewrite fmap_app, app_assoc, elem_of_app. intros [Hx|Hx]; [apply K6, Hv, Hx|]. by apply M.
  - intros x q. destruct (decide (x = v)) as [->|].
    + rewrite lookup_insert_eq. intros [= <-]. lia.
    + rewrite lookup_insert_ne by done. intros Hq%Hp. unfold p. lia.
  - intros x. rewrite fmap_app. destruct (decide (x = v)) as [->|Hne].
    + rewrite lookup_insert_eq, decide_True by (apply elem_of_app; right; left). simpl. rewrite Hvp. simpl. unfold entry_of at 1. by rewrite K2, lookup_insert_eq.
    + rewrite lookup_insert_ne by done. transitivity (entry_of f' <$> m_epoll_fds f' !! x).
      * destruct (m_epoll_fds f' !! x) as [q|] eqn:Eq; [|done]. simpl. f_equal. unfold entry_of. rewrite K2, lookup_insert_ne; [done|].
        apply Hp in Eq. unfold p. lia.
      * rewrite He. apply decide_ext. rewrite elem_of_app. cbn. rewrite list_elem_of_singleton. intuition congruence.
Qed.

Lemma wp_new_table (Q : FileDescriptors -> Loading -> Prop) st : m_fdm (ld_machine st) = None -> p_forked (m_plain (ld_machine st)) = false ->
  (forall f0, m_epoll_fds f0 = ∅ /\ epoll_store f0 = ∅ /\ m_sockets f0 = [] /\ m_forked_machine f0 = false ->
     Q f0 (mkLoading (set_fdm (ld_machine st) (Some f0)) (ld_cur st))) ->
  wp (fun s : Loading => let (r, m) := fds (ld_machine s) in (r, mkLoading m (ld_cur s))) Q runtime_exn st.
Proof.
  intros Hnone Hnf HQ. unfold wp, fds, bind, get. rewrite Hnone, Hnf.
  pose proof (new_table false (host_fds (ld_machine st)) (mkFds ∅ 0 "" 0 0 0 0 ∅ ∅ 0 [] false (host_fds (ld_machine st)))) as Hnew. unfold wp in Hnew.
  destruct (FileDescriptors_new _ _ _) as [[[]|e] f0]; [|exact Hnew]. by apply HQ.
Qed.

Lemma load_fds_wp l s0 st (Q : unit -> Loading -> Prop) : in_order -> ld_machine st = s0 -> m_fdm s0 = None -> p_forked (m_plain s0) = false ->
  reading (fd_items f ++ l) st ->
  (forall st' f', ld_machine st' = set_fdm s0 (Some f') -> fds_restored f' -> Q tt st') -> wp (load_fds a) Q runtime_exn st.
Proof.
  intros Ho Es Hnone Hnf Hr HQ. unfold load_fds. wp_step. unfold fd_items in Hr. cbn [app] in Hr. rewrite <- app_assoc in Hr.
  eapply fetch_wp; [exact Hr|done|done|]. intros [s1 c1] E1 Hr1. cbn [fst snd ld_machine] in *. rewrite !Nat2Z.id. subst s1 s0.
  wp_step. apply wp_new_table; [done|done|]. intros f0 (N1&N2&N3&N4). wp_step. eapply wp_on_fds; [done|]. unfold set_vfd_start, upd_fds. wp_step.
  wp_step. eapply (consume (m_sockets f) (fun sp => [pair_item sp]) _ (fun d s => pairs_so_far d (ld_machine st) s)).
  - rewrite list_fmap_bind_single. exact Hr1.
  - eexists. split; [done|]. simpl. split_and!; try done. intros v []%elem_of_nil.
  - intros d sp r l' st' Ed Hd Hx. by eapply load_pair_wp.
  - intros st2 Hr2 Hd2. rewrite <- length_ordered.
    eapply (consume (ordered (m_epoll_fds f)) (fun e => epoll_items (fst e) (entry_of f (snd e))) _ (fun d s => epolls_so_far d (ld_machine st) s)); [exact Hr2| | |].
    + destruct Hd2 as (f2&E2&P1&P2&P3&P4&P5). exists f2. rewrite P3. split_and!; try done; by rewrite app_nil_r.
    + intros d [v p0] r l' st' Ed Hd Hx. by eapply load_epoll_wp.
    + intros st3 Hr3 (f3&E3&P1&P2&P3&P4&P5). eapply HQ; [exact E3|]. split_and!; [done|done| |done].
      intros v. rewrite P5. case_decide as Hin; [done|]. destruct (m_epoll_fds f !! v) as [p|] eqn:Ev; [|done].
      destruct Hin. apply list_elem_of_fmap. exists (v, p). split; [done|]. by apply elem_ordered.
Qed.

(** A new machine that has loaded [s], whose descriptor table was [f]. *)
Definition restored s s' : Prop :=
  m_plain s' = m_plain s /\ threads_restored (m_mt s) (m_mt s') /\ exists f', m_fdm s' = Some f' /\ fds_restored f'.

(** When the floating-point registers cannot be set, only the others are loaded. *)
Definition half_loaded s m0 : Snap := set_plain m0 (set_p_regs (m_plain m0) (p_regs (m_plain s)) (p_sregs (m_plain s))).

Lemma load_wp ok s m0 : saved_area s f a -> in_order -> p_forked (m_plain s) = false -> (forall m, m_mt s = Some m -> saveable m) ->
  p_forked (m_plain m0) = false -> m_mt m0 = None -> m_fdm m0 = None ->
  wp (load_snapshot_state ok junk (Some a))
    (fun r s' => r = ok /\ if ok then restored s s' else s' = half_loaded s m0) (fun e s' => ok = true /\ runtime_exn e s') m0.
Proof.
  intros [Hm Hp (rl&t&Hrl&Hnum&Ht&Hh&Hsz&Hle)] Ho Hnf Hmt Hnf0 Hmt0 Hfd0.
  pose proof (total_nonneg (rl ++ thread_items (m_mt s) t ++ fd_items f)) as Hpos.
  unfold load_snapshot_state. rewrite Hm, Z.eqb_refl. cbn [negb]. wp_step. wp_step. rewrite Hnf0.
  rewrite (proj2 (Z.ltb_ge (size _) _)), (proj2 (Z.ltb_ge Size _)) by lia. cbn [orb].
  destruct ok.
  2:{ unfold load_body, wp, bind at 1, on_snap, modify. unfold bind at 1, throw. rewrite Hp. done. }
  assert (wp (load_body true junk a) (fun _ st => restored s (ld_machine st)) runtime_exn (mkLoading m0 sizeof_SnapshotState)) as Hb.
  { unfold load_body. wp_step. apply wp_modify. wp_step. wp_step. wp_step. apply wp_modify. cbn [ld_machine ld_cur]. rewrite Hp, Hnum, Nat2Z.id.
    wp_step. eapply (load_ranges_wp rl (thread_items (m_mt s) t ++ fd_items f)); [done|split; [exact Hh|simpl; lia]|]. intros st1 E1 Hr1.
    wp_step. eapply load_threads_wp; [intros m Em; split; [by apply Hmt|by apply Ht]|by rewrite E1|exact Hr1|]. intros st2 mt' Hmt' E2 Hr2.
    eapply (load_fds_wp [] (ld_machine st2)); [done|done|by rewrite E2; simpl; rewrite E1|by rewrite E2; simpl; rewrite E1|by rewrite app_nil_r|]. intros st3 f' E3 Hf'.
    rewrite E3, E2, E1. split_and!; [done|done|]. by exists f'. }
  unfold wp in Hb. destruct (load_body true junk a _) as [[[]|e] st] eqn:El.
  - wp_steps. by split.
  - destruct Hb as [msg ->]. wp_steps. split; [done|by eexists].
Qed.
End loading.


(** ** A machine with two threads, a pipe and an epoll instance *)

Definition demo_thread (t : Z) : Thread := mkThread t (args5 t 0 0 0 0) (0x1000 * t) 0.
Definition demo_two : MultiThreading := mkMT (<[1 := demo_thread 1]> {[2 := demo_thread 2]}) [2] (Some 1) 2.
Definition demo_process : fd_host := mkFdHost {[0; 1; 2; 10]} ∅ 0.
Definition demo_fds : FileDescriptors :=
  let f := snd (FileDescriptors_new false demo_process demo_blank) in
  set_epoll (set_sockets (set_next_fd f 0x1004) [mkPair 0x1000 0x1001 PIPE2; mkPair 5 0x1002 DUPFD]) {[0x1003 := 0]} {[0 := mkEpoll {[0x1000 := 77]} ∅]} 1.
Definition demo_plain : Plain unit unit := mkPlain (args5 1 2 3 4 5) tt tt false false false true 0 0x208000 0x300000 0x2f0000 0x300000 0x200000 0x11000 0x310000 false 0x9000.
Definition blank_plain : Plain unit unit := mkPlain Threads.zero_regs tt tt false false false true 0 0 0 0 0 0 0 0 false 0.
Definition demo_snap : Snap unit unit := mkSnap demo_plain (Some demo_two) (Some demo_fds) demo_process.
Definition demo_new : Snap unit unit := mkSnap blank_plain None None demo_process.
Definition demo_area : Area unit unit := mkArea (mkHeader 0 0 blank_plain 0) ∅.
Definition demo_pages_to_load : list (Z * Z) := [(0x200000, 0x1000); (0x201000, 0x1000); (0x300000, 0x2000)].

Lemma demo_two_inv : mt_inv demo_two.
Proof.
  constructor.
  - intros t th. unfold demo_two. cbn [m_threads thread_counter]. intros [[<- <-]|[? [<- <-]%lookup_singleton_Some]]%lookup_insert_Some; simpl; lia.
  - exists 1. split; [done|]. change (m_suspended demo_two) with [2]. split; [apply (bool_decide_unpack _); vm_compute; exact I|].
    split; [left|]. intros t. rewrite !elem_of_cons, elem_of_nil. intros [->|[->|[]]]; by eexists.
Qed.
Lemma demo_in_order : in_order demo_fds.
Proof.
  split; [by vm_compute|]. intros v Hv. assert (v ∈ [0x1000; 0x1001; 0x1003]) as H by (revert Hv; vm_compute; done).
  rewrite !elem_of_cons, elem_of_nil in H. change (m_next_fd demo_fds) with 0x1004. lia.
Qed.

Definition demo_saved : option (Area unit unit) := snd (snd (save_snapshot_state_now true demo_pages_to_load (demo_snap, Some demo_area))).
Definition demo_load : result bool * Snap unit unit := load_snapshot_state true demo_junk demo_saved demo_new.


(** The counter of thread numbers is not saved.  After loading, the next [clone] gets the number
    of a thread that exists: that thread is then the current one and in the queue, too. *)
Definition demo_restored_os : OS ByteGuest :=
  mkOS (args5 0x3d0f00 0x8000 0 0 0) 0x1000 false (m_mt (snd demo_load)) Signals_new (mkByteGuest ∅ 0x100000 0x200000).
Example restored_clone_reuses_thread :
  match Threads.m_mt (snd (sys_clone demo_junk demo_restored_os)) with
  | Some m => m_current m = Some 2 /\ m_suspended m = [2; 1]
  | None => False
  end.
Proof. vm_compute. split; reflexivity. Qed.

(** A listening socket is recorded with its real descriptor; in the process that loads the
    snapshot this number means something else. *)
Example restored_listener_is_foreign :
  let s := set_fdm demo_snap (Some (set_sockets demo_fds [mkPair 0x1002 10 LISTEN])) in
  match load_snapshot_state true demo_junk (snd (snd (save_snapshot_state_now true [] (s, Some demo_area)))) demo_new with
  | (Ok true, s') => (fun f => m_fds f !! 0x1002) <$> m_fdm s' = Some (Some (mkEntry 10 true true))
  | _ => False
  end.
Proof. vm_compute. reflexivity. Qed.
