(* ===== verification/Boot.v ===== *)
(** * From a program to a machine that is ready to run

    [Machine::init] and [kvm_open], the constructor that takes a binary, [reset_to(binary)] and
    the destructor (lib/tinykvm/machine.cpp), with [initialize_vcpu_stuff] and [vCPU::deinit]
    (vcpu.cpp).  Nothing new happens here: main memory comes from MainMemory and Fork, the vCPU and
    the tables from CpuTables, the program from Elf, the page tables from PageSetup, the state of a
    saved machine from Snapshot.  The theorem says that they fit: what one part assumes is what
    the earlier ones left, and none destroys the work of another. *)
From stdpp Require Import base tactics list numbers strings gmap.
From Stdlib Require Import ZArith Lia Bool.
From S2P Require Import Prelude MMap Host MemoryBanks VMemory Paging ForkIsolation MakeCow PageSetup Fork MainMemory Cpu Threads Fds GuestCopy GuestStores Merge PageMap MemCalls Elf Env CpuTables Snapshot.
Import MachineMaps.
Local Open Scope Z_scope.

(** ** The host's KVM *)

Class KvmSystem := {
  open_kvm : option Z;                (* open("/dev/kvm") *)
  kvm_api_version : option Z;         (* KVM_GET_API_VERSION *)
  kvm_vcpu_mmap_size : Z;             (* KVM_GET_VCPU_MMAP_SIZE *)
  kvm_supported_cpuid : bool;         (* KVM_GET_SUPPORTED_CPUID *)
  kvm_create_vm : option Z }.         (* KVM_CREATE_VM *)

Definition KVM_API_VERSION : Z := 12.

(** ** The machine

    [b_area] is what the state area behind file-backed memory holds. *)
Record Boot := mkBoot {
  b_os : osmem; b_kvm_fd : option Z; b_fd : option Z; b_image : Image; b_cpu : CpuState; b_regs : x86regs; b_fpu : list Z;
  b_just_reset : bool; b_mt : option MultiThreading; b_signals : Signals; b_fds : option FileDescriptors; b_fdh : fd_host;
  b_area : option (Area kvm_sregs (list Z)); b_from_snapshot : bool }.

Definition set_b_os (b : Boot) x := mkBoot x (b_kvm_fd b) (b_fd b) (b_image b) (b_cpu b) (b_regs b) (b_fpu b) (b_just_reset b) (b_mt b) (b_signals b) (b_fds b) (b_fdh b) (b_area b) (b_from_snapshot b).
Definition set_b_kvm_fd (b : Boot) x := mkBoot (b_os b) x (b_fd b) (b_image b) (b_cpu b) (b_regs b) (b_fpu b) (b_just_reset b) (b_mt b) (b_signals b) (b_fds b) (b_fdh b) (b_area b) (b_from_snapshot b).
Definition set_b_fd (b : Boot) x := mkBoot (b_os b) (b_kvm_fd b) x (b_image b) (b_cpu b) (b_regs b) (b_fpu b) (b_just_reset b) (b_mt b) (b_signals b) (b_fds b) (b_fdh b) (b_area b) (b_from_snapshot b).
Definition set_b_image (b : Boot) x := mkBoot (b_os b) (b_kvm_fd b) (b_fd b) x (b_cpu b) (b_regs b) (b_fpu b) (b_just_reset b) (b_mt b) (b_signals b) (b_fds b) (b_fdh b) (b_area b) (b_from_snapshot b).
Definition set_b_cpu (b : Boot) x := mkBoot (b_os b) (b_kvm_fd b) (b_fd b) (b_image b) x (b_regs b) (b_fpu b) (b_just_reset b) (b_mt b) (b_signals b) (b_fds b) (b_fdh b) (b_area b) (b_from_snapshot b).
Definition set_b_regs (b : Boot) x := mkBoot (b_os b) (b_kvm_fd b) (b_fd b) (b_image b) (b_cpu b) x (b_fpu b) (b_just_reset b) (b_mt b) (b_signals b) (b_fds b) (b_fdh b) (b_area b) (b_from_snapshot b).
Definition set_b_from_snapshot (b : Boot) x := mkBoot (b_os b) (b_kvm_fd b) (b_fd b) (b_image b) (b_cpu b) (b_regs b) (b_fpu b) (b_just_reset b) (b_mt b) (b_signals b) (b_fds b) (b_fdh b) (b_area b) x.
(** Threads, signals and descriptors are made when they are first asked for. *)
Definition forget_calls (b : Boot) := mkBoot (b_os b) (b_kvm_fd b) (b_fd b) (b_image b) (b_cpu b) (b_regs b) (b_fpu b) (b_just_reset b) None Signals_new None (b_fdh b) (b_area b) (b_from_snapshot b).

Definition b_machine (b : Boot) : Machine := im (b_image b).
Definition b_vm (b : Boot) : VM := mvm (b_machine b).
Definition b_mem (b : Boot) : vMemory := vm (b_vm b).
Definition b_heap (b : Boot) : heap := h_heap (vhost (b_vm b)).

Definition on_os {A} (m : M osmem A) : M Boot A := fun b => let (r, x) := m (b_os b) in (r, set_b_os b x).
Definition on_img {A} (m : M Image A) : M Boot A := fun b => let (r, x) := m (b_image b) in (r, set_b_image b x).
Definition on_cpu {A} (m : M CpuState A) : M Boot A := fun b => let (r, x) := m (b_cpu b) in (r, set_b_cpu b x).
Definition on_memory_of {A} (m : M VM A) : M Boot A := on_img (on_memory m).
(** The page tables are built with a local [free_page]. *)
Definition on_setup {A} (m : M SU A) : M Boot A := on_img (on_machine (fun mc =>
  let (r, x) := m (mkSU (mvm mc) (maps mc) 0) in
  (r, mkMachine (su_vm x) (su_mm x) (m_brk_address mc) (m_brk_end_address mc) (m_relocate_fixed_mmap mc)))).

(** What [load_snapshot_state] works on. *)
Definition plain_of (b : Boot) : Plain kvm_sregs (list Z) :=
  mkPlain (b_regs b) (sregs (b_cpu b)) (b_fpu b) (m_prepped (b_mem b)) (m_forked (b_mem b)) (b_just_reset b)
    (m_relocate_fixed_mmap (b_machine b)) (m_image_base (b_image b)) (m_stack_address (b_image b)) (heap_address (b_image b))
    (m_brk_address (b_machine b)) (m_brk_end_address (b_machine b)) (m_start_address (b_image b)) (m_kernel_end (b_mem b))
    (mmap_current (maps (b_machine b))) (main_memory_writes (b_mem b)) (page_tables (b_mem b)).
Definition to_snap (b : Boot) : Snap kvm_sregs (list Z) := mkSnap (plain_of b) (b_mt b) (b_fds b) (b_fdh b).
Definition vm_of_plain (p : Plain kvm_sregs (list Z)) (m : vMemory) : vMemory :=
  mkVMem (cow_written_pages m) (physbase m) (safebase m) (p_page_tables p) (unlocked_pages m) (ptr m) (VMemory.size m)
    (VMemory.owned m) (snapshot_fd m) (remote_end m) (remote_must_update_gigapages m) (p_main_memory_writes p)
    (split_hugepages m) (executable_heap m) (mmap_backed_files m) (banks m) (mmap_ranges m) (foreign_banks m)
    (mmap_physical_begin m) (mmap_physical m) (m_bank_idx_free_list m) (p_forked p) (p_prepped p) (p_kernel_end p) (remote m).
Definition of_snap (b : Boot) (s : Snap kvm_sregs (list Z)) : Boot :=
  let p := m_plain s in
  mkBoot (b_os b) (b_kvm_fd b) (b_fd b)
    (mkImage
       (mkMachine (mkVM (vhost (b_vm b)) (vm_of_plain p (b_mem b))) (mkMM (MMapCache.set_current (cache (maps (b_machine b))) (p_mmap_current p)) (p_heap p))
          (p_brk p) (p_brk_end p) (p_relocate p))
       (m_binary (b_image b)) (p_image_base p) (p_start p) (p_stack p))
    (set_special_registers (b_cpu b) (p_sregs p)) (p_regs p) (p_fpu p) (p_just_reset p) (Snapshot.m_mt s) (b_signals b)
    (m_fdm s) (host_fds s) (b_area b) (b_from_snapshot b).

(** The options that are used here; those of the parts keep their names. *)
Record BootOptions := mkBootOptions {
  bo_memory : MemOptions; bo_machine : MachineOptions; bo_load : LoadOptions;
  bo_vmem_base : Z; bo_max_mem : Z; bo_split_all : bool; bo_relocate_fixed_mmap : bool }.

Section boot.
Context `{mh : MainHost} `{os : HostOS} `{hfds : HostFds} `{kvmcpu : KvmCpu} `{kvm : KvmSystem}.
Context (fpu_set_ok : bool) (junk : Junk).

(** ** [Machine::init] *)

Definition initialize_vcpu_stuff : M Boot unit :=
  if kvm_vcpu_mmap_size <=? 0 then throw (MachineException "Failed to KVM_GET_VCPU_MMAP_SIZE" 0)
  else if negb kvm_supported_cpuid then throw (MachineException "KVM_GET_SUPPORTED_CPUID failed" 0)
  else ret tt.
Definition do_kvm_open : M Boot Z :=
  match open_kvm with
  | None => throw (MachineException "Failed to open /dev/kvm" 0)
  | Some fd =>
      match kvm_api_version with
      | None => throw (MachineException "Failed to verify KVM_GET_API_VERSION" 0)
      | Some v =>
          if negb (v =? KVM_API_VERSION) then throw (MachineException "Wrong KVM API version" 0)
          else initialize_vcpu_stuff ;;; ret fd
      end
  end.
Definition Machine_init : M Boot unit :=
  let! fd := do_kvm_open in modify (fun b => set_b_kvm_fd b (Some fd)).

Definition create_kvm_vm : M Boot unit :=
  match kvm_create_vm with
  | None => throw (MachineException "Failed to KVM_CREATE_VM. Is your user in the 'kvm' group?" 0)
  | Some fd => modify (fun b => set_b_fd b (Some fd))
  end.

(** ** The constructor *)

(** The members that are initialised before the body; the others hold what was there. *)
Definition new_object (o : BootOptions) (b : Boot) : Boot :=
  let mc := b_machine b in
  mkBoot (b_os b) (b_kvm_fd b) None
    (mkImage (mkMachine (mvm mc) (mkMM MMapCache.empty_cache (m_heap_address (maps mc))) (m_brk_address mc) (m_brk_end_address mc) (bo_relocate_fixed_mmap o))
       [] 0 (m_start_address (b_image b)) (m_stack_address (b_image b)))
    (set_run_map (set_timer (set_fd (b_cpu b) None) None) None) (b_regs b) (b_fpu b)
    false None Signals_new None (b_fdh b) (b_area b) false.

(** [memory { vMemory::New(...) }]; the new mapping reads as the file, or as zero.  The bytes of a
    file are put there by the host. *)
Definition new_memory (o : BootOptions) (contents : list Z) : M Boot unit :=
  let base := bo_vmem_base o in
  let! (p, sz, fd) := on_os (main_memory_New (bo_memory o) base (bo_max_mem o)) in
  on_memory_of (on_vhost (modify (fun h =>
    mkHost (store_bytes (zero_region p (sz + state_area (bo_memory o)) (h_heap h)) p contents) ((p, sz) :: h_live h) (h_slots h)))) ;;;
  on_memory_of (vMemory_new (bo_machine o) base (base ⊕ 0x100000) p sz fd true false).

(** [setup_long_mode(options)]: the program headers are those of [m_binary]. *)
Definition binary_headers (bin : list Z) : result (list Elf64_Phdr) :=
  match bin with
  | [] => Ok []
  | _ => match get_bytes bin 0 sizeof_Ehdr with
         | Ok l => let e := parse_ehdr l in read_phdrs bin (e_phoff e) (Z.to_nat (e_phnum e))
         | Err e => Err e
         end
  end.
Definition Machine_setup_long_mode (o : BootOptions) : M Boot unit :=
  let! b := get in
  let! phdrs := lift (binary_headers (m_binary (b_image b))) in
  on_setup (setup_long_mode phdrs (m_image_base (b_image b)) (o_remappings (bo_machine o)) (o_split_hugepages (bo_machine o)) (bo_split_all o)).

(** [regs {}; setup_registers(regs); set_registers(regs)] *)
Definition ready_registers : M Boot unit := modify (fun b => set_b_regs b (setup_registers (b_image b) zero_regs)).

(** The break starts after the kernel area, with room. *)
Definition adjust_brk : M Boot unit :=
  let! b := get in
  let kernel_end := m_kernel_end (b_mem b) in
  when (m_brk_address (b_machine b) <? kernel_end)
    (on_img (on_machine (set_brk_address kernel_end)) ;;;
     (let! b := get in
      when (m_brk_end_address (b_machine b) <? m_brk_address (b_machine b) ⊕ BRK_MAX)
        (let! a := on_img (on_machine (on_maps (mmap_allocate BRK_MAX false))) in
         on_img (set_brk a (a ⊕ BRK_MAX))))).

Definition has_snapshot_area (m : vMemory) : bool := negb (snapshot_fd m =? -1).
Definition has_loadable_snapshot_state (b : Boot) : bool :=
  has_snapshot_area (b_mem b) && match b_area b with Some a => Snapshot.magic (header a) =? MAGIC | None => false end.
Definition Machine_load_snapshot : M Boot bool := fun b =>
  let (r, s) := load_snapshot_state fpu_set_ok junk (b_area b) (to_snap b) in (r, of_snap b s).

(** What follows a snapshot that could not be loaded, too. *)
Definition cold_start (bin : list Z) (o : BootOptions) : M Boot unit :=
  when (negb (bool_decide (bin = []))) (on_img (elf_loader bin (bo_load o))) ;;;
  Machine_setup_long_mode o ;;;
  adjust_brk ;;;
  ready_registers.

Definition init_vcpu0 : M Boot unit := let! b := get in on_cpu (vCPU_init 0 (b_mem b)).

Definition constructor_body (bin : list Z) (o : BootOptions) : M Boot unit :=
  let! b := get in
  if bool_decide (b_kvm_fd b = None) then throw (Undefined "assertion: Call Machine::init() first")
  else if backed_files (bo_memory o) && negb (bool_decide (snapshot_file (bo_memory o) = EmptyString)) then
    throw (MachineException "Cannot have VM snapshot with mmap-backed files at the same time" 0)
  else
    create_kvm_vm ;;;
    (let! b := get in
     on_memory_of (on_vhost (install_memory 0 (physbase (b_mem b)) (ptr (b_mem b)) (VMemory.size (b_mem b))))) ;;;
    init_vcpu0 ;;;
    let! b := get in
    if has_loadable_snapshot_state b then
      let! loaded := Machine_load_snapshot in
      modify (fun b => set_b_from_snapshot b loaded) ;;;
      if loaded then ret tt else cold_start bin o
    else cold_start bin o.

(** [Machine(binary, options)]: when the body throws, the destructors of the members run, and
    among them only that of the memory frees something of the host. *)
Definition release_memory : M Boot unit := let! b := get in on_os (vMemory_delete (b_mem b)).
Definition Machine_Machine (bin : list Z) (o : BootOptions) (contents : list Z) : M Boot unit :=
  modify (new_object o) ;;;
  new_memory o contents ;;;
  catch (constructor_body bin o) (fun e => release_memory ;;; throw e).

(** ** The destructor *)

(** What the vCPU holds is given back. *)
Definition deinit : M CpuState unit :=
  modify (fun s => set_run_map (set_timer (set_fd s (match fd s with Some f => if 0 <? f then None else Some f | None => None end)) None) None).
(** The timer's signals go to the thread that calls. *)
Definition migrate_to_this_thread : M Boot unit :=
  on_cpu (modify (fun s => set_timer s None)) ;;;
  on_cpu create_vcpu_timer.

Definition Machine_delete : M Boot unit :=
  on_cpu deinit ;;;
  modify (fun b => set_b_fd b None) ;;;
  release_memory.

(** ** [reset_to(binary, options)], of a machine without a remote *)
Definition reset_to_binary (bin : list Z) (o : BootOptions) : M Boot unit :=
  let! b := get in
  if m_forked (b_mem b) || m_prepped (b_mem b) then throw (MachineException "Machine is forked or forkable, cannot be reset" 0)
  else
    on_img (on_machine (on_maps (modify (fun st => mkMM MMapCache.empty_cache (m_heap_address st))))) ;;;
    modify forget_calls ;;;
    on_img (elf_loader bin (bo_load o)) ;;;
    init_vcpu0 ;;;
    Machine_setup_long_mode o ;;;
    ready_registers.
End boot.

(** ** Rules for the parts of a machine *)

Definition with_vm (b : Boot) (v : VM) : Boot :=
  set_b_image b (mkImage (mkMachine v (maps (b_machine b)) (m_brk_address (b_machine b)) (m_brk_end_address (b_machine b)) (m_relocate_fixed_mmap (b_machine b)))
    (m_binary (b_image b)) (m_image_base (b_image b)) (m_start_address (b_image b)) (m_stack_address (b_image b))).

Definition with_setup (b : Boot) (x : SU) : Boot :=
  set_b_image b (mkImage (mkMachine (su_vm x) (su_mm x) (m_brk_address (b_machine b)) (m_brk_end_address (b_machine b)) (m_relocate_fixed_mmap (b_machine b)))
    (m_binary (b_image b)) (m_image_base (b_image b)) (m_start_address (b_image b)) (m_stack_address (b_image b))).

Section rules.
Context {A : Type}.
Implicit Types (b : Boot) (Q : A -> Boot -> Prop) (X : exn -> Boot -> Prop).

Lemma wp_on_os (m : M osmem A) Q X b :
  wp m (fun a x => Q a (set_b_os b x)) (fun e x => X e (set_b_os b x)) (b_os b) -> wp (on_os m) Q X b.
Proof. unfold wp, on_os. by destruct (m (b_os b)) as [[] ?]. Qed.
Lemma wp_on_img (m : M Image A) Q X b :
  wp m (fun a x => Q a (set_b_image b x)) (fun e x => X e (set_b_image b x)) (b_image b) -> wp (on_img m) Q X b.
Proof. unfold wp, on_img. by destruct (m (b_image b)) as [[] ?]. Qed.
Lemma wp_on_cpu (m : M CpuState A) Q X b :
  wp m (fun a x => Q a (set_b_cpu b x)) (fun e x => X e (set_b_cpu b x)) (b_cpu b) -> wp (on_cpu m) Q X b.
Proof. unfold wp, on_cpu. by destruct (m (b_cpu b)) as [[] ?]. Qed.
Lemma wp_on_memory_of (m : M VM A) Q X b :
  wp m (fun a x => Q a (with_vm b x)) (fun e x => X e (with_vm b x)) (b_vm b) -> wp (on_memory_of m) Q X b.
Proof.
  unfold wp, on_memory_of, on_img, on_memory, on_machine, on_vm, with_vm, b_vm, b_machine.
  by destruct (m (mvm (im (b_image b)))) as [[] ?].
Qed.
Lemma wp_on_setup (m : M SU A) Q X b :
  wp m (fun a x => Q a (with_setup b x)) (fun e x => X e (with_setup b x)) (mkSU (b_vm b) (maps (b_machine b)) 0) -> wp (on_setup m) Q X b.
Proof. unfold wp, on_setup, on_img, on_machine. fold (b_machine b). fold (b_vm b). by destruct (m _) as [[] ?]. Qed.
End rules.

(** ** The memory of a new machine *)

(** Main memory as the boot code needs it: the kernel area below the memory of programs, and
    little enough of it (128GB) for the first tables to stay below 1MB. *)
Record boot_room (m : vMemory) : Prop := {
  br_room : setup_room m;
  br_safe : safebase m = physbase m + 0x100000;
  br_size : VMemory.size m <= 2 ^ 37;
  br_forked : m_forked m = false }.

Lemma boot_loadable m : boot_room m -> loadable m.
Proof. intros [[] ? ? ?]. split; [lia|lia|lia|lia|done]. Qed.
Lemma boot_kernel_room m : boot_room m -> kernel_room m.
Proof. intros [[] ? ? ?]. split; unfold PT_ADDR; lia. Qed.
(** The first tables end below the memory of programs. *)
Lemma boot_tables_end m : boot_room m -> 4096 * (15 + PD_PAGES m) <= 0x100000.
Proof. intros [? ? ? ?]. unfold PD_PAGES. change (2 ^ 30) with 1073741824. change (2 ^ 37) with 137438953472 in *. dlia. Qed.

Definition reads_zero (m : vMemory) (h : heap) : Prop := forall q, aligned8 q -> ptr m <= q < ptr m + VMemory.size m -> ld64 h q = 0.

(** The options of a machine in anonymous memory. *)
Record boot_options (o : BootOptions) : Prop := {
  bo_anonymous : snapshot_file (bo_memory o) = EmptyString;
  bo_base_ok : 0 <= bo_vmem_base o /\ bo_vmem_base o mod 2 ^ 21 = 0 /\ bo_vmem_base o mod 2 ^ 30 <= 2 ^ 30 - 2 ^ 22;
  bo_size_ok : 0 <= bo_max_mem o <= 2 ^ 37 /\ bo_vmem_base o + overaligned_memsize (bo_max_mem o) <= 2 ^ 39;
  bo_arena_ok : hugepages (bo_memory o) = true -> 0 <= arena_size (bo_memory o) <= mapped_size (bo_memory o) (overaligned_memsize (bo_max_mem o));
  bo_no_remappings : o_remappings (bo_machine o) = [] }.

Section memory.
Context `{os : HostOS}.

Lemma new_banks_wp o (Q : unit -> BS -> Prop) (X : exn -> BS -> Prop) s :
  (forall e t, defined_exn e -> X e t) ->
  (forall t, bs_host t = bs_host s -> m_mem (bs_banks t) = [] -> Q tt t) -> wp (MemoryBanks_new o) Q X s.
Proof.
  intros HX HQ. unfold MemoryBanks_new, set_max_pages, reserve, grow, modify_banks.
  apply wp_bind, wp_modify. apply wp_bind, wp_if; intros _; [apply wp_modify|apply wp_ret];
    apply wp_bind, wp_modify; apply wp_bind, wp_get; (apply wp_if; intros _; [by apply wp_throw, HX|]);
    apply wp_bind, wp_get; (apply wp_when; intros _; [|by apply HQ]); apply wp_bind, wp_get; apply wp_bind, wp_ret, wp_modify; by apply HQ.
Qed.

(** [vMemory::vMemory] *)
Lemma vMemory_new_wp o ph sf p sz fd own fk (Q : unit -> VM -> Prop) (X : exn -> VM -> Prop) s :
  (forall e t, defined_exn e -> X e t) ->
  (forall bk re mp, m_mem bk = [] -> Q tt (mkVM (vhost s)
     (mkVMem [] ph sf (ph ⊕ PT_ADDR) 0 p (overaligned_memsize sz) own fd re true (o_master_direct_memory_writes o) (o_split_hugepages o)
        (o_executable_heap o) (o_mmap_backed_files o) bk [] [] mp mp [] fk false 0 None))) ->
  wp (vMemory_new o ph sf p sz fd own fk) Q X s.
Proof.
  intros HX HQ. unfold vMemory_new, upd. cbv zeta. apply wp_bind, wp_modify.
  cut (wp (MemoryBanks_new (o_banks o)) (fun _ t => bs_host t = vhost s /\ m_mem (bs_banks t) = []) (fun e _ => defined_exn e) (mkBS (vhost s) no_banks)).
  - unfold wp at 2, on_banks. cbn [vhost vm banks]. unfold wp. destruct (MemoryBanks_new _ _) as [[[]|e] t]; [|by intros; apply HX].
    intros [-> Hb]. by apply HQ.
  - apply new_banks_wp; [done|]. intros t ? ?. by split.
Qed.
End memory.

(** ** The kernel area *)

Lemma ld64_word h p : ld64 h p = ld64 h (8 * (p / 8)).
Proof. unfold ld64. by rewrite (Z.mul_comm 8), Z.div_mul. Qed.
Lemma ld8_word h h' p : ld64 h (8 * (p / 8)) = ld64 h' (8 * (p / 8)) -> ld8 h p = ld8 h' p.
Proof. intros E. unfold ld8. by rewrite (ld64_word h), (ld64_word h'), E. Qed.
Lemma load_bytes_same h h' p n : (forall q, p <= q < p + Z.of_nat n -> ld8 h q = ld8 h' q) -> load_bytes h p n = load_bytes h' p n.
Proof.
  revert p. induction n as [|n IH]; intros p E; cbn [load_bytes]; [done|].
  rewrite E by lia. f_equal. apply IH. intros q Hq. apply E. lia.
Qed.

(** The gates, descriptors and page tables of a machine that boots, below its page [K]; [h0] is
    the memory before they were made. *)
Record kernel_ready (m : vMemory) (K : Z) (h0 h : heap) : Prop := {
  ky_end : m_kernel_end m = physbase m + 4096 * K /\ K < 512;
  ky_gates : forall v, v ∈ gate_vectors -> exists pc,
    decode_gate (load_bytes h (ptr m + (IDT_ADDR + 16 * v)) 16) = mkGate true 0 0xE 8 1 (physbase m + INTR_ASM_ADDR + pc) /\
    out_port 8 (fun pc => ld8 h (ptr m + (INTR_ASM_ADDR + pc))) pc = Some (128 + reported v);
  ky_segments : segments_in (fun a n => load_bytes h (ptr m + a) n);
  ky_tables : mapped 4 true m h (ptr m + PT_ADDR);
  ky_above : forall q, ptr m + 4096 * K <= q -> ld8 h q = ld8 h0 q }.

Section kernel.
Context `{os : HostOS}.

Lemma setup_on_vm_wp {A} (m : M VM A) (Q : A -> SU -> Prop) (X : exn -> SU -> Prop) s :
  wp m (fun a v => Q a (mkSU v (su_mm s) (free_page s))) (fun e v => X e (mkSU v (su_mm s) (free_page s))) (su_vm s) ->
  wp (PageSetup.on_vm m) Q X s.
Proof. unfold wp, PageSetup.on_vm. by destruct (m (su_vm s)) as [[] ?]. Qed.

Lemma translation_kernel_end hs m K v : translation (mkVM hs (set_m_kernel_end m K)) v = translation (mkVM hs m) v.
Proof. by destruct m. Qed.
Lemma mapped_kernel_end own m K h p : mapped 4 own m h p -> mapped 4 own (set_m_kernel_end m K) h p.
Proof. destruct m. exact (fun H => H). Qed.
Lemma user_safe_kernel_end m E K v a : user_safe (set_m_kernel_end m E) K v a <-> user_safe m K v a.
Proof. by destruct m. Qed.

(** Page tables made in memory [h1]. *)
Definition tables_made (m : vMemory) (K : Z) (h1 h : heap) : Prop :=
  12 <= K < 512 /\ (forall q, ~ (ptr m + PT_ADDR <= q < ptr m + 4096 * K) -> ld8 h q = ld8 h1 q) /\ mapped 4 true m h (ptr m + PT_ADDR).

Lemma setup_paging_wp m h1 lv sl mm fp phdrs ib sh sa (Q : Z -> SU -> Prop) (X : exn -> SU -> Prop) : boot_room m ->
  (forall q, aligned8 q -> ptr m + PT_ADDR <= q < ptr m + 0x100000 -> ld64 h1 q = 0) ->
  (forall e t, defined_exn e -> X e t) ->
  (forall h K, tables_made m K h1 h ->
     (forall a x, translation (mkVM (mkHost h lv sl) m) a = Some x -> user_safe m K a x) ->
     Q (paddr m K) (mkSU (mkVM (mkHost h lv sl) m) mm (paddr m K))) ->
  wp (setup_amd64_paging phdrs ib [] sh sa) Q X (mkSU (mkVM (mkHost h1 lv sl) m) mm fp).
Proof.
  intros Hm Hz HX HQ. set (s := mkSU _ _ _). pose proof (boot_tables_end m Hm) as Hend. pose proof (br_room _ Hm) as Hr.
  eapply wp_mono; [eapply (setup_wp s Hr X HX)| |done].
  - intros w Hw. apply Hz; [apply (word_aligned s Hr)|]. change (vm (su_vm s)) with m in *. unfold word, PT_ADDR. lia.
  - intros r t (h&K&->&->&Hfin). change (vm (su_vm s)) with m.
    assert (12 <= K < 512) as HK by (destruct Hfin as [HK _]; destruct (pd_pages_bounds _ Hr) as [HN _]; change (vm (su_vm s)) with m in HK; lia).
    apply HQ; [split_and!; [lia|lia| |]|apply (finished_safe s Hr _ _ _ Hfin)].
    + intros q Hq. apply ld8_word, (finished_frame s Hr _ _ _ Hfin); [unfold aligned8; rewrite Z.mul_comm; by apply Z.mod_mul|].
      change (vm (su_vm s)) with m. destruct Hr as [_ _ (_&Hal&_) _ _ _ _ _]. unfold PT_ADDR in *. dlia.
    + replace (ptr m + PT_ADDR) with (word m (512 * 9)) by (unfold word, PT_ADDR; lia). apply (finished_mapped s Hr _ _ _ Hfin).
Qed.

Lemma tables_kernel_ready m K h0 h : boot_room m -> tables_made m K (apply_writes (ptr m) (table_writes (physbase m)) h0) h ->
  kernel_ready (set_m_kernel_end m (physbase m + 4096 * K)) K h0 h.
Proof.
  intros Hm (HK&Hfr&Hmapped). destruct (boot_kernel_room m Hm) as [Hk1 Hk2 Hk3 _ _].
  assert (physbase m + PT_ADDR < W64) as Hw by lia. set (h1 := apply_writes _ _ _) in *.
  assert (forall a n, 0 <= a -> a + Z.of_nat n <= PT_ADDR -> load_bytes h (ptr m + a) n = load_bytes h1 (ptr m + a) n) as Hlow.
  { intros a n Ha Hn. apply load_bytes_same. intros q Hq. apply Hfr. lia. }
  split; cbn [m_kernel_end physbase ptr set_m_kernel_end].
  - lia.
  - intros v Hv. exists (0x220 + 8 * stub_of v).
    assert (0 <= v <= 32) as Hv32.
    { assert (Forall (fun v => (0 <=? v) && (v <=? 32) = true) gate_vectors) as Hall by repeat constructor.
      rewrite Forall_forall in Hall. specialize (Hall v Hv). lia. }
    split.
    + rewrite Hlow by (unfold IDT_ADDR, PT_ADDR; lia). by apply gate_at.
    + apply code_reports; [|done]. intros pc Hpc. rewrite Hfr by (unfold INTR_ASM_ADDR, PT_ADDR; lia). by apply handler_code.
  - destruct (tables_segments (physbase m) (ptr m) h0 Hk1 Hw) as (S1&S2&S3&S4).
    unfold segments_in. rewrite !Hlow by (unfold GDT_ADDR, PT_ADDR; lia). by split_and!.
  - by apply mapped_kernel_end.
  - intros q Hq. rewrite Hfr by lia. replace q with (ptr m + (q - ptr m)) by lia. apply tables_inside.
    right. unfold TSS_SMP_ADDR, sizeof_TSS. lia.
Qed.

Lemma setup_long_mode_wp s phdrs ib sh sa (Q : unit -> SU -> Prop) (X : exn -> SU -> Prop) :
  let m := vm (su_vm s) in let h0 := h_heap (vhost (su_vm s)) in
  boot_room m -> (forall q, aligned8 q -> ptr m + PT_ADDR <= q < ptr m + 0x100000 -> ld64 h0 q = 0) ->
  (forall e t, defined_exn e -> X e t) ->
  (forall h K, let v := mkVM (mkHost h (h_live (vhost (su_vm s))) (h_slots (vhost (su_vm s)))) (set_m_kernel_end m (physbase m + 4096 * K)) in
     kernel_ready (vm v) K h0 h -> (forall a x, translation v a = Some x -> user_safe (vm v) K a x) ->
     Q tt (mkSU v (su_mm s) (physbase m + 4096 * K))) ->
  wp (setup_long_mode phdrs ib [] sh sa) Q X s.
Proof.
  intros m h0 Hm Hz HX HQ. pose proof (boot_kernel_room m Hm) as Hk.
  destruct s as [[[h lv sl] m1] mm fp]. cbn [su_vm vm vhost h_heap h_live h_slots su_mm] in *. unfold m, h0 in *. clear m h0.
  unfold setup_long_mode. apply wp_bind, setup_on_vm_wp, tables_wp; [done|]. unfold with_heap_of. cbn [vm vhost h_live h_slots h_heap su_vm su_mm free_page].
  apply wp_bind, setup_paging_wp; [done| |done|].
  - intros q Hq Hr. replace q with (ptr m1 + (q - ptr m1)) in Hq |- * by lia.
    rewrite words_inside; [|done|right; unfold TSS_SMP_ADDR, sizeof_TSS, PT_ADDR in *; lia]. apply Hz; [done|lia].
  - intros h' K Hmade Hsafe. apply setup_on_vm_wp, wp_modify. apply HQ.
    + exact (tables_kernel_ready m1 K h h' Hm Hmade).
    + intros a x Ha. apply user_safe_kernel_end. rewrite translation_kernel_end in Ha. by apply Hsafe.
Qed.
End kernel.

(** ** The machine that results *)

(** The timer, the run area and the descriptor of the vCPU are given back; [deinit] takes the
    descriptor 0 for none. *)
Definition vcpu_released (c c' : CpuState) : Prop :=
  timer c' = None /\ run_map c' = None /\ forall f, fd c' = Some f -> f <= 0 /\ fd c = Some f.

(** What a new machine is: [b0] is what there was before. *)
Record ready (bin : list Z) (b0 b : Boot) : Prop := {
  (* the program's segments above the kernel area are in memory, and the registers start it *)
  rd_program : exists e phdrs, get_bytes bin 0 sizeof_Ehdr = Ok e /\
    read_phdrs bin (e_phoff (parse_ehdr e)) (Z.to_nat (e_phnum (parse_ehdr e))) = Ok phdrs /\
    (forall h, h ∈ phdrs -> m_kernel_end (b_mem b) <= p_vaddr h -> placed bin (b_mem b) (b_heap b) h) /\
    rip (b_regs b) = e_entry (parse_ehdr e) /\ rsp (b_regs b) = m_stack_address (b_image b) /\ rflags (b_regs b) = user_rflags;
  (* the kernel area is as the processor needs it, and out of the reach of user mode *)
  rd_kernel : exists K h0, kernel_ready (b_mem b) K h0 (b_heap b) /\
    forall v a, translation (b_vm b) v = Some a -> user_safe (b_mem b) K v a;
  rd_cpu : fits (b_mem b) (fun a n => load_bytes (b_heap b) (ptr (b_mem b) + a) n) (b_cpu b);
  (* stack, break and heap are in order, unless the program is so small that the break was moved *)
  rd_layout : m_kernel_end (b_mem b) <= m_stack_address (b_image b) -> laid_out (b_image b);
  (* destroying the machine gives everything back *)
  rd_delete : o_fds (b_os b) = o_fds (b_os b0) /\
    wp Machine_delete (fun _ u => unchanged (b_os b0) (b_os u) /\ b_fd u = None /\ vcpu_released (b_cpu b) (b_cpu u)) (fun _ _ => False) b }.

Section composition.
Context `{os : HostOS} `{kvmcpu : KvmCpu}.

Lemma mmap_allocate_defined bytes st :
  wp (mmap_allocate bytes false) (fun _ _ => True) (fun e _ => defined_exn e) st.
Proof.
  assert (forall a n s, wp (on_cache (MMapCache.insert_used a n)) (fun _ _ => True) (fun e _ => defined_exn e) s) as Hins.
  { intros a n s. unfold on_cache, MMapCache.insert_used, wp, bind, get, put, throw. cbn beta.
    destruct (last _); repeat case_match; simplify_eq; done. }
  unfold mmap_allocate. apply wp_bind. unfold on_cache at 1, MMapCache.find, wp at 1, bind at 1, get at 1.
  set (fd := MMapCache.find_first _ _). destruct fd as [[r l]|]; cbn; unfold current, assign_current.
  all: apply wp_bind, wp_get; repeat first [apply wp_if; intros _ | by apply wp_throw | eapply wp_mono; [apply Hins| |done]; intros ? ? _ | done | wp_step | unfold on_cache, wp at 1; cbn].
Qed.

Definition same_but_layout (b b' : Boot) : Prop :=
  b_vm b' = b_vm b /\ m_start_address (b_image b') = m_start_address (b_image b) /\ m_stack_address (b_image b') = m_stack_address (b_image b) /\
  b_os b' = b_os b /\ b_cpu b' = b_cpu b /\ b_fd b' = b_fd b.

Lemma adjust_brk_wp b :
  wp adjust_brk (fun _ b' => same_but_layout b b' /\ (m_kernel_end (b_mem b) <= m_brk_address (b_machine b) -> b' = b))
    (fun e _ => defined_exn e) b.
Proof.
  unfold adjust_brk. apply wp_bind, wp_get. apply wp_when; intros Hlt; [|by split_and!].
  assert (~ m_kernel_end (b_mem b) <= m_brk_address (b_machine b)) as Hno by lia.
  apply wp_bind, wp_on_img. unfold on_machine, set_brk_address, modify, wp at 1. cbn beta iota zeta.
  apply wp_bind, wp_get. apply wp_when; intros _; [|split; [by split_and!|intros Hle; destruct (Hno Hle)]].
  apply wp_bind, wp_on_img. unfold on_machine, on_maps, wp at 1. cbn.
  pose proof (mmap_allocate_defined BRK_MAX (maps (im (b_image b)))) as Hd. unfold wp in Hd.
  destruct (mmap_allocate _ _ _) as [[x|e] st]; [|exact Hd].
  unfold wp, on_img, set_brk, on_machine, modify. cbn. split; [by split_and!|]. intros Hle. destruct (Hno Hle).
Qed.

Lemma cold_start_wp bin o b c0 : let m := b_mem b in
  boot_room m -> reads_zero m (b_heap b) -> started 0 m c0 (b_cpu b) -> o_remappings (bo_machine o) = [] ->
  bin <> [] -> Forall byte bin -> static_program bin ->
  wp (cold_start bin o)
    (fun _ b' => exists e phdrs K h0, let m' := set_m_kernel_end m (physbase m + 4096 * K) in
       b_mem b' = m' /\ b_os b' = b_os b /\
       get_bytes bin 0 sizeof_Ehdr = Ok e /\ read_phdrs bin (e_phoff (parse_ehdr e)) (Z.to_nat (e_phnum (parse_ehdr e))) = Ok phdrs /\
       (forall h, h ∈ phdrs -> m_kernel_end m' <= p_vaddr h -> placed bin m' (b_heap b') h) /\
       rip (b_regs b') = e_entry (parse_ehdr e) /\ rsp (b_regs b') = m_stack_address (b_image b') /\ rflags (b_regs b') = user_rflags /\
       kernel_ready m' K h0 (b_heap b') /\ (forall v a, translation (b_vm b') v = Some a -> user_safe m' K v a) /\
       fits m' (fun a n => load_bytes (b_heap b') (ptr m' + a) n) (b_cpu b') /\
       (m_kernel_end m' <= m_stack_address (b_image b') -> laid_out (b_image b')))
    (fun e _ => defined_exn e) b.
Proof.
  intros m Hm Hz Hcpu Ho Hne Hbytes Hst. unfold cold_start. rewrite bool_decide_false by done. cbn [negb when].
  apply wp_bind, wp_on_img. eapply wp_mono; [apply elf_loader_wp; [by apply boot_loadable|done|done]| |done].
  intros _ i (Hvm&Hib&Hbin&e&phdrs&He&Hph&Hplaced&[Hout8 Hout64]&Hstart&Hlay). change (vm (mvm (im (b_image b)))) with m in *.
  change (heap_of (b_image b)) with (b_heap b) in *.
  apply wp_bind. unfold Machine_setup_long_mode. apply wp_bind, wp_get. apply wp_bind, wp_lift. cbn [set_b_image b_image].
  rewrite Hbin. assert (binary_headers bin = Ok phdrs) as ->.
  { unfold binary_headers. destruct bin; [done|]. by rewrite He. }
  rewrite Ho. apply wp_on_setup.
  apply setup_long_mode_wp; cbn [su_vm]; change (b_vm (set_b_image b i)) with (mvm (im i)); rewrite ?Hvm; [done| |exact (fun _ _ H => H)|].
  { intros q Hq Hr. change (h_heap (vhost (mvm (im i)))) with (heap_of i). rewrite Hout64; [|done|left; rewrite (br_safe _ Hm); destruct (br_room _ Hm) as [_ _ (_&Hal&_) _ _ _ _ _]; unfold aligned8 in Hq; dlia].
    apply Hz; [done|]. fold m. destruct (br_room _ Hm) as [_ [Hsz _] _ _ _ _ _ _]. change (2 ^ 21) with 2097152 in Hsz. unfold PT_ADDR in Hr. lia. }
  intros h K Hk Hsafe. change (h_heap (vhost (mvm (im i)))) with (heap_of i) in Hk.
  apply wp_bind. eapply wp_mono; [apply adjust_brk_wp| |done].
  intros _ b' [(Hvm'&Hst'&Hsk'&Hos'&Hcpu'&_) Hsame]. apply wp_modify.
  exists e, phdrs, K, (heap_of i). unfold b_heap, b_mem. change (b_vm (set_b_regs b' _)) with (b_vm b').
  cbn [b_regs set_b_regs b_os b_cpu b_image].
  unfold setup_registers, set_rsp, set_rip, set_rflags. cbn [rip rsp rflags]. rewrite Hvm', Hst', Hos', Hcpu'.
  cbn [with_setup b_vm b_machine b_image set_b_image im mvm su_vm vm vhost h_heap m_start_address m_stack_address b_os b_cpu].
  pose proof (boot_kernel_room m Hm) as [Hk1 Hk2 Hk3 _ _].
  split_and!; try done.
  - intros hd Hin Hlow Ht Hpos. rewrite Forall_forall in Hplaced. destruct (Hplaced hd Hin Ht Hpos) as [Hmem Hb]. split; [done|].
    intros j Hj. rewrite <-Hb by done. apply (ky_above _ _ _ _ Hk). cbn [m_kernel_end set_m_kernel_end ptr physbase] in *.
    cbn [vm ptr set_m_kernel_end]. lia.
  - apply (master_fits_segments (physbase m) _ _ c0); [done|lia|done|exact (br_forked _ Hm)|exact (ky_segments _ _ _ _ Hk)|].
    exact Hcpu.
  - intros Hle. rewrite Hsk' in Hle. destruct Hlay as (Hbrk&Hrest).
    rewrite (Hsame (eq_ind_r (fun a => m_kernel_end _ <= a) Hle Hbrk)). split; [exact Hbrk|exact Hrest].
Qed.
End composition.

(** ** The constructor *)

Section constructor.
Context `{mh : MainHost} {mlaws : MainHostLaws mh}.
Context `{os : HostOS} `{hfds : HostFds} `{kvmcpu : KvmCpu} `{kvm : KvmSystem}.
Context (fpu_set_ok : bool) (junk : Junk).

(** A machine with memory, and nothing else. *)
Definition newborn (b0 b : Boot) : Prop :=
  boot_room (b_mem b) /\ reads_zero (b_mem b) (b_heap b) /\ snapshot_fd (b_mem b) = -1 /\ VMemory.owned (b_mem b) = true /\
  b_kvm_fd b = b_kvm_fd b0 /\ o_fds (b_os b) = o_fds (b_os b0) /\
  forall m, VMemory.owned m = true -> ptr m = ptr (b_mem b) -> VMemory.size m = VMemory.size (b_mem b) -> mmap_ranges m = [] ->
    wp (vMemory_delete m) (fun _ u => unchanged (b_os b0) u) (fun _ _ => False) (b_os b).

(** The host has put an arena of huge pages, if there is one, where it was asked for. *)
Definition arena_in_place (o : BootOptions) (b : Boot) : Prop := well_placed (bo_memory o) (bo_max_mem o) (b_os b) = true.

Lemma new_memory_wp o b : boot_options o -> arena_in_place o b ->
  wp (new_memory o []) (fun _ b' => newborn b b') (fun e _ => defined_exn e) b.
Proof.
  intros [Hfile (Hb0&Hb1&Hb2) [Hs Htop] Harena Hrm] Hplace. assert (2 ^ 37 < 2 ^ 46 /\ 2 ^ 39 < 2 ^ 46) as [P1 P2] by done.
  destruct (overaligned_bounds (bo_max_mem o)) as (Ho1&Ho2&Ho3); [lia|]. set (osz := overaligned_memsize (bo_max_mem o)) in *.
  assert (osz <= 2 ^ 37) as Hosz.
  { unfold osz, overaligned_memsize. rewrite add64_small by (unfold u64; lia). rewrite land_not_ones by (unfold u64; lia).
    change (2 ^ 37) with (65536 * 2 ^ 21) in *. change (2 ^ 21) with 2097152 in *. dlia. }
  destruct (mapped_size_multiple (bo_memory o) osz) as [Hm1 Hm2]; [lia|done|].
  unfold new_memory. apply wp_bind, wp_on_os. eapply wp_mono; [apply main_memory_New_wp; [lia|exact Harena]| |by intros e t [He _]].
  intros r t Hr. unfold allocated_ok in Hr. unfold arena_in_place in Hplace. rewrite Hplace in Hr. destruct r as [[p sz] fd]. destruct Hr as (Hsz&Hal&Hmin&Hfd&Hofds&Hfr&_&Hdel). fold osz in Hsz. unfold granted, state_area in *. rewrite Hfile in *.
  rewrite bool_decide_true in * by done. rewrite Z.add_0_r in *. rewrite <-Hsz in Hm1, Hm2. destruct Hfr as (Hp1&Hp2&Hp3&_).
  change (2 ^ 21) with 2097152 in *. change (2 ^ 22) with 4194304 in *. assert (2097152 <= sz) as Hsz2 by dlia.
  apply wp_bind, wp_on_memory_of. unfold on_vhost, modify, wp at 1. cbn beta iota zeta.
  apply wp_on_memory_of, vMemory_new_wp; [done|]. intros bk re mp Hbk. unfold newborn, b_heap, b_mem.
  change (b_vm (with_vm _ ?v)) with v. cbn [vm vhost h_heap snapshot_fd VMemory.owned].
  split_and!; try done.
  - assert (W64 = 2 ^ 64) by done. split; cbn [safebase physbase VMemory.size m_forked]; [|by rewrite add64_small by (unfold u64; lia)|rewrite Hal; lia|done].
    split; cbn [physbase VMemory.size ptr page_tables safebase banks mmap_ranges remote]; rewrite ?Hal; try done.
    + change (2 ^ 21) with 2097152. dlia.
    + lia.
    + rewrite add64_small by (unfold u64, PT_ADDR; lia). done.
    + rewrite add64_small by (unfold u64; lia). lia.
  - intros q Hq. cbn [ptr VMemory.size store_bytes h_heap b_vm]. rewrite Hal. intros Hr. change (b_vm (with_vm _ ?v)) with v. cbn [vhost h_heap]. by rewrite ld64_zero_region, decide_True.
  - intros m Hown Hptr Hsize Hmm. cbn [ptr VMemory.size] in *. eapply wp_mono; [apply (Hdel m); by split_and!| |done].
    intros _ u [Hu Hpg]. split; [done|]. intros k. rewrite Hpg. unfold in_range. 
    destruct (Z.leb_spec (p + sz) (4096 * k)), (Z.ltb_spec (4096 * k) (p + sz + 0)); cbn; try done; lia.
Qed.

Lemma release_memory_wp (X : exn -> Boot -> Prop) b : wp release_memory (fun _ _ => True) X b.
Proof.
  unfold release_memory. apply wp_bind, wp_get. apply wp_on_os.
  eapply wp_mono; [apply (vMemory_delete_wp _ (fun _ _ => False))|done|done].
Qed.

(** Steps that leave memory and host alone. *)
Lemma init_vcpu0_wp b :
  wp init_vcpu0 (fun _ b' => exists c, b' = set_b_cpu b c /\ started 0 (b_mem b) (b_cpu b) c) (fun e _ => defined_exn e) b.
Proof.
  unfold init_vcpu0. apply wp_bind, wp_get. apply wp_on_cpu. eapply wp_mono; [apply vCPU_init_wp|by eauto|].
  by intros e x [msg ->].
Qed.

Lemma install_main_wp b :
  wp (let! b := get in on_memory_of (on_vhost (install_memory 0 (physbase (b_mem b)) (ptr (b_mem b)) (VMemory.size (b_mem b)))))
    (fun _ b' => exists sl, b' = with_vm b (mkVM (mkHost (b_heap b) (h_live (vhost (b_vm b))) sl) (b_mem b))) (fun e _ => defined_exn e) b.
Proof.
  apply wp_bind, wp_get. apply wp_on_memory_of. unfold on_vhost, install_memory, b_mem, b_heap, wp, bind, get, put, throw.
  destruct (b_vm b) as [[h lv sl] m]. cbn. destruct (kvm_accepts _ _ _); cbn; eauto.
Qed.

Lemma constructor_body_wp bin o b0 b : boot_options o -> newborn b0 b -> b_kvm_fd b0 <> None ->
  bin <> [] -> Forall byte bin -> static_program bin ->
  wp (constructor_body fpu_set_ok junk bin o) (fun _ b' => ready bin b0 b') (fun e _ => defined_exn e) b.
Proof.
  intros Ho (Hm&Hz&Hsfd&Hown&Hkvm&Hfds&Hdel) Hinit Hne Hbytes Hst. unfold constructor_body. apply wp_bind, wp_get.
  rewrite bool_decide_false by congruence. rewrite (bool_decide_true (snapshot_file _ = _)) by exact (bo_anonymous o Ho). rewrite andb_false_r.
  apply wp_bind. unfold create_kvm_vm. destruct kvm_create_vm as [vfd|]; [|by apply wp_throw]. apply wp_modify.
  apply wp_bind. eapply wp_mono; [apply install_main_wp| |done]. intros _ b1 [sl ->].
  apply wp_bind. eapply wp_mono; [apply init_vcpu0_wp| |done]. intros _ b2 (c&->&Hc).
  match type of Hc with started _ _ ?x _ => set (c0 := x) in Hc end. set (b2 := set_b_cpu _ c).
  assert (b_mem b2 = b_mem b) as Em by done. assert (b_heap b2 = b_heap b) as Eh by done.
  assert (b_os b2 = b_os b) as Eo by done. assert (b_cpu b2 = c) as Ec by done. change (b_mem _) with (b_mem b) in Hc.
  apply wp_bind, wp_get. assert (has_loadable_snapshot_state b2 = false) as ->.
  { unfold has_loadable_snapshot_state, has_snapshot_area. rewrite Em, Hsfd. done. }
  clearbody b2 c0. subst c. rewrite <-Em, <-?Eh, <-?Eo in *.
  eapply wp_mono; [apply (cold_start_wp bin o b2 c0); [done|done|done|exact (bo_no_remappings o Ho)|done|done|done]| |done].
  intros _ b' (e&phdrs&K&h0&Em'&Eo'&He&Hph&Hpl&Hrip&Hrsp&Hfl&Hk&Hsafe&Hfits&Hlay). rewrite <-Em' in *.
  split; [by exists e, phdrs|by exists K, h0|done|done|].
  split; [congruence|]. unfold Machine_delete. apply wp_bind, wp_on_cpu. unfold deinit. apply wp_modify.
  apply wp_bind, wp_modify. unfold release_memory. apply wp_bind, wp_get. apply wp_on_os.
  change (b_mem (set_b_fd _ None)) with (b_mem b'). change (b_os (set_b_fd (set_b_cpu b' _) None)) with (b_os b'). rewrite Eo'.
  destruct Hm as [[] ? ? ?]. eapply wp_mono; [apply Hdel; rewrite Em'; assumption || reflexivity| |done].
  intros [] u Hu. split; [done|]. split; [done|]. split_and!; [done|done|].
  cbn [b_cpu set_b_os set_b_fd set_b_cpu set_fd set_timer set_run_map fd]. intros f Hf.
  destruct (fd (b_cpu b')) as [g|]; [|done]. destruct (Z.ltb_spec 0 g); [done|]. injection Hf as ->. by split.
Qed.

End constructor.

(** ** A machine that boots *)

Definition demo_system : KvmSystem := Build_KvmSystem (Some 3) (Some 12) 12288 true (Some 4).
(** A host whose KVM does not set the MSRs. *)
Definition no_msrs_kvm : KvmCpu := Build_KvmCpu (fun id => Some (id + 5)) (Some 7) true true (Some 1) (fun _ => true)
  (fun _ => 0) true (bit 0) 0 false.
Definition boot_demo_options : BootOptions :=
  mkBootOptions (mkMemOptions false 0 true false false "" Disabled)
    (mkOptions (mkBankOptions 0 0 0 0x200000) [] false true false false false 0) demo_load_options 0 0x400000 false true.
(** A process after [Machine::init]; the vCPU is one that was never initialised. *)
Definition off_cpu : CpuState :=
  mkCpuState None 0 0 None None
    (mkSregs zero_seg zero_seg zero_seg zero_seg zero_seg zero_seg zero_seg (mkDtable 0 0) (mkDtable 0 0) 0 0 0 0) None [] false false None.
Definition before : Boot :=
  mkBoot no_memory None None (mkImage (mkMachine (mkVM (mkHost ∅ [] ∅) demo_memory) (fresh_maps 0) 0 0 true) [] 0 0 0) off_cpu zero_regs []
    false None Signals_new None (mkFdHost ∅ ∅ 0) None false.
Definition initialised : Boot := snd (@Machine_init demo_system before).
Definition boot_with (k : KvmCpu) (bin : list Z) : result unit * Boot :=
  @Machine_Machine strict_host Fork.demo_host Fds.demo_host k demo_system true (mkJunk zero_regs 0) bin boot_demo_options [] initialised.


Lemma demo_boot_options : boot_options boot_demo_options.
Proof. split; [done|vm_compute; intuition congruence|vm_compute; intuition congruence|done|done]. Qed.


(** *** What the constructor and the reset do not do *)

(** When the vCPU cannot be set up the memory is unmapped, but the descriptors of the VM and the vCPU
    and the timer are nobody's: [vCPU] has no destructor, and that of [Machine] does not run. *)
Example failed_constructor_leaks : let (r, b) := boot_with no_msrs_kvm demo_binary in
  r = Err (MachineException "KVM_SET_MSRS: failed to set STAR/LSTAR" 0) /\ o_pages (b_os b) (arena_base / 4096) = false /\
  b_fd b = Some 4 /\ fd (b_cpu b) = Some 5 /\ timer (b_cpu b) = Some 7.
Proof. vm_compute. split_and!; reflexivity. Qed.

(** [reset_to(binary)] loads the program over the memory of the last one: what that one left in
    the part of a segment that the file does not fill, which a program expects to be zero, stays. *)
Definition guest_writes (a v : Z) (b : Boot) : Boot :=
  snd (on_memory_of (put_bytes (ptr (b_mem b) + (a - physbase (b_mem b))) [v]) b).
Definition reset_with (bin : list Z) (b : Boot) : result unit * Boot :=
  @reset_to_binary Fork.demo_host demo_kvm bin boot_demo_options b.
Example reset_keeps_bss :
  let used := guest_writes 0x202010 7 (snd (boot_with demo_kvm demo_binary)) in
  let (r, b) := reset_with demo_binary used in
  r = Ok tt /\ rip (b_regs b) = 0x200000 /\ ld8 (b_heap b) (arena_base + 0x202010) = 7.
Proof. vm_compute. split_and!; reflexivity. Qed.
