(* ===== verification/IoCalls.v ===== *)
(** * System calls for input, output and files

    The other handlers of lib/tinykvm/linux/system_calls.cpp: reading and writing, files and
    paths, sockets, polling, clocks, and the calls with a constant answer; with the table by
    number and [Machine::system_call] (machine_inline.hpp).

    What a handler asks of the host is an [hcall] with its arguments; the calls made so far are
    part of the state ([calls], the latest first), and the host's answer may depend on all of
    them (class [HostCalls]).  A path filter that refuses leaves the path alone.  Local arrays
    of the host have their sizes: running over one is [Undefined]. *)
From stdpp Require Import base tactics list numbers strings gmap.
From Stdlib Require Import ZArith Lia Bool.
From S2P Require Import Prelude Cpu Fds FdCalls Threads.
Local Open Scope Z_scope.
Local Open Scope list_scope.

(** ** Calls to the host *)

Inductive hcall :=
| HPrint (data : list Z)
| HRead (fd len : Z) | HPread (fd len off : Z) | HWrite (fd : Z) (data : list Z) | HPwrite (fd : Z) (data : list Z) (off : Z)
| HLseek (fd off whence : Z) | HFsync (fd : Z) | HFstat (fd : Z) | HFchmod (fd mode : Z) | HFtruncate (fd size : Z)
| HGetdents (fd : Z) | HFchdir (fd : Z) | HIoctl (fd req : Z) (arg : list Z)
| HStat (path : string) | HLstat (path : string) | HFstatat (dir : Z) (path : string) (flags : Z)
| HStatx (dir : Z) (path : string) (flags mask : Z) | HAccess (path : string) (mode : Z)
| HReadlinkat (dir : Z) (path : string) (size : Z)
| HMkdir (path : string) (mode : Z) | HRename (from to : string) | HUnlink (path : string)
| HUnlinkat (dir : Z) (path : string) (flags : Z) | HSymlink (target link : string)
| HUtimensat (dir : Z) (path : string) (times : list Z) (flags : Z) | HFutimens (fd : Z) (times : list Z)
| HInotifyAdd (fd : Z) (path : string) (mask : Z)
| HPoll (fds : list (Z * Z)) (timeout : Z) | HEpollWait (fd maxevents timeout : Z) | HEpollPwait2 (fd maxevents nsec : Z)
| HSetsockopt (fd level name : Z) (value : list Z) | HGetsockopt (fd level name : Z)
| HConnect (fd : Z) (addr : list Z) | HBind (fd : Z) (addr : list Z) | HGetsockname (fd : Z) | HGetpeername (fd : Z)
| HSendmsg (fd : Z) (data : list Z) (addr : option (list Z)) (flags : Z)
| HRecvmsg (fd len : Z) (control : list Z) (flags : Z)
| HGettimeofday | HTime | HClockGettime (clock : Z) | HClockGetres (clock : Z)
| HClockNanosleep (flags : Z) (ts : list Z) | HTimerfdSettime (fd flags : Z) (value : list Z)
| HGetrandom (len flags : Z).

(** The result, what was put into the buffers, and the address of a peer. *)
Record reply := mkReply { r_result : Z; r_data : list Z; r_name : list Z }.

Class HostCalls := {
  (** The answer given the earlier calls; on the right the error number. *)
  answer : list hcall -> hcall -> reply + Z;
  (** [timed_out()]: has the timer of this thread gone off? *)
  timer_fired : list hcall -> bool }.

(** How many bytes (or events) fit into the buffer that is passed along. *)
Definition room (c : hcall) : option Z :=
  match c with
  | HRead _ n | HPread _ n _ | HRecvmsg _ n _ _ | HGetrandom n _ | HReadlinkat _ _ n => Some n
  | HGetdents _ => Some 2048
  | HGetsockopt _ _ _ => Some 256
  | HGetsockname _ | HGetpeername _ => Some 128
  | HEpollWait _ n _ | HEpollPwait2 _ n _ => Some n
  | _ => None
  end.
(** No call writes outside of its buffers; results are not negative, and a call that fills a
    buffer returns how much it put there; an address fits [sockaddr_storage]. *)
Class HostCallLaws (hc : HostCalls) : Prop := {
  answer_nonneg h c r : answer h c = inl r -> 0 <= r_result r;
  answer_room h c r n : answer h c = inl r -> room c = Some n -> r_result r <= n;
  answer_name h c r : answer h c = inl r -> Z.of_nat (length (r_name r)) <= 128 }.

(** ** Guest memory as buffers of the host *)

Class GuestBuffers (G : Type) := {
  (** [gather_buffers_from_range(addr, len)] and [writable_buffers_from_range(addr, len)] *)
  gather_buffers : Z -> Z -> M G (list (Z * Z));
  writable_buffers : Z -> Z -> M G (list (Z * Z));
  (** What the host reads from the buffers, and writes to them. *)
  buffers_data : list (Z * Z) -> M G (list Z);
  fill_buffers : list (Z * Z) -> list Z -> M G unit;
  (** The pointer of [writable_memview(addr, len)], and access through it. *)
  writable_view : Z -> Z -> M G Z;
  view_load : Z -> Z -> M G (list Z);
  view_store : Z -> list Z -> M G unit;
  (** The pieces that [foreach_memory(addr, len)] passes to its callback. *)
  memory_pieces : Z -> Z -> M G (list (list Z));
  (** [memory_safe_at(addr, len)] *)
  safe_at : Z -> Z -> M G bool }.

(** The length of the buffers together. *)
Definition total_len (l : list (Z * Z)) : Z := foldr (fun b n => snd b + n) 0 l.

(** Further callbacks of the embedder. *)
Record IoCallbacks := mkIoCallbacks {
  fd_cb : Callbacks;
  symlinks : path_filter;
  connect_socket : option (Z -> list Z -> option (list Z));
  bind_socket : option (Z -> list Z -> option (list Z));
  epoll_gate : option (Z -> Z -> Z -> bool);
  poll_gate : option (list Z -> Z -> Z -> bool) }.

Definition ENOMEM : Z := 12.
Definition EFAULT : Z := 14.
Definition EINTR : Z := 4.
Definition ENOSYS : Z := 38.

Definition SOCKADDR_SIZE : Z := 128.
Definition AT_EMPTY_PATH : Z := 0x1000.
Definition AT_SYMLINK_NOFOLLOW : Z := 0x100.
Definition sanitize_at_flags (flags : Z) : Z := (flags .& AT_EMPTY_PATH) .| AT_SYMLINK_NOFOLLOW.

Definition string_bytes (s : string) : list Z := map (fun c => Z.of_nat (Ascii.nat_of_ascii c)) (String.list_ascii_of_string s).
(** [s.find(t) != npos] *)
Definition contains (t s : string) : bool := match String.index 0 t s with Some _ => true | None => false end.
Definition string_size (s : string) : Z := Z.of_nat (String.length s).
(** A member of a structure that is zero elsewhere. *)
Definition zeros (n : nat) : list Z := replicate n 0.

Section io.
Context `{hf : HostFds} `{hc : HostCalls} {G : Type} `{gm : GuestMemory G} `{gs : GuestStrings G} `{gb : GuestBuffers G}.
Variables (cb : IoCallbacks) (junk : Junk).
(** [is_forked()] and [preempt_epoll_wait()] *)
Variables (forked preempt : bool).

(** Registers, threads and guest memory; the descriptor table; the calls to the host. *)
Record Sys := mkSys { os : OS G; fds : FileDescriptors; calls : list hcall }.
Definition P := M Sys.

Definition on_os {A} (m : M (OS G) A) : P A := fun s => let (r, o) := m (os s) in (r, mkSys o (fds s) (calls s)).
Definition on_mem {A} (m : M G A) : P A := on_os (on_guest m).
Definition on_fds {A} (m : M FileDescriptors A) : P A := fun s => let (r, f) := m (fds s) in (r, mkSys (os s) f (calls s)).

Definition registers : P x86regs := gets (fun s => regs (os s)).
(** [regs.rax = v], [cpu.set_registers(regs)] *)
Definition set_result (v : Z) : P unit := on_os (Threads.return_rax (v mod W64)).
Definition set_errno : P unit := let! s := get in set_result (- errno (fhost (fds s))).

(** A call to the host; a failure sets [errno] and has the result -1. *)
Definition call (c : hcall) : P reply :=
  let! s := get in
  put (mkSys (os s) (fds s) (c :: calls s)) ;;;
  match answer (calls s) c with
  | inl r => ret r
  | inr e => let! v := on_fds (fails e) in ret (mkReply v [] [])
  end.
(** [regs.rax = call(...); if (regs.rax < 0) regs.rax = -errno] *)
Definition call_result (c : hcall) : P unit :=
  let! r := call c in
  if r_result r <? 0 then set_errno else set_result (r_result r).
(** The variants that give back 0, and that look at the lower half of the result only. *)
Definition call_zero (c : hcall) : P unit :=
  let! r := call c in
  if r_result r <? 0 then set_errno else set_result 0.
Definition call_int (c : hcall) : P unit :=
  let! r := call c in
  if int32 (r_result r) <? 0 then set_errno else set_result (r_result r).

(** Filling or reading [n] bytes of a local array of [size]. *)
Definition host_array (size n : Z) : P unit :=
  if n <=? size then ret tt else throw (Undefined "outside of an array on the stack").

Definition translate_vfd (vfd : Z) : P Z := on_fds (translate (find_master (fd_cb cb)) vfd).
Definition translate_writable (vfd : Z) : P Z := on_fds (translate_writable_vfd (find_master (fd_cb cb)) vfd).
Definition readable (path : string) : option string := is_readable_path (open_readable (fd_cb cb)) path.
Definition writable (path : string) : option string := is_writable_path (open_writable (fd_cb cb)) path.
Definition symlink_of (path : string) : option string := resolve_symlink (symlinks cb) path.
Definition connectable (fd : Z) (a : list Z) : option (list Z) := validate_socket_address (connect_socket cb) fd a.
Definition cwd_fd : P Z := gets (fun s => m_cwd_fd (fds s)).
Definition is_stdio (v : Z) : bool := (0 <=? v) && (v <? 3).

(** ** Reading and writing *)

(** [&buffers[0]] of an empty vector is passed on together with the count zero. *)
Definition sys_read : P unit :=
  let! r := registers in
  let! fd := translate_vfd (int32 (rdi r)) in
  let! buffers := on_mem (writable_buffers (rsi r) (rdx r)) in
  let! n := call (HRead fd (total_len buffers)) in
  on_mem (fill_buffers buffers (r_data n)) ;;;
  if r_result n <? 0 then set_errno else set_result (r_result n).

Definition print (data : list Z) : P unit := let! _ := call (HPrint data) in ret tt.

(** With one buffer (or none) [buffers[0]] is read; its descriptor is looked up after that. *)
Definition sys_write : P unit :=
  let! r := registers in
  let vfd := int32 (rdi r) in
  let bytes := rdx r in
  let stdio := (vfd =? 1) || (vfd =? 2) in
  if (if stdio then 0x10000 <? bytes else 0x4000000 <? bytes) then set_result (-1)
  else if negb stdio then
    let! buffers := on_mem (gather_buffers (rsi r) bytes) in
    let! fd := translate_writable vfd in
    match buffers with
    | [] => throw (Undefined "first element of an empty vector")
    | _ =>
        let! data := on_mem (buffers_data buffers) in
        let! n := call (HWrite fd data) in
        set_result (r_result n)
    end
  else
    let! pieces := on_mem (memory_pieces (rsi r) bytes) in
    for_each pieces print ;;;
    set_result bytes.

Definition sys_pread64 : P unit :=
  let! r := registers in
  let! fd := translate_vfd (int32 (rdi r)) in
  let! buffers := on_mem (writable_buffers (rsi r) (rdx r)) in
  let! n := call (HPread fd (total_len buffers) (r10 r)) in
  on_mem (fill_buffers buffers (r_data n)) ;;;
  if r_result n <? 0 then set_errno else set_result (r_result n).

Definition sys_pwrite64 : P unit :=
  let! r := registers in
  let! fd := translate_writable (int32 (rdi r)) in
  let! buffers := on_mem (gather_buffers (rsi r) (rdx r)) in
  let! data := on_mem (buffers_data buffers) in
  let! n := call (HPwrite fd data (r10 r)) in
  if r_result n <? 0 then set_errno else set_result (rdx r).

(** A [g_iovec] in guest memory. *)
Definition iov_base (l : list Z) (i : nat) : Z := field64 l (16 * i).
Definition iov_len (l : list Z) (i : nat) : Z := field64 l (16 * i + 8).

(** The loop for standard output and error, with [written]. *)
Fixpoint print_vectors (n : nat) (g : Z) (written : Z) : P Z :=
  match n with
  | O => ret written
  | S n' =>
      let! vec := on_mem (guest_read g 16) in
      let len := iov_len vec 0 in
      if len =? 0 then print_vectors n' (g ⊕ 16) written
      else if 8192 <? len then ret (- ENOMEM)
      else
        host_array 8192 len ;;;
        let! data := on_mem (guest_read (iov_base vec 0) len) in
        print data ;;;
        print_vectors n' (g ⊕ 16) (written + len)
  end.

(** The buffers of several ranges, one after the other. *)
Fixpoint gather_vectors (f : Z -> Z -> M G (list (Z * Z))) (n i : nat) (vecs : list Z) : P (list (Z * Z)) :=
  match n with
  | O => ret []
  | S n' =>
      let! b := on_mem (f (iov_base vecs i) (iov_len vecs i)) in
      let! rest := gather_vectors f n' (S i) vecs in
      ret (b ++ rest)
  end.

Definition sys_writev : P unit :=
  let! r := registers in
  let vfd := int32 (rdi r) in
  let count := uint32 (rdx r) in
  if 64 <? count then set_result (-1)
  else if (vfd =? 1) || (vfd =? 2) then
    let! written := print_vectors (Z.to_nat count) (rsi r) 0 in
    set_result written
  else
    let! fd := translate_writable vfd in
    if 0 <? fd then
      host_array 1024 (count * 16) ;;;
      let! vecs := on_mem (guest_read (rsi r) (count * 16)) in
      let! buffers := gather_vectors gather_buffers (Z.to_nat count) 0 vecs in
      let! data := on_mem (buffers_data buffers) in
      call_result (HWrite fd data)
    else set_result (- EBADF).

(** [catch (...) { regs.rax = -EBADF; }] *)
Definition or_ebadf (m : P unit) : P unit := try_catch m (set_result (- EBADF)).
Definition or_minus_one (m : P unit) : P unit := try_catch m (set_result (-1)).

Definition sys_lseek : P unit :=
  let! r := registers in
  or_ebadf
    (let! fd := translate_vfd (int32 (rdi r)) in
     call_int (HLseek fd (rsi r) (int32 (rdx r)))).

Definition sys_fsync : P unit :=
  let! r := registers in
  or_ebadf
    (let! fd := translate_vfd (int32 (rdi r)) in
     if 0 <=? fd then call_int (HFsync fd) else set_result (- EBADF)).

Definition sys_ftruncate : P unit :=
  let! r := registers in
  let! fd := translate_writable (int32 (rdi r)) in
  if 0 <? fd then call_int (HFtruncate fd (rsi r)) else set_result (- EBADF).

Definition sys_fchmod : P unit :=
  let! r := registers in
  let! fd := translate_writable (int32 (rdi r)) in
  if 0 <=? fd then call_zero (HFchmod fd (uint32 (rsi r))) else set_result (- EBADF).

Definition LOCK_SH : Z := 1.
Definition LOCK_EX : Z := 2.
Definition LOCK_UN : Z := 8.
(** Locks are not taken. *)
Definition sys_flock : P unit :=
  let! r := registers in
  let! fd := translate_vfd (int32 (rdi r)) in
  let operation := int32 (rsi r) in
  if fd <? 0 then set_result (- EBADF)
  else if operation =? LOCK_UN then set_result 0
  else if (operation =? LOCK_EX) || (operation =? LOCK_SH) then set_result 0
  else set_result (- EINVAL).

(** [regs.rax] is unsigned, so a failure (-1) copies, too. *)
Definition sys_getdents64 : P unit :=
  let! r := registers in
  let! fd := translate_vfd (int32 (rdi r)) in
  let! n := call (HGetdents fd) in
  let rax := r_result n mod W64 in
  when (0 <? rax)
    (host_array 2048 rax ;;;
     on_mem (guest_write (rsi r) (take (Z.to_nat rax) (r_data n)))) ;;;
  set_result rax.

Definition TCGETS : Z := 0x5401.
Definition TCSETS : Z := 0x5402.
Definition TIOCGWINSZ : Z := 0x5413.
Definition TIOCGPTN : Z := 0x80045430.
Definition FIONBIO : Z := 0x5421.
Definition FIONREAD : Z := 0x541B.
Definition FIOCLEX : Z := 0x5451.
Definition FIONCLEX : Z := 0x5450.

Definition sys_ioctl : P unit :=
  let! r := registers in
  let vfd := int32 (rdi r) in
  let! fd := translate_vfd vfd in
  let req := rsi r in
  if req =? TCGETS then set_result (if is_stdio vfd then 0 else - EINVAL)
  else if req =? TCSETS then set_result 0
  else if req =? TIOCGWINSZ then set_result 80
  else if req =? TIOCGPTN then on_mem (guest_write (rdx r) (le_bytes 4 1)) ;;; set_result 0
  else if req =? FIONBIO then
    if is_stdio vfd then set_result 0
    else
      let! arg := on_mem (guest_read (rdx r) 4) in
      call_zero (HIoctl fd FIONBIO arg)
  else if req =? FIONREAD then
    if is_stdio vfd then on_mem (guest_write (rdx r) (le_bytes 4 0)) ;;; set_result 0
    else
      let! n := call (HIoctl fd FIONREAD []) in
      if r_result n <? 0 then set_errno
      else
        on_mem (guest_write (rdx r) (take 4 (r_data n))) ;;;
        set_result (int32 (le_value (take 4 (r_data n))))
  else if (req =? FIOCLEX) || (req =? FIONCLEX) then set_result 0
  else set_result (- EINVAL).

(** ** Files and paths *)

(** [struct stat] of a directory that is made up: mode, block size, number of blocks, ... *)
Definition fake_stat (dev ino nlink mode blksize blocks : Z) : list Z :=
  le_bytes 8 dev ++ le_bytes 8 ino ++ le_bytes 8 nlink ++ le_bytes 4 mode ++ zeros 28 ++
  le_bytes 8 blksize ++ le_bytes 8 blocks ++ zeros 72.

(** [result == 0 ? copy_to_guest(g, &vstat) and 0 : -errno] *)
Definition stat_result (c : hcall) (g : Z) : P unit :=
  let! n := call c in
  if r_result n =? 0 then on_mem (guest_write g (r_data n)) ;;; set_result 0 else set_errno.

Definition cstring (g : Z) : P string := on_mem (guest_cstring g PATH_MAX).

Definition sys_stat : P unit :=
  let! r := registers in
  let! path := cstring (rdi r) in
  match readable path with
  | None => set_result (- EACCES)
  | Some p => stat_result (HStat p) (rsi r)
  end.

Definition sys_fstat : P unit :=
  let! r := registers in
  or_ebadf
    (let! fd := translate_vfd (int32 (rdi r)) in
     stat_result (HFstat fd) (rsi r)).

(** S_IFDIR | 0755 *)
Definition FAKE_DIR_MODE : Z := 0x41ED.
Definition sys_lstat : P unit :=
  let! r := registers in
  let! path := cstring (rdi r) in
  match readable path with
  | None =>
      let! s := get in
      if contains path (m_cwd (fds s)) then
        on_mem (guest_write (rsi r) (fake_stat 0x1234 0x5678 2 FAKE_DIR_MODE 4096 8)) ;;; set_result 0
      else set_result (- EACCES)
  | Some p => stat_result (HLstat p) (rsi r)
  end.

Definition sys_access : P unit :=
  let! r := registers in
  let! path := cstring (rdi r) in
  match readable path with
  | None => set_result (- EACCES)
  | Some p => call_zero (HAccess p (int32 (rsi r)))
  end.

(** The directory a path is relative to. *)
Definition dir_of (tr : Z -> P Z) (vfd : Z) : P Z := if vfd =? AT_FDCWD then cwd_fd else tr vfd.

(** S_IFDIR | 0644 *)
Definition FAKE_LINK_MODE : Z := 0x41A4.
Definition sys_newfstatat : P unit :=
  let! r := registers in
  let vfd := int32 (rdi r) in
  or_minus_one
    (let! path := cstring (rsi r) in
     let! fd := dir_of translate_vfd vfd in
     let stat p :=
       let flags := if String.eqb p "" && negb (vfd =? AT_FDCWD) then AT_EMPTY_PATH else 0 in
       stat_result (HFstatat fd p flags) (rdx r) in
     match readable path with
     | Some p => stat p
     | None =>
         if String.eqb path "" then stat path
         else if negb (r10 r .& AT_SYMLINK_NOFOLLOW =? 0) then
           on_mem (guest_write (rdx r) (fake_stat 0 0 0 FAKE_LINK_MODE 512 0)) ;;; set_result 0
         else set_result (- EPERM)
     end).

(** A path that is not readable only sets the result, which is then overwritten. *)
Definition sys_statx : P unit :=
  let! r := registers in
  let vfd := int32 (rdi r) in
  or_minus_one
    (let! path := cstring (rsi r) in
     let! p :=
       (if String.eqb path "" then ret path
        else match readable path with
             | Some p => ret p
             | None => set_result (- EPERM) ;;; ret path
             end) in
     let! fd := dir_of translate_vfd vfd in
     stat_result (HStatx fd p (sanitize_at_flags (rdx r)) (r10 r)) (r8 r)).

Definition sys_mkdir : P unit :=
  let! r := registers in
  let! path := cstring (rdi r) in
  match writable path with
  | Some p => call_zero (HMkdir p 0x1ED)
  | None => set_result (- EPERM)
  end.

Definition sys_rename : P unit :=
  let! r := registers in
  let! from := cstring (rdi r) in
  let! to := cstring (rsi r) in
  match writable from with
  | Some f => match writable to with
              | Some t => call_zero (HRename f t)
              | None => set_result (- EPERM)
              end
  | None => set_result (- EPERM)
  end.

Definition sys_unlink : P unit :=
  let! r := registers in
  let! path := cstring (rdi r) in
  match writable path with
  | Some p => call_zero (HUnlink p)
  | None => set_result (- EPERM)
  end.

(** The filter sees the empty path, before the real one is read. *)
Definition sys_unlinkat : P unit :=
  let! r := registers in
  let vdirfd := int32 (rdi r) in
  let flags := int32 (rsi r .| AT_SYMLINK_NOFOLLOW) in
  match writable "" with
  | Some p =>
      let! dir := dir_of translate_writable vdirfd in
      let! path := (if rdx r =? 0 then ret p else cstring (rdx r)) in
      call_zero (HUnlinkat dir path flags)
  | None => set_result (- EPERM)
  end.

Definition sys_readlink : P unit :=
  let! r := registers in
  let! path := cstring (rdi r) in
  match symlink_of path with
  | Some p => on_mem (guest_write (rsi r) (string_bytes p)) ;;; set_result (string_size p)
  | None =>
      if PATH_MAX <? rdx r then set_result (- EINVAL)
      else
        match readable path with
        | None => set_result (- EINVAL)
        | Some p =>
            let! dir := cwd_fd in
            let! n := call (HReadlinkat dir p (rdx r)) in
            if r_result n <? 0 then set_errno
            else
              host_array PATH_MAX (r_result n) ;;;
              on_mem (guest_write (rsi r) (take (Z.to_nat (r_result n)) (r_data n))) ;;;
              set_result (r_result n)
        end
  end.

Definition sys_readlinkat : P unit :=
  let! r := registers in
  let vfd := int32 (rdi r) in
  or_minus_one
    (let! path := cstring (rsi r) in
     match symlink_of path with
     | Some p =>
         let copy_size := Z.min (string_size p) (r10 r) in
         on_mem (guest_write (rdx r) (take (Z.to_nat copy_size) (string_bytes p))) ;;;
         set_result copy_size
     | None =>
         match readable path with
         | None => set_result (- EINVAL)
         | Some p =>
             let! dir := dir_of translate_vfd vfd in
             let! n := call (HReadlinkat dir p (Z.min (r10 r) PATH_MAX)) in
             if 0 <=? r_result n then
               host_array PATH_MAX (r_result n) ;;;
               on_mem (guest_write (rdx r) (take (Z.to_nat (r_result n)) (r_data n))) ;;;
               set_result (r_result n)
             else set_errno
         end
     end).

Definition sys_symlink : P unit :=
  let! r := registers in
  or_minus_one
    (let! _ := cstring (rdi r) in
     let! _ := cstring (rsi r) in
     set_result (- EPERM)).

(** The handler that is installed with [unsafe_syscalls]. *)
Definition has_dots (path : string) : bool := contains ".." path || contains "./" path.
Definition sys_symlink_unsafe : P unit :=
  let! r := registers in
  let! target := cstring (rdi r) in
  let! link := cstring (rsi r) in
  if has_dots link then throw (MachineException "symlink: invalid link path" 0)
  else if has_dots target then throw (MachineException "symlink: invalid target path" 0)
  else
    match writable link with
    | Some l => match readable target with
                | Some t => call_zero (HSymlink t l)
                | None => set_result (- EPERM)
                end
    | None => set_result (- EPERM)
    end.

Definition UTIME_NOW : Z := 0x3FFFFFFF.
Definition sys_utimensat : P unit :=
  let! r := registers in
  let vfd := int32 (rdi r) in
  let flags := sanitize_at_flags (r10 r) in
  let! times :=
    (if rdx r =? 0 then ret (le_bytes 8 0 ++ le_bytes 8 UTIME_NOW ++ le_bytes 8 0 ++ le_bytes 8 UTIME_NOW)
     else on_mem (guest_read (rdx r) 32)) in
  let! fd := dir_of translate_writable vfd in
  if 0 <? fd then
    if rsi r =? 0 then call_int (HFutimens fd times)
    else
      let! path := cstring (rsi r) in
      match writable path with
      | None => set_result (- EPERM)
      | Some p => call_int (HUtimensat fd p times flags)
      end
  else set_result (- EBADF).

Definition sys_getcwd : P unit :=
  let! r := registers in
  let! s := get in
  let cwd := m_cwd (fds s) in
  if string_size cwd + 1 <=? rsi r then
    on_mem (guest_write (rdi r) (string_bytes cwd ++ [0])) ;;; set_result (rdi r)
  else set_result 0.

Definition sys_fchdir : P unit :=
  let! r := registers in
  let! fd := translate_vfd (int32 (rdi r)) in
  if 0 <=? fd then call_zero (HFchdir fd) else set_result (- EBADF).

Definition sys_inotify_init1 : P unit :=
  let! r := registers in
  let! real_fd := on_fds (host_new (RInotify (int32 (rdi r)))) in
  let! vfd := on_fds (manage real_fd true) in
  if vfd <? 0 then set_errno else set_result vfd.

Definition sys_inotify_add_watch : P unit :=
  let! r := registers in
  let! path := cstring (rsi r) in
  match writable path with
  | None => set_result (- EPERM)
  | Some p =>
      let! fd := translate_vfd (int32 (rdi r)) in
      if 0 <? fd then call_int (HInotifyAdd fd p (int32 (rdx r))) else set_result (- EBADF)
  end.

(** ** Sockets *)

Definition sys_setsockopt : P unit :=
  let! r := registers in
  let! fd := translate_vfd (int32 (rdi r)) in
  if 256 <? r8 r then set_result (- EINVAL)
  else
    host_array 256 (r8 r) ;;;
    let! value := on_mem (guest_read (r10 r) (r8 r)) in
    call_zero (HSetsockopt fd (int32 (rsi r)) (int32 (rdx r)) value).

(** The length the guest gives is not looked at. *)
Definition sys_getsockopt : P unit :=
  let! r := registers in
  let! fd := translate_vfd (int32 (rdi r)) in
  let! n := call (HGetsockopt fd (int32 (rsi r)) (int32 (rdx r))) in
  if r_result n <? 0 then set_errno
  else
    let optlen := Z.of_nat (length (take 256 (r_data n))) in
    when (negb (r10 r =? 0)) (on_mem (guest_write (r10 r) (take 256 (r_data n)))) ;;;
    when (negb (r8 r =? 0)) (on_mem (guest_write (r8 r) (le_bytes 4 optlen))) ;;;
    set_result 0.

(** [sockaddr_storage addr {}] with the first bytes from the guest. *)
Definition sockaddr (g len : Z) : P (list Z) :=
  host_array SOCKADDR_SIZE len ;;;
  let! a := on_mem (guest_read g len) in
  ret (a ++ zeros (Z.to_nat (SOCKADDR_SIZE - len))).

Definition sys_connect : P unit :=
  let! r := registers in
  let! fd := translate_vfd (int32 (rdi r)) in
  if SOCKADDR_SIZE <? rdx r then set_result (- EINVAL)
  else
    let! addr := sockaddr (rsi r) (rdx r) in
    match connectable fd addr with
    | None => set_result (- EPERM)
    | Some a => call_zero (HConnect fd (take (Z.to_nat (rdx r)) a))
    end.

Definition sys_bind : P unit :=
  let! r := registers in
  let! fd := translate_vfd (int32 (rdi r)) in
  if SOCKADDR_SIZE <? rdx r then set_result (- EINVAL)
  else
    let! addr := sockaddr (rsi r) (rdx r) in
    match validate_socket_address (bind_socket cb) fd addr with
    | None => set_result (- EPERM)
    | Some a => call_zero (HBind fd (take (Z.to_nat (rdx r)) a))
    end.

(** The address of a socket; [c] asks for it. *)
Definition socket_name (c : Z -> hcall) : P unit :=
  let! r := registers in
  let! fd := translate_vfd (int32 (rdi r)) in
  let! n := call (c fd) in
  if r_result n <? 0 then set_errno
  else
    host_array SOCKADDR_SIZE (Z.of_nat (length (r_name n))) ;;;
    when (negb (rsi r =? 0)) (on_mem (guest_write (rsi r) (r_name n))) ;;;
    when (negb (rdx r =? 0)) (on_mem (guest_write (rdx r) (le_bytes 4 (Z.of_nat (length (r_name n)))))) ;;;
    set_result 0.
Definition sys_getsockname : P unit := socket_name HGetsockname.
Definition sys_getpeername : P unit := socket_name HGetpeername.

Definition sys_sendto : P unit :=
  let! r := registers in
  let bytes := rdx r in
  let flags := int32 (r10 r) in
  let addrlen := uint32 (r9 r) in
  or_ebadf
    (if 0x20000000 <? bytes then set_result (- ENOMEM)
     else if SOCKADDR_SIZE <? addrlen then set_result (- EINVAL)
     else
       let! fd := translate_writable (int32 (rdi r)) in
       let! buffers := on_mem (gather_buffers (rsi r) bytes) in
       let send name :=
         let! data := on_mem (buffers_data buffers) in
         call_result (HSendmsg fd data name flags) in
       if (0 <? addrlen) && negb (r8 r =? 0) then
         let! addr := sockaddr (r8 r) addrlen in
         match connectable fd addr with
         | None => set_result (- EPERM)
         | Some a => send (Some (take (Z.to_nat addrlen) a))
         end
       else send None).

(** [guest_addrlen = min(guest_addrlen, namelen)] and the address itself, if there is room. *)
Definition give_address (g_len g_addr : Z) (name : list Z) : P unit :=
  let! p := on_mem (writable_view g_len 4) in
  let! old := on_mem (view_load p 4) in
  let len := Z.min (le_value old) (Z.of_nat (length name)) in
  on_mem (view_store p (le_bytes 4 len)) ;;;
  when (negb (g_addr =? 0) && (0 <? len)) (on_mem (guest_write g_addr (take (Z.to_nat len) name))).

Definition sys_recvfrom : P unit :=
  let! r := registers in
  let bytes := rdx r in
  or_ebadf
    (if 0x4000000 <? bytes then set_result (- ENOMEM)
     else
       let! fd := translate_vfd (int32 (rdi r)) in
       let! buffers := on_mem (writable_buffers (rsi r) bytes) in
       let! n := call (HRecvmsg fd (total_len buffers) [] (int32 (r10 r))) in
       on_mem (fill_buffers buffers (r_data n)) ;;;
       if r_result n <? 0 then set_errno
       else
         when (negb (r9 r =? 0)) (give_address (r9 r) (r8 r) (r_name n)) ;;;
         set_result (r_result n)).

(** [struct msghdr] *)
Definition MSGHDR_SIZE : Z := 56.
Definition msg_name (l : list Z) : Z := field64 l 0.
Definition msg_namelen (l : list Z) : Z := field32 l 8.
Definition msg_iov (l : list Z) : Z := field64 l 16.
Definition msg_iovlen (l : list Z) : Z := field64 l 24.
Definition msg_control (l : list Z) : Z := field64 l 32.
Definition msg_controllen (l : list Z) : Z := field64 l 40.

Definition sys_recvmsg : P unit :=
  let! r := registers in
  or_ebadf
    (let! fd := translate_vfd (int32 (rdi r)) in
     let! msg := on_mem (guest_read (rsi r) MSGHDR_SIZE) in
     let n := msg_iovlen msg in
     if 128 <? n then set_result (- EINVAL)
     else
       host_array 2048 (n * 16) ;;;
       let! vecs := on_mem (guest_read (msg_iov msg) (n * 16)) in
       let! buffers := gather_vectors writable_buffers (Z.to_nat n) 0 vecs in
       let! control :=
         (if negb (msg_control msg =? 0) && (0 <? msg_controllen msg) && (msg_controllen msg <=? 256) then
            host_array 256 (msg_controllen msg) ;;; on_mem (guest_read (msg_control msg) (msg_controllen msg))
          else ret []) in
       let! res := call (HRecvmsg fd (total_len buffers) control (int32 (rdx r))) in
       on_mem (fill_buffers buffers (r_data res)) ;;;
       if r_result res <? 0 then set_errno
       else
         when (negb (msg_name msg =? 0) && (0 <? msg_namelen msg))
           (give_address (rsi r ⊕ 8) (msg_name msg) (r_name res)) ;;;
         set_result (r_result res)).

(** The length of the address is not compared with the size of [addr]. *)
Definition sys_sendmsg : P unit :=
  let! r := registers in
  or_ebadf
    (let! fd := translate_writable (int32 (rdi r)) in
     let! msg := on_mem (guest_read (rsi r) MSGHDR_SIZE) in
     let n := msg_iovlen msg in
     if 128 <? n then set_result (- EINVAL)
     else
       host_array 2048 (n * 16) ;;;
       let! vecs := on_mem (guest_read (msg_iov msg) (n * 16)) in
       let! buffers := gather_vectors gather_buffers (Z.to_nat n) 0 vecs in
       let send name :=
         let! data := on_mem (buffers_data buffers) in
         call_result (HSendmsg fd data name (int32 (rdx r))) in
       if (0 <? msg_namelen msg) && negb (msg_name msg =? 0) then
         let! addr := sockaddr (msg_name msg) (msg_namelen msg) in
         match connectable fd addr with
         | None => set_result (- EPERM)
         | Some a => send (Some (take (Z.to_nat (msg_namelen msg)) a))
         end
       else send None).

(** [struct mmsghdr]: a [msghdr] and the length *)
Definition MMSGHDR_SIZE : Z := 64.
(** The loop over the vectors of one message, with [total]. *)
Fixpoint send_vectors (fd : Z) (n i : nat) (vecs : list Z) (total : Z) : P Z :=
  match n with
  | O => ret total
  | S n' =>
      let! buffers := on_mem (gather_buffers (iov_base vecs i) (iov_len vecs i)) in
      let! data := on_mem (buffers_data buffers) in
      let! res := call (HWrite fd data) in
      if r_result res <? 0 then let! s := get in ret (- errno (fhost (fds s)))
      else send_vectors fd n' (S i) vecs (total + r_result res)
  end.
(** The loop over the messages: the lengths to write back and the number that was sent. *)
Fixpoint send_messages (fd : Z) (n i : nat) (msgs : list Z) (sent : Z) : P (list (nat * Z) * Z) :=
  match n with
  | O => ret ([], sent)
  | S n' =>
      let msg := drop (64 * i) msgs in
      if 1024 <? msg_iovlen msg then set_result (- EINVAL) ;;; ret ([], sent)
      else
        host_array 16384 (msg_iovlen msg * 16) ;;;
        let! vecs := on_mem (guest_read (msg_iov msg) (msg_iovlen msg * 16)) in
        if 0 <? int32 (msg_namelen msg) then throw (MachineException "sendmmsg: sockaddr not supported" 0)
        else
          let! total := send_vectors fd (Z.to_nat (msg_iovlen msg)) 0 vecs 0 in
          let! (lens, sent') := send_messages fd n' (S i) msgs (if 0 <? total then sent + 1 else sent) in
          ret ((i, total) :: lens, sent')
  end.
(** [guest_msgs[i].msg_len = total] *)
Definition set_msg_len (msgs : list Z) (e : nat * Z) : list Z :=
  take (64 * fst e + 56) msgs ++ le_bytes 4 (uint32 (snd e)) ++ drop (64 * fst e + 60) msgs.

(** The number of messages is not compared with the size of the array. *)
Definition sys_sendmmsg : P unit :=
  let! r := registers in
  let! fd := translate_writable (int32 (rdi r)) in
  let vcnt := int32 (rdx r) in
  if (0 <? fd) && (0 <? vcnt) then
    host_array (1024 * MMSGHDR_SIZE) (vcnt * MMSGHDR_SIZE) ;;;
    let! msgs := on_mem (guest_read (rsi r) (vcnt * MMSGHDR_SIZE)) in
    let! (lens, sent) := send_messages fd (Z.to_nat vcnt) 0 msgs 0 in
    on_mem (guest_write (rsi r) (foldl set_msg_len msgs lens)) ;;;
    set_result sent
  else set_result (- EBADF).

(** ** Waiting *)

Definition POLLNVAL : Z := 0x20.
(** The descriptors to poll with their events, and where they are in the guest's array. *)
Fixpoint poll_collect (n : nat) (i p : Z) (acc : list (Z * Z * Z)) : P (list (Z * Z * Z)) :=
  match n with
  | O => ret (rev acc)
  | S n' =>
      let! e := on_mem (view_load (p + 8 * i) 8) in
      let! fd := translate_vfd (int32 (field32 e 0)) in
      if fd <? 0 then
        on_mem (view_store (p + 8 * i + 6) (le_bytes 2 POLLNVAL)) ;;;
        poll_collect n' (i + 1) p acc
      else if 256 <=? Z.of_nat (length acc) then throw OutOfRange
      else poll_collect n' (i + 1) p ((fd, le_value (take 2 (drop 4 e)), i) :: acc)
  end.
(** The first [n] results are copied back. *)
Fixpoint poll_copy (p : Z) (l : list (Z * Z * Z)) (revents : list Z) (n : nat) : P unit :=
  match n, l, revents with
  | S n', (_, _, i) :: l', v :: revents' =>
      on_mem (view_store (p + 8 * i + 6) (le_bytes 2 v)) ;;; poll_copy p l' revents' n'
  | _, _, _ => ret tt
  end.

Definition yield_with (result : Z) : P unit := let! _ := on_os (suspend_and_yield junk (result mod W64)) in ret tt.

(** [r_data] of the answer has the [revents] of each descriptor. *)
Definition sys_poll : P unit :=
  let! r := registers in
  let count := uint32 (rsi r) in
  let timeout := int32 (rdx r) in
  let! p := on_mem (writable_view (rdi r) (count * 8)) in
  let! array := on_mem (view_load p (count * 8)) in
  if (match poll_gate cb with Some f => negb (f array count timeout) | None => false end) then ret tt
  else
    let! l := poll_collect (Z.to_nat count) 0 p [] in
    (match l with
     | [] => set_result 0
     | _ =>
         let! n := call (HPoll (map fst l) (if forked then timeout else Z.min 1 timeout)) in
         if int32 (r_result n) <? 0 then set_errno
         else poll_copy p l (r_data n) (Z.to_nat (Z.min (r_result n) (Z.of_nat (length l)))) ;;; set_result (r_result n)
     end) ;;;
    let! r := registers in
    when (rax r =? 0) (yield_with (- EINTR)).

Definition SYS_epoll_wait : Z := 232.
Definition sys_epoll_wait : P unit :=
  let! r := registers in
  let vfd := int32 (rdi r) in
  let maxevents := Z.min (rdx r) 128 in
  let timeout := int32 (r10 r) in
  let! epollfd := translate_vfd vfd in
  if (match epoll_gate cb with Some f => negb (f vfd epollfd timeout) | None => false end) then ret tt
  else
    let! n := call (if preempt then HEpollPwait2 epollfd maxevents 25000000 else HEpollWait epollfd maxevents timeout) in
    let result := r_result n in
    let! timed_out := gets (fun s => timer_fired (calls s)) in
    if timed_out then throw (MachineTimeoutException "epoll_wait timed out" 0)
    else if 0 <? result then
      set_result result ;;;
      host_array 128 result ;;;
      on_mem (guest_write (rsi r) (take (Z.to_nat (result * EPOLL_EVENT_SIZE)) (r_data n)))
    else if result <? 0 then
      let! s := get in
      if errno (fhost (fds s)) =? EINTR then throw (MachineTimeoutException "epoll_wait interrupted" 0)
      else set_errno
    else if ((timeout <? 0) || (5000 <=? timeout)) && preempt then yield_with SYS_epoll_wait
    else set_result 0.

(** ** Clocks, limits and the rest *)

Definition sys_gettimeofday : P unit :=
  let! r := registers in
  let! n := call HGettimeofday in
  if int32 (r_result n) <? 0 then set_errno
  else on_mem (guest_write (rdi r) (r_data n)) ;;; set_result (r_result n).

Definition sys_time : P unit := let! n := call HTime in set_result (r_result n).

Definition CLOCK_REALTIME : Z := 0.
Definition CLOCK_MONOTONIC : Z := 1.
Definition sys_clock_gettime : P unit :=
  let! r := registers in
  let! n := call (HClockGettime (if int32 (rdi r) =? CLOCK_REALTIME then CLOCK_REALTIME else CLOCK_MONOTONIC)) in
  if int32 (r_result n) <? 0 then set_errno
  else on_mem (guest_write (rsi r) (r_data n)) ;;; set_result (r_result n).

Definition sys_clock_getres : P unit :=
  let! r := registers in
  let! n := call (HClockGetres (int32 (rdi r))) in
  if r_result n <? 0 then set_errno
  else when (negb (rsi r =? 0)) (on_mem (guest_write (rsi r) (r_data n))) ;;; set_result (r_result n).

Definition sys_clock_nanosleep : P unit :=
  let! r := registers in
  let! ts := on_mem (guest_read (rdx r) 16) in
  let! n := call (HClockNanosleep (int32 (rsi r)) ts) in
  if r_result n <? 0 then set_errno
  else when (negb (r10 r =? 0)) (on_mem (guest_write (r10 r) (r_data n))) ;;; set_result 0.

Definition sys_timerfd_settime : P unit :=
  let! r := registers in
  let! value := (if rdx r =? 0 then ret (zeros 32) else on_mem (guest_read (rdx r) 32)) in
  let! fd := translate_vfd (int32 (rdi r)) in
  if 0 <=? fd then
    let! n := call (HTimerfdSettime fd (int32 (rsi r)) value) in
    if r_result n <? 0 then set_errno
    else when (negb (r10 r =? 0)) (on_mem (guest_write (r10 r) (r_data n))) ;;; set_result 0
  else set_result (- EBADF).

(** The error of the host is not passed on. *)
Definition sys_getrandom : P unit :=
  let! r := registers in
  let bytes := uint32 (rsi r) in
  if bytes <=? 256 then
    let! n := call (HGetrandom bytes (int32 (rdx r .& 1))) in
    when (0 <? r_result n)
      (host_array 256 (r_result n) ;;; on_mem (guest_write (rdi r) (take (Z.to_nat (r_result n)) (r_data n)))) ;;;
    set_result (r_result n)
  else set_result (-1).

(** [struct rlimit64] with both members. *)
Definition rlimit (v : Z) : list Z := le_bytes 8 v ++ le_bytes 8 v.
Definition sys_prlimit64 : P unit :=
  let! r := registers in
  let oldptr := rdx r in
  let newptr := r10 r in
  if rsi r =? 0 then set_result (- ENOSYS)
  else if rsi r =? 3 then
    when (negb (oldptr =? 0)) (on_mem (guest_write oldptr (rlimit 0x400000))) ;;; set_result 0
  else if rsi r =? 7 then
    when (negb (oldptr =? 0)) (on_mem (guest_write oldptr (rlimit 16384)) ;;; set_result 0) ;;;
    when (negb (newptr =? 0))
      (let! lim := on_mem (guest_read newptr 16) in
       set_result (if 0xFFFF <? field64 lim 0 then - EINVAL else 0))
  else set_result (- ENOSYS).

Definition PR_SET_NAME : Z := 15.
Definition PR_GET_NAME : Z := 16.
(** The literal has eight bytes with its terminator, the guest may ask for sixteen. *)
Definition sys_prctl : P unit :=
  let! r := registers in
  let option := int32 (rdi r) in
  if option =? PR_GET_NAME then
    if 16 <? rdx r then set_result (- EINVAL)
    else
      host_array 8 (rdx r) ;;;
      on_mem (guest_write (rsi r) (take (Z.to_nat (rdx r)) (string_bytes "tinykvm" ++ [0]))) ;;;
      set_result 0
  else if option =? PR_SET_NAME then
    let! _ := on_mem (guest_cstring (rsi r) 16) in set_result 0
  else set_result (- EINVAL).

(** A member of [struct utsname]: a string in 65 bytes. *)
Definition uts_field (s : string) : list Z := string_bytes s ++ zeros (65 - String.length s).
Definition utsname : list Z :=
  uts_field "Linux" ++ uts_field "tinykvm" ++ uts_field "3.5.0" ++ uts_field "" ++ uts_field "x86_64" ++ uts_field "".
Definition sys_uname : P unit :=
  let! r := registers in
  let! ok := on_mem (safe_at (rdi r) 390) in
  if ok then on_mem (guest_write (rdi r) utsname) ;;; set_result 0
  else set_result (- EFAULT).

Definition sys_sched_getaffinity : P unit :=
  let! r := registers in
  on_mem (guest_write (rdx r) (le_bytes 8 1)) ;;; set_result 0.

(** Calls with a constant answer. *)
Definition sys_nanosleep : P unit := set_result 0.
Definition sys_getpid : P unit := set_result 0.
Definition sys_capget : P unit := set_result (- ENOSYS).
Definition sys_getgid : P unit := set_result 0.
Definition sys_getuid : P unit := set_result 0.
Definition sys_geteuid : P unit := set_result 0.
Definition sys_getegid : P unit := set_result 0.
Definition sys_getppid : P unit := set_result 0.
Definition sys_getpgrp : P unit := set_result 0.
Definition sys_getgroups : P unit := set_result (- ENOSYS).
Definition sys_sched_getparam : P unit := set_result 0.
Definition sys_sched_getscheduler : P unit := set_result 0.
Definition sys_sched_setscheduler : P unit := set_result 0.
Definition sys_arch_prctl : P unit := set_result (-22).
Definition sys_tkill : P unit := throw (MachineException "TKILL system call received" 0).
Definition sys_set_robust_list : P unit := set_result (- ENOSYS).
Definition sys_getrlimit : P unit := set_result (- ENOSYS).
Definition sys_faccessat : P unit := set_result (- ENOSYS).
Definition sys_faccessat2 : P unit := set_result 0.
Definition sys_fchown : P unit := set_result 0.
Definition sys_rseq : P unit := set_result 0.
Definition sys_sysinfo : P unit := set_result (- ENOSYS).
Definition sys_io_uring_setup : P unit := set_result (- ENOSYS).
Definition sys_unhandled (scall : Z) : P unit := set_result (- ENOSYS).
Definition sys_exit : P unit := on_os cpu_stop.

(** ** The table of [Machine::setup_linux_system_calls]

    By number.  The handlers of [FdCalls], [MemCalls] and [Threads] are not in it, nor those of
    exit and exit_group, which [setup_multithreading] replaces. *)
Definition io_table : list (Z * P unit) :=
  [(0, sys_read); (1, sys_write); (4, sys_stat); (5, sys_fstat); (6, sys_lstat); (7, sys_poll); (8, sys_lseek);
   (16, sys_ioctl); (17, sys_pread64); (18, sys_pwrite64); (20, sys_writev); (21, sys_access); (35, sys_nanosleep);
   (39, sys_getpid); (42, sys_connect); (44, sys_sendto); (45, sys_recvfrom); (46, sys_sendmsg); (47, sys_recvmsg);
   (49, sys_bind); (51, sys_getsockname); (52, sys_getpeername); (54, sys_setsockopt); (55, sys_getsockopt);
   (63, sys_uname); (73, sys_flock); (74, sys_fsync); (77, sys_ftruncate); (79, sys_getcwd); (82, sys_rename);
   (83, sys_mkdir); (87, sys_unlink); (88, sys_symlink); (89, sys_readlink); (91, sys_fchmod); (93, sys_fchown);
   (96, sys_gettimeofday); (97, sys_getrlimit); (99, sys_sysinfo); (102, sys_getuid); (104, sys_getgid);
   (107, sys_geteuid); (108, sys_getegid); (110, sys_getppid); (111, sys_getpgrp); (115, sys_getgroups);
   (125, sys_capget); (143, sys_sched_getparam); (144, sys_sched_setscheduler); (145, sys_sched_getscheduler);
   (157, sys_prctl); (158, sys_arch_prctl); (200, sys_tkill); (201, sys_time); (204, sys_sched_getaffinity);
   (217, sys_getdents64); (228, sys_clock_gettime); (229, sys_clock_getres); (230, sys_clock_nanosleep);
   (SYS_epoll_wait, sys_epoll_wait); (262, sys_newfstatat); (263, sys_unlinkat); (267, sys_readlinkat);
   (269, sys_faccessat); (273, sys_set_robust_list); (280, sys_utimensat); (281, sys_epoll_wait);
   (286, sys_timerfd_settime); (302, sys_prlimit64); (307, sys_sendmmsg); (318, sys_getrandom); (332, sys_statx);
   (334, sys_rseq); (439, sys_faccessat2)].
(** Installed with [unsafe_syscalls], in place of what is there. *)
Definition unsafe_table : list (Z * P unit) :=
  [(88, sys_symlink_unsafe); (81, sys_fchdir); (425, sys_io_uring_setup); (294, sys_inotify_init1); (254, sys_inotify_add_watch)].
End io.
