(* ===== verification/IoSafety.v ===== *)
(** * What the system calls for input, output and files may ask of the host

    A handler of [IoCalls] runs in an environment that it must not leave: paths only as the
    embedder's filters grant them, data only to descriptors that are writable, addresses only
    as the embedder validates them; no array on the stack of the host is overrun; and of the
    registers only RAX changes.  [tame] says all of this about a piece of a handler and is
    proved by composition.  Where a handler breaks one of the rules, an example shows it, and
    the rule is waived for that number in [mode_of]. *)
From stdpp Require Import base tactics list numbers strings gmap.
From Stdlib Require Import ZArith Lia Bool.
From S2P Require Import Prelude Cpu Fds FdCalls Threads IoCalls.
Local Open Scope Z_scope.
Local Open Scope list_scope.

(** ** The rules *)

(** A real descriptor that an entry of the table makes writable, or none. *)
Definition writable_fd (f : FileDescriptors) (fd : Z) : Prop :=
  fd = -1 \/ exists v e, m_fds f !! v = Some e /\ is_writable e = true /\ real_fd e = fd.

(** What the embedder's callbacks and the descriptor table allow. *)
Definition granted (cb : IoCallbacks) (f : FileDescriptors) (c : hcall) : Prop :=
  let may_read p := exists g, readable cb g = Some p in
  let may_write p := exists g, writable cb g = Some p in
  let may_connect fd a := exists g b n, connectable cb fd g = Some b /\ a = take n b in
  match c with
  | HStat p | HLstat p | HAccess p _ | HReadlinkat _ p _ => may_read p
  | HFstatat _ p _ | HStatx _ p _ _ => p = ""%string \/ may_read p
  | HMkdir p _ | HUnlink p | HUnlinkat _ p _ | HUtimensat _ p _ _ | HInotifyAdd _ p _ => may_write p
  | HRename p q => may_write p /\ may_write q
  | HSymlink p q => may_read p /\ may_write q
  | HConnect fd a => may_connect fd a
  | HBind fd a => exists g b n, validate_socket_address (bind_socket cb) fd g = Some b /\ a = take n b
  | HSendmsg fd _ None _ => writable_fd f fd
  | HSendmsg fd _ (Some a) _ => writable_fd f fd /\ may_connect fd a
  | HWrite fd _ | HPwrite fd _ _ | HFtruncate fd _ | HFchmod fd _ | HFutimens fd _ => writable_fd f fd
  | _ => True
  end.

(** Nothing but RAX, and that is a 64-bit value. *)
Definition only_rax (r r' : x86regs) : Prop := exists v, r' = set_rax r v /\ (u64 (rax r) -> u64 v).

(** Entries are never taken away, and the working directory stays. *)
Definition grows (f f' : FileDescriptors) : Prop :=
  (forall v e, m_fds f !! v = Some e -> m_fds f' !! v = Some e) /\ m_cwd_fd f' = m_cwd_fd f.

(** Which of the rules hold for a handler: no undefined behaviour, only RAX, only what is granted. *)
Record mode := mkMode { strict : bool; kept : bool; filtered : bool }.

(** Guest memory: an invariant that every operation keeps, and no undefined behaviour. *)
Class GuestIoLaws (G : Type) `{gm : GuestMemory G} `{gs : GuestStrings G} `{gb : GuestBuffers G} := {
  guest_ok : G -> Prop;
  decent {A} (m : M G A) : Prop := forall g, guest_ok g -> wp m (fun _ g' => guest_ok g') (fun e g' => guest_ok g' /\ orderly e) g;
  decent_write a l : decent (guest_write a l);
  decent_read a n : decent (guest_read a n);
  decent_cstring a n : decent (guest_cstring a n);
  decent_gather a n : decent (gather_buffers a n);
  decent_writable a n : decent (writable_buffers a n);
  decent_data l : decent (buffers_data l);
  decent_fill l d : decent (fill_buffers l d);
  decent_view a n : decent (writable_view a n);
  decent_load p n : decent (view_load p n);
  decent_store p d : decent (view_store p d);
  decent_pieces a n : decent (memory_pieces a n);
  decent_safe a n : decent (safe_at a n) }.

Create HintDb decent discriminated.
#[export] Hint Resolve decent_write decent_read decent_cstring decent_gather decent_writable decent_data decent_fill
  decent_view decent_load decent_store decent_pieces decent_safe : decent.

Lemma grows_refl f : grows f f.
Proof. by split. Qed.
Lemma grows_trans f1 f2 f3 : grows f1 f2 -> grows f2 f3 -> grows f1 f3.
Proof. intros [H1 H2] [H3 H4]. split; [auto|congruence]. Qed.
Lemma writable_grows f f' fd : grows f f' -> writable_fd f fd -> writable_fd f' fd.
Proof. intros [Hg _] [->|(v & e & H1 & H2 & H3)]; [by left|]. right. exists v, e. auto. Qed.
Lemma granted_grows cb f f' c : grows f f' -> granted cb f c -> granted cb f' c.
Proof.
  intros Hg. destruct c; simpl; try done; try (by apply writable_grows).
  - destruct addr; [|by apply writable_grows]. intros [? ?]. split; [by eapply writable_grows|done].
Qed.
Lemma only_rax_refl r : only_rax r r.
Proof. exists (rax r). split; [by destruct r|done]. Qed.
Lemma only_rax_trans r1 r2 r3 : only_rax r1 r2 -> only_rax r2 r3 -> only_rax r1 r3.
Proof. intros (v & -> & Hv) (w & -> & Hw). exists w. split; [done|]. intros H. by apply Hw, Hv. Qed.

Section rules.
Context `{hf : HostFds} {fd_laws : HostFdLaws hf} `{hc : HostCalls} {hc_laws : HostCallLaws hc}
  {G : Type} `{gm : GuestMemory G} `{gs : GuestStrings G} `{gb : GuestBuffers G} {gl : GuestIoLaws G}.
Variables (cb : IoCallbacks) (junk : Junk) (foreign : gset Z).
Variable md : mode.
Notation find := (find_master (fd_cb cb)).
Implicit Types (f : FileDescriptors) (s : Sys (G := G)).

(** The state in which handlers run. *)
Record ready s : Prop := {
  rd_fds : exists L, fds_inv foreign L (fds s) /\ numbered find (fds s);
  rd_os : os_inv (os s);
  rd_guest : guest_ok (guest (os s)) }.

Record after s s' : Prop := {
  af_ready : ready s';
  af_grows : grows (fds s) (fds s');
  af_regs : kept md = true -> only_rax (regs (os s)) (regs (os s'));
  af_calls : exists l, calls s' = l ++ calls s /\ (filtered md = true -> Forall (granted cb (fds s')) l) }.

(** An exception of the program, or the numbers of the table have run out. *)
Definition sound (e : exn) s : Prop := orderly e \/ e = next_fd_overflow /\ INT_MAX <= m_next_fd (fds s).

(** From any state whose table has grown out of [f0]. *)
Definition tame (f0 : FileDescriptors) {A} (m : P (G := G) A) : Prop := forall s, ready s -> grows f0 (fds s) ->
  wp m (fun _ s' => after s s') (fun e s' => after s s' /\ (strict md = true -> sound e s')) s.

Lemma after_refl s : ready s -> after s s.
Proof. split; [done|apply grows_refl|intros _; apply only_rax_refl|]. exists []. by split. Qed.
Lemma after_trans s1 s2 s3 : after s1 s2 -> after s2 s3 -> after s1 s3.
Proof.
  intros [_ G1 R1 (l1 & C1 & T1)] [H2 G2 R2 (l2 & C2 & T2)]. split; [done|by eapply grows_trans| |].
  - intros Hk. eapply only_rax_trans; auto.
  - exists (l2 ++ l1). rewrite C2, C1, app_assoc. split; [done|]. intros Hf. apply Forall_app. split; [auto|].
    eapply Forall_impl; [by apply T1|]. intros c. by apply granted_grows.
Qed.

Lemma tame_grow f0 f1 {A} (m : P A) : grows f0 f1 -> tame f0 m -> tame f1 m.
Proof. intros Hg Hm s Hs Hf. apply Hm; [done|by eapply grows_trans]. Qed.
Lemma tame_ret f0 {A} (a : A) : tame f0 (ret a).
Proof. intros s Hs _. apply wp_ret. by apply after_refl. Qed.
Lemma tame_throw f0 {A} e : (strict md = true -> orderly e) -> tame f0 (throw e : P A).
Proof. intros He s Hs _. apply wp_throw. split; [by apply after_refl|]. left. auto. Qed.
(** The second part may use that the state has moved on to the table [f1]. *)
Lemma tame_bind f0 {A B} (m : P A) (k : A -> P B) (Q : FileDescriptors -> A -> Prop) :
  (forall s, ready s -> grows f0 (fds s) -> wp m (fun a s' => after s s' /\ Q (fds s') a) (fun e s' => after s s' /\ (strict md = true -> sound e s')) s) ->
  (forall f1 a, grows f0 f1 -> Q f1 a -> tame f1 (k a)) -> tame f0 (bind m k).
Proof.
  intros Hm Hk s Hs Hf. apply wp_bind. eapply wp_mono; [by apply Hm| |done].
  intros a s' [Ha Hq]. assert (grows f0 (fds s')) as Hf' by (eapply grows_trans; [exact Hf|apply Ha]).
  eapply wp_mono; [apply (Hk (fds s')); [done|done|apply Ha|apply grows_refl]|..].
  - intros b s2 H2. by eapply after_trans.
  - intros e s2 [H2 He]. split; [by eapply after_trans|done].
Qed.
Lemma tame_seq f0 {A B} (m : P A) (k : A -> P B) : tame f0 m -> (forall a, tame f0 (k a)) -> tame f0 (bind m k).
Proof.
  intros Hm Hk. apply (tame_bind f0 m k (fun _ _ => True)).
  - intros s Hs Hf. eapply wp_mono; [by apply Hm|by split|done].
  - intros f1 a Hg _. by apply (tame_grow f0).
Qed.
Lemma tame_bind_if f0 {A B} (b : bool) (m1 m2 : P A) (k : A -> P B) :
  (b = true -> tame f0 (bind m1 k)) -> (b = false -> tame f0 (bind m2 k)) -> tame f0 (bind (if b then m1 else m2) k).
Proof. destruct b; auto. Qed.
Lemma tame_try f0 {A} (m h : P A) : tame f0 m -> tame f0 h -> tame f0 (try_catch m h).
Proof.
  intros Hm Hh s Hs Hf. apply wp_catch. eapply wp_mono; [by apply Hm|done|]. intros e s' [Ha He].
  assert (wp h (fun _ s' => after s s') (fun e s' => after s s' /\ (strict md = true -> sound e s')) s') as Hw.
  { eapply wp_mono; [apply Hh; [apply Ha|eapply grows_trans; [exact Hf|apply Ha]]|..].
    - intros b s2 H2. by eapply after_trans.
    - intros e' s2 [H2 He']. split; [by eapply after_trans|done]. }
  destruct e; try exact Hw; by apply wp_throw.
Qed.

(** *** The pieces of the handlers *)

Lemma after_os s o : after s s -> guest_ok (guest o) -> os_inv o -> (kept md = true -> only_rax (regs (os s)) (regs o)) ->
  after s (mkSys o (fds s) (calls s)).
Proof. intros [[H1 H2 H3] _ _ Hc] Hg Ho Hr. split; [by split|apply grows_refl|done|exact Hc]. Qed.
Lemma tame_mem f0 {A} (m : M G A) : decent m -> tame f0 (on_mem m).
Proof.
  intros Hm s Hs Hf. specialize (Hm _ (rd_guest _ Hs)). unfold wp, on_mem, on_os, on_guest in *.
  destruct (m (guest (os s))) as [[a|e] g']; [|destruct Hm as [Hm He]; split; [|by left]];
    (apply after_os; [by apply after_refl|done|by destruct Hs|intros _; apply only_rax_refl]).
Qed.
Lemma tame_registers f0 : tame f0 registers.
Proof. intros s Hs _. apply wp_gets. by apply after_refl. Qed.
Lemma tame_get f0 : tame f0 get.
Proof. intros s Hs _. apply wp_get. by apply after_refl. Qed.
Lemma tame_gets f0 {A} (g : Sys -> A) : tame f0 (gets g).
Proof. intros s Hs _. apply wp_gets. by apply after_refl. Qed.
Lemma tame_result f0 v : tame f0 (set_result v).
Proof.
  intros s Hs _. unfold wp, set_result, on_os, Threads.return_rax, set_regs, bind, get, modify.
  apply after_os; [by apply after_refl|by destruct Hs|by destruct Hs|]. intros _. exists (v mod W64).
  split; [done|]. intros _. by apply Z.mod_pos_bound.
Qed.
Lemma tame_errno f0 : tame f0 set_errno.
Proof. apply tame_seq; [apply tame_get|]. intros. apply tame_result. Qed.
Lemma tame_array f0 size n : (strict md = true -> n <= size) -> tame f0 (host_array size n).
Proof. intros Hn. unfold host_array. destruct (_ <=? _) eqn:E; [apply tame_ret|]. apply tame_throw. intros H. apply Hn in H. lia. Qed.

(** The host's answer. *)
Definition answered (c : hcall) (r : reply) : Prop :=
  r = mkReply (-1) [] [] \/ 0 <= r_result r /\ (forall n, room c = Some n -> r_result r <= n) /\ Z.of_nat (length (r_name r)) <= 128.

Lemma answered_room c r n : answered c r -> room c = Some n -> 0 <= r_result r -> r_result r <= n.
Proof. intros [->|(_ & H & _)] Hn Hr; [done|auto]. Qed.
Lemma answered_name c r : answered c r -> Z.of_nat (length (r_name r)) <= 128.
Proof. intros [->|(_ & _ & H)]; [simpl; lia|done]. Qed.

Lemma ready_errno s e : ready s -> ready (mkSys (os s) (set_fhost (fds s) (with_errno e (fhost (fds s)))) (calls s)).
Proof. intros [(L & H1 & H2) H3 H4]. split; [|done|done]. exists L. split; [by apply inv_errno|done]. Qed.
Lemma call_wp s c : ready s -> (filtered md = true -> granted cb (fds s) c) ->
  wp (call c) (fun r s' => after s s' /\ answered c r) (fun _ _ => False) s.
Proof.
  intros Hs Hc. unfold call. wp_step. wp_step. wp_step. wp_step. destruct (answer (calls s) c) as [r|e] eqn:E.
  - wp_step. split.
    + split; [destruct Hs; by split|apply grows_refl|intros _; apply only_rax_refl|]. exists [c]. split; [done|]. intros Hf.
      constructor; [by apply Hc|constructor].
    + right. split; [by eapply answer_nonneg|]. split; [intros n; by eapply answer_room|by eapply answer_name].
  - wp_step. unfold wp, on_fds, fails, upd_host, upd_fds, bind, modify, ret. split; [|by left].
    split; [by apply (ready_errno (mkSys (os s) (fds s) (c :: calls s))); destruct Hs|by split|intros _; apply only_rax_refl|].
    exists [c]. split; [done|]. intros Hf. constructor; [|constructor]. eapply granted_grows; [|by apply Hc]. by split.
Qed.
Lemma tame_call f0 {B} c (k : reply -> P B) : (filtered md = true -> granted cb f0 c) ->
  (forall r, answered c r -> tame f0 (k r)) -> tame f0 (bind (call c) k).
Proof.
  intros Hc Hk. apply (tame_bind f0 (call c) k (fun _ r => answered c r)).
  - intros s Hs Hf. eapply wp_mono; [apply call_wp; [done|]|done|done]. intros H. eapply granted_grows; [exact Hf|auto].
  - intros f1 r Hg Hr. by apply (tame_grow f0), Hk.
Qed.
Lemma tame_call_result f0 c : (filtered md = true -> granted cb f0 c) -> tame f0 (call_result c).
Proof. intros Hc. apply tame_call; [done|]. intros r _. destruct (_ <? _); [apply tame_errno|apply tame_result]. Qed.
Lemma tame_call_zero f0 c : (filtered md = true -> granted cb f0 c) -> tame f0 (call_zero c).
Proof. intros Hc. apply tame_call; [done|]. intros r _. destruct (_ <? _); [apply tame_errno|apply tame_result]. Qed.
Lemma tame_call_int f0 c : (filtered md = true -> granted cb f0 c) -> tame f0 (call_int c).
Proof. intros Hc. apply tame_call; [done|]. intros r _. destruct (_ <? _); [apply tame_errno|apply tame_result]. Qed.
Lemma tame_print f0 data : tame f0 (print data).
Proof. apply tame_call; [done|]. intros r _. apply tame_ret. Qed.
Lemma tame_for_each f0 {A} (l : list A) body : (forall x, tame f0 (body x)) -> tame f0 (for_each l body).
Proof. intros Hb. induction l; simpl; [apply tame_ret|]. by apply tame_seq. Qed.

(** Translating throws runtime errors only (and [OutOfFuel], which [translate_wp] excludes). *)
Lemma host_new_quiet rq f : wp (host_new rq) (fun _ _ => True) (fun _ _ => False) f.
Proof. unfold host_new, fails, upd_host, upd_fds. wp_steps; done. Qed.
Lemma epoll_ctl_quiet epfd op fd f : wp (host_epoll_ctl epfd op fd) (fun _ _ => True) (fun _ _ => False) f.
Proof.
  unfold host_epoll_ctl, fails, set_interest, upd_host, upd_fds. wp_step. wp_step. case_decide; [|by wp_steps].
  destruct (epoll_refusal _ _ _ _); [by wp_steps|].
  wp_step; [case_decide; by wp_steps|]. wp_step; [case_decide; by wp_steps|]. wp_step; [case_decide; by wp_steps|by wp_steps].
Qed.
Lemma translate_throws fuel vfd f : wp (translate_fuel find fuel vfd) (fun _ _ => True) (fun e _ => orderly e \/ e = OutOfFuel) f.
Proof.
  revert vfd f. induction fuel as [|fuel IH]; intros vfd f; cbn [translate_fuel]; unfold runtime_error, set_entry, upd_fds.
  all: wp_step; wp_step; destruct (m_fds f !! vfd); [by wp_step|].
  all: destruct find as [fnd|] eqn:Ef; [|by wp_step]; try rewrite <- Ef; destruct (fnd vfd); [|by wp_step].
  all: destruct (m_epoll_fds f !! vfd); [|by wp_steps]; destruct (managed_alias _ _ _); [by wp_steps|].
  all: wp_step; eapply wp_mono; [apply host_new_quiet| |done]; intros nfd f1 _; wp_step; [wp_step; by left|]; wp_step; wp_step.
  - wp_step. by right.
  - wp_step. eapply (wp_mono _ (fun _ _ => True) _ (fun e _ => orderly e \/ e = OutOfFuel)); [|intros; by wp_step|done].
    apply (wp_for_each (fun _ _ => True)); [done| |done]. intros dn m rest t _ _. wp_step.
    eapply wp_mono; [rewrite <- Ef in IH; apply IH| |done]. intros r t' _. wp_step; [wp_step; by left|]. wp_step.
    eapply wp_mono; [apply epoll_ctl_quiet| |done]. intros res t2 _. wp_step. wp_step. wp_step; wp_step; [by left|done].
Qed.

(** The table grew by entries of the master. *)
Lemma after_grown s L f : ready s -> fds_inv foreign L f -> numbered find (fds s) -> grown (known find) ∅ (fds s) f ->
  after s (mkSys (os s) f (calls s)).
Proof.
  intros [_ Ho Hg] Hi Hn Hgr. split; [split; [|done|done]|split|intros _; apply only_rax_refl|by exists []].
  - exists L. split; [done|by eapply numbered_grown].
  - apply Hgr.
  - cbn [fds]. by rewrite <- (g_rest _ _ _ _ Hgr).
Qed.
Lemma tame_translate f0 vfd : tame f0 (translate_vfd cb vfd).
Proof.
  intros s Hs Hf. pose proof (rd_fds _ Hs) as (L & Hi & Hn).
  assert (wp (translate find vfd) (fun _ _ => True) (fun e _ => orderly e \/ e = OutOfFuel) (fds s)) as Ht
    by (unfold translate; wp_step; wp_step; apply translate_throws).
  pose proof (wp_both _ _ _ _ _ _ (translate_wp find foreign L vfd (fds s) Hi) Ht) as H. clear Ht.
  unfold wp, translate_vfd, on_fds in *. destruct (translate find vfd (fds s)) as [[fd|e] f1].
  - destruct H as [(Hi1 & Hg & _) _]. by eapply after_grown.
  - destruct H as [(Hne & Hi1 & Hg) He]. split; [by eapply after_grown|]. intros _. left. by destruct He.
Qed.
Lemma writable_wp s vfd : ready s ->
  wp (translate_writable cb vfd) (fun fd s' => after s s' /\ writable_fd (fds s') fd) (fun e s' => after s s' /\ orderly e) s.
Proof.
  intros Hs. pose proof (rd_fds _ Hs) as (L & Hi & Hn). unfold wp, translate_writable, on_fds, translate_writable_vfd, bind, get, runtime_error.
  assert (after s (mkSys (os s) (fds s) (calls s))) as Hsame by (destruct s; by apply after_refl).
  destruct (m_fds (fds s) !! vfd) as [e|] eqn:Ev.
  - destruct (is_writable e) eqn:Ew; simpl; split; [done| |done|done]. right. by exists vfd, e.
  - destruct find as [fnd|] eqn:Ef; [|simpl; split; [done|by left]]. destruct (fnd vfd) as [en|] eqn:Ee; [|simpl; split; [done|by left]].
    destruct (is_writable en) eqn:Ew; simpl; [|done]. split.
    + apply (after_grown s (L ∪ displaced (m_fds (fds s)) vfd)); [done|by apply inv_insert_forked|by rewrite Ef|].
      apply grown_entry; [done|]. exists fnd. rewrite Ee. by eauto.
    + right. exists vfd. eexists. cbn [fds set_fds m_fds]. rewrite lookup_insert_eq. by split_and!.
Qed.
Lemma tame_writable f0 {B} vfd (k : Z -> P B) : (forall f1 fd, grows f0 f1 -> writable_fd f1 fd -> tame f1 (k fd)) ->
  tame f0 (bind (translate_writable cb vfd) k).
Proof.
  intros Hk. apply (tame_bind f0 _ _ writable_fd); [|done]. intros s Hs _.
  eapply wp_mono; [by apply writable_wp|done|]. intros e s' [? ?]. split; [done|by left].
Qed.
Lemma tame_cwd f0 {B} (k : Z -> P B) : (forall fd, fd = m_cwd_fd f0 -> tame f0 (k fd)) -> tame f0 (bind cwd_fd k).
Proof.
  intros Hk. apply (tame_bind f0 _ _ (fun _ fd => fd = m_cwd_fd f0)).
  - intros s Hs [_ Hf]. apply wp_gets. split; [by apply after_refl|done].
  - intros f1 fd Hg E. by apply (tame_grow f0), Hk.
Qed.
Lemma tame_yield f0 v : kept md = false -> tame f0 (yield_with junk v).
Proof.
  intros Hk s Hs _. unfold yield_with. apply wp_bind. pose proof (yield_guest junk (v mod W64) (os s) (rd_os _ Hs)) as H.
  unfold wp in H. unfold wp at 1, on_os. destruct (suspend_and_yield junk (v mod W64) (os s)) as [[b|e] o]; [|done].
  destruct H as [Ho Hg]. apply wp_ret. apply after_os; [by apply after_refl|rewrite Hg; by destruct Hs|done|congruence].
Qed.

(** A change of the table alone. *)
Lemma after_fds s f : ready s -> (exists L, fds_inv foreign L f /\ numbered find f) -> grows (fds s) f ->
  after s (mkSys (os s) f (calls s)).
Proof. intros [_ Ho Hg] Hf Hgr. split; [by split|done|intros _; apply only_rax_refl|by exists []]. Qed.
Lemma tame_assoc f0 {A B C} (m : P A) (k : A -> P B) (j : B -> P C) :
  tame f0 (bind (bind m k) j) -> tame f0 (bind m (fun a => bind (k a) j)).
Proof. intros H s Hs Hf. specialize (H s Hs Hf). unfold wp, bind in *. by destruct (m s) as [[] ?]. Qed.
Lemma tame_managed f0 rq w : tame f0 (let! fd := on_fds (host_new rq) in on_fds (manage fd w)).
Proof.
  intros s Hs _. pose proof (rd_fds _ Hs) as (L & Hi & Hn).
  assert (wp (let! fd := host_new rq in manage fd w) (fun _ f => (exists L, fds_inv foreign L f /\ numbered find f) /\ grows (fds s) f)
    (fun e f => ((exists L, fds_inv foreign L f /\ numbered find f) /\ grows (fds s) f) /\
       (orderly e \/ e = next_fd_overflow /\ INT_MAX <= m_next_fd f)) (fds s)) as H.
  { wp_step. eapply host_new_wp; [done|..].
    - intros e He. apply wp_throw. split_and!; [by exists L|by split|by left].
    - intros fd Hfd Ho Hi1. destruct (Hn (m_next_fd (fds s))) as [Hnone _]; [lia|]. eapply manage_wp; [done|set_solver|..].
      + intros _ Hi2. split; [eexists; split; [done|]|split; [|done]].
        * intros v Hv. simpl in *. rewrite lookup_insert_ne by lia. apply Hn. lia.
        * intros v e He. simpl. rewrite lookup_insert_ne; [done|]. simpl in *. congruence.
      + intros e He Hi2. split_and!; [by eexists|by split|by left].
      + intros Hmax. split_and!; [by eexists|by split|by right]. }
  unfold sound, wp, bind, on_fds in *. destruct (host_new rq (fds s)) as [[fd|e] f1]; simpl.
  - destruct (manage fd w f1) as [[v|e] f2]; [|destruct H as [H He]; split; [|done]]; destruct H; by apply after_fds.
  - destruct H as [[? ?] ?]. split; [by apply after_fds|done].
Qed.

(** *** The handlers *)

Create HintDb tame discriminated.
Ltac tame_step :=
  match goal with
  | |- tame _ (bind (call _) _) => apply tame_call; [|intros ? ?]
  | |- tame _ (bind (translate_writable _ _) _) => apply tame_writable; intros ? ? ? ?
  | |- tame _ (bind cwd_fd _) => apply tame_cwd; intros ? ?
  | |- tame _ (bind (dir_of _ _) _) => unfold dir_of; apply tame_bind_if; intros ?
  | |- tame _ (bind (if _ then _ else _) _) => apply tame_bind_if; intros ?
  | |- tame _ (bind _ _) => apply tame_seq; [|intros ?]
  | |- tame _ (if ?b then _ else _) => destruct b eqn:?
  | |- tame _ (match ?x with _ => _ end) => destruct x eqn:?
  | |- tame _ (when _ _) => unfold when
  | |- tame _ (on_mem _) => apply tame_mem; solve [auto with decent]
  | |- tame _ registers => apply tame_registers
  | |- tame _ (translate_vfd _ _) => apply tame_translate
  | |- tame _ (set_result _) => apply tame_result
  | |- tame _ set_errno => apply tame_errno
  | |- tame _ (call_result _) => apply tame_call_result
  | |- tame _ (call_zero _) => apply tame_call_zero
  | |- tame _ (call_int _) => apply tame_call_int
  | |- tame _ (host_array _ _) => apply tame_array
  | |- tame _ (or_ebadf _) => apply tame_try
  | |- tame _ (or_minus_one _) => apply tame_try
  | |- tame _ (ret _) => apply tame_ret
  | |- tame _ (throw _) => apply tame_throw; first [done|intros; congruence]
  | |- tame _ (print _) => apply tame_print
  | |- tame _ (for_each _ _) => apply tame_for_each; intros ?
  | |- tame _ (gets _) => apply tame_gets
  | |- tame _ get => apply tame_get
  | |- tame _ (cstring _) => unfold cstring
  | |- tame _ (stat_result _ _) => unfold stat_result
  | |- tame _ (sockaddr _ _) => unfold sockaddr
  | |- tame _ (give_address _ _ _) => unfold give_address
  | |- tame _ _ => solve [auto with tame nocore]
  end.
(** What is asked of the host is granted; arrays are large enough. *)
Ltac tame_side :=
  match goal with
  | |- filtered md = true -> _ => intros _; simpl; first [solve [eauto 7]|left; by apply String.eqb_eq|congruence]
  | |- strict md = true -> _ => intros _; unfold PATH_MAX, SOCKADDR_SIZE in *;
      repeat match goal with
      | H : answered _ _ |- _ => pose proof (answered_name _ _ H); try pose proof (answered_room _ _ _ H eq_refl); clear H
      end; lia
  end.
Ltac tame := repeat (tame_step; cbn beta iota zeta); try solve [tame_side].

(** Loops. *)
Lemma tame_print_vectors f0 n g w : tame f0 (print_vectors n g w).
Proof. revert g w. induction n as [|n IH]; intros g w; cbn [print_vectors]; tame. Qed.
Lemma tame_vectors f0 op n i vecs : (forall a l, decent (op a l)) -> tame f0 (gather_vectors op n i vecs).
Proof. intros Hop. revert i. induction n as [|n IH]; intros i; cbn [gather_vectors]; tame. Qed.
Lemma tame_gather_vectors f0 n i vecs : tame f0 (gather_vectors gather_buffers n i vecs).
Proof. apply tame_vectors. auto with decent. Qed.
Lemma tame_writable_vectors f0 n i vecs : tame f0 (gather_vectors writable_buffers n i vecs).
Proof. apply tame_vectors. auto with decent. Qed.
Lemma tame_send_vectors f0 fd n i vecs w : writable_fd f0 fd -> tame f0 (send_vectors fd n i vecs w).
Proof. intros Hw. revert i w. induction n as [|n IH]; intros i w; cbn [send_vectors]; tame. Qed.
Lemma tame_send_messages f0 fd n i msgs w : writable_fd f0 fd -> strict md = false -> tame f0 (send_messages fd n i msgs w).
Proof.
  intros Hw Hs. revert i w. induction n as [|n IH]; intros i w; cbn [send_messages]; tame. by apply tame_send_vectors.
Qed.
Lemma tame_poll_collect f0 n i p acc : tame f0 (poll_collect cb n i p acc).
Proof. revert i acc. induction n as [|n IH]; intros i acc; cbn [poll_collect]; tame. Qed.
Lemma tame_poll_copy f0 p l rev n : tame f0 (poll_copy p l rev n).
Proof.
  revert rev n. induction l as [|[[fd ev] i] l IH]; intros rev n; destruct n, rev; simpl; try apply tame_ret. tame.
Qed.
#[local] Hint Resolve tame_print_vectors tame_gather_vectors tame_writable_vectors tame_send_messages tame_poll_collect tame_poll_copy : tame.

Lemma tame_sys_read f0 : tame f0 (sys_read cb).
Proof. unfold sys_read. tame. Qed.
Lemma tame_sys_pread64 f0 : tame f0 (sys_pread64 cb).
Proof. unfold sys_pread64. tame. Qed.
Lemma tame_sys_pwrite64 f0 : tame f0 (sys_pwrite64 cb).
Proof. unfold sys_pwrite64. tame. Qed.
Lemma tame_sys_writev f0 : tame f0 (sys_writev cb).
Proof. unfold sys_writev. tame. Qed.
Lemma tame_sys_lseek f0 : tame f0 (sys_lseek cb).
Proof. unfold sys_lseek. tame. Qed.
Lemma tame_sys_fsync f0 : tame f0 (sys_fsync cb).
Proof. unfold sys_fsync. tame. Qed.
Lemma tame_sys_ftruncate f0 : tame f0 (sys_ftruncate cb).
Proof. unfold sys_ftruncate. tame. Qed.
Lemma tame_sys_fchmod f0 : tame f0 (sys_fchmod cb).
Proof. unfold sys_fchmod. tame. Qed.
Lemma tame_sys_flock f0 : tame f0 (sys_flock cb).
Proof. unfold sys_flock. tame. Qed.
Lemma tame_sys_ioctl f0 : tame f0 (sys_ioctl cb).
Proof. unfold sys_ioctl. tame. Qed.
Lemma tame_sys_stat f0 : tame f0 (sys_stat cb).
Proof. unfold sys_stat. tame. Qed.
Lemma tame_sys_fstat f0 : tame f0 (sys_fstat cb).
Proof. unfold sys_fstat. tame. Qed.
Lemma tame_sys_lstat f0 : tame f0 (sys_lstat cb).
Proof. unfold sys_lstat. tame. Qed.
Lemma tame_sys_access f0 : tame f0 (sys_access cb).
Proof. unfold sys_access. tame. Qed.
Lemma tame_sys_newfstatat f0 : tame f0 (sys_newfstatat cb).
Proof. unfold sys_newfstatat. tame. Qed.
Lemma tame_sys_mkdir f0 : tame f0 (sys_mkdir cb).
Proof. unfold sys_mkdir. tame. Qed.
Lemma tame_sys_rename f0 : tame f0 (sys_rename cb).
Proof. unfold sys_rename. tame. Qed.
Lemma tame_sys_unlink f0 : tame f0 (sys_unlink cb).
Proof. unfold sys_unlink. tame. Qed.
Lemma tame_sys_readlink f0 : tame f0 (sys_readlink cb).
Proof. unfold sys_readlink. tame. Qed.
Lemma tame_sys_readlinkat f0 : tame f0 (sys_readlinkat cb).
Proof. unfold sys_readlinkat. tame. Qed.
Lemma tame_sys_symlink f0 : tame f0 (sys_symlink).
Proof. unfold sys_symlink. tame. Qed.
Lemma tame_sys_symlink_unsafe f0 : tame f0 (sys_symlink_unsafe cb).
Proof. unfold sys_symlink_unsafe. tame. Qed.
Lemma tame_sys_utimensat f0 : filtered md = false -> tame f0 (sys_utimensat cb).
Proof. intros Hf. unfold sys_utimensat. tame; congruence. Qed.
(** Only the working directory itself is changed without its entry being writable. *)
Definition sets_cwd_times (r : x86regs) : Prop := int32 (rdi r) = AT_FDCWD /\ rsi r = 0.
Lemma utimensat_wp f0 s : ~ sets_cwd_times (regs (os s)) -> ready s -> grows f0 (fds s) ->
  wp (sys_utimensat cb) (fun _ s' => after s s') (fun e s' => after s s' /\ (strict md = true -> sound e s')) s.
Proof.
  intros Hn Hs Hg. unfold sys_utimensat. apply wp_bind, wp_gets. fold (regs (os s)) in *. unfold sets_cwd_times in Hn.
  refine ((_ : tame f0 _) s Hs Hg). generalize dependent (regs (os s)). intros r Hn.
  tame; exfalso; apply Hn; lia.
Qed.
Lemma tame_sys_getcwd f0 : tame f0 (sys_getcwd).
Proof. unfold sys_getcwd. tame. Qed.
Lemma tame_sys_fchdir f0 : tame f0 (sys_fchdir cb).
Proof. unfold sys_fchdir. tame. Qed.
Lemma tame_sys_inotify_add_watch f0 : tame f0 (sys_inotify_add_watch cb).
Proof. unfold sys_inotify_add_watch. tame. Qed.
Lemma tame_sys_setsockopt f0 : tame f0 (sys_setsockopt cb).
Proof. unfold sys_setsockopt. tame. Qed.
Lemma tame_sys_getsockopt f0 : tame f0 (sys_getsockopt cb).
Proof. unfold sys_getsockopt. tame. Qed.
Lemma tame_sys_connect f0 : tame f0 (sys_connect cb).
Proof. unfold sys_connect. tame. Qed.
Lemma tame_sys_bind f0 : tame f0 (sys_bind cb).
Proof. unfold sys_bind. tame. Qed.
Lemma tame_sys_sendto f0 : tame f0 (sys_sendto cb).
Proof. unfold sys_sendto. tame. Qed.
Lemma tame_sys_recvfrom f0 : tame f0 (sys_recvfrom cb).
Proof. unfold sys_recvfrom. tame. Qed.
Lemma tame_sys_recvmsg f0 : tame f0 (sys_recvmsg cb).
Proof. unfold sys_recvmsg. tame. Qed.
Lemma tame_sys_gettimeofday f0 : tame f0 (sys_gettimeofday).
Proof. unfold sys_gettimeofday. tame. Qed.
Lemma tame_sys_time f0 : tame f0 (sys_time).
Proof. unfold sys_time. tame. Qed.
Lemma tame_sys_clock_gettime f0 : tame f0 (sys_clock_gettime).
Proof. unfold sys_clock_gettime. tame. Qed.
Lemma tame_sys_clock_getres f0 : tame f0 (sys_clock_getres).
Proof. unfold sys_clock_getres. tame. Qed.
Lemma tame_sys_clock_nanosleep f0 : tame f0 (sys_clock_nanosleep).
Proof. unfold sys_clock_nanosleep. tame. Qed.
Lemma tame_sys_timerfd_settime f0 : tame f0 (sys_timerfd_settime cb).
Proof. unfold sys_timerfd_settime. tame. Qed.
Lemma tame_sys_getrandom f0 : tame f0 (sys_getrandom).
Proof. unfold sys_getrandom. tame. Qed.
Lemma tame_sys_prlimit64 f0 : tame f0 (sys_prlimit64).
Proof. unfold sys_prlimit64. tame. Qed.
Lemma tame_sys_uname f0 : tame f0 (sys_uname).
Proof. unfold sys_uname. tame. Qed.
Lemma tame_sys_sched_getaffinity f0 : tame f0 (sys_sched_getaffinity).
Proof. unfold sys_sched_getaffinity. tame. Qed.
Lemma tame_socket_name f0 c : (forall fd, granted cb f0 (c fd)) -> tame f0 (socket_name cb c).
Proof. intros Hc. unfold socket_name. tame. Qed.
Lemma tame_sys_inotify_init1 f0 : tame f0 sys_inotify_init1.
Proof. unfold sys_inotify_init1. apply tame_seq; [tame|]. intros r. apply tame_assoc, tame_seq; [apply tame_managed|]. intros v. tame. Qed.

(** The handlers that break one of the rules. *)
Lemma tame_sys_write f0 : strict md = false -> tame f0 (sys_write cb).
Proof. intros Hs. unfold sys_write. tame. Qed.
Lemma tame_sys_sendmsg f0 : strict md = false -> tame f0 (sys_sendmsg cb).
Proof. intros Hs. unfold sys_sendmsg. tame. all: intros; congruence. Qed.
Lemma tame_sys_sendmmsg f0 : strict md = false -> tame f0 (sys_sendmmsg cb).
Proof. intros Hs. unfold sys_sendmmsg. tame. all: intros; congruence. Qed.
Lemma tame_sys_prctl f0 : strict md = false -> tame f0 sys_prctl.
Proof. intros Hs. unfold sys_prctl. tame. all: intros; congruence. Qed.
Lemma tame_sys_getdents64 f0 : strict md = false -> tame f0 (sys_getdents64 cb).
Proof. intros Hs. unfold sys_getdents64. tame. all: intros; congruence. Qed.
Lemma tame_sys_statx f0 : filtered md = false -> tame f0 (sys_statx cb).
Proof. intros Hs. unfold sys_statx. tame. all: intros; congruence. Qed.
Lemma tame_sys_unlinkat f0 : filtered md = false -> tame f0 (sys_unlinkat cb).
Proof. intros Hs. unfold sys_unlinkat. tame. all: intros; congruence. Qed.
Lemma tame_sys_poll f0 forked : kept md = false -> tame f0 (sys_poll cb junk forked).
Proof. intros Hs. unfold sys_poll. tame. by apply tame_yield. Qed.
Lemma tame_sys_epoll_wait f0 preempt : kept md = false -> tame f0 (sys_epoll_wait cb junk preempt).
Proof. intros Hs. unfold sys_epoll_wait. destruct preempt; tame. all: by apply tame_yield. Qed.
End rules.

(** ** Every handler *)

(** The numbers whose handlers break a rule: write, sendmsg, prctl, getdents64 and sendmmsg leave
    an array of the host; poll, epoll_wait and epoll_pwait may switch threads; unlinkat and
    statx pass on a path that no filter granted, and utimensat changes the working directory. *)
Definition mode_of (n : Z) : mode :=
  mkMode (negb (bool_decide (n ∈ [1; 46; 157; 217; 307]))) (negb (bool_decide (n ∈ [7; 232; 281])))
    (negb (bool_decide (n ∈ [263; 280; 332]))).

Section all.
Context `{hf : HostFds} {fd_laws : HostFdLaws hf} `{hc : HostCalls} {hc_laws : HostCallLaws hc}
  {G : Type} `{gm : GuestMemory G} `{gs : GuestStrings G} `{gb : GuestBuffers G} {gl : GuestIoLaws G}.
Variables (cb : IoCallbacks) (junk : Junk) (forked preempt : bool) (foreign : gset Z).

Create HintDb tame_sys discriminated.
#[local] Hint Resolve tame_sys_read tame_sys_pread64 tame_sys_pwrite64 tame_sys_writev tame_sys_lseek tame_sys_fsync
  tame_sys_ftruncate tame_sys_fchmod tame_sys_flock tame_sys_ioctl tame_sys_stat tame_sys_fstat tame_sys_lstat tame_sys_access
  tame_sys_newfstatat tame_sys_mkdir tame_sys_rename tame_sys_unlink tame_sys_readlink tame_sys_readlinkat tame_sys_symlink
  tame_sys_symlink_unsafe tame_sys_utimensat tame_sys_getcwd tame_sys_fchdir tame_sys_inotify_add_watch tame_sys_inotify_init1
  tame_sys_setsockopt tame_sys_getsockopt tame_sys_connect tame_sys_bind tame_sys_sendto tame_sys_recvfrom tame_sys_recvmsg
  tame_sys_gettimeofday tame_sys_time tame_sys_clock_gettime tame_sys_clock_getres tame_sys_clock_nanosleep
  tame_sys_timerfd_settime tame_sys_getrandom tame_sys_prlimit64 tame_sys_uname tame_sys_sched_getaffinity
  tame_sys_write tame_sys_sendmsg tame_sys_sendmmsg tame_sys_prctl tame_sys_getdents64 tame_sys_statx tame_sys_unlinkat
  tame_sys_poll tame_sys_epoll_wait tame_result : tame_sys.

Lemma io_tame f0 n h : (n, h) ∈ io_table cb junk forked preempt ++ unsafe_table cb -> tame cb foreign (mode_of n) f0 h.
Proof.
  intros Hin. apply list_elem_of_In in Hin. cbn [io_table unsafe_table app List.In] in Hin.
  repeat (destruct Hin as [[= <- <-]|Hin]; [first [solve [auto with tame_sys]|apply tame_result|by apply tame_socket_name|by apply tame_throw|by apply tame_sys_inotify_init1]|]).
  done.
Qed.

Lemma in_table_utimensat h : (280, h) ∈ io_table cb junk forked preempt ++ unsafe_table cb -> h = sys_utimensat cb.
Proof.
  intros Hin. apply list_elem_of_In in Hin. cbn [io_table unsafe_table app List.In] in Hin.
  repeat (destruct Hin as [E|Hin]; [first [discriminate E|by injection E]|]). done.
Qed.

(** C35: a handler asks nothing of the host that the embedder has not granted.  Every path it
    passes on is one that the filter for reading or writing returned (or the empty one, for a
    descriptor), every address one that the callback for connecting or binding returned, and
    what changes a file, or sends data, goes to a descriptor whose entry is writable; whether
    the handler returns or throws.  The exceptions are the handlers of unlinkat and statx, and
    utimensat of AT_FDCWD without a path, which sets the times of the working directory, whose
    descriptor was opened for reading ([utimensat_changes_cwd]). *)
Theorem io_calls_granted n h s : (n, h) ∈ io_table cb junk forked preempt ++ unsafe_table cb -> n ∉ [263; 332] ->
  ~ (n = 280 /\ sets_cwd_times (regs (os s))) -> ready cb foreign s ->
  wp h (fun _ s' => exists l, calls s' = l ++ calls s /\ Forall (granted cb (fds s')) l)
    (fun _ s' => exists l, calls s' = l ++ calls s /\ Forall (granted cb (fds s')) l) s.
Proof.
  intros Hin Hn Ht Hs.
  assert (exists md, filtered md = true /\ wp h (fun _ s' => after cb foreign md s s') (fun e s' => after cb foreign md s s' /\ (strict md = true -> sound e s')) s)
    as (md & Hf & Hw).
  { destruct (decide (n = 280)) as [->|Hne].
    - rewrite (in_table_utimensat h Hin). exists (mkMode true true true). split; [done|]. apply (utimensat_wp _ _ _ (fds s)); [tauto|done|apply grows_refl].
    - exists (mode_of n). split; [simpl; rewrite bool_decide_eq_false_2; [done|set_solver]|]. by apply (io_tame (fds s) n h Hin s Hs), grows_refl. }
  eapply wp_mono; [exact Hw|..].
  - intros a s1 [_ _ _ (l & E & Hl)]. eauto.
  - intros a s1 [[_ _ _ (l & E & Hl)] _]. eauto.
Qed.

(** C36: a handler keeps the state well formed (descriptor table, threads, guest memory), never
    takes an entry away, and changes no register but RAX, which stays a 64-bit value, unless it
    is poll or epoll_wait; it does not read or write outside of its arrays and does not run out
    of fuel, so that an exception is one of the program, unless it is write, sendmsg, prctl,
    getdents64 or sendmmsg, or the [int] counter of the descriptor table has run out. *)
Theorem io_calls_contained n h s : (n, h) ∈ io_table cb junk forked preempt ++ unsafe_table cb -> ready cb foreign s ->
  let kept_well s' := ready cb foreign s' /\ grows (fds s) (fds s') /\
    (n ∉ [7; 232; 281] -> only_rax (regs (os s)) (regs (os s'))) in
  wp h (fun _ s' => kept_well s') (fun e s' => kept_well s' /\ (n ∉ [1; 46; 157; 217; 307] -> sound e s')) s.
Proof.
  intros Hin Hs kept_well.
  assert (forall s', after cb foreign (mode_of n) s s' -> kept_well s') as Hk.
  { intros s' [Hr Hg Ho _]. split_and!; [done|done|]. intros Hn. apply Ho. simpl. by rewrite bool_decide_eq_false_2. }
  eapply wp_mono; [by apply (io_tame (fds s) n h Hin s Hs), grows_refl|..].
  - intros a s1 Ha. auto.
  - intros e s' [Ha He]. split; [auto|]. intros Hn. apply He. simpl. by rewrite bool_decide_eq_false_2.
Qed.
End all.

(** ** A guest with bytes in a map, and a host *)

Definition bytes_string (l : list Z) : string :=
  String.string_of_list_ascii (map (fun b => Ascii.ascii_of_nat (Z.to_nat b)) l).
Fixpoint before_zero (l : list Z) : list Z := match l with [] => [] | b :: l' => if b =? 0 then [] else b :: before_zero l' end.

(** A buffer is the range itself. *)
#[export] Instance byte_strings : GuestStrings ByteGuest := {|
  guest_cstring a n := let! l := guest_read a n in ret (bytes_string (before_zero l)) |}.
Definition byte_range (a n : Z) : M ByteGuest (list (Z * Z)) :=
  let! g := get in
  if limit g <=? a then throw (MemoryException "not mapped" a n false)
  else ret (if n =? 0 then [] else [(a, n)]).
Fixpoint fill_ranges (l : list (Z * Z)) (d : list Z) : M ByteGuest unit :=
  match l with
  | [] => ret tt
  | (a, n) :: l' => guest_write a (take (Z.to_nat n) d) ;;; fill_ranges l' (drop (Z.to_nat n) d)
  end.
#[export] Instance byte_buffers : GuestBuffers ByteGuest := {|
  gather_buffers := byte_range;
  writable_buffers := byte_range;
  buffers_data l := gets (fun g => l ≫= fun b => get_bytes (bytes g) (fst b) (Z.to_nat (snd b)));
  fill_buffers := fill_ranges;
  writable_view a n := let! _ := byte_range a n in ret a;
  view_load := guest_read;
  view_store := guest_write;
  memory_pieces a n := let! l := guest_read a n in ret [l];
  safe_at a n := gets (fun g => a + n <=? limit g) |}.

Lemma byte_write_decent a l (g : ByteGuest) : wp (guest_write a l) (fun _ _ => True) (fun e _ => True /\ orderly e) g.
Proof. unfold wp. simpl. by destruct (_ <? _). Qed.
Lemma byte_read_decent a n (g : ByteGuest) : wp (guest_read a n) (fun _ _ => True) (fun e _ => True /\ orderly e) g.
Proof. unfold wp. simpl. by destruct (_ <? _). Qed.
Lemma byte_range_decent a n (g : ByteGuest) : wp (byte_range a n) (fun _ _ => True) (fun e _ => True /\ orderly e) g.
Proof. unfold byte_range. wp_step. wp_step. wp_step; by wp_step. Qed.
#[export] Instance byte_io_laws : GuestIoLaws ByteGuest.
Proof.
  refine {| guest_ok := fun _ => True |}.
  - intros a l g _. apply byte_write_decent.
  - intros a n g _. apply byte_read_decent.
  - intros a n g _. apply wp_bind. eapply wp_mono; [apply byte_read_decent| |done]. intros. by apply wp_ret.
  - intros a n g _. apply byte_range_decent.
  - intros a n g _. apply byte_range_decent.
  - intros l g _. by apply wp_gets.
  - intros l. induction l as [|[a n] l IH]; intros d g _; [by apply wp_ret|]. apply wp_bind.
    eapply wp_mono; [apply byte_write_decent| |done]. intros [] g' _. by apply IH.
  - intros a n g _. apply wp_bind. eapply wp_mono; [apply byte_range_decent| |done]. intros. by apply wp_ret.
  - intros a n g _. apply byte_read_decent.
  - intros a l g _. apply byte_write_decent.
  - intros a n g _. apply wp_bind. eapply wp_mono; [apply byte_read_decent| |done]. intros. by apply wp_ret.
  - intros a n g _. by apply wp_gets.
Defined.

(** The host of the runs below: files are 3 bytes, the second descriptor of a poll is ready, a
    directory cannot be listed, one byte is written at an offset. *)
Definition demo_reply (c : hcall) : reply + Z :=
  match c with
  | HRead _ n => let k := Z.min n 3 in inl (mkReply k (replicate (Z.to_nat k) 7) [])
  | HGetdents _ => inr 20
  | HPoll _ _ => inl (mkReply 1 [0; 1] [])
  | HLseek _ off _ => inl (mkReply (Z.max 0 off) [] [])
  | HPwrite _ _ _ => inl (mkReply 1 [] [])
  | HStat _ | HStatx _ _ _ _ => inl (mkReply 0 (replicate 144 9) [])
  | _ => inl (mkReply 0 [] [])
  end.
#[export] Instance demo_calls : HostCalls := {|
  answer _ c := match room c with Some n => if n <? 0 then inr 22 else demo_reply c | None => demo_reply c end;
  timer_fired _ := false |}.
#[export] Instance demo_call_laws : HostCallLaws demo_calls.
Proof.
  assert (forall h c r, answer h c = inl r -> demo_reply c = inl r /\ forall n, room c = Some n -> 0 <= n) as Ha.
  { intros h c r. simpl. destruct (room c) as [n|]; [|done]. destruct (n <? 0) eqn:E; [done|]. intros ->. split; [done|]. intros m [= <-]. lia. }
  split; intros h c r; [|intros n|]; intros [Hr Hn]%Ha; [destruct c| |destruct c];
    try (simpl in Hr; injection Hr as <-; simpl; first [lia|pose proof (Hn _ eq_refl); lia]); try done.
  intros Hc. pose proof (Hn _ Hc). destruct c; try done; simpl in Hr, Hc; injection Hr as <-; injection Hc as <-; simpl; lia.
Qed.

(** The embedder shows the file [/ok] and protects [/etc/passwd]. *)
Definition demo_paths : Callbacks := mkCallbacks demo_find None None None None
  (Some (fun p => if String.eqb p "/ok" then Some "/jail/ok" else None))
  (Some (fun p => if String.eqb p "/etc/passwd" then None else Some p)).
Definition demo_io_cb : IoCallbacks := mkIoCallbacks demo_paths None None None None None.

(** [/ok] is at 0x5000, [/etc/passwd] at 0x6000. *)
Definition demo_bytes : gmap Z Z := Threads.put_bytes (Threads.put_bytes ∅ 0x5000 (string_bytes "/ok" ++ [0])) 0x6000 (string_bytes "/etc/passwd" ++ [0]).
Definition with_bytes (m : gmap Z Z) (r : x86regs) : Sys (G := ByteGuest) :=
  mkSys (mkOS r 0x1000 false None Signals_new (mkByteGuest m 0x100000 0x200000)) demo_table [].
Definition demo_sys (r : x86regs) : Sys (G := ByteGuest) := with_bytes demo_bytes r.
Lemma demo_ready m r : ready demo_io_cb demo_foreign (with_bytes m r).
Proof. split; [|done|done]. exists ∅. exact demo_inv. Qed.

Definition demo_stat : result unit * Sys := sys_stat demo_io_cb (demo_sys (args5 0x5000 0x8000 0 0 0)).
Lemma io_calls_granted_witness : calls (snd demo_stat) = [HStat "/jail/ok"] /\
  exists l, calls (snd demo_stat) = l ++ [] /\ Forall (granted demo_io_cb (fds (snd demo_stat))) l.
Proof.
  split; [vm_compute; reflexivity|]. assert (demo_stat = (Ok tt, snd demo_stat)) as E by (apply run_pair; vm_compute; reflexivity).
  refine (wp_run _ _ _ _ _ _ (io_calls_granted demo_io_cb demo_junk false true demo_foreign 4 _ (demo_sys (args5 0x5000 0x8000 0 0 0)) _ _ _ (demo_ready _ _)) E).
  - apply list_elem_of_In. simpl. tauto.
  - apply (bool_decide_unpack _). vm_compute. exact I.
  - by intros [? _].
Defined.

Definition demo_read : result unit * Sys := sys_read demo_io_cb (demo_sys (args5 0x800 0x8000 5 0 0)).
Lemma io_calls_contained_witness : Threads.get_bytes (bytes (guest (os (snd demo_read)))) 0x8000 4 = [7; 7; 7; 0] /\
  (ready demo_io_cb demo_foreign (snd demo_read) /\ grows demo_table (fds (snd demo_read)) /\
   (0 ∉ [7; 232; 281] -> only_rax (args5 0x800 0x8000 5 0 0) (regs (os (snd demo_read))))).
Proof.
  split; [vm_compute; reflexivity|]. assert (demo_read = (Ok tt, snd demo_read)) as E by (apply run_pair; vm_compute; reflexivity).
  refine (wp_run _ _ _ _ _ _ (io_calls_contained demo_io_cb demo_junk false true demo_foreign 0 _ (demo_sys (args5 0x800 0x8000 5 0 0)) _ (demo_ready _ _)) E).
  apply list_elem_of_In. simpl. tauto.
Defined.

(** ** Where the rules are broken *)

(** [statx] notes that the path is not readable, and goes on. *)
Example statx_ignores_filter :
  let s := snd (sys_statx demo_io_cb (demo_sys (args5 0xFFFFFF9C 0x6000 0 0xFFF 0x8000))) in
  calls s = [HStatx AT_FDCWD "/etc/passwd" 0x100 0xFFF] /\ rax (regs (os s)) = 0 /\
  readable demo_io_cb "/etc/passwd" = None.
Proof. vm_compute. done. Qed.

(** [unlinkat] asks the filter about the empty path and removes another; it takes the path from
    the third argument. *)
Example unlinkat_ignores_filter :
  let s := snd (sys_unlinkat demo_io_cb (demo_sys (args5 0xFFFFFF9C 0 0x6000 0 0))) in
  calls s = [HUnlinkat AT_FDCWD "/etc/passwd" 0x100] /\ writable demo_io_cb "/etc/passwd" = None.
Proof. vm_compute. done. Qed.

(** With a working directory that was opened as [fd]. *)
Definition with_cwd (fd : Z) (s : Sys (G := ByteGuest)) : Sys (G := ByteGuest) :=
  mkSys (os s) (set_cwd (fds s) "/tmp" fd) (calls s).
(** [utimensat(AT_FDCWD, NULL, times)] sets the times of the working directory, which the table
    opened for reading and which no entry makes writable. *)
Example utimensat_changes_cwd :
  let s := snd (sys_utimensat demo_io_cb (with_cwd 12 (demo_sys (args5 0xFFFFFF9C 0 0 0 0)))) in
  rax (regs (os s)) = 0 /\ exists times, calls s = [HFutimens 12 times] /\
  bool_decide (map_Forall (fun _ e => real_fd e <> 12) (m_fds (fds s))) = true.
Proof. split; [vm_compute; reflexivity|]. eexists. split; vm_compute; reflexivity. Qed.

(** [write] of no bytes reads the first element of an empty vector. *)
Example write_of_nothing :
  fst (sys_write demo_io_cb (demo_sys (args5 0x800 0x5000 0 0 0))) = Err (Undefined "first element of an empty vector").
Proof. vm_compute. reflexivity. Qed.

(** [getdents64] copies 2^64-1 bytes of its buffer when the host fails. *)
Example getdents_failure :
  fst (sys_getdents64 demo_io_cb (demo_sys (args5 0x800 0x8000 0 0 0))) = Err (Undefined "outside of an array on the stack").
Proof. vm_compute. reflexivity. Qed.

(** [prctl(PR_GET_NAME)] with 16 bytes reads past the name. *)
Example prctl_reads_past_name :
  fst (sys_prctl (demo_sys (args5 PR_GET_NAME 0x8000 16 0 0))) = Err (Undefined "outside of an array on the stack").
Proof. vm_compute. reflexivity. Qed.

(** A [msghdr] at 0x9000 with an address of 300 bytes: [sendmsg] writes them to an array of 128. *)
Definition long_name : gmap Z Z := Threads.put_bytes ∅ 0x9000 (le_bytes 8 0xA000 ++ le_bytes 8 300).
Example sendmsg_overruns_address :
  fst (sys_sendmsg demo_io_cb (with_bytes long_name (args5 0x800 0x9000 0 0 0))) = Err (Undefined "outside of an array on the stack").
Proof. vm_compute. reflexivity. Qed.

(** [sendmmsg] of 1025 messages writes to an array of 1024. *)
Example sendmmsg_overruns_messages :
  fst (sys_sendmmsg demo_io_cb (demo_sys (args5 0x800 0x9000 1025 0 0))) = Err (Undefined "outside of an array on the stack").
Proof. vm_compute. reflexivity. Qed.

(** A poll of two descriptors of which the second is ready: the result of the first is copied. *)
Example poll_copies_the_wrong_result :
  let two := Threads.put_bytes ∅ 0x9000 (le_bytes 4 0x800 ++ [1; 0; 0; 0] ++ le_bytes 4 0x900 ++ [1; 0; 0; 0]) in
  let s := snd (sys_poll demo_io_cb demo_junk true (with_bytes two (args5 0x9000 2 0 0 0))) in
  rax (regs (os s)) = 1 /\ Threads.get_bytes (bytes (guest (os s))) 0x900E 2 = [0; 0].
Proof. vm_compute. done. Qed.

(** Nothing is ready and there is no other thread: the number of the call is left in RAX, as if
    232 events had been returned. *)
Example epoll_wait_returns_its_number :
  let r := set_rax (args5 0x900 0x8000 8 0xFFFFFFFF 0) SYS_epoll_wait in
  let s := snd (sys_epoll_wait demo_io_cb demo_junk true (demo_sys r)) in
  regs (os s) = r.
Proof. vm_compute. reflexivity. Qed.

(** An offset with bit 31 set is taken for an error. *)
Example lseek_fails_at_2GB :
  rax (regs (os (snd (sys_lseek demo_io_cb (demo_sys (args5 0x800 0x80000000 0 0 0)))))) = 0 /\
  rax (regs (os (snd (sys_lseek demo_io_cb (demo_sys (args5 0x800 0x7FFFFFFF 0 0 0)))))) = 0x7FFFFFFF.
Proof. vm_compute. done. Qed.

(** A short write is reported as a complete one. *)
Example pwrite_hides_short_write :
  rax (regs (os (snd (sys_pwrite64 demo_io_cb (demo_sys (args5 0x800 0x5000 3 0 0)))))) = 3.
Proof. vm_compute. reflexivity. Qed.
