(* ===== verification/Remote.v ===== *)
(** * Remote machines

    lib/tinykvm/remote.cpp: a machine maps the memory of another one, its remote, into its own
    address space by copying the entries of the remote's page tables, one per gigabyte; a call
    into the remote activates the connection and takes it back when it returns.

    Several machines live in one [World]: the memory of the host is shared, the KVM slots are
    per machine.  A [Machine*] is a number.  A mutex that serialises access to a remote is a
    number, too; waiting for a locked one is [Undefined] here, as nobody else runs. *)
From stdpp Require Import base tactics list numbers strings gmap.
From Stdlib Require Import ZArith Lia Bool.
From S2P Require Import Prelude Host MemoryBanks VMemory Cpu CpuTables.
Local Open Scope Z_scope.

(** The members of [vCPU], with the registers KVM keeps for it. *)
Record vCPU := mkCPU {
  c_regs : x86regs; c_fpu : list Z; c_sregs : kvm_sregs; stopped : bool; m_permanent_remote_connected : bool; current_exception : Z; timer_ticks : Z; last_fault_address : Z; remote_return_address : Z; remote_original_tls_base : Z; remote_serializer : option Z; m_machine : Z; m_original_machine : option Z }.
Definition set_c_regs (v : vCPU) x : vCPU := mkCPU x (c_fpu v) (c_sregs v) (stopped v) (m_permanent_remote_connected v)
  (current_exception v) (timer_ticks v) (last_fault_address v) (remote_return_address v) (remote_original_tls_base v)
  (remote_serializer v) (m_machine v) (m_original_machine v).
Definition set_c_fpu (v : vCPU) x : vCPU := mkCPU (c_regs v) x (c_sregs v) (stopped v) (m_permanent_remote_connected v)
  (current_exception v) (timer_ticks v) (last_fault_address v) (remote_return_address v) (remote_original_tls_base v)
  (remote_serializer v) (m_machine v) (m_original_machine v).
Definition set_c_sregs (v : vCPU) x : vCPU := mkCPU (c_regs v) (c_fpu v) x (stopped v) (m_permanent_remote_connected v)
  (current_exception v) (timer_ticks v) (last_fault_address v) (remote_return_address v) (remote_original_tls_base v)
  (remote_serializer v) (m_machine v) (m_original_machine v).
Definition set_stopped (v : vCPU) x : vCPU := mkCPU (c_regs v) (c_fpu v) (c_sregs v) x (m_permanent_remote_connected v)
  (current_exception v) (timer_ticks v) (last_fault_address v) (remote_return_address v) (remote_original_tls_base v)
  (remote_serializer v) (m_machine v) (m_original_machine v).
Definition set_permanent_connected (v : vCPU) x : vCPU := mkCPU (c_regs v) (c_fpu v) (c_sregs v) (stopped v) x
  (current_exception v) (timer_ticks v) (last_fault_address v) (remote_return_address v) (remote_original_tls_base v)
  (remote_serializer v) (m_machine v) (m_original_machine v).
Definition set_current_exception (v : vCPU) x : vCPU := mkCPU (c_regs v) (c_fpu v) (c_sregs v) (stopped v)
  (m_permanent_remote_connected v) x (timer_ticks v) (last_fault_address v) (remote_return_address v)
  (remote_original_tls_base v) (remote_serializer v) (m_machine v) (m_original_machine v).
Definition set_timer_ticks (v : vCPU) x : vCPU := mkCPU (c_regs v) (c_fpu v) (c_sregs v) (stopped v)
  (m_permanent_remote_connected v) (current_exception v) x (last_fault_address v) (remote_return_address v)
  (remote_original_tls_base v) (remote_serializer v) (m_machine v) (m_original_machine v).
Definition set_last_fault (v : vCPU) x : vCPU := mkCPU (c_regs v) (c_fpu v) (c_sregs v) (stopped v)
  (m_permanent_remote_connected v) (current_exception v) (timer_ticks v) x (remote_return_address v)
  (remote_original_tls_base v) (remote_serializer v) (m_machine v) (m_original_machine v).
Definition set_return_address (v : vCPU) x : vCPU := mkCPU (c_regs v) (c_fpu v) (c_sregs v) (stopped v)
  (m_permanent_remote_connected v) (current_exception v) (timer_ticks v) (last_fault_address v) x
  (remote_original_tls_base v) (remote_serializer v) (m_machine v) (m_original_machine v).
Definition set_original_tls (v : vCPU) x : vCPU := mkCPU (c_regs v) (c_fpu v) (c_sregs v) (stopped v)
  (m_permanent_remote_connected v) (current_exception v) (timer_ticks v) (last_fault_address v) (remote_return_address v)
  x (remote_serializer v) (m_machine v) (m_original_machine v).
Definition set_machine_of (v : vCPU) x_m_machine x_m_original_machine : vCPU := mkCPU (c_regs v) (c_fpu v) (c_sregs v)
  (stopped v) (m_permanent_remote_connected v) (current_exception v) (timer_ticks v) (last_fault_address v)
  (remote_return_address v) (remote_original_tls_base v) (remote_serializer v) x_m_machine x_m_original_machine.

(** The members of [Machine] that matter here. *)
Record RMachine := mkRM {
  rmem : vMemory; rslots : gmap Z Slot; m_remote : option Z; m_remote_connections : Z; m_permanent_remote_connection : bool; m_remote_pfaults : bool; cpu : vCPU }.
Definition set_rmem (m : RMachine) x_rmem x_rslots : RMachine := mkRM x_rmem x_rslots (m_remote m) (m_remote_connections
  m) (m_permanent_remote_connection m) (m_remote_pfaults m) (cpu m).
Definition set_m_remote (m : RMachine) x : RMachine := mkRM (rmem m) (rslots m) x (m_remote_connections m)
  (m_permanent_remote_connection m) (m_remote_pfaults m) (cpu m).
Definition set_connections (m : RMachine) x : RMachine := mkRM (rmem m) (rslots m) (m_remote m) x
  (m_permanent_remote_connection m) (m_remote_pfaults m) (cpu m).
Definition set_permanent (m : RMachine) x : RMachine := mkRM (rmem m) (rslots m) (m_remote m) (m_remote_connections m) x
  (m_remote_pfaults m) (cpu m).
Definition set_cpu (m : RMachine) x : RMachine := mkRM (rmem m) (rslots m) (m_remote m) (m_remote_connections m)
  (m_permanent_remote_connection m) (m_remote_pfaults m) x.
Definition on_cpu (f : vCPU -> vCPU) (m : RMachine) : RMachine := set_cpu m (f (cpu m)).
Definition fs_base (m : RMachine) : Z := sg_base (s_fs (c_sregs (cpu m))).

(** [timer_was_triggered] is a variable of the thread that runs the machines. *)
Record World := mkWorld {
  w_heap : heap; w_live : list (Z * Z); machines : gmap Z RMachine; locked : gset Z; timer_was_triggered : bool }.

Section remote.
Context `{host_os : HostOS}.

Definition W := M World.
Definition set_machines (w : World) x := mkWorld (w_heap w) (w_live w) x (locked w) (timer_was_triggered w).
Definition machine_at (c : Z) : W RMachine :=
  let! w := get in
  match machines w !! c with Some m => ret m | None => throw (Undefined "no such machine") end.
Definition upd_machine (c : Z) (f : RMachine -> RMachine) : W unit :=
  modify (fun w => set_machines w (alter f c (machines w))).
(** An operation on the memory of one machine. *)
Definition on_machine {A} (c : Z) (m : M VM A) : W A := fun w =>
  match machines w !! c with
  | None => (Err (Undefined "no such machine"), w)
  | Some mc =>
      let (r, v) := m (mkVM (mkHost (w_heap w) (w_live w) (rslots mc)) (rmem mc)) in
      (r, mkWorld (h_heap (vhost v)) (h_live (vhost v)) (<[c := set_rmem mc (vm v) (h_slots (vhost v))]> (machines w)) (locked w) (timer_was_triggered w))
  end.

(** [vMemory::page_at], which goes on in the memory of the remote; two machines that are
    connected to each other recurse without end. *)
Fixpoint page_in (fuel : nat) (w : World) (c addr : Z) : result Z :=
  match machines w !! c with
  | None => Err (Undefined "no such machine")
  | Some m =>
      match page_at (set_remote (rmem m) None) addr with
      | Ok p => Ok p
      | Err e => match m_remote m with
                 | None => Err e
                 | Some r => match fuel with O => Err OutOfFuel | S fuel' => page_in fuel' w r addr end
                 end
      end
  end.
Definition wpage_at (c addr : Z) : W Z := let! w := get in lift (page_in (base.size (machines w)) w c addr).
Definition wrd (p : Z) : W Z := gets (fun w => ld64 (w_heap w) p).
Definition wwr (p v : Z) : W unit := modify (fun w => mkWorld (st64 (w_heap w) p v) (w_live w) (machines w) (locked w) (timer_was_triggered w)).

Definition PDE64_ADDR_MASK : Z := not64 0x8000000000000FFF.
(** [page_at(pml4[0] & PDE64_ADDR_MASK)] *)
Definition pdpt_of (c : Z) : W Z :=
  let! m := machine_at c in
  let! pml4 := wpage_at c (page_tables (rmem m)) in
  let! e := wrd pml4 in
  wpage_at c (e .& PDE64_ADDR_MASK).

(** The gigabytes of a machine, rounded up. *)
Definition window_begin (m : RMachine) : Z := physbase (rmem m) .>> 30.
Definition window_end (m : RMachine) : Z := (remote_end (rmem m) ⊕ 0x3FFFFFFF) .>> 30.

Definition is_remote_connected (m : RMachine) : bool :=
  match m_remote m with Some _ => negb (remote_original_tls_base (cpu m) =? 0) | None => false end.

(** [Machine::remote()] *)
Definition remote_of (c : Z) : W Z :=
  let! m := machine_at c in
  match m_remote m with Some r => ret r | None => throw (MachineException "Remote not enabled" 0) end.

(** New banks of the remote are mapped here as well. *)
Definition install_banks (c r : Z) : W unit :=
  let! mc := machine_at c in
  let! mr := machine_at r in
  for_each (drop (length (foreign_banks (rmem mc))) (m_mem (banks (rmem mr)))) (fun bank =>
    on_machine c
      (let v := to_vmem bank in
       let! new_idx := allocate_region_idx in
       on_vhost (install_memory new_idx (v_physbase v) (v_ptr v) (v_size v)) ;;;
       upd (fun m => set_foreign_banks m (foreign_banks m ++ [new_idx])))).

Definition remote_update_gigapage_mappings (c r : Z) (forced : bool) : W unit :=
  let! mr := machine_at r in
  when (remote_must_update_gigapages (rmem mr) || forced)
    (upd_machine r (fun m => set_rmem m (set_remote_must_update_gigapages (rmem m) false) (rslots m)) ;;;
     let! main_pdpt := pdpt_of c in
     let! remote_pdpt := pdpt_of r in
     let begin := window_begin mr in
     for_range (Z.to_nat (window_end mr - begin)) begin (fun i =>
       let! e := wrd (remote_pdpt + 8 * i) in
       wwr (main_pdpt + 8 * i) e)) ;;;
  install_banks c r.

Definition remote_connect (c r : Z) (connect_now : bool) : W unit :=
  let! mc := machine_at c in
  let! mr := machine_at r in
  when (negb (bool_decide (m_remote mc = Some r)))
    (if r =? c then throw (MachineException "Cannot connect a VM to itself" 0)
     else
       when (match m_remote mc with Some _ => true | None => false end)
         (on_machine c (on_vhost (delete_memory 1) ;;; delete_foreign_mmap_ranges ;;; delete_foreign_banks)) ;;;
       on_machine c
         (let v := vmem (rmem mr) in
          on_vhost (install_memory 1 (v_physbase v) (v_ptr v) (v_size v)) ;;;
          install_mmap_ranges (rmem mr))) ;;;
  when connect_now
    (remote_update_gigapage_mappings c r true ;;;
     upd_machine r (fun m => set_m_remote m (Some c))) ;;;
  upd_machine c (fun m => set_m_remote m (Some r)).

Definition permanent_remote_connect (c other : Z) : W unit :=
  upd_machine c (fun m => set_permanent m true) ;;;
  remote_connect other c true.

Definition lock (mutex : Z) : W unit :=
  let! w := get in
  if decide (mutex ∈ locked w) then throw (Undefined "waits for a locked mutex")
  else put (mkWorld (w_heap w) (w_live w) (machines w) ({[mutex]} ∪ locked w) (timer_was_triggered w)).
Definition unlock (mutex : Z) : W unit :=
  modify (fun w => mkWorld (w_heap w) (w_live w) (machines w) (locked w ∖ {[mutex]}) (timer_was_triggered w)).

(** Returns the FSBASE of the remote. *)
Definition remote_activate_now (c : Z) : W Z :=
  let! r := remote_of c in
  remote_connect c r true ;;;
  upd_machine c (fun m => set_connections m ((m_remote_connections m + 1) mod 2 ^ 32)) ;;;
  upd_machine c (fun m => on_cpu (fun v => set_original_tls v (fs_base m)) m) ;;;
  let! mr := machine_at r in
  (match remote_serializer (cpu mr) with Some x => lock x | None => ret tt end) ;;;
  upd_machine r (fun m => set_m_remote m (Some c)) ;;;
  upd_machine c (on_cpu (fun v => set_machine_of v r (Some c))) ;;;
  let! mr := machine_at r in
  ret (fs_base mr).

(** Returns the original FSBASE, or 0. *)
Definition remote_disconnect (c : Z) : W Z :=
  let! mc := machine_at c in
  if negb (is_remote_connected mc) then ret 0
  else
    let! r := remote_of c in
    upd_machine r (fun m => set_m_remote m None) ;;;
    let! mr := machine_at r in
    (match remote_serializer (cpu mr) with Some x => unlock x | None => ret tt end) ;;;
    (match m_original_machine (cpu mc) with
     | Some o => upd_machine c (on_cpu (fun v => set_machine_of v o (m_original_machine v)))
     | None => throw (Undefined "null pointer to the original machine")
     end) ;;;
    let! main_pdpt := pdpt_of c in
    let begin := window_begin mr in
    for_range (Z.to_nat (window_end mr - begin)) begin (fun i => wwr (main_pdpt + 8 * i) 0) ;;;
    upd_machine c (on_cpu (fun v => set_original_tls v 0)) ;;;
    ret (remote_original_tls_base (cpu mc)).

(** ** Programs on a world *)

Lemma machine_at_wp c m Q X w : machines w !! c = Some m -> Q m w -> wp (machine_at c) Q X w.
Proof. intros E H. unfold machine_at. wp_pures. rewrite E. by apply wp_ret. Qed.

Lemma upd_machine_wp c f m (Q : unit -> World -> Prop) X w : machines w !! c = Some m ->
  Q tt (set_machines w (<[c := f m]> (machines w))) -> wp (upd_machine c f) Q X w.
Proof.
  intros E H. unfold upd_machine. wp_pures.
  assert (alter f c (machines w) = <[c := f m]> (machines w)) as ->; [|done].
  apply map_eq. intros d. destruct (decide (d = c)) as [->|N].
  - by rewrite lookup_alter_eq, lookup_insert_eq, E.
  - by rewrite lookup_alter_ne, lookup_insert_ne.
Qed.

Lemma on_machine_wp {A} c mc (m : M VM A) (Q : A -> World -> Prop) X w : machines w !! c = Some mc ->
  let back (v : VM) := mkWorld (h_heap (vhost v)) (h_live (vhost v))
    (<[c := set_rmem mc (vm v) (h_slots (vhost v))]> (machines w)) (locked w) (timer_was_triggered w) in
  wp m (fun a v => Q a (back v)) (fun e v => X e (back v)) (mkVM (mkHost (w_heap w) (w_live w) (rslots mc)) (rmem mc)) ->
  wp (on_machine c m) Q X w.
Proof. intros E back H. unfold wp, on_machine in *. rewrite E. by destruct (m _) as [[] ?]. Qed.

(** What [page_at] reads of a memory, and the window it shows to others. *)
Definition mview (m : vMemory) : Z * Z * Z * list MemoryBank * list VirtualMem * Z * Z :=
  (physbase m, size m, ptr m, m_mem (banks m), mmap_ranges m, page_tables m, remote_end m).

Lemma page_at_view m m' addr : mview m = mview m' -> page_at (set_remote m None) addr = page_at (set_remote m' None) addr.
Proof.
  intros [= E1 E2 E3 E4 E5 E6 E7]. unfold page_at, within, bank_lookup, mmap_lookup, main_at.
  cbn [set_remote physbase size ptr banks mmap_ranges remote]. by rewrite E1, E2, E3, E4, E5.
Qed.

(** ** Mapping the banks of a remote

    Only slots and lists of machine [c] change, nothing its page tables are found with. *)
Definition only_mem (c : Z) (w w' : World) : Prop := exists mc v sl, machines w !! c = Some mc /\
  machines w' = <[c := set_rmem mc v sl]> (machines w) /\ mview v = mview (rmem mc) /\
  w_heap w' = w_heap w /\ locked w' = locked w.

Lemma only_mem_refl c w mc : machines w !! c = Some mc -> only_mem c w w.
Proof. intros E. exists mc, (rmem mc), (rslots mc). split_and!; try done. rewrite insert_id; [done|]. by destruct mc. Qed.

Definition vkept (s s' : VM) : Prop := mview (vm s') = mview (vm s) /\ h_heap (vhost s') = h_heap (vhost s).

Lemma only_mem_step {A} c (m : M VM A) w w' :
  (forall s, wp m (fun _ s' => vkept s s') (fun _ s' => vkept s s') s) ->
  only_mem c w w' -> wp (on_machine c m) (fun _ => only_mem c w) (fun _ => only_mem c w) w'.
Proof.
  intros Hm (mc & v & sl & E & Em & Ev & Eh & El).
  assert (machines w' !! c = Some (set_rmem mc v sl)) as E' by (rewrite Em; apply lookup_insert_eq).
  apply (on_machine_wp c _ _ _ _ _ E'). cbn zeta.
  eapply wp_mono; [apply Hm| |]; intros ? s' [Kv Kh];
    (exists mc, (vm s'), (h_slots (vhost s')); split_and!; [done| |exact (eq_trans Kv Ev)|exact (eq_trans Kh Eh)|done]);
    cbn [machines]; by rewrite Em, insert_insert_eq.
Qed.

Lemma wp_on_vhost {A} (m : M host A) Q X s :
  wp m (fun a h => Q a (mkVM h (vm s))) (fun e h => X e (mkVM h (vm s))) (vhost s) -> wp (on_vhost m) Q X s.
Proof. unfold wp, on_vhost. by destruct (m _) as [[] ?]. Qed.

Lemma map_bank_kept b s : wp
  (let v := to_vmem b in
   let! new_idx := allocate_region_idx in
   on_vhost (install_memory new_idx (v_physbase v) (v_ptr v) (v_size v)) ;;;
   upd (fun m => set_foreign_banks m (foreign_banks m ++ [new_idx])))
  (fun _ s' => vkept s s') (fun _ s' => vkept s s') s.
Proof.
  cbn zeta. apply wp_bind. unfold allocate_region_idx.
  eapply (wp_mono _ (fun _ s' => vkept s s') _ (fun _ s' => vkept s s')); [| |done].
  - wp_pures. destruct (last _); [unfold upd; wp_pures; done|].
    unfold wp, on_banks, banks_allocate_region_idx, modify_banks, modify, get, bind, ret. by cbn.
  - intros idx t K. apply wp_bind. apply wp_on_vhost. unfold install_memory. wp_pures.
    apply wp_if; intros _; wp_pures; [|done]. unfold upd. wp_pures. destruct s, t. exact K.
Qed.

Lemma install_banks_wp c r mc mr w : machines w !! c = Some mc -> machines w !! r = Some mr ->
  wp (install_banks c r) (fun _ => only_mem c w) (fun _ => only_mem c w) w.
Proof.
  intros Ec Er. unfold install_banks. apply wp_bind. eapply machine_at_wp; [done|].
  apply wp_bind. eapply machine_at_wp; [done|].
  apply (wp_for_each (fun _ => only_mem c w)); [by eapply only_mem_refl| |done].
  intros _ b _ t _ K. apply only_mem_step; [apply map_bank_kept|done].
Qed.

(** ** The window of a remote in the page tables of its caller *)

Definition with_wheap (w : World) (h : heap) : World := mkWorld h (w_live w) (machines w) (locked w) (timer_was_triggered w).

(** The table with the gigabytes of a machine, found in its own memory. *)
Definition pdpt_at (h : heap) (m : RMachine) (p4 pd : Z) : Prop :=
  page_at (set_remote (rmem m) None) (page_tables (rmem m)) = Ok p4 /\
  page_at (set_remote (rmem m) None) (ld64 h p4 .& PDE64_ADDR_MASK) = Ok pd.

Lemma page_in_own fuel w c m a p : machines w !! c = Some m -> page_at (set_remote (rmem m) None) a = Ok p -> page_in fuel w c a = Ok p.
Proof. intros E Ep. destruct fuel; cbn [page_in]; by rewrite E, Ep. Qed.

Lemma pdpt_of_wp c m p4 pd (Q : Z -> World -> Prop) X w :
  machines w !! c = Some m -> pdpt_at (w_heap w) m p4 pd -> Q pd w -> wp (pdpt_of c) Q X w.
Proof.
  intros E [E4 Ed] HQ. unfold pdpt_of, wpage_at, wrd. wp_step. eapply machine_at_wp; [done|].
  wp_step. wp_step. wp_step. wp_step. rewrite (page_in_own _ _ _ _ _ _ E E4). wp_step. wp_step. wp_step. wp_step. wp_step.
  by rewrite (page_in_own _ _ _ _ _ _ E Ed).
Qed.

(** A loop that stores [f i] to the entries [b, e) of a table. *)
Definition stored_window (f : Z -> Z) (pd b e : Z) (h h' : heap) : Prop := forall q, aligned8 q ->
  ld64 h' q = if decide (pd + 8 * b <= q < pd + 8 * e) then f ((q - pd) / 8) else ld64 h q.

Lemma stored_step f pd b i h h' : aligned8 pd -> b <= i -> stored_window f pd b i h h' ->
  stored_window f pd b (i + 1) h (st64 h' (pd + 8 * i) (f i)).
Proof.
  intros Hpd Hi H q Hq. unfold aligned8 in *. destruct (decide (q = pd + 8 * i)) as [->|N].
  - rewrite ld64_st64_same, decide_True by lia. f_equal. dlia.
  - rewrite ld64_st64_other, H by (unfold aligned8; dlia || done). destruct (decide _), (decide _); try done; dlia.
Qed.

Lemma window_loop (body : Z -> W unit) f pd b e (Q : unit -> World -> Prop) X w : aligned8 pd ->
  (forall i h, b <= i < e -> stored_window f pd b i (w_heap w) h ->
     wp (body i) (fun _ t => t = with_wheap w (st64 h (pd + 8 * i) (f i))) X (with_wheap w h)) ->
  (forall h, stored_window f pd b (Z.max b e) (w_heap w) h -> Q tt (with_wheap w h)) ->
  wp (for_range (Z.to_nat (e - b)) b body) Q X w.
Proof.
  intros Hpd Hbody HQ. apply (wp_for_range (fun i t => exists h, t = with_wheap w h /\ stored_window f pd b i (w_heap w) h)).
  - exists (w_heap w). split; [by destruct w|]. intros q _. by rewrite decide_False by lia.
  - intros i t Hi (h & -> & Hh). eapply wp_mono; [apply Hbody; [lia|done]| |done].
    intros u t' ->. eexists. split; [done|]. apply stored_step; [done|lia|done].
  - intros t (h & -> & Hh). apply HQ. by replace (Z.max b e) with (b + Z.of_nat (Z.to_nat (e - b))) by lia.
Qed.

(** ** A session with a remote *)

(** Caller and remote, connected but not active, with page tables of their own. *)
Record session (w : World) (c r : Z) (mc mr : RMachine) (p4c pdc p4r pdr : Z) : Prop := {
  se_apart : c <> r;
  se_caller : machines w !! c = Some mc;
  se_remote : machines w !! r = Some mr;
  se_linked : m_remote mc = Some r;
  se_tables : pdpt_at (w_heap w) mc p4c pdc;
  se_remote_tables : pdpt_at (w_heap w) mr p4r pdr;
  se_pages : pdc mod 4096 = 0 /\ p4c mod 4096 = 0 /\ p4r mod 4096 = 0 /\ pdr mod 4096 = 0;
  se_distinct : pdc <> p4c /\ pdc <> p4r /\ pdc <> pdr;
  se_window : 0 <= window_begin mr <= window_end mr /\ window_end mr <= 512;
  se_lock : forall x, remote_serializer (cpu mr) = Some x -> x ∉ locked w }.

Definition clear_flag (m : RMachine) : RMachine := set_rmem m (set_remote_must_update_gigapages (rmem m) false) (rslots m).

(** The caller sees the remote's gigabytes; besides, only slots changed. *)
Definition opened (w : World) (c r : Z) (mc mr : RMachine) (pdc pdr : Z) (w' : World) : Prop := exists v sl,
  machines w' = <[c := set_rmem mc v sl]> (<[r := clear_flag mr]> (machines w)) /\ mview v = mview (rmem mc) /\
  stored_window (fun i => ld64 (w_heap w) (pdr + 8 * i)) pdc (window_begin mr) (window_end mr) (w_heap w) (w_heap w') /\
  locked w' = locked w.

Lemma stored_other f pd b e h h' q : stored_window f pd b e h h' -> aligned8 q -> ~ (pd + 8 * b <= q < pd + 8 * e) -> ld64 h' q = ld64 h q.
Proof. intros H Hq N. by rewrite H, decide_False. Qed.

Lemma update_wp w c r mc mr p4c pdc p4r pdr : session w c r mc mr p4c pdc p4r pdr ->
  wp (remote_update_gigapage_mappings c r true) (fun _ => opened w c r mc mr pdc pdr) (fun _ => opened w c r mc mr pdc pdr) w.
Proof.
  intros []. destruct se_pages0 as (P1 & P2 & P3 & P4), se_distinct0 as (D1 & D2 & D3), se_window0 as ((W1 & W2) & W3).
  unfold remote_update_gigapage_mappings. wp_step. eapply machine_at_wp; [exact se_remote0|]. wp_step.
  apply wp_when; intros E; [|by rewrite orb_true_r in E]. wp_step. eapply upd_machine_wp; [exact se_remote0|].
  set (w1 := set_machines w _).
  assert (machines w1 !! c = Some mc) as Ec by (subst w1; cbn [machines set_machines]; by rewrite lookup_insert_ne).
  assert (machines w1 !! r = Some (clear_flag mr)) as Er by (subst w1; cbn [machines set_machines]; by rewrite lookup_insert_eq).
  wp_step. eapply pdpt_of_wp; [exact Ec|exact se_tables0|]. wp_step. eapply (pdpt_of_wp r _ p4r pdr); [exact Er|exact se_remote_tables0|].
  apply (window_loop _ (fun i => ld64 (w_heap w) (pdr + 8 * i)) pdc).
  - unfold aligned8. dlia.
  - intros i h Hi Hh. unfold wrd, wwr. wp_step. wp_step. wp_step. cbn [w_heap with_wheap].
    by rewrite (stored_other _ _ _ _ _ _ _ Hh) by (unfold aligned8; dlia).
  - intros h Hh. rewrite Z.max_r in Hh by lia.
    assert (forall w', only_mem c (with_wheap w1 h) w' -> opened w c r mc mr pdc pdr w') as Ho.
    { intros w' (mc' & v & sl & Ec' & Em & Ev & Eh & El). cbn [machines with_wheap] in *. rewrite Ec in Ec'. injection Ec' as <-.
      exists v, sl. split_and!; [exact Em|exact Ev| |exact El]. rewrite Eh. exact Hh. }
    eapply wp_mono; [by apply (install_banks_wp c r mc (clear_flag mr))|intros ? ?; apply Ho|intros ? ?; apply Ho].
Qed.

(** Two machines of a world; the others are as in [w]. *)
Definition pair_at (w : World) (c r : Z) (mc mr : RMachine) (w' : World) : Prop :=
  machines w' !! c = Some mc /\ machines w' !! r = Some mr /\ forall d, d <> c -> d <> r -> machines w' !! d = machines w !! d.

Lemma pair_caller w c r mc mr f (Q : unit -> World -> Prop) X w' : c <> r -> pair_at w c r mc mr w' ->
  (forall ms, pair_at w c r (f mc) mr (set_machines w' ms) -> Q tt (set_machines w' ms)) -> wp (upd_machine c f) Q X w'.
Proof.
  intros N (Ec & Er & Ho) HQ. eapply upd_machine_wp; [exact Ec|]. apply HQ. unfold pair_at. cbn [machines set_machines].
  rewrite lookup_insert_eq, lookup_insert_ne by done. split_and!; [done|done|]. intros d Hc Hr. rewrite lookup_insert_ne by done. auto.
Qed.
Lemma pair_remote w c r mc mr f (Q : unit -> World -> Prop) X w' : c <> r -> pair_at w c r mc mr w' ->
  (forall ms, pair_at w c r mc (f mr) (set_machines w' ms) -> Q tt (set_machines w' ms)) -> wp (upd_machine r f) Q X w'.
Proof.
  intros N (Ec & Er & Ho) HQ. eapply upd_machine_wp; [exact Er|]. apply HQ. unfold pair_at. cbn [machines set_machines].
  rewrite lookup_insert_eq, lookup_insert_ne by done. split_and!; [done|done|]. intros d Hc Hr. rewrite lookup_insert_ne by done. auto.
Qed.

Lemma opened_pair w c r mc mr pdc pdr w' : c <> r -> opened w c r mc mr pdc pdr w' -> exists v sl,
  pair_at w c r (set_rmem mc v sl) (clear_flag mr) w' /\ mview v = mview (rmem mc).
Proof.
  intros N (v & sl & Em & Ev & _ & _). exists v, sl. split; [|exact Ev]. unfold pair_at. rewrite Em.
  rewrite lookup_insert_eq, lookup_insert_ne, lookup_insert_eq by done. split_and!; [done|done|].
  intros d Hc Hr. by rewrite !lookup_insert_ne by done.
Qed.

Definition held (mr : RMachine) (l : gset Z) : gset Z := match remote_serializer (cpu mr) with Some x => {[x]} ∪ l | None => l end.

(** The caller while its vCPU runs the remote: [v] and [sl] are its memory and slots. *)
Definition away (c r : Z) (mc : RMachine) (v : vMemory) (sl : gmap Z Slot) : RMachine :=
  on_cpu (fun x => set_machine_of x r (Some c)) (on_cpu (fun x => set_original_tls x (fs_base mc))
    (set_connections (set_m_remote (set_rmem mc v sl) (Some r)) ((m_remote_connections mc + 1) mod 2 ^ 32))).

Definition active (w : World) (c r : Z) (mc mr : RMachine) (pdc pdr : Z) (w' : World) : Prop :=
  stored_window (fun i => ld64 (w_heap w) (pdr + 8 * i)) pdc (window_begin mr) (window_end mr) (w_heap w) (w_heap w') /\
  locked w' = held mr (locked w) /\
  exists v sl, mview v = mview (rmem mc) /\ pair_at w c r (away c r mc v sl) (set_m_remote (clear_flag mr) (Some c)) w'.

Lemma activate_wp w c r mc mr p4c pdc p4r pdr : session w c r mc mr p4c pdc p4r pdr ->
  wp (remote_activate_now c) (fun fs w' => fs = fs_base mr /\ active w c r mc mr pdc pdr w')
    (fun _ => opened w c r mc mr pdc pdr) w.
Proof.
  intros Hs. pose proof Hs as []. unfold remote_activate_now, remote_of, remote_connect.
  wp_step. wp_step. eapply machine_at_wp; [exact se_caller0|]. rewrite se_linked0. wp_step. wp_step.
  wp_step. eapply machine_at_wp; [exact se_caller0|]. wp_step. eapply machine_at_wp; [exact se_remote0|]. wp_step.
  apply wp_when; intros E; [by rewrite bool_decide_true in E|]. wp_step. apply wp_when; intros E2; [clear E2|discriminate E2]. wp_step.
  eapply wp_mono; [by eapply update_wp| |done]. intros u w1 Ho.
  destruct (opened_pair _ _ _ _ _ _ _ _ se_apart0 Ho) as (v & sl & Hp & Ev). destruct Ho as (_ & _ & _ & _ & Hw & El).
  eapply pair_remote; [done|exact Hp|]. intros m1 Hp1. eapply pair_caller; [done|exact Hp1|]. intros m2 Hp2.
  wp_step. eapply pair_caller; [done|exact Hp2|]. intros m3 Hp3. wp_step. eapply pair_caller; [done|exact Hp3|]. intros m4 Hp4.
  wp_step. eapply machine_at_wp; [apply Hp4|]. wp_step.
  eapply (wp_mono _ (fun _ w' => machines w' = m4 /\ w_heap w' = w_heap w1 /\ locked w' = held mr (locked w)) _ (fun _ _ => False)).
  - unfold held. cbn [cpu clear_flag set_rmem set_m_remote]. destruct (remote_serializer (cpu mr)) as [x|] eqn:Ex.
    + unfold lock. wp_step. wp_step. destruct (decide _) as [Hx|Hx]; [|wp_step; cbn [locked set_machines]; by rewrite El].
      exfalso. cbn [locked set_machines] in Hx. rewrite El in Hx. by eapply se_lock0.
    + wp_step. cbn [locked set_machines]. by rewrite El.
  - intros u2 w5 (Em5 & Eh5 & El5). assert (pair_at w c r _ _ w5) as Hp5 by (unfold pair_at; rewrite Em5; exact Hp4).
    wp_step. eapply pair_remote; [done|exact Hp5|]. intros m6 Hp6. wp_step. eapply pair_caller; [done|exact Hp6|]. intros m7 Hp7.
    wp_step. eapply machine_at_wp; [apply Hp7|]. wp_step. split; [done|]. split; [by rewrite <- Eh5 in Hw|].
    split; [exact El5|]. exists v, sl. split; [done|]. exact Hp7.
  - done.
Qed.

(** What the remote may do while it is called: anything but move its window or its mutex. *)
Definition same_window (mr mr' : RMachine) : Prop :=
  window_begin mr' = window_begin mr /\ window_end mr' = window_end mr /\ remote_serializer (cpu mr') = remote_serializer (cpu mr).

(** The caller is itself again. *)
Definition returned (c r : Z) (mc mc' : RMachine) : Prop :=
  m_machine (cpu mc') = c /\ is_remote_connected mc' = false /\ m_remote mc' = Some r /\ mview (rmem mc') = mview (rmem mc) /\
  c_regs (cpu mc') = c_regs (cpu mc) /\ c_sregs (cpu mc') = c_sregs (cpu mc).

Lemma disconnect_wp w c r mc mr p4c pdc p4r pdr v sl w2 mr2 : session w c r mc mr p4c pdc p4r pdr ->
  mview v = mview (rmem mc) -> fs_base mc <> 0 -> pair_at w2 c r (away c r mc v sl) mr2 w2 -> same_window mr mr2 ->
  locked w2 = held mr (locked w) -> ld64 (w_heap w2) p4c = ld64 (w_heap w) p4c ->
  wp (remote_disconnect c) (fun tls w3 => tls = fs_base mc /\
      stored_window (fun _ => 0) pdc (window_begin mr) (window_end mr) (w_heap w2) (w_heap w3) /\ locked w3 = locked w /\
      exists mc3, pair_at w2 c r mc3 (set_m_remote mr2 None) w3 /\ returned c r mc mc3)
    (fun _ _ => False) w2.
Proof.
  intros [] Ev Htls Hp (B1 & B2 & B3) El E4. unfold remote_disconnect, remote_of. pose proof Hp as (Ec & _).
  wp_step. eapply machine_at_wp; [exact Ec|].
  assert (is_remote_connected (away c r mc v sl) = true) as -> by (unfold is_remote_connected; cbn; by apply negb_true_iff, Z.eqb_neq).
  cbn [negb]. wp_step. wp_step. eapply machine_at_wp; [exact Ec|]. cbn [m_remote away on_cpu set_cpu set_connections set_m_remote]. wp_step.
  wp_step. eapply pair_remote; [done|exact Hp|]. intros m1 Hp1. wp_step. eapply machine_at_wp; [apply Hp1|]. wp_step.
  eapply (wp_mono _ (fun _ w' => w_heap w' = w_heap w2 /\ machines w' = m1 /\ locked w' = locked w) _ (fun _ _ => False)); [| |done].
  { cbn [cpu set_m_remote]. rewrite B3. unfold held in El. destruct (remote_serializer (cpu mr)) as [x|] eqn:Ex.
    - unfold unlock. wp_step. cbn [locked set_machines w_heap machines]. rewrite El. specialize (se_lock0 x eq_refl).
      split_and!; [done|done|]. set_solver.
    - by wp_step. }
  intros u w3 (Eh & Em & El3). assert (pair_at w2 c r _ _ w3) as Hp3 by (unfold pair_at; rewrite Em; exact Hp1).
  wp_step. cbn [m_original_machine cpu away on_cpu set_cpu set_machine_of].
  eapply pair_caller; [done|exact Hp3|]. intros m4 Hp4. wp_step.
  eapply (pdpt_of_wp c _ p4c pdc); [apply Hp4| |].
  { destruct se_tables0 as [T1 T2]. cbn [w_heap set_machines]. rewrite Eh. unfold pdpt_at. rewrite E4.
    pose proof (fun a => page_at_view v (rmem mc) a Ev) as Hv. cbn [rmem on_cpu set_cpu away set_connections set_m_remote set_rmem].
    assert (page_tables v = page_tables (rmem mc)) as -> by (unfold mview in Ev; congruence). by rewrite !Hv. }
  change (window_begin (set_m_remote mr2 None)) with (window_begin mr2).
  change (window_end (set_m_remote mr2 None)) with (window_end mr2). rewrite B1, B2. wp_step.
  apply (window_loop _ (fun _ => 0) pdc); [unfold aligned8; dlia| |].
  - intros i h Hi Hh. unfold wwr. by wp_step.
  - intros h Hh. rewrite Z.max_r in Hh by lia. wp_step. eapply (pair_caller w2 c r); [done|exact Hp4|]. intros m5 Hp5. wp_step.
    split; [done|]. split; [by rewrite <- Eh|]. split; [done|]. eexists. split; [exact Hp5|].
    unfold returned. by split_and!.
Qed.

(** C38: a call into a remote opens a window and closes it again.  Activating a connected
    remote either copies exactly the remote's gigabyte entries into the caller's page tables,
    takes the remote's mutex, moves the vCPU to the remote and returns the remote's thread
    pointer; or it throws, and then nothing but slots and the window has changed.  Whatever happens to
    memory and to the remote in the meantime, as long as the entry that leads to the table
    stays: if the caller has a thread pointer, disconnecting clears exactly the window, releases the
    mutex, moves the vCPU back and returns that pointer, and it cannot fail.  If the caller's
    thread pointer is zero, disconnecting does nothing: the machine does not know that it is
    connected ([zero_tls_never_disconnects]). *)
Theorem remote_session w c r mc mr p4c pdc p4r pdr : session w c r mc mr p4c pdc p4r pdr ->
  wp (remote_activate_now c)
    (fun fs w1 => fs = fs_base mr /\ active w c r mc mr pdc pdr w1 /\
       forall w2 mr2, machines w2 !! c = machines w1 !! c -> machines w2 !! r = Some mr2 -> same_window mr mr2 ->
         locked w2 = locked w1 -> ld64 (w_heap w2) p4c = ld64 (w_heap w) p4c ->
         (fs_base mc = 0 -> remote_disconnect c w2 = (Ok 0, w2)) /\
         (fs_base mc <> 0 -> wp (remote_disconnect c) (fun tls w3 => tls = fs_base mc /\
             stored_window (fun _ => 0) pdc (window_begin mr) (window_end mr) (w_heap w2) (w_heap w3) /\ locked w3 = locked w /\
             exists mc3, pair_at w2 c r mc3 (set_m_remote mr2 None) w3 /\ returned c r mc mc3)
           (fun _ _ => False) w2))
    (fun _ => opened w c r mc mr pdc pdr) w.
Proof.
  intros Hs. eapply wp_mono; [by eapply activate_wp| |done]. intros fs w1 [Hfs Ha]. split; [done|]. split; [done|].
  intros w2 mr2 Ec Er Hw El E4. destruct Ha as (_ & El1 & v & sl & Ev & Hc1 & _). rewrite Hc1 in Ec. split; intros Htls.
  - unfold remote_disconnect, machine_at, bind, get. rewrite Ec. unfold is_remote_connected. cbn. by rewrite Htls.
  - eapply disconnect_wp; [done|exact Ev|done| |done|congruence|done]. by split_and!.
Qed.
End remote.

(** ** Examples *)

#[local] Instance demo_host : HostOS := bump_host (2 ^ 47).

Definition demo_mem (base p : Z) : vMemory :=
  mkVMem [] base (base + 0x20000) (base + 0x9000) 0 p 0x400000 true (-1) (base + 0x400000) true false true false false
    (mkBanks [] 5 ARENA_BASE_ADDRESS ARENA_BASE_ADDRESS FIRST_BANK_IDX 0 0 2048) [] [] MMAP_PHYS_BASE MMAP_PHYS_BASE [] false false 0 None.
Definition demo_regs : x86regs := mkRegs 0 0 0 0 0 0 0 0 0 0 0 0 0 0 0 0 0 0.
Definition demo_cpu (id fs : Z) (mutex : option Z) : vCPU :=
  mkCPU demo_regs [] (mkSregs zero_seg zero_seg zero_seg (seg_with_base zero_seg fs) zero_seg zero_seg zero_seg
    (mkDtable 0 0) (mkDtable 0 0) 0 0 0 0) true false 0 0 0 0 0 mutex id None.
Definition demo_caller (fs : Z) : RMachine := mkRM (demo_mem 0 0x10000000) ∅ (Some 2) 0 false true (demo_cpu 1 fs None).
Definition demo_remote : RMachine := mkRM (demo_mem 0x40000000 0x20000000) ∅ None 0 false true (demo_cpu 2 0x40200000 (Some 9)).
Definition demo_heap : heap :=
  st64 (st64 (st64 ∅ 0x10009000 0xA007) 0x20009000 0x4000A007) (0x2000A000 + 8) 0x4000B007.
Definition demo_world (fs : Z) : World :=
  mkWorld demo_heap [] (<[1 := demo_caller fs]> (<[2 := demo_remote]> ∅)) ∅ false.

Lemma remote_session_witness : session (demo_world 0x300000) 1 2 (demo_caller 0x300000) demo_remote 0x10009000 0x1000A000 0x20009000 0x2000A000 /\
  wp (remote_activate_now 1) (fun fs w1 => fs = 0x40200000 /\ ld64 (w_heap w1) (0x1000A000 + 8) = 0x4000B007)
    (fun _ _ => True) (demo_world 0x300000).
Proof.
  assert (session (demo_world 0x300000) 1 2 (demo_caller 0x300000) demo_remote 0x10009000 0x1000A000 0x20009000 0x2000A000) as Hs.
  { constructor; try done; try (vm_compute; done); try (split; vm_compute; done). }
  split; [exact Hs|]. eapply wp_mono; [apply (remote_session _ _ _ _ _ _ _ _ _ Hs)| |done].
  intros fs w1 (-> & (Hw & _) & _). split; [done|]. rewrite Hw by done. vm_compute. reflexivity.
Defined.

Definition outcome {A} (r : result A * World) : option A := match fst r with Ok a => Some a | Err _ => None end.
Definition run2 (w : World) : World := snd (remote_disconnect 1 (snd (remote_activate_now 1 w))).

Example session_runs :
  let w1 := snd (remote_activate_now 1 (demo_world 0x300000)) in
  outcome (remote_activate_now 1 (demo_world 0x300000)) = Some 0x40200000 /\ ld64 (w_heap w1) 0x1000A008 = 0x4000B007 /\
  bool_decide (9 ∈ locked w1) = true /\ outcome (remote_disconnect 1 w1) = Some 0x300000 /\
  ld64 (w_heap (snd (remote_disconnect 1 w1))) 0x1000A008 = 0 /\ bool_decide (9 ∈ locked (snd (remote_disconnect 1 w1))) = false.
Proof. vm_compute. split_and!; reflexivity. Qed.

(** A caller whose thread pointer is zero does not count as connected: disconnecting does
    nothing, so the window stays open and the mutex locked. *)
Example zero_tls_never_disconnects :
  outcome (remote_disconnect 1 (snd (remote_activate_now 1 (demo_world 0)))) = Some 0 /\
  ld64 (w_heap (run2 (demo_world 0))) 0x1000A008 = 0x4000B007 /\ bool_decide (9 ∈ locked (run2 (demo_world 0))) = true.
Proof. vm_compute. split_and!; reflexivity. Qed.

(** During a session the two machines are each other's remote; looking up an address that
    neither has does not end. *)
Example lookup_goes_in_circles :
  let w1 := snd (remote_activate_now 1 (demo_world 0x300000)) in
  page_in 100 w1 1 0x80000000 = Err OutOfFuel.
Proof. vm_compute. reflexivity. Qed.
