(* ===== verification/VcpuRun.v ===== *)
(** * Running a vCPU

    lib/tinykvm/vcpu_run.cpp: the run loop with its time limit, the handling of the exits of
    KVM_RUN (system calls, page faults, exceptions, I/O), and the calls into remote machines
    of lib/tinykvm/remote.cpp that run a vCPU ([ipre_*]).

    What the guest does between two exits, what the embedder's handlers do, and the answers of
    KVM are parameters.  A vCPU is named by the machine it belongs to; the machine it works
    for ([vCPU::machine()]) is another one during a remote call.  A run may go on for ever, so
    it has fuel, one unit per exit.  Text that is printed is left out; the reads of guest memory
    for it are not, since they may throw. *)
From stdpp Require Import base tactics list numbers strings gmap.
From Stdlib Require Import ZArith Lia Bool.
From S2P Require Import Prelude MMap Host MemoryBanks VMemory Paging ForkIsolation MakeCow PageSetup Fork Cpu GuestCopy Env CpuTables Remote.
Local Open Scope Z_scope.

Definition KVM_EXIT_IO : Z := 2.
Definition KVM_EXIT_DEBUG : Z := 4.
Definition KVM_EXIT_HLT : Z := 5.
Definition KVM_EXIT_SHUTDOWN : Z := 8.
Definition KVM_EXIT_FAIL_ENTRY : Z := 9.
Definition KVM_EXIT_MEMORY_FAULT : Z := 39.
Definition EINTR : Z := 4.
Definition EFAULT : Z := 14.

(** [kvm_run->exit_reason] with the data of the exits that are looked at. *)
Inductive kvm_exit :=
| Exit_HLT | Exit_DEBUG | Exit_FAIL_ENTRY | Exit_SHUTDOWN
| Exit_IO_OUT (port data : Z) | Exit_IO_IN (port data : Z)
| Exit_MMIO (phys_addr : Z) | Exit_INTERNAL_ERROR | Exit_other (reason : Z).
(** The result of KVM_RUN: [errno], the exit reason and the memory fault; or an exit. *)
Inductive kvm_result := RunFailed (errno reason gpa size : Z) | RunExit (e : kvm_exit).

Class Kvm := {
  (** The guest runs on the vCPU until it exits. *)
  kvm_run : Z -> M World kvm_result;
  (** KVM_SET_GUEST_DEBUG: the control flags and the debug registers *)
  kvm_set_guest_debug : Z -> list Z -> bool;
  (** KVM_GET_FPU and KVM_SET_FPU *)
  kvm_fpu : bool;
  (** [m_syscalls], [m_unhandled_syscall], [m_on_breakpoint], [m_on_output] and [m_on_input],
      of the vCPU, with the number, or the port and the data *)
  m_syscalls : list (option (Z -> M World unit));
  m_unhandled_syscall : Z -> Z -> M World unit;
  m_on_breakpoint : Z -> M World unit;
  m_on_output : Z -> Z -> Z -> M World unit;
  m_on_input : Z -> Z -> Z -> M World unit }.

(** ** Memory of a machine and its remotes *)

(** The machines whose memory an address is looked up in, and whether that goes in circles. *)
Fixpoint chain (fuel : nat) (ms : gmap Z RMachine) (seen : list Z) (c : Z) : list Z * bool :=
  match fuel with
  | O => ([], true)
  | S fuel' =>
      match ms !! c with
      | None => ([], false)
      | Some m =>
          match m_remote m with
          | None => ([c], false)
          | Some r => if decide (r ∈ c :: seen) then ([c], true)
                      else let (l, cyc) := chain fuel' ms (c :: seen) r in (c :: l, cyc)
          end
      end
  end.
Fixpoint link (ms : gmap Z RMachine) (l : list Z) : option vMemory :=
  match l with
  | [] => None
  | c :: l' => match ms !! c with Some m => Some (VMemory.set_remote (rmem m) (link ms l')) | None => None end
  end.
Fixpoint unlink (ms : gmap Z RMachine) (l : list Z) (v : option vMemory) : gmap Z RMachine :=
  match l, v with
  | c :: l', Some m => alter (fun x => set_rmem x (VMemory.set_remote m None) (rslots x)) c (unlink ms l' (remote m))
  | _, _ => ms
  end.
(** The lookup of an address that no machine of a circle has does not end. *)
Definition in_circles {A} (r : result A) : result A :=
  match r with
  | Err (MemoryException msg _ _ _) =>
      if (msg =? "Memory::page_at() invalid region")%string || (msg =? "Memory::safely_at() invalid region")%string
      then Err OutOfFuel else r
  | _ => r
  end.

(** An operation on the memory of a machine that is linked to a remote. *)
Definition in_guest {A} (c : Z) (m : M VM A) : M World A := fun w =>
  let ms := machines w in
  let (l, cyc) := chain (S (base.size ms)) ms [] c in
  match ms !! c, link ms l with
  | Some mc, Some v =>
      let (r, s') := m (mkVM (mkHost (w_heap w) (w_live w) (rslots mc)) v) in
      (if cyc then in_circles r else r,
       mkWorld (h_heap (vhost s')) (h_live (vhost s'))
         (alter (fun x => set_rmem x (rmem x) (h_slots (vhost s'))) c (unlink ms l (Some (vm s')))) (locked w) (timer_was_triggered w))
  | _, _ => (Err (Undefined "no such machine"), w)
  end.

Section run.
Context `{os : HostOS} `{kvm : Kvm}.

(** ** Small steps *)

Definition cpu_of (v : Z) : W vCPU := let! m := machine_at v in ret (cpu m).
Definition upd_cpu (v : Z) (f : vCPU -> vCPU) : W unit := upd_machine v (on_cpu f).
Definition set_registers (v : Z) (r : x86regs) : W unit := upd_cpu v (fun x => set_c_regs x r).
Definition set_triggered (b : bool) : W unit :=
  modify (fun w => mkWorld (w_heap w) (w_live w) (machines w) (locked w) b).
(** [machine_exception(msg, data)] and [timeout_exception] *)
Definition machine_exception {A} (msg : string) (data : Z) : W A := throw (MachineException msg data).
Definition timeout_exception {A} (msg : string) (data : Z) : W A := throw (MachineTimeoutException msg data).
Definition read_u64 (c addr : Z) : W Z := let! l := in_guest c (unsafe_copy_from_guest addr 8) in ret (le_value l).

(** [machine().is_foreign_address(addr)] *)
Definition is_foreign (c addr : Z) : W bool :=
  let! m := machine_at c in
  match m_remote m with
  | None => ret false
  | Some r => let! mr := machine_at r in ret ((physbase (rmem mr) <=? addr) && (addr <? remote_end (rmem mr)))
  end.

(** [Machine::system_call] *)
Definition system_call (v idx : Z) : W unit :=
  match m_syscalls !! Z.to_nat idx with
  | Some (Some handler) => handler v
  | _ => m_unhandled_syscall v idx
  end.

(** [vCPU::timed_out] *)
Definition timed_out : W bool :=
  let! w := get in
  if timer_was_triggered w then set_triggered false ;;; ret true else ret false.

(** [vCPU::exception_extra_offset] *)
Definition exception_extra_offset (intr : Z) : result Z :=
  match amd64_exception_code intr with
  | Ok has_code => Ok ((if has_code then 8 else 0) + (if intr =? 14 then 8 else 0))
  | Err e => Err e
  end.

(** [vCPU::handle_exception]: what it reads and throws. *)
Definition handle_exception (v intr : Z) : W unit :=
  let! x := cpu_of v in
  let sp := rsp (c_regs x) in
  let! _ := lift (amd64_exception_name intr) in
  when (intr =? 14) (let! _ := read_u64 (m_machine x) (sp ⊕ 16) in ret tt) ;;;
  let! has_code := lift (amd64_exception_code intr) in
  let off := (if has_code then sp ⊕ 8 else sp) ⊕ (if intr =? 14 then 16 else 0) in
  try_catch (for_each [0; 8; 16; 24; 32] (fun k => let! _ := read_u64 (m_machine x) (off ⊕ k) in ret tt)) (ret tt) ;;;
  when (has_code && (intr =? 13)) (try_catch (let! _ := read_u64 (m_machine x) sp in ret tt) (ret tt)).

(** ** System calls *)

Definition SYS_EXIT_PORT : Z := 0xFFFF.
Definition SYS_DISCONNECT : Z := 0x1F778.

(** Port 0: a system call, the end of the run, or the return from a remote call. *)
Definition handle_syscall (v intr : Z) : W Z :=
  if negb (intr =? SYS_EXIT_PORT) && negb (intr =? SYS_DISCONNECT) then
    system_call v intr ;;;
    let! x := cpu_of v in
    if stopped x then ret 0
    else
      let! late := timed_out in
      if late then timeout_exception "Timeout Exception" (timer_ticks x) else ret KVM_EXIT_IO
  else if intr =? SYS_EXIT_PORT then upd_cpu v (fun x => set_stopped x true) ;;; ret 0
  else
    let! x := cpu_of v in
    let not_connected := machine_exception "Remote VM disconnect called, but not connected" intr in
    match m_original_machine x with
    | None => not_connected
    | Some o =>
        let! mo := machine_at o in
        if negb (is_remote_connected mo) then not_connected
        else
          let! result := remote_disconnect o in
          let! x := cpu_of v in
          in_guest (m_machine x) (copy_to_guest (rsp (c_regs x) ⊕ 24) (le_bytes 8 (remote_return_address x)) false) ;;;
          upd_cpu v (fun x => set_return_address x 0) ;;;
          upd_cpu v (fun x => set_c_regs x (set_rax (c_regs x) result)) ;;;
          ret KVM_EXIT_IO
    end.

(** ** Remote calls through a permanent connection *)

(** [enter_usermode] *)
Definition usermode (r : kvm_sregs) : kvm_sregs :=
  let user sel s := mkSeg (sg_base s) (sg_limit s) sel (sg_type s) (sg_present s) 3 (sg_db s) (sg_s s) (sg_l s) (sg_g s) in
  if sg_dpl (s_cs r) =? 0 then
    mkSregs (user 0x2B (s_cs r)) (s_ds r) (s_es r) (s_fs r) (s_gs r) (user 0x23 (s_ss r)) (s_tr r) (s_gdt r) (s_idt r)
      (s_cr0 r) (s_cr3 r) (s_cr4 r) (s_efer r)
  else r.
Definition enter_usermode (c : Z) : W unit := upd_cpu c (fun x => set_c_sregs x (usermode (c_sregs x))).
Definition set_fs (c base : Z) : W unit :=
  upd_cpu c (fun x => let r := c_sregs x in set_c_sregs x (mkSregs (s_cs r) (s_ds r) (s_es r) (seg_with_base (s_fs r) base)
    (s_gs r) (s_ss r) (s_tr r) (s_gdt r) (s_idt r) (s_cr0 r) (s_cr3 r) (s_cr4 r) (s_efer r))).
Definition set_regs (c : Z) (f : x86regs -> x86regs) : W unit := upd_cpu c (fun x => set_c_regs x (f (c_regs x))).

(** [prepare_vmresume(fsbase, reload_pagetables)] *)
Definition wprepare_vmresume (c fsbase : Z) (reload : bool) : W unit :=
  set_regs c (fun r => set_rsp r (rsp r ⊖ 40)) ;;;
  let! m := machine_at c in
  let r := c_regs (cpu m) in
  in_guest c (copy_to_guest (rsp r) (words [r11 r; rcx r; fsbase; rax r; rip r]) false) ;;;
  set_regs c (fun r => set_rip (set_rax r (if reload then 0x1F777 else 0x1F707)) (preserving_entry_address (rmem m))).

Definition set_rdi (r : x86regs) (v : Z) : x86regs :=
  mkRegs (rax r) (rbx r) (rcx r) (rdx r) (rsi r) v (rsp r) (rbp r)
    (r8 r) (r9 r) (r10 r) (r11 r) (r12 r) (r13 r) (r14 r) (r15 r) (rip r) (rflags r).

(** [nested c] is [this->run(0.0f)] on machine [c]; [stack_address] is the address of its stack. *)
Variable stack_address : Z -> Z.

Definition not_enabled : exn := MachineException "Remote not enabled. Did you call 'remote_connect()'?" 0.
Definition already_connected : exn := MachineException "Remote already connected" 0.
(** The checks the three calls start with; returns the remote. *)
Definition unconnected_remote (c : Z) : W Z :=
  let! m := machine_at c in
  match m_remote m with
  | None => throw not_enabled
  | Some r => if is_remote_connected m then throw already_connected else ret r
  end.

Definition remote_pfault_permanent_ipre (nested : Z -> W unit) (c return_stack return_address : Z) : W unit :=
  let! caller := unconnected_remote c in
  upd_machine caller (fun m => set_connections m ((m_remote_connections m + 1) mod 2 ^ 32)) ;;;
  let! mc := machine_at c in
  let! mr := machine_at caller in
  let do_prepare := (length (foreign_banks (rmem mc)) <? length (m_mem (banks (rmem mr))))%nat in
  when do_prepare (remote_connect c caller true ;;; install_banks c caller) ;;;
  let! mr := machine_at caller in
  set_registers c (c_regs (cpu mr)) ;;;
  let sp := rsp (c_regs (cpu mr)) in
  let! stack := in_guest caller (unsafe_copy_from_guest sp 32) in
  set_regs c (fun r => set_rsp (set_rip (set_rflags (set_rdi (set_rax r (field64 stack 8)) (field64 stack 0)) user_rflags)
    (field64 stack 24)) (stack_address c)) ;;;
  let! mc := machine_at c in
  in_guest c (copy_to_guest (rsp (c_regs (cpu mc))) (le_bytes 8 (exit_address (rmem mc))) false) ;;;
  when do_prepare (wprepare_vmresume c 0 true) ;;;
  upd_cpu c (fun x => set_permanent_connected x true) ;;;
  enter_usermode c ;;;
  nested c ;;;
  upd_cpu c (fun x => set_permanent_connected x false) ;;;
  let! x := cpu_of c in
  set_registers caller (set_rax (set_rsp (set_rip (c_regs x) return_address) (return_stack ⊕ 8)) (rdi (c_regs x))) ;;;
  enter_usermode caller.

(** ** Page faults *)

Definition fault_flags : Z := PDE64_USER .| PDE64_RW.
Definition fault_options : WritablePageOptions := mkWPO false false.
(** The end of a fault that was served: a second fault in a row on the page is an error. *)
Definition fault_served (v addr : Z) (msg : string) : W unit :=
  let! x := cpu_of v in
  if last_fault_address x =? addr then handle_exception v 14 ;;; machine_exception msg 14
  else upd_cpu v (fun x => set_last_fault x addr).

Definition foreign_fault (nested : Z -> W unit) (v c addr : Z) : W unit :=
  let! x := cpu_of v in
  let regs := c_regs x in
  let! m := machine_at c in
  let! r := remote_of c in
  if negb (any_bit (rax regs) 0x10) then
    let! mr := machine_at r in
    if is_remote_connected mr || m_permanent_remote_connected x then
      let! _ := in_guest r (writable_page_at addr fault_flags fault_options) in
      fault_served v addr "Remote VM page fault repeat on same address" ;;;
      set_regs v (fun r => set_rax r 0)
    else handle_exception v 14 ;;; machine_exception "Remote VM page fault while not connected" 14
  else if negb (m_remote_pfaults m) then
    handle_exception v 14 ;;; machine_exception "Remote VM execution disabled (resume-only)" 14
  else
    let! retstack := read_u64 c (rsp regs ⊕ 16 ⊕ 32) in
    let! retaddr := read_u64 c retstack in
    if m_permanent_remote_connection m then remote_pfault_permanent_ipre nested r retstack retaddr
    else
      upd_cpu v (fun x => set_return_address x retaddr) ;;;
      let! fs := remote_activate_now c in
      set_regs v (fun r => set_rax r fs).

Definition local_fault (v c addr : Z) : W unit :=
  set_regs v (fun r => set_rax r 0) ;;;
  let! _ := in_guest c (writable_page_at addr fault_flags fault_options) in
  let! m := machine_at c in
  (match m_remote m with
   | None => ret tt
   | Some r =>
       let! foreign := is_foreign r addr in
       let! mr := machine_at r in
       when (foreign && is_remote_connected mr) (remote_update_gigapage_mappings r c false)
   end) ;;;
  fault_served v addr "Page fault repeat on same address".

Definition page_fault (nested : Z -> W unit) (v : Z) : W Z :=
  let! x := cpu_of v in
  let regs := c_regs x in
  let addr := rdi regs .& not64 0x8000000000000FFF in
  let c := m_machine x in
  let! m := machine_at c in
  if physbase (rmem m) ⊕ INTR_ASM_ADDR ⊕ 0x1000 <=? rip regs then machine_exception "Security violation" 14
  else if addr <? 0x2000 then
    handle_exception v 14 ;;;
    let! _ := remote_disconnect c in
    machine_exception "Kernel or zero page fault" 14
  else
    let! foreign := is_foreign c addr in
    (if foreign then foreign_fault nested v c addr else local_fault v c addr) ;;;
    ret KVM_EXIT_IO.

(** ** The exits *)

Definition continue_unless_stopped (v : Z) : W Z :=
  let! x := cpu_of v in ret (if stopped x then 0 else KVM_EXIT_IO).

Definition handle_exit (nested : Z -> W unit) (v : Z) (e : kvm_exit) : W Z :=
  match e with
  | Exit_HLT => machine_exception "Halt from kernel space" KVM_EXIT_HLT
  | Exit_DEBUG => ret KVM_EXIT_DEBUG
  | Exit_FAIL_ENTRY => machine_exception "Failed to start guest! Misconfigured?" KVM_EXIT_FAIL_ENTRY
  | Exit_SHUTDOWN => machine_exception "Shutdown! Triple fault?" KVM_EXIT_SHUTDOWN
  | Exit_IO_OUT port data =>
      if port =? 0 then handle_syscall v data
      else if (0x80 <=? port) && (port <? 0x100) then
        let intr := port - 0x80 in
        upd_cpu v (fun x => set_current_exception x intr) ;;;
        if intr =? 14 then page_fault nested v
        else if intr =? 1 then m_on_breakpoint v ;;; ret KVM_EXIT_IO
        else
          handle_exception v intr ;;;
          let! name := lift (amd64_exception_name intr) in
          machine_exception name intr
      else m_on_output v port data ;;; continue_unless_stopped v
  | Exit_IO_IN port data => m_on_input v port data ;;; continue_unless_stopped v
  | Exit_MMIO addr => machine_exception "Memory write outside physical memory (out of memory?)" addr
  | Exit_INTERNAL_ERROR => machine_exception "KVM internal error" 0
  | Exit_other reason => machine_exception "Unexpected KVM exit reason" reason
  end.

Definition run_failed {A} (ticks errno reason gpa size : Z) : W A :=
  if negb (ticks =? 0) then timeout_exception "Timeout Exception" ticks
  else if errno =? EINTR then timeout_exception "Interrupted (signal)" 0
  else if errno =? EFAULT then
    if reason =? KVM_EXIT_MEMORY_FAULT then throw (MemoryException "KVM_RUN failed (KVM_EXIT_MEMORY_FAULT)" gpa size false)
    else if negb (reason =? 0) then machine_exception "KVM_RUN failed (EFAULT, unknown exit_reason)" reason
    else machine_exception ("KVM_RUN failed with EFAULT, but exit_reason is unknown" ++ String.String (Ascii.ascii_of_nat 10) "")%string reason
  else machine_exception "KVM_RUN failed (errno)" errno.

Definition run_once (nested : Z -> W unit) (v : Z) : W Z :=
  let! result := kvm_run v in
  let! x := cpu_of v in
  match result with
  | RunFailed errno reason gpa size => run_failed (timer_ticks x) errno reason gpa size
  | RunExit e =>
      let! w := get in
      if negb (timer_ticks x =? 0) && timer_was_triggered w then timeout_exception "Timeout Exception" (timer_ticks x)
      else handle_exit nested v e
  end.

(** ** The run loop *)

Definition disable_timer (v : Z) : W unit := set_triggered false ;;; upd_cpu v (fun x => set_timer_ticks x 0).

(** [run(ticks)] around the loop: the timer is off again however the loop ends. *)
Definition run_with (loop : Z -> W unit) (v ticks : Z) : W unit :=
  set_triggered false ;;;
  upd_cpu v (fun x => set_timer_ticks x ticks) ;;;
  upd_cpu v (fun x => set_stopped x false) ;;;
  catch (loop v) (fun e => disable_timer v ;;; throw e) ;;;
  disable_timer v.

(** [while (run_once());] *)
Fixpoint run_loop (fuel : nat) (v : Z) : W unit :=
  match fuel with
  | O => throw OutOfFuel
  | S fuel' =>
      let! again := run_once (fun c => run_with (run_loop fuel') c 0) v in
      if again =? 0 then ret tt else run_loop fuel' v
  end.
Definition run (fuel : nat) (v ticks : Z) : W unit := run_with (run_loop fuel) v ticks.
Definition run_in_usermode (fuel : nat) (v ticks : Z) : W unit := enter_usermode v ;;; run fuel v ticks.

(** ** Access to the vCPU *)

Definition stop (v : Z) : W unit := upd_cpu v (fun x => set_stopped x true).
Definition get_fsgs (v : Z) : W (Z * Z) :=
  let! x := cpu_of v in ret (sg_base (s_fs (c_sregs x)), sg_base (s_gs (c_sregs x))).
Definition is_usermode (v : Z) : W bool := let! x := cpu_of v in ret (sg_dpl (s_cs (c_sregs x)) =? 3).
Definition is_kernelmode (v : Z) : W bool := let! x := cpu_of v in ret (sg_dpl (s_cs (c_sregs x)) =? 0).

(** [set_vcpu_table_at] of the vCPU with number [cpu_id]. *)
Definition set_vcpu_table_at (v cpu_id index value : Z) : W unit :=
  if 4 <=? index then machine_exception "Invalid vCPU table index" index
  else
    let! x := cpu_of v in
    let! m := machine_at (m_machine x) in
    let addr := vcpu_table_addr (rmem m) cpu_id ⊕ index * 4 in
    in_guest (m_machine x)
      (let! page := get_userpage_at (addr .& not64 0xFFF) in
       when (negb (page =? 0)) (put_bytes (page + (addr .& 0xFFF)) (le_bytes 4 value))).

(** ** Debugging *)

Definition KVM_GUESTDBG_ENABLE : Z := 1.
Definition KVM_GUESTDBG_SINGLESTEP : Z := 2.
Definition KVM_GUESTDBG_USE_HW_BP : Z := 0x20000.
Definition step_one (nested : Z -> W unit) (v : Z) : W Z :=
  if kvm_set_guest_debug (KVM_GUESTDBG_ENABLE .| KVM_GUESTDBG_SINGLESTEP) [] then run_once nested v
  else machine_exception "KVM_RUN failed" 0.
(** The enable bits of the breakpoints that are set, for debug register 7. *)
Fixpoint breakpoint_mask (bp : list Z) (i : Z) : Z :=
  match bp with
  | [] => 0
  | b :: bp' => (if b =? 0 then 0 else 3 .<< (2 * i)) .| breakpoint_mask bp' (i + 1)
  end.
Definition run_with_breakpoints (nested : Z -> W unit) (v : Z) (bp : list Z) : W Z :=
  if kvm_set_guest_debug (KVM_GUESTDBG_ENABLE .| KVM_GUESTDBG_USE_HW_BP) (bp ++ [0; 0; 0; breakpoint_mask bp 0]) then run_once nested v
  else machine_exception "KVM_RUN failed" 0.

(** ** Resuming in a remote *)

Definition fpu_registers (c : Z) : W (list Z) :=
  if kvm_fpu then let! x := cpu_of c in ret (c_fpu x) else machine_exception "KVM_GET_FPU failed" 0.
Definition set_fpu_registers (c : Z) (f : list Z) : W unit :=
  if kvm_fpu then upd_cpu c (fun x => set_c_fpu x f) else machine_exception "KVM_SET_FPU failed" 0.

Definition copy_callee_saved_registers (save_all : bool) (dest src : x86regs) : x86regs :=
  if save_all then src
  else mkRegs (rax dest) (rbx src) (rcx dest) (rdx dest) (rsi dest) (rdi src) (rsp src) (rbp src) (r8 dest) (r9 dest)
    (r10 dest) (r11 dest) (r12 src) (r13 src) (r14 src) (r15 src) (rip src) (rflags dest).

(** [before] is the callback, if any; [junk] what an uninitialised structure holds. *)
Definition ipre_remote_resume_now (fuel : nat) (junk : x86regs) (c : Z) (save_all : bool) (before : option (Z -> W unit)) : W unit :=
  let! _ := unconnected_remote c in
  let! x := cpu_of c in
  let saved_gprs := copy_callee_saved_registers save_all junk (c_regs x) in
  let! saved_fprs := (if save_all then fpu_registers c else ret []) in
  let! remote_fsbase := remote_activate_now c in
  let! r := remote_of c in
  let! xr := cpu_of r in
  set_regs c (fun g => copy_callee_saved_registers save_all g (c_regs xr)) ;;;
  when save_all (let! f := fpu_registers r in set_fpu_registers c f) ;;;
  (match before with Some f => f c | None => ret tt end) ;;;
  catch (set_regs c (fun g => set_rdi g remote_fsbase) ;;; run fuel c 0)
    (fun e => match e with
              | Undefined _ | OutOfFuel => throw e
              | _ => let! our_fsbase := remote_disconnect c in set_fs c our_fsbase ;;; throw e
              end) ;;;
  let! x := cpu_of c in
  set_regs r (fun g => copy_callee_saved_registers save_all g (c_regs x)) ;;;
  set_regs r (fun g => set_rip g (rip g ⊕ 2)) ;;;
  set_fs r (sg_base (s_fs (c_sregs x))) ;;;
  let! our_fsbase := remote_disconnect c in
  if our_fsbase =? 0 then throw (RuntimeError "ipre_resume_storage: Remote disconnect failed")
  else
    set_regs c (fun g => copy_callee_saved_registers save_all g saved_gprs) ;;;
    set_regs c (fun g => set_rax g (rsi g)) ;;;
    set_regs c (fun g => set_rip g (rip g ⊕ 2)) ;;;
    when save_all (set_fpu_registers c saved_fprs) ;;;
    wprepare_vmresume c our_fsbase true ;;;
    upd_cpu c (fun x => set_stopped x false).

Definition ipre_permanent_remote_resume_now (fuel : nat) (c : Z) (store_fsbase_rdi : bool) : W unit :=
  let! r := unconnected_remote c in
  when store_fsbase_rdi (let! m := machine_at c in set_regs c (fun g => set_rdi g (fs_base m))) ;;;
  remote_update_gigapage_mappings c r false ;;;
  upd_cpu c (fun x => set_permanent_connected x true) ;;;
  run_in_usermode fuel c 0 ;;;
  set_regs c (fun g => set_rip g (rip g ⊕ 2)) ;;;
  upd_cpu c (fun x => set_permanent_connected x false) ;;;
  let! x := cpu_of c in
  set_regs r (fun g => set_rax g (rsi (c_regs x))).
End run.
