(* ===== verification/VcpuSafety.v ===== *)
(** * A fork runs without touching its master

    The run loop of [VcpuRun] on a fork that has no remote: whatever the guest does, whichever
    exits it takes and however the run ends, the memory it shares with its master stays the
    same.  The guest's stores are those that its page tables let through as writable
    ([GuestStores]); the stores that the guest's own kernel makes with CR0.WP clear need no
    writable entry and are excepted ([GuestStores.kernel_store_reaches_master]).  The embedder's
    handlers are any programs over the functions of the library ([library]), which are proved to
    be harmless; the loop, the page faults, the exceptions and the timer are the code's. *)
From stdpp Require Import base tactics list numbers strings gmap relations.
From Stdlib Require Import ZArith Lia Bool.
From S2P Require Import Prelude MMap Host MemoryBanks VMemory Paging ForkIsolation MakeCow PageSetup Fork Cpu GuestCopy GuestStores Env CpuTables Remote VcpuRun.
Local Open Scope Z_scope.

(** ** A fork in the world *)

Definition fork_view (w : World) (m : RMachine) : VM :=
  mkVM (mkHost (w_heap w) (w_live w) (rslots m)) (VMemory.set_remote (rmem m) None).

(** A machine without a remote, whose vCPU works for itself. *)
Definition alone (c : Z) (m : RMachine) : Prop :=
  m_remote m = None /\ m_machine (cpu m) = c /\ (m_original_machine (cpu m) = None \/ m_original_machine (cpu m) = Some c).
Definition fork_at (c : Z) (w : World) (m : RMachine) : Prop :=
  machines w !! c = Some m /\ alone c m /\ exists Ψ, fork_inv Ψ (fork_view w m).

(** Seen from the world [w0], where the machine was [m0]: its main memory has not changed, and
    it is still a fork. *)
Definition kept (c : Z) (w0 : World) (m0 : RMachine) (w : World) : Prop :=
  exists m, machines w !! c = Some m /\ main_unchanged (fork_view w0 m0) (fork_view w m).
Definition still (c : Z) (w0 : World) (m0 : RMachine) (w : World) : Prop :=
  exists m, fork_at c w m /\ main_unchanged (fork_view w0 m0) (fork_view w m).

(** What the guest does between two exits: stores that the CPU lets through, and registers. *)
Definition stored (s s' : VM) : Prop := exists vaddr bytes, guest_store vaddr bytes s = Some s'.
Definition guest_ran (c : Z) (w w' : World) : Prop := exists m s' r f sr,
  machines w !! c = Some m /\ rtc stored (fork_view w m) s' /\
  w_heap w' = h_heap (vhost s') /\ w_live w' = w_live w /\
  machines w' = <[c := on_cpu (fun x => set_c_regs (set_c_fpu (set_c_sregs x sr) f) r) m]> (machines w).

(** An update of the vCPU that leaves its machine alone. *)
Definition keeps_machine (f : vCPU -> vCPU) : Prop := forall x,
  m_machine (f x) = m_machine x /\ m_original_machine (f x) = m_original_machine x.

(** What a handler may be made of: any control flow, any use of the vCPU's registers and flags,
    any reading of guest memory (whose exceptions it may catch), copying to the guest and asking
    for writable pages. *)
Inductive library `{HostOS} (c : Z) : forall A : Type, W A -> Prop :=
| lib_ret A (a : A) : library c A (ret a)
| lib_throw A e : library c A (throw e)
| lib_bind A B (op : W A) (k : A -> W B) : library c A op -> (forall a, library c B (k a)) -> library c B (bind op k)
| lib_cpu : library c vCPU (cpu_of c)
| lib_upd_cpu f : keeps_machine f -> library c unit (upd_cpu c f)
| lib_timed_out : library c bool timed_out
| lib_read A (op : M VM A) : (forall s, pure_at op s) -> library c A (in_guest c op)
| lib_try_read A (op : M VM A) h : (forall s, pure_at op s) -> (forall e, library c A (h e)) -> library c A (catch (in_guest c op) h)
| lib_copy addr data zeroes : library c unit (in_guest c (copy_to_guest addr data zeroes))
| lib_writable addr flags opts : library c WritablePage (in_guest c (writable_page_at addr flags opts)).

Record fork_env `{HostOS} `{kvm : Kvm} (c : Z) : Prop := {
  fe_guest : forall w m, machines w !! c = Some m -> wp (kvm_run c) (fun _ => guest_ran c w) (fun _ => guest_ran c w) w;
  fe_syscalls : Forall (fun h => match h with Some f => library c unit (f c) | None => True end) m_syscalls;
  fe_unhandled : forall n, library c unit (m_unhandled_syscall c n);
  fe_breakpoint : library c unit (m_on_breakpoint c);
  fe_output : forall p d, library c unit (m_on_output c p d);
  fe_input : forall p d, library c unit (m_on_input c p d) }.

(** Reading guest memory is pure. *)
Lemma read_chunks_pure flags l s : pure_at (read_chunks (get_page_at flags) l) s.
Proof.
  induction l as [|k l IH]; [done|]. cbn [read_chunks]. unfold pure_at. wp_step.
  assert (pure_at (get_page_at flags (ck_page k)) s) as Hp
    by (unfold pure_at, wp; rewrite get_page_at_pure; by destruct (fst (get_page_at _ _ s))).
  eapply wp_mono; [exact Hp|intros p s1 ->|done]. unfold bytes_at. wp_step. wp_step. wp_step.
  eapply wp_mono; [exact IH|intros b s' ->; by wp_step|done].
Qed.
Lemma unsafe_copy_pure a n s : pure_at (unsafe_copy_from_guest a n) s.
Proof.
  unfold pure_at, unsafe_copy_from_guest. wp_step. wp_step. wp_step; [apply read_chunks_pure|]. wp_step. wp_step.
  destruct (at_ (vm s) a n); [|done]. unfold bytes_at. by wp_step.
Qed.

(** The stores of the guest. *)
Lemma stored_steps Ψ s s' : fork_inv Ψ s -> rtc stored s s' -> step_ok Ψ s Ψ s' /\ s' = with_heap s (h_heap (vhost s')).
Proof.
  intros Hinv Hrun. apply (rtc_ind_r (R := stored) (fun t => step_ok Ψ s Ψ t /\ t = with_heap s (h_heap (vhost t))) s);
    [|intros t t' _ (vaddr&bytes&Hg) [Hst Et]|done].
  - split; [by apply step_ok_refl|]. by destruct s as [[] ?].
  - split; [eapply step_ok_trans; [exact Hst|]; eapply guest_store_ok; [apply Hst|exact Hg]|].
    unfold guest_store in Hg. destruct (_ <=? _); [|done]. destruct (hw_page _ _ _); [|done]. injection Hg as <-.
    rewrite Et. reflexivity.
Qed.

Section safety.
Context `{os : HostOS} `{laws : !HostLaws os} `{kvm : Kvm}.
Context (c : Z).
Implicit Types (w : World) (m : RMachine).

Section steps.
Context (w0 : World) (m0 : RMachine).
Abbreviation I := (still c w0 m0).
Abbreviation E := (kept c w0 m0).

Lemma still_kept w : I w -> E w.
Proof. intros (m&(Hm&_)&Hu). by exists m. Qed.

(** ** Steps that do not touch memory *)

Lemma at_fork_wp w Q X : I w -> (forall m, machines w !! c = Some m -> alone c m -> Q m w) -> wp (machine_at c) Q X w.
Proof. intros (m&(Hm&Ha&_)&_) HQ. eapply machine_at_wp; [done|]. by apply HQ. Qed.

Lemma cpu_of_wp w (Q : vCPU -> World -> Prop) X : I w ->
  (forall m, machines w !! c = Some m -> alone c m -> Q (cpu m) w) -> wp (cpu_of c) Q X w.
Proof. intros Hi HQ. unfold cpu_of. wp_step. eapply at_fork_wp; [done|]. intros m Hm Ha. wp_step. by apply HQ. Qed.

Lemma cpu_view w ms m f : fork_view (set_machines w ms) (on_cpu f m) = fork_view w m.
Proof. reflexivity. Qed.

Lemma upd_cpu_wp w f (Q : unit -> World -> Prop) X : keeps_machine f -> I w ->
  (forall w' m, I w' -> machines w !! c = Some m -> machines w' !! c = Some (on_cpu f m) ->
     timer_was_triggered w' = timer_was_triggered w -> Q tt w') ->
  wp (upd_cpu c f) Q X w.
Proof.
  intros Hf (m&(Hm&(Hr&Hc&Ho)&Hi)&Hu) HQ. unfold upd_cpu. eapply upd_machine_wp; [done|]. destruct (Hf (cpu m)) as [F1 F2].
  apply (HQ _ m); [|done|by cbn [machines set_machines]; rewrite lookup_insert_eq|done].
  exists (on_cpu f m). split; [|by rewrite cpu_view].
  split_and!; [cbn [machines set_machines]; by rewrite lookup_insert_eq| |by rewrite cpu_view].
  unfold alone. cbn [on_cpu set_cpu m_remote cpu]. by rewrite F1, F2.
Qed.

Lemma upd_cpu_kept w f (Q : unit -> World -> Prop) X : E w ->
  (forall w' m, E w' -> machines w' !! c = Some (on_cpu f m) -> timer_was_triggered w' = timer_was_triggered w -> Q tt w') ->
  wp (upd_cpu c f) Q X w.
Proof.
  intros (m&Hm&Hu) HQ. unfold upd_cpu. eapply upd_machine_wp; [done|].
  apply (HQ _ m); [|by cbn [machines set_machines]; rewrite lookup_insert_eq|done].
  exists (on_cpu f m). split; [cbn [machines set_machines]; by rewrite lookup_insert_eq|]. by rewrite cpu_view.
Qed.

Lemma triggered_wp w b (Q : unit -> World -> Prop) X : I w ->
  (forall w', I w' -> machines w' = machines w -> timer_was_triggered w' = b -> Q tt w') -> wp (set_triggered b) Q X w.
Proof. intros (m&(Hm&Ha&Hi)&Hu) HQ. unfold set_triggered. wp_step. apply HQ; [|done|done]. exists m. by split. Qed.

(** ** Steps on the memory of the fork *)

(** The world after an operation on the memory of [c]. *)
Definition put_back (w : World) (m : RMachine) (s : VM) : World :=
  mkWorld (h_heap (vhost s)) (h_live (vhost s))
    (<[c := set_rmem m (VMemory.set_remote (vm s) None) (h_slots (vhost s))]> (machines w)) (locked w) (timer_was_triggered w).

Lemma in_guest_alone {A} (op : M VM A) w m Q X : machines w !! c = Some m -> m_remote m = None ->
  wp op (fun a s => Q a (put_back w m s)) (fun e s => X e (put_back w m s)) (fork_view w m) -> wp (in_guest c op) Q X w.
Proof.
  intros Hm Hr Hop. unfold wp, in_guest in *. cbn [chain]. rewrite Hm, Hr. cbn [link]. rewrite Hm.
  change (VMemory.set_remote (rmem m) (link (machines w) [])) with (VMemory.set_remote (rmem m) None).
  fold (fork_view w m). destruct (op (fork_view w m)) as [r s] eqn:Eo. cbn [unlink].
  assert (alter (fun x => set_rmem x (rmem x) (h_slots (vhost s))) c
    (alter (fun x => set_rmem x (VMemory.set_remote (vm s) None) (rslots x)) c (machines w)) =
    <[c := set_rmem m (VMemory.set_remote (vm s) None) (h_slots (vhost s))]> (machines w)) as ->.
  { apply map_eq. intros d. destruct (decide (d = c)) as [->|N].
    - by rewrite !lookup_alter_eq, lookup_insert_eq, Hm.
    - by rewrite !lookup_alter_ne, lookup_insert_ne. }
  by destruct r.
Qed.

Lemma view_back w m s : fork_view (put_back w m s) (set_rmem m (VMemory.set_remote (vm s) None) (h_slots (vhost s))) =
  mkVM (vhost s) (VMemory.set_remote (vm s) None).
Proof. unfold fork_view, put_back. cbn. by destruct s as [[] []]. Qed.

Lemma back_fork w m s Ψ Ψ' : machines w !! c = Some m -> alone c m -> main_unchanged (fork_view w0 m0) (fork_view w m) ->
  step_ok Ψ (fork_view w m) Ψ' s -> I (put_back w m s).
Proof.
  intros Hm Ha Hu (Hi&_&Hmu). destruct (fork_inv_upd Ψ' s (fun v => VMemory.set_remote v None) Hi) as (Hi'&_&Hmu'); [done|done|].
  exists (set_rmem m (VMemory.set_remote (vm s) None) (h_slots (vhost s))). rewrite <- view_back with (w := w) (m := m) in Hi', Hmu'.
  split; [|eapply main_unchanged_trans; [exact Hu|by eapply main_unchanged_trans]].
  split_and!; [cbn [machines put_back]; by rewrite lookup_insert_eq|exact Ha|by exists Ψ'].
Qed.

Lemma back_kept w m s : machines w !! c = Some m -> main_unchanged (fork_view w0 m0) (fork_view w m) ->
  main_unchanged (fork_view w m) s -> E (put_back w m s).
Proof.
  intros Hm Hu Hmu. exists (set_rmem m (VMemory.set_remote (vm s) None) (h_slots (vhost s))).
  split; [cbn [machines put_back]; by rewrite lookup_insert_eq|]. rewrite view_back.
  eapply main_unchanged_trans; [exact Hu|]. eapply main_unchanged_trans; [exact Hmu|]. split; [|done].
  unfold same_main. split_and!; reflexivity.
Qed.

Lemma in_guest_wp {A} (op : M VM A) w (Q : A -> World -> Prop) X : I w ->
  (forall Ψ s, fork_inv Ψ s -> wp op (fun _ s' => exists Ψ', step_ok Ψ s Ψ' s') (fun _ s' => main_unchanged s s') s) ->
  (forall a w', I w' -> Q a w') -> (forall e w', E w' -> X e w') -> wp (in_guest c op) Q X w.
Proof.
  intros (m&(Hm&Ha&(Ψ&Hi))&Hu) Hop HQ HX. eapply in_guest_alone; [done|apply Ha|].
  eapply wp_mono; [apply (Hop Ψ); exact Hi|intros a s (Ψ'&Hs); apply HQ; by eapply back_fork|].
  intros e s Hs. apply HX. by eapply back_kept.
Qed.

(** Reading changes nothing, also when it throws. *)
Lemma in_guest_read {A} (op : M VM A) w (Q : A -> World -> Prop) X : I w -> (forall s, pure_at op s) ->
  (forall a w', I w' -> Q a w') -> (forall e w', I w' -> X e w') -> wp (in_guest c op) Q X w.
Proof.
  intros (m&(Hm&Ha&(Ψ&Hi))&Hu) Hop HQ HX. eapply in_guest_alone; [done|apply Ha|].
  eapply wp_mono; [apply Hop|intros a s ->; apply HQ|intros e s ->; apply HX];
    (eapply (back_fork w m (fork_view w m) Ψ Ψ); [done|done|done|by apply step_ok_refl]).
Qed.

Lemma read_u64_wp w a (Q : Z -> World -> Prop) X : I w -> (forall v w', I w' -> Q v w') -> (forall e w', I w' -> X e w') ->
  wp (read_u64 c a) Q X w.
Proof.
  intros Hi HQ HX. unfold read_u64. wp_step. eapply in_guest_read; [done|intros s; apply unsafe_copy_pure| |done].
  intros l w' Hi'. wp_step. by apply HQ.
Qed.

(** ** Exceptions *)

Lemma try_catch_wp {A} (m h : W A) w (Q : A -> World -> Prop) X :
  wp m Q (fun e w' => I w') w -> (forall w', I w' -> wp h Q X w') -> (forall e w', I w' -> X e w') -> wp (try_catch m h) Q X w.
Proof.
  intros Hm Hh HX. unfold try_catch. apply wp_catch. eapply wp_mono; [exact Hm|done|]. intros e w' Hi.
  destruct e; try (by apply Hh); apply wp_throw; by apply HX.
Qed.

Lemma handle_exception_wp w intr : I w -> wp (handle_exception c intr) (fun _ => I) (fun _ => I) w.
Proof.
  intros Hi. unfold handle_exception. wp_step. eapply cpu_of_wp; [done|]. intros m Hm (_&Hc&_). rewrite Hc. wp_step. wp_step.
  destruct (amd64_exception_name intr); [|done]. wp_step.
  assert (forall (a : Z) (cond : bool) w', I w' ->
    wp (when cond (let! _ := read_u64 c a in ret tt)) (fun _ => I) (fun _ => I) w') as Hread.
  { intros a' cond w' Hi'. wp_step; [|done]. wp_step. eapply read_u64_wp; [done| |done]. intros v w2 Hi2. by wp_step. }
  eapply wp_mono; [by apply Hread|intros u w1 Hi1|done]. wp_step. wp_step. destruct (amd64_exception_code intr) as [b|]; [|done].
  wp_step. eapply (wp_mono _ (fun _ => I) _ (fun _ => I)).
  - apply try_catch_wp; [|intros w' Hi'; by wp_step|done].
    apply (wp_for_each (fun _ => I)); [done| |done]. intros dn k rest t _ Ht. apply (Hread _ true). exact Ht.
  - intros u' w2 Hi2. wp_step; [|done]. apply try_catch_wp; [|intros w' Hi'; by wp_step|done]. apply (Hread _ true). exact Hi2.
  - done.
Qed.

(** An exception is looked at, then thrown. *)
Lemma report_wp {A} w intr (op : W A) (Q : A -> World -> Prop) : I w -> (forall w', I w' -> wp op Q (fun _ => E) w') ->
  wp (handle_exception c intr ;;; op) Q (fun _ => E) w.
Proof.
  intros Hi Hop. wp_step. eapply wp_mono; [by apply handle_exception_wp|intros u w' Hi'; by apply Hop|].
  intros e w' Hi'. by apply still_kept.
Qed.

Lemma raise_wp {A} w msg d (Q : A -> World -> Prop) : I w -> wp (machine_exception msg d) Q (fun _ => E) w.
Proof. intros Hi. unfold machine_exception. wp_step. by apply still_kept. Qed.

(** ** The library *)

Lemma make_writable_wp w a flags opts (Q : WritablePage -> World -> Prop) : I w -> (forall p w', I w' -> Q p w') ->
  wp (in_guest c (writable_page_at a flags opts)) Q (fun _ => E) w.
Proof.
  intros Hi HQ. eapply in_guest_wp; [done| |done|done]. intros Ψ s Hinv.
  eapply wp_mono; [by apply writable_page_at_wp|intros p s' (Ψ'&Hst&_); by exists Ψ'|done].
Qed.

Lemma library_wp {A} (op : W A) w : library c A op -> I w -> wp op (fun _ => I) (fun _ => E) w.
Proof.
  intros Hop. revert w.
  induction Hop as [A a|A e|A B op k _ IHop _ IHk| |f Hf| |A op Hp|A op h Hp _ IHh|addr data z|addr flags opts]; intros w Hi.
  - by wp_step.
  - wp_step. by apply still_kept.
  - wp_step. eapply wp_mono; [by apply IHop|intros a w' Hi'; by apply IHk|done].
  - eapply cpu_of_wp; [done|]. by intros.
  - eapply upd_cpu_wp; [done|done|]. by intros.
  - unfold timed_out. wp_step. wp_step. wp_step; [|by wp_step]. wp_step. eapply triggered_wp; [done|]. intros. by wp_step.
  - eapply in_guest_read; [done|done|done|]. intros e w' Hi'. by apply still_kept.
  - apply wp_catch. eapply in_guest_read; [done|done|done|]. intros e w' Hi'. by apply IHh.
  - eapply in_guest_wp; [done| |done|done]. intros Ψ s. apply copy_to_guest_wp.
  - by apply make_writable_wp.
Qed.

(** ** The exits *)

Definition is_stopped (w : World) : Prop := exists m, machines w !! c = Some m /\ stopped (cpu m) = true.
(** The answer of an exit: 0 ends the run, and then the vCPU was stopped. *)
Abbreviation J := (fun (r : Z) w => I w /\ (r = 0 -> is_stopped w)).

Context (Henv : fork_env c).

Lemma then_wp {A B} (op : W A) (k : A -> W B) w (Q : B -> World -> Prop) :
  library c A op -> I w -> (forall a w', I w' -> wp (k a) Q (fun _ => E) w') -> wp (let! a := op in k a) Q (fun _ => E) w.
Proof. intros Hop Hi Hk. wp_step. eapply wp_mono; [by apply library_wp|intros a w' Hi'; by apply Hk|done]. Qed.

Lemma system_call_library n : library c unit (system_call c n).
Proof.
  unfold system_call. destruct Henv. destruct (m_syscalls !! Z.to_nat n) as [[f|]|] eqn:Ef; [|apply fe_unhandled0..].
  by apply (Forall_lookup_1 _ _ _ _ fe_syscalls0 Ef).
Qed.

Lemma continue_wp w : I w -> wp (continue_unless_stopped c) J (fun _ => E) w.
Proof.
  intros Hi. unfold continue_unless_stopped. wp_step. eapply cpu_of_wp; [done|]. intros m Hm _. wp_step.
  split; [done|]. destruct (stopped (cpu m)) eqn:Es; [|done]. intros _. by exists m.
Qed.

Lemma handle_syscall_wp w n : I w -> wp (handle_syscall c n) J (fun _ => E) w.
Proof.
  intros Hi. unfold handle_syscall. wp_step.
  { apply then_wp; [apply system_call_library|done|]. intros u w1 Hi1. wp_step. eapply cpu_of_wp; [done|]. intros m Hm _.
    wp_step; [wp_step; split; [done|]; by exists m|]. unfold timed_out. wp_step. wp_step. wp_step. wp_step.
    - wp_step. eapply triggered_wp; [done|]. intros w2 Hi2 _ _. wp_step. unfold timeout_exception. wp_step. by apply still_kept.
    - wp_step. wp_step. done. }
  wp_step.
  { wp_step. eapply upd_cpu_wp; [done|done|]. intros w1 m Hi1 _ Hm1 _. wp_step. split; [done|]. intros _. by eexists. }
  wp_step. eapply cpu_of_wp; [done|]. intros m Hm (Hr&_&Ho). cbv zeta.
  destruct Ho as [-> | ->]; [by apply raise_wp|]. wp_step. eapply machine_at_wp; [done|].
  assert (is_remote_connected m = false) as -> by (unfold is_remote_connected; by rewrite Hr). by apply raise_wp.
Qed.

Lemma disconnect_alone w (Q : Z -> World -> Prop) X : I w -> Q 0 w -> wp (remote_disconnect c) Q X w.
Proof.
  intros Hi HQ. unfold remote_disconnect. wp_step. eapply at_fork_wp; [done|]. intros m Hm (Hr&_).
  assert (is_remote_connected m = false) as -> by (unfold is_remote_connected; by rewrite Hr). by apply wp_ret.
Qed.

Lemma fault_served_wp w a msg : I w -> wp (fault_served c a msg) (fun _ => I) (fun _ => E) w.
Proof.
  intros Hi. unfold fault_served. wp_step. eapply cpu_of_wp; [done|]. intros m _ _. wp_step.
  - apply report_wp; [done|]. intros w1 Hi1. by apply raise_wp.
  - eapply upd_cpu_wp; [done|done|]. done.
Qed.

Lemma local_fault_wp w a : I w -> wp (local_fault c c a) (fun _ => I) (fun _ => E) w.
Proof.
  intros Hi. unfold local_fault. wp_step. eapply upd_cpu_wp; [done|done|]. intros w1 m1 Hi1 _ _ _.
  wp_step. apply make_writable_wp; [done|]. intros p w2 Hi2. wp_step. eapply at_fork_wp; [done|]. intros m2 Hm2 (->&_).
  wp_step. wp_step. by apply fault_served_wp.
Qed.

Context (stack_address : Z -> Z) (nested : Z -> W unit).

Lemma page_fault_wp w : I w -> wp (page_fault stack_address nested c) J (fun _ => E) w.
Proof.
  intros Hi. unfold page_fault. wp_step. eapply cpu_of_wp; [done|]. intros m Hm (_&Hc&_). cbv zeta. rewrite Hc.
  wp_step. eapply at_fork_wp; [done|]. intros m1 Hm1 (Hr1&_). wp_step; [by apply raise_wp|].
  wp_step.
  { apply report_wp; [done|]. intros w1 Hi1. wp_step. apply disconnect_alone; [done|]. by apply raise_wp. }
  wp_step. unfold is_foreign. wp_step. eapply machine_at_wp; [done|]. rewrite Hr1. wp_step.
  wp_step. eapply wp_mono; [by apply local_fault_wp|intros u w1 Hi1|done]. wp_step. done.
Qed.

Lemma handle_exit_wp w e : I w -> wp (handle_exit stack_address nested c e) J (fun _ => E) w.
Proof.
  intros Hi. destruct e as [| | | |port data|port data|addr| |reason]; cbn [handle_exit]; try (by apply raise_wp).
  - by wp_step.
  - wp_step; [by apply handle_syscall_wp|]. wp_step.
    + wp_step. eapply upd_cpu_wp; [done|done|]. intros w1 m1 Hi1 _ _ _. wp_step; [by apply page_fault_wp|]. wp_step.
      * apply then_wp; [apply Henv|done|]. intros u w2 Hi2. by wp_step.
      * apply report_wp; [done|]. intros w2 Hi2. wp_step. wp_step. destruct (amd64_exception_name _); [by apply raise_wp|by apply still_kept].
    + apply then_wp; [apply Henv|done|]. intros u w1 Hi1. by apply continue_wp.
  - apply then_wp; [apply Henv|done|]. intros u w1 Hi1. by apply continue_wp.
Qed.

(** ** One round, and the loop *)

Lemma guest_ran_wp w w' : I w -> guest_ran c w w' -> I w'.
Proof.
  intros (m&(Hm&Ha&(Ψ&Hi))&Hu) (m'&s'&r&f&sr&Hm'&Hrun&Eh&El&Em). rewrite Hm in Hm'. injection Hm' as <-.
  destruct (stored_steps Ψ _ _ Hi Hrun) as [(Hi'&_&Hmu) Es].
  exists (on_cpu (fun x => set_c_regs (set_c_fpu (set_c_sregs x sr) f) r) m).
  assert (fork_view w' (on_cpu (fun x => set_c_regs (set_c_fpu (set_c_sregs x sr) f) r) m) = s') as Ev.
  { unfold fork_view. cbn [on_cpu set_cpu rmem rslots]. rewrite Eh, El, Es. reflexivity. }
  split; [|rewrite Ev; by eapply main_unchanged_trans]. split_and!; [by rewrite Em, lookup_insert_eq|exact Ha|].
  exists Ψ. by rewrite Ev.
Qed.

Lemma run_once_wp w : I w -> wp (run_once stack_address nested c) J (fun _ => E) w.
Proof.
  intros Hi. pose proof Hi as (m&(Hm&_)&_). unfold run_once. wp_step.
  eapply wp_mono; [by eapply fe_guest|intros res w1 Hg|intros e w1 Hg; apply still_kept; by eapply guest_ran_wp].
  assert (I w1) as Hi1 by by eapply guest_ran_wp. wp_step. eapply cpu_of_wp; [done|]. intros m1 Hm1 _.
  destruct res as [errno reason gpa sz|e].
  - unfold run_failed, timeout_exception, machine_exception. pose proof (still_kept _ Hi1) as He.
    repeat (wp_step; [by wp_step|]). wp_step; [|by wp_step]. wp_step; [by wp_step|]. wp_step; by wp_step.
  - wp_step. wp_step. wp_step; [unfold timeout_exception; wp_step; by apply still_kept|]. by apply handle_exit_wp.
Qed.
End steps.

Context (Henv : fork_env c) (stack_address : Z -> Z).

Lemma run_loop_wp fuel w0 m0 w : still c w0 m0 w ->
  wp (run_loop stack_address fuel c) (fun _ w' => still c w0 m0 w' /\ is_stopped w') (fun _ => kept c w0 m0) w.
Proof.
  revert w. induction fuel as [|fuel IH]; intros w Hi; cbn [run_loop]; [wp_step; by apply still_kept|].
  wp_step. eapply wp_mono; [by apply run_once_wp|intros r w1 [Hi1 Hs]|done]. wp_step; [|by apply IH].
  wp_step. split; [done|]. apply Hs. lia.
Qed.

(** After [disable_timer]. *)
Definition timer_off (w : World) : Prop :=
  timer_was_triggered w = false /\ exists m, machines w !! c = Some m /\ timer_ticks (cpu m) = 0.
End safety.


(** ** A fork that faults, stores and stops *)

#[local] Existing Instance Fork.demo_host.
#[local] Existing Instance Fork.demo_laws.

(** The guest stores to a page of its program; it faults if it may not, and stops afterwards. *)
Definition demo_guest (c : Z) : W kvm_result :=
  let! m := machine_at c in
  let! w := get in
  match guest_store 0x202018 [42; 43] (fork_view w m) with
  | None => set_regs c (fun r => set_rdi r 0x202018) ;;; ret (RunExit (Exit_IO_OUT (0x80 + 14) 0))
  | Some s => put (mkWorld (h_heap (vhost s)) (w_live w) (machines w) (locked w) (timer_was_triggered w)) ;;;
              ret (RunExit (Exit_IO_OUT 0 SYS_EXIT_PORT))
  end.
#[local] Instance demo_kvm : Kvm := {|
  kvm_run := demo_guest;
  kvm_set_guest_debug _ _ := true;
  kvm_fpu := true;
  m_syscalls := [Some (fun c => in_guest c (copy_to_guest 0x202000 [7] false) ;;;
    let! x := cpu_of c in
    let! l := in_guest c (unsafe_copy_from_guest (rsp (c_regs x)) 8) in
    upd_cpu c (fun x => set_c_regs x (set_rax (c_regs x) (le_value l))))];
  m_unhandled_syscall c n := machine_exception "Unhandled system call" n;
  m_on_breakpoint _ := ret tt;
  m_on_output _ _ _ := ret tt;
  m_on_input _ _ _ := ret tt |}.

Definition as_machine (s : VM) : RMachine := mkRM (vm s) (h_slots (vhost s)) None 0 false true (demo_cpu 1 0 None).
Definition as_world (s : VM) : World := mkWorld (h_heap (vhost s)) (h_live (vhost s)) (<[1 := as_machine s]> ∅) ∅ false.

Lemma as_world_fork s : (exists Ψ, fork_inv Ψ s) -> fork_at 1 (as_world s) (as_machine s).
Proof.
  intros [Ψ Hi]. split_and!; [done|by split_and!; [..|left]|]. exists Ψ.
  destruct (fork_inv_upd Ψ s (fun v => VMemory.set_remote v None) Hi) as (Hi'&_); [done|done|]. by destruct s as [[] ?].
Qed.

Lemma demo_env c : fork_env c.
Proof.
  constructor.
  - intros w m Hm. cbn [kvm_run demo_kvm]. unfold demo_guest. wp_step. eapply machine_at_wp; [done|]. wp_step. wp_step.
    destruct (guest_store _ _ _) as [s|] eqn:Eg.
    + wp_step. wp_step. wp_step. exists m, s, (c_regs (cpu m)), (c_fpu (cpu m)), (c_sregs (cpu m)).
      split_and!; [done|apply rtc_once; by exists 0x202018, [42; 43]|done|done|].
      cbn [machines]. symmetry. apply insert_id. rewrite Hm. by destruct m as [? ? ? ? ? ? []].
    + wp_step. unfold set_regs, upd_cpu. eapply upd_machine_wp; [done|]. wp_step.
      exists m, (fork_view w m), (set_rdi (c_regs (cpu m)) 0x202018), (c_fpu (cpu m)), (c_sregs (cpu m)).
      split_and!; [done|done|done|done|done].
  - constructor; [|done]. apply lib_bind; [apply lib_copy|intros _].
    apply (lib_bind c _ _ (cpu_of c)); [apply lib_cpu|intros x]. apply lib_bind; [apply lib_read, unsafe_copy_pure|intros l].
    by apply lib_upd_cpu.
  - intros n. apply lib_throw.
  - apply lib_ret.
  - intros p d. apply lib_ret.
  - intros p d. apply lib_ret.
Qed.

(** The first round is the fault, the second the store and the stop. *)
Example fork_runs :
  let r := run (fun _ => 0) 2 1 100 (as_world demo_fork) in
  fst r = Ok tt /\
  match machines (snd r) !! 1 with
  | Some m => fst (copy_from_guest 0x202018 3 (fork_view (snd r) m)) = Ok [42; 43; 0]
  | None => False
  end /\ ld64 (w_heap (snd r)) 0x10202018 = 0.
Proof. vm_compute. split_and!; reflexivity. Qed.


(** [set_vcpu_table_at] writes to a page that it asked for as readable only: on a fork that has
    not copied the page, it writes to the master's. *)
Example vcpu_table_write_reaches_master :
  let w := as_world demo_fork in
  let r := set_vcpu_table_at 1 0 1 7 w in
  fst r = Ok tt /\ ld64 (w_heap w) (0x10005000 + usercode_cpuid) = 0 /\
  ld64 (w_heap (snd r)) (0x10005000 + usercode_cpuid) = 7 * 2 ^ 32.
Proof. vm_compute. split_and!; reflexivity. Qed.
