(* ===== verification/Reset.v ===== *)
(** * Creating and resetting whole forks

    [Machine(const Machine& other, options)] and [Machine::reset_to(const Machine& other, options)]
    (lib/tinykvm/machine.cpp): the parts of a machine - memory, vCPU, threads, descriptors, the
    cache of mappings - put together.  The machines live in the [World] of Remote; what a machine
    has besides memory and vCPU is an [Extra], and all descriptor tables are on one host.

    A slot does not record the read-only flag of [install_memory]. *)
From stdpp Require Import base tactics list numbers strings gmap.
From Stdlib Require Import ZArith Lia Bool.
From S2P Require Import Prelude MMap Host MemoryBanks VMemory Paging ForkIsolation MakeCow PageSetup Fork Cpu Threads Fds GuestCopy Env CpuTables Remote VcpuRun VcpuSafety.
Local Open Scope Z_scope.

(** ** Data *)

Record Addresses := mkAddresses {
  m_image_base : Z; m_stack_address : Z; m_heap_address : Z; m_brk_address : Z; m_brk_end_address : Z; m_start_address : Z }.

(** [m_binary] is the address of its first byte; [x_smp] are the special registers of the vCPUs of
    [m_smp]; signals that were never asked for are the default ones. *)
Record Extra := mkExtra {
  x_binary : Z; x_addr : Addresses; x_mmap_cache : MMapCache.MMapCache; x_just_reset : bool; x_relocate_fixed_mmap : bool;
  x_mt : option MultiThreading; x_signals : Signals; x_fds : option FileDescriptors; x_kvm : CpuState; x_smp : list kvm_sregs }.
Definition set_x_image (x : Extra) b a := mkExtra b a (x_mmap_cache x) (x_just_reset x) (x_relocate_fixed_mmap x)
  (x_mt x) (x_signals x) (x_fds x) (x_kvm x) (x_smp x).
Definition set_x_cache (x : Extra) j c := mkExtra (x_binary x) (x_addr x) c j (x_relocate_fixed_mmap x)
  (x_mt x) (x_signals x) (x_fds x) (x_kvm x) (x_smp x).
Definition set_x_mt (x : Extra) t g := mkExtra (x_binary x) (x_addr x) (x_mmap_cache x) (x_just_reset x)
  (x_relocate_fixed_mmap x) t g (x_fds x) (x_kvm x) (x_smp x).
Definition set_x_fds (x : Extra) f := mkExtra (x_binary x) (x_addr x) (x_mmap_cache x) (x_just_reset x)
  (x_relocate_fixed_mmap x) (x_mt x) (x_signals x) f (x_kvm x) (x_smp x).
Definition set_x_kvm (x : Extra) k := mkExtra (x_binary x) (x_addr x) (x_mmap_cache x) (x_just_reset x)
  (x_relocate_fixed_mmap x) (x_mt x) (x_signals x) (x_fds x) k (x_smp x).
Definition set_x_smp (x : Extra) l := mkExtra (x_binary x) (x_addr x) (x_mmap_cache x) (x_just_reset x)
  (x_relocate_fixed_mmap x) (x_mt x) (x_signals x) (x_fds x) (x_kvm x) l.

Record Sys := mkSys { world : World; extras : gmap Z Extra; fdh : fd_host }.

Record ForkOptions := mkForkOptions {
  fo_mem : MachineOptions; fo_binary : option Z; fo_relocate_fixed_mmap : bool;
  fo_allow_reset_to_new_master : bool; fo_reset_copy_all_registers : bool; fo_reset_enter_usermode : bool }.

(** The threads are reset without a look at guest memory. *)
#[local] Instance no_guest : GuestMemory unit := {|
  guest_write _ _ := throw (Undefined "guest memory"); guest_read _ _ := throw (Undefined "guest memory");
  guest_mmap _ := throw (Undefined "guest memory"); guest_copy _ _ _ := throw (Undefined "guest memory") |}.

Section machines.
Context `{os : HostOS} `{hfds : HostFds} `{kvm : Kvm} `{kvmcpu : KvmCpu}.
(** Members a new thread does not initialise; whether KVM_CREATE_VM succeeds. *)
Context (junk : Junk) (kvm_create_vm : bool).

Definition Y := M Sys.
Definition in_world {A} (m : W A) : Y A := fun s => let (r, w) := m (world s) in (r, mkSys w (extras s) (fdh s)).
Definition extra_of (c : Z) : Y Extra :=
  let! s := get in
  match extras s !! c with Some x => ret x | None => throw (Undefined "no such machine") end.
Definition upd_extra (c : Z) (f : Extra -> Extra) : Y unit :=
  modify (fun s => mkSys (world s) (alter f c (extras s)) (fdh s)).
Definition the_machine (c : Z) : Y RMachine := in_world (machine_at c).

(** An operation on the threads of a machine, which may load its thread pointer. *)
Definition on_threads (c : Z) (m : M (OS unit) unit) : Y unit :=
  let! mc := the_machine c in
  let! x := extra_of c in
  let (r, t) := m (mkOS (c_regs (cpu mc)) (fs_base mc) (stopped (cpu mc)) (x_mt x) (x_signals x) tt) in
  in_world (upd_cpu c (fun v => set_stopped (set_c_regs v (regs t)) (Threads.stopped t))) ;;;
  in_world (set_fs c (sregs_fs t)) ;;;
  upd_extra c (fun x => set_x_mt x (Threads.m_mt t) (m_signals t)) ;;;
  lift r.

(** An operation on the descriptor table of a machine, on the host of all of them. *)
Definition on_fds (c : Z) (f0 : FileDescriptors) (m : M FileDescriptors unit) : Y unit :=
  fun s => let (r, f) := m (set_fhost f0 (fdh s)) in
           (r, mkSys (world s) (alter (fun x => set_x_fds x (Some f)) c (extras s)) (fhost f)).
Definition no_fds : FileDescriptors := mkFds ∅ 0 "" 0 0 0 0 ∅ ∅ 0 [] false (mkFdHost ∅ ∅ 0).
(** [new FileDescriptors{*this}] *)
Definition new_fds (c : Z) : Y unit :=
  let! mc := the_machine c in
  let! s := get in
  on_fds c no_fds (FileDescriptors_new (m_forked (rmem mc)) (fdh s)).
(** [fds()] makes the table if there is none. *)
Definition the_fds (c : Z) : Y FileDescriptors :=
  let! x := extra_of c in
  match x_fds x with
  | Some f => ret f
  | None => new_fds c ;;; (let! x := extra_of c in match x_fds x with Some f => ret f | None => throw (Undefined "no table") end)
  end.

(** ** Parts of both *)

(** The memory of a machine with that of its remote. *)
Definition linked (c : Z) : Y vMemory :=
  let! s := get in
  let ms := machines (world s) in
  match link ms (fst (chain (S (base.size ms)) ms [] c)) with Some m => ret m | None => throw (Undefined "no such machine") end.

Definition set_control (r : kvm_sregs) (x : SRegs) : kvm_sregs :=
  mkSregs (s_cs r) (s_ds r) (s_es r) (s_fs r) (s_gs r) (s_ss r) (s_tr r) (s_gdt r) (s_idt r) (cr0 x) (cr3 x) (s_cr4 r) (s_efer r).

(** [setup_cow_mode(&other)]: the special registers of the master, with the fork's root table, go
    to every vCPU. *)
Definition setup_cow_mode_all (c o : Z) : Y unit :=
  let! mo := the_machine o in
  let! other := linked o in
  let sregs := c_sregs (cpu mo) in
  let! x := in_world (in_guest c (setup_cow_mode other (mkSRegs (s_cr0 sregs) (s_cr3 sregs)))) in
  let sregs := set_control sregs x in
  in_world (upd_cpu c (fun v => set_c_sregs v sregs)) ;;;
  upd_extra c (fun e => set_x_smp e ((fun _ => sregs) <$> x_smp e)).

(** [new MultiThreading{*this}] *)
Definition new_threads (c : Z) : Y unit := upd_extra c (fun x => set_x_mt x (Some (MultiThreading_new junk)) (x_signals x)).
(** [MultiThreading::reset_to] *)
Definition threads_reset (c o : Z) (mt : MultiThreading) : Y unit :=
  let! mo := the_machine o in
  on_threads c (Threads.reset_to junk mt (fs_base mo)).
(** [FileDescriptors::reset_to] *)
Definition fds_reset (c : Z) (other : FileDescriptors) : Y unit :=
  let! f := the_fds c in
  on_fds c f (Fds.reset_to other).

Definition copy_registers (c o : Z) : Y unit :=
  let! mo := the_machine o in
  in_world (VcpuRun.set_registers c (c_regs (cpu mo))) ;;;
  let! f := in_world (fpu_registers o) in
  in_world (set_fpu_registers c f).

(** ** A new fork *)

Definition new_vcpu (c : Z) : vCPU :=
  mkCPU (mkRegs 0 0 0 0 0 0 0 0 0 0 0 0 0 0 0 0 0 0) []
    (mkSregs zero_seg zero_seg zero_seg zero_seg zero_seg zero_seg zero_seg (mkDtable 0 0) (mkDtable 0 0) 0 0 0 0)
    true false 0 0 0 0 0 None c None.
Definition new_cpu_state (k : CpuState) : CpuState :=
  mkCpuState None 0 0 None None
    (mkSregs zero_seg zero_seg zero_seg zero_seg zero_seg zero_seg zero_seg (mkDtable 0 0) (mkDtable 0 0) 0 0 0 0)
    None [] false (minit k) (master_xcr0 k).

(** [create_kvm_vm] is the first step after the check that the master is prepared. *)
Definition fork_memory_of (opt : ForkOptions) (other : vMemory) : M VM unit :=
  if negb (m_prepped other) || main_memory_writes other || kvm_create_vm then fork_memory (fo_mem opt) other
  else throw (MachineException "Failed to KVM_CREATE_VM. Is your user in the 'kvm' group?" 0).

(** The members of a fork; the new machine has the number [c].  What a constructor that throws
    has made stays in the state. *)
Definition make_fork (opt : ForkOptions) (c o : Z) (mo : RMachine) (xo : Extra) : Y unit :=
  let! other := linked o in
  (fun s =>
    let (r, v) := fork_memory_of opt other (mkVM (mkHost (w_heap (world s)) (w_live (world s)) ∅) (rmem mo)) in
    let mc := mkRM (VMemory.set_remote (vm v) None) (h_slots (vhost v)) (m_remote mo) 0 false false (new_vcpu c) in
    let x := mkExtra (default (x_binary xo) (fo_binary opt)) (x_addr xo) (x_mmap_cache xo) true (fo_relocate_fixed_mmap opt)
      None Signals_new None (new_cpu_state (x_kvm xo)) [] in
    (r, mkSys (mkWorld (h_heap (vhost v)) (h_live (vhost v)) (<[c := mc]> (machines (world s))) (locked (world s))
                 (timer_was_triggered (world s))) (<[c := x]> (extras s)) (fdh s))).

(** [vcpu.init(0, this, options)] *)
Definition init_vcpu (c : Z) : Y unit :=
  let! mc := the_machine c in
  let! x := extra_of c in
  let (r, k) := vCPU_init 0 (rmem mc) (x_kvm x) in
  in_world (upd_cpu c (fun v => set_c_sregs (set_last_fault v 0) (sregs k))) ;;;
  upd_extra c (fun x => set_x_kvm x k) ;;;
  lift r.

Definition Machine_Machine (opt : ForkOptions) (c o : Z) : Y unit :=
  let! mo := the_machine o in
  let! xo := extra_of o in
  make_fork opt c o mo xo ;;;
  init_vcpu c ;;;
  setup_cow_mode_all c o ;;;
  (match x_mt xo with Some mt => new_threads c ;;; threads_reset c o mt | None => ret tt end) ;;;
  (match x_fds xo with Some f => new_fds c ;;; fds_reset c f | None => ret tt end) ;;;
  copy_registers c o.

(** ** Resetting a fork *)

(** [memory.compare(other.memory)] *)
Definition compare (m other : vMemory) : bool := ptr m =? ptr other.

(** The main memory is replaced by another master's: the memory, ... *)
Definition swap_memory (opt : ForkOptions) (other : vMemory) : M VM unit :=
  upd (fun m => set_m_kernel_end m (m_kernel_end other)) ;;;
  fork_reset_swap other (o_banks (fo_mem opt)) ;;;
  on_vhost (delete_memory 0) ;;;
  (let! s := get in install_vmem 0 (vmem (vm s))) ;;;
  (let! s := get in
   match remote (vm s) with
   | Some r => on_vhost (delete_memory 1) ;;; install_vmem 1 (vmem r)
   | None => ret tt
   end).
(** ... and the rest. *)
Definition swap_main (opt : ForkOptions) (c : Z) (mc mo : RMachine) (xo : Extra) : Y unit :=
  upd_extra c (fun x => set_x_image x (x_binary xo) (x_addr xo)) ;;;
  in_world (in_guest c (swap_memory opt (rmem mo))).

Definition reset_memory (opt : ForkOptions) (c o : Z) : Y bool :=
  let! mc := the_machine c in
  let! mo := the_machine o in
  let! xc := extra_of c in
  let! xo := extra_of o in
  if negb (x_binary xc =? x_binary xo) || negb (compare (rmem mc) (rmem mo)) then
    if negb (fo_allow_reset_to_new_master opt) then
      throw (MachineException "Swapping main memories not enabled (experimental)" 0)
    else if o_reset_keep_all_work_memory (fo_mem opt) then
      throw (MachineException "Cannot reset to new Machine with old work memory" 0)
    else swap_main opt c mc mo xo ;;; ret true
  else let! other := linked o in in_world (in_guest c (fork_reset other (fo_mem opt))).

Definition reset_threads (c o : Z) : Y unit :=
  let! xc := extra_of c in
  let! xo := extra_of o in
  match x_mt xo with
  | Some mt => when (match x_mt xc with None => true | Some _ => false end) (new_threads c) ;;; threads_reset c o mt
  | None => upd_extra c (fun x => set_x_mt x None (x_signals x))
  end.

(** Returns whether the reset was a full one. *)
Definition reset_to (opt : ForkOptions) (c o : Z) : Y bool :=
  let! mc := the_machine c in
  let! mo := the_machine o in
  if negb (m_forked (rmem mc) && m_prepped (rmem mo)) then throw (Undefined "failed assertion")
  else
    let! _ := in_world (remote_disconnect c) in
    let! full_reset := reset_memory opt c o in
    let! xo := extra_of o in
    upd_extra c (fun x => set_x_cache x full_reset (x_mmap_cache xo)) ;;;
    in_world (upd_cpu c (fun v => set_last_fault v 0)) ;;;
    reset_threads c o ;;;
    (let! f := the_fds c in
     let! fo := the_fds o in
     on_fds c f (Fds.reset_to fo)) ;;;
    when full_reset (setup_cow_mode_all c o) ;;;
    when (fo_reset_copy_all_registers opt) (copy_registers c o) ;;;
    when (fo_reset_enter_usermode opt) (in_world (VcpuRun.enter_usermode c)) ;;;
    ret full_reset.
End machines.

(** ** Programs on the system *)

Section laws.
Context `{os : HostOS} `{laws : !HostLaws os} `{hfds : HostFds} `{fd_laws : !HostFdLaws hfds} `{kvm : Kvm} `{kvmcpu : KvmCpu}.
Context (junk : Junk) (kvm_create_vm : bool).

(** The system [s], in which machine [c] is now [m] and [x], and the host has the memory and the
    descriptors given. *)
Definition sys_at (s : Sys) (c : Z) (h : heap) (live : list (Z * Z)) (m : RMachine) (x : Extra) (fh : fd_host) : Sys :=
  mkSys (mkWorld h live (<[c := m]> (machines (world s))) (locked (world s)) (timer_was_triggered (world s)))
    (<[c := x]> (extras s)) fh.

Lemma sys_at_id s c m x : machines (world s) !! c = Some m -> extras s !! c = Some x ->
  s = sys_at s c (w_heap (world s)) (w_live (world s)) m x (fdh s).
Proof. intros Hm Hx. unfold sys_at. rewrite !insert_id by done. by destruct s as [[] ? ?]. Qed.

Lemma in_world_wp {A} (m : W A) (Q : A -> Sys -> Prop) X s :
  wp m (fun a w => Q a (mkSys w (extras s) (fdh s))) (fun e w => X e (mkSys w (extras s) (fdh s))) (world s) ->
  wp (in_world m) Q X s.
Proof. unfold wp, in_world. by destruct (m (world s)) as [[] ?]. Qed.

Section steps.
Context (s : Sys) (c o : Z) (mo : RMachine) (xo : Extra).
Context (Hco : c <> o) (Hmo : machines (world s) !! o = Some mo) (Hxo : extras s !! o = Some xo).
Implicit Types (h : heap) (live : list (Z * Z)) (m : RMachine) (x : Extra) (fh : fd_host).

Lemma machine_c h live m x fh (Q : RMachine -> Sys -> Prop) X : Q m (sys_at s c h live m x fh) ->
  wp (the_machine c) Q X (sys_at s c h live m x fh).
Proof. intros HQ. apply in_world_wp. eapply machine_at_wp; [cbn; apply lookup_insert_eq|done]. Qed.
Lemma machine_o h live m x fh (Q : RMachine -> Sys -> Prop) X : Q mo (sys_at s c h live m x fh) ->
  wp (the_machine o) Q X (sys_at s c h live m x fh).
Proof. intros HQ. apply in_world_wp. eapply machine_at_wp; [cbn; by rewrite lookup_insert_ne|done]. Qed.
Lemma extra_c h live m x fh (Q : Extra -> Sys -> Prop) X : Q x (sys_at s c h live m x fh) ->
  wp (extra_of c) Q X (sys_at s c h live m x fh).
Proof. intros HQ. unfold extra_of. wp_step. wp_step. cbn [extras sys_at]. rewrite lookup_insert_eq. by wp_step. Qed.
Lemma extra_o h live m x fh (Q : Extra -> Sys -> Prop) X : Q xo (sys_at s c h live m x fh) ->
  wp (extra_of o) Q X (sys_at s c h live m x fh).
Proof.
  intros HQ. unfold extra_of. wp_step. wp_step. cbn [extras sys_at]. rewrite lookup_insert_ne, Hxo by done. by wp_step.
Qed.
Lemma upd_extra_c h live m x fh f (Q : unit -> Sys -> Prop) X : Q tt (sys_at s c h live m (f x) fh) ->
  wp (upd_extra c f) Q X (sys_at s c h live m x fh).
Proof. intros HQ. unfold upd_extra. wp_step. unfold sys_at in *. cbn [extras world fdh]. by rewrite alter_insert_eq. Qed.
Lemma upd_machine_c h live m x fh f (Q : unit -> Sys -> Prop) X : Q tt (sys_at s c h live (f m) x fh) ->
  wp (in_world (upd_machine c f)) Q X (sys_at s c h live m x fh).
Proof.
  intros HQ. apply in_world_wp. unfold upd_machine. wp_step. unfold sys_at in *. cbn in *.
  unfold set_machines. cbn. by rewrite alter_insert_eq.
Qed.

Lemma the_fds_c h live m x fh f (Q : FileDescriptors -> Sys -> Prop) X : x_fds x = Some f -> Q f (sys_at s c h live m x fh) ->
  wp (the_fds c) Q X (sys_at s c h live m x fh).
Proof. intros E HQ. unfold the_fds. wp_step. apply extra_c. rewrite E. by wp_step. Qed.
Lemma the_fds_o h live m x fh f (Q : FileDescriptors -> Sys -> Prop) X : x_fds xo = Some f -> Q f (sys_at s c h live m x fh) ->
  wp (the_fds o) Q X (sys_at s c h live m x fh).
Proof. intros E HQ. unfold the_fds. wp_step. apply extra_o. rewrite E. by wp_step. Qed.

(** An operation on the memory of the machine, which has no remote. *)
Lemma guest_c {A} h live m x fh (op : M VM A) (Q : A -> Sys -> Prop) X : m_remote m = None ->
  let back (v : VM) := sys_at s c (h_heap (vhost v)) (h_live (vhost v))
    (set_rmem m (VMemory.set_remote (vm v) None) (h_slots (vhost v))) x fh in
  wp op (fun a v => Q a (back v)) (fun e v => X e (back v))
    (mkVM (mkHost h live (rslots m)) (VMemory.set_remote (rmem m) None)) ->
  wp (in_world (in_guest c op)) Q X (sys_at s c h live m x fh).
Proof.
  intros Hr back Hop. apply in_world_wp. eapply (in_guest_alone c op _ m); [cbn; apply lookup_insert_eq|done|].
  eapply wp_mono; [exact Hop|..]; intros a v; unfold back, sys_at, put_back; cbn; by rewrite insert_insert_eq.
Qed.

Lemma linked_o h live m x fh (Q : vMemory -> Sys -> Prop) X : m_remote mo = None ->
  Q (VMemory.set_remote (rmem mo) None) (sys_at s c h live m x fh) -> wp (linked o) Q X (sys_at s c h live m x fh).
Proof.
  intros Hr HQ. unfold linked. wp_step. wp_step. cbn [world sys_at machines chain].
  rewrite lookup_insert_ne, Hmo, Hr by done. cbn [fst link]. rewrite lookup_insert_ne, Hmo by done. by wp_step.
Qed.

Lemma on_fds_c h live m x fh f0 op (Q : unit -> Sys -> Prop) X :
  let back f := sys_at s c h live m (set_x_fds x (Some f)) (fhost f) in
  wp op (fun _ f => Q tt (back f)) (fun e f => X e (back f)) (set_fhost f0 fh) ->
  wp (on_fds c f0 op) Q X (sys_at s c h live m x fh).
Proof.
  intros back Hop. unfold wp, on_fds in *. cbn [fdh sys_at] in *. destruct (op (set_fhost f0 fh)) as [[[]|e] f];
    unfold back, sys_at in *; cbn [world extras]; by rewrite alter_insert_eq.
Qed.
End steps.

(** ** Resetting the memory *)

(** The options fit the banks, and the host takes memory back. *)
Record bank_room (o : MachineOptions) (b : MemoryBanks) : Prop := {
  br_madvise : forall live p len, os_madvise live p len = true;
  br_max : 0 <= max_cow_mem (o_banks o) < 2 ^ 32;
  br_room : reserved_banks (set_max b (max_cow_mem (o_banks o) / 4096)) <= m_capacity b }.

Lemma main_not_dirty m live q : main_ok m live -> Forall bank_ok (m_mem (banks m)) -> main_word m q ->
  ~ Exists (in_dirty q) (m_mem (banks m)).
Proof.
  intros [] Hok [_ Hq] (b&Hb&Hd)%Exists_exists. rewrite Forall_forall in *. specialize (mo_apart b Hb).
  destruct (Hok b Hb). unfold ranges_apart, bank_map, in_dirty in *. simpl in *. lia.
Qed.

(** Nothing is left of what a fork has allocated: no page of its banks is in use or has been. *)
Definition blank (s : VM) : Prop := core_inv untyped s /\ Forall (fun b => n_used b = 0 /\ n_dirty b = 0) (m_mem (banks (vm s))).

Lemma reset_core o s : banks_inv (mkBS (vhost s) (banks (vm s))) -> main_memory_writes (vm s) = false ->
  main_ok (vm s) (h_live (vhost s)) -> bank_room o (banks (vm s)) ->
  wp (on_banks (banks_reset (o_banks o))) (fun _ s' => blank s' /\ main_unchanged s s') (fun _ _ => False) s.
Proof.
  intros Hb Hw Hm []. apply wp_on_banks. eapply wp_mono; [by apply banks_reset_wp| |done].
  intros _ [h b] (Hb'&Eb&El&_&Hq). cbn [bs_host bs_banks] in *. subst b. split; [split|].
  - constructor; [exact Hb'|done| |done]. destruct Hm. constructor; cbn [vm vhost set_banks ptr size physbase banks set_mem m_mem
      set_max m_arena_next]; rewrite ?El; try done; apply Forall_fmap; done.
  - cbn. apply Forall_fmap, Forall_true. done.
  - split; [apply set_banks_same_main|]. intros q Hmq. cbn. apply Hq; [apply Hmq|].
    eapply main_not_dirty; [done|apply Hb|done].
Qed.

Lemma core_upd Ψ s f : core_inv Ψ s -> same_main (vm s) (f (vm s)) -> banks (f (vm s)) = banks (vm s) ->
  core_inv Ψ (mkVM (vhost s) (f (vm s))) /\ main_unchanged s (mkVM (vhost s) (f (vm s))).
Proof.
  intros [H1 H2 [] H4] (E1&E2&E3&E4&E5&E6) Eb. split; [|by split].
  constructor; cbn [vm vhost]; rewrite ?Eb, ?E5; [done|done|constructor; by rewrite ?E1, ?E2, ?E3, ?Eb|].
  intros p n Hp. unfold owned_page. rewrite Eb. by eapply H4.
Qed.

Lemma blank_upd s f : blank s -> same_main (vm s) (f (vm s)) -> banks (f (vm s)) = banks (vm s) ->
  blank (mkVM (vhost s) (f (vm s))) /\ main_unchanged s (mkVM (vhost s) (f (vm s))).
Proof. intros [Hc Hb] Hs E. destruct (core_upd _ _ f Hc Hs E) as [Hc' Hu]. split; [split; [exact Hc'|]|exact Hu]. cbn. by rewrite E. Qed.
Lemma blank_quiet s s' : blank s -> quiet s s' -> blank s'.
Proof.
  intros [Hc Hb] Hq. split; [by eapply core_inv_quiet|]. destruct Hq as (_&_&_&Ei).
  assert (m_mem (banks (vm s')) = m_mem (banks (vm s))) as -> by exact (f_equal m_mem Ei). done.
Qed.

Lemma fork_reset_wp Ψ main o s : core_inv Ψ s -> o_reset_keep_all_work_memory o = false -> bank_room o (banks (vm s)) ->
  wp (fork_reset main o) (fun full s' => full = true /\ blank s' /\ main_unchanged s s') (fun _ _ => False) s.
Proof.
  intros [] Hk Hr. unfold fork_reset. wp_step. wp_step. rewrite Hk. wp_step.
  eapply wp_mono; [by apply reset_core| |done]. intros _ s1 [Hc Hu]. unfold upd. wp_step. wp_step. wp_step.
  destruct (blank_upd _ (fun m => set_cow_written_pages m []) Hc) as [Hc' Hu']; [done|done|].
  split_and!; [done|done|by eapply main_unchanged_trans].
Qed.
Lemma delete_memory_quiet s i : wp (on_vhost (delete_memory i)) (fun _ s' => quiet s s') (fun _ s' => quiet s s') s.
Proof.
  unfold wp, on_vhost, delete_memory, bind, get. destruct (kvm_accepts _ _ _); simpl;
    (split_and!; [done|done|apply same_main_refl|done]).
Qed.

Lemma quiet_kept other h s s' : main_kept other h s -> quiet s s' -> main_kept other h s'.
Proof. intros (E1&E2&Hq) (Eh&_&(F1&F2&_)&_). split_and!; [congruence|congruence|]. intros q Hm. rewrite Eh. by apply Hq. Qed.

Lemma swap_memory_wp opt other s : banks_inv (mkBS (vhost s) (banks (vm s))) -> main_memory_writes (vm s) = false ->
  main_ok (set_banks other (banks (vm s))) (h_live (vhost s)) -> bank_room (fo_mem opt) (banks (vm s)) ->
  wp (swap_memory opt other)
    (fun _ s' => blank s' /\ physbase (vm s') = physbase other /\ main_kept other (vhost s) s')
    (fun _ s' => main_kept other (vhost s) s') s.
Proof.
  intros Hb Hw Hm Hr. unfold swap_memory, fork_reset_swap, upd. wp_step. wp_step. wp_step. wp_step. wp_step.
  set (s1 := mkVM _ (adopt_main _ _)). eapply wp_mono; [apply (reset_core (fo_mem opt) s1)| |done].
  { exact Hb. } { exact Hw. } { destruct Hm. by constructor. } { exact Hr. }
  intros _ s2 [Hc [(E1&E2&E3&_) Hu]].
  assert (main_kept other (vhost s) s2) as Hk by (split_and!; [exact E1|exact E2|exact Hu]).
  wp_step. eapply wp_mono; [apply delete_memory_quiet| |intros e s3 Hq; by eapply quiet_kept].
  intros [] s3 Hq3. wp_step. wp_step. wp_step.
  eapply (wp_mono _ (fun _ s' => quiet s3 s') _ (fun _ s' => quiet s3 s')); [apply install_memory_quiet| |].
  2: { intros e s4 Hq4. eapply quiet_kept; [done|]. by eapply quiet_trans. }
  intros [] s4 Hq4. assert (quiet s2 s4) as Hq by by eapply quiet_trans. wp_step. wp_step.
  assert (forall s5, quiet s2 s5 -> blank s5 /\ physbase (vm s5) = physbase other /\ main_kept other (vhost s) s5) as Hend.
  { intros s5 Hq5. split_and!; [by eapply blank_quiet|destruct Hq5 as (_&_&(_&_&->&_)&_); exact E3|by eapply quiet_kept]. }
  destruct (remote (vm s4)) as [r|]; [|wp_step; by apply Hend].
  wp_step. eapply wp_mono; [apply delete_memory_quiet| |].
  2: { intros e s5 Hq5. eapply quiet_kept; [done|]. by eapply quiet_trans. }
  intros [] s5 Hq5. assert (quiet s2 s5) as Hq25 by by eapply quiet_trans.
  eapply wp_mono; [apply install_memory_quiet| |].
  - intros [] s6 Hq6. apply Hend. by eapply quiet_trans.
  - intros e s6 Hq6. eapply quiet_kept; [done|]. by eapply quiet_trans.
Qed.

(** ** A fork on its way *)

Definition whost (w : World) : host := mkHost (w_heap w) (w_live w) ∅.
Definition own (m : RMachine) : vMemory := VMemory.set_remote (rmem m) None.
Definition view (h : heap) (live : list (Z * Z)) (m : RMachine) : VM := mkVM (mkHost h live (rslots m)) (own m).

Section forks.
Context (s : Sys) (c o : Z) (mo : RMachine) (xo : Extra).
Context (Hco : c <> o) (Hmo : machines (world s) !! o = Some mo) (Hxo : extras s !! o = Some xo) (Hro : m_remote mo = None).
Context (opt : ForkOptions) (Hfk : forkable (fo_mem opt) (own mo) (whost (world s))).
Implicit Types (h : heap) (live : list (Z * Z)) (m : RMachine) (x : Extra) (fh : fd_host).

(** The memory of the master is as it was. *)
Definition master_kept (s' : Sys) : Prop :=
  forall q, main_word (rmem mo) q -> ld64 (w_heap (world s')) q = ld64 (w_heap (world s)) q.

(** No other machine has changed, either. *)
Definition unharmed (s' : Sys) : Prop := master_kept s' /\
  forall d, d <> c -> machines (world s') !! d = machines (world s) !! d /\ extras s' !! d = extras s !! d.
Lemma others_at h live m x fh d : d <> c -> let s' := sys_at s c h live m x fh in
  machines (world s') !! d = machines (world s) !! d /\ extras s' !! d = extras s !! d.
Proof. intros Hd. cbn. by rewrite !lookup_insert_ne. Qed.
Lemma unharmed_at h live m x fh : master_kept (sys_at s c h live m x fh) -> unharmed (sys_at s c h live m x fh).
Proof. intros Hk. split; [exact Hk|]. intros d Hd. by apply others_at. Qed.

(** The control registers of the master. *)
Definition master_sregs : SRegs := mkSRegs (s_cr0 (c_sregs (cpu mo))) (s_cr3 (c_sregs (cpu mo))).
(** The memory of machine [m] is what [setup_cow_mode] makes of the master's main memory and
    banks of which no page is in use. *)
Definition as_made h live m : Prop := exists v0 r v,
  blank v0 /\ physbase (vm v0) = physbase (rmem mo) /\ main_kept (own mo) (whost (world s)) v0 /\
  setup_cow_mode (own mo) master_sregs v0 = (Ok r, v) /\
  rmem m = VMemory.set_remote (vm v) None /\ mkHost h live (rslots m) = vhost v.

(** Machine [c] has the master's main memory and empty banks; ... *)
Record loaning h live m : Prop := {
  lo_alone : alone c m;
  lo_phys : physbase (rmem m) = physbase (rmem mo);
  lo_blank : blank (view h live m);
  lo_kept : main_kept (own mo) (whost (world s)) (view h live m) }.
(** ... and page tables of its own. *)
Record forked h live m : Prop := {
  fk_alone : alone c m;
  fk_inv : exists Ψ, fork_inv Ψ (view h live m);
  fk_made : as_made h live m;
  fk_kept : main_kept (own mo) (whost (world s)) (view h live m) }.

Lemma kept_at h live m x fh (v : VM) : main_kept (own mo) (whost (world s)) v -> h = h_heap (vhost v) -> master_kept (sys_at s c h live m x fh).
Proof. intros (_&_&Hq) -> q Hm. by apply Hq. Qed.
Lemma loaning_kept h live m x fh : loaning h live m -> master_kept (sys_at s c h live m x fh).
Proof. intros []. by eapply kept_at. Qed.
Lemma forked_kept h live m x fh : forked h live m -> master_kept (sys_at s c h live m x fh).
Proof. intros []. by eapply kept_at. Qed.

(** Only registers change. *)
Definition cpu_only (f : vCPU -> vCPU) : Prop :=
  forall v, m_machine (f v) = m_machine v /\ m_original_machine (f v) = m_original_machine v.
Lemma alone_cpu m f : cpu_only f -> alone c m -> alone c (on_cpu f m).
Proof. intros Hf (?&?&?). destruct (Hf (cpu m)) as [E1 E2]. split_and!; [done|by simpl; rewrite E1|by simpl; rewrite E2]. Qed.
Lemma loaning_cpu h live m f : cpu_only f -> loaning h live m -> loaning h live (on_cpu f m).
Proof. intros Hf []. constructor; [by apply alone_cpu|done..]. Qed.
Lemma forked_cpu h live m f : cpu_only f -> forked h live m -> forked h live (on_cpu f m).
Proof. intros Hf []. constructor; [by apply alone_cpu|done..]. Qed.

(** The special registers of a fork with the root table [pt]. *)
Definition fork_sregs (pt : Z) : kvm_sregs :=
  set_control (c_sregs (cpu mo)) (mkSRegs (s_cr0 (c_sregs (cpu mo)) .& not64 CR0_WP) pt).

Lemma wp_ran {S A} (m : M S A) Q X (s0 : S) : wp m Q X s0 -> wp m (fun a s' => Q a s' /\ m s0 = (Ok a, s')) X s0.
Proof. unfold wp. by destruct (m s0) as [[a|e] s']. Qed.

Lemma remote_none m : own m = VMemory.set_remote (own m) None.
Proof. done. Qed.

Lemma cow_mode_all h live m x fh (Q : unit -> Sys -> Prop) (X : exn -> Sys -> Prop) : loaning h live m ->
  (forall h' live' v' sl', let m' := on_cpu (fun v => set_c_sregs v (fork_sregs (page_tables v'))) (set_rmem m v' sl') in
     forked h' live' m' ->
     Q tt (sys_at s c h' live' m' (set_x_smp x ((fun _ => fork_sregs (page_tables v')) <$> x_smp x)) fh)) ->
  (forall e h' live' m', master_kept (sys_at s c h' live' m' x fh) -> X e (sys_at s c h' live' m' x fh)) ->
  wp (setup_cow_mode_all c o) Q X (sys_at s c h live m x fh).
Proof.
  intros [Ha Hp Hb Hk] HQ HX. pose proof Hb as [Hc _]. pose proof Hk as (E1&E2&_). unfold setup_cow_mode_all.
  wp_step. eapply machine_o; [done..|]. wp_step. eapply linked_o; [done..|]. wp_step.
  apply guest_c; [apply Ha|]. eapply wp_mono; [apply wp_ran, (cow_mode_wp (fo_mem opt) (own mo) (whost (world s)))|..]; try done.
  - intros r v [((Ψ&Hi)&Hkv&->) Hrun]. wp_step. apply upd_machine_c. apply upd_extra_c.
    apply (HQ _ _ (VMemory.set_remote (vm v) None)). apply forked_cpu; [done|].
    destruct (fork_inv_upd Ψ v (fun y => VMemory.set_remote y None) Hi) as (Hi'&_); [done|done|].
    destruct v as [[hh ll sl] y]. constructor; [exact Ha|by exists Ψ| |exact Hkv].
    eexists _, _, _. split_and!; [exact Hb|exact Hp|exact Hk|exact Hrun|done|done].
  - intros e v Hkv. apply HX. eapply kept_at; [exact Hkv|reflexivity].
Qed.

Definition with_fs (r : kvm_sregs) (b : Z) : kvm_sregs :=
  mkSregs (s_cs r) (s_ds r) (s_es r) (seg_with_base (s_fs r) b) (s_gs r) (s_ss r) (s_tr r) (s_gdt r) (s_idt r) (s_cr0 r) (s_cr3 r)
    (s_cr4 r) (s_efer r).

Lemma threads_reset_wp h live m x fh mt1 mt2 (Q : unit -> Sys -> Prop) X : x_mt x = Some mt1 -> mt_inv mt1 -> mt_inv mt2 ->
  (forall b, b = fs_base m \/ b = fs_base mo ->
     Q tt (sys_at s c h live (on_cpu (fun v => set_c_sregs v (with_fs (c_sregs v) b)) m) (set_x_mt x (Some mt2) (x_signals x)) fh)) ->
  wp (threads_reset junk c o mt2) Q X (sys_at s c h live m x fh).
Proof.
  intros Hx H1 H2 HQ. destruct (mi_queue _ H1) as (c1&Hc1&_), (mi_queue _ H2) as (c2&Hc2&_). unfold threads_reset, on_threads.
  wp_step. eapply machine_o; [done..|]. wp_step. apply machine_c. wp_step. apply extra_c.
  rewrite (reset_to_copies junk _ mt1 c1 mt2 c2) by done. cbn [regs Threads.stopped sregs_fs Threads.m_mt m_signals].
  wp_step. apply upd_machine_c. wp_step. apply upd_machine_c. wp_step. apply upd_extra_c. wp_step. cbn [Threads.regs].
  replace (on_cpu (fun v => set_stopped (set_c_regs v (c_regs (cpu m))) (stopped (cpu m))) m) with m by by destruct m as [? ? ? ? ? ? []].
  apply HQ. destruct (c2 =? c1); [by left|by right].
Qed.

Lemma copy_registers_wp h live m x fh (Q : unit -> Sys -> Prop) (X : exn -> Sys -> Prop) :
  Q tt (sys_at s c h live (on_cpu (fun v => set_c_fpu (set_c_regs v (c_regs (cpu mo))) (c_fpu (cpu mo))) m) x fh) ->
  (forall e m', X e (sys_at s c h live m' x fh)) ->
  wp (copy_registers c o) Q X (sys_at s c h live m x fh).
Proof.
  intros HQ HX. unfold copy_registers. wp_step. eapply machine_o; [done..|]. wp_step. apply upd_machine_c. wp_step.
  unfold fpu_registers, set_fpu_registers, cpu_of. destruct kvm_fpu.
  - apply in_world_wp. wp_step. wp_step. eapply machine_at_wp; [cbn; by rewrite lookup_insert_ne|]. wp_step. wp_step. by apply upd_machine_c.
  - apply in_world_wp, wp_throw. exact (HX _ (on_cpu (fun v => set_c_regs v (c_regs (cpu mo))) m)).
Qed.

(** ** What a fork is to be *)

(** In [s'], machine [c] is a fork of the master: its memory is what [setup_cow_mode] makes of
    empty banks, so that nothing is left of what it did before, it satisfies the invariant of
    forks, and the master's is as it was; its registers, threads, mappings and descriptors are
    those of the master, and no other machine has changed. *)
Record fork_of (copied user : bool) (addr : Addresses) (table : option FileDescriptors -> fd_host -> Prop) (s' : Sys)
    (m : RMachine) (x : Extra) : Prop := {
  fr_at : fork_at c (world s') m;
  fr_main : ptr (rmem m) = ptr (rmem mo) /\ size (rmem m) = size (rmem mo);
  fr_made : as_made (w_heap (world s')) (w_live (world s')) m;
  fr_kept : master_kept s';
  fr_sregs : c_sregs (cpu m) = (if user then usermode else id) (fork_sregs (page_tables (rmem m)));
  fr_smp : Forall (fun r => r = fork_sregs (page_tables (rmem m))) (x_smp x);
  fr_regs : copied = true -> c_regs (cpu m) = c_regs (cpu mo) /\ c_fpu (cpu m) = c_fpu (cpu mo);
  fr_fault : last_fault_address (cpu m) = 0;
  fr_extra : extras s' !! c = Some x;
  fr_addr : x_addr x = addr;
  fr_threads : x_mt x = x_mt xo;
  fr_maps : x_mmap_cache x = x_mmap_cache xo;
  fr_just_reset : x_just_reset x = true;
  fr_table : table (x_fds x) (fdh s');
  fr_others : forall d, d <> c -> machines (world s') !! d = machines (world s) !! d /\ extras s' !! d = extras s !! d }.

Lemma forked_at h live m x fh : forked h live m -> fork_at c (world (sys_at s c h live m x fh)) m.
Proof. intros []. split_and!; [cbn; apply lookup_insert_eq|done|done]. Qed.

Lemma forked_main h live m : forked h live m -> ptr (rmem m) = ptr (rmem mo) /\ size (rmem m) = size (rmem mo).
Proof. by intros [_ _ _ (E1&E2&_)]. Qed.

(** ** Resetting *)

Definition swapped (mc : RMachine) (xc : Extra) : bool :=
  negb (x_binary xc =? x_binary xo) || negb (compare (rmem mc) (rmem mo)).

Lemma reset_memory_wp h live mc xc fh (Q : bool -> Sys -> Prop) (X : exn -> Sys -> Prop) :
  alone c mc -> (exists Ψ, fork_inv Ψ (view h live mc)) -> o_reset_keep_all_work_memory (fo_mem opt) = false ->
  bank_room (fo_mem opt) (banks (rmem mc)) -> master_kept (sys_at s c h live mc xc fh) ->
  (if swapped mc xc then main_ok (set_banks (rmem mo) (banks (rmem mc))) live
   else size (rmem mc) = size (rmem mo) /\ physbase (rmem mc) = physbase (rmem mo)) ->
  (forall h' live' v' sl' b, loaning h' live' (set_rmem mc v' sl') ->
     Q true (sys_at s c h' live' (set_rmem mc v' sl') (set_x_image xc b (if swapped mc xc then x_addr xo else x_addr xc)) fh)) ->
  (forall e h' live' m' x', master_kept (sys_at s c h' live' m' x' fh) -> X e (sys_at s c h' live' m' x' fh)) ->
  wp (reset_memory opt c o) Q X (sys_at s c h live mc xc fh).
Proof.
  intros Ha [Ψ Hi] Hkeep Hr Hk Hm HQ HX. unfold reset_memory. wp_step. apply machine_c. wp_step. eapply machine_o; [done..|].
  wp_step. apply extra_c. wp_step. eapply extra_o; [done..|]. fold (swapped mc xc). destruct (swapped mc xc) eqn:Esw.
  - destruct (fo_allow_reset_to_new_master opt); cbn [negb]; [|wp_step; by apply HX]. rewrite Hkeep. unfold swap_main.
    wp_step. wp_step. apply upd_extra_c. apply guest_c; [apply Ha|].
    eapply wp_mono; [apply (swap_memory_wp opt (rmem mo) (view h live mc)); [apply Hi|apply Hi|exact Hm|exact Hr]|..].
    + intros _ [[hh ll sl] v] (Hc&Ep&(E1&E2&Hq)). wp_step. apply (HQ _ _ (VMemory.set_remote v None)).
      destruct (blank_upd _ (fun y => VMemory.set_remote y None) Hc) as [Hc' _]; [done|done|].
      constructor; [exact Ha|exact Ep|exact Hc'|]. split_and!; [exact E1|exact E2|]. intros q Hq'.
      etransitivity; [apply (Hq q Hq')|by apply Hk].
    + intros e v (_&_&Hq). apply HX. intros q Hq'. etransitivity; [by apply Hq|by apply Hk].
  - wp_step. eapply linked_o; [done..|]. apply guest_c; [apply Ha|]. destruct Hm as [Es Ep].
    unfold swapped in Esw. apply orb_false_iff in Esw as [_ Ecmp%negb_false_iff]. unfold compare in Ecmp. apply Z.eqb_eq in Ecmp.
    apply fork_inv_core in Hi as (Hc&_).
    eapply wp_mono; [apply (fork_reset_wp Ψ); [exact Hc|done|exact Hr]| |done].
    intros full [[hh ll sl] v] (->&Hc'&[(E1&E2&E3&_) Hq]). 
    replace xc with (set_x_image xc (x_binary xc) (x_addr xc)) by by destruct xc.
    apply (HQ _ _ (VMemory.set_remote v None)). destruct (blank_upd _ (fun y => VMemory.set_remote y None) Hc') as [Hc'' _]; [done|done|].
    cbn in E1, E2, E3. constructor; [exact Ha|cbn; congruence|exact Hc''|]. split_and!; [cbn; congruence|cbn; congruence|].
    intros q Hq'. cbn [view vhost h_heap]. assert (main_word (rmem mc) q) as Hq2 by (unfold main_word in *; cbn in *; by rewrite Ecmp, Es).
    etransitivity; [apply (Hq q Hq2)|]. by apply Hk.
Qed.

Definition threads_ok (mt : option MultiThreading) : Prop := match mt with Some m => mt_inv m | None => True end.

Lemma reset_threads_wp h live m x fh (Q : unit -> Sys -> Prop) X : threads_ok (x_mt x) -> threads_ok (x_mt xo) ->
  (forall f, Q tt (sys_at s c h live (on_cpu (fun v => set_c_sregs v (f v)) m) (set_x_mt x (x_mt xo) (x_signals x)) fh)) ->
  wp (reset_threads junk c o) Q X (sys_at s c h live m x fh).
Proof.
  intros Hx Ho HQ. unfold reset_threads. wp_step. apply extra_c. wp_step. eapply extra_o; [done..|].
  destruct (x_mt xo) as [mt|].
  - wp_step. destruct (x_mt x) as [mt1|] eqn:Ex; cbn [when].
    + wp_step. eapply threads_reset_wp; [done..|]. intros b _. apply (HQ (fun v => with_fs (c_sregs v) b)).
    + unfold new_threads. apply upd_extra_c. eapply threads_reset_wp; [done|apply mt_inv_new|done|]. intros b _.
      apply (HQ (fun v => with_fs (c_sregs v) b)).
  - apply upd_extra_c. specialize (HQ c_sregs).
    assert (on_cpu (fun v => set_c_sregs v (c_sregs v)) m = m) as E by by destruct m as [? ? ? ? ? ? []]. by rewrite E in HQ.
Qed.

Lemma when_copy (b : bool) h live m x fh (Q : unit -> Sys -> Prop) (X : exn -> Sys -> Prop) :
  Q tt (sys_at s c h live (if b then on_cpu (fun v => set_c_fpu (set_c_regs v (c_regs (cpu mo))) (c_fpu (cpu mo))) m else m) x fh) ->
  (forall e m', X e (sys_at s c h live m' x fh)) ->
  wp (when b (copy_registers c o)) Q X (sys_at s c h live m x fh).
Proof. intros HQ HX. destruct b; [by apply copy_registers_wp|by wp_step]. Qed.
Lemma when_user (b : bool) h live m x fh (Q : unit -> Sys -> Prop) X :
  Q tt (sys_at s c h live (if b then on_cpu (fun v => set_c_sregs v (usermode (c_sregs v))) m else m) x fh) ->
  wp (when b (in_world (VcpuRun.enter_usermode c))) Q X (sys_at s c h live m x fh).
Proof. intros HQ. destruct b; cbn [when]; [by apply upd_machine_c|by apply wp_ret]. Qed.
Lemma master_kept_cpu h live m m' x fh : master_kept (sys_at s c h live m x fh) -> master_kept (sys_at s c h live m' x fh).
Proof. done. Qed.

(** A fork that can be reset to the master. *)
Record resettable (foreign loose : gset Z) (mc : RMachine) (xc : Extra) (fc fo : FileDescriptors) : Prop := {
  rs_machine : machines (world s) !! c = Some mc;
  rs_extra : extras s !! c = Some xc;
  rs_fork : fork_at c (world s) mc;
  rs_forked : m_forked (rmem mc) = true;
  rs_prepped : m_prepped (rmem mo) = true;
  rs_keep : o_reset_keep_all_work_memory (fo_mem opt) = false;
  rs_room : bank_room (fo_mem opt) (banks (rmem mc));
  rs_main : if swapped mc xc then main_ok (set_banks (rmem mo) (banks (rmem mc))) (w_live (world s))
            else size (rmem mc) = size (rmem mo) /\ physbase (rmem mc) = physbase (rmem mo);
  rs_threads : threads_ok (x_mt xc) /\ threads_ok (x_mt xo);
  rs_tables : x_fds xc = Some fc /\ x_fds xo = Some fo;
  rs_fds : fds_inv foreign loose (set_fhost fc (fdh s));
  rs_epoll : epoll_coherent fo;
  rs_recorded : recorded_well foreign fo }.

Lemma reset_to_wp foreign loose mc xc fc fo : resettable foreign loose mc xc fc fo ->
  wp (reset_to junk opt c o)
    (fun full s' => full = true /\ exists m x,
       fork_of (fo_reset_copy_all_registers opt) (fo_reset_enter_usermode opt) (if swapped mc xc then x_addr xo else x_addr xc)
         (fun t fh => exists f, t = Some f /\ fhost f = fh /\ table_of foreign loose fo f) s' m x)
    (fun _ s' => unharmed s') s.
Proof.
  intros []. destruct rs_threads0 as [Ht1 Ht2], rs_tables0 as [Ef1 Ef2]. pose proof rs_fork0 as (_&Ha&Hi).
  rewrite (sys_at_id s c mc xc) by done. unfold reset_to.
  wp_step. apply machine_c. wp_step. eapply machine_o; [done..|]. rewrite rs_forked0, rs_prepped0. cbn [andb negb].
  wp_step. apply in_world_wp. unfold remote_disconnect. wp_step. eapply machine_at_wp; [cbn; apply lookup_insert_eq|].
  unfold is_remote_connected. rewrite (proj1 Ha). cbn [negb]. wp_step.
  match goal with |- wp _ _ _ ?t => change t with (sys_at s c (w_heap (world s)) (w_live (world s)) mc xc (fdh s)) end.
  wp_step. apply reset_memory_wp; [done|exact Hi|done|done|by intros q _|done| |intros; by apply unharmed_at].
  intros h1 live1 v1 sl1 b1 H1. set (addr := if swapped mc xc then _ else _) in *.
  wp_step. eapply extra_o; [done..|]. wp_step. apply upd_extra_c. wp_step. apply upd_machine_c. wp_step.
  apply reset_threads_wp; [done|done|]. intros r.
  assert (loaning h1 live1 (on_cpu (fun v => set_c_sregs v (r v)) (on_cpu (fun v => set_last_fault v 0) (set_rmem mc v1 sl1)))) as H2
    by by apply loaning_cpu, loaning_cpu.
  set (m2 := on_cpu _ _) in *. set (x2 := set_x_mt _ _ _). wp_step. wp_step. apply (the_fds_c _ _ _ _ _ _ _ fc); [done|].
  wp_step. eapply the_fds_o; [done..|].
  apply on_fds_c. eapply wp_mono; [by apply (fds_reset_to_wp foreign loose)| |intros e f _; by apply unharmed_at, loaning_kept].
  intros [] f Hf. wp_step. cbn [when]. eapply cow_mode_all; [done| |intros; by apply unharmed_at].
  intros h3 live3 v3 sl3 m3 H3. set (x3 := set_x_smp _ _) in *. wp_step.
  apply (when_copy (fo_reset_copy_all_registers opt)); [|intros e m'; by eapply unharmed_at, master_kept_cpu, forked_kept].
  match goal with |- context [sys_at s c _ _ ?mm x3 _] => set (m4 := mm) end. assert (forked h3 live3 m4) as H4 by (subst m4; destruct (fo_reset_copy_all_registers opt); [by apply forked_cpu|done]).
  wp_step. apply (when_user (fo_reset_enter_usermode opt)). match goal with |- context [sys_at s c _ _ ?mm x3 _] => set (m5 := mm) end.
  assert (forked h3 live3 m5) as H5 by (subst m5; destruct (fo_reset_enter_usermode opt); [by apply forked_cpu|done]).
  wp_step. split; [done|]. exists m5, x3. constructor; try done.
  - by apply forked_at.
  - by eapply forked_main.
  - by apply fk_made.
  - by apply forked_kept.
  - subst m5 m4. by destruct (fo_reset_enter_usermode opt), (fo_reset_copy_all_registers opt).
  - apply Forall_fmap, Forall_forall. intros r' _. subst m5 m4. by destruct (fo_reset_enter_usermode opt), (fo_reset_copy_all_registers opt).
  - intros E. subst m5 m4. rewrite E. by destruct (fo_reset_enter_usermode opt).
  - subst m5 m4. by destruct (fo_reset_enter_usermode opt), (fo_reset_copy_all_registers opt).
  - cbn. apply lookup_insert_eq.
  - by exists f.
  - intros d Hd. by apply others_at.
Qed.

(** ** Forking *)

Lemma linked_here (Q : vMemory -> Sys -> Prop) X : Q (own mo) s -> wp (linked o) Q X s.
Proof. intros HQ. unfold linked. wp_step. wp_step. cbn [chain]. rewrite Hmo, Hro. cbn [fst link]. rewrite Hmo. by wp_step. Qed.

(** The members of a new fork. *)
Definition new_extra (k : CpuState) : Extra :=
  mkExtra (default (x_binary xo) (fo_binary opt)) (x_addr xo) (x_mmap_cache xo) true (fo_relocate_fixed_mmap opt) None Signals_new None k [].

Lemma make_fork_wp (Q : unit -> Sys -> Prop) (X : exn -> Sys -> Prop) :
  (forall h live m, loaning h live m -> last_fault_address (cpu m) = 0 ->
     Q tt (sys_at s c h live m (new_extra (new_cpu_state (x_kvm xo))) (fdh s))) ->
  (forall e h live m, master_kept (sys_at s c h live m (new_extra (new_cpu_state (x_kvm xo))) (fdh s)) ->
     X e (sys_at s c h live m (new_extra (new_cpu_state (x_kvm xo))) (fdh s))) ->
  wp (make_fork kvm_create_vm opt c o mo xo) Q X s.
Proof.
  intros HQ HX. unfold make_fork. wp_step. apply linked_here. pose proof Hfk as [].
  set (s0 := mkVM (whost (world s)) (rmem mo)).
  assert (wp (fork_memory_of kvm_create_vm opt (own mo)) (fun _ v => quiet (loaned_state (fo_mem opt) (own mo) (whost (world s))) v)
    (fun _ v => main_kept (own mo) (whost (world s)) v) s0) as Hmem.
  { unfold fork_memory_of. rewrite fk_prepped, fk_writes. destruct kvm_create_vm; cbn [negb orb].
    - by apply fork_memory_wp.
    - apply wp_throw. by split_and!. }
  unfold wp in *. fold (whost (world s)). fold s0. destruct (fork_memory_of _ _ _ s0) as [[[]|e] [[hh ll sl] v]].
  - apply HQ; [|done]. pose proof Hmem as (Eh&_&(E1&E2&E3&_)&_).
    destruct (blank_upd (mkVM (mkHost hh ll sl) v) (fun y => VMemory.set_remote y None)) as [Hc _]; [|done|done|].
    { eapply blank_quiet; [split; [by apply loaned_core|by constructor]|done]. }
    constructor; [by split_and!; [..|left]|exact E3|exact Hc|]. split_and!; [exact E1|exact E2|]. intros q _. cbn in Eh |- *. by rewrite Eh.
  - apply HX. by eapply kept_at.
Qed.

(** A machine whose threads and descriptors can be taken over. *)
Record forkable_machine : Prop := {
  fm_threads : threads_ok (x_mt xo);
  fm_std : forall fd, 0 <= fd <= 2 -> fd ∈ open_fds (fdh s);
  fm_interest : dom (interest (fdh s)) ⊆ open_fds (fdh s);
  fm_table : forall fo, x_fds xo = Some fo -> epoll_coherent fo /\ recorded_well (open_fds (fdh s)) fo }.

(** What becomes of the master's table in a new fork. *)
Definition new_table (t : option FileDescriptors) (fh : fd_host) : Prop :=
  match x_fds xo with
  | None => t = None /\ fh = fdh s
  | Some fo => exists f, t = Some f /\ fhost f = fh /\ table_of (open_fds (fdh s)) ∅ fo f
  end.

Lemma fork_threads_wp h live m x fh (Q : unit -> Sys -> Prop) X : threads_ok (x_mt xo) -> x_mt x = None ->
  c_sregs (cpu m) = fork_sregs (page_tables (rmem m)) ->
  Q tt (sys_at s c h live m (set_x_mt x (x_mt xo) (x_signals x)) fh) ->
  wp (match x_mt xo with Some mt => new_threads junk c ;;; threads_reset junk c o mt | None => ret tt end) Q X
    (sys_at s c h live m x fh).
Proof.
  intros Ht Hx Hs HQ. destruct (x_mt xo) as [mt|].
  - wp_step. unfold new_threads. apply upd_extra_c. eapply threads_reset_wp; [done|apply mt_inv_new|done|].
    intros b Hb. assert (on_cpu (fun v => set_c_sregs v (with_fs (c_sregs v) b)) m = m) as ->; [|exact HQ].
    assert (b = sg_base (s_fs (c_sregs (cpu mo)))) as -> by (destruct Hb as [->| ->]; [unfold fs_base; by rewrite Hs|done]).
    destruct m as [? ? ? ? ? ? []]. unfold on_cpu, set_cpu. cbn in *. subst. unfold set_c_sregs, fork_sregs, set_control, with_fs. cbn.
    by destruct (s_fs (c_sregs (cpu mo))).
  - wp_step. by replace (set_x_mt x None (x_signals x)) with x in HQ by (destruct x; cbn in *; by subst).
Qed.

Lemma fork_fds_wp h live m x (Q : unit -> Sys -> Prop) (X : exn -> Sys -> Prop) : forkable_machine -> x_fds x = None ->
  (forall t fh, new_table t fh -> Q tt (sys_at s c h live m (set_x_fds x t) fh)) ->
  (forall e x' fh, X e (sys_at s c h live m x' fh)) ->
  wp (match x_fds xo with Some f => new_fds c ;;; fds_reset c f | None => ret tt end) Q X (sys_at s c h live m x (fdh s)).
Proof.
  intros [_ Hstd Hint Htab] Hx HQ HX. unfold new_table in HQ. destruct (x_fds xo) as [fo|].
  - destruct (Htab fo eq_refl) as (Hc&Hn). wp_step. unfold new_fds. wp_step. apply machine_c. wp_step. wp_step. apply on_fds_c.
    eapply wp_mono; [apply (FileDescriptors_new_wp None (open_fds (fdh s))); [done|done|done|by intros v (?&?&_)]| |intros; apply HX].
    intros [] f [Hf _]. unfold fds_reset. wp_step. eapply the_fds_c; [done|]. apply on_fds_c.
    replace (set_fhost f (fhost f)) with f by by destruct f.
    eapply wp_mono; [by apply (fds_reset_to_wp (open_fds (fdh s)) ∅)| |intros; apply HX].
    intros [] f' Hf'. apply (HQ (Some f')). exists f'. by split_and!.
  - wp_step. replace x with (set_x_fds x None) by (destruct x; cbn in *; by subst). by apply HQ.
Qed.

Lemma Machine_wp : forkable_machine ->
  wp (Machine_Machine junk kvm_create_vm opt c o)
    (fun _ s' => exists m x, fork_of true false (x_addr xo) new_table s' m x) (fun _ s' => unharmed s') s.
Proof.
  intros Hf. unfold Machine_Machine. wp_step. apply in_world_wp. eapply machine_at_wp; [done|].
  replace (mkSys (world s) (extras s) (fdh s)) with s by by destruct s.
  wp_step. unfold extra_of at 1. wp_step. wp_step. rewrite Hxo. wp_step. wp_step. apply make_fork_wp; [|intros; by apply unharmed_at].
  intros h live m Hl Hlf. wp_step. unfold init_vcpu. wp_step. apply machine_c. wp_step. apply extra_c.
  destruct (vCPU_init _ _ _) as [r k]. wp_step. apply upd_machine_c. wp_step. apply upd_extra_c.
  assert (loaning h live (on_cpu (fun v => set_c_sregs (set_last_fault v 0) (sregs k)) m)) as Hl1 by by apply loaning_cpu.
  set (m1 := on_cpu _ m) in *. destruct r as [[]|e]; wp_step; [|by apply unharmed_at, loaning_kept].
  wp_step. eapply cow_mode_all; [done| |intros; by apply unharmed_at]. intros h2 live2 v2 sl2 m2 H2. wp_step.
  apply fork_threads_wp; [apply Hf|done|done|]. wp_step.
  apply fork_fds_wp; [done|done| |intros; by apply unharmed_at, forked_kept]. intros t fh Ht.
  eapply copy_registers_wp; [done..| |intros; by eapply unharmed_at, master_kept_cpu, forked_kept].
  match goal with |- context [on_cpu ?f m2] => assert (forked h2 live2 (on_cpu f m2)) as H3 by (by apply forked_cpu); set (m3 := on_cpu f m2) in * end.
  match goal with |- context [sys_at s c _ _ m3 ?xx _] => exists m3, xx end. constructor; try done.
  - by apply forked_at.
  - by eapply forked_main.
  - by apply fk_made.
  - by apply forked_kept.
  - cbn. apply lookup_insert_eq.
  - intros d Hd. by apply others_at.
Qed.
End forks.


End laws.

(** ** A small system *)

#[local] Existing Instance Fork.demo_host.
#[local] Existing Instance Fork.demo_laws.
#[local] Existing Instance VcpuSafety.demo_kvm.
#[local] Existing Instance CpuTables.demo_kvm.

(** The master of Fork, with two threads and an event descriptor, and the break at 0x300000. *)
Definition demo_fds : FileDescriptors :=
  mkFds ∅ 0x1000 "" AT_FDCWD 64 0 0 ∅ ∅ 0 [mkPair 0x900 0 EVENTFD] false (mkFdHost ∅ ∅ 0).
Definition demo_addresses (brk : Z) : Addresses := mkAddresses 0x200000 0x300000 0x400000 brk 0x380000 0x200000.
Definition demo_cpu_state : CpuState :=
  mkCpuState None 0 0 None None (mkSregs zero_seg zero_seg zero_seg zero_seg zero_seg zero_seg zero_seg (mkDtable 0 0) (mkDtable 0 0) 0 0 0 0)
    None [] false false None.
Definition demo_extra : Extra :=
  mkExtra 0x5000 (demo_addresses 0x300000) MMapCache.empty_cache false false (Some demo_mt) Signals_new (Some demo_fds) demo_cpu_state [].
Definition demo_sys : Sys := mkSys (as_world Fork.demo_master) (<[1 := demo_extra]> ∅) (mkFdHost {[0; 1; 2]} ∅ 0).
Definition demo_opt : ForkOptions := mkForkOptions demo_fork_options None false false true true.

Lemma as_world_forkable o v : forkable o (vm v) (vhost v) -> forkable o (own (as_machine v)) (whost (as_world v)).
Proof.
  intros []. constructor; try done.
Qed.
Lemma demo_event_recorded foreign : recorded_well foreign demo_fds.
Proof.
  constructor; [apply NoDup_singleton| |by intros sp ->%list_elem_of_singleton].
  intros v ->%list_elem_of_singleton. vm_compute. reflexivity.
Qed.
Lemma demo_forkable_machine : forkable_machine demo_sys demo_extra.
Proof.
  constructor.
  - exact demo_mt_inv.
  - intros fd Hfd. assert (fd = 0 \/ fd = 1 \/ fd = 2) as [->|[->| ->]] by lia; apply (bool_decide_unpack _); vm_compute; exact I.
  - apply (bool_decide_unpack _). vm_compute. exact I.
  - intros fo [= <-]. split.
    + intros vfd p v p2 H. cbn in H. by rewrite lookup_empty in H.
    + apply demo_event_recorded.
Qed.

Lemma machines_as_world v : machines (as_world v) !! 1 = Some (as_machine v).
Proof. apply lookup_insert_eq. Qed.


(** The fork, which then stores to a page, moves its break and registers a signal handler. *)
Definition demo_new : Sys := snd (Machine_Machine demo_junk true demo_opt 2 1 demo_sys).
Definition demo_used : Sys :=
  let s := snd (in_world (in_guest 2 (copy_to_guest 0x202000 [42; 43] false)) demo_new) in
  snd (upd_extra 2 (fun x => set_x_mt (set_x_image x (x_binary x) (demo_addresses 0x310000)) (x_mt x)
    (mkSignals [mkSignalAction 0x201000 false 0 0] ∅)) s).
Definition demo_reset : result bool * Sys := reset_to demo_junk demo_opt 2 1 demo_used.

Definition demo_read (s : Sys) : result (list Z) := fst (in_world (in_guest 2 (copy_from_guest 0x202000 2)) s).

(** The reset takes the page back, but not the break and not the handler. *)
Example reset_keeps_break :
  fst (Machine_Machine demo_junk true demo_opt 2 1 demo_sys) = Ok tt /\
  demo_read demo_used = Ok [42; 43] /\ fst demo_reset = Ok true /\ demo_read (snd demo_reset) = demo_read demo_new /\
  option_map (fun x => m_brk_address (x_addr x)) (extras (snd demo_reset) !! 2) = Some 0x310000 /\
  option_map (fun x => length (sig_actions (x_signals x))) (extras (snd demo_reset) !! 2) = Some 1%nat.
Proof. split_and!; vm_compute; reflexivity. Qed.

(** The master is forkable as long as its memory is as it was. *)
Lemma forkable_kept o m h h' : forkable o m h -> (forall q, main_word m q -> ld64 (h_heap h') q = ld64 (h_heap h) q) ->
  (ptr m, size m) ∈ h_live h' -> forkable o m h'.
Proof.
  intros Hfk Hq Hl. pose proof (loaned_core o m h Hfk) as [Hb _ Hm _]. pose proof Hfk as []. constructor; try done. unfold PT_ADDR in *.
  assert (physbase m ⊕ 0x9000 = physbase m + 0x9000) as Ea by (apply add64_small; unfold u64; lia).
  assert (u64 (physbase m + 0x9000)) as Hu by (unfold u64; lia). rewrite Ea in *.
  set (L := set_m_kernel_end (loaned o m) (m_kernel_end m)) in *.
  apply (frozen_same_main 4 true L m); [done..|].
  apply (frozen_stable _ _ _ Hb Hm 4 true L (h_heap h) (h_heap h')); [apply same_main_refl|done|done|dlia| |].
  - apply (in_main_spec _ _ _ Hb Hm); [done|]. subst L. cbn. lia.
  - by apply (frozen_same_main 4 true m L).
Qed.

Lemma forkable_after opt s c mo xo copied user addr table s' m x :
  forkable (fo_mem opt) (own mo) (whost (world s)) -> fork_of s c mo xo copied user addr table s' m x ->
  forkable (fo_mem opt) (own mo) (whost (world s')).
Proof.
  intros Hf []. destruct fr_at0 as (_&_&(Ψ&Hi)), fr_main0 as [E1 E2].
  apply (forkable_kept _ _ (whost (world s))); [done|exact fr_kept0|].
  pose proof (mo_live _ _ (fi_main _ _ Hi)) as Hl. cbn in *. by rewrite E1, E2 in Hl.
Qed.

Lemma fhost_id f : set_fhost f (fhost f) = f.
Proof. by destruct f. Qed.

Lemma demo_coherent : epoll_coherent demo_fds.
Proof. intros vfd p v p2 H. cbn in H. by rewrite lookup_empty in H. Qed.

Lemma sys_run {A} (m : M Sys A) Q X s : wp m Q X s -> is_ok (fst (m s)) = true -> exists a, Q a (snd (m s)).
Proof. unfold wp. destruct (m s) as [[a|e] t]; [eauto|done]. Qed.

Lemma demo_new_fork : exists m x, fork_of demo_sys 2 (as_machine Fork.demo_master) demo_extra true false (x_addr demo_extra)
  (new_table demo_sys demo_extra) demo_new m x.
Proof.
  destruct (sys_run (Machine_Machine demo_junk true demo_opt 2 1)
    (fun _ s' => exists m x, fork_of demo_sys 2 (as_machine Fork.demo_master) demo_extra true false (x_addr demo_extra)
       (new_table demo_sys demo_extra) s' m x) (fun _ s' => unharmed demo_sys 2 (as_machine Fork.demo_master) s') demo_sys) as [_ H].
  - apply Machine_wp; [discriminate|apply machines_as_world|reflexivity|reflexivity|apply as_world_forkable, demo_forkable|exact demo_forkable_machine].
  - vm_compute. reflexivity.
  - exact H.
Qed.

(** What is computed of the new fork: that it is one, its place, the room in its banks, and that
    it has the master's binary and memory. *)
Definition demo_checks (s : Sys) : option (bool * Z * bool * bool) :=
  match machines (world s) !! 2, extras s !! 2 with
  | Some m, Some x => Some (m_forked (rmem m), physbase (rmem m),
      reserved_banks (set_max (banks (rmem m)) (max_cow_mem demo_options / 4096)) <=? m_capacity (banks (rmem m)),
      swapped (as_machine Fork.demo_master) demo_extra m x)
  | _, _ => None
  end.
Lemma demo_checked : demo_checks demo_new = Some (true, 0, true, false).
Proof. vm_compute. reflexivity. Qed.

Lemma demo_sys_forkable : forkable (fo_mem demo_opt) (own (as_machine Fork.demo_master)) (whost (world demo_sys)).
Proof. apply as_world_forkable, demo_forkable. Qed.

Lemma demo_resettable : exists mc xc fc, x_addr xc = demo_addresses 0x300000 /\
  machines (world demo_new) !! 1 = Some (as_machine Fork.demo_master) /\ extras demo_new !! 1 = Some demo_extra /\
  forkable (fo_mem demo_opt) (own (as_machine Fork.demo_master)) (whost (world demo_new)) /\
  resettable demo_new 2 (as_machine Fork.demo_master) demo_extra demo_opt {[0; 1; 2]} ∅ mc xc fc demo_fds.
Proof.
  destruct demo_new_fork as (m&x&Hfork). pose proof Hfork as []. pose proof fr_at0 as (Em&_). destruct fr_main0 as [_ E2].
  destruct fr_table0 as (f&Ef&Eh&Ht1&_). destruct (fr_others0 1 ltac:(discriminate)) as [Em1 Ex1].
  pose proof demo_checked as Hc. unfold demo_checks in Hc. rewrite Em, fr_extra0 in Hc. injection Hc as Hc1 Hc2 Hc3 Hc4.
  exists m, x, f. split_and!; [exact fr_addr0|rewrite Em1; apply machines_as_world|rewrite Ex1; reflexivity| |].
  - exact (forkable_after _ _ _ _ _ _ _ _ _ _ _ _ demo_sys_forkable Hfork).
  - constructor; [exact Em|exact fr_extra0|exact fr_at0|exact Hc1|exact (fk_prepped _ _ _ demo_forkable)|reflexivity| | |
      split; [rewrite fr_threads0|]; exact demo_mt_inv|split; [exact Ef|reflexivity]| |..].
    + constructor; [reflexivity|vm_compute; split; [discriminate|reflexivity]|apply Z.leb_le; exact Hc3].
    + rewrite Hc4. split; [exact E2|]. rewrite Hc2. vm_compute. reflexivity.
    + rewrite <- Eh, fhost_id. exact Ht1.
    + exact demo_coherent.
    + apply demo_event_recorded.
Qed.

